(* ===== verification/_CoqProject ===== *)
-Q . S2P
Prelude.v
Go.v
Sha256.v
Json.v
Identity.v
Schedule.v
Activity.v
ActivityInv.v
Waits.v
Contract.v
Wire.v
Migration.v
Integrity.v
Children.v
ChildBudget.v
ChildrenInv.v
Aggregate.v
Runtime.v
WireRecords.v
Store.v
StoreInv.v
StoreExample.v
Postgres.v
Discovery.v
Session.v
ActivityCall.v
ActivityCallInv.v
StoreWorld.v
PostgresInv.v
PostgresOps.v
PostgresLifecycle.v
DiscoveryInv.v
PostgresWorld.v
DiscoveryPoll.v
DiscoveryDue.v
PostgresExample.v
ActivityExample.v
Checkpointer.v
CheckpointerInv.v
CheckpointerExample.v
Launch.v
LaunchInv.v
LaunchExample.v
Graph.v
Handoff.v
Runner.v
RunnerInv.v
RunnerExample.v
DurableSession.v
SessionNodes.v
DurableExample.v
MemoryCheckpointer.v
HandoffInv.v
Resume.v
ResumeInv.v
ResumeExample.v
Compose.v
ComposeInv.v
ComposeExample.v
Patterns.v
PatternsInv.v
PatternsExample.v
Mermaid.v
CheckpointRecord.v
PostgresThreads.v
PostgresThreadsInv.v
PostgresFences.v
RecordExample.v
PostgresThreadsExample.v
TypedChildren.v
DurableRunner.v
Sessions.v
Stream.v
Lifecycle.v
Operators.v
OperatorsInv.v
DurableRunInv.v
OperatorsExample.v
DiscoveryExample.v
DurableRunExample.v
