(* ===== verification/Prelude.v ===== *)
(** * Flowy: a verification library for the durable graph runtime

    Flowy (package [flowy], in Go) runs graphs of host functions and makes their execution
    durable: a run is a sequence of commits of one envelope per execution, under a lease with a
    fencing token; effects on the outside go through a journal of activities; nodes wait for
    events and launch child executions through records of the same envelope; operators settle
    what a run left open. This library models that runtime and proves what it promises.

    ** Conventions

    Records, constructors and functions keep the names of the source; a field carries a prefix
    of its struct. A function that returns an error returns [res]; a method that changes a
    state is a function of that state. Go.v has the fragment of the language and of its
    standard library: machine integers with their wrap-around, times, error values with
    [errors.Is], UTF-8. Host functions (nodes, routers, dispatchers, codecs, stores, clocks)
    are arguments. What the runtime relies on of storage and of encoding/json is stated as
    classes: [StoreContract], [JsonCodec], [JsonRoundTrip], [CheckpointerContract]; concrete
    instances show that they can hold (StoreWorld.v, Wire.v, WireRecords.v,
    MemoryCheckpointer.v), and closed examples apply the theorems to them.

    ** The parts and where they are

    - Encodings and identities. Json.v (the texts that are hashed), Sha256.v, Identity.v
      ([activityAddressIdentity] and its kin), Schedule.v (activity_schedule.go: retry policies,
      delays, deadlines).
    - Records of an envelope and their transitions. Activity.v, ActivityInv.v (activity.go and
      the integrity files); Waits.v (durable_wait_*.go); Children.v, ChildBudget.v,
      ChildrenInv.v (child_*.go). Each has its validator, its transitions, an invariant by
      induction on them, and what no transition can undo.
    - The envelope. Contract.v, Integrity.v (execution_contract.go, execution_integrity.go),
      Migration.v (the registry walk), Aggregate.v (the collections of an envelope and the
      gates of its lifecycle).
    - Storage. Store.v, StoreInv.v (testutil/execution_store.go with its retention and
      rollover files, lease.go), StoreWorld.v (the store behind the interface of Session.v).
      Postgres.v (adapters/checkpointer/postgres: tables, statements, transactions),
      PostgresInv.v (the tables as a state of the store of Store.v), PostgresOps.v,
      PostgresLifecycle.v (the effect of each operation), PostgresWorld.v (the refinement and
      the second instance of the interface); Discovery.v (polling for due work, registration
      of waits, repair), DiscoveryInv.v (discovery rows follow the heads), DiscoveryPoll.v,
      DiscoveryDue.v (a polling cycle returns what is due). PostgresThreads.v (the checkpointer
      and lease manager of PostgreSQL), PostgresThreadsInv.v (rows as the history of the
      in-memory checkpointer), PostgresFences.v (leases, fenced writes, the refinement).
    - A session on one execution (execution_checkpointer.go). Session.v (state and monad),
      ActivityCall.v, ActivityCallInv.v ([CallActivity]), Checkpointer.v, CheckpointerInv.v
      (steps, waits, child groups), Launch.v, LaunchInv.v (the concurrent launch of children).
    - Running graphs. Runtime.v (directives, results, events), Graph.v (builder.go), Handoff.v,
      HandoffInv.v (runner_checkpoint.go, runner_publication.go, handoff_outbox.go), Runner.v,
      RunnerInv.v (runner_execution.go), Resume.v, ResumeInv.v (runner_recovery.go, runner.go),
      MemoryCheckpointer.v.
    - Around a runner. Compose.v, ComposeInv.v (compose.go, compose_capture.go: a graph as a
      node, its slot and its capture checkpointer), Patterns.v, PatternsInv.v
      (patterns/patterns.go), Sessions.v (runner_sessions.go, handoff.go: the local runs and
      requests of a runner, a step relation), Stream.v (runner_stream.go, stream_helpers.go),
      Mermaid.v (mermaid.go), CheckpointRecord.v (checkpoint/checkpoint.go and
      checkpointer_lease_guard.go), TypedChildren.v (child_typed.go).
    - Durable runs. DurableSession.v (the loop over a session), SessionNodes.v (the operations
      that nodes call on the session keep what the loop asks of handlers), DurableRunner.v,
      DurableRunInv.v (durable_runner.go: [Start], [Resume]), Lifecycle.v ([Fork], [Import],
      [Rollover]), Operators.v, OperatorsInv.v (the six operator decisions).

    Files ending in Example.v apply the theorems at concrete inputs.

    ** How the parts interact

    A durable run acquires a lease (DurableRunner.v on [ExecutionStore]), loads or creates an
    envelope, migrates it (Migration.v), and executes the graph (Runner.v) with the session as
    its checkpointer (DurableSession.v over Checkpointer.v). Nodes call activities
    (ActivityCall.v), launch children (Launch.v) and arm waits through the session; each is a
    commit of an envelope whose collections Aggregate.v checks with the validators of the
    record files. Operator decisions (Operators.v) commit to the same envelope between runs.
    The theorems follow the same path: those of sessions are proved against [StoreContract],
    those of durable runs compose them with the loop. Of a graph they ask that its handlers and
    routers work in the session of the execution and leave the store intact
    ([graph_in_session]); SessionNodes.v shows that activity calls and child operations do, on
    every path, lost acknowledgements included. [store_keeps] is the part of [StoreContract]
    that a store keeps of its own accord; both stores keep it where JSON carries the envelopes
    they seal without loss, and [gated] restricts a store to callers of that kind.
    [CheckpointerContract] asks of [Save] that a failure leaves the snapshots as they were or
    was a save that took effect without being acknowledged.

    ** What the theorems show

    - End to end: a durable run returns, and a completion it reports is the stored head
      ([completed_execution_durable]); after each completed turn the head is the state of the loop
      ([step_boundary_durable], [step_commit_atomic]); an operator decision is one commit or
      none ([operator_decision_atomic], [delivered_decision_durable]).
    - Effects: attempts and children are written before they are dispatched and never
      dispatched twice ([dispatch_write_ahead], [child_dispatch_write_ahead],
      [recorded_never_redispatched], [returned_outcome_durable]); a launch is bounded, ends,
      and succeeds only when settled ([child_dispatch_bounded], [child_launch_completes],
      [child_launch_settled]).
    - State machines: reachable records pass the runtime's own validators and settled ones are
      final ([reachable_activity_valid], [reachable_group_valid], [wait_lifecycle_valid],
      [first_commit_wins], [settled_children_final]); [resolution_gate_exact] says when a
      cursor may move.
    - Storage: commits linearize, stale leases are fenced, history is immutable, a rollover
      transfers authority once, and the reference store keeps the contract. The PostgreSQL
      store refines it under every schedule of operations, faults and lost acknowledgements
      ([postgres_refines_reference]) and keeps the same contract on the same terms
      ([postgres_store_keeps_contract]), so the theorems on sessions hold over it too. A
      transaction is one step because it takes the lock on the row of its execution first;
      what the server does to a [jsonb] text is a class with laws ([LawfulColumns]), and so is
      its order of text ([LawfulCollation]). A polling cycle over tables that stand still
      returns each due wait and retry once, never early and never a microsecond late
      ([due_work_found]). Checkpoints and leases of
      threads in PostgreSQL do what the in-memory ones do ([postgres_threads_refine]), but for
      the deletion of an idle thread, which can report success and delete nothing
      ([idle_thread_kept]); a superseded lease writes nothing ([superseded_lease_fenced]). There a transaction is one
      step by the advisory lock of its thread; retention and unconditional deletion take no
      lock and are taken to run between transactions.
    - Composition: a paused subgraph continues from its slot and publishes each effect once
      ([subgraph_effects_once], by reasoning on the capture checkpointer that the inner loop
      leaves alone until its last save); the looping patterns keep their bound
      ([pattern_retries_bounded]) for nodes without retries of their own, and [pattern_graphs_compile] says which graphs compile; a
      stream keeps order and capacity and never blocks its run ([stream_delivery], a step
      relation with consumers and stop requests); a runner has one active run per thread
      ([one_active_run]); records and plans read back
      ([checkpoint_record_roundtrip], [projected_children]). [mermaid_ids_separate] states
      exactly when exported identifiers collide, and [mermaid_ids_collide] that they can.
    - Pure routines: migration chains and retry delays agree with declarative definitions,
      [Compile] accepts exactly the valid builders, seals and identities are unambiguous up to
      a SHA-256 collision; handoff and recovery report what was stored when they last heard of
      it ([handoff_report_true], [recovery_report_true]) and a resume starts from it.

    ** Bounds and fuel

    [executeLoop] takes [executionFuel], the step limit less the steps already counted and one
    more turn; [execution_terminates] shows that it always suffices. [chainLoop] takes the
    number of edges and two; [migration_chain_correct] shows that it never runs out. [poll]
    takes one page per due row and one more; [due_work_found] shows that they suffice. Integers
    of fixed width wrap where the source could wrap, and guards against overflow are modelled.

    ** Not modelled

    Lifecycle observers, metrics, logs and telemetry (notifications that change no state; a
    telemetry context is an opaque value that is passed on); bindings (context values that
    only host code reads); the ticker of the heartbeat and the clock of deadlines (a context may
    be found cancelled at any reading instead); panics of host functions outside the places where the source recovers them; the Redis
    adapters (their contracts are the interfaces that the in-memory stores are proved to keep);
    examples, scripts, exporters. *)

From stdpp Require Export base tactics option list strings numbers gmap sorting.
From Stdlib Require Export ZArith Lia Ascii.

Declare Scope go_scope.
Delimit Scope go_scope with go.
Open Scope string_scope.
Open Scope list_scope.
Open Scope go_scope.

(** ** Boolean comparisons

    Go conditions are modelled by Boolean terms, so that every definition runs.
    [==] and [!=] decide Leibniz equality on any type with [EqDecision]. *)
Notation "x == y" := (bool_decide (x = y)) (at level 70, no associativity) : go_scope.
Notation "x != y" := (negb (bool_decide (x = y))) (at level 70, no associativity) : go_scope.

(** ** Record update

    [r <| f := v |>] is Go's [r.f = v] on a copy of the struct. A record supplies
    an [Eta] instance once; setters are derived from it. *)
Class Eta (R : Type) := eta_expand : R -> R.
Class Setter {R E : Type} (proj : R -> E) := upd : (E -> E) -> R -> R.
Arguments upd {R E} proj {Setter} f r /.

Ltac derive_setter R proj :=
  let e := constr:(_ : Eta R) in
  let e := eval hnf in e in
  match eval pattern proj in e with
  | ?g _ =>
      let s := eval cbv beta in (fun f : _ -> _ => g (fun x => f (proj x))) in exact s
  end.

#[export] Hint Extern 1 (@Setter ?R _ ?proj) => derive_setter R proj : typeclass_instances.

Notation "r <| f := v |>" := (upd f (fun _ => v) r)
  (at level 1, left associativity, format "r <| f  :=  v |>") : go_scope.

(** ** Go maps

    A Go map is a [gmap]. [range] fixes one iteration order; code whose result could
    depend on the order is proved independent of it where the order matters.
    [map_all f m] is the loop that returns early on the first entry failing [f]. *)
Definition range {V} (m : gmap string V) : list (string * V) := map_to_list m.
Definition map_all {V} (f : string -> V -> bool) (m : gmap string V) : bool :=
  forallb (fun kv => f kv.1 kv.2) (range m).

(** Go's [len] on slices, strings and maps is an [int]. *)
Definition len {A} (l : list A) : Z := Z.of_nat (length l).

(** The last element of a slice, [s[len(s)-1]]. *)
Definition update_last {A} (f : A -> A) (l : list A) : list A :=
  match rev l with
  | [] => []
  | x :: r => rev r ++ [f x]
  end.

(** A [for index, x := range xs] loop over a slice that only checks. *)
Fixpoint all_index {A} (f : nat -> A -> bool) (i : nat) (l : list A) : bool :=
  match l with
  | [] => true
  | x :: r => f i x && all_index f (S i) r
  end.

(** ** Automation *)

Lemma bool_decide_true_iff (P : Prop) `{Decision P} : bool_decide P = true <-> P.
Proof. apply bool_decide_eq_true. Qed.

Lemma bool_decide_false_iff (P : Prop) `{Decision P} : bool_decide P = false <-> ~ P.
Proof. apply bool_decide_eq_false. Qed.

Create HintDb flowy.
Create HintDb flowy_bool.
#[export] Hint Rewrite andb_true_iff andb_false_iff orb_true_iff orb_false_iff
  negb_true_iff negb_false_iff bool_decide_true_iff bool_decide_false_iff
  Z.leb_le Z.ltb_lt Z.leb_gt Z.ltb_ge Z.eqb_eq Z.eqb_neq
  N.leb_le N.ltb_lt N.leb_gt N.ltb_ge N.eqb_eq N.eqb_neq : flowy_bool.

(** Turn Boolean hypotheses (and the goal) into propositions. *)
Ltac reflect_bools :=
  repeat match goal with
  | H : context [bool_decide] |- _ => progress (autorewrite with flowy_bool in H)
  | H : @eq bool _ _ |- _ => progress (autorewrite with flowy_bool in H)
  end;
  autorewrite with flowy_bool; destruct_and?; try fast_done; try congruence.

(** Split every disjunction of the context and close the impossible cases. *)
Ltac or_cases :=
  repeat match goal with H : _ \/ _ |- _ => destruct H end; try (done || lia || congruence).

(** Case analysis on the guard of the next [if] of a hypothesis or of the goal. *)
Ltac guard_in H :=
  match type of H with
  | context [if ?b then _ else _] => let E := fresh "Hg" in destruct b eqn:E
  end.
Ltac guard_goal :=
  match goal with
  | |- context [if ?b then _ else _] => let E := fresh "Hg" in destruct b eqn:E
  end.

(** ** Shared lemmas on lists and maps *)

Lemma forallb_Forall {A} (f : A -> bool) (l : list A) :
  forallb f l = true <-> Forall (fun x => f x = true) l.
Proof. rewrite forallb_forall, Forall_forall. setoid_rewrite list_elem_of_In. done. Qed.

Lemma map_all_true {V} (f : string -> V -> bool) (m : gmap string V) :
  map_all f m = true <-> map_Forall (fun k v => f k v = true) m.
Proof.
  unfold map_all, range. rewrite forallb_Forall.
  rewrite map_Forall_to_list, Forall_forall, Forall_forall.
  split; intros H [k v] Hkv; apply (H (k, v) Hkv).
Qed.

Lemma map_all_reflect {V} (f : string -> V -> bool) (P : string -> V -> Prop) (m : gmap string V) :
  (forall k v, f k v = true <-> P k v) -> map_all f m = true <-> map_Forall P m.
Proof. intros Hf. rewrite map_all_true. split; intros H k v Hk; apply Hf, (H k v Hk). Qed.

Lemma map_all_insert {V} (f : string -> V -> bool) k v (m : gmap string V) :
  f k v = true -> map_all f m = true -> map_all f (<[k:=v]> m) = true.
Proof. rewrite !map_all_true. intros. by apply map_Forall_insert_2. Qed.

Lemma map_all_lookup {V} (f : string -> V -> bool) k v (m : gmap string V) :
  map_all f m = true -> m !! k = Some v -> f k v = true.
Proof. rewrite map_all_true. intros H Hk. exact (H k v Hk). Qed.

Lemma map_all_empty {V} (f : string -> V -> bool) : map_all f (∅ : gmap string V) = true.
Proof. apply map_all_true, map_Forall_empty. Qed.

Lemma update_last_snoc {A} (f : A -> A) (l : list A) (x : A) :
  update_last f (l ++ [x]) = l ++ [f x].
Proof. unfold update_last. rewrite rev_app_distr. simpl. by rewrite rev_involutive. Qed.

Lemma length_update_last {A} (f : A -> A) (l : list A) :
  length (update_last f l) = length l.
Proof.
  destruct l as [|y r _] using rev_ind; [done|].
  by rewrite update_last_snoc, !length_app.
Qed.

Lemma len_app {A} (l k : list A) : len (l ++ k) = (len l + len k)%Z.
Proof. unfold len. rewrite length_app. lia. Qed.

Lemma len_nonneg {A} (l : list A) : (0 <= len l)%Z.
Proof. unfold len. lia. Qed.

Lemma all_index_app {A} (f : nat -> A -> bool) i (l k : list A) :
  all_index f i (l ++ k) = all_index f i l && all_index f (i + length l) k.
Proof.
  revert i. induction l as [|x l IH]; intros i; simpl.
  - by rewrite Nat.add_0_r.
  - rewrite IH, Nat.add_succ_r. by rewrite andb_assoc.
Qed.

Lemma all_index_true {A} (f : nat -> A -> bool) i (l : list A) :
  all_index f i l = true <-> (forall j x, l !! j = Some x -> f (i + j)%nat x = true).
Proof.
  revert i. induction l as [|y l IH]; intros i; simpl.
  - split; [|done]. intros _ j x Hj. by rewrite lookup_nil in Hj.
  - rewrite andb_true_iff, IH. split.
    + intros [H1 H2] [|j] x Hj; simpl in Hj.
      * simplify_eq. by rewrite Nat.add_0_r.
      * rewrite Nat.add_succ_r. apply (H2 j x Hj).
    + intros H. split.
      * specialize (H 0%nat y eq_refl). by rewrite Nat.add_0_r in H.
      * intros j x Hj. specialize (H (S j) x Hj). by rewrite Nat.add_succ_r in H.
Qed.
