(* ===== verification/Go.v ===== *)
(** * The fragment of Go and its standard library the runtime uses

    Machine integers, [time.Time], error values, UTF-8 text, hexadecimal digests and the
    error monad in which fallible functions are written. Strings and byte slices are
    both [string], a sequence of bytes; a nil slice and an empty one are the same
    value, as every length test of the source treats them. *)

From S2P Require Import Prelude.

(** ** Machine integers

    [uint64] values are [N]; the operations of the source that can leave the width wrap
    explicitly. [int], [int64] and [time.Duration] are [Z]. *)
Definition max_uint64 : N := 18446744073709551615.
Definition succ_u64 (n : N) : N := ((n + 1) mod 18446744073709551616)%N.
Definition max_int64 : Z := 9223372036854775807.
Definition wrap_int64 (z : Z) : Z :=
  ((z + 9223372036854775808) mod 18446744073709551616 - 9223372036854775808)%Z.
Definition is_int64 (z : Z) : Prop := (- 9223372036854775808 <= z <= 9223372036854775807)%Z.
Definition is_u64 (n : N) : Prop := (n <= max_uint64)%N.

Lemma wrap_int64_id z : is_int64 z -> wrap_int64 z = z.
Proof. unfold is_int64, wrap_int64. intros. rewrite Z.mod_small; lia. Qed.

Lemma succ_u64_lt n : (n < max_uint64)%N -> succ_u64 n = (n + 1)%N.
Proof. unfold succ_u64, max_uint64. intros. apply N.mod_small. lia. Qed.

Lemma succ_u64_is n : is_u64 (succ_u64 n).
Proof.
  unfold is_u64, succ_u64, max_uint64. pose proof (N.mod_lt (n + 1) 18446744073709551616 ltac:(done)). lia.
Qed.

(** ** Time

    An instant in nanoseconds since [0001-01-01T00:00:00Z], the zero [time.Time], with
    the location it is displayed in. [==] on struct values compares both components,
    [Equal], [Before] and [After] only the instant. *)
Inductive Location := UTC | FixedZone (offset : Z).
#[export] Instance Location_eq_dec : EqDecision Location.
Proof. solve_decision. Defined.

Record Time := mkTime { time_ns : Z; time_loc : Location }.
#[export] Instance Time_eq_dec : EqDecision Time.
Proof. solve_decision. Defined.

Definition time_zero : Time := mkTime 0 UTC.
Definition IsZero (t : Time) : bool := time_ns t == 0%Z.
Definition toUTC (t : Time) : Time := mkTime (time_ns t) UTC.
Definition Add (t : Time) (d : Z) : Time := mkTime (time_ns t + d) (time_loc t).
Definition Before (t u : Time) : bool := (time_ns t <? time_ns u)%Z.
Definition After (t u : Time) : bool := (time_ns u <? time_ns t)%Z.
Definition TimeEqual (t u : Time) : bool := time_ns t == time_ns u.
Definition zoneOffset (t : Time) : Z := match time_loc t with UTC => 0 | FixedZone o => o end.

(** [10000-01-01T00:00:00Z]: the years 1 to 9999 are [3652059] days long, so
    [t.UTC().Year() >= 1 && t.UTC().Year() <= 9999] is a range test on the instant. *)
Definition year10000_ns : Z := 3652059 * 86400 * 1000000000.
Definition year_within_1_9999 (t : Time) : bool :=
  (0 <=? time_ns t)%Z && (time_ns t <? year10000_ns)%Z.

(** ** Errors

    The package's sentinel values, errors returned by host code, [fmt.Errorf] of a format
    with the arguments of its verbs ([ErrWrap] where the last verb is [%w]), wrapped pairs
    ([errors.Join] and [fmt.Errorf] with two [%w] verbs) and the two structured error
    types. *)
Inductive sentinel :=
| ErrExecutionIncompatible | ErrMigrationMissing | ErrMigrationInvalid
| ErrExecutionFailed | ErrExecutionTransferred | ErrInvalidSnapshot
| ErrExecutionCorrupt | ErrExecutionCapability | ErrExecutionImportInvalid
| ErrActivityConflict | ErrActivityUnknown | ErrActivityBusy
| ErrActivityJournalUnavailable | ErrActivityScheduleInvalid
| ErrActivityRetryPending | ErrActivityAttemptsExhausted | ErrActivityFailed
| ErrLeaseLost | ErrLeaseHeld | ErrThreadLeaseBusy | ErrConcurrencyConflict
| ErrThreadNotFound | ErrExecutionCheckpointUnavailable | ErrExecutionHistoryUnsupported
| ErrExecutionLifecycleInvalid | ErrExecutionSourceDigest
| ErrExecutionLifecycleUnsupported | ErrExecutionLifecycleUnsafe
| ErrExecutionLifecycleLimit | ErrExecutionRolloverConflict
| ErrForkPolicy | ErrForkTransform | ErrForkTargetConflict | ErrForkUnresolved
| ErrChildDuplicate | ErrChildInvalid | ErrChildRevision | ErrChildrenUnresolved
| ErrChildMergeConflict | ErrChildBusy | ErrBudgetExceeded
| ErrWaitInvalid | ErrWaitConflict | ErrWaitNotArmed | ErrWaitUnknown | ErrWaitStale
| ErrWaitUnresolved | ErrWaitRegistration | ErrWaitCanceled | ErrWaitExpired
| ErrInvalidResumeToken | ErrResumeStartNodeNotFound | ErrInvalidHandoffIntent
| ErrHandoffEnqueueFailed | ErrHandoffPatchFailed | ErrHandoffPending
| ErrHandoffOrphaned | ErrHandoffAlreadyEnqueued | ErrHandoffNotRecoverable
| ErrHandoffOutboxRequired | ErrMaxStepsExceeded | ErrRetryBudgetExceeded
| ErrRemovedNext | ErrInvalidResumePlan | ErrCheckpointSkipped
| ErrLeaseOwnerRequired | ErrRunCleanup | ErrNoActiveExecution | ErrThreadAlreadyRunning
| ErrResumeTargetPolicyFailed | ErrTransactionalOutboxUnsupported | ErrTransactionalHandoffCommitFailed
| ErrSnapshotEnvelopeInvalid | ErrOverlayMergerRequired | ErrBudgetInvalid | ErrBudgetContext
| ErrInvalidCheckpointPolicy | ErrDurableStateUnavailable | ErrHandoffRequested | ErrHandoffNotCompleted
| ErrDiscoveryRebuildRequired | ErrDiscoveryCursor | ErrDiscoveryStaleRevision
| ErrDiscoveryProfileMismatch | ErrDiscoveryProjectionMismatch
| ContextCanceled | ContextDeadlineExceeded.
#[export] Instance sentinel_eq_dec : EqDecision sentinel.
Proof. solve_decision. Defined.

Inductive error :=
| ErrS (s : sentinel)
| ErrHost (message : string)
| ErrFmt (format : string) (args : list string)
| ErrWrap (format : string) (args : list string) (e : error)
| ErrJoin (e1 e2 : error)
| ActivityRetryPendingError (identity : string) (deadline : Time) (revision : N)
| PersistedExecutionError (message reason : string).
#[export] Instance error_eq_dec : EqDecision error.
Proof. solve_decision. Defined.
Coercion ErrS : sentinel >-> error.

(** [errors.Is(err, target)] for a sentinel target, through every [Unwrap];
    [ErrSnapshotEnvelopeInvalid] is the one sentinel that wraps another. *)
Fixpoint errors_Is (e : error) (s : sentinel) : bool :=
  match e with
  | ErrS t => (t == s) || ((t == ErrSnapshotEnvelopeInvalid) && (s == ErrInvalidSnapshot))
  | ErrHost _ => false
  | ErrFmt _ _ => false
  | ErrWrap _ _ e => errors_Is e s
  | ErrJoin e1 e2 => errors_Is e1 s || errors_Is e2 s
  | ActivityRetryPendingError _ _ _ => s == ErrActivityRetryPending
  | PersistedExecutionError _ _ => s == ErrExecutionFailed
  end.

(** A function returning only [error] returns [option error]: [None] is [nil]. *)
Definition is_nil {A} (o : option A) : bool := match o with None => true | Some _ => false end.
Lemma is_nil_true {A} (o : option A) : is_nil o = true <-> o = None.
Proof. by destruct o. Qed.

(** [errors.Join(e1, e2)] when either may be nil. *)
Definition errors_Join (e1 e2 : option error) : option error :=
  match e1, e2 with
  | None, e => e
  | e, None => e
  | Some a, Some b => Some (ErrJoin a b)
  end.

(** ** The error monad: [(A, error)] results whose value is meaningless on error. *)
Inductive res (A : Type) := Ok (a : A) | Err (e : error).
Arguments Ok {A} a.
Arguments Err {A} e.

#[export] Instance res_ret : MRet res := fun A a => Ok a.
#[export] Instance res_bind : MBind res := fun A B f m =>
  match m with Ok a => f a | Err e => Err e end.

(** [if err := f(); err != nil { return err }]. *)
Definition check (e : option error) : res unit :=
  match e with None => Ok tt | Some x => Err x end.
Definition err_of {A} (r : res A) : option error :=
  match r with Ok _ => None | Err e => Some e end.
Definition of_option {A} (o : option A) (e : error) : res A :=
  match o with Some a => Ok a | None => Err e end.

Lemma bind_Ok {A B} (m : res A) (f : A -> res B) b :
  m ≫= f = Ok b <-> exists a, m = Ok a /\ f a = Ok b.
Proof.
  destruct m; simpl; split; intros H.
  - eauto.
  - by destruct H as (? & [= <-] & ?).
  - done.
  - by destruct H as (? & ? & ?).
Qed.

Lemma check_Ok e u : check e = Ok u <-> e = None.
Proof. destruct e, u; simpl; split; congruence. Qed.

(** Decompose a successful monadic computation into its successful steps. *)
Ltac inv_ok H :=
  repeat match type of H with
  | mbind _ ?m = Ok _ =>
      let x := fresh "x" in let Hx := fresh "Hok" in
      apply bind_Ok in H; destruct H as (x & Hx & H)
  end.

(** ** UTF-8 text: [utf8.ValidString] *)

Definition ord (c : ascii) : N := N_of_ascii c.
Definition byte_in (lo hi : N) (c : ascii) : bool := (lo <=? ord c)%N && (ord c <=? hi)%N.
Definition continuation : ascii -> bool := byte_in 0x80 0xBF.
Definition rune1 (a : ascii) : bool := byte_in 0 0x7F a.
Definition rune2 (a b : ascii) : bool := byte_in 0xC2 0xDF a && continuation b.
Definition rune3 (a b c : ascii) : bool :=
  ((byte_in 0xE0 0xE0 a && byte_in 0xA0 0xBF b)
   || (byte_in 0xED 0xED a && byte_in 0x80 0x9F b)
   || ((byte_in 0xE1 0xEC a || byte_in 0xEE 0xEF a) && continuation b))
  && continuation c.
Definition rune4 (a b c d : ascii) : bool :=
  ((byte_in 0xF0 0xF0 a && byte_in 0x90 0xBF b)
   || (byte_in 0xF4 0xF4 a && byte_in 0x80 0x8F b)
   || (byte_in 0xF1 0xF3 a && continuation b))
  && continuation c && continuation d.

(** Consume one encoded code point at a time; anything else is invalid. *)
Fixpoint ValidString (s : string) : bool :=
  match s with
  | EmptyString => true
  | String a s1 =>
      if rune1 a then ValidString s1
      else match s1 with
      | EmptyString => false
      | String b s2 =>
          if rune2 a b then ValidString s2
          else match s2 with
          | EmptyString => false
          | String c s3 =>
              if rune3 a b c then ValidString s3
              else match s3 with
              | EmptyString => false
              | String d s4 => rune4 a b c d && ValidString s4
              end
          end
      end
  end.

(** [validRuntimeText(values...)] of execution_text.go. *)
Definition validRuntimeText (values : list string) : bool := forallb ValidString values.

(** ** Hexadecimal: [hex.EncodeToString] and [hex.DecodeString] *)

Definition hex_digit (n : N) : ascii :=
  ascii_of_N (if (n <? 10)%N then 48 + n else 87 + n)%N.
Definition hex_value (c : ascii) : option N :=
  if byte_in 48 57 c then Some (ord c - 48)%N
  else if byte_in 97 102 c then Some (ord c - 87)%N
  else if byte_in 65 70 c then Some (ord c - 55)%N
  else None.

Fixpoint hex_EncodeToString (s : string) : string :=
  match s with
  | EmptyString => EmptyString
  | String c r =>
      String (hex_digit (ord c / 16)) (String (hex_digit (ord c mod 16)) (hex_EncodeToString r))
  end.

Fixpoint hex_DecodeString (s : string) : option string :=
  match s with
  | EmptyString => Some EmptyString
  | String a (String b r) =>
      match hex_value a, hex_value b, hex_DecodeString r with
      | Some x, Some y, Some t => Some (String (ascii_of_N (16 * x + y)) t)
      | _, _, _ => None
      end
  | String _ EmptyString => None
  end.

Lemma ascii_byte_all (P : ascii -> bool) :
  forallb (fun n => P (ascii_of_nat n)) (seq 0 256) = true -> forall c, P c = true.
Proof.
  intros H c. rewrite forallb_forall in H.
  rewrite <- (ascii_nat_embedding c). apply H. apply in_seq.
  pose proof (nat_ascii_bounded c). lia.
Qed.

Lemma hex_byte_roundtrip c :
  hex_value (hex_digit (ord c / 16)) = Some (ord c / 16)%N /\
  hex_value (hex_digit (ord c mod 16)) = Some (ord c mod 16)%N /\
  ascii_of_N (16 * (ord c / 16) + ord c mod 16) = c.
Proof.
  pose proof (ascii_byte_all (fun c =>
    (hex_value (hex_digit (ord c / 16)) == Some (ord c / 16)%N)
    && (hex_value (hex_digit (ord c mod 16)) == Some (ord c mod 16)%N)
    && (ascii_of_N (16 * (ord c / 16) + ord c mod 16) == c)) eq_refl c) as H.
  by reflect_bools.
Qed.

Lemma hex_roundtrip s : hex_DecodeString (hex_EncodeToString s) = Some s.
Proof.
  induction s as [|c s IH]; [done|].
  cbn [hex_EncodeToString hex_DecodeString].
  destruct (hex_byte_roundtrip c) as (-> & -> & E). by rewrite IH, E.
Qed.

Lemma hex_Encode_inj s t : hex_EncodeToString s = hex_EncodeToString t -> s = t.
Proof. intros H. apply (f_equal hex_DecodeString) in H. rewrite !hex_roundtrip in H. congruence. Qed.
