(* ===== verification/Sha256.v ===== *)
(** * SHA-256

    The digest function of [crypto/sha256] as FIPS 180-4 defines it, on byte strings.
    Identities, payload digests and envelope seals of the runtime are the lower-case
    hexadecimal form of its result. The round constants are not copied from a table:
    they are computed from the cube and square roots of the first primes. *)

From S2P Require Import Prelude Go.
Open Scope N_scope.

(** ** 32-bit words *)
Definition w32 (x : N) : N := N.land x 4294967295.
Definition rotr (k x : N) : N := N.lor (N.shiftr x k) (w32 (N.shiftl x (32 - k))).
Definition complement32 (x : N) : N := N.lxor x 4294967295.
Definition xor3 (x y z : N) : N := N.lxor (N.lxor x y) z.

(** ** Constants *)
Definition first_primes : list N := Eval vm_compute in
  let composite n := existsb (fun d => N.modulo n (N.of_nat d) =? 0) (seq 2 (N.to_nat n - 2)) in
  take 64 (List.filter (fun n => negb (composite n)) (map N.of_nat (seq 2 320))).

(** The integer cube root by fixing one bit at a time, from bit [k - 1] down. *)
Fixpoint cube_root (k : nat) (acc x : N) : N :=
  match k with
  | O => acc
  | S k' =>
      let c := acc + N.shiftl 1 (N.of_nat k') in
      cube_root k' (if c * c * c <=? x then c else acc) x
  end.

Definition round_constants : list N := Eval vm_compute in
  map (fun p => w32 (cube_root 40 0 (p * 2 ^ 96))) first_primes.

(** ** The compression function *)
Record sha_state := mkSha { sa : N; sb : N; sc : N; sd : N; se : N; sf : N; sg : N; sh : N }.

Definition initial_state : sha_state := Eval vm_compute in
  let r k := w32 (N.sqrt (List.nth k first_primes 0 * 2 ^ 64)) in
  mkSha (r 0%nat) (r 1%nat) (r 2%nat) (r 3%nat) (r 4%nat) (r 5%nat) (r 6%nat) (r 7%nat).

(** The message schedule: [window] holds the last sixteen words, newest first. *)
Fixpoint extend_schedule (n : nat) (window : list N) : list N :=
  match n with
  | O => []
  | S n' =>
      let w k := List.nth k window 0 in
      let s0 := xor3 (rotr 7 (w 14%nat)) (rotr 18 (w 14%nat)) (N.shiftr (w 14%nat) 3) in
      let s1 := xor3 (rotr 17 (w 1%nat)) (rotr 19 (w 1%nat)) (N.shiftr (w 1%nat) 10) in
      let next := w32 (w 15%nat + s0 + w 6%nat + s1) in
      next :: extend_schedule n' (next :: take 15 window)
  end.

Definition sha_round (s : sha_state) (kw : N * N) : sha_state :=
  let e1 := xor3 (rotr 6 (se s)) (rotr 11 (se s)) (rotr 25 (se s)) in
  let choose := N.lxor (N.land (se s) (sf s)) (N.land (complement32 (se s)) (sg s)) in
  let t1 := w32 (sh s + e1 + choose + kw.1 + kw.2) in
  let a0 := xor3 (rotr 2 (sa s)) (rotr 13 (sa s)) (rotr 22 (sa s)) in
  let majority := xor3 (N.land (sa s) (sb s)) (N.land (sa s) (sc s)) (N.land (sb s) (sc s)) in
  mkSha (w32 (t1 + w32 (a0 + majority))) (sa s) (sb s) (sc s)
        (w32 (sd s + t1)) (se s) (sf s) (sg s).

Definition compress (s : sha_state) (block : list N) : sha_state :=
  let words := block ++ extend_schedule 48 (rev block) in
  let r := fold_left sha_round (zip round_constants words) s in
  mkSha (w32 (sa s + sa r)) (w32 (sb s + sb r)) (w32 (sc s + sc r)) (w32 (sd s + sd r))
        (w32 (se s + se r)) (w32 (sf s + sf r)) (w32 (sg s + sg r)) (w32 (sh s + sh r)).

(** ** Padding and output *)
Fixpoint string_bytes (s : string) : list N :=
  match s with EmptyString => [] | String c r => ord c :: string_bytes r end.

Definition be_bytes (k : nat) (x : N) : list N :=
  map (fun i => N.land (N.shiftr x (8 * N.of_nat i)) 255) (rev (seq 0 k)).

Definition pad (bytes : list N) : list N :=
  let l := N.of_nat (length bytes) in
  bytes ++ 128 :: repeat 0 (N.to_nat ((119 - l mod 64) mod 64)) ++ be_bytes 8 (8 * l).

Fixpoint be_words (bytes : list N) : list N :=
  match bytes with
  | a :: b :: c :: d :: r => (((a * 256 + b) * 256 + c) * 256 + d) :: be_words r
  | _ => []
  end.

Fixpoint run_blocks (n : nat) (s : sha_state) (words : list N) : sha_state :=
  match n with
  | O => s
  | S n' => run_blocks n' (compress s (take 16 words)) (drop 16 words)
  end.

Fixpoint string_of_bytes (l : list N) : string :=
  match l with [] => EmptyString | x :: r => String (ascii_of_N x) (string_of_bytes r) end.

Definition sha256 (message : string) : string :=
  let words := be_words (pad (string_bytes message)) in
  let s := run_blocks (length words / 16) initial_state words in
  string_of_bytes (be_bytes 4 (sa s) ++ be_bytes 4 (sb s) ++ be_bytes 4 (sc s) ++ be_bytes 4 (sd s)
    ++ be_bytes 4 (se s) ++ be_bytes 4 (sf s) ++ be_bytes 4 (sg s) ++ be_bytes 4 (sh s)).

Close Scope N_scope.

(** [hex.EncodeToString(sha256.Sum256(data)[:])]. *)
Definition sha256_hex (data : string) : string := hex_EncodeToString (sha256 data).

(** The published test vectors for the empty message and for "abc", and one two-block message. *)
Example sha256_hex_empty :
  sha256_hex "" = "e3b0c44298fc1c149afbf4c8996fb92427ae41e4649b934ca495991b7852b855".
Proof. vm_compute. reflexivity. Qed.

Example sha256_hex_abc :
  sha256_hex "abc" = "ba7816bf8f01cfea414140de5dae2223b00361a396177a9cb410ff61f20015ad".
Proof. vm_compute. reflexivity. Qed.

Example sha256_hex_two_blocks :
  sha256_hex "abcdbcdecdefdefgefghfghighijhijkijkljklmklmnlmnomnopnopq" =
  "248d6a61d20638b8e5c026930c3e6039a33ce45964ff2167f6ecedd419db06c1".
Proof. vm_compute. reflexivity. Qed.

(** ** Shape of digests *)

Lemma length_string_of_bytes l : String.length (string_of_bytes l) = length l.
Proof. induction l; simpl; congruence. Qed.

Lemma length_sha256 m : String.length (sha256 m) = 32%nat.
Proof. unfold sha256. cbv zeta. rewrite length_string_of_bytes. reflexivity. Qed.

(** [validActivityDigest] (activity_integrity.go) and [canonicalWaitDigest]
    (durable_wait_arbitration.go): 32 bytes in lower-case hexadecimal. *)
Definition validActivityDigest (value : string) : bool :=
  match hex_DecodeString value with
  | None => false
  | Some decoded =>
      (Z.of_nat (String.length decoded) == 32%Z) && (hex_EncodeToString decoded == value)
  end.
Definition canonicalWaitDigest (digest : string) : bool :=
  match hex_DecodeString digest with
  | None => false
  | Some decoded =>
      (Z.of_nat (String.length decoded) == 32%Z) && (hex_EncodeToString decoded == digest)
  end.

Lemma sha256_hex_digest m : validActivityDigest (sha256_hex m) = true.
Proof.
  unfold validActivityDigest, sha256_hex. rewrite hex_roundtrip, length_sha256.
  by rewrite !bool_decide_true.
Qed.

Lemma sha256_hex_wait_digest m : canonicalWaitDigest (sha256_hex m) = true.
Proof. apply sha256_hex_digest. Qed.

Lemma sha256_hex_nonempty m : sha256_hex m <> "".
Proof.
  unfold sha256_hex. pose proof (length_sha256 m). destruct (sha256 m); simpl in *; congruence.
Qed.
#[export] Hint Resolve sha256_hex_digest sha256_hex_wait_digest sha256_hex_nonempty : flowy.

Lemma sha256_hex_text m : ValidString (sha256_hex m) = true.
Proof.
  unfold sha256_hex. induction (sha256 m) as [|c s IH]; [done|].
  assert (rune1 (hex_digit (ord c / 16)) && rune1 (hex_digit (ord c mod 16)) = true) as [H1 H2]%andb_true_iff.
  { apply (ascii_byte_all (fun c => rune1 (hex_digit (ord c / 16)) && rune1 (hex_digit (ord c mod 16)))). reflexivity. }
  cbn [hex_EncodeToString ValidString]. by rewrite H1, H2.
Qed.
