(* ===== verification/Json.v ===== *)
(** * The JSON texts the runtime hashes

    [encoding/json] on the values from which identities and request digests are computed:
    strings (with the HTML-safe escaping of [json.Marshal]), integers, [null], arrays and
    objects in declaration order. [print_inj] shows that the text determines the value
    when every string in it is valid UTF-8, which is what the [validRuntimeText]
    guards of the runtime establish before an identity is derived. *)

From Stdlib Require Import DecimalString DecimalN.
From S2P Require Import Prelude Go.

Inductive json :=
| JNull
| JBool (b : bool)
| JNum (n : Z)
| JStr (s : string)
| JArr (l : list json)
| JObj (l : list (string * json)).

(** ** Printing *)

Definition dquote : ascii := "034".
Definition backslash : ascii := "092".
Definition escaped (c : ascii) : string := String backslash (String c EmptyString).
Definition u00 (c : ascii) : string :=
  (escaped "u" +:+ "00" +:+ String (hex_digit (ord c / 16)) (String (hex_digit (ord c mod 16)) EmptyString))%string.

(** One ASCII byte: quotes, backslashes, control characters and [<], [>], [&] are escaped. *)
Definition esc1 (c : ascii) : string :=
  if ascii_dec c dquote then escaped dquote
  else if ascii_dec c backslash then escaped backslash
  else if ascii_dec c "008" then escaped "b"
  else if ascii_dec c "012" then escaped "f"
  else if ascii_dec c "010" then escaped "n"
  else if ascii_dec c "013" then escaped "r"
  else if ascii_dec c "009" then escaped "t"
  else if (ord c <? 32)%N || bool_decide (c ∈ ["<"; ">"; "&"]%char) then u00 c
  else String c EmptyString.

(** Three-byte code points: U+2028 and U+2029 are escaped. *)
Definition esc3 (a b c : ascii) : string :=
  if (ord a =? 0xE2)%N && (ord b =? 0x80)%N && (ord c =? 0xA8)%N then escaped "u" +:+ "2028"
  else if (ord a =? 0xE2)%N && (ord b =? 0x80)%N && (ord c =? 0xA9)%N then escaped "u" +:+ "2029"
  else String a (String b (String c EmptyString)).

(** A byte that starts no valid code point becomes U+FFFD. *)
Definition replacement : string := escaped "u" +:+ "fffd".

Fixpoint escape (s : string) : string :=
  match s with
  | EmptyString => EmptyString
  | String a s1 =>
      if rune1 a then esc1 a +:+ escape s1
      else match s1 with
      | EmptyString => replacement
      | String b s2 =>
          if rune2 a b then String a (String b (escape s2))
          else match s2 with
          | EmptyString => replacement +:+ escape s1
          | String c s3 =>
              if rune3 a b c then esc3 a b c +:+ escape s3
              else match s3 with
              | EmptyString => replacement +:+ escape s1
              | String d s4 =>
                  if rune4 a b c d then String a (String b (String c (String d (escape s4))))
                  else replacement +:+ escape s1
              end
          end
      end
  end.

Definition print_string (s : string) : string :=
  String dquote (escape s +:+ String dquote EmptyString).

Definition print_uint (n : N) : string := NilEmpty.string_of_uint (N.to_uint n).
Definition print_int (z : Z) : string :=
  if (z <? 0)%Z then "-" +:+ print_uint (Z.to_N (- z)) else print_uint (Z.to_N z).

Fixpoint print (j : json) : string :=
  match j with
  | JNull => "null"
  | JBool true => "true"
  | JBool false => "false"
  | JNum n => print_int n
  | JStr s => print_string s
  | JArr l =>
      "[" +:+ (fix elements (first : bool) (l : list json) : string :=
        match l with
        | [] => "]"
        | x :: r => (if first then EmptyString else ",") +:+ print x +:+ elements false r
        end) true l
  | JObj l =>
      "{" +:+ (fix members (first : bool) (l : list (string * json)) : string :=
        match l with
        | [] => "}"
        | (k, x) :: r =>
            (if first then EmptyString else ",") +:+ print_string k +:+ ":" +:+ print x +:+ members false r
        end) true l
  end%string.

(** Every string of the value is valid text. *)
Fixpoint json_text (j : json) : bool :=
  match j with
  | JStr s => ValidString s
  | JArr l => forallb json_text l
  | JObj l => forallb (fun kv => ValidString kv.1 && json_text kv.2) l
  | _ => true
  end.

(** ** Reading a string back *)

Definition four_hex (a b c d : ascii) : option N :=
  match hex_value a, hex_value b, hex_value c, hex_value d with
  | Some x, Some y, Some z, Some w => Some (4096 * x + 256 * y + 16 * z + w)%N
  | _, _, _, _ => None
  end.

(** UTF-8 encoding of a code point below U+10000. *)
Definition utf8_bytes (n : N) : string :=
  if (n <? 0x80)%N then String (ascii_of_N n) EmptyString
  else if (n <? 0x800)%N then
    String (ascii_of_N (0xC0 + n / 64)) (String (ascii_of_N (0x80 + n mod 64)) EmptyString)
  else String (ascii_of_N (0xE0 + n / 4096))
         (String (ascii_of_N (0x80 + n / 64 mod 64)) (String (ascii_of_N (0x80 + n mod 64)) EmptyString)).

Definition unescape1 (c : ascii) : option ascii :=
  if ascii_dec c dquote then Some dquote
  else if ascii_dec c backslash then Some backslash
  else if ascii_dec c "b" then Some "008"%char
  else if ascii_dec c "f" then Some "012"%char
  else if ascii_dec c "n" then Some "010"%char
  else if ascii_dec c "r" then Some "013"%char
  else if ascii_dec c "t" then Some "009"%char
  else None.

Definition prepend (p : string) (o : option (string * string)) : option (string * string) :=
  match o with Some (s, r) => Some (p +:+ s, r) | None => None end.

(** The content of a string literal up to its closing quote, and the rest of the text. *)
Fixpoint read_string (t : string) : option (string * string) :=
  match t with
  | EmptyString => None
  | String x t1 =>
      if ascii_dec x dquote then Some (EmptyString, t1)
      else if ascii_dec x backslash then
        match t1 with
        | EmptyString => None
        | String e t2 =>
            if ascii_dec e "u" then
              match t2 with
              | String a (String b (String c (String d t3))) =>
                  match four_hex a b c d with
                  | Some n => prepend (utf8_bytes n) (read_string t3)
                  | None => None
                  end
              | _ => None
              end
            else match unescape1 e with
            | Some c => prepend (String c EmptyString) (read_string t2)
            | None => None
            end
        end
      else prepend (String x EmptyString) (read_string t1)
  end.

(** ** The text determines the value *)

(** Induction over valid text, one code point at a time. *)
Lemma ValidString_ind (P : string -> Prop) :
  P EmptyString ->
  (forall a s, rune1 a = true -> P s -> P (String a s)) ->
  (forall a b s, rune1 a = false -> rune2 a b = true -> P s -> P (String a (String b s))) ->
  (forall a b c s, rune1 a = false -> rune2 a b = false -> rune3 a b c = true -> P s ->
     P (String a (String b (String c s)))) ->
  (forall a b c d s, rune1 a = false -> rune2 a b = false -> rune3 a b c = false ->
     rune4 a b c d = true -> P s -> P (String a (String b (String c (String d s))))) ->
  forall s, ValidString s = true -> P s.
Proof.
  intros H0 H1 H2 H3 H4 s. remember (String.length s) as n eqn:Hn. revert s Hn.
  induction (lt_wf n) as [n _ IH]. intros s -> Hs.
  assert (Hrec : forall t, (String.length t < String.length s)%nat -> ValidString t = true -> P t).
  { intros t Ht. by apply (IH (String.length t)). }
  clear IH. destruct s as [|a s1]; [done|]. cbn [ValidString] in Hs.
  destruct (rune1 a) eqn:E1; [apply H1, Hrec; simpl; (done || lia)|].
  destruct s1 as [|b s2]; [done|].
  destruct (rune2 a b) eqn:E2; [apply H2, Hrec; simpl; (done || lia)|].
  destruct s2 as [|c s3]; [done|].
  destruct (rune3 a b c) eqn:E3; [apply H3, Hrec; simpl; (done || lia)|].
  destruct s3 as [|d s4]; [done|]. reflect_bools.
  apply H4, Hrec; simpl; (done || lia).
Qed.

Lemma str_app_cons c (s t : string) : String c s +:+ t = String c (s +:+ t).
Proof. done. Qed.

Lemma str_tail_inj c (s t : string) : String c s = String c t -> s = t.
Proof. congruence. Qed.

Lemma str_app_assoc (s t u : string) : s +:+ (t +:+ u) = (s +:+ t) +:+ u.
Proof. induction s as [|c s IH]; [done|]. by rewrite !str_app_cons, IH. Qed.

Lemma prepend_app p q o : prepend p (prepend q o) = prepend (p +:+ q) o.
Proof. destruct o as [[s r]|]; simpl; [|done]. by rewrite str_app_assoc. Qed.

(** A byte outside ASCII is copied. *)
Lemma read_high a t : rune1 a = false ->
  read_string (String a t) = prepend (String a EmptyString) (read_string t).
Proof.
  intros Ha. simpl. destruct (ascii_dec a dquote) as [->|]; [done|].
  by destruct (ascii_dec a backslash) as [->|].
Qed.

Lemma read_esc1 a t : rune1 a = true ->
  read_string (esc1 a +:+ t) = prepend (String a EmptyString) (read_string t).
Proof.
  destruct a as [[] [] [] [] [] [] [] []]; intros Ha; try discriminate; reflexivity.
Qed.

Lemma rune3_high a b c : rune1 a = false -> rune3 a b c = true ->
  rune1 b = false /\ rune1 c = false.
Proof.
  unfold rune1, rune3, continuation, byte_in. intros _ H. rewrite !andb_false_iff.
  reflect_bools. intuition lia.
Qed.

Lemma ord_inj a b : ord a = ord b -> a = b.
Proof. intros H. rewrite <- (ascii_N_embedding a), <- (ascii_N_embedding b). by f_equal. Qed.

Lemma read_esc3 a b c t : rune1 a = false -> rune3 a b c = true ->
  read_string (esc3 a b c +:+ t) =
  prepend (String a (String b (String c EmptyString))) (read_string t).
Proof.
  intros Ha H3. destruct (rune3_high _ _ _ Ha H3) as [Hb Hc]. unfold esc3.
  destruct ((ord a =? 0xE2)%N && (ord b =? 0x80)%N && (ord c =? 0xA8)%N) eqn:E1;
    [|destruct ((ord a =? 0xE2)%N && (ord b =? 0x80)%N && (ord c =? 0xA9)%N) eqn:E2];
    reflect_bools.
  - rewrite (ord_inj a "226" ltac:(done)), (ord_inj b "128" ltac:(done)),
      (ord_inj c "168" ltac:(done)). done.
  - rewrite (ord_inj a "226" ltac:(done)), (ord_inj b "128" ltac:(done)),
      (ord_inj c "169" ltac:(done)). done.
  - rewrite !str_app_cons. by rewrite !read_high, !prepend_app.
Qed.

(** Reading what [escape] wrote gives the string back and the text that follows. *)
Lemma read_escape s r : ValidString s = true ->
  read_string (escape s +:+ String dquote r) = Some (s, r).
Proof.
  intros Hs. revert r. pattern s. revert s Hs. apply ValidString_ind.
  - done.
  - intros a s Ha IH r. cbn [escape]. rewrite Ha, <- str_app_assoc, read_esc1, IH; done.
  - intros a b s Ha H2 IH r. cbn [escape]. rewrite Ha, H2. rewrite !str_app_cons.
    assert (rune1 b = false).
    { unfold rune1, rune2, continuation, byte_in in *. reflect_bools. lia. }
    rewrite !read_high, IH; done.
  - intros a b c s Ha H2 H3 IH r. cbn [escape].
    rewrite Ha, H2, H3, <- str_app_assoc, read_esc3, IH; done.
  - intros a b c d s Ha H2 H3 H4 IH r. cbn [escape]. rewrite Ha, H2, H3, H4. rewrite !str_app_cons.
    assert (rune1 b = false /\ rune1 c = false /\ rune1 d = false) as (Hb & Hc & Hd).
    { unfold rune1, rune4, continuation, byte_in in *.
      reflect_bools. intuition lia. }
    rewrite !read_high, IH; done.
Qed.

Lemma print_string_inj s1 s2 r1 r2 : ValidString s1 = true -> ValidString s2 = true ->
  print_string s1 +:+ r1 = print_string s2 +:+ r2 -> s1 = s2 /\ r1 = r2.
Proof.
  intros H1 H2 E. unfold print_string in E. rewrite !str_app_cons, <- !str_app_assoc in E.
  injection E as E. apply (f_equal read_string) in E.
  change (String dquote EmptyString +:+ r1) with (String dquote r1) in E.
  change (String dquote EmptyString +:+ r2) with (String dquote r2) in E.
  rewrite !read_escape in E by done. by simplify_eq.
Qed.

(** What may follow a number: the end of the text or a byte that is not a digit. *)
Definition no_digit (r : string) : bool :=
  match r with EmptyString => true | String c _ => negb (byte_in 48 57 c) end.

Lemma uint_prefix d1 : forall d2 r1 r2, no_digit r1 = true -> no_digit r2 = true ->
  NilEmpty.string_of_uint d1 +:+ r1 = NilEmpty.string_of_uint d2 +:+ r2 -> d1 = d2 /\ r1 = r2.
Proof.
  induction d1; intros d2 r1 r2 H1 H2 E; destruct d2; cbn [NilEmpty.string_of_uint] in E;
    rewrite ?str_app_cons in E;
    (** a digit against the following text *)
    try (change (EmptyString +:+ r1) with r1 in E; subst r1; discriminate);
    try (change (EmptyString +:+ r2) with r2 in E; subst r2; discriminate);
    try discriminate; [done|..];
    injection E as E; destruct (IHd1 _ _ _ H1 H2 E) as [-> ->]; done.
Qed.

Section json_induction.
Context (P : json -> Prop).
Context (Hnull : P JNull) (Hbool : forall b, P (JBool b)) (Hnum : forall n, P (JNum n))
  (Hstr : forall s, P (JStr s)) (Harr : forall l, Forall P l -> P (JArr l))
  (Hobj : forall l, Forall (fun kv => P kv.2) l -> P (JObj l)).

Fixpoint json_nested_ind (j : json) : P j :=
  match j with
  | JNull => Hnull
  | JBool b => Hbool b
  | JNum n => Hnum n
  | JStr s => Hstr s
  | JArr l => Harr l ((fix go l : Forall P l :=
      match l with
      | [] => List.Forall_nil _
      | x :: r => @List.Forall_cons _ _ x r (json_nested_ind x) (go r)
      end) l)
  | JObj l => Hobj l ((fix go l : Forall (fun kv => P kv.2) l :=
      match l with
      | [] => List.Forall_nil _
      | kv :: r => @List.Forall_cons _ _ kv r (json_nested_ind kv.2) (go r)
      end) l)
  end.
End json_induction.

(** The list loops of [print], named. *)
Fixpoint elements (first : bool) (l : list json) : string :=
  match l with
  | [] => "]"
  | x :: r => (if first then EmptyString else ",") +:+ print x +:+ elements false r
  end.
Fixpoint members (first : bool) (l : list (string * json)) : string :=
  match l with
  | [] => "}"
  | (k, x) :: r =>
      (if first then EmptyString else ",") +:+ print_string k +:+ ":" +:+ print x +:+ members false r
  end.

Lemma print_JArr l : print (JArr l) = "[" +:+ elements true l.
Proof. done. Qed.
Lemma print_JObj l : print (JObj l) = "{" +:+ members true l.
Proof. done. Qed.

Definition head_char (s : string) : ascii :=
  match s with EmptyString => "000" | String c _ => c end.
Definition json_kind (j : json) : nat :=
  match j with JNull => 0 | JBool true => 1 | JBool false => 2 | JNum _ => 3
  | JStr _ => 4 | JArr _ => 5 | JObj _ => 6 end.
Definition kind_of_head (c : ascii) : nat :=
  if ascii_dec c "n" then 0 else if ascii_dec c "t" then 1 else if ascii_dec c "f" then 2
  else if byte_in 48 57 c || bool_decide (c = "-"%char) then 3 else if ascii_dec c dquote then 4
  else if ascii_dec c "[" then 5 else if ascii_dec c "{" then 6 else 7.

Lemma print_uint_head n r : byte_in 48 57 (head_char (print_uint n +:+ r)) = true.
Proof.
  unfold print_uint.
  assert (Hn : N.to_uint n <> Decimal.Nil) by (destruct n; [done|apply DecimalPos.Unsigned.to_uint_nonnil]).
  by destruct (N.to_uint n).
Qed.

Lemma digit_kind c : byte_in 48 57 c = true -> kind_of_head c = 3 /\ c <> "-"%char.
Proof. by destruct c as [[] [] [] [] [] [] [] []]. Qed.

(** The first byte of a value tells which constructor was printed. *)
Lemma print_head j r : kind_of_head (head_char (print j +:+ r)) = json_kind j.
Proof.
  destruct j as [|[]|n| | |]; try done. cbn [print json_kind]. unfold print_int.
  destruct (Z.ltb_spec n 0); [done|]. apply digit_kind, print_uint_head.
Qed.

Lemma print_int_inj m n r1 r2 : no_digit r1 = true -> no_digit r2 = true ->
  print_int m +:+ r1 = print_int n +:+ r2 -> m = n /\ r1 = r2.
Proof.
  intros D1 D2. unfold print_int.
  assert (Hu : forall a b, print_uint a +:+ r1 = print_uint b +:+ r2 -> a = b /\ r1 = r2).
  { intros a b E. apply uint_prefix in E as [E ->]; [|done..]. by apply DecimalN.Unsigned.to_uint_inj in E as ->. }
  destruct (Z.ltb_spec m 0) as [Hm|Hm], (Z.ltb_spec n 0) as [Hn|Hn]; intros E.
  - rewrite <- !str_app_assoc in E. apply str_tail_inj, Hu in E as [E ->]. split; [lia|done].
  - exfalso. apply (digit_kind "-"); [|done]. rewrite <- (print_uint_head (Z.to_N n) r2), <- E. done.
  - exfalso. apply (digit_kind "-"); [|done]. rewrite <- (print_uint_head (Z.to_N m) r1), E. done.
  - apply Hu in E as [E ->]. split; [lia|done].
Qed.

Lemma print_same_kind j1 j2 r1 r2 : print j1 +:+ r1 = print j2 +:+ r2 -> json_kind j1 = json_kind j2.
Proof. intros E. by rewrite <- (print_head j1 r1), E, print_head. Qed.

Definition prints_inj (j1 : json) : Prop := forall j2 r1 r2,
  json_text j1 = true -> json_text j2 = true -> no_digit r1 = true -> no_digit r2 = true ->
  print j1 +:+ r1 = print j2 +:+ r2 -> j1 = j2 /\ r1 = r2.

Lemma elements_no_digit l : no_digit (elements false l) = true.
Proof. by destruct l. Qed.
Lemma members_no_digit l : no_digit (members false l) = true.
Proof. by destruct l as [|[]]. Qed.
Lemma no_digit_app s r : s <> EmptyString -> no_digit s = true -> no_digit (s +:+ r) = true.
Proof. by destruct s. Qed.

Lemma elements_inj l1 : Forall prints_inj l1 -> forall first l2 r1 r2,
  forallb json_text l1 = true -> forallb json_text l2 = true ->
  elements first l1 +:+ r1 = elements first l2 +:+ r2 -> l1 = l2 /\ r1 = r2.
Proof.
  induction 1 as [|x1 l1 Hx Hl IH]; intros first [|x2 l2] r1 r2 H1 H2 E; simpl in H1, H2, E.
  - by injection E.
  - exfalso. destruct first; [|done].
    change (EmptyString +:+ ?s) with s in E. rewrite <- !str_app_assoc in E.
    pose proof (print_head x2 (elements false l2 +:+ r2)) as Hh. rewrite <- E in Hh.
    by destruct x2 as [|[]| | | |].
  - exfalso. destruct first; [|done].
    change (EmptyString +:+ ?s) with s in E. rewrite <- !str_app_assoc in E.
    pose proof (print_head x1 (elements false l1 +:+ r1)) as Hh. rewrite E in Hh.
    by destruct x1 as [|[]| | | |].
  - assert (E' : print x1 +:+ (elements false l1 +:+ r1) = print x2 +:+ (elements false l2 +:+ r2)).
    { destruct first; rewrite <- !str_app_assoc in E; [exact E|exact (str_tail_inj _ _ _ E)]. }
    reflect_bools. apply Hx in E' as [-> E'];
      [|done..|apply no_digit_app; [by destruct l1|apply elements_no_digit]
       |apply no_digit_app; [by destruct l2|apply elements_no_digit]].
    apply IH in E' as [-> ->]; done.
Qed.

Lemma members_inj l1 : Forall (fun kv => prints_inj kv.2) l1 -> forall first l2 r1 r2,
  forallb (fun kv => ValidString kv.1 && json_text kv.2) l1 = true ->
  forallb (fun kv => ValidString kv.1 && json_text kv.2) l2 = true ->
  members first l1 +:+ r1 = members first l2 +:+ r2 -> l1 = l2 /\ r1 = r2.
Proof.
  induction 1 as [|[k1 x1] l1 Hx Hl IH]; intros first [|[k2 x2] l2] r1 r2 H1 H2 E; simpl in H1, H2, E.
  - by injection E.
  - by destruct first.
  - by destruct first.
  - assert (E' : print_string k1 +:+ (":" +:+ (print x1 +:+ (members false l1 +:+ r1))) =
                 print_string k2 +:+ (":" +:+ (print x2 +:+ (members false l2 +:+ r2)))).
    { destruct first; rewrite <- !str_app_assoc in E; [exact E|exact (str_tail_inj _ _ _ E)]. }
    reflect_bools. apply print_string_inj in E' as [-> E']; [|done..].
    apply str_tail_inj in E'. apply Hx in E' as [Ex E'];
      [|done..|apply no_digit_app; [by destruct l1 as [|[]]|apply members_no_digit]
       |apply no_digit_app; [by destruct l2 as [|[]]|apply members_no_digit]].
    simpl in Ex. subst. apply IH in E' as [-> ->]; done.
Qed.

Lemma print_prefix j : prints_inj j.
Proof.
  induction j as [|b|n|s|l IH|l IH] using json_nested_ind; intros j2 r1 r2 T1 T2 D1 D2 E;
    pose proof (print_same_kind _ _ _ _ E) as Hk; destruct j2 as [|b2|n2|s2|l2|l2];
    try (destruct b); try (destruct b2); try discriminate Hk; clear Hk.
  1-3: by injection E.
  - cbn [print] in E. apply print_int_inj in E as [-> ->]; done.
  - cbn [print] in E. apply print_string_inj in E as [-> ->]; done.
  - rewrite !print_JArr in E. apply str_tail_inj, elements_inj in E as [-> ->]; done.
  - rewrite !print_JObj in E. apply str_tail_inj, members_inj in E as [-> ->]; done.
Qed.

(** Two values whose strings are valid text and whose encodings agree are equal. *)
Lemma print_inj j1 j2 : json_text j1 = true -> json_text j2 = true ->
  print j1 = print j2 -> j1 = j2.
Proof.
  intros H1 H2 E. apply (print_prefix j1 j2 EmptyString EmptyString); try done.
  by rewrite E.
Qed.
