(* ===== verification/Identity.v ===== *)
(** * Persisted identities

    The SHA-256 addresses of activities, child executions, durable waits and wait
    generations ([activityAddressIdentity], [childExecutionIdentity], [waitIdentity],
    [waitGeneration]). [identities_separate] shows that no two different addresses with
    valid text share an identity short of a collision of SHA-256 on their encodings. *)

From S2P Require Import Prelude Go Sha256 Json.

(** A node name, [type ExecutionPointer string]. *)
Notation ExecutionPointer := string (only parsing).

Definition activityAddressIdentity (id : string) (node : ExecutionPointer) (activation : N) (key : string) : string :=
  sha256_hex (print (JArr [JStr id; JStr node; JNum (Z.of_N activation); JStr key])).

Definition childExecutionIdentity (parentID : string) (node : ExecutionPointer) (activation : N)
    (group child : string) : string :=
  sha256_hex (print (JArr [JStr "flowy-child"; JStr parentID; JStr node; JNum (Z.of_N activation); JStr group; JStr child])).

Definition waitDigest (value : json) : string := sha256_hex (print value).

Definition waitIdentity (execution : string) (node : ExecutionPointer) (activation : N) (id : string) : string :=
  waitDigest (JArr [JStr "flowy-wait"; JStr execution; JStr node; JNum (Z.of_N activation); JStr id]).

Definition waitGeneration (identity : string) (revision : N) : string :=
  waitDigest (JArr [JStr "flowy-wait-generation"; JStr identity; JNum (Z.of_N revision)]).

Definition waitPayloadDigest (payload : string) : string := sha256_hex payload.

(** Hashes are never computed by simplification. *)
#[global] Arguments sha256_hex : simpl never.
#[global] Arguments waitPayloadDigest : simpl never.
#[global] Arguments waitIdentity : simpl never.
#[global] Arguments waitGeneration : simpl never.
#[global] Arguments activityAddressIdentity : simpl never.
#[global] Arguments childExecutionIdentity : simpl never.
#[global] Arguments canonicalWaitDigest : simpl never.
#[global] Arguments validActivityDigest : simpl never.

(** ** All addresses at once *)
Inductive address :=
| ActivityAddress (id node : string) (activation : N) (key : string)
| ChildAddress (parentID node : string) (activation : N) (group child : string)
| WaitAddress (execution node : string) (activation : N) (id : string)
| GenerationAddress (identity : string) (revision : N).

Definition identity_of (a : address) : string :=
  match a with
  | ActivityAddress id node activation key => activityAddressIdentity id node activation key
  | ChildAddress parent node activation group child => childExecutionIdentity parent node activation group child
  | WaitAddress execution node activation id => waitIdentity execution node activation id
  | GenerationAddress identity revision => waitGeneration identity revision
  end.

Definition address_texts (a : address) : list string :=
  match a with
  | ActivityAddress id node _ key => [id; node; key]
  | ChildAddress parent node _ group child => [parent; node; group; child]
  | WaitAddress execution node _ id => [execution; node; id]
  | GenerationAddress identity _ => [identity]
  end.

(** The text that is hashed. *)
Definition address_json (a : address) : json :=
  match a with
  | ActivityAddress id node activation key => JArr [JStr id; JStr node; JNum (Z.of_N activation); JStr key]
  | ChildAddress parent node activation group child =>
      JArr [JStr "flowy-child"; JStr parent; JStr node; JNum (Z.of_N activation); JStr group; JStr child]
  | WaitAddress execution node activation id =>
      JArr [JStr "flowy-wait"; JStr execution; JStr node; JNum (Z.of_N activation); JStr id]
  | GenerationAddress identity revision => JArr [JStr "flowy-wait-generation"; JStr identity; JNum (Z.of_N revision)]
  end.

(** Two different byte strings with the same SHA-256 digest. *)
Definition collision (m1 m2 : string) : Prop := m1 <> m2 /\ sha256 m1 = sha256 m2.

Lemma identity_of_encoding a : identity_of a = sha256_hex (print (address_json a)).
Proof. by destruct a. Qed.

Lemma address_json_text a : validRuntimeText (address_texts a) = true -> json_text (address_json a) = true.
Proof. destruct a; simpl; intros; reflect_bools; repeat split; auto. Qed.

Lemma address_json_inj a b : address_json a = address_json b -> a = b.
Proof.
  destruct a, b; simpl; try congruence; intros [=]; subst;
    repeat match goal with H : Z.of_N _ = Z.of_N _ |- _ => apply N2Z.inj in H end; congruence.
Qed.

Lemma sha256_hex_collision m1 m2 : sha256_hex m1 = sha256_hex m2 -> m1 = m2 \/ collision m1 m2.
Proof.
  intros H. apply hex_Encode_inj in H. destruct (decide (m1 = m2)); [by left|].
  by right.
Qed.

(** Identities separate addresses. If two addresses (of activities, children, waits or
    wait generations, in any combination) whose components are valid UTF-8 have the same
    identity, then they are the same address, or their two JSON encodings are a concrete
    collision of SHA-256. Rests on the injectivity of the JSON encoding on valid text and
    on the separation of the four address formats. *)
Theorem identities_separate (a b : address) :
  validRuntimeText (address_texts a) = true -> validRuntimeText (address_texts b) = true ->
  identity_of a = identity_of b ->
  a = b \/ collision (print (address_json a)) (print (address_json b)).
Proof.
  intros Ha Hb E. rewrite !identity_of_encoding in E.
  apply sha256_hex_collision in E as [E|E]; [left|by right].
  by apply address_json_inj, print_inj; try apply address_json_text.
Qed.

Definition address_example : address := ActivityAddress "run<1>" "charge" 3 "pay".

Lemma identities_separate_witness :
  address_example = address_example \/ collision (print (address_json address_example)) (print (address_json address_example)).
Proof. apply (identities_separate address_example address_example); reflexivity. Defined.

(** Without the text guards the encoding identifies different keys: an invalid byte is
    written as U+FFFD, so the guards of [validRuntimeText] are necessary. *)
Example invalid_text_aliases :
  identity_of (ActivityAddress "run" "node" 1 (String "255" EmptyString)) =
  identity_of (ActivityAddress "run" "node" 1 (String "254" EmptyString)).
Proof. reflexivity. Qed.

Lemma identity_of_nonempty a : identity_of a <> "".
Proof. rewrite identity_of_encoding. apply sha256_hex_nonempty. Qed.

Lemma waitGeneration_digest i r : canonicalWaitDigest (waitGeneration i r) = true.
Proof. apply sha256_hex_wait_digest. Qed.
#[export] Hint Resolve waitGeneration_digest : flowy.
