(* ===== verification/Schedule.v ===== *)
(** * Retry policies and schedules

    activity_schedule.go and the policy check of activity_retry.go: validation of a retry
    schedule, the capped exponential base delay, the jitter width, the choice of one
    retry deadline and the integrity check of a persisted choice. Durations are [int64]
    values: every arithmetic step of the source that could leave the width wraps, and
    the theorems show that under the validated bounds none does. *)

From S2P Require Import Prelude Go.

(** ** Data *)
Inductive ActivityRetryScheduleKind :=
| ActivityRetryFixed
| ActivityRetryExponential
| ScheduleKindOther (s : string).
#[export] Instance ActivityRetryScheduleKind_eq_dec : EqDecision ActivityRetryScheduleKind.
Proof. solve_decision. Defined.

Record ActivityRetrySchedule := mkActivityRetrySchedule {
  sch_Kind : ActivityRetryScheduleKind;
  sch_InitialDelay : Z;
  sch_MaxDelay : Z;
  sch_Multiplier : N;
  sch_JitterPermille : N;
  sch_HintLabel : string;
}.
#[export] Instance ActivityRetrySchedule_eq_dec : EqDecision ActivityRetrySchedule.
Proof. solve_decision. Defined.
#[export] Instance eta_ActivityRetrySchedule : Eta ActivityRetrySchedule := fun r =>
  mkActivityRetrySchedule (sch_Kind r) (sch_InitialDelay r) (sch_MaxDelay r) (sch_Multiplier r)
    (sch_JitterPermille r) (sch_HintLabel r).

Record ActivityRetryPolicy := mkActivityRetryPolicy {
  pol_Label : string;
  pol_MaxAttempts : Z;
  pol_Schedule : ActivityRetrySchedule;
  pol_SafeRetryContract : string;
}.
#[export] Instance ActivityRetryPolicy_eq_dec : EqDecision ActivityRetryPolicy.
Proof. solve_decision. Defined.

Definition noSchedule : ActivityRetrySchedule :=
  mkActivityRetrySchedule (ScheduleKindOther "") 0 0 0 0 "".
Definition noRetry : ActivityRetryPolicy := mkActivityRetryPolicy "" 0 noSchedule "".

Record ActivityRetryScheduleDecision := mkDecision {
  dec_Attempt : Z;
  dec_PreparedAt : Time;
  dec_BaseDelay : Z;
  dec_SelectedDelay : Z;
  dec_NotBefore : Time;
  dec_Deadline : Time;
  dec_Rejection : string;
}.
#[export] Instance ActivityRetryScheduleDecision_eq_dec : EqDecision ActivityRetryScheduleDecision.
Proof. solve_decision. Defined.
#[export] Instance eta_Decision : Eta ActivityRetryScheduleDecision := fun r =>
  mkDecision (dec_Attempt r) (dec_PreparedAt r) (dec_BaseDelay r) (dec_SelectedDelay r)
    (dec_NotBefore r) (dec_Deadline r) (dec_Rejection r).

(** ** Validation *)
Definition retryJitterDenominator : Z := 1000.

Definition validateActivitySchedule (schedule : ActivityRetrySchedule) : option error :=
  if (sch_InitialDelay schedule <? 0)%Z || (sch_MaxDelay schedule <? sch_InitialDelay schedule)%Z
     || (retryJitterDenominator <? Z.of_N (sch_JitterPermille schedule))%Z
     || negb (validRuntimeText [sch_HintLabel schedule])
  then Some (ErrActivityScheduleInvalid : error)
  else match sch_Kind schedule with
  | ActivityRetryFixed =>
      if (sch_Multiplier schedule != 0%N) || (sch_MaxDelay schedule != sch_InitialDelay schedule)
      then Some (ErrActivityScheduleInvalid : error) else None
  | ActivityRetryExponential =>
      if (sch_InitialDelay schedule <=? 0)%Z || (sch_Multiplier schedule <? 2)%N
      then Some (ErrActivityScheduleInvalid : error) else None
  | ScheduleKindOther _ => Some (ErrActivityScheduleInvalid : error)
  end.

Definition NewFixedActivityRetrySchedule (delay : Z) : ActivityRetrySchedule * option error :=
  let schedule := mkActivityRetrySchedule ActivityRetryFixed delay delay 0 0 "" in
  (schedule, validateActivitySchedule schedule).

Definition NewExponentialActivityRetrySchedule (initial maximum : Z) (multiplier : N)
  : ActivityRetrySchedule * option error :=
  let schedule := mkActivityRetrySchedule ActivityRetryExponential initial maximum multiplier 0 "" in
  (schedule, validateActivitySchedule schedule).

Definition validateActivityRetry (policy : ActivityRetryPolicy) : option error :=
  if policy == noRetry then None
  else if (pol_Label policy == "") || negb (validRuntimeText [pol_Label policy; pol_SafeRetryContract policy])
     || (pol_MaxAttempts policy <? 1)%Z
     || ((1 <? pol_MaxAttempts policy)%Z && (pol_SafeRetryContract policy == ""))
  then Some (ErrExecutionCapability : error)
  else match validateActivitySchedule (pol_Schedule policy) with
  | Some err => errors_Join (Some (ErrExecutionCapability : error)) (Some err)
  | None => None
  end.

(** ** Delay arithmetic *)

(** [uint64(z)] and [time.Duration(n)]. *)
Definition to_uint64 (z : Z) : N := Z.to_N (z mod 18446744073709551616).
Definition to_Duration (n : N) : Z := wrap_int64 (Z.of_N n).

(** The loop [for number := 1; number < attempt && delay < MaxDelay; number++]; the fuel is
    the number of values of [number] below [attempt]. *)
Fixpoint base_delay_loop (schedule : ActivityRetrySchedule) (rounds : nat) (delay : Z) : Z :=
  match rounds with
  | O => delay
  | S rest =>
      if (delay <? sch_MaxDelay schedule)%Z then
        if (to_uint64 (sch_MaxDelay schedule ÷ delay) <? sch_Multiplier schedule)%N
        then sch_MaxDelay schedule
        else base_delay_loop schedule rest (wrap_int64 (delay * to_Duration (sch_Multiplier schedule)))
      else delay
  end.

Definition activityRetryBaseDelay (schedule : ActivityRetrySchedule) (attempt : Z) : Z :=
  match sch_Kind schedule with
  | ActivityRetryExponential =>
      base_delay_loop schedule (Z.to_nat (attempt - 1)) (sch_InitialDelay schedule)
  | _ => sch_InitialDelay schedule
  end.

Definition activityRetryJitterWidth (delay : Z) (permille : N) : Z :=
  wrap_int64
    (wrap_int64 (delay ÷ retryJitterDenominator * Z.of_N permille)
     + wrap_int64 (Z.rem delay retryJitterDenominator * Z.of_N permille) ÷ retryJitterDenominator).

Definition activityScheduleTimeValid (value : Time) : bool :=
  negb (IsZero value) && year_within_1_9999 value.

(** ** Choosing a deadline *)

(** The sampler is the value it returns, or [None] when it panics; it is called once. *)
Definition activityRetryRandomSample (random : option N) : N * bool :=
  match random with Some sample => (sample, true) | None => (0%N, false) end.

(** The last part of [chooseActivityRetrySchedule]: the deadline of the selected delay. *)
Definition chooseDeadline (at_ : Time) (decision : ActivityRetryScheduleDecision) : ActivityRetryScheduleDecision :=
  let deadline := Add (toUTC at_) (dec_SelectedDelay decision) in
  let deadline := if After (dec_NotBefore decision) deadline then dec_NotBefore decision else deadline in
  if Before deadline at_ || negb (activityScheduleTimeValid deadline)
  then decision <| dec_Rejection := "deadline" |>
  else decision <| dec_Deadline := deadline |>.

(** Its middle part: one uniform sample shortens the delay by at most the jitter width. *)
Definition chooseJitter (policy : ActivityRetryPolicy) (at_ : Time) (random : option N)
    (decision : ActivityRetryScheduleDecision) : ActivityRetryScheduleDecision :=
  let width := activityRetryJitterWidth (dec_BaseDelay decision) (sch_JitterPermille (pol_Schedule policy)) in
  if (0 <? width)%Z then
    let '(value, ok) := activityRetryRandomSample random in
    if negb ok then decision <| dec_Rejection := "random" |>
    else chooseDeadline at_ (decision <| dec_SelectedDelay :=
           wrap_int64 (dec_SelectedDelay decision - to_Duration (value mod succ_u64 (to_uint64 width))) |>)
  else chooseDeadline at_ decision.

Definition chooseActivityRetrySchedule (policy : ActivityRetryPolicy) (attempt : Z) (at_ hint : Time)
    (random : option N) : ActivityRetryScheduleDecision :=
  let decision := mkDecision attempt (toUTC at_) 0 0 time_zero time_zero "" in
  if (attempt <? 1)%Z || (pol_MaxAttempts policy <=? attempt)%Z || negb (is_nil (validateActivityRetry policy))
  then decision <| dec_Rejection := "policy" |>
  else if negb (activityScheduleTimeValid at_)
  then decision <| dec_Rejection := "clock" |>
  else
    let base := activityRetryBaseDelay (pol_Schedule policy) attempt in
    let decision := decision <| dec_BaseDelay := base |> <| dec_SelectedDelay := base |> in
    if negb (IsZero hint) then
      if negb (activityScheduleTimeValid hint) then decision <| dec_Rejection := "hint_time" |>
      else
        let decision := decision <| dec_NotBefore := toUTC hint |> in
        if sch_HintLabel (pol_Schedule policy) == ""
        then decision <| dec_Rejection := "hint_label" |>
        else chooseJitter policy at_ random decision
    else chooseJitter policy at_ random decision.

(** ** Integrity of a persisted choice *)
Definition validActivityScheduleHint (policy : ActivityRetryPolicy) (hint : Time) : bool :=
  IsZero hint || ((sch_HintLabel (pol_Schedule policy) != "") && activityScheduleTimeValid hint).

(** The deadline a decision stands for: the delayed instant, or a later host hint. *)
Definition expected_deadline (d : ActivityRetryScheduleDecision) : Time :=
  let expected := Add (dec_PreparedAt d) (dec_SelectedDelay d) in
  if After (dec_NotBefore d) expected then dec_NotBefore d else expected.

Definition validRejectedActivitySchedule (policy : ActivityRetryPolicy) (d : ActivityRetryScheduleDecision) : bool :=
  if negb (IsZero (dec_Deadline d)) || (dec_BaseDelay d != activityRetryBaseDelay (pol_Schedule policy) (dec_Attempt d))
  then false
  else
    let width := activityRetryJitterWidth (dec_BaseDelay d) (sch_JitterPermille (pol_Schedule policy)) in
    if dec_Rejection d == "hint_time" then
      IsZero (dec_NotBefore d) && (dec_SelectedDelay d == dec_BaseDelay d)
    else if dec_Rejection d == "hint_label" then
      (sch_HintLabel (pol_Schedule policy) == "") && activityScheduleTimeValid (dec_NotBefore d)
      && (dec_SelectedDelay d == dec_BaseDelay d)
    else if dec_Rejection d == "random" then
      (0 <? width)%Z && (dec_SelectedDelay d == dec_BaseDelay d) && validActivityScheduleHint policy (dec_NotBefore d)
    else if dec_Rejection d == "deadline" then
      if negb (validActivityScheduleHint policy (dec_NotBefore d))
         || (dec_SelectedDelay d <? wrap_int64 (dec_BaseDelay d - width))%Z
      then false
      else negb (activityScheduleTimeValid (expected_deadline d)) || Before (expected_deadline d) (dec_PreparedAt d)
    else false.

Definition validActivityRetryScheduleDecision (policy : ActivityRetryPolicy)
    (decision : option ActivityRetryScheduleDecision) : bool :=
  match decision with
  | None => false
  | Some d =>
      if negb (is_nil (validateActivityRetry policy)) || (dec_Attempt d <? 1)%Z
         || (pol_MaxAttempts policy <=? dec_Attempt d)%Z
         || negb (activityScheduleTimeValid (dec_PreparedAt d)) || (dec_BaseDelay d <? 0)%Z
         || (dec_SelectedDelay d <? 0)%Z || (dec_BaseDelay d <? dec_SelectedDelay d)%Z
      then false
      else if dec_Rejection d != "" then validRejectedActivitySchedule policy d
      else
        let base := activityRetryBaseDelay (pol_Schedule policy) (dec_Attempt d) in
        if (dec_BaseDelay d != base)
           || (dec_SelectedDelay d <?
                 wrap_int64 (base - activityRetryJitterWidth base (sch_JitterPermille (pol_Schedule policy))))%Z
        then false
        else if negb (IsZero (dec_NotBefore d)) &&
                ((sch_HintLabel (pol_Schedule policy) == "") || negb (activityScheduleTimeValid (dec_NotBefore d)))
        then false
        else activityScheduleTimeValid (dec_Deadline d) && TimeEqual (expected_deadline d) (dec_Deadline d)
  end.

(** ** Facts established by validation *)

Definition schedule_ok (s : ActivityRetrySchedule) : Prop :=
  (0 <= sch_InitialDelay s <= sch_MaxDelay s)%Z /\ (sch_JitterPermille s <= 1000)%N /\
  ((sch_Kind s = ActivityRetryFixed /\ sch_MaxDelay s = sch_InitialDelay s) \/
   (sch_Kind s = ActivityRetryExponential /\ (0 < sch_InitialDelay s)%Z /\ (2 <= sch_Multiplier s)%N)).

Lemma validateActivitySchedule_ok s : validateActivitySchedule s = None -> schedule_ok s.
Proof.
  unfold validateActivitySchedule, schedule_ok, retryJitterDenominator. intros H.
  guard_in H; [done|]. destruct (sch_Kind s); [| |done]; guard_in H; try done; reflect_bools;
    (split; [lia|]; split; [lia|]); [left|right]; repeat split; (done || lia || tauto).
Qed.

Lemma validateActivityRetry_ok p : validateActivityRetry p = None -> p <> noRetry ->
  pol_Label p <> "" /\ (1 <= pol_MaxAttempts p)%Z /\ schedule_ok (pol_Schedule p) /\
  ((1 < pol_MaxAttempts p)%Z -> pol_SafeRetryContract p <> "").
Proof.
  unfold validateActivityRetry. intros H Hne. guard_in H; [by reflect_bools|].
  guard_in H; [done|]. destruct (validateActivitySchedule _) eqn:Hs; [done|].
  apply validateActivitySchedule_ok in Hs. reflect_bools.
  repeat split; (done || lia || apply Hs || idtac).
  intros Hmax Hc. or_cases.
Qed.

(** A policy that allows a second attempt is not the zero policy. *)
Lemma retry_policy_ok p attempt : validateActivityRetry p = None ->
  (1 <= attempt < pol_MaxAttempts p)%Z -> schedule_ok (pol_Schedule p) /\ pol_SafeRetryContract p <> "".
Proof.
  intros H Ha. assert (p <> noRetry) by (intros ->; simpl in Ha; lia).
  destruct (validateActivityRetry_ok p H) as (_ & _ & Hs & Hc); [done|].
  split; [done|]. apply Hc. lia.
Qed.

(** ** No overflow, and the closed form of the base delay *)

Lemma base_delay_loop_closed s n : forall d,
  (0 < d <= sch_MaxDelay s)%Z -> (sch_MaxDelay s <= max_int64)%Z -> (2 <= sch_Multiplier s)%N ->
  base_delay_loop s n d = Z.min (sch_MaxDelay s) (d * Z.of_N (sch_Multiplier s) ^ Z.of_nat n).
Proof.
  unfold max_int64. induction n as [|n IH]; intros d Hd Hmax Hm; [simpl; lia|].
  set (m := Z.of_N (sch_Multiplier s)) in *. cbn [base_delay_loop].
  assert (Hpow : (m ^ Z.of_nat (S n) = m * m ^ Z.of_nat n)%Z).
  { rewrite Nat2Z.inj_succ, Z.pow_succ_r; lia. }
  assert (1 <= m ^ Z.of_nat n)%Z by (pose proof (Z.pow_pos_nonneg m (Z.of_nat n)); lia).
  destruct (Z.ltb_spec d (sch_MaxDelay s)); [|nia].
  rewrite Z.quot_div_nonneg by lia.
  assert (Hq : (0 <= sch_MaxDelay s / d <= sch_MaxDelay s)%Z).
  { split; [apply Z.div_pos; lia|apply Z.div_le_upper_bound; nia]. }
  unfold to_uint64. rewrite Z.mod_small by lia.
  destruct (N.ltb_spec (Z.to_N (sch_MaxDelay s / d)) (sch_Multiplier s)).
  - assert (sch_MaxDelay s < d * m)%Z.
    { pose proof (Z.mul_succ_div_gt (sch_MaxDelay s) d). nia. }
    rewrite Hpow. nia.
  - assert (d * m <= sch_MaxDelay s)%Z.
    { pose proof (Z.mul_div_le (sch_MaxDelay s) d). nia. }
    unfold to_Duration. rewrite (wrap_int64_id (Z.of_N _)) by (unfold is_int64; lia).
    fold m. rewrite wrap_int64_id by (unfold is_int64; nia).
    rewrite IH by nia. fold m. rewrite Hpow. f_equal. ring.
Qed.

Lemma base_delay_exponential s attempt :
  schedule_ok s -> sch_Kind s = ActivityRetryExponential -> (sch_MaxDelay s <= max_int64)%Z ->
  (1 <= attempt)%Z ->
  activityRetryBaseDelay s attempt =
    Z.min (sch_MaxDelay s) (sch_InitialDelay s * Z.of_N (sch_Multiplier s) ^ (attempt - 1)).
Proof.
  intros (H1 & _ & H2) Hk Hm Ha. unfold activityRetryBaseDelay. rewrite Hk.
  destruct H2 as [[? ?]|(_ & ? & ?)]; [congruence|].
  rewrite base_delay_loop_closed by lia. by rewrite Z2Nat.id by lia.
Qed.

Lemma base_delay_bounds s attempt :
  schedule_ok s -> (sch_MaxDelay s <= max_int64)%Z -> (1 <= attempt)%Z ->
  (0 <= sch_InitialDelay s <= activityRetryBaseDelay s attempt)%Z /\
  (activityRetryBaseDelay s attempt <= sch_MaxDelay s)%Z.
Proof.
  intros Hs Hm Ha. pose proof Hs as (H1 & Hj & [[Hk ?]|(Hk & ? & ?)]).
  - unfold activityRetryBaseDelay. rewrite Hk. lia.
  - rewrite (base_delay_exponential s attempt Hs Hk Hm Ha).
    assert (1 <= Z.of_N (sch_Multiplier s) ^ (attempt - 1))%Z.
    { pose proof (Z.pow_pos_nonneg (Z.of_N (sch_Multiplier s)) (attempt - 1)). lia. }
    nia.
Qed.

(** The split product of the source is the exact floor, and neither half leaves [int64]. *)
Lemma jitter_width_floor delay permille :
  (0 <= delay <= max_int64)%Z -> (permille <= 1000)%N ->
  activityRetryJitterWidth delay permille = (delay * Z.of_N permille / 1000)%Z.
Proof.
  unfold activityRetryJitterWidth, retryJitterDenominator, max_int64. intros Hd Hp.
  set (p := Z.of_N permille). assert (0 <= p <= 1000)%Z by lia.
  rewrite Z.quot_div_nonneg, Z.rem_mod_nonneg by lia.
  pose proof (Z.div_mod delay 1000 ltac:(lia)). pose proof (Z.mod_pos_bound delay 1000 ltac:(lia)).
  set (q := (delay / 1000)%Z) in *. set (r := (delay mod 1000)%Z) in *.
  assert (Hr : (0 <= r * p <= 999 * 1000)%Z) by nia.
  rewrite (wrap_int64_id (r * p)) by (unfold is_int64; lia).
  rewrite (wrap_int64_id (q * p)) by (unfold is_int64; nia).
  rewrite Z.quot_div_nonneg by lia.
  replace (delay * p)%Z with (r * p + (q * p) * 1000)%Z by nia.
  rewrite Z.div_add by lia.
  assert (0 <= r * p / 1000 <= r)%Z.
  { split; [apply Z.div_pos; lia|apply Z.div_le_upper_bound; nia]. }
  rewrite wrap_int64_id by (unfold is_int64; nia). ring.
Qed.

Lemma jitter_width_bounds delay permille :
  (0 <= delay <= max_int64)%Z -> (permille <= 1000)%N ->
  (0 <= activityRetryJitterWidth delay permille <= delay)%Z.
Proof.
  intros Hd Hp. rewrite jitter_width_floor by done.
  split; [apply Z.div_pos; lia|apply Z.div_le_upper_bound; nia].
Qed.

(** ** The chosen deadline *)

(** A decision under construction for a valid policy, attempt and clock reading. *)
Definition choice_pending (p : ActivityRetryPolicy) (attempt : Z) (at_ : Time)
    (d : ActivityRetryScheduleDecision) : Prop :=
  let base := activityRetryBaseDelay (pol_Schedule p) attempt in
  let width := activityRetryJitterWidth base (sch_JitterPermille (pol_Schedule p)) in
  dec_Attempt d = attempt /\ dec_PreparedAt d = toUTC at_ /\ dec_BaseDelay d = base /\
  (base - width <= dec_SelectedDelay d <= base)%Z /\
  validActivityScheduleHint p (dec_NotBefore d) = true /\
  dec_Deadline d = time_zero /\ dec_Rejection d = "".

Section Choice.
Context (p : ActivityRetryPolicy) (attempt : Z) (at_ : Time).
Context (Hpolicy : validateActivityRetry p = None).
Context (Hlow : (1 <= attempt)%Z) (Hhigh : (attempt < pol_MaxAttempts p)%Z).
Context (Hclock : activityScheduleTimeValid at_ = true).
Context (Hwidth : (sch_MaxDelay (pol_Schedule p) <= max_int64)%Z).

Let base := activityRetryBaseDelay (pol_Schedule p) attempt.
Let width := activityRetryJitterWidth base (sch_JitterPermille (pol_Schedule p)).

Lemma choice_arith : (0 <= base <= max_int64)%Z /\ (0 <= width <= base)%Z /\
  wrap_int64 (base - width) = (base - width)%Z.
Proof using All.
  destruct (retry_policy_ok p attempt Hpolicy (conj Hlow Hhigh)) as [Hs _].
  destruct (base_delay_bounds (pol_Schedule p) attempt Hs Hwidth) as [Hb1 Hb2]; [lia|].
  fold base in Hb1, Hb2. pose proof Hs as (_ & Hj & _).
  assert (Hb : (0 <= base <= max_int64)%Z) by lia.
  pose proof (jitter_width_bounds base _ Hb Hj) as Hw. fold width in Hw.
  repeat split; try lia. apply wrap_int64_id. unfold is_int64, max_int64 in *. lia.
Qed.

(** The checks every decision of this section passes before its outcome is examined. *)
Lemma valid_decision_prefix d : dec_Attempt d = attempt -> dec_PreparedAt d = toUTC at_ ->
  dec_BaseDelay d = base -> (0 <= dec_SelectedDelay d <= base)%Z ->
  negb (is_nil (validateActivityRetry p)) || (dec_Attempt d <? 1)%Z
    || (pol_MaxAttempts p <=? dec_Attempt d)%Z
    || negb (activityScheduleTimeValid (dec_PreparedAt d)) || (dec_BaseDelay d <? 0)%Z
    || (dec_SelectedDelay d <? 0)%Z || (dec_BaseDelay d <? dec_SelectedDelay d)%Z = false.
Proof using All.
  intros -> -> -> Hs. destruct choice_arith as (Hb & _). rewrite Hpolicy. simpl.
  reflect_bools. split_and!; try lia. exact Hclock.
Qed.

Lemma valid_decision_accepted d : dec_Attempt d = attempt -> dec_PreparedAt d = toUTC at_ ->
  dec_BaseDelay d = base -> (base - width <= dec_SelectedDelay d <= base)%Z ->
  validActivityScheduleHint p (dec_NotBefore d) = true -> dec_Rejection d = "" ->
  activityScheduleTimeValid (dec_Deadline d) = true ->
  TimeEqual (expected_deadline d) (dec_Deadline d) = true ->
  validActivityRetryScheduleDecision p (Some d) = true.
Proof using All.
  intros Ha Hp Hb Hs Hn Hr Hd He. destruct choice_arith as (? & ? & Hwrap).
  unfold validActivityRetryScheduleDecision.
  rewrite valid_decision_prefix, Hr, Hb, Ha by (done || lia). fold base width. rewrite Hwrap, Hd, He.
  rewrite !bool_decide_eq_true_2 by done. simpl.
  destruct (Z.ltb_spec (dec_SelectedDelay d) (base - width)); [lia|].
  unfold validActivityScheduleHint in Hn. destruct (IsZero (dec_NotBefore d)); [done|]. simpl in *.
  apply andb_true_iff in Hn as [Hl ->]. apply negb_true_iff in Hl as ->. done.
Qed.

Lemma valid_decision_rejected d : dec_Attempt d = attempt -> dec_PreparedAt d = toUTC at_ ->
  dec_BaseDelay d = base -> (base - width <= dec_SelectedDelay d <= base)%Z ->
  dec_Rejection d <> "" -> validRejectedActivitySchedule p d = true ->
  validActivityRetryScheduleDecision p (Some d) = true.
Proof using All.
  intros Ha Hp Hb Hs Hr Hv. destruct choice_arith as (? & ? & Hwrap).
  unfold validActivityRetryScheduleDecision.
  rewrite valid_decision_prefix by (done || lia). by rewrite bool_decide_eq_false_2.
Qed.

Lemma valid_rejected_deadline d : dec_Attempt d = attempt -> dec_PreparedAt d = toUTC at_ ->
  dec_BaseDelay d = base -> (base - width <= dec_SelectedDelay d <= base)%Z ->
  validActivityScheduleHint p (dec_NotBefore d) = true -> dec_Deadline d = time_zero ->
  dec_Rejection d = "deadline" ->
  Before (expected_deadline d) at_ || negb (activityScheduleTimeValid (expected_deadline d)) = true ->
  validRejectedActivitySchedule p d = true.
Proof using All.
  intros Ha Hp Hb Hs Hn Hd Hr He. destruct choice_arith as (? & ? & Hwrap).
  unfold validRejectedActivitySchedule. rewrite Hd, Hb, Ha, Hr, Hn, Hp. fold base width.
  rewrite Hwrap, bool_decide_eq_true_2 by done. simpl.
  destruct (Z.ltb_spec (dec_SelectedDelay d) (base - width)); [lia|].
  rewrite orb_comm. exact He.
Qed.

Lemma chooseDeadline_valid d : choice_pending p attempt at_ d ->
  validActivityRetryScheduleDecision p (Some (chooseDeadline at_ d)) = true.
Proof using All.
  intros (Ha & Hp & Hb & Hs & Hn & Hd & Hr). fold base width in Hb, Hs. unfold chooseDeadline.
  replace (if After (dec_NotBefore d) (Add (toUTC at_) (dec_SelectedDelay d)) then dec_NotBefore d
    else Add (toUTC at_) (dec_SelectedDelay d)) with (expected_deadline d)
    by (unfold expected_deadline; by rewrite Hp).
  guard_goal.
  - apply valid_decision_rejected; try done. by apply valid_rejected_deadline.
  - apply orb_false_iff in Hg as [_ Hg]. apply negb_false_iff in Hg.
    apply valid_decision_accepted; try done. apply bool_decide_eq_true_2. done.
Qed.

Lemma chooseJitter_valid d random : choice_pending p attempt at_ d -> dec_SelectedDelay d = base ->
  validActivityRetryScheduleDecision p (Some (chooseJitter p at_ random d)) = true.
Proof using All.
  intros Hd Hsel. pose proof Hd as (Ha & Hp & Hb & Hs & Hn & Hdl & Hr). fold base width in Hb, Hs.
  destruct choice_arith as (Hbase & Hw & Hwrap).
  unfold chooseJitter. rewrite Hb. fold width. destruct (Z.ltb_spec 0 width) as [Hpos|];
    [|by apply chooseDeadline_valid].
  destruct random as [value|]; cbn [activityRetryRandomSample negb].
  - assert (Hu : succ_u64 (to_uint64 width) = Z.to_N (width + 1)).
    { unfold succ_u64, to_uint64, max_int64 in *. rewrite Z.mod_small by lia.
      rewrite N.mod_small by lia. lia. }
    assert (Hv : (value mod Z.to_N (width + 1) < Z.to_N (width + 1))%N) by (apply N.mod_lt; lia).
    rewrite Hu, Hsel. generalize dependent (value mod Z.to_N (width + 1))%N. intros v Hv.
    unfold to_Duration, max_int64 in *.
    rewrite (wrap_int64_id (Z.of_N _)) by (unfold is_int64; lia).
    rewrite wrap_int64_id by (unfold is_int64; lia).
    apply chooseDeadline_valid. repeat split; try done; simpl; fold base width; lia.
  - apply valid_decision_rejected; try done.
    unfold validRejectedActivitySchedule. simpl. rewrite Hdl, Hb, Ha, Hsel, Hn. fold base width.
    rewrite !bool_decide_eq_true_2 by done. simpl. by apply Z.ltb_lt in Hpos as ->.
Qed.
End Choice.

Lemma chosen_valid (p : ActivityRetryPolicy) (attempt : Z) (at_ hint : Time) (random : option N) :
  validateActivityRetry p = None -> (1 <= attempt)%Z -> (attempt < pol_MaxAttempts p)%Z ->
  activityScheduleTimeValid at_ = true -> (sch_MaxDelay (pol_Schedule p) <= max_int64)%Z ->
  validActivityRetryScheduleDecision p (Some (chooseActivityRetrySchedule p attempt at_ hint random)) = true.
Proof.
  intros Hp Hlow Hhigh Hc Hm. pose proof (choice_arith p attempt at_ Hp Hlow Hhigh Hc Hm) as (Hb & Hw & _).
  unfold chooseActivityRetrySchedule. rewrite Hp, Hc.
  destruct (Z.ltb_spec attempt 1); [lia|]. destruct (Z.leb_spec (pol_MaxAttempts p) attempt); [lia|].
  cbn [is_nil negb orb].
  destruct (IsZero hint) eqn:Hz; cbn [negb].
  - apply (chooseJitter_valid p attempt at_); try done.
    repeat split; simpl; try done; lia.
  - destruct (activityScheduleTimeValid hint) eqn:Hh; cbn [negb].
    + destruct (bool_decide_reflect (sch_HintLabel (pol_Schedule p) = "")) as [Hl|Hl].
      * apply (valid_decision_rejected p attempt at_); simpl; try done; [lia|].
        unfold validRejectedActivitySchedule. simpl.
        rewrite Hl, !bool_decide_eq_true_2 by done. simpl. rewrite andb_true_r. exact Hh.
      * apply (chooseJitter_valid p attempt at_); try done.
        repeat split; simpl; try done; try lia.
        unfold validActivityScheduleHint. rewrite bool_decide_eq_false_2 by done. simpl.
        change (activityScheduleTimeValid (toUTC hint)) with (activityScheduleTimeValid hint).
        rewrite Hh. apply orb_true_r.
    + apply (valid_decision_rejected p attempt at_); simpl; try done; [lia|].
      unfold validRejectedActivitySchedule. simpl. by rewrite !bool_decide_eq_true_2 by done.
Qed.

Definition retry_example : ActivityRetryPolicy :=
  mkActivityRetryPolicy "retry" 5
    (mkActivityRetrySchedule ActivityRetryExponential 100 1000 3 250 "retry-after") "idempotent".
Definition clock_example : Time := mkTime 63000000000000000000 (FixedZone 7200).

(** The base delay of retry [attempt] of a valid exponential schedule is
    [min(MaxDelay, InitialDelay * Multiplier^(attempt-1))]: the loop's division guard
    never lets the product leave [int64], for any attempt number. *)
Theorem base_delay_closed_form (s : ActivityRetrySchedule) (attempt : Z) :
  validateActivitySchedule s = None -> sch_Kind s = ActivityRetryExponential ->
  (sch_MaxDelay s <= max_int64)%Z -> (1 <= attempt)%Z ->
  activityRetryBaseDelay s attempt =
    Z.min (sch_MaxDelay s) (sch_InitialDelay s * Z.of_N (sch_Multiplier s) ^ (attempt - 1)).
Proof. intros H. apply base_delay_exponential, validateActivitySchedule_ok, H. Qed.

Lemma base_delay_closed_form_witness :
  activityRetryBaseDelay (pol_Schedule retry_example) 3 = Z.min 1000 (100 * 3 ^ 2).
Proof. apply (base_delay_closed_form (pol_Schedule retry_example) 3); done. Defined.

(** The deadline of an accepted choice, component by component. *)
Lemma accepted_decision_deadline p d : validActivityRetryScheduleDecision p (Some d) = true ->
  dec_Rejection d = "" ->
  activityScheduleTimeValid (dec_Deadline d) = true /\
  time_ns (dec_Deadline d) = time_ns (expected_deadline d) /\
  (0 <= dec_SelectedDelay d <= dec_BaseDelay d)%Z /\
  dec_BaseDelay d = activityRetryBaseDelay (pol_Schedule p) (dec_Attempt d) /\
  (1 <= dec_Attempt d < pol_MaxAttempts p)%Z /\ validateActivityRetry p = None /\
  (wrap_int64 (dec_BaseDelay d - activityRetryJitterWidth (dec_BaseDelay d) (sch_JitterPermille (pol_Schedule p)))
     <= dec_SelectedDelay d)%Z.
Proof.
  unfold validActivityRetryScheduleDecision, TimeEqual. intros H Hr. rewrite Hr in H.
  destruct (validateActivityRetry p) eqn:Hp; [done|]. cbn [is_nil negb orb] in H.
  guard_in H; [done|]. rewrite bool_decide_eq_true_2 in H by done. cbn [negb] in H.
  guard_in H; [done|]. guard_in H; [done|].
  apply orb_false_iff in Hg0 as [Hb Hg0]. apply negb_false_iff, bool_decide_eq_true in Hb. rewrite <- Hb in Hg0.
  reflect_bools. repeat split; (done || lia || idtac).
Qed.

Lemma chosen_fields p attempt at_ hint random :
  let d := chooseActivityRetrySchedule p attempt at_ hint random in
  dec_Rejection d = "" ->
  dec_Attempt d = attempt /\ dec_PreparedAt d = toUTC at_ /\ time_ns (dec_NotBefore d) = time_ns hint.
Proof.
  assert (Hj : forall d, let c := chooseJitter p at_ random d in
    dec_Attempt c = dec_Attempt d /\ dec_PreparedAt c = dec_PreparedAt d /\ dec_NotBefore c = dec_NotBefore d).
  { intros d. unfold chooseJitter, chooseDeadline. destruct random; cbn [activityRetryRandomSample negb];
    repeat guard_goal; by repeat split. }
  unfold chooseActivityRetrySchedule. repeat guard_goal; simpl; intros Hr; try done.
  - destruct (Hj (mkDecision attempt (toUTC at_) (activityRetryBaseDelay (pol_Schedule p) attempt)
      (activityRetryBaseDelay (pol_Schedule p) attempt) (toUTC hint) time_zero "")) as (-> & -> & ->). done.
  - destruct (Hj (mkDecision attempt (toUTC at_) (activityRetryBaseDelay (pol_Schedule p) attempt)
      (activityRetryBaseDelay (pol_Schedule p) attempt) time_zero time_zero "")) as (-> & -> & ->).
    repeat split. apply negb_false_iff in Hg1. unfold IsZero in Hg1. by apply bool_decide_eq_true in Hg1.
Qed.

(** whatever the host hint and the random sample (a panicking sampler included), the
    decision [chooseActivityRetrySchedule] makes for a valid policy, an attempt below the
    limit and a representable clock reading passes the integrity check applied when the
    journal is read back. An accepted deadline lies between the clock reading plus the base delay less
    the jitter width and the clock reading plus the base delay, except that a later host
    hint postpones it to exactly the hint; it is never before the clock reading or the
    hint, and it is a year 1-9999 instant. *)
Theorem chosen_deadline_bounds (p : ActivityRetryPolicy) (attempt : Z) (at_ hint : Time) (random : option N) :
  validateActivityRetry p = None -> (1 <= attempt)%Z -> (attempt < pol_MaxAttempts p)%Z ->
  activityScheduleTimeValid at_ = true -> (sch_MaxDelay (pol_Schedule p) <= max_int64)%Z ->
  let d := chooseActivityRetrySchedule p attempt at_ hint random in
  let base := activityRetryBaseDelay (pol_Schedule p) attempt in
  let width := (base * Z.of_N (sch_JitterPermille (pol_Schedule p)) / 1000)%Z in
  validActivityRetryScheduleDecision p (Some d) = true /\
  (dec_Rejection d = "" ->
   activityScheduleTimeValid (dec_Deadline d) = true /\
   (time_ns at_ + (base - width) <= time_ns (dec_Deadline d))%Z /\
   (time_ns hint <= time_ns (dec_Deadline d))%Z /\
   (time_ns (dec_Deadline d) <= Z.max (time_ns at_ + base) (time_ns hint))%Z).
Proof.
  intros Hp Hlow Hhigh Hc Hm d base width. split; [by apply chosen_valid|]. intros Hr.
  pose proof (choice_arith p attempt at_ Hp Hlow Hhigh Hc Hm) as (Hb & Hw & Hwrap).
  destruct (retry_policy_ok p attempt Hp (conj Hlow Hhigh)) as [(_ & Hj & _) _].
  destruct (chosen_fields p attempt at_ hint random Hr) as (Ha & Hpa & Hn). fold d in Ha, Hpa, Hn.
  pose proof (chosen_valid p attempt at_ hint random Hp Hlow Hhigh Hc Hm) as Hv. fold d in Hv.
  destruct (accepted_decision_deadline p d Hv Hr) as (Hdv & He & Hs & Hbd & _ & _ & Hsw).
  rewrite Ha in Hbd. fold base in Hbd, Hb, Hw, Hwrap. rewrite Hbd in Hsw, Hs.
  rewrite Hwrap in Hsw. rewrite jitter_width_floor in Hsw by done. fold width in Hsw.
  split; [done|]. rewrite He. unfold expected_deadline, After. rewrite Hpa. simpl. rewrite Hn.
  destruct (Z.ltb_spec (time_ns at_ + dec_SelectedDelay d) (time_ns hint)); simpl; lia.
Qed.

Definition hint_example : Time := mkTime 63000000000000000450 UTC.

Lemma chosen_deadline_bounds_witness :
  let d := chooseActivityRetrySchedule retry_example 2 clock_example hint_example (Some 5%N) in
  validActivityRetryScheduleDecision retry_example (Some d) = true /\ (time_ns hint_example <= time_ns (dec_Deadline d))%Z.
Proof.
  destruct (chosen_deadline_bounds retry_example 2 clock_example hint_example (Some 5%N)) as [H1 H2]; [done..|].
  split; [exact H1|]. apply H2. reflexivity.
Defined.
