(* ===== verification/Activity.v ===== *)
(** * Activity records

    activity.go, activity_retry.go, activity_integrity.go, activity_attempt_integrity.go,
    activity_schedule_integrity.go and activity_resolution_integrity.go: the persisted
    record of one external operation, the integrity check applied whenever a journal is
    read or written, and the record-level part of every transition: creation, start of an
    attempt, success, failure with its retry decision, abandonment of a lost attempt,
    reconciliation and manual resolution. *)

From S2P Require Import Prelude Go Sha256 Json Identity Schedule.

(** ** Data *)
Inductive ActivityOrigin :=
| NoOrigin | ActivityLive | ActivityReplayed | ActivityReconciled | ActivityManual | ActivitySimulated
| OriginOther (s : string).
Inductive ActivityState :=
| ActivityPrepared | ActivityRunning | ActivityCompleted | ActivityFailed | ActivityUnknown
| ActivityStateOther (s : string).
Inductive ActivityFailureClass :=
| NoClass | ActivityRetryable | ActivityNonRetryable | ActivityAmbiguous | ClassOther (s : string).
Inductive ActivityResolutionAction :=
| ActivityResolveComplete | ActivityResolveFail | ActivityResolveRetry | ActionOther (s : string).
#[export] Instance ActivityOrigin_eq_dec : EqDecision ActivityOrigin.
Proof. solve_decision. Defined.
#[export] Instance ActivityState_eq_dec : EqDecision ActivityState.
Proof. solve_decision. Defined.
#[export] Instance ActivityFailureClass_eq_dec : EqDecision ActivityFailureClass.
Proof. solve_decision. Defined.
#[export] Instance ActivityResolutionAction_eq_dec : EqDecision ActivityResolutionAction.
Proof. solve_decision. Defined.

Record ActivityAttempt := mkAttempt {
  att_Number : Z;
  att_Incarnation : N;
  att_State : ActivityState;
  att_Error : string;
  att_Classification : ActivityFailureClass;
  att_StartedAt : Time;
  att_RetrySchedule : option ActivityRetryScheduleDecision;
  att_FinishedAt : Time;
}.
#[export] Instance eta_Attempt : Eta ActivityAttempt := fun r =>
  mkAttempt (att_Number r) (att_Incarnation r) (att_State r) (att_Error r) (att_Classification r)
    (att_StartedAt r) (att_RetrySchedule r) (att_FinishedAt r).
#[export] Instance ActivityAttempt_eq_dec : EqDecision ActivityAttempt.
Proof. solve_decision. Defined.

Record ActivityResolutionRecord := mkResolutionRecord {
  rsl_DecisionID : string;
  rsl_Attempt : Z;
  rsl_Action : ActivityResolutionAction;
  rsl_PriorState : ActivityState;
  rsl_SourceRevision : N;
  rsl_Incarnation : N;
  rsl_Reason : string;
  rsl_Evidence : string;
  rsl_SafeRetryContract : string;
  rsl_RetrySchedule : option ActivityRetryScheduleDecision;
  rsl_At : Time;
}.
#[export] Instance ActivityResolutionRecord_eq_dec : EqDecision ActivityResolutionRecord.
Proof. solve_decision. Defined.

Record ActivityRecord := mkActivityRecord {
  rec_Identity : string;
  rec_ExecutionID : string;
  rec_Node : ExecutionPointer;
  rec_Activation : N;
  rec_Key : string;
  rec_InputDigest : string;
  rec_Implementation : string;
  rec_State : ActivityState;
  rec_Outcome : string;
  rec_Origin : ActivityOrigin;
  rec_Attempts : list ActivityAttempt;
  rec_Retry : ActivityRetryPolicy;
  rec_Classification : ActivityFailureClass;
  rec_NextAttemptAt : Time;
  rec_Resolutions : list ActivityResolutionRecord;
}.
#[export] Instance eta_ActivityRecord : Eta ActivityRecord := fun r =>
  mkActivityRecord (rec_Identity r) (rec_ExecutionID r) (rec_Node r) (rec_Activation r) (rec_Key r)
    (rec_InputDigest r) (rec_Implementation r) (rec_State r) (rec_Outcome r) (rec_Origin r)
    (rec_Attempts r) (rec_Retry r) (rec_Classification r) (rec_NextAttemptAt r) (rec_Resolutions r).
#[export] Instance ActivityRecord_eq_dec : EqDecision ActivityRecord.
Proof. solve_decision. Defined.

Record ActivityFailureDecision := mkFailureDecision {
  fd_Class : ActivityFailureClass;
  fd_NotBefore : Time;
}.

Record ActivityResolution := mkActivityResolution {
  rq_Identity : string;
  rq_InputDigest : string;
  rq_Implementation : string;
  rq_DecisionID : string;
  rq_Action : ActivityResolutionAction;
  rq_Reason : string;
  rq_Evidence : string;
  rq_Outcome : string;
  rq_SafeRetryContract : string;
  rq_NotBefore : Time;
}.

Definition corrupt : option error := Some (ErrExecutionCorrupt : error).

(** [len] of a byte slice. *)
Definition no_bytes (s : string) : bool := s == "".

(** ** Integrity *)
Definition validActivityAddress (record : ActivityRecord) : bool :=
  (rec_ExecutionID record != "") && (rec_Node record != "") && (rec_Activation record != 0%N)
  && validRuntimeText [rec_ExecutionID record; rec_Node record; rec_Key record]
  && (rec_Identity record ==
      activityAddressIdentity (rec_ExecutionID record) (rec_Node record) (rec_Activation record) (rec_Key record)).

Definition validateActivityAttempt (attempt : ActivityAttempt) : option error :=
  match att_State attempt with
  | ActivityPrepared => corrupt
  | ActivityRunning =>
      if (att_Classification attempt == NoClass) && IsZero (att_FinishedAt attempt) && (att_Error attempt == "")
      then None else corrupt
  | ActivityCompleted =>
      if (att_Classification attempt == NoClass) && negb (IsZero (att_FinishedAt attempt)) && (att_Error attempt == "")
      then None else corrupt
  | ActivityFailed =>
      if ((att_Classification attempt == ActivityRetryable) || (att_Classification attempt == ActivityNonRetryable))
         && negb (IsZero (att_FinishedAt attempt))
      then None else corrupt
  | ActivityUnknown => if att_Classification attempt == ActivityAmbiguous then None else corrupt
  | ActivityStateOther _ => corrupt
  end.

(** The attempt loop of [validateActivityRecord]. *)
Definition validAttemptEntry (count : Z) (index : nat) (attempt : ActivityAttempt) : bool :=
  (att_Number attempt == (Z.of_nat index + 1)%Z) && (att_Incarnation attempt != 0%N)
  && negb (IsZero (att_StartedAt attempt)) && is_nil (validateActivityAttempt attempt)
  && negb ((att_State attempt == ActivityRunning) && (Z.of_nat index != (count - 1)%Z)).

Definition validActivityDecisionAction (decision : ActivityResolutionRecord) (policy : ActivityRetryPolicy) : bool :=
  match rsl_Action decision with
  | ActivityResolveComplete | ActivityResolveFail =>
      (rsl_SafeRetryContract decision == "") && is_nil (rsl_RetrySchedule decision)
  | ActivityResolveRetry =>
      (rsl_SafeRetryContract decision != "")
      && (rsl_SafeRetryContract decision == pol_SafeRetryContract policy)
      && (rsl_Attempt decision <? pol_MaxAttempts policy)%Z
      && validActivityRetryScheduleDecision policy (rsl_RetrySchedule decision)
      && match rsl_RetrySchedule decision with
         | Some schedule => (dec_Rejection schedule == "") && (dec_Attempt schedule == rsl_Attempt decision)
                            && TimeEqual (dec_PreparedAt schedule) (rsl_At decision)
         | None => false
         end
  | ActionOther _ => false
  end.

Definition validManualActivityOrigin (record : ActivityRecord) : bool :=
  match last (rec_Resolutions record) with
  | None => false
  | Some d =>
      let count := len (rec_Attempts record) in
      match rec_State record with
      | ActivityCompleted => (rsl_Action d == ActivityResolveComplete) && (rsl_Attempt d == count)
      | ActivityFailed => (rsl_Action d == ActivityResolveFail) && (rsl_Attempt d == count)
      | ActivityPrepared => (rsl_Action d == ActivityResolveRetry) && (rsl_Attempt d == count)
      | ActivityRunning | ActivityUnknown => (rsl_Action d == ActivityResolveRetry) && (rsl_Attempt d <? count)%Z
      | ActivityStateOther _ => false
      end
  end.

(** One round of the loop of [validateActivityDecisions]; the attempt numbers it indexes
    with are in range because the guards before have checked them. *)
Definition validDecisionEntry (record : ActivityRecord) (seen : list string) (previousAttempt : Z)
    (previousRevision : N) (d : ActivityResolutionRecord) : bool :=
  negb (bool_decide (rsl_DecisionID d ∈ seen) || (rsl_DecisionID d == "") || (rsl_Reason d == "")
        || (rsl_Evidence d == "") || IsZero (rsl_At d) || (rsl_Incarnation d == 0%N)
        || (rsl_SourceRevision d <=? previousRevision)%N || (rsl_Attempt d <=? previousAttempt)%Z
        || (len (rec_Attempts record) <? rsl_Attempt d)%Z
        || ((rsl_PriorState d != ActivityUnknown) && (rsl_PriorState d != ActivityRunning)))
  && match rec_Attempts record !! Z.to_nat (rsl_Attempt d - 1) with
     | Some attempt => att_State attempt == ActivityUnknown
     | None => false
     end
  && validActivityDecisionAction d (rec_Retry record)
  && negb ((rsl_Action d == ActivityResolveRetry) && (rsl_Attempt d <? len (rec_Attempts record))%Z
           && match rec_Attempts record !! Z.to_nat (rsl_Attempt d), rsl_RetrySchedule d with
              | Some next, Some schedule => Before (att_StartedAt next) (dec_Deadline schedule)
              | _, _ => false
              end)
  && negb ((rsl_Action d != ActivityResolveRetry) && (rsl_Attempt d != len (rec_Attempts record))).

Fixpoint validDecisionLoop (record : ActivityRecord) (seen : list string) (previousAttempt : Z)
    (previousRevision : N) (decisions : list ActivityResolutionRecord) : bool :=
  match decisions with
  | [] => true
  | d :: rest =>
      validDecisionEntry record seen previousAttempt previousRevision d
      && validDecisionLoop record (rsl_DecisionID d :: seen) (rsl_Attempt d) (rsl_SourceRevision d) rest
  end.

Definition validateActivityDecisions (record : ActivityRecord) : option error :=
  if negb (validDecisionLoop record [] 0 0 (rec_Resolutions record)) then corrupt
  else if (rec_Origin record == ActivityManual) && negb (validManualActivityOrigin record) then corrupt
  else None.

Definition validScheduleEntry (record : ActivityRecord) (index : nat) (attempt : ActivityAttempt) : bool :=
  match att_RetrySchedule attempt with
  | None =>
      negb ((att_State attempt == ActivityFailed) && (att_Classification attempt == ActivityRetryable)
            && (att_Number attempt <? pol_MaxAttempts (rec_Retry record))%Z)
  | Some choice =>
      negb ((att_State attempt != ActivityFailed) || (att_Classification attempt != ActivityRetryable)
            || (dec_Attempt choice != att_Number attempt)
            || negb (TimeEqual (dec_PreparedAt choice) (att_FinishedAt attempt))
            || negb (validActivityRetryScheduleDecision (rec_Retry record) (Some choice)))
      && match rec_Attempts record !! S index with
         | Some next => negb ((dec_Rejection choice != "") || Before (att_StartedAt next) (dec_Deadline choice))
         | None => true
         end
  end.

Definition validateActivityRecordSchedules (record : ActivityRecord) : option error :=
  if all_index (validScheduleEntry record) 0 (rec_Attempts record) then None else corrupt.

Definition validPreparedActivitySchedule (record : ActivityRecord) (lastAttempt : ActivityAttempt) : bool :=
  let accepts (choice : option ActivityRetryScheduleDecision) :=
    match choice with
    | Some c => (dec_Rejection c == "") && TimeEqual (dec_Deadline c) (rec_NextAttemptAt record)
    | None => false
    end in
  if rec_Origin record == ActivityManual then
    match last (rec_Resolutions record) with
    | None => false
    | Some d => accepts (rsl_RetrySchedule d)
    end
  else accepts (att_RetrySchedule lastAttempt).

Definition hasActivityRetryDecision (record : ActivityRecord) (attempt : Z) : bool :=
  existsb (fun d => (rsl_Attempt d == attempt) && (rsl_Action d == ActivityResolveRetry)) (rec_Resolutions record).

Definition validHistoryEntry (record : ActivityRecord) (attempt : ActivityAttempt) : bool :=
  (pol_SafeRetryContract (rec_Retry record) != "")
  && match att_State attempt with
     | ActivityFailed => att_Classification attempt == ActivityRetryable
     | ActivityUnknown => hasActivityRetryDecision record (att_Number attempt)
     | _ => false
     end.

Definition validateActivityAttemptHistory (record : ActivityRecord) : option error :=
  if forallb (validHistoryEntry record) (removelast (rec_Attempts record)) then None else corrupt.

Definition validPreparedActivity (record : ActivityRecord) (lastAttempt : ActivityAttempt) : bool :=
  (rec_Classification record == ActivityRetryable) && negb (IsZero (rec_NextAttemptAt record))
  && (pol_SafeRetryContract (rec_Retry record) != "")
  && (len (rec_Attempts record) <? pol_MaxAttempts (rec_Retry record))%Z
  && ((att_State lastAttempt == ActivityFailed)
      || ((rec_Origin record == ActivityManual) && (att_State lastAttempt == ActivityUnknown)))
  && no_bytes (rec_Outcome record) && validPreparedActivitySchedule record lastAttempt.

Definition validCompletedActivity (record : ActivityRecord) (lastAttempt : ActivityAttempt) : bool :=
  IsZero (rec_NextAttemptAt record)
  && ((((rec_Origin record == ActivityLive) || (rec_Origin record == ActivitySimulated))
       && (att_State lastAttempt == ActivityCompleted))
      || (((rec_Origin record == ActivityReconciled) || (rec_Origin record == ActivityManual))
          && (att_State lastAttempt == ActivityUnknown))).

Definition validFailedActivity (record : ActivityRecord) (lastAttempt : ActivityAttempt) : bool :=
  IsZero (rec_NextAttemptAt record) && no_bytes (rec_Outcome record)
  && ((rec_Classification record == ActivityNonRetryable) || (rec_Classification record == ActivityRetryable))
  && ((att_State lastAttempt == ActivityFailed)
      || ((rec_Origin record == ActivityManual) && (att_State lastAttempt == ActivityUnknown))).

Definition validateActivityRecordState (record : ActivityRecord) : option error :=
  match last (rec_Attempts record) with
  | None =>
      if (rec_State record == ActivityPrepared)
         && ((rec_Classification record == NoClass) && IsZero (rec_NextAttemptAt record)
             && (rec_Origin record == NoOrigin) && no_bytes (rec_Outcome record))
      then None else corrupt
  | Some lastAttempt =>
      let valid :=
        match rec_State record with
        | ActivityPrepared => validPreparedActivity record lastAttempt
        | ActivityRunning =>
            (att_State lastAttempt == ActivityRunning) && (rec_Classification record == NoClass)
            && IsZero (rec_NextAttemptAt record) && no_bytes (rec_Outcome record)
        | ActivityUnknown =>
            (att_State lastAttempt == ActivityUnknown) && (rec_Classification record == ActivityAmbiguous)
            && IsZero (rec_NextAttemptAt record) && no_bytes (rec_Outcome record)
        | ActivityCompleted => validCompletedActivity record lastAttempt
        | ActivityFailed => validFailedActivity record lastAttempt
        | ActivityStateOther _ => false
        end in
      if valid then None else corrupt
  end.

Definition attempt_limit (policy : ActivityRetryPolicy) : Z :=
  if pol_MaxAttempts policy == 0%Z then 1 else pol_MaxAttempts policy.

Definition validateActivityRecord (record : ActivityRecord) : option error :=
  if negb (validActivityAddress record) || negb (validActivityDigest (rec_InputDigest record))
     || (rec_Key record == "") || (rec_Implementation record == "")
     || negb (validRuntimeText [rec_Implementation record])
     || negb (is_nil (validateActivityRetry (rec_Retry record)))
  then corrupt
  else if negb (all_index (validAttemptEntry (len (rec_Attempts record))) 0 (rec_Attempts record)) then corrupt
  else if (attempt_limit (rec_Retry record) <? len (rec_Attempts record))%Z then corrupt
  else match validateActivityDecisions record with
  | Some err => Some err
  | None => match validateActivityRecordSchedules record with
    | Some err => Some err
    | None => match validateActivityAttemptHistory record with
      | Some err => Some err
      | None => validateActivityRecordState record
      end
    end
  end.

(** ** Transitions *)

(** The record built by [callActivity] when the identity is not in the journal. *)
Definition newActivityRecord (identity executionID : string) (node : ExecutionPointer) (activation : N)
    (key inputDigest implementation : string) (retry : ActivityRetryPolicy) : ActivityRecord :=
  mkActivityRecord identity executionID node activation key inputDigest implementation ActivityPrepared
    "" NoOrigin [] retry NoClass time_zero [].

(** The write-ahead part of [callActivity]: a new attempt is recorded as running. *)
Definition startActivityAttempt (record : ActivityRecord) (incarnation : N) (now : Time) : ActivityRecord :=
  record <| rec_State := ActivityRunning |> <| rec_Origin := NoOrigin |>
    <| rec_NextAttemptAt := time_zero |> <| rec_Classification := NoClass |>
    <| rec_Attempts := rec_Attempts record ++
         [mkAttempt (len (rec_Attempts record) + 1) incarnation ActivityRunning "" NoClass (toUTC now) None time_zero] |>.

Definition activityRecordError (record : ActivityRecord) (revision : N) : error :=
  match rec_State record with
  | ActivityPrepared => ActivityRetryPendingError (rec_Identity record) (rec_NextAttemptAt record) revision
  | ActivityFailed =>
      let rejected :=
        match last (rec_Attempts record) with
        | Some attempt =>
            match att_RetrySchedule attempt with Some c => dec_Rejection c != "" | None => false end
        | None => false
        end in
      if rejected then ErrActivityScheduleInvalid
      else if rec_Classification record == ActivityRetryable then ErrActivityAttemptsExhausted
      else ErrActivityFailed
  | _ => ErrActivityUnknown
  end.

Definition preparedActivityError (record : ActivityRecord) (revision : N) (now : Time) : option error :=
  if rec_State record == ActivityFailed then Some (activityRecordError record revision)
  else if rec_State record != ActivityPrepared then Some (ErrActivityConflict : error)
  else if len (rec_Attempts record) == 0%Z then None
  else if (pol_MaxAttempts (rec_Retry record) <=? len (rec_Attempts record))%Z
       || (pol_SafeRetryContract (rec_Retry record) == "") || IsZero (rec_NextAttemptAt record)
  then Some (ErrActivityConflict : error)
  else if Before now (rec_NextAttemptAt record) then Some (activityRecordError record revision)
  else None.

(** A missing classifier, and any class outside the three, mean an ambiguous outcome. *)
Definition classifyActivityFailure (classify : option (error -> ActivityFailureDecision)) (dispatchErr : error)
  : ActivityFailureDecision * bool :=
  match classify with
  | None => (mkFailureDecision ActivityAmbiguous time_zero, false)
  | Some f =>
      let decision := f dispatchErr in
      match fd_Class decision with
      | ActivityRetryable | ActivityNonRetryable | ActivityAmbiguous => (decision, false)
      | _ => (mkFailureDecision ActivityAmbiguous time_zero, true)
      end
  end.

Definition recordActivityFailure (record : ActivityRecord) (dispatchErr : string)
    (decision : ActivityFailureDecision) (now : Time) (random : option N) : ActivityRecord :=
  let finished := toUTC now in
  let record := record <| rec_Classification := fd_Class decision |> <| rec_NextAttemptAt := time_zero |> in
  let settle (state : ActivityState) (schedule : option ActivityRetryScheduleDecision) :=
    update_last (fun a => a <| att_Classification := fd_Class decision |> <| att_Error := dispatchErr |>
      <| att_FinishedAt := finished |> <| att_State := state |>
      <| att_RetrySchedule := match schedule with Some s => Some s | None => att_RetrySchedule a end |>)
      (rec_Attempts record) in
  match fd_Class decision with
  | ActivityRetryable =>
      let record := record <| rec_State := ActivityFailed |> in
      if (len (rec_Attempts record) <? pol_MaxAttempts (rec_Retry record))%Z then
        let chosen := chooseActivityRetrySchedule (rec_Retry record) (len (rec_Attempts record)) finished
                        (fd_NotBefore decision) random in
        let record := record <| rec_Attempts := settle ActivityFailed (Some chosen) |> in
        if dec_Rejection chosen == "" then
          record <| rec_State := ActivityPrepared |> <| rec_NextAttemptAt := dec_Deadline chosen |>
        else record
      else record <| rec_Attempts := settle ActivityFailed None |>
  | ActivityNonRetryable =>
      record <| rec_State := ActivityFailed |> <| rec_Attempts := settle ActivityFailed None |>
  | _ => record <| rec_State := ActivityUnknown |> <| rec_Attempts := settle ActivityUnknown None |>
  end.

(** The success branch of [finishActivityLocked]. *)
Definition completeActivity (record : ActivityRecord) (payload : string) (origin : ActivityOrigin) (now : Time)
  : ActivityRecord :=
  let record := record <| rec_State := ActivityCompleted |> <| rec_Outcome := payload |> <| rec_Origin := origin |> in
  if (origin != ActivityReconciled) && (origin != ActivityManual) then
    record <| rec_Attempts := update_last (fun a => a <| att_State := ActivityCompleted |>
                                <| att_FinishedAt := toUTC now |>) (rec_Attempts record) |>
  else record.

(** The branch of [recoverActivityLocked] that turns an attempt of an earlier incarnation
    into an unknown outcome; [prepareActivityResolutionTarget] changes the attempt alike. *)
Definition abandonAttempt (attempts : list ActivityAttempt) : list ActivityAttempt :=
  update_last (fun a => a <| att_State := ActivityUnknown |> <| att_Classification := ActivityAmbiguous |>) attempts.
Definition abandonActivity (record : ActivityRecord) : ActivityRecord :=
  record <| rec_State := ActivityUnknown |> <| rec_Attempts := abandonAttempt (rec_Attempts record) |>
    <| rec_Classification := ActivityAmbiguous |>.

Definition applyActivityResolution (record : ActivityRecord) (resolution : ActivityResolution) (now : Time)
    (random : option N) : res (ActivityRecord * option ActivityRetryScheduleDecision) :=
  let record := record <| rec_Classification := NoClass |> <| rec_NextAttemptAt := time_zero |> in
  match rq_Action resolution with
  | ActivityResolveComplete =>
      if (rq_SafeRetryContract resolution != "") || negb (IsZero (rq_NotBefore resolution))
      then Err ErrActivityConflict
      else Ok (record <| rec_State := ActivityCompleted |> <| rec_Origin := ActivityManual |>
                 <| rec_Outcome := rq_Outcome resolution |>, None)
  | ActivityResolveFail =>
      if negb (no_bytes (rq_Outcome resolution)) || (rq_SafeRetryContract resolution != "")
         || negb (IsZero (rq_NotBefore resolution))
      then Err ErrActivityConflict
      else Ok (record <| rec_State := ActivityFailed |> <| rec_Origin := ActivityManual |>
                 <| rec_Classification := ActivityNonRetryable |>, None)
  | ActivityResolveRetry =>
      if negb (no_bytes (rq_Outcome resolution)) || negb (is_nil (validateActivityRetry (rec_Retry record)))
         || (pol_SafeRetryContract (rec_Retry record) == "")
         || (rq_SafeRetryContract resolution != pol_SafeRetryContract (rec_Retry record))
         || (pol_MaxAttempts (rec_Retry record) <=? len (rec_Attempts record))%Z
      then Err ErrActivityConflict
      else
        let schedule := chooseActivityRetrySchedule (rec_Retry record) (len (rec_Attempts record)) now
                          (rq_NotBefore resolution) random in
        if dec_Rejection schedule != "" then Err ErrActivityScheduleInvalid
        else Ok (record <| rec_State := ActivityPrepared |> <| rec_Origin := ActivityManual |>
                   <| rec_Classification := ActivityRetryable |> <| rec_NextAttemptAt := dec_Deadline schedule |>,
                 Some schedule)
  | ActionOther _ => Err ErrActivityConflict
  end.

(** The record part of [prepareActivityResolutionTarget]; [now] is already in UTC. *)
Definition resolveActivityRecord (record : ActivityRecord) (resolution : ActivityResolution) (revision incarnation : N)
    (now : Time) (random : option N) : res ActivityRecord :=
  let priorState := rec_State record in
  let record := if rec_State record == ActivityRunning
                then record <| rec_Attempts := abandonAttempt (rec_Attempts record) |> else record in
  '(record, chosen) ← applyActivityResolution record resolution now random;
  Ok (record <| rec_Resolutions := rec_Resolutions record ++
        [mkResolutionRecord (rq_DecisionID resolution) (len (rec_Attempts record)) (rq_Action resolution) priorState
           revision incarnation (rq_Reason resolution) (rq_Evidence resolution) (rq_SafeRetryContract resolution)
           chosen now] |>).

(** The request checks of [ResolveActivity] that do not need the journal. *)
Definition validActivityResolutionRequest (r : ActivityResolution) : bool :=
  negb ((rq_Identity r == "") || (rq_InputDigest r == "") || (rq_Implementation r == "")
        || negb (validRuntimeText [rq_Identity r; rq_InputDigest r; rq_Implementation r; rq_DecisionID r;
                                   rq_Reason r; rq_Evidence r; rq_SafeRetryContract r])
        || (rq_DecisionID r == "") || (rq_Reason r == "") || (rq_Evidence r == "")).

(** The checks of [resolutionActivityRecord] on the addressed record; [bound] is the
    identity bound to its key at the current activation. *)
Definition resolutionRecordError (record : ActivityRecord) (bound : string) (r : ActivityResolution) : option error :=
  if (rec_Identity record != bound) || (rec_InputDigest record != rq_InputDigest r)
     || (rec_Implementation record != rq_Implementation r) || (len (rec_Attempts record) == 0%Z)
  then Some (ErrActivityConflict : error)
  else if existsb (fun prior => rsl_DecisionID prior == rq_DecisionID r) (rec_Resolutions record)
  then Some (ErrActivityConflict : error)
  else if (rec_State record != ActivityUnknown) && (rec_State record != ActivityRunning)
  then Some (ErrActivityConflict : error)
  else None.

Definition activityUnresolved (state : ActivityState) : bool :=
  (state == ActivityPrepared) || (state == ActivityRunning) || (state == ActivityUnknown).
