(* ===== verification/ActivityInv.v ===== *)
(** * The activity record state machine

    Every transition of Activity.v keeps a record valid, and the reachable records obey the
    attempt limit and never leave a settled state. *)

From stdpp Require Import relations.
From S2P Require Import Prelude Go Sha256 Json Identity Schedule Activity.

#[local] Arguments validActivityRetryScheduleDecision : simpl never.
#[local] Arguments chooseActivityRetrySchedule : simpl never.

(** ** The integrity check, part by part *)

Definition valid_header (r : ActivityRecord) : bool :=
  validActivityAddress r && validActivityDigest (rec_InputDigest r) && (rec_Key r != "")
  && (rec_Implementation r != "") && validRuntimeText [rec_Implementation r]
  && is_nil (validateActivityRetry (rec_Retry r)).

Record valid_record (r : ActivityRecord) : Prop := mk_valid_record {
  vr_header : valid_header r = true;
  vr_attempts : all_index (validAttemptEntry (len (rec_Attempts r))) 0 (rec_Attempts r) = true;
  vr_limit : (len (rec_Attempts r) <= attempt_limit (rec_Retry r))%Z;
  vr_decisions : validDecisionLoop r [] 0 0 (rec_Resolutions r) = true;
  vr_manual : rec_Origin r = ActivityManual -> validManualActivityOrigin r = true;
  vr_schedules : all_index (validScheduleEntry r) 0 (rec_Attempts r) = true;
  vr_history : forallb (validHistoryEntry r) (removelast (rec_Attempts r)) = true;
  vr_state : validateActivityRecordState r = None;
}.

Lemma header_guard r :
  negb (validActivityAddress r) || negb (validActivityDigest (rec_InputDigest r))
     || (rec_Key r == "") || (rec_Implementation r == "")
     || negb (validRuntimeText [rec_Implementation r])
     || negb (is_nil (validateActivityRetry (rec_Retry r))) = negb (valid_header r).
Proof. unfold valid_header. by rewrite !negb_andb, !negb_involutive. Qed.

Lemma validateActivityRecord_iff r : validateActivityRecord r = None <-> valid_record r.
Proof.
  unfold validateActivityRecord, validateActivityDecisions, validateActivityRecordSchedules,
    validateActivityAttemptHistory. rewrite header_guard. split.
  - intros H. guard_in H; [done|]. guard_in H; [done|]. guard_in H; [done|].
    destruct (validDecisionLoop _ _ _ _ _) eqn:Hd; [|done]. simpl in H.
    destruct (_ && negb (validManualActivityOrigin r)) eqn:Hm; [done|].
    destruct (all_index (validScheduleEntry r) _ _) eqn:Hs; [|done].
    destruct (forallb (validHistoryEntry r) _) eqn:Hh; [|done].
    split; try done; reflect_bools; try lia.
    intros Ho. or_cases.
  - intros []. rewrite vr_header0, vr_attempts0, vr_decisions0, vr_schedules0, vr_history0. simpl.
    destruct (Z.ltb_spec (attempt_limit (rec_Retry r)) (len (rec_Attempts r))); [lia|].
    destruct (bool_decide_reflect (rec_Origin r = ActivityManual)) as [Ho|]; [|done].
    by rewrite vr_manual0.
Qed.

(** ** Decisions *)

Lemma decision_loop_app r ds : forall seen pa pr d,
  validDecisionLoop r seen pa pr (ds ++ [d]) =
  validDecisionLoop r seen pa pr ds &&
  validDecisionEntry r (rev (map rsl_DecisionID ds) ++ seen)
    (default pa (rsl_Attempt <$> last ds)) (default pr (rsl_SourceRevision <$> last ds)) d.
Proof.
  induction ds as [|x ds IH]; intros seen pa pr d; simpl.
  - by rewrite andb_true_r.
  - rewrite IH, andb_assoc. f_equal. rewrite <- app_assoc. simpl.
    destruct ds as [|y ds]; [done|]. destruct (last_is_Some (y :: ds)) as [_ [l E]]; [done|].
    by rewrite last_cons_cons, E.
Qed.

(** What one accepted decision says, whatever its position. *)
Lemma decision_entry_facts r seen pa pr d : validDecisionEntry r seen pa pr d = true ->
  rsl_DecisionID d ∉ seen /\ (pr < rsl_SourceRevision d)%N /\
  (pa < rsl_Attempt d)%Z /\ (rsl_Attempt d <= len (rec_Attempts r))%Z /\
  (exists a, rec_Attempts r !! Z.to_nat (rsl_Attempt d - 1) = Some a /\ att_State a = ActivityUnknown) /\
  validActivityDecisionAction d (rec_Retry r) = true /\
  (rsl_Action d <> ActivityResolveRetry -> rsl_Attempt d = len (rec_Attempts r)).
Proof.
  unfold validDecisionEntry. intros H.
  apply andb_true_iff in H as [H H5]. apply andb_true_iff in H as [H _].
  apply andb_true_iff in H as [H H3]. apply andb_true_iff in H as [H H2].
  destruct (rec_Attempts r !! _) as [a|] eqn:Ha; [|done].
  apply bool_decide_eq_true in H2. reflect_bools. split_and!; try done; try lia.
  - by exists a.
  - intros Hn. or_cases.
Qed.

Lemma decision_loop_mono r r' ds : forall seen pa pr, (0 <= pa)%Z ->
  (forall d seen pa pr, d ∈ ds -> (0 <= pa)%Z ->
     validDecisionEntry r seen pa pr d = true -> validDecisionEntry r' seen pa pr d = true) ->
  validDecisionLoop r seen pa pr ds = true -> validDecisionLoop r' seen pa pr ds = true.
Proof.
  induction ds as [|d ds IH]; intros seen pa pr Hpa Hm H; [done|]. simpl in *.
  apply andb_true_iff in H as [H1 H2]. apply andb_true_iff. split.
  - apply Hm; [set_solver|done..].
  - apply IH; [|intros; apply Hm; [set_solver|done..]|done].
    apply decision_entry_facts in H1. destruct_and!. lia.
Qed.

Lemma decision_loop_facts r ds : forall seen pa pr, (0 <= pa)%Z -> validDecisionLoop r seen pa pr ds = true ->
  forall d, d ∈ ds -> (pa < rsl_Attempt d)%Z /\ rsl_DecisionID d ∉ seen /\
    exists seen' pa' pr', (0 <= pa')%Z /\ validDecisionEntry r seen' pa' pr' d = true.
Proof.
  induction ds as [|x ds IH]; intros seen pa pr Hpa H d Hd; [by apply not_elem_of_nil in Hd|].
  simpl in H. apply andb_true_iff in H as [H1 H2].
  pose proof (decision_entry_facts _ _ _ _ _ H1) as F. destruct_and!.
  apply elem_of_cons in Hd as [->|Hd]; [split_and!; eauto|].
  destruct (IH (rsl_DecisionID x :: seen) (rsl_Attempt x) (rsl_SourceRevision x) ltac:(lia) H2 d Hd)
    as (? & ? & ?). split_and!; [lia|set_solver|done].
Qed.

(** Attempt numbers increase strictly, so only the last decision can name the last attempt. *)
Lemma decision_last_max r ds l : forall seen pa pr, (0 <= pa)%Z -> validDecisionLoop r seen pa pr ds = true ->
  last ds = Some l -> forall d, d ∈ ds -> d = l \/ (rsl_Attempt d < rsl_Attempt l)%Z.
Proof.
  induction ds as [|x ds IH]; intros seen pa pr Hpa H Hl d Hd; [done|].
  simpl in H. apply andb_true_iff in H as [H1 H2].
  pose proof (decision_entry_facts _ _ _ _ _ H1) as F. destruct_and!.
  destruct ds as [|y ds]; [simpl in Hl; simplify_eq; left; set_solver|].
  change (last (y :: ds) = Some l) in Hl.
  apply elem_of_cons in Hd as [->|Hd]; [right|by eapply IH; [|done..]; lia].
  apply (decision_loop_facts r (y :: ds) (rsl_DecisionID x :: seen) (rsl_Attempt x) (rsl_SourceRevision x)
    ltac:(lia) H2 l).
  by apply last_Some_elem_of.
Qed.

(** ** Lemmas shared by the transitions *)

Lemma attempt_limit_pos p : validateActivityRetry p = None -> (1 <= attempt_limit p)%Z.
Proof.
  intros H. unfold attempt_limit. destruct (decide (p = noRetry)) as [->|Hne]; [done|].
  destruct (validateActivityRetry_ok p H Hne) as (_ & ? & _). case_bool_decide; lia.
Qed.

Lemma valid_policy r : valid_record r -> validateActivityRetry (rec_Retry r) = None.
Proof.
  intros H. pose proof (vr_header r H) as Hh. unfold valid_header in Hh.
  apply andb_true_iff in Hh as [_ Hh]. by destruct (validateActivityRetry (rec_Retry r)).
Qed.

(** The check of a record with at least one attempt only looks at the last one. *)
Lemma record_state_snoc r l a : rec_Attempts r = l ++ [a] ->
  validateActivityRecordState r = None ->
  match rec_State r with
  | ActivityPrepared => validPreparedActivity r a = true
  | ActivityRunning => att_State a = ActivityRunning /\ rec_Classification r = NoClass /\
      IsZero (rec_NextAttemptAt r) = true /\ rec_Outcome r = ""
  | ActivityUnknown => att_State a = ActivityUnknown /\ rec_Classification r = ActivityAmbiguous /\
      IsZero (rec_NextAttemptAt r) = true /\ rec_Outcome r = ""
  | ActivityCompleted => validCompletedActivity r a = true
  | ActivityFailed => validFailedActivity r a = true
  | ActivityStateOther _ => False
  end.
Proof.
  unfold validateActivityRecordState, no_bytes. intros ->. rewrite last_snoc.
  destruct (rec_State r); intros H; try guard_in H; try done; reflect_bools;
    by split_and!.
Qed.

(** A decision that names an attempt before the last one survives a change of the last
    attempt that keeps its start time. *)
Lemma decision_entry_update_last r r' l a a' seen pa pr d :
  rec_Attempts r = l ++ [a] -> rec_Attempts r' = l ++ [a'] -> rec_Retry r' = rec_Retry r ->
  att_StartedAt a' = att_StartedAt a -> (0 <= pa)%Z ->
  (rsl_Attempt d < len (rec_Attempts r))%Z ->
  validDecisionEntry r seen pa pr d = true -> validDecisionEntry r' seen pa pr d = true.
Proof.
  intros Ha Ha' Hr Hs Hpa Hlt Hd. pose proof (decision_entry_facts _ _ _ _ _ Hd) as F. destruct_and!.
  unfold validDecisionEntry in *. rewrite Hr. rewrite Ha in *. rewrite Ha'.
  rewrite len_app in Hlt. unfold len in *. simpl in Hlt.
  replace (length (l ++ [a'])) with (length (l ++ [a])) by (rewrite !length_app; done).
  rewrite (lookup_app_l l [a'] (Z.to_nat (rsl_Attempt d - 1))) by lia.
  rewrite (lookup_app_l l [a] (Z.to_nat (rsl_Attempt d - 1))) in Hd by lia.
  destruct (decide (Z.to_nat (rsl_Attempt d) < length l)) as [Hl|Hl].
  - rewrite (lookup_app_l l [a'] (Z.to_nat (rsl_Attempt d))) by lia.
    by rewrite (lookup_app_l l [a] (Z.to_nat (rsl_Attempt d))) in Hd by lia.
  - replace (Z.to_nat (rsl_Attempt d)) with (length l) in * by lia.
    rewrite list_lookup_middle in * by done. by rewrite Hs.
Qed.

(** While the last attempt is not an unknown outcome no decision names it. *)
Lemma decisions_below r l a : valid_record r -> rec_Attempts r = l ++ [a] -> att_State a <> ActivityUnknown ->
  forall d, d ∈ rec_Resolutions r -> (rsl_Attempt d < len (rec_Attempts r))%Z.
Proof.
  intros H Ha Hs d Hd.
  destruct (decision_loop_facts r _ [] 0 0 ltac:(lia) (vr_decisions r H) d Hd) as (Hp & _ & seen & pa & pr & Hpa & He).
  apply decision_entry_facts in He as (_ & _ & _ & Hle & (x & Hx & Hxs) & _).
  destruct (decide (rsl_Attempt d = len (rec_Attempts r))) as [E|]; [exfalso|lia].
  rewrite E, Ha in Hx. unfold len in Hx. rewrite length_app in Hx. simpl in Hx.
  replace (Z.to_nat _) with (length l) in Hx by lia. rewrite list_lookup_middle in Hx by done. congruence.
Qed.

Lemma decisions_update_last r r' l a a' :
  valid_record r -> rec_Attempts r = l ++ [a] -> rec_Attempts r' = l ++ [a'] -> rec_Retry r' = rec_Retry r ->
  att_StartedAt a' = att_StartedAt a ->
  (forall d, d ∈ rec_Resolutions r -> (rsl_Attempt d < len (rec_Attempts r))%Z) ->
  validDecisionLoop r' [] 0 0 (rec_Resolutions r) = true.
Proof.
  intros H Ha Ha' Hr Hs Hlt. apply (decision_loop_mono r); [lia| |apply vr_decisions, H].
  intros d seen pa pr Hd Hpa. apply (decision_entry_update_last r r' l a a'); auto.
Qed.

(** A schedule entry depends on the following attempt only through its start time. *)
Lemma schedules_update_last r r' l a a' :
  rec_Attempts r = l ++ [a] -> rec_Attempts r' = l ++ [a'] -> rec_Retry r' = rec_Retry r ->
  att_StartedAt a' = att_StartedAt a ->
  all_index (validScheduleEntry r) 0 (rec_Attempts r) = true ->
  validScheduleEntry r' (length l) a' = true ->
  all_index (validScheduleEntry r') 0 (rec_Attempts r') = true.
Proof.
  intros Ha Ha' Hr Hs H Hlast. rewrite Ha', all_index_app. rewrite Ha, all_index_app in H.
  apply andb_true_iff in H as [H _]. apply andb_true_iff. split; [|simpl; by rewrite Hlast].
  rewrite all_index_true in *. intros j x Hj. specialize (H j x Hj). simpl in *.
  assert (j < length l) by (by eapply lookup_lt_Some).
  unfold validScheduleEntry in *. rewrite Hr, Ha' in *. rewrite Ha in H.
  destruct (att_RetrySchedule x); [|done].
  destruct (decide (S j < length l)) as [Hl|Hl].
  - rewrite lookup_app_l in * by lia. done.
  - replace (S j) with (length l) in * by lia. rewrite list_lookup_middle in * by done. by rewrite Hs.
Qed.

(** The attempt list of a record whose last attempt is replaced. *)
Lemma attempts_update_last l a a' :
  all_index (validAttemptEntry (len (l ++ [a]))) 0 (l ++ [a]) = true ->
  validAttemptEntry (len (l ++ [a'])) (length l) a' = true ->
  all_index (validAttemptEntry (len (l ++ [a']))) 0 (l ++ [a']) = true.
Proof.
  intros H Ha. rewrite all_index_app in *. simpl in *. rewrite Ha, andb_true_r.
  apply andb_true_iff in H as [H _]. revert H. unfold len. by rewrite !length_app.
Qed.

(** A record in which the last attempt [a] has become [a'], and nothing of the address,
    policy and decisions changed. *)
Lemma valid_replace_last r r' l a a' :
  valid_record r -> rec_Attempts r = l ++ [a] -> rec_Attempts r' = l ++ [a'] ->
  valid_header r' = valid_header r -> rec_Retry r' = rec_Retry r -> rec_Resolutions r' = rec_Resolutions r ->
  att_StartedAt a' = att_StartedAt a -> att_Number a' = att_Number a -> att_Incarnation a' = att_Incarnation a ->
  (forall d, d ∈ rec_Resolutions r -> (rsl_Attempt d < len (rec_Attempts r))%Z) ->
  validateActivityAttempt a' = None -> validScheduleEntry r' (length l) a' = true ->
  (rec_Origin r' = ActivityManual -> validManualActivityOrigin r' = true) ->
  validateActivityRecordState r' = None -> valid_record r'.
Proof.
  intros H Ha Ha' Hh Hr Hd Hs Hn Hi Hb Hv Hsch Hm Hst. split; try done.
  - rewrite Hh. apply H.
  - rewrite Ha'. pose proof (vr_attempts r H) as E. rewrite Ha in E.
    apply (attempts_update_last l a a'); [done|]. rewrite all_index_app in E.
    apply andb_true_iff in E as [_ E]. simpl in E. rewrite andb_true_r in E.
    unfold validAttemptEntry in *. rewrite Hs, Hn, Hi, Hv.
    apply andb_true_iff in E as [E _]. apply andb_true_iff in E as [E _]. rewrite E. simpl.
    rewrite (bool_decide_eq_true_2 (Z.of_nat _ = _)); [by rewrite andb_false_r|].
    unfold len. rewrite length_app. simpl. lia.
  - pose proof (vr_limit r H) as E. rewrite Hr, Ha'. rewrite Ha in E. unfold len in *.
    by rewrite length_app in *.
  - rewrite Hd. by apply (decisions_update_last r r' l a a').
  - apply (schedules_update_last r r' l a a'); try done. apply H.
  - pose proof (vr_history r H) as E. rewrite Ha', removelast_last. rewrite Ha, removelast_last in E.
    rewrite forallb_Forall in *. eapply Forall_impl; [exact E|]. intros x.
    unfold validHistoryEntry, hasActivityRetryDecision. by rewrite Hr, Hd.
Qed.

(** Read off the last attempt. *)
Lemma attempts_snoc r : (1 <= len (rec_Attempts r))%Z -> exists l a, rec_Attempts r = l ++ [a].
Proof.
  intros H. destruct (rec_Attempts r) as [|x y _] using rev_ind; [done|eauto].
Qed.

Lemma running_attempt r : valid_record r -> rec_State r = ActivityRunning ->
  exists l a, rec_Attempts r = l ++ [a] /\ att_State a = ActivityRunning /\ att_RetrySchedule a = None /\
    att_Error a = "" /\ att_Classification a = NoClass /\ att_Number a = len (rec_Attempts r) /\
    IsZero (rec_NextAttemptAt r) = true /\ rec_Outcome r = "".
Proof.
  intros H Hs. pose proof (vr_state r H) as E.
  destruct (decide (1 <= len (rec_Attempts r))%Z) as [Hl|Hl].
  - destruct (attempts_snoc r Hl) as (l & a & Ha). exists l, a.
    pose proof (record_state_snoc r l a Ha E) as F. rewrite Hs in F. destruct F as (F & _ & Hz & Ho).
    pose proof (vr_attempts r H) as G. rewrite Ha, all_index_app in G. simpl in G.
    pose proof (vr_schedules r H) as G'. rewrite Ha, all_index_app in G'. simpl in G'.
    unfold validAttemptEntry, validateActivityAttempt in G. rewrite F in G.
    unfold validScheduleEntry in G'. rewrite F in G'.
    destruct ((att_Classification a == NoClass) && IsZero (att_FinishedAt a) && (att_Error a == "")) eqn:Hc;
      [|by rewrite !andb_false_r in G].
    destruct (att_RetrySchedule a); [by rewrite !andb_false_r in G'|].
    rewrite Ha. unfold len. rewrite length_app. simpl. reflect_bools.
    repeat split; (done || lia).
  - unfold validateActivityRecordState in E. destruct (rec_Attempts r); [|unfold len in Hl; simpl in Hl; lia].
    simpl in E. by rewrite Hs in E.
Qed.

Lemma decision_loop_ext r r' ds : rec_Attempts r' = rec_Attempts r -> rec_Retry r' = rec_Retry r ->
  forall seen pa pr, validDecisionLoop r' seen pa pr ds = validDecisionLoop r seen pa pr ds.
Proof.
  intros Ha Hr. induction ds as [|d ds IH]; intros seen pa pr; [done|]. simpl. rewrite IH. f_equal.
  unfold validDecisionEntry. by rewrite Ha, Hr.
Qed.

(** A record in which neither the attempts nor the decisions changed. *)
Lemma valid_same_attempts r r' :
  valid_record r -> rec_Attempts r' = rec_Attempts r -> valid_header r' = valid_header r ->
  rec_Retry r' = rec_Retry r -> rec_Resolutions r' = rec_Resolutions r ->
  (rec_Origin r' = ActivityManual -> validManualActivityOrigin r' = true) ->
  validateActivityRecordState r' = None -> valid_record r'.
Proof.
  intros H Ha Hh Hr Hd Hm Hst. split; try done; rewrite ?Ha, ?Hh, ?Hr, ?Hd; try apply H.
  - rewrite (decision_loop_ext r r') by done. apply H.
  - pose proof (vr_schedules r H) as E. rewrite all_index_true in *. intros j x Hj. specialize (E j x Hj).
    unfold validScheduleEntry in *. by rewrite Ha, Hr.
  - pose proof (vr_history r H) as E. rewrite forallb_Forall in *. eapply Forall_impl; [exact E|]. intros x.
    unfold validHistoryEntry, hasActivityRetryDecision. by rewrite Hr, Hd.
Qed.

(** ** Each transition preserves the integrity check *)

Lemma new_valid executionID node activation key input implementation retry :
  executionID <> "" -> node <> "" -> activation <> 0%N -> key <> "" -> implementation <> "" ->
  validRuntimeText [executionID; node; key] = true -> validRuntimeText [implementation] = true ->
  validateActivityRetry retry = None ->
  valid_record (newActivityRecord (activityAddressIdentity executionID node activation key) executionID node
    activation key (sha256_hex input) implementation retry).
Proof.
  intros He Hn Ha Hk Hi Ht Hti Hr. split; try done.
  - unfold valid_header, validActivityAddress.
    cbn [newActivityRecord rec_ExecutionID rec_Node rec_Activation rec_Key rec_Identity rec_InputDigest
      rec_Implementation rec_Retry].
    rewrite (bool_decide_eq_true_2 (activityAddressIdentity _ _ _ _ = _)) by done.
    by rewrite Ht, Hti, Hr, sha256_hex_digest, !bool_decide_eq_false_2.
  - pose proof (attempt_limit_pos retry Hr). cbn [newActivityRecord rec_Attempts rec_Retry]. unfold len. simpl. lia.
Qed.

Lemma complete_valid r payload origin now :
  valid_record r -> rec_State r = ActivityRunning -> origin = ActivityLive \/ origin = ActivitySimulated ->
  IsZero now = false -> valid_record (completeActivity r payload origin now).
Proof.
  intros H Hs Ho Hz. destruct (running_attempt r H Hs) as (l & a & Ha & Has & Hsc & He & Hc & Hn & Hnz & Hout).
  unfold completeActivity. replace ((origin != ActivityReconciled) && (origin != ActivityManual)) with true
    by (by destruct Ho as [-> | ->]).
  eapply (valid_replace_last r _ l a (a <| att_State := ActivityCompleted |> <| att_FinishedAt := toUTC now |>));
    try done; simpl; rewrite ?Ha, ?update_last_snoc; try done.
  - rewrite <- Ha. apply (decisions_below r l a); congruence.
  - unfold validateActivityAttempt. simpl. rewrite Hc, He.
    change (IsZero (toUTC now)) with (IsZero now). by rewrite Hz.
  - unfold validScheduleEntry. simpl. by rewrite Hsc.
  - by destruct Ho as [-> | ->].
  - unfold validateActivityRecordState. simpl. rewrite last_snoc. unfold validCompletedActivity. simpl. rewrite Hnz.
    by destruct Ho as [-> | ->].
Qed.

Lemma unknown_attempt r : valid_record r -> rec_State r = ActivityUnknown ->
  exists l a, rec_Attempts r = l ++ [a] /\ att_State a = ActivityUnknown /\
    IsZero (rec_NextAttemptAt r) = true /\ rec_Outcome r = "".
Proof.
  intros H Hs. pose proof (vr_state r H) as E.
  destruct (decide (1 <= len (rec_Attempts r))%Z) as [Hl|Hl].
  - destruct (attempts_snoc r Hl) as (l & a & Ha). exists l, a.
    pose proof (record_state_snoc r l a Ha E) as F. rewrite Hs in F. by destruct F as (F & _ & Hz & Ho).
  - unfold validateActivityRecordState in E. destruct (rec_Attempts r); [|unfold len in Hl; simpl in Hl; lia].
    simpl in E. by rewrite Hs in E.
Qed.

Lemma reconcile_valid r payload now : valid_record r -> rec_State r = ActivityUnknown ->
  valid_record (completeActivity r payload ActivityReconciled now).
Proof.
  intros H Hs. destruct (unknown_attempt r H Hs) as (l & a & Ha & Has & Hz & Ho).
  eapply (valid_same_attempts r); try done.
  unfold validateActivityRecordState. simpl. rewrite Ha, last_snoc.
  unfold validCompletedActivity. simpl. by rewrite Hz, Has.
Qed.

Lemma validManual_running r r' : rec_Attempts r' = rec_Attempts r \/ length (rec_Attempts r') = length (rec_Attempts r) ->
  rec_Resolutions r' = rec_Resolutions r -> rec_State r = ActivityRunning -> rec_State r' = ActivityUnknown ->
  validManualActivityOrigin r = true -> validManualActivityOrigin r' = true.
Proof.
  intros Hl Hd Hs Hs'. unfold validManualActivityOrigin, len. rewrite Hd, Hs, Hs'.
  assert (length (rec_Attempts r') = length (rec_Attempts r)) as -> by (destruct Hl; congruence). done.
Qed.

Lemma abandon_valid r : valid_record r -> rec_State r = ActivityRunning -> valid_record (abandonActivity r).
Proof.
  intros H Hs. destruct (running_attempt r H Hs) as (l & a & Ha & Has & Hsc & He & Hc & Hn & Hnz & Hout).
  unfold abandonActivity, abandonAttempt.
  eapply (valid_replace_last r _ l a
    (a <| att_State := ActivityUnknown |> <| att_Classification := ActivityAmbiguous |>));
    try done; simpl; rewrite ?Ha, ?update_last_snoc; try done.
  - rewrite <- Ha. apply (decisions_below r l a); congruence.
  - unfold validScheduleEntry. simpl. by rewrite Hsc.
  - intros Ho. apply (validManual_running r); try done; simpl.
    + right. by rewrite Ha, !length_app.
    + by apply H.
  - unfold validateActivityRecordState. simpl. rewrite last_snoc. by rewrite Hnz, Hout.
Qed.

Definition known_class (c : ActivityFailureClass) : Prop :=
  c = ActivityRetryable \/ c = ActivityNonRetryable \/ c = ActivityAmbiguous.

Lemma classify_known classify e : known_class (fd_Class (classifyActivityFailure classify e).1).
Proof.
  unfold known_class, classifyActivityFailure. destruct classify as [f|]; [|naive_solver].
  destruct (fd_Class (f e)) eqn:E; simpl; rewrite ?E; naive_solver.
Qed.

(** Rejections other than a policy or clock rejection leave the deadline unset. *)
Lemma time_valid_nonzero t : activityScheduleTimeValid t = true -> IsZero t = false.
Proof. unfold activityScheduleTimeValid. intros H. apply andb_true_iff in H as [H _]. by apply negb_true_iff in H. Qed.

Lemma chosen_prepared p attempt at_ hint random :
  dec_PreparedAt (chooseActivityRetrySchedule p attempt at_ hint random) = toUTC at_ /\
  dec_Attempt (chooseActivityRetrySchedule p attempt at_ hint random) = attempt.
Proof.
  unfold chooseActivityRetrySchedule, chooseJitter, chooseDeadline.
  destruct random; cbn [activityRetryRandomSample negb]; repeat guard_goal; done.
Qed.

Section Failure.
Context (r : ActivityRecord) (message : string) (decision : ActivityFailureDecision) (now : Time) (random : option N).
Context (Hvalid : valid_record r) (Hrunning : rec_State r = ActivityRunning) (Horigin : rec_Origin r = NoOrigin).
Context (Hnow : activityScheduleTimeValid now = true).

Lemma fail_permanent_valid state schedule :
  fd_Class decision <> ActivityRetryable \/ (pol_MaxAttempts (rec_Retry r) <= len (rec_Attempts r))%Z ->
  (state = ActivityFailed /\ (fd_Class decision = ActivityRetryable \/ fd_Class decision = ActivityNonRetryable)) \/
  (state = ActivityUnknown /\ fd_Class decision = ActivityAmbiguous) ->
  schedule = None ->
  valid_record (r <| rec_Classification := fd_Class decision |> <| rec_NextAttemptAt := time_zero |>
    <| rec_State := state |>
    <| rec_Attempts := update_last (fun a => a <| att_Classification := fd_Class decision |> <| att_Error := message |>
        <| att_FinishedAt := toUTC now |> <| att_State := state |>
        <| att_RetrySchedule := match schedule with Some s => Some s | None => att_RetrySchedule a end |>)
        (rec_Attempts r) |>).
Proof using All.
  intros Hclass Hstate ->. destruct (running_attempt r Hvalid Hrunning) as (l & a & Ha & Has & Hsc & He & Hc & Hn & Hnz & Hout).
  pose proof (time_valid_nonzero now Hnow) as Hz.
  eapply (valid_replace_last r _ l a (a <| att_Classification := fd_Class decision |> <| att_Error := message |>
        <| att_FinishedAt := toUTC now |> <| att_State := state |>));
    try done; simpl; rewrite ?Ha, ?update_last_snoc; try done.
  - rewrite <- Ha. apply (decisions_below r l a); congruence.
  - unfold validateActivityAttempt. simpl. change (IsZero (toUTC now)) with (IsZero now). rewrite Hz.
    destruct Hstate as [(-> & [-> | ->])|(-> & ->)]; done.
  - unfold validScheduleEntry. simpl. rewrite Hsc. apply negb_true_iff.
    destruct Hstate as [(-> & Hk)|(-> & ->)]; [|done]. rewrite Hn. destruct Hk as [Hk|Hk]; rewrite Hk in *; [|done].
    destruct Hclass as [?|Hmax]; [done|]. simpl.
    destruct (Z.ltb_spec (len (rec_Attempts r)) (pol_MaxAttempts (rec_Retry r))); [lia|done].
  - by rewrite Horigin.
  - unfold validateActivityRecordState. simpl. rewrite last_snoc.
    destruct Hstate as [(-> & [-> | ->])|(-> & ->)]; unfold validFailedActivity; simpl; by rewrite ?Hout.
Qed.

Lemma fail_scheduled_valid :
  let chosen := chooseActivityRetrySchedule (rec_Retry r) (len (rec_Attempts r)) (toUTC now) (fd_NotBefore decision) random in
  (sch_MaxDelay (pol_Schedule (rec_Retry r)) <= max_int64)%Z ->
  fd_Class decision = ActivityRetryable -> (len (rec_Attempts r) < pol_MaxAttempts (rec_Retry r))%Z ->
  valid_record (let r' := r <| rec_Classification := ActivityRetryable |> <| rec_NextAttemptAt := time_zero |>
    <| rec_State := ActivityFailed |>
    <| rec_Attempts := update_last (fun a => a <| att_Classification := ActivityRetryable |> <| att_Error := message |>
        <| att_FinishedAt := toUTC now |> <| att_State := ActivityFailed |>
        <| att_RetrySchedule := Some chosen |>) (rec_Attempts r) |> in
    if dec_Rejection chosen == "" then
      r' <| rec_State := ActivityPrepared |> <| rec_NextAttemptAt := dec_Deadline chosen |>
    else r').
Proof using All.
  intros chosen Hmax Hclass Hlt.
  destruct (running_attempt r Hvalid Hrunning) as (l & a & Ha & Has & Hsc & He & Hc & Hn & Hnz & Hout).
  pose proof (time_valid_nonzero now Hnow) as Hz.
  assert (Hone : (1 <= len (rec_Attempts r))%Z) by (rewrite Ha, len_app; unfold len; simpl; lia).
  assert (Hv : validActivityRetryScheduleDecision (rec_Retry r) (Some chosen) = true).
  { apply chosen_valid; try done. by apply valid_policy. }
  destruct (chosen_prepared (rec_Retry r) (len (rec_Attempts r)) (toUTC now) (fd_NotBefore decision) random) as [Hp Hatt].
  fold chosen in Hp, Hatt.
  destruct (retry_policy_ok (rec_Retry r) (len (rec_Attempts r)) (valid_policy r Hvalid) (conj Hone Hlt)) as [_ Hsafe].
  assert (Hentry : forall r' n, rec_Retry r' = rec_Retry r -> rec_Attempts r' !! S n = None ->
    validScheduleEntry r' n (a <| att_Classification := ActivityRetryable |> <| att_Error := message |>
        <| att_FinishedAt := toUTC now |> <| att_State := ActivityFailed |> <| att_RetrySchedule := Some chosen |>) = true).
  { intros r' n Hr' Hnone. unfold validScheduleEntry. simpl. rewrite Hr', Hnone.
    rewrite Hatt, Hn, Hp, Hv. unfold TimeEqual. by rewrite !bool_decide_eq_true_2. }
  assert (Hbeyond : forall x : ActivityAttempt, (l ++ [x]) !! S (length l) = None).
  { intros x. apply lookup_ge_None_2. rewrite length_app. simpl. lia. }
  assert (Hb : forall d, d ∈ rec_Resolutions r -> (rsl_Attempt d < len (rec_Attempts r))%Z)
    by (apply (decisions_below r l a); congruence).
  destruct (bool_decide_reflect (dec_Rejection chosen = "")) as [Hrej|Hrej]; simpl.
  - destruct (accepted_decision_deadline _ _ Hv Hrej) as (Hd & _).
    eapply (valid_replace_last r _ l a (a <| att_Classification := ActivityRetryable |> <| att_Error := message |>
        <| att_FinishedAt := toUTC now |> <| att_State := ActivityFailed |> <| att_RetrySchedule := Some chosen |>));
      try done; simpl; rewrite ?Ha, ?update_last_snoc; try done; try (by rewrite <- Ha);
      try (apply Hentry; simpl; [done|apply Hbeyond]); try (by rewrite Horigin).
    + unfold validateActivityAttempt. simpl. change (IsZero (toUTC now)) with (IsZero now). by rewrite Hz.
    + unfold validateActivityRecordState. simpl. rewrite last_snoc.
      unfold validPreparedActivity, validPreparedActivitySchedule. simpl.
      rewrite (time_valid_nonzero _ Hd), Horigin, Hout. simpl.
      rewrite (bool_decide_eq_false_2 _ Hsafe), Hrej. unfold TimeEqual. rewrite bool_decide_eq_true_2 by done.
      rewrite Ha, !len_app in Hlt. rewrite len_app. apply Z.ltb_lt in Hlt. unfold len in *. simpl in *.
      by rewrite Hlt, (bool_decide_eq_true_2 (time_ns _ = _)).
  - eapply (valid_replace_last r _ l a (a <| att_Classification := ActivityRetryable |> <| att_Error := message |>
        <| att_FinishedAt := toUTC now |> <| att_State := ActivityFailed |> <| att_RetrySchedule := Some chosen |>));
      try done; simpl; rewrite ?Ha, ?update_last_snoc; try done; try (by rewrite <- Ha);
      try (apply Hentry; simpl; [done|apply Hbeyond]); try (by rewrite Horigin).
    + unfold validateActivityAttempt. simpl. change (IsZero (toUTC now)) with (IsZero now). by rewrite Hz.
    + unfold validateActivityRecordState. simpl. rewrite last_snoc. unfold validFailedActivity. simpl. by rewrite Hout.
Qed.

Lemma fail_valid : (sch_MaxDelay (pol_Schedule (rec_Retry r)) <= max_int64)%Z -> known_class (fd_Class decision) ->
  valid_record (recordActivityFailure r message decision now random).
Proof using All.
  intros Hmax Hk. unfold recordActivityFailure.
  destruct Hk as [Hk|[Hk|Hk]]; rewrite Hk.
  - destruct (Z.ltb_spec (len (rec_Attempts r)) (pol_MaxAttempts (rec_Retry r))) as [Hlt|Hge].
    + pose proof (fail_scheduled_valid Hmax Hk Hlt) as F. simpl in F |- *.
      apply Z.ltb_lt in Hlt. rewrite Hlt. exact F.
    + pose proof (fail_permanent_valid ActivityFailed None (or_intror Hge) ltac:(left; naive_solver) eq_refl) as F.
      rewrite Hk in F. simpl in F |- *. apply Z.ltb_ge in Hge. rewrite Hge. exact F.
  - pose proof (fail_permanent_valid ActivityFailed None ltac:(left; congruence) ltac:(left; naive_solver) eq_refl) as F.
    rewrite Hk in F. exact F.
  - pose proof (fail_permanent_valid ActivityUnknown None ltac:(left; congruence) ltac:(right; naive_solver) eq_refl) as F.
    rewrite Hk in F. exact F.
Qed.
End Failure.

(** ** Starting an attempt *)

Lemma prepared_ready r revision now : preparedActivityError r revision now = None ->
  rec_State r = ActivityPrepared /\
  (rec_Attempts r = [] \/
   ((len (rec_Attempts r) < pol_MaxAttempts (rec_Retry r))%Z /\ pol_SafeRetryContract (rec_Retry r) <> "" /\
    (time_ns (rec_NextAttemptAt r) <= time_ns now)%Z)).
Proof.
  unfold preparedActivityError, Before. intros H. guard_in H; [done|]. guard_in H; [done|].
  apply negb_false_iff, bool_decide_eq_true in Hg0. split; [done|].
  guard_in H; [left; unfold len in Hg1; reflect_bools; destruct (rec_Attempts r); [done|]; simpl in *; lia|].
  guard_in H; [done|]. guard_in H; [done|]. right. reflect_bools. split_and!; (done || lia).
Qed.

Definition accepted_for (r : ActivityRecord) (choice : option ActivityRetryScheduleDecision) : Prop :=
  exists c, choice = Some c /\ dec_Rejection c = "" /\ time_ns (dec_Deadline c) = time_ns (rec_NextAttemptAt r).

(** The last attempt of a record waiting for a retry: a scheduled failure, or an unknown
    outcome for which the last manual decision orders a retry. *)
Lemma prepared_last r l a : valid_record r -> rec_State r = ActivityPrepared -> rec_Attempts r = l ++ [a] ->
  pol_SafeRetryContract (rec_Retry r) <> "" /\
  ((att_State a = ActivityFailed /\ att_Classification a = ActivityRetryable /\ accepted_for r (att_RetrySchedule a) /\
    (forall d, d ∈ rec_Resolutions r -> (rsl_Attempt d < len (rec_Attempts r))%Z)) \/
   (att_State a = ActivityUnknown /\ att_RetrySchedule a = None /\
    exists d, last (rec_Resolutions r) = Some d /\ rsl_Action d = ActivityResolveRetry /\
      rsl_Attempt d = len (rec_Attempts r) /\ accepted_for r (rsl_RetrySchedule d))).
Proof.
  intros H Hs Ha. pose proof (record_state_snoc r l a Ha (vr_state r H)) as F. rewrite Hs in F.
  unfold validPreparedActivity, validPreparedActivitySchedule in F.
  apply andb_true_iff in F as [F Hsch]. apply andb_true_iff in F as [F _].
  apply andb_true_iff in F as [F Hst]. apply andb_true_iff in F as [F _]. apply andb_true_iff in F as [_ Hsafe].
  split; [by reflect_bools|].
  pose proof (vr_schedules r H) as G. rewrite Ha, all_index_app in G. apply andb_true_iff in G as [_ G].
  simpl in G. rewrite andb_true_r in G. unfold validScheduleEntry in G.
  destruct (bool_decide_reflect (rec_Origin r = ActivityManual)) as [Hm|Hm].
  - pose proof (vr_manual r H Hm) as M. unfold validManualActivityOrigin in M. rewrite Hs in M.
    destruct (last (rec_Resolutions r)) as [d|] eqn:Hd; [|done].
    assert (Hin : d ∈ rec_Resolutions r) by (by apply last_Some_elem_of).
    destruct (decide (att_State a = ActivityUnknown)) as [Hu|Hu].
    + right. split; [done|]. destruct (att_RetrySchedule a); [by rewrite Hu in G|]. split; [done|].
      exists d. destruct (rsl_RetrySchedule d) as [c|] eqn:Hc; [|done]. unfold TimeEqual in Hsch. reflect_bools.
      split_and!; try done. by exists c.
    + exfalso. pose proof (decisions_below r l a H Ha Hu d Hin). reflect_bools. lia.
  - left. destruct (att_RetrySchedule a) as [c|] eqn:Hc; [|done]. unfold TimeEqual in Hsch.
    assert (att_State a = ActivityFailed) by (reflect_bools; or_cases; by destruct_and?).
    split_and!; try done.
    + apply andb_true_iff in G as [G _]. by reflect_bools.
    + exists c. by reflect_bools.
    + apply (decisions_below r l a); congruence.
Qed.

Lemma no_attempts_no_decisions r : valid_record r -> rec_Attempts r = [] -> rec_Resolutions r = [].
Proof.
  intros H Ha. destruct (rec_Resolutions r) as [|d ds] eqn:E; [done|exfalso].
  pose proof (vr_decisions r H) as D. rewrite E in D. simpl in D. apply andb_true_iff in D as [D _].
  apply decision_entry_facts in D as (_ & _ & ? & Hle & _). rewrite Ha in Hle. unfold len in Hle. simpl in Hle. lia.
Qed.

Section Start.
(** [now] is the clock read by the check, [started] the clock read for the attempt, not earlier. *)
Context (r : ActivityRecord) (incarnation revision : N) (now started : Time) (Hmono : (time_ns now <= time_ns started)%Z).
Context (Hvalid : valid_record r) (Hready : preparedActivityError r revision now = None).
Context (Hinc : incarnation <> 0%N) (Hnow : IsZero started = false).

Let fresh : ActivityAttempt :=
  mkAttempt (len (rec_Attempts r) + 1) incarnation ActivityRunning "" NoClass (toUTC started) None time_zero.
Let r' := startActivityAttempt r incarnation started.

Lemma start_fresh_entry : validAttemptEntry (len (rec_Attempts r ++ [fresh])) (length (rec_Attempts r)) fresh = true.
Proof using Hinc Hnow.
  unfold validAttemptEntry, fresh. cbn [att_Number att_Incarnation att_StartedAt att_State].
  change (IsZero (toUTC started)) with (IsZero started). rewrite Hnow, (bool_decide_eq_false_2 (incarnation = 0%N)) by done.
  rewrite (bool_decide_eq_true_2 (len _ + 1 = _)%Z) by done. simpl.
  rewrite bool_decide_eq_true_2; [done|]. unfold len. rewrite length_app. simpl. lia.
Qed.

Lemma start_attempts_valid : all_index (validAttemptEntry (len (rec_Attempts r'))) 0 (rec_Attempts r') = true.
Proof using All.
  change (rec_Attempts r') with (rec_Attempts r ++ [fresh]). rewrite all_index_app. simpl.
  rewrite start_fresh_entry, !andb_true_r. pose proof (vr_attempts r Hvalid) as E.
  rewrite all_index_true in *. intros j x Hj. specialize (E j x Hj). unfold validAttemptEntry in *.
  apply andb_true_iff in E as [E Hrun]. rewrite E. simpl.
  destruct (bool_decide_reflect (att_State x = ActivityRunning)) as [Hx|]; [exfalso|done].
  apply prepared_ready in Hready as [Hs _]. simpl in Hrun.
  apply negb_true_iff, negb_false_iff, bool_decide_eq_true in Hrun.
  destruct (attempts_snoc r) as (l & a & Ha).
  { unfold len. apply lookup_lt_Some in Hj. lia. }
  assert (x = a) as ->.
  { rewrite Ha in Hj, Hrun. unfold len in Hrun. rewrite length_app in Hrun. simpl in Hrun.
    replace j with (length l) in Hj by lia. rewrite list_lookup_middle in Hj by done. congruence. }
  destruct (prepared_last r l a Hvalid Hs Ha) as (_ & [(? & _)|(? & _)]); congruence.
Qed.

(** Every decision of a record that waits for a retry is a retry decision whose deadline
    has passed by the time the next attempt starts. *)
Lemma start_decisions_valid : validDecisionLoop r' [] 0 0 (rec_Resolutions r) = true.
Proof using All.
  destruct (prepared_ready r revision now Hready) as (Hs & Hcase).
  destruct Hcase as [Hnil|(_ & _ & Hdue)]; [by rewrite no_attempts_no_decisions|].
  destruct (decide (rec_Attempts r = [])) as [Hnil|Hne]; [by rewrite no_attempts_no_decisions|].
  destruct (attempts_snoc r) as (l & a & Ha); [unfold len; destruct (rec_Attempts r); [done|simpl; lia]|].
  destruct (prepared_last r l a Hvalid Hs Ha) as (_ & Hlast).
  apply (decision_loop_mono r); [lia| |apply vr_decisions, Hvalid].
  intros d seen pa pr Hd Hpa He. pose proof (decision_entry_facts _ _ _ _ _ He) as F. destruct_and!.
  assert (Hd' : (rsl_Attempt d < len (rec_Attempts r))%Z \/
    (rsl_Attempt d = len (rec_Attempts r) /\ rsl_Action d = ActivityResolveRetry /\ accepted_for r (rsl_RetrySchedule d))).
  { destruct Hlast as [(_ & _ & _ & Hb)|(_ & _ & m & Hm & Hact & Hatt & Hacc)]; [left; auto|].
    destruct (decision_last_max r _ m [] 0 0 ltac:(lia) (vr_decisions r Hvalid) Hm d Hd) as [->|]; [right; auto|lia]. }
  unfold validDecisionEntry in *. change (rec_Attempts r') with (rec_Attempts r ++ [fresh]).
  change (rec_Retry r') with (rec_Retry r). rewrite len_app. change (len [fresh]) with 1%Z.
  unfold len in *. rewrite lookup_app_l by lia.
  apply andb_true_iff in He as [He _]. apply andb_true_iff in He as [He Hnext].
  apply andb_true_iff in He as [He Hdec]. apply andb_true_iff in He as [He Hu]. rewrite Hu, Hdec, !andb_true_r.
  destruct (Z.ltb_spec (Z.of_nat (length (rec_Attempts r)) + 1) (rsl_Attempt d)); [lia|].
  destruct (Z.ltb_spec (Z.of_nat (length (rec_Attempts r))) (rsl_Attempt d)); [lia|]. rewrite He. simpl.
  destruct Hd' as [Hlt|(Heq & Hact & c & Hc & _ & Hdl)].
  - rewrite lookup_app_l by lia. destruct (Z.ltb_spec (rsl_Attempt d) (Z.of_nat (length (rec_Attempts r)))); [|lia].
    destruct (Z.ltb_spec (rsl_Attempt d) (Z.of_nat (length (rec_Attempts r)) + 1)); [|lia]. rewrite Hnext. simpl.
    destruct (bool_decide_reflect (rsl_Action d = ActivityResolveRetry)); [done|].
    match goal with Hx : _ -> rsl_Attempt d = _ |- _ => specialize (Hx ltac:(done)) end. lia.
  - replace (Z.to_nat (rsl_Attempt d)) with (length (rec_Attempts r)) by lia.
    rewrite list_lookup_middle by done. rewrite Hc, Hact. simpl. unfold Before.
    destruct (Z.ltb_spec (time_ns (toUTC started)) (time_ns (dec_Deadline c))) as [Hx|]; [simpl in Hx; lia|].
    by rewrite andb_false_r.
Qed.

Lemma start_schedules_valid : all_index (validScheduleEntry r') 0 (rec_Attempts r') = true.
Proof using All.
  change (rec_Attempts r') with (rec_Attempts r ++ [fresh]). rewrite all_index_app. apply andb_true_iff. split; [|done].
  pose proof (vr_schedules r Hvalid) as E. rewrite all_index_true in *. intros j x Hj. specialize (E j x Hj).
  unfold validScheduleEntry in *. change (rec_Retry r') with (rec_Retry r).
  change (rec_Attempts r') with (rec_Attempts r ++ [fresh]). simpl in *.
  destruct (att_RetrySchedule x) as [c|] eqn:Hc; [|done].
  destruct (decide (S j < length (rec_Attempts r))) as [Hl|Hl]; [by rewrite lookup_app_l by lia|].
  apply andb_true_iff in E as [-> _]. simpl. pose proof (lookup_lt_Some _ _ _ Hj).
  replace (S j) with (length (rec_Attempts r)) by lia. rewrite list_lookup_middle by done.
  destruct (prepared_ready r revision now Hready) as (Hs & [Hnil|(_ & _ & Hdue)]); [by rewrite Hnil in Hj|].
  destruct (attempts_snoc r) as (l & a & Ha); [unfold len; lia|].
  assert (x = a) as ->.
  { rewrite Ha in Hj, Hl, H. rewrite length_app in Hl, H. simpl in *. replace j with (length l) in Hj by lia.
    rewrite list_lookup_middle in Hj by done. congruence. }
  destruct (prepared_last r l a Hvalid Hs Ha) as (_ & [(_ & _ & (c' & Hc' & Hr & Hd) & _)|(_ & ? & _)]); [|congruence].
  assert (c' = c) as -> by congruence. rewrite Hr. unfold Before. simpl.
  destruct (Z.ltb_spec (time_ns started) (time_ns (dec_Deadline c))); [lia|done].
Qed.

Lemma start_history_valid : forallb (validHistoryEntry r') (removelast (rec_Attempts r')) = true.
Proof using All.
  destruct (prepared_ready r revision now Hready) as (Hs & _).
  change (rec_Attempts r') with (rec_Attempts r ++ [fresh]). rewrite removelast_last.
  apply forallb_Forall. apply Forall_forall. intros x Hx.
  destruct (decide (rec_Attempts r = [])) as [E|E]; [rewrite E in Hx; by apply not_elem_of_nil in Hx|].
  destruct (attempts_snoc r) as (l & a & Ha); [unfold len; destruct (rec_Attempts r); [done|simpl; lia]|].
  pose proof (vr_history r Hvalid) as Hh. rewrite Ha, removelast_last in Hh. rewrite Ha in Hx.
  apply elem_of_app in Hx as [Hx|Hx]; [rewrite forallb_Forall, Forall_forall in Hh; exact (Hh x Hx)|].
  apply list_elem_of_singleton in Hx as ->.
  destruct (prepared_last r l a Hvalid Hs Ha) as (Hsafe & Hlast). unfold validHistoryEntry.
  change (rec_Retry r') with (rec_Retry r). rewrite bool_decide_eq_false_2 by done. simpl.
  destruct Hlast as [(-> & -> & _)|(-> & _ & d & Hd & Hact & Hatt & _)]; [done|].
  unfold hasActivityRetryDecision. apply existsb_exists. exists d.
  split; [apply list_elem_of_In; by apply last_Some_elem_of|]. rewrite Hact, Hatt.
  pose proof (vr_attempts r Hvalid) as G. rewrite Ha, all_index_app in G. apply andb_true_iff in G as [_ G].
  simpl in G. unfold validAttemptEntry in G. rewrite Ha. unfold len. rewrite length_app. simpl.
  reflect_bools. split; [lia|done].
Qed.

Lemma start_valid : valid_record r'.
Proof using All.
  destruct (prepared_ready r revision now Hready) as (Hs & Hcase). split.
  - apply (vr_header r Hvalid).
  - apply start_attempts_valid.
  - change (rec_Attempts r') with (rec_Attempts r ++ [fresh]). change (rec_Retry r') with (rec_Retry r).
    rewrite len_app. change (len [fresh]) with 1%Z.
    destruct Hcase as [->|(Hlt & _)].
    + pose proof (attempt_limit_pos _ (valid_policy r Hvalid)). unfold len. simpl. lia.
    + unfold attempt_limit. pose proof (len_nonneg (rec_Attempts r)). case_bool_decide; lia.
  - apply start_decisions_valid.
  - done.
  - apply start_schedules_valid.
  - apply start_history_valid.
  - unfold validateActivityRecordState. change (rec_Attempts r') with (rec_Attempts r ++ [fresh]).
    rewrite last_snoc. unfold r', startActivityAttempt. simpl.
    assert (rec_Outcome r = "") as ->; [|done].
    pose proof (vr_state r Hvalid) as E. unfold validateActivityRecordState in E. rewrite Hs in E.
    destruct (last (rec_Attempts r)); guard_in E; try done; unfold validPreparedActivity, no_bytes in *; by reflect_bools.
Qed.
End Start.

(** ** Manual resolution *)

(** A well-formed new decision about the unknown last attempt extends a valid record. *)
Lemma add_decision_valid u r' l a d :
  valid_record u -> rec_Attempts u = l ++ [a] -> att_State a = ActivityUnknown ->
  (forall x, x ∈ rec_Resolutions u ->
     (rsl_Attempt x < len (rec_Attempts u))%Z /\ (rsl_SourceRevision x < rsl_SourceRevision d)%N /\
     rsl_DecisionID x <> rsl_DecisionID d) ->
  rec_Attempts r' = rec_Attempts u -> valid_header r' = valid_header u -> rec_Retry r' = rec_Retry u ->
  rec_Resolutions r' = rec_Resolutions u ++ [d] ->
  rsl_DecisionID d <> "" -> rsl_Reason d <> "" -> rsl_Evidence d <> "" -> IsZero (rsl_At d) = false ->
  rsl_Incarnation d <> 0%N -> (0 < rsl_SourceRevision d)%N -> rsl_Attempt d = len (rec_Attempts u) ->
  (rsl_PriorState d = ActivityUnknown \/ rsl_PriorState d = ActivityRunning) ->
  validActivityDecisionAction d (rec_Retry u) = true ->
  (rec_Origin r' = ActivityManual -> validManualActivityOrigin r' = true) ->
  validateActivityRecordState r' = None -> valid_record r'.
Proof.
  intros H Ha Has Hold Ha' Hh Hr Hd Hid Hre Hev Hat Hin Hsr Hatt Hpr Hact Hm Hst.
  split; rewrite ?Ha', ?Hh, ?Hr, ?Hd; try done; try apply H.
  - rewrite decision_loop_app, (decision_loop_ext u r') by done. rewrite (vr_decisions u H). simpl.
    unfold validDecisionEntry. rewrite Ha', Hr, Hact, Hatt. rewrite app_nil_r.
    replace (Z.to_nat (len (rec_Attempts u) - 1)) with (length l)
      by (rewrite Ha, len_app; unfold len; simpl; lia).
    assert (rec_Attempts u !! length l = Some a) as -> by (rewrite Ha; by apply list_lookup_middle).
    rewrite Has.
    rewrite (bool_decide_eq_true_2 (len (rec_Attempts u) = _)), Z.ltb_irrefl, !andb_false_r by done. simpl.
    rewrite !andb_true_r. apply negb_true_iff. rewrite Hat, (bool_decide_eq_false_2 _ Hid),
      (bool_decide_eq_false_2 _ Hre), (bool_decide_eq_false_2 _ Hev), (bool_decide_eq_false_2 _ Hin).
    rewrite bool_decide_eq_false_2.
    2: { rewrite list_elem_of_In, <- in_rev, in_map_iff. intros (x & Hx & Hi).
         apply list_elem_of_In, Hold in Hi. destruct Hi as (_ & _ & ?). congruence. }
    assert ((default 0 (rsl_SourceRevision <$> last (rec_Resolutions u)) < rsl_SourceRevision d)%N /\
            (default 0 (rsl_Attempt <$> last (rec_Resolutions u)) < len (rec_Attempts u))%Z) as [H1 H2].
    { destruct (last (rec_Resolutions u)) as [x|] eqn:E; simpl.
      - apply last_Some_elem_of, Hold in E as (? & ? & _). done.
      - split; [done|]. rewrite Ha, len_app. unfold len. simpl. lia. }
    apply N.leb_gt in H1. apply Z.leb_gt in H2. rewrite H1, H2. simpl.
    destruct Hpr as [-> | ->]; done.
  - pose proof (vr_schedules u H) as E. rewrite all_index_true in *. intros j x Hj. specialize (E j x Hj).
    unfold validScheduleEntry in *. by rewrite Ha', Hr.
  - pose proof (vr_history u H) as E. rewrite forallb_Forall in *. eapply Forall_impl; [exact E|]. intros x Hx.
    unfold validHistoryEntry, hasActivityRetryDecision in *. rewrite Hr, Hd, existsb_app.
    apply andb_true_iff in Hx as [-> Hx]. destruct (att_State x); try done. by rewrite Hx.
Qed.

(** The invariant of reachable records: valid, with no stale origin on a live or unknown
    attempt, and no decision yet about an attempt that is still unknown. *)
Definition activity_inv (r : ActivityRecord) : Prop :=
  valid_record r /\
  (rec_State r = ActivityRunning \/ rec_State r = ActivityUnknown -> rec_Origin r = NoOrigin) /\
  (rec_State r = ActivityUnknown -> forall d, d ∈ rec_Resolutions r -> (rsl_Attempt d < len (rec_Attempts r))%Z).

Lemma abandon_inv r : activity_inv r -> rec_State r = ActivityRunning -> activity_inv (abandonActivity r).
Proof.
  intros (H & Ho & _) Hs. split; [by apply abandon_valid|]. split; [intros _; simpl; auto|].
  intros _ d Hd. destruct (running_attempt r H Hs) as (l & a & Ha & Has & _).
  simpl in *. unfold len, abandonAttempt. rewrite length_update_last.
  apply (decisions_below r l a H Ha); [congruence|done].
Qed.

(** The record a resolution starts from: an attempt still marked running is given up. *)
Definition resolution_base (r : ActivityRecord) : ActivityRecord :=
  if rec_State r == ActivityRunning then abandonActivity r else r.

Lemma resolution_base_inv r : activity_inv r ->
  rec_State r = ActivityRunning \/ rec_State r = ActivityUnknown ->
  activity_inv (resolution_base r) /\ rec_State (resolution_base r) = ActivityUnknown.
Proof.
  intros H [Hs|Hs]; unfold resolution_base; rewrite Hs; simpl; [|done].
  split; [by apply abandon_inv|done].
Qed.

Section Resolve.
Context (r : ActivityRecord) (q : ActivityResolution) (revision incarnation : N) (now : Time) (random : option N).
Context (Hinv : activity_inv r) (Hstate : rec_State r = ActivityRunning \/ rec_State r = ActivityUnknown).
Context (Hfresh : existsb (fun prior => rsl_DecisionID prior == rq_DecisionID q) (rec_Resolutions r) = false).
Context (Hrequest : validActivityResolutionRequest q = true).
Context (Hrevision : forall d, d ∈ rec_Resolutions r -> (rsl_SourceRevision d < revision)%N).
Context (Hpos : (0 < revision)%N) (Hinc : incarnation <> 0%N) (Hnow : IsZero now = false).
Context (Hmax : (sch_MaxDelay (pol_Schedule (rec_Retry r)) <= max_int64)%Z).

Let u := resolution_base r.

Lemma base_same : rec_Resolutions u = rec_Resolutions r /\ rec_Retry u = rec_Retry r /\
  valid_header u = valid_header r /\ rec_Outcome u = rec_Outcome r /\
  rec_Attempts u = (if rec_State r == ActivityRunning then abandonAttempt (rec_Attempts r) else rec_Attempts r).
Proof using All. unfold u, resolution_base. by case_bool_decide. Qed.

Lemma resolve_common d r1 :
  rec_Attempts r1 = rec_Attempts u -> valid_header r1 = valid_header r -> rec_Retry r1 = rec_Retry r ->
  rec_Resolutions r1 = rec_Resolutions r ++ [d] ->
  rsl_DecisionID d = rq_DecisionID q -> rsl_Attempt d = len (rec_Attempts u) -> rsl_Reason d = rq_Reason q ->
  rsl_Evidence d = rq_Evidence q -> rsl_SourceRevision d = revision -> rsl_Incarnation d = incarnation ->
  rsl_PriorState d = rec_State r -> rsl_At d = now ->
  validActivityDecisionAction d (rec_Retry r) = true ->
  validManualActivityOrigin r1 = true -> validateActivityRecordState r1 = None -> valid_record r1.
Proof using All.
  intros Ha Hh Hr Hd Hid Hatt Hre Hev Hsr Hi Hp Hat Hact Hm Hst.
  destruct (resolution_base_inv r Hinv Hstate) as [(Hu & _ & Hbelow) Hus]. fold u in Hu, Hbelow, Hus.
  destruct (unknown_attempt u Hu Hus) as (l & a & Hua & Has & _).
  destruct base_same as (Ed & Er & Eh & _).
  assert (Hq : rq_DecisionID q <> "" /\ rq_Reason q <> "" /\ rq_Evidence q <> "").
  { unfold validActivityResolutionRequest in Hrequest. clear - Hrequest. by reflect_bools. }
  apply (add_decision_valid u r1 l a d); rewrite ?Ed, ?Er, ?Eh, ?Hid, ?Hre, ?Hev, ?Hsr, ?Hi, ?Hat; try done; try tauto.
  intros x Hx. split_and!; [|auto|].
  - apply Hbelow; [done|by rewrite Ed].
  - intros E. apply not_true_iff_false in Hfresh. apply Hfresh, existsb_exists. exists x.
    split; [by apply list_elem_of_In|by apply bool_decide_eq_true_2].
  - rewrite Hp. destruct Hstate; auto.
Qed.

(** The last attempt of the base is an unknown outcome. *)
Lemma base_last : exists l a, rec_Attempts u = l ++ [a] /\ att_State a = ActivityUnknown /\ rec_Outcome u = "".
Proof using Hinv Hstate.
  destruct (resolution_base_inv r Hinv Hstate) as [(Hu & _) Hus].
  destruct (unknown_attempt _ Hu Hus) as (l & a & Hua & Has & _ & Ho). by exists l, a.
Qed.

(** The record the action is applied to carries the attempts of the base. *)
Lemma resolve_unfold r' : resolveActivityRecord r q revision incarnation now random = Ok r' ->
  exists b r1 chosen, rec_Attempts b = rec_Attempts u /\ valid_header b = valid_header r /\
    rec_Retry b = rec_Retry r /\ rec_Resolutions b = rec_Resolutions r /\ rec_Outcome b = "" /\
    applyActivityResolution b q now random = Ok (r1, chosen) /\
    r' = r1 <| rec_Resolutions := rec_Resolutions r1 ++
        [mkResolutionRecord (rq_DecisionID q) (len (rec_Attempts r1)) (rq_Action q) (rec_State r)
           revision incarnation (rq_Reason q) (rq_Evidence q) (rq_SafeRetryContract q) chosen now] |>.
Proof using Hinv Hstate.
  destruct base_last as (l & a & Hua & Has & Ho). unfold resolveActivityRecord. intros E. inv_ok E.
  destruct x as [r1 chosen]. injection E as <-.
  eexists _, r1, chosen. split_and!; [..|exact Hok|done]; unfold u, resolution_base in *; by case_bool_decide.
Qed.

Lemma resolve_valid r' : resolveActivityRecord r q revision incarnation now random = Ok r' ->
  valid_record r' /\ rec_State r' <> ActivityRunning /\ rec_State r' <> ActivityUnknown.
Proof using All.
  destruct base_last as (l & a & Hua & Has & Ho). intros E.
  destruct (resolve_unfold r' E) as (b & r1 & chosen & Ba & Bh & Br & Bd & Bo & Hap & ->).
  assert (Hlast : last (rec_Attempts b) = Some a) by (by rewrite Ba, Hua, last_snoc).
  assert (Hone : (1 <= len (rec_Attempts b))%Z) by (rewrite Ba, Hua, len_app; unfold len; simpl; lia).
  unfold applyActivityResolution in Hap. destruct (rq_Action q) eqn:Hact; [..|done].
  - guard_in Hap; [done|]. simplify_eq. reflect_bools. split; [|done].
    eapply resolve_common; [..|simpl; by rewrite Bd| | | | | | | | | | |]; simpl; try done; try congruence.
    + unfold validActivityDecisionAction. simpl. by rewrite bool_decide_eq_true_2.
    + unfold validManualActivityOrigin. simpl. rewrite last_snoc. simpl. by rewrite bool_decide_eq_true_2.
    + unfold validateActivityRecordState. simpl. rewrite Hlast. unfold validCompletedActivity. simpl. by rewrite Has.
  - guard_in Hap; [done|]. simplify_eq. reflect_bools. split; [|done].
    eapply resolve_common; [..|simpl; by rewrite Bd| | | | | | | | | | |]; simpl; try done; try congruence.
    + unfold validActivityDecisionAction. simpl. by rewrite bool_decide_eq_true_2.
    + unfold validManualActivityOrigin. simpl. rewrite last_snoc. simpl. by rewrite bool_decide_eq_true_2.
    + unfold validateActivityRecordState. simpl. rewrite Hlast. unfold validFailedActivity. simpl. by rewrite Has, Bo.
  - guard_in Hap; [done|]. set (schedule := chooseActivityRetrySchedule _ _ _ _ _) in Hap.
    guard_in Hap; [done|]. apply negb_false_iff, bool_decide_eq_true in Hg0.
    simpl in Hg. rewrite Br in Hg. simplify_eq. reflect_bools. split; [|done].
    assert (dec_PreparedAt schedule = toUTC now /\ dec_Attempt schedule = len (rec_Attempts b)) as [Hpa Hatt]
      by apply chosen_prepared.
    assert (validActivityRetryScheduleDecision (rec_Retry r) (Some schedule) = true /\
                  activityScheduleTimeValid (dec_Deadline schedule) = true) as [Hsv Hdv].
    { assert (Hc : activityScheduleTimeValid now = true).
      { destruct (activityScheduleTimeValid now) eqn:Hc; [done|exfalso]. subst schedule. clear - Hc Hg0.
        unfold chooseActivityRetrySchedule in Hg0. rewrite Hc in Hg0. by guard_in Hg0. }
      assert (Hv : validActivityRetryScheduleDecision (rec_Retry r) (Some schedule) = true).
      { subst schedule. simpl. rewrite Br. apply chosen_valid; try done; try lia. apply valid_policy, Hinv. }
      split; [done|]. by apply (accepted_decision_deadline _ _ Hv). }
    eapply resolve_common; [..|simpl; by rewrite Bd| | | | | | | | | | |]; simpl; try done; try congruence.
    + unfold validActivityDecisionAction. simpl. rewrite Hsv, Hg0. unfold TimeEqual. rewrite Hatt, Hpa.
      rewrite (bool_decide_eq_true_2 (rq_SafeRetryContract q = pol_SafeRetryContract (rec_Retry r)))
        by congruence.
      rewrite (bool_decide_eq_false_2 (rq_SafeRetryContract q = "")) by congruence.
      rewrite !bool_decide_eq_true_2 by done. rewrite !andb_true_r. simpl. apply Z.ltb_lt. lia.
    + unfold validManualActivityOrigin. simpl. rewrite last_snoc. simpl. by rewrite bool_decide_eq_true_2.
    + unfold validateActivityRecordState. simpl. rewrite Hlast.
      unfold validPreparedActivity, validPreparedActivitySchedule. simpl.
      rewrite last_snoc. simpl. rewrite (time_valid_nonzero _ Hdv), Has, Bo, Br, Hg0. unfold TimeEqual. simpl.
      rewrite (bool_decide_eq_true_2 (time_ns _ = _)), bool_decide_eq_false_2 by done. simpl.
      destruct (Z.ltb_spec (len (rec_Attempts b)) (pol_MaxAttempts (rec_Retry r))); [done|lia].
Qed.
End Resolve.

(** ** The state machine *)

(** One committed transition of a record. A live attempt is only started when
    [preparedActivityError] allows it; outcomes arrive for a running attempt; an attempt of
    a lost incarnation becomes unknown; an unknown outcome is reconciled or resolved. *)
Inductive activity_step : ActivityRecord -> ActivityRecord -> Prop :=
| StepStart r incarnation revision now started :
    preparedActivityError r revision now = None -> incarnation <> 0%N ->
    (time_ns now <= time_ns started)%Z -> activityScheduleTimeValid started = true ->
    activity_step r (startActivityAttempt r incarnation started)
| StepComplete r payload origin now :
    rec_State r = ActivityRunning -> origin = ActivityLive \/ origin = ActivitySimulated ->
    activityScheduleTimeValid now = true -> activity_step r (completeActivity r payload origin now)
| StepFail r message decision now random :
    rec_State r = ActivityRunning -> known_class (fd_Class decision) -> activityScheduleTimeValid now = true ->
    activity_step r (recordActivityFailure r message decision now random)
| StepAbandon r : rec_State r = ActivityRunning -> activity_step r (abandonActivity r)
| StepReconcile r payload now :
    rec_State r = ActivityUnknown -> activity_step r (completeActivity r payload ActivityReconciled now)
| StepResolve r r' bound q revision incarnation now random :
    validActivityResolutionRequest q = true -> resolutionRecordError r bound q = None ->
    (forall d, d ∈ rec_Resolutions r -> (rsl_SourceRevision d < revision)%N) -> (0 < revision)%N ->
    incarnation <> 0%N -> activityScheduleTimeValid now = true ->
    resolveActivityRecord r q revision incarnation now random = Ok r' -> activity_step r r'.

(** Durations fit [int64], as their Go type guarantees. *)
Definition delays_int64 (r : ActivityRecord) : Prop := (sch_MaxDelay (pol_Schedule (rec_Retry r)) <= max_int64)%Z.

Lemma resolution_guard r bound q : resolutionRecordError r bound q = None ->
  (rec_State r = ActivityRunning \/ rec_State r = ActivityUnknown) /\
  existsb (fun prior => rsl_DecisionID prior == rq_DecisionID q) (rec_Resolutions r) = false.
Proof.
  unfold resolutionRecordError. intros H. guard_in H; [done|]. guard_in H; [done|]. guard_in H; [done|].
  split; [|done]. reflect_bools. tauto.
Qed.

Lemma failure_origin r message decision now random :
  rec_Origin (recordActivityFailure r message decision now random) = rec_Origin r /\
  rec_Resolutions (recordActivityFailure r message decision now random) = rec_Resolutions r /\
  len (rec_Attempts (recordActivityFailure r message decision now random)) = len (rec_Attempts r) /\
  rec_State (recordActivityFailure r message decision now random) <> ActivityRunning.
Proof.
  unfold recordActivityFailure. destruct (fd_Class decision); repeat guard_goal; simpl;
    unfold len; by rewrite length_update_last.
Qed.

Lemma activity_step_inv r r' : activity_step r r' -> delays_int64 r -> activity_inv r -> activity_inv r'.
Proof.
  intros Hstep Hd Hinv. pose proof Hinv as (Hv & Ho & Hb).
  destruct Hstep as [r inc rev now started Hr Hi Hle Hn|r payload origin now Hs Hor Hn|r msg dec now rnd Hs Hk Hn|r Hs|
    r payload now Hs|r r' bound q rev inc now rnd Hq He Hrev Hp Hi Hn Hres].
  - split; [apply (start_valid r inc rev now started); auto using time_valid_nonzero|]. split; [done|]. by simpl.
  - split; [apply complete_valid; auto using time_valid_nonzero|].
    assert (rec_State (completeActivity r payload origin now) = ActivityCompleted) as ->
      by (unfold completeActivity; by destruct (_ && _)).
    split; [intros []|]; done.
  - split; [apply fail_valid; auto|].
    destruct (failure_origin r msg dec now rnd) as (-> & -> & -> & ?).
    split; [intros _; auto|]. intros _.
    destruct (running_attempt r Hv Hs) as (l & a & Ha & Has & _). apply (decisions_below r l a Hv Ha). congruence.
  - by apply abandon_inv.
  - split; [by apply reconcile_valid|]. split; [intros []|]; done.
  - apply resolution_guard in He as [Hs Hf].
    destruct (resolve_valid r q rev inc now rnd Hinv Hs Hf Hq Hrev Hp Hi (time_valid_nonzero _ Hn) Hd r' Hres)
      as (? & ? & ?).
    split; [done|]. split; [intros []|]; done.
Qed.

(** What no transition may change: the address, the input digest, the implementation label
    and the retry policy. *)
Definition contract_of (r : ActivityRecord) :=
  (rec_Identity r, rec_ExecutionID r, rec_Node r, rec_Activation r, rec_Key r, rec_InputDigest r,
   rec_Implementation r, rec_Retry r).

Lemma removelast_update_last {A} (f : A -> A) (l : list A) : removelast l `prefix_of` update_last f l.
Proof.
  destruct l as [|y l _] using rev_ind; [done|]. rewrite removelast_last, update_last_snoc. by apply prefix_app_r.
Qed.

Lemma removelast_prefix {A} (l : list A) : removelast l `prefix_of` l.
Proof. destruct l as [|y l _] using rev_ind; [done|]. rewrite removelast_last. by apply prefix_app_r. Qed.

Lemma removelast_app_prefix {A} (l k : list A) : removelast l `prefix_of` l ++ k.
Proof. transitivity l; [apply removelast_prefix|by apply prefix_app_r]. Qed.

Lemma apply_frame b q now random r1 chosen : applyActivityResolution b q now random = Ok (r1, chosen) ->
  contract_of r1 = contract_of b /\ rec_Attempts r1 = rec_Attempts b /\ rec_Resolutions r1 = rec_Resolutions b.
Proof.
  unfold applyActivityResolution. intros H. destruct (rq_Action q); [..|done]; repeat (guard_in H; try done);
    by simplify_eq.
Qed.

Lemma activity_step_frame r r' : activity_step r r' ->
  contract_of r' = contract_of r /\ removelast (rec_Attempts r) `prefix_of` rec_Attempts r' /\
  rec_Resolutions r `prefix_of` rec_Resolutions r' /\
  (len (rec_Attempts r) <= len (rec_Attempts r') <= len (rec_Attempts r) + 1)%Z /\
  (rec_State r <> ActivityPrepared -> len (rec_Attempts r') = len (rec_Attempts r)) /\
  activityUnresolved (rec_State r) = true.
Proof.
  intros Hstep.
  destruct Hstep as [r inc rev now started Hr Hi Hle Hn|r payload origin now Hs Hor Hn|r msg dec now rnd Hs Hk Hn|r Hs|
    r payload now Hs|r r' bound q rev inc now rnd Hq He Hrev Hp Hi Hn Hres].
  - apply prepared_ready in Hr as [Hs _]. rewrite Hs. simpl. rewrite len_app. change (len [_]) with 1%Z.
    split_and!; try done; try lia. apply removelast_app_prefix.
  - rewrite Hs. unfold completeActivity. guard_goal; simpl; unfold len; rewrite ?length_update_last;
      split_and!; try done; try lia; [apply removelast_update_last|apply removelast_prefix].
  - rewrite Hs. destruct (failure_origin r msg dec now rnd) as (_ & -> & -> & _).
    unfold recordActivityFailure. destruct (fd_Class dec); repeat guard_goal; simpl;
      split_and!; try done; try lia; apply removelast_update_last.
  - rewrite Hs. simpl. unfold len, abandonAttempt. rewrite length_update_last.
    split_and!; try done; try lia. apply removelast_update_last.
  - rewrite Hs. simpl. split_and!; try done; try lia. apply removelast_prefix.
  - apply resolution_guard in He as [Hs _]. unfold resolveActivityRecord in Hres. inv_ok Hres.
    destruct x as [r1 chosen]. injection Hres as <-. apply apply_frame in Hok as (Hc & Ha & Hd). simpl.
    change (contract_of (mkActivityRecord _ _ _ _ _ _ _ _ _ _ _ _ _ _ _)) with (contract_of r1).
    rewrite Hc, Ha, Hd. unfold len, abandonAttempt.
    destruct (bool_decide_reflect (rec_State r = ActivityRunning)) as [Hrun|Hrun]; simpl;
      rewrite ?length_update_last; (split_and!; [done| |by apply prefix_app_r|lia|lia|done|]);
      try apply removelast_update_last; try apply removelast_prefix; by destruct Hs as [-> | ->].
Qed.

(** Records created by a call of a durable node and driven by transitions. *)
Definition activity_start (r : ActivityRecord) : Prop :=
  exists executionID node activation key input implementation retry,
    executionID <> "" /\ node <> "" /\ activation <> 0%N /\ key <> "" /\ implementation <> "" /\
    validRuntimeText [executionID; node; key] = true /\ validRuntimeText [implementation] = true /\
    validateActivityRetry retry = None /\ (sch_MaxDelay (pol_Schedule retry) <= max_int64)%Z /\
    r = newActivityRecord (activityAddressIdentity executionID node activation key) executionID node
          activation key (sha256_hex input) implementation retry.
Definition activity_reachable (r : ActivityRecord) : Prop := exists r0, activity_start r0 /\ rtc activity_step r0 r.

Lemma activity_start_inv r : activity_start r -> activity_inv r /\ delays_int64 r.
Proof.
  intros (e & n & v & k & i & m & p & He & Hn & Hv & Hk & Hm & Ht & Hti & Hp & Hd & ->).
  split; [|done]. split; [by apply new_valid|]. split; [intros []|]; done.
Qed.

Lemma activity_steps_inv r r' : rtc activity_step r r' -> activity_inv r -> delays_int64 r ->
  activity_inv r' /\ delays_int64 r'.
Proof.
  induction 1 as [|r r1 r2 Hs _ IH]; intros Hi Hd; [done|]. apply IH; [by eapply activity_step_inv|].
  apply activity_step_frame in Hs as (Hc & _). unfold contract_of in Hc. unfold delays_int64. congruence.
Qed.

Lemma reachable_inv r : activity_reachable r -> activity_inv r.
Proof. intros (r0 & H0 & Hs). apply activity_start_inv in H0 as [Hi Hd]. by apply (activity_steps_inv r0 r). Qed.

(** C12: every record reachable by the transitions of the runtime (creation, start, success,
    failure, abandonment, reconciliation, manual resolution, in any order the guards allow)
    passes [validateActivityRecord], the check made before each commit and after each
    load, and it never holds more attempts than [max(1, MaxAttempts)]. *)
Theorem reachable_activity_valid (r : ActivityRecord) : activity_reachable r ->
  validateActivityRecord r = None /\ (len (rec_Attempts r) <= Z.max 1 (pol_MaxAttempts (rec_Retry r)))%Z.
Proof.
  intros H. destruct (reachable_inv r H) as (Hv & _). split; [by apply validateActivityRecord_iff|].
  pose proof (vr_limit r Hv) as Hl. unfold attempt_limit in Hl. case_bool_decide; lia.
Qed.

Definition activity_example : ActivityRecord :=
  newActivityRecord (activityAddressIdentity "run" "charge" 1 "pay") "run" "charge" 1 "pay" (sha256_hex "input") "v1"
    retry_example.
Definition activity_example_started : ActivityRecord := startActivityAttempt activity_example 4 clock_example.
Definition activity_example_failed : ActivityRecord :=
  recordActivityFailure activity_example_started "timeout" (mkFailureDecision ActivityRetryable time_zero)
    clock_example (Some 3%N).

Lemma activity_example_start : activity_start activity_example.
Proof.
  exists "run", "charge", 1%N, "pay", "input", "v1", retry_example. repeat split; done.
Qed.

Lemma activity_example_reachable : activity_reachable activity_example_failed.
Proof.
  exists activity_example. split; [apply activity_example_start|].
  eapply rtc_l; [apply (StepStart _ 4 1 clock_example clock_example); done|].
  apply rtc_once. apply StepFail; [done|by left|done].
Qed.

Lemma reachable_activity_valid_witness :
  validateActivityRecord activity_example_failed = None /\ rec_State activity_example_failed = ActivityPrepared.
Proof.
  split; [apply (reachable_activity_valid activity_example_failed activity_example_reachable)|reflexivity].
Defined.

Lemma prefix_removelast {A} (p l : list A) : p `prefix_of` l -> (length p < length l)%nat -> p `prefix_of` removelast l.
Proof.
  intros [k ->] Hl. destruct k as [|x k _] using rev_ind; [rewrite app_nil_r in Hl; lia|].
  rewrite app_assoc, removelast_last. by apply prefix_app_r.
Qed.

Lemma length_removelast {A} (l : list A) : length (removelast l) = pred (length l).
Proof. destruct l as [|y l _] using rev_ind; [done|]. rewrite removelast_last, length_app. simpl. lia. Qed.

Lemma activity_steps_history r r' : rtc activity_step r r' ->
  contract_of r' = contract_of r /\ removelast (rec_Attempts r) `prefix_of` rec_Attempts r' /\
  rec_Resolutions r `prefix_of` rec_Resolutions r' /\ (len (rec_Attempts r) <= len (rec_Attempts r'))%Z.
Proof.
  induction 1 as [r|r r1 r2 Hs _ (Hc & Ha & Hd & Hl)].
  - split_and!; try done. apply removelast_prefix.
  - apply activity_step_frame in Hs as (Hc1 & Ha1 & Hd1 & Hl1 & _). unfold len in *.
    split_and!; [congruence| |by transitivity (rec_Resolutions r1)|lia].
    destruct (decide (rec_Attempts r = [])) as [->|Hne]; [apply prefix_nil|].
    assert (length (rec_Attempts r) <> 0) by (by destruct (rec_Attempts r)).
    transitivity (removelast (rec_Attempts r1)); [|done]. apply prefix_removelast; [done|].
    rewrite length_removelast. lia.
Qed.

(** History is append-only and settled outcomes are final. Along any sequence of
    transitions the address, input digest, implementation and policy stay the same; every
    attempt but the one in progress, and every manual decision, keeps its recorded value
    and position; and a completed or failed record admits no further transition. *)
Theorem activity_history_append_only (r r' : ActivityRecord) : rtc activity_step r r' ->
  contract_of r' = contract_of r /\ removelast (rec_Attempts r) `prefix_of` rec_Attempts r' /\
  rec_Resolutions r `prefix_of` rec_Resolutions r' /\
  (rec_State r = ActivityCompleted \/ rec_State r = ActivityFailed -> r' = r).
Proof.
  intros H. destruct (activity_steps_history r r' H) as (Hc & Ha & Hd & _). split_and!; try done.
  intros Hs. destruct H as [|r r1 r2 H1 _]; [done|].
  apply activity_step_frame in H1 as (_ & _ & _ & _ & _ & Hu). by destruct Hs as [Hs|Hs]; rewrite Hs in Hu.
Qed.

Lemma activity_history_append_only_witness :
  contract_of activity_example_failed = contract_of activity_example_started.
Proof.
  apply (activity_history_append_only activity_example_started activity_example_failed).
  apply rtc_once. apply StepFail; [reflexivity|by left|reflexivity].
Defined.
