(* ===== verification/Waits.v ===== *)
(** * Durable waits

    durable_wait_contract.go, durable_wait_arbitration.go, durable_wait_backend.go and the
    record-level part of durable_wait_cancellation.go: the persisted wait, its integrity
    check, the pure arbitration of one delivery and cancellation. Deliveries race; the first
    valid one to commit wins, every later one is recorded as lost, and a redelivery of a
    decided identity is a replay. *)

From stdpp Require Import relations.
From S2P Require Import Prelude Go Sha256 Json Identity.

(** ** Data *)
Record WaitCapabilityProfile := mkProfile {
  prf_Label : string;
  prf_JournalOwner : string;
  prf_LeaseOwner : string;
  prf_TimerOwner : string;
  prf_ClockOwner : string;
  prf_RetryOwner : string;
  prf_RecoveryOwner : string;
}.
#[export] Instance WaitCapabilityProfile_eq_dec : EqDecision WaitCapabilityProfile.
Proof. solve_decision. Defined.

Definition validateProfile (p : WaitCapabilityProfile) : option error :=
  if (prf_Label p == "") || (prf_JournalOwner p == "") || (prf_LeaseOwner p == "") || (prf_TimerOwner p == "")
     || negb (validRuntimeText [prf_Label p; prf_JournalOwner p; prf_LeaseOwner p; prf_TimerOwner p;
                                prf_ClockOwner p; prf_RetryOwner p; prf_RecoveryOwner p])
     || (prf_ClockOwner p == "") || (prf_RetryOwner p == "") || (prf_RecoveryOwner p == "")
  then Some (ErrExecutionCapability : error) else None.

Inductive WaitState := WaitArmed | WaitResolved | WaitExpired | WaitCanceled | WaitStateOther (s : string).
Inductive WaitWinnerPolicy := WaitFirstCommitted | WinnerPolicyOther (s : string).
Inductive WaitDeliveryKind := WaitEvent | WaitTimer | DeliveryKindOther (s : string).
Inductive WaitDecisionStatus :=
| WaitAccepted | WaitUnmatched | WaitLost | WaitRejectedCanceled | DecisionStatusOther (s : string).
#[export] Instance WaitState_eq_dec : EqDecision WaitState.
Proof. solve_decision. Defined.
#[export] Instance WaitWinnerPolicy_eq_dec : EqDecision WaitWinnerPolicy.
Proof. solve_decision. Defined.
#[export] Instance WaitDeliveryKind_eq_dec : EqDecision WaitDeliveryKind.
Proof. solve_decision. Defined.
#[export] Instance WaitDecisionStatus_eq_dec : EqDecision WaitDecisionStatus.
Proof. solve_decision. Defined.

Record DurableWaitSpec := mkWaitSpec {
  wsp_ID : string;
  wsp_CorrelationID : string;
  wsp_Deadline : Time;
  wsp_MatcherLabel : string;
  wsp_PayloadCodec : string;
  wsp_ContinuationLabel : string;
  wsp_EventPointer : ExecutionPointer;
  wsp_TimeoutPointer : ExecutionPointer;
  wsp_WinnerPolicy : WaitWinnerPolicy;
}.
#[export] Instance DurableWaitSpec_eq_dec : EqDecision DurableWaitSpec.
Proof. solve_decision. Defined.

(** [Time.MarshalJSON] of an instant at zone offset zero fails outside years 0 to 9999;
    year 0 is a leap year. *)
Definition marshalsJSON (t : Time) : bool :=
  (- (366 * 86400 * 1000000000) <=? time_ns t)%Z && (time_ns t <? year10000_ns)%Z.

Definition validateWaitSpec (s : DurableWaitSpec) : option error :=
  let offset := zoneOffset (wsp_Deadline s) in
  if (wsp_ID s == "") || (wsp_CorrelationID s == "") || IsZero (wsp_Deadline s) || (offset != 0%Z)
     || negb (validRuntimeText [wsp_ID s; wsp_CorrelationID s; wsp_MatcherLabel s; wsp_PayloadCodec s;
                                wsp_ContinuationLabel s; wsp_EventPointer s; wsp_TimeoutPointer s])
     || (wsp_MatcherLabel s == "") || (wsp_PayloadCodec s == "") || (wsp_ContinuationLabel s == "")
     || (wsp_EventPointer s == "") || (wsp_TimeoutPointer s == "") || (wsp_WinnerPolicy s != WaitFirstCommitted)
  then Some (ErrWaitInvalid : error)
  else if negb (marshalsJSON (wsp_Deadline s)) then Some (ErrWaitInvalid : error) else None.

Record WaitDelivery := mkDelivery {
  dlv_Generation : string;
  dlv_ID : string;
  dlv_Kind : WaitDeliveryKind;
  dlv_CorrelationID : string;
  dlv_ExpectedRevision : N;
  dlv_Payload : string;
}.

Record WaitDecision := mkWaitDecision {
  wdc_ID : string;
  wdc_Kind : WaitDeliveryKind;
  wdc_CorrelationID : string;
  wdc_PayloadDigest : string;
  wdc_Status : WaitDecisionStatus;
  wdc_SourceRevision : N;
  wdc_Incarnation : N;
  wdc_At : Time;
}.
#[export] Instance WaitDecision_eq_dec : EqDecision WaitDecision.
Proof. solve_decision. Defined.

Record WaitCancellationRecord := mkWaitCancellationRecord {
  wcn_ID : string;
  wcn_Reason : string;
  wcn_Evidence : string;
  wcn_SourceRevision : N;
  wcn_Incarnation : N;
  wcn_At : Time;
}.
#[export] Instance WaitCancellationRecord_eq_dec : EqDecision WaitCancellationRecord.
Proof. solve_decision. Defined.

Record DurableWaitRecord := mkWaitRecord {
  wt_ExecutionID : string;
  wt_Node : ExecutionPointer;
  wt_Activation : N;
  wt_Generation : string;
  wt_ArmRevision : N;
  wt_Spec : DurableWaitSpec;
  wt_Profile : WaitCapabilityProfile;
  wt_State : WaitState;
  wt_WinnerID : string;
  wt_Decisions : gmap string WaitDecision;
  wt_Cancellation : option WaitCancellationRecord;
}.
#[export] Instance eta_WaitRecord : Eta DurableWaitRecord := fun r =>
  mkWaitRecord (wt_ExecutionID r) (wt_Node r) (wt_Activation r) (wt_Generation r) (wt_ArmRevision r) (wt_Spec r)
    (wt_Profile r) (wt_State r) (wt_WinnerID r) (wt_Decisions r) (wt_Cancellation r).
#[export] Instance DurableWaitRecord_eq_dec : EqDecision DurableWaitRecord.
Proof. solve_decision. Defined.

Definition wait_invalid : option error := Some (ErrWaitInvalid : error).

(** ** Planning *)
Definition planDurableWait (execution : string) (node : ExecutionPointer) (activation revision : N)
    (spec : DurableWaitSpec) (profile : WaitCapabilityProfile) : res DurableWaitRecord :=
  if negb (is_nil (validateWaitSpec spec)) || negb (is_nil (validateProfile profile)) || (execution == "")
     || (node == "") || (activation == 0%N) || (revision == 0%N)
  then Err ErrWaitInvalid
  else
    let identity := waitIdentity execution node activation (wsp_ID spec) in
    Ok (mkWaitRecord execution node activation (waitGeneration identity revision) revision spec profile WaitArmed
          "" ∅ None).

(** ** Integrity *)
Definition validWaitCancellation (record : DurableWaitRecord) (revision : N) : bool :=
  if wt_State record != WaitCanceled then is_nil (wt_Cancellation record)
  else match wt_Cancellation record with
  | None => false
  | Some c =>
      (wcn_ID c != "") && (wcn_Reason c != "") && (wcn_Evidence c != "")
      && (wt_ArmRevision record <=? wcn_SourceRevision c)%N && (wcn_SourceRevision c <? revision)%N
      && (wcn_Incarnation c != 0%N) && negb (IsZero (wcn_At c))
      && validRuntimeText [wcn_ID c; wcn_Reason c; wcn_Evidence c]
  end.

(** The zero [WaitDecision], what a map lookup of a missing key returns. *)
Definition no_decision : WaitDecision :=
  mkWaitDecision "" (DeliveryKindOther "") "" "" (DecisionStatusOther "") 0 0 time_zero.
Definition winner_of (record : DurableWaitRecord) : WaitDecision :=
  default no_decision (wt_Decisions record !! wt_WinnerID record).

Definition validWaitDecisionState (record : DurableWaitRecord) (decision winner : WaitDecision) : bool :=
  match wdc_Status decision with
  | WaitAccepted =>
      (wdc_ID decision == wt_WinnerID record)
      && (((wt_State record == WaitResolved) && (wdc_Kind decision == WaitEvent))
          || ((wt_State record == WaitExpired) && (wdc_Kind decision == WaitTimer)))
  | WaitUnmatched =>
      (wdc_Kind decision == WaitEvent)
      && ((wt_WinnerID record == "") || (wdc_SourceRevision decision <? wdc_SourceRevision winner)%N)
      && match wt_Cancellation record with
         | None => true
         | Some c => (wdc_SourceRevision decision <? wcn_SourceRevision c)%N
         end
  | WaitLost => (wt_WinnerID record != "") && (wdc_SourceRevision winner <? wdc_SourceRevision decision)%N
  | WaitRejectedCanceled =>
      (wt_State record == WaitCanceled)
      && match wt_Cancellation record with
         | None => false
         | Some c => (wcn_SourceRevision c <? wdc_SourceRevision decision)%N
         end
  | DecisionStatusOther _ => false
  end.

(** The body of the loop of [validateWaitDecisions], the set of used sources apart. *)
Definition validDecision (record : DurableWaitRecord) (revision : N) (winner : WaitDecision) (id : string)
    (d : WaitDecision) : bool :=
  negb ((id == "") || (id != wdc_ID d) || (wdc_CorrelationID d != wsp_CorrelationID (wt_Spec record))
        || (wdc_Incarnation d == 0%N) || IsZero (wdc_At d)
        || (wdc_SourceRevision d <? wt_ArmRevision record)%N || (revision <=? wdc_SourceRevision d)%N
        || negb (canonicalWaitDigest (wdc_PayloadDigest d))
        || ((wdc_Kind d != WaitEvent) && (wdc_Kind d != WaitTimer)))
  && negb ((wdc_Kind d == WaitTimer)
           && (Before (wdc_At d) (wsp_Deadline (wt_Spec record))
               || (wdc_PayloadDigest d != waitPayloadDigest "")))
  && validWaitDecisionState record d winner.

Fixpoint validDecisions (record : DurableWaitRecord) (revision : N) (winner : WaitDecision) (sources : list N)
    (decisions : list (string * WaitDecision)) : bool :=
  match decisions with
  | [] => true
  | (id, d) :: rest =>
      validDecision record revision winner id d && negb (bool_decide (wdc_SourceRevision d ∈ sources))
      && validDecisions record revision winner (wdc_SourceRevision d :: sources) rest
  end.

Definition validateWaitDecisions (record : DurableWaitRecord) (revision : N) : option error :=
  let sources := match wt_Cancellation record with Some c => [wcn_SourceRevision c] | None => [] end in
  let winner := winner_of record in
  if (wt_WinnerID record != "")
     && (is_nil (wt_Decisions record !! wt_WinnerID record) || (wdc_Status winner != WaitAccepted))
  then wait_invalid
  else if validDecisions record revision winner sources (range (wt_Decisions record)) then None else wait_invalid.

Definition validateDurableWait (record : DurableWaitRecord) (revision : N) : option error :=
  let identity := waitIdentity (wt_ExecutionID record) (wt_Node record) (wt_Activation record) (wsp_ID (wt_Spec record)) in
  if (wt_ExecutionID record == "") || (wt_Node record == "") || (wt_Activation record == 0%N)
     || negb (is_nil (validateWaitSpec (wt_Spec record))) || negb (is_nil (validateProfile (wt_Profile record)))
     || (wt_ArmRevision record == 0%N) || (revision <? wt_ArmRevision record)%N
     || (wt_Generation record != waitGeneration identity (wt_ArmRevision record))
  then wait_invalid
  else if negb (validWaitCancellation record revision) then wait_invalid
  else match wt_State record with
  | WaitArmed | WaitCanceled =>
      if wt_WinnerID record != "" then wait_invalid else validateWaitDecisions record revision
  | WaitResolved | WaitExpired =>
      if wt_WinnerID record == "" then wait_invalid else validateWaitDecisions record revision
  | WaitStateOther _ => wait_invalid
  end.

(** ** Arbitration *)
Definition validateWaitDelivery (record : DurableWaitRecord) (delivery : WaitDelivery) (revision : N) : option error :=
  if (dlv_Generation delivery != wt_Generation record) || (dlv_ExpectedRevision delivery <? wt_ArmRevision record)%N
     || (revision <? dlv_ExpectedRevision delivery)%N
  then Some (ErrWaitStale : error)
  else if (dlv_ID delivery == "") || ((dlv_Kind delivery != WaitEvent) && (dlv_Kind delivery != WaitTimer))
  then wait_invalid else None.

Definition waitDecisionStatus (record : DurableWaitRecord) (kind : WaitDeliveryKind) (matched : bool)
  : WaitDecisionStatus :=
  if wt_State record == WaitCanceled then WaitRejectedCanceled
  else if wt_State record != WaitArmed then WaitLost
  else if (kind == WaitEvent) && negb matched then WaitUnmatched
  else WaitAccepted.

(** The decision recorded for a new delivery, and the record that carries it. *)
Definition newWaitDecision (record : DurableWaitRecord) (delivery : WaitDelivery) (revision incarnation : N)
    (now : Time) (matched : bool) : WaitDecision :=
  mkWaitDecision (dlv_ID delivery) (dlv_Kind delivery) (dlv_CorrelationID delivery)
    (waitPayloadDigest (dlv_Payload delivery)) (waitDecisionStatus record (dlv_Kind delivery) matched)
    revision incarnation (toUTC now).

Definition recordWaitDecision (record : DurableWaitRecord) (decision : WaitDecision) : DurableWaitRecord :=
  let target :=
    if wdc_Status decision == WaitAccepted then
      record <| wt_WinnerID := wdc_ID decision |>
        <| wt_State := if wdc_Kind decision == WaitTimer then WaitExpired else WaitResolved |>
    else record in
  target <| wt_Decisions := <[wdc_ID decision := decision]> (wt_Decisions target) |>.

Definition prepareWaitDecision (record : DurableWaitRecord) (delivery : WaitDelivery) (revision incarnation : N)
    (now : Time) (matched : bool) : res (DurableWaitRecord * WaitDecision * bool) :=
  if negb (is_nil (validateDurableWait record revision)) || (incarnation == 0%N) || IsZero now
  then Err ErrWaitInvalid
  else match validateWaitDelivery record delivery revision with
  | Some err => Err err
  | None =>
      match wt_Decisions record !! dlv_ID delivery with
      | Some prior =>
          if (wdc_Kind prior != dlv_Kind delivery) || (wdc_CorrelationID prior != dlv_CorrelationID delivery)
             || (wdc_PayloadDigest prior != waitPayloadDigest (dlv_Payload delivery))
          then Err ErrWaitConflict
          else Ok (record, prior, true)
      | None =>
          if revision == max_uint64 then Err ErrWaitInvalid
          else if (dlv_CorrelationID delivery != wsp_CorrelationID (wt_Spec record))
                  || ((dlv_Kind delivery == WaitTimer) && (dlv_Payload delivery != ""))
          then Err ErrWaitInvalid
          else if (dlv_Kind delivery == WaitTimer) && Before now (wsp_Deadline (wt_Spec record))
          then Err ErrWaitInvalid
          else if (wt_State record == WaitArmed) && (dlv_ExpectedRevision delivery != revision)
          then Err ErrWaitStale
          else
            let decision := newWaitDecision record delivery revision incarnation now matched in
            Ok (recordWaitDecision record decision, decision, false)
      end
  end.

(** ** Cancellation *)
Record WaitCancellation := mkWaitCancellation {
  wcr_Generation : string;
  wcr_ID : string;
  wcr_Reason : string;
  wcr_Evidence : string;
}.

(** The record part of [CancelWait]; [now] is already in UTC. *)
Definition cancelWaitRecord (record : DurableWaitRecord) (request : WaitCancellation) (revision incarnation : N)
    (now : Time) : DurableWaitRecord :=
  record <| wt_State := WaitCanceled |>
    <| wt_Cancellation := Some (mkWaitCancellationRecord (wcr_ID request) (wcr_Reason request) (wcr_Evidence request)
                                  revision incarnation now) |>.

(** The request checks made by [CancelWait] before any load. *)
Definition validWaitCancellationText (threadID : string) (snapshotRevision : N) (request : WaitCancellation) : bool :=
  negb ((threadID == "") || (snapshotRevision == 0%N) || (wcr_Generation request == "") || (wcr_ID request == "")
        || negb (validRuntimeText [threadID; wcr_Generation request; wcr_ID request; wcr_Reason request; wcr_Evidence request])
        || (wcr_Reason request == "") || (wcr_Evidence request == "")).

Definition validateWaitCancellationRequest (sourceRevision : N) (sourceTerminal : bool) (record : DurableWaitRecord)
    (snapshotRevision : N) (request : WaitCancellation) : option error :=
  if (snapshotRevision <? wt_ArmRevision record)%N || (sourceRevision <? snapshotRevision)%N
  then Some (ErrWaitStale : error)
  else if wt_State record == WaitCanceled then
    match wt_Cancellation record with
    | None => Some (ErrWaitConflict : error)
    | Some prior =>
        if wcn_ID prior != wcr_ID request then Some (ErrWaitCanceled : error)
        else if (wcn_Reason prior != wcr_Reason request) || (wcn_Evidence prior != wcr_Evidence request)
        then Some (ErrWaitConflict : error) else None
    end
  else if wt_State record == WaitExpired then Some (ErrWaitExpired : error)
  else if (wt_State record != WaitArmed) || sourceTerminal then Some (ErrWaitConflict : error)
  else if snapshotRevision != sourceRevision then Some (ErrWaitStale : error)
  else if sourceRevision == max_uint64 then wait_invalid
  else None.

#[local] Arguments validRuntimeText : simpl never.

(** ** The integrity check as a proposition, independent of the iteration order *)

Lemma NoDup_fmap_inj {A B} (f : A -> B) (l : list A) x y :
  NoDup (f <$> l) -> x ∈ l -> y ∈ l -> f x = f y -> x = y.
Proof.
  induction l as [|z l IH]; intros Hn Hx Hy E; [by apply not_elem_of_nil in Hx|].
  rewrite fmap_cons in Hn. apply NoDup_cons in Hn as [Hz Hn].
  apply elem_of_cons in Hx as [->|Hx]; apply elem_of_cons in Hy as [->|Hy]; try done.
  - destruct Hz. rewrite E. by apply list_elem_of_fmap_2.
  - destruct Hz. rewrite <- E. by apply list_elem_of_fmap_2.
  - by apply IH.
Qed.

Definition source_of (kv : string * WaitDecision) : N := wdc_SourceRevision kv.2.

Lemma validDecisions_iff r rev w l : forall src,
  validDecisions r rev w src l = true <->
  Forall (fun kv => validDecision r rev w kv.1 kv.2 = true) l /\ NoDup (source_of <$> l) /\
  (forall kv, kv ∈ l -> source_of kv ∉ src).
Proof.
  induction l as [|[id d] l IH]; intros src.
  - simpl. split; [|done]. intros _. split_and!; [constructor|constructor|set_solver].
  - cbn [validDecisions]. rewrite !andb_true_iff, IH, Forall_cons, fmap_cons, NoDup_cons, negb_true_iff, bool_decide_eq_false. simpl.
    split.
    + intros ((Hd & Hs) & Hf & Hn & Hl). split_and!; try done.
      * intros Hin. apply list_elem_of_fmap in Hin as (kv & Hk & Hin). apply (Hl kv Hin). rewrite <- Hk. set_solver.
      * intros kv [->|Hin]%elem_of_cons; [done|]. specialize (Hl kv Hin). set_solver.
    + intros ((Hd & Hf) & (Hni & Hn) & Hl). split_and!; try done.
      * apply (Hl (id, d)). set_solver.
      * intros kv Hin Hc. apply elem_of_cons in Hc as [Hc|Hc]; [|apply (Hl kv); set_solver].
        apply Hni. unfold source_of at 1. simpl. rewrite <- Hc. by apply list_elem_of_fmap_2.
Qed.

Definition cancel_sources (r : DurableWaitRecord) : list N :=
  match wt_Cancellation r with Some c => [wcn_SourceRevision c] | None => [] end.

Definition valid_wait_head (r : DurableWaitRecord) : Prop :=
  wt_ExecutionID r <> "" /\ wt_Node r <> "" /\ wt_Activation r <> 0%N /\ validateWaitSpec (wt_Spec r) = None /\
  validateProfile (wt_Profile r) = None /\ wt_ArmRevision r <> 0%N /\
  wt_Generation r = waitGeneration
    (waitIdentity (wt_ExecutionID r) (wt_Node r) (wt_Activation r) (wsp_ID (wt_Spec r))) (wt_ArmRevision r).

Record valid_wait (r : DurableWaitRecord) (revision : N) : Prop := mk_valid_wait {
  vw_head : valid_wait_head r;
  vw_arm : (wt_ArmRevision r <= revision)%N;
  vw_cancel : validWaitCancellation r revision = true;
  vw_state : ((wt_State r = WaitArmed \/ wt_State r = WaitCanceled) /\ wt_WinnerID r = "") \/
             ((wt_State r = WaitResolved \/ wt_State r = WaitExpired) /\ wt_WinnerID r <> "");
  vw_winner : wt_WinnerID r <> "" ->
    exists w, wt_Decisions r !! wt_WinnerID r = Some w /\ wdc_Status w = WaitAccepted;
  vw_decisions : forall id d, wt_Decisions r !! id = Some d -> validDecision r revision (winner_of r) id d = true;
  vw_sources : forall id d id' d', wt_Decisions r !! id = Some d -> wt_Decisions r !! id' = Some d' ->
    wdc_SourceRevision d = wdc_SourceRevision d' -> id = id';
  vw_cancel_source : forall id d, wt_Decisions r !! id = Some d -> wdc_SourceRevision d ∉ cancel_sources r;
}.

Lemma validateWaitDecisions_iff r revision : validateWaitDecisions r revision = None <->
  (wt_WinnerID r <> "" -> exists w, wt_Decisions r !! wt_WinnerID r = Some w /\ wdc_Status w = WaitAccepted) /\
  (forall id d, wt_Decisions r !! id = Some d -> validDecision r revision (winner_of r) id d = true) /\
  (forall id d id' d', wt_Decisions r !! id = Some d -> wt_Decisions r !! id' = Some d' ->
    wdc_SourceRevision d = wdc_SourceRevision d' -> id = id') /\
  (forall id d, wt_Decisions r !! id = Some d -> wdc_SourceRevision d ∉ cancel_sources r).
Proof.
  unfold validateWaitDecisions. fold (cancel_sources r).
  assert (Hw : ((wt_WinnerID r != "") && (is_nil (wt_Decisions r !! wt_WinnerID r)
                || (wdc_Status (winner_of r) != WaitAccepted))) = false <->
    (wt_WinnerID r <> "" -> exists w, wt_Decisions r !! wt_WinnerID r = Some w /\ wdc_Status w = WaitAccepted)).
  { unfold winner_of. destruct (bool_decide_reflect (wt_WinnerID r = "")) as [E|E]; simpl; [naive_solver|].
    destruct (wt_Decisions r !! wt_WinnerID r) as [w|]; simpl; [|naive_solver].
    rewrite negb_false_iff, bool_decide_eq_true. naive_solver. }
  rewrite <- Hw. destruct (_ && _); [naive_solver|]. simpl.
  pose proof (validDecisions_iff r revision (winner_of r) (range (wt_Decisions r)) (cancel_sources r)) as Hi.
  destruct (validDecisions _ _ _ _ _).
  - destruct Hi as [Hi _]. destruct (Hi eq_refl) as (Hf & Hn & Hc). split; [intros _|done].
    rewrite Forall_forall in Hf. split_and!; [done|..].
    + intros id d Hd. apply (Hf (id, d)). by apply elem_of_map_to_list.
    + intros id d id' d' Hd Hd' E. apply elem_of_map_to_list in Hd, Hd'.
      pose proof (NoDup_fmap_inj source_of _ (id, d) (id', d') Hn Hd Hd' E). congruence.
    + intros id d Hd. apply (Hc (id, d)). by apply elem_of_map_to_list.
  - split; [done|]. intros (_ & Hd & Hs & Hc). exfalso.
    assert (false = true) as [=]. apply Hi. split_and!.
    + rewrite Forall_forall. intros [id d] Hin. apply elem_of_map_to_list in Hin. by apply Hd.
    + apply NoDup_fmap_2_strong; [|apply NoDup_map_to_list].
      intros [id d] [id' d'] H1 H2 E. apply elem_of_map_to_list in H1, H2.
      pose proof (Hs _ _ _ _ H1 H2 E). congruence.
    + intros [id d] Hin. apply elem_of_map_to_list in Hin. by apply (Hc id d).
Qed.

Lemma validateDurableWait_iff r revision : validateDurableWait r revision = None <-> valid_wait r revision.
Proof.
  unfold validateDurableWait. split.
  - intros H. guard_in H; [done|]. guard_in H; [done|].
    assert (Hh : valid_wait_head r /\ (wt_ArmRevision r <= revision)%N).
    { unfold valid_wait_head. destruct (validateWaitSpec _), (validateProfile _); cbn [is_nil] in Hg; reflect_bools;
      split_and!; done. }
    destruct Hh as [Hh Ha]. apply negb_false_iff in Hg0.
    assert (Hd : validateWaitDecisions r revision = None) by (destruct (wt_State r); by try guard_in H).
    apply validateWaitDecisions_iff in Hd as (? & ? & ? & ?).
    split; try done. destruct (wt_State r); try guard_in H; try done; reflect_bools; naive_solver.
  - intros [(H1 & H2 & H3 & H4 & H5 & H6 & H7) Ha Hc Hs Hw Hd Hso Hcs].
    assert (HD : validateWaitDecisions r revision = None) by (by apply validateWaitDecisions_iff).
    rewrite H4, H5, Hc, <- H7, !bool_decide_eq_false_2, bool_decide_eq_true_2 by done. simpl.
    destruct (N.ltb_spec revision (wt_ArmRevision r)); [lia|]. simpl.
    destruct Hs as [[[-> | ->] ->]|[[-> | ->] Hne]]; simpl; try done; by rewrite bool_decide_eq_false_2.
Qed.

(** ** Arbitration keeps a wait valid *)

Lemma validDecision_facts r rev w id d : validDecision r rev w id d = true ->
  id <> "" /\ wdc_ID d = id /\ (wt_ArmRevision r <= wdc_SourceRevision d < rev)%N /\
  validWaitDecisionState r d w = true.
Proof. unfold validDecision. intros H. reflect_bools. split_and!; done. Qed.

(** The decision body reads from the record only its correlation, deadline and arm revision,
    besides what [validWaitDecisionState] reads. *)
Lemma validDecision_transfer r r' rev rev' w w' id d :
  wt_Spec r' = wt_Spec r -> wt_ArmRevision r' = wt_ArmRevision r -> (rev <= rev')%N ->
  (validWaitDecisionState r d w = true -> validWaitDecisionState r' d w' = true) ->
  validDecision r rev w id d = true -> validDecision r' rev' w' id d = true.
Proof.
  unfold validDecision. intros -> -> Hr Hs H. apply andb_true_iff in H as [H H3]. apply andb_true_iff in H as [H1 H2].
  rewrite (Hs H3), H2, !andb_true_r. apply negb_true_iff in H1. apply negb_true_iff.
  repeat (apply orb_false_iff in H1 as [H1 ?]). repeat (apply orb_false_iff; split); try done.
  reflect_bools. lia.
Qed.

Lemma cancellation_mono r rev rev' : (rev <= rev')%N -> validWaitCancellation r rev = true ->
  validWaitCancellation r rev' = true.
Proof.
  unfold validWaitCancellation. intros Hr H. guard_goal; [done|].
  destruct (wt_Cancellation r) as [c|]; [|done].
  rewrite !andb_true_iff, N.ltb_lt in H. rewrite !andb_true_iff, N.ltb_lt. destruct_and!. split_and!; (done || lia).
Qed.

Lemma valid_wait_mono r rev rev' : (rev <= rev')%N -> valid_wait r rev -> valid_wait r rev'.
Proof.
  intros Hr [Hh Ha Hc Hs Hw Hd Hso Hcs]. split; try done.
  - lia.
  - by apply (cancellation_mono r rev).
  - intros id d Hl. eapply (validDecision_transfer r r rev rev'); eauto.
Qed.

(** What [prepareWaitDecision] has checked when it records a new decision. *)
Lemma prepare_new r dl rev inc now m target d : prepareWaitDecision r dl rev inc now m = Ok (target, d, false) ->
  valid_wait r rev /\ inc <> 0%N /\ IsZero now = false /\ (rev < max_uint64 \/ max_uint64 < rev)%N /\
  wt_Decisions r !! dlv_ID dl = None /\ dlv_ID dl <> "" /\
  (dlv_Kind dl = WaitEvent \/
   (dlv_Kind dl = WaitTimer /\ dlv_Payload dl = "" /\ (time_ns (wsp_Deadline (wt_Spec r)) <= time_ns now)%Z)) /\
  dlv_CorrelationID dl = wsp_CorrelationID (wt_Spec r) /\
  (wt_State r = WaitArmed -> dlv_ExpectedRevision dl = rev) /\
  d = newWaitDecision r dl rev inc now m /\ target = recordWaitDecision r d.
Proof.
  unfold prepareWaitDecision. intros H. guard_in H; [done|].
  destruct (validateDurableWait r rev) eqn:Hv; [done|]. apply validateDurableWait_iff in Hv. cbn [is_nil] in Hg.
  destruct (validateWaitDelivery r dl rev) eqn:Hdl; [done|].
  destruct (wt_Decisions r !! dlv_ID dl) eqn:Hl; [guard_in H; done|].
  guard_in H; [done|]. guard_in H; [done|]. guard_in H; [done|]. guard_in H; [done|].
  unfold validateWaitDelivery in Hdl. guard_in Hdl; [done|]. guard_in Hdl; [done|]. unfold Before in *.
  simplify_eq. reflect_bools. split_and!; try done; try lia.
  - destruct (decide (dlv_Kind dl = WaitEvent)); [by left|right].
    assert (dlv_Kind dl = WaitTimer) by tauto. split_and!; [done|or_cases|or_cases].
  - intros. or_cases.
Qed.

Section Prepare.
Context (r : DurableWaitRecord) (dl : WaitDelivery) (rev inc : N) (now : Time) (m : bool).
Context (Hvalid : valid_wait r rev).
Context (Hnew : wt_Decisions r !! dlv_ID dl = None) (Hid : dlv_ID dl <> "").
Context (Hkind : dlv_Kind dl = WaitEvent \/
  (dlv_Kind dl = WaitTimer /\ dlv_Payload dl = "" /\ (time_ns (wsp_Deadline (wt_Spec r)) <= time_ns now)%Z)).
Context (Hcorr : dlv_CorrelationID dl = wsp_CorrelationID (wt_Spec r)) (Hinc : inc <> 0%N) (Hnow : IsZero now = false).

Let d := newWaitDecision r dl rev inc now m.
Let target := recordWaitDecision r d.

Lemma cancel_before_rev c : wt_Cancellation r = Some c -> wt_State r = WaitCanceled /\ (wcn_SourceRevision c < rev)%N.
Proof using Hvalid.
  intros Hc. pose proof (vw_cancel r rev Hvalid) as H. unfold validWaitCancellation in H. rewrite Hc in H.
  destruct (bool_decide_reflect (wt_State r = WaitCanceled)) as [E|E]; simpl in H; [|done].
  split; [done|]. rewrite !andb_true_iff, N.ltb_lt in H. by destruct_and!.
Qed.

Lemma winner_before_rev : wt_WinnerID r <> "" -> (wdc_SourceRevision (winner_of r) < rev)%N.
Proof using Hvalid.
  intros Hw. destruct (vw_winner r rev Hvalid Hw) as (w & Hl & _).
  pose proof (vw_decisions r rev Hvalid _ _ Hl) as Hd. apply validDecision_facts in Hd as (_ & _ & [_ ?] & _).
  unfold winner_of in *. by rewrite Hl in *.
Qed.

(** The four outcomes of arbitration. *)
Lemma status_cases :
  (wt_State r = WaitCanceled /\ wdc_Status d = WaitRejectedCanceled /\ target = r <| wt_Decisions := <[dlv_ID dl := d]> (wt_Decisions r) |>) \/
  ((wt_State r = WaitResolved \/ wt_State r = WaitExpired) /\ wdc_Status d = WaitLost /\
    target = r <| wt_Decisions := <[dlv_ID dl := d]> (wt_Decisions r) |>) \/
  (wt_State r = WaitArmed /\ wdc_Status d = WaitUnmatched /\ dlv_Kind dl = WaitEvent /\
    target = r <| wt_Decisions := <[dlv_ID dl := d]> (wt_Decisions r) |>) \/
  (wt_State r = WaitArmed /\ wdc_Status d = WaitAccepted /\
    target = r <| wt_WinnerID := dlv_ID dl |>
      <| wt_State := if dlv_Kind dl == WaitTimer then WaitExpired else WaitResolved |>
      <| wt_Decisions := <[dlv_ID dl := d]> (wt_Decisions r) |>).
Proof using All.
  assert (Hst : wdc_Status d = waitDecisionStatus r (dlv_Kind dl) m) by done.
  assert (Ht : target = recordWaitDecision r d) by done. unfold recordWaitDecision in Ht.
  unfold waitDecisionStatus in Hst. rewrite Hst in Ht.
  destruct (vw_state r rev Hvalid) as [[[E|E] _]|[[E|E] _]]; rewrite E in *; simpl in *.
  - destruct (bool_decide_reflect (dlv_Kind dl = WaitEvent)) as [K|K]; simpl in *; [destruct m; simpl in *|].
    + right; right; right. by rewrite K in *.
    + right; right; left. by split_and!.
    + right; right; right. by split_and!.
  - left. by split_and!.
  - right; left. by split_and!; auto.
  - right; left. by split_and!; auto.
Qed.

(** Decisions recorded earlier keep their justification. *)
Lemma old_decision_state id d0 : wt_Decisions r !! id = Some d0 ->
  validWaitDecisionState target d0 (winner_of target) = true.
Proof using All.
  intros Hl. pose proof (vw_decisions r rev Hvalid id d0 Hl) as Hv.
  pose proof (validDecision_facts _ _ _ _ _ Hv) as (Hne & Hide & Hsrc & Hs).
  assert (Hsome : wt_WinnerID r <> "" -> is_Some (wt_Decisions r !! wt_WinnerID r)).
  { intros Hw. destruct (vw_winner r rev Hvalid Hw) as (w & -> & _). eauto. }
  assert (Hlook : wt_WinnerID r <> "" -> <[dlv_ID dl := d]> (wt_Decisions r) !! wt_WinnerID r = wt_Decisions r !! wt_WinnerID r).
  { intros Hw. apply lookup_insert_ne. intros E. destruct (Hsome Hw) as [x Hx]. congruence. }
  unfold validWaitDecisionState in *.
  destruct status_cases as [(Es & _ & ->)|[(Es & _ & ->)|[(Es & _ & _ & ->)|(Es & _ & ->)]]];
    unfold winner_of in *; simpl in *.
  - destruct (vw_state r rev Hvalid) as [[_ Ew]|[[?|?] _]]; [|congruence..]. rewrite Ew in *. simpl in *.
    destruct (wdc_Status d0); try done.
  - destruct (vw_state r rev Hvalid) as [[[?|?] _]|[_ Ew]]; [destruct Es; congruence..|].
    by rewrite (Hlook Ew).
  - destruct (vw_state r rev Hvalid) as [[_ Ew]|[[?|?] _]]; [|congruence..]. rewrite Ew in *. simpl in *.
    destruct (wdc_Status d0); try done.
  - rewrite lookup_insert_eq. simpl.
    destruct (vw_state r rev Hvalid) as [[_ Ew]|[[?|?] _]]; [|congruence..]. rewrite Ew, Es in *. simpl in *.
    destruct (wdc_Status d0); try done.
    + by rewrite andb_false_r in Hs.
    + rewrite andb_true_r in Hs. apply andb_true_iff in Hs as [-> ->]. simpl.
      destruct (N.ltb_spec (wdc_SourceRevision d0) rev); [by rewrite orb_true_r|lia].
Qed.

(** The new decision is justified by the state it was taken in. *)
Lemma new_decision_state : validWaitDecisionState target d (winner_of target) = true.
Proof using All.
  assert (Hlook : wt_WinnerID r <> "" ->
    <[dlv_ID dl := d]> (wt_Decisions r) !! wt_WinnerID r = wt_Decisions r !! wt_WinnerID r).
  { intros Hw. apply lookup_insert_ne. intros E. destruct (vw_winner r rev Hvalid Hw) as (w & Hx & _). congruence. }
  unfold validWaitDecisionState.
  destruct status_cases as [(Es & -> & ->)|[(Es & -> & ->)|[(Es & -> & Ek & ->)|(Es & -> & ->)]]]; simpl.
  - rewrite Es. simpl. pose proof (vw_cancel r rev Hvalid) as Hc. unfold validWaitCancellation in Hc. rewrite Es in Hc.
    destruct (wt_Cancellation r) as [c|] eqn:E; [|done]. simpl. destruct (cancel_before_rev c E) as [_ ?].
    by apply N.ltb_lt.
  - destruct (vw_state r rev Hvalid) as [[[?|?] _]|[_ Ew]]; [destruct Es; congruence..|].
    rewrite bool_decide_eq_false_2 by done. unfold winner_of. simpl. rewrite (Hlook Ew).
    apply N.ltb_lt. by apply winner_before_rev.
  - destruct (vw_state r rev Hvalid) as [[_ Ew]|[[?|?] _]]; [|congruence..].
    rewrite Ek, Ew. simpl. destruct (wt_Cancellation r) as [c|] eqn:E; [|done].
    destruct (cancel_before_rev c E). congruence.
  - rewrite bool_decide_eq_true_2 by done. simpl.
    by destruct Hkind as [-> | (-> & _)].
Qed.

Lemma target_frame : wt_Spec target = wt_Spec r /\ wt_ArmRevision target = wt_ArmRevision r /\
  wt_Cancellation target = wt_Cancellation r /\ wt_Decisions target = <[dlv_ID dl := d]> (wt_Decisions r) /\
  (valid_wait_head r -> valid_wait_head target).
Proof using All.
  destruct status_cases as [(_ & _ & ->)|[(_ & _ & ->)|[(_ & _ & _ & ->)|(_ & _ & ->)]]]; done.
Qed.

Lemma new_decision_valid : validDecision target (rev + 1) (winner_of target) (dlv_ID dl) d = true.
Proof using All.
  destruct target_frame as (Es & Ea & _). pose proof (vw_arm r rev Hvalid).
  unfold validDecision. rewrite new_decision_state, Es, Ea.
  change (wdc_ID d) with (dlv_ID dl). change (wdc_CorrelationID d) with (dlv_CorrelationID dl).
  change (wdc_Incarnation d) with inc. change (wdc_At d) with (toUTC now). change (wdc_SourceRevision d) with rev.
  change (wdc_Kind d) with (dlv_Kind dl). change (wdc_PayloadDigest d) with (waitPayloadDigest (dlv_Payload dl)).
  change (IsZero (toUTC now)) with (IsZero now). rewrite Hnow, Hcorr.
  rewrite (bool_decide_eq_false_2 _ Hid), (bool_decide_eq_false_2 _ Hinc).
  rewrite (bool_decide_eq_true_2 (dlv_ID dl = _)), (bool_decide_eq_true_2 (wsp_CorrelationID _ = _)) by done.
  change (canonicalWaitDigest (waitPayloadDigest ?p)) with (canonicalWaitDigest (sha256_hex p)).
  rewrite sha256_hex_wait_digest.
  destruct (N.ltb_spec rev (wt_ArmRevision r)); [lia|]. destruct (N.leb_spec (rev + 1) rev); [lia|].
  destruct Hkind as [-> | (-> & -> & Hd)]; [done|].
  rewrite (bool_decide_eq_true_2 (waitPayloadDigest "" = _)) by done. unfold Before. cbn [time_ns toUTC].
  by destruct (Z.ltb_spec (time_ns now) (time_ns (wsp_Deadline (wt_Spec r)))); [lia|].
Qed.

Lemma recorded_valid : valid_wait target (rev + 1).
Proof using All.
  destruct target_frame as (Es & Ea & Ec & Ed & Eh).
  assert (Hold : forall id d0, wt_Decisions r !! id = Some d0 -> (wdc_SourceRevision d0 < rev)%N).
  { intros id d0 Hl. pose proof (vw_decisions r rev Hvalid id d0 Hl) as Hv. by apply validDecision_facts in Hv as (_ & _ & [_ ?] & _). }
  split.
  - apply Eh, Hvalid.
  - pose proof (vw_arm r rev Hvalid). lia.
  - pose proof (cancellation_mono r rev (rev + 1) ltac:(lia) (vw_cancel r rev Hvalid)) as Hc.
    unfold validWaitCancellation in *. rewrite Ec, Ea.
    destruct status_cases as [(E & _ & ->)|[(E & _ & ->)|[(E & _ & _ & ->)|(E & _ & ->)]]]; simpl; try exact Hc.
    rewrite E in Hc. by destruct (dlv_Kind dl == WaitTimer).
  - pose proof (vw_state r rev Hvalid) as Hs.
    destruct status_cases as [(E & _ & ->)|[(E & _ & ->)|[(E & _ & _ & ->)|(E & _ & ->)]]]; simpl; try exact Hs.
    right. split; [|done]. destruct (dlv_Kind dl == WaitTimer); auto.
  - destruct status_cases as [(E & _ & ->)|[(E & _ & ->)|[(E & _ & _ & ->)|(E & Ea' & ->)]]]; simpl; intros Hw;
      try (destruct (vw_winner r rev Hvalid Hw) as (w & Hx & Hxs); exists w; split; [|done];
           rewrite lookup_insert_ne; [done|congruence]).
    exists d. by rewrite lookup_insert_eq.
  - intros id d0. rewrite Ed. intros [[<- <-]|[Hne Hl]]%lookup_insert_Some; [apply new_decision_valid|].
    eapply (validDecision_transfer r target rev (rev + 1)); try done; [lia|intros _; by eapply old_decision_state|].
    by apply vw_decisions.
  - intros id d1 id' d2. rewrite Ed. intros [[<- <-]|[Hne Hl]]%lookup_insert_Some [[<- <-]|[Hne' Hl']]%lookup_insert_Some E.
    + done.
    + apply Hold in Hl'. simpl in E. lia.
    + apply Hold in Hl. simpl in E. lia.
    + by eapply (vw_sources r rev Hvalid).
  - intros id d0. rewrite Ed. unfold cancel_sources. rewrite Ec.
    intros [[<- <-]|[Hne Hl]]%lookup_insert_Some; [|by apply (vw_cancel_source r rev Hvalid id)].
    destruct (wt_Cancellation r) as [c|] eqn:E; [|set_solver]. destruct (cancel_before_rev c E) as [_ ?].
    rewrite list_elem_of_singleton. simpl. lia.
Qed.
End Prepare.

Lemma prepare_valid r dl rev inc now m target d replay :
  prepareWaitDecision r dl rev inc now m = Ok (target, d, replay) ->
  valid_wait r rev /\ valid_wait target (if replay then rev else rev + 1).
Proof.
  intros H. destruct replay.
  - unfold prepareWaitDecision in H. guard_in H; [done|]. destruct (validateDurableWait r rev) eqn:Hv; [done|].
    apply validateDurableWait_iff in Hv. destruct (validateWaitDelivery r dl rev); [done|].
    destruct (wt_Decisions r !! dlv_ID dl); repeat (guard_in H; try done); by simplify_eq.
  - apply prepare_new in H as (Hv & Hi & Hn & _ & Hl & Hid & Hk & Hc & _ & -> & ->).
    split; [done|]. by apply recorded_valid.
Qed.

(** An armed wait holds only unmatched events. *)
Lemma armed_decisions r rev id d : valid_wait r rev -> wt_State r = WaitArmed -> wt_Decisions r !! id = Some d ->
  wdc_Status d = WaitUnmatched.
Proof.
  intros Hv Es Hl. pose proof (vw_decisions r rev Hv id d Hl) as Hd. apply validDecision_facts in Hd as (Hne & <- & _ & Hs).
  destruct (vw_state r rev Hv) as [[_ Ew]|[[?|?] _]]; [|congruence..].
  unfold validWaitDecisionState in Hs. rewrite Es, Ew in Hs.
  destruct (wdc_Status d); try done. by rewrite andb_false_r in Hs.
Qed.

Lemma cancel_valid r request rev inc now token :
  valid_wait r rev -> validateWaitCancellationRequest rev false r token request = None -> wt_State r = WaitArmed ->
  validWaitCancellationText (wt_ExecutionID r) token request = true -> inc <> 0%N -> IsZero now = false ->
  valid_wait (cancelWaitRecord r request rev inc now) (rev + 1).
Proof.
  intros Hv Hr Es Ht Hi Hn. pose proof (vw_arm r rev Hv) as Harm.
  pose proof (valid_wait_mono r rev (rev + 1) ltac:(lia) Hv) as [Hh Ha Hc Hs Hw Hd Hso Hcs].
  destruct (vw_state r rev Hv) as [[_ Ew]|[[?|?] _]]; [|congruence..].
  assert (Hold : forall id d0, wt_Decisions r !! id = Some d0 -> (wdc_SourceRevision d0 < rev)%N).
  { intros id d0 Hl. pose proof (vw_decisions r rev Hv id d0 Hl) as Hx. by apply validDecision_facts in Hx as (_ & _ & [_ ?] & _). }
  split; try done; simpl.
  - unfold validWaitCancellation. simpl. unfold validWaitCancellationText in Ht.
    assert (Hq : wcr_ID request <> "" /\ wcr_Reason request <> "" /\ wcr_Evidence request <> "" /\
      validRuntimeText [wcr_ID request; wcr_Reason request; wcr_Evidence request] = true).
    { clear - Ht. unfold validRuntimeText in *. cbn [forallb] in *. rewrite !andb_true_r in *. reflect_bools.
      split_and!; done. }
    destruct Hq as (H1 & H2 & H3 & ->). rewrite Hn, !bool_decide_eq_false_2 by done. simpl.
    destruct (N.leb_spec (wt_ArmRevision r) rev); [|lia]. destruct (N.ltb_spec rev (rev + 1)); [done|lia].
  - left. auto.
  - intros id d Hl. eapply (validDecision_transfer r _ (rev + 1) (rev + 1)); try done; [|by apply Hd].
    pose proof (armed_decisions r rev id d Hv Es Hl) as Eu. unfold validWaitDecisionState. rewrite Eu. simpl. rewrite Ew. simpl.
    rewrite !andb_true_iff. intros [[Hk _] _]. split_and!; try done. apply N.ltb_lt. by apply (Hold id).
  - intros id d Hl. unfold cancel_sources. simpl. apply Hold in Hl. rewrite list_elem_of_singleton. lia.
Qed.

(** ** The life of a wait *)

(** One commit of the execution that holds the wait, at the revision it starts from: a
    delivery is decided, the wait is canceled, or something else is committed. *)
Inductive wait_step : DurableWaitRecord * N -> DurableWaitRecord * N -> Prop :=
| StepDeliver r rev dl inc now m target d :
    prepareWaitDecision r dl rev inc now m = Ok (target, d, false) ->
    wait_step (r, rev) (target, (rev + 1)%N)
| StepCancel r rev request token inc now :
    validateDurableWait r rev = None ->
    validWaitCancellationText (wt_ExecutionID r) token request = true ->
    validateWaitCancellationRequest rev false r token request = None -> wt_State r = WaitArmed ->
    inc <> 0%N -> IsZero now = false ->
    wait_step (r, rev) (cancelWaitRecord r request rev inc now, (rev + 1)%N)
| StepOther r rev : wait_step (r, rev) (r, (rev + 1)%N).

Lemma wait_step_valid x y : wait_step x y -> valid_wait x.1 x.2 -> valid_wait y.1 y.2.
Proof.
  intros []; simpl; intros Hv.
  - by apply prepare_valid in H as [_ ?].
  - by eapply cancel_valid.
  - apply (valid_wait_mono r rev); [lia|done].
Qed.

(** What a commit may change: decisions are only added, and only an armed wait changes
    its state, winner or cancellation. *)
Lemma wait_step_frame x y : wait_step x y -> valid_wait x.1 x.2 ->
  wt_Decisions x.1 ⊆ wt_Decisions y.1 /\ wt_Spec y.1 = wt_Spec x.1 /\ wt_Generation y.1 = wt_Generation x.1 /\
  (wt_State x.1 <> WaitArmed -> wt_State y.1 = wt_State x.1 /\ wt_WinnerID y.1 = wt_WinnerID x.1 /\
     wt_Cancellation y.1 = wt_Cancellation x.1).
Proof.
  intros [r rev dl inc now m target d Hp|r rev request token inc now _ _ _ Hs _ _|r rev]; simpl; intros Hv; try done.
  apply prepare_new in Hp as (_ & Hi & Hn & _ & Hl & Hid & Hk & Hc & _ & -> & ->).
  assert (Hsub : wt_Decisions r ⊆ <[dlv_ID dl := newWaitDecision r dl rev inc now m]> (wt_Decisions r))
    by (by apply insert_subseteq).
  destruct (status_cases r dl rev inc now m Hv Hl Hid Hk Hc Hi Hn) as [(Es & _ & ->)|[(Es & _ & ->)|[(Es & _ & _ & ->)|(Es & _ & ->)]]];
    simpl; split_and!; try done.
Qed.

Lemma wait_steps_valid x y : rtc wait_step x y -> valid_wait x.1 x.2 -> valid_wait y.1 y.2.
Proof. induction 1; eauto using wait_step_valid. Qed.

Lemma plan_valid execution node activation revision spec profile r :
  planDurableWait execution node activation revision spec profile = Ok r ->
  valid_wait r revision /\ wt_State r = WaitArmed.
Proof.
  unfold planDurableWait. intros H. guard_in H; [done|]. simplify_eq. split; [|done].
  destruct (validateWaitSpec spec) eqn:Hs; [done|]. destruct (validateProfile profile) eqn:Hp; [done|].
  cbn [is_nil] in Hg. reflect_bools. split; simpl; try done; auto.
Qed.

Lemma wait_steps_frame x y : rtc wait_step x y -> valid_wait x.1 x.2 ->
  wt_Decisions x.1 ⊆ wt_Decisions y.1 /\ wt_Spec y.1 = wt_Spec x.1 /\ wt_Generation y.1 = wt_Generation x.1 /\
  (wt_State x.1 <> WaitArmed -> wt_State y.1 = wt_State x.1 /\ wt_WinnerID y.1 = wt_WinnerID x.1 /\
     wt_Cancellation y.1 = wt_Cancellation x.1).
Proof.
  induction 1 as [|x y z Hs _ IH]; intros Hv; [done|].
  destruct (wait_step_frame _ _ Hs Hv) as (H1 & H2 & H3 & H4).
  destruct (IH (wait_step_valid _ _ Hs Hv)) as (G1 & G2 & G3 & G4).
  split_and!; [by transitivity (wt_Decisions y.1)|congruence|congruence|].
  intros Ha. destruct (H4 Ha) as (E1 & E2 & E3). rewrite <- E1 in Ha. destruct (G4 Ha) as (? & ? & ?).
  split_and!; congruence.
Qed.

(** A delivery that passes the address checks and is not yet decided gets its decision. *)
Lemma prepare_decides r dl rev inc now m :
  valid_wait r rev -> inc <> 0%N -> IsZero now = false -> validateWaitDelivery r dl rev = None ->
  wt_Decisions r !! dlv_ID dl = None -> rev <> max_uint64 ->
  dlv_CorrelationID dl = wsp_CorrelationID (wt_Spec r) ->
  (dlv_Kind dl = WaitTimer -> dlv_Payload dl = "" /\ (time_ns (wsp_Deadline (wt_Spec r)) <= time_ns now)%Z) ->
  (wt_State r = WaitArmed -> dlv_ExpectedRevision dl = rev) ->
  prepareWaitDecision r dl rev inc now m =
    Ok (recordWaitDecision r (newWaitDecision r dl rev inc now m), newWaitDecision r dl rev inc now m, false).
Proof.
  intros Hv Hi Hn Hd Hl Hr Hc Ht Hs. unfold prepareWaitDecision. apply validateDurableWait_iff in Hv.
  rewrite Hv, Hd, Hl, Hn, Hc, !bool_decide_eq_false_2, bool_decide_eq_true_2 by done. simpl. unfold Before.
  destruct (bool_decide_reflect (dlv_Kind dl = WaitTimer)) as [Hk|]; simpl.
  - destruct (Ht Hk) as [-> Hle]. simpl. destruct (Z.ltb_spec (time_ns now) (time_ns (wsp_Deadline (wt_Spec r)))); [lia|].
    destruct (bool_decide_reflect (wt_State r = WaitArmed)) as [Ha|]; [|done]. by rewrite bool_decide_eq_true_2 by auto.
  - destruct (bool_decide_reflect (wt_State r = WaitArmed)) as [Ha|]; [|done]. by rewrite bool_decide_eq_true_2 by auto.
Qed.

(** From the moment it is planned, a wait passes [validateDurableWait] at every revision,
    whatever deliveries, cancellations and unrelated commits follow in whatever order;
    and at most one of its decisions is an acceptance, the one named by [WinnerID]. *)
Theorem wait_lifecycle_valid execution node activation revision spec profile r r' rev' :
  planDurableWait execution node activation revision spec profile = Ok r ->
  rtc wait_step (r, revision) (r', rev') ->
  validateDurableWait r' rev' = None /\
  (forall id d, wt_Decisions r' !! id = Some d -> wdc_Status d = WaitAccepted -> id = wt_WinnerID r').
Proof.
  intros Hp Hs. apply plan_valid in Hp as [Hv _]. apply wait_steps_valid in Hs; [|done]. simpl in Hs.
  split; [by apply validateDurableWait_iff|]. intros id d Hl Ha.
  pose proof (vw_decisions r' rev' Hs id d Hl) as Hd. apply validDecision_facts in Hd as (_ & <- & _ & Hx).
  unfold validWaitDecisionState in Hx. rewrite Ha in Hx. by reflect_bools.
Qed.

Definition spec_example : DurableWaitSpec :=
  mkWaitSpec "approval" "order-7" (mkTime 63000000000000000000 UTC) "by-order" "json-v1" "resume" "approved" "expired"
    WaitFirstCommitted.
Definition profile_example : WaitCapabilityProfile := mkProfile "p" "journal" "lease" "timer" "clock" "retry" "recovery".
Definition wait_example : DurableWaitRecord :=
  mkWaitRecord "run" "ask" 2 (waitGeneration (waitIdentity "run" "ask" 2 "approval") 5) 5 spec_example profile_example
    WaitArmed "" ∅ None.
Definition wait_delivery_example : WaitDelivery :=
  mkDelivery (wt_Generation wait_example) "d1" WaitTimer "order-7" 6 "".

Lemma wait_example_planned : planDurableWait "run" "ask" 2 5 spec_example profile_example = Ok wait_example.
Proof. reflexivity. Qed.

Lemma wait_example_valid rev : (5 <= rev)%N -> valid_wait wait_example rev.
Proof.
  intros Hr. apply (valid_wait_mono _ 5); [done|].
  by apply (plan_valid "run" "ask" 2 5 spec_example profile_example wait_example).
Qed.

Definition wait_now : Time := mkTime 63000000000000000001 UTC.
Definition wait_example_decision : WaitDecision := newWaitDecision wait_example wait_delivery_example 6 3 wait_now true.
Definition wait_example_expired : DurableWaitRecord := recordWaitDecision wait_example wait_example_decision.

Lemma wait_example_delivered :
  prepareWaitDecision wait_example wait_delivery_example 6 3 wait_now true =
    Ok (wait_example_expired, wait_example_decision, false).
Proof.
  apply prepare_decides; [by apply wait_example_valid|done|done| |done..].
  unfold validateWaitDelivery. rewrite (bool_decide_eq_true_2 (dlv_Generation _ = _)) by reflexivity. reflexivity.
Qed.

Lemma wait_lifecycle_valid_witness :
  validateDurableWait wait_example_expired 8 = None /\ wt_State wait_example_expired = WaitExpired.
Proof.
  split; [|reflexivity].
  apply (wait_lifecycle_valid "run" "ask" 2 5 spec_example profile_example wait_example wait_example_expired 8).
  - apply wait_example_planned.
  - eapply rtc_l; [apply StepOther|]. eapply rtc_l; [eapply StepDeliver, wait_example_delivered|].
    apply rtc_once, StepOther.
Defined.

(** C14: the first accepted delivery wins for good. After any sequence of further commits the
    wait still names that delivery as its winner with the decision recorded then, and is still
    in the state it then got, expired for a timer and resolved for an event; any other delivery
    that is decided is recorded as lost, and leaves winner, state and the winning decision as
    they are. *)
Theorem first_commit_wins r rev dl inc now m target d r' rev' :
  prepareWaitDecision r dl rev inc now m = Ok (target, d, false) -> wdc_Status d = WaitAccepted ->
  rtc wait_step (target, (rev + 1)%N) (r', rev') ->
  let won := if dlv_Kind dl == WaitTimer then WaitExpired else WaitResolved in
  wt_WinnerID r' = dlv_ID dl /\ wt_State r' = won /\ wt_Decisions r' !! dlv_ID dl = Some d /\
  (forall dl2 inc2 now2 m2 t2 d2 replay,
     prepareWaitDecision r' dl2 rev' inc2 now2 m2 = Ok (t2, d2, replay) -> dlv_ID dl2 <> dlv_ID dl ->
     (replay = false -> wdc_Status d2 = WaitLost) /\
     wt_WinnerID t2 = dlv_ID dl /\ wt_State t2 = won /\ wt_Decisions t2 !! dlv_ID dl = Some d).
Proof.
  intros Hp Ha Hs. pose proof (prepare_valid _ _ _ _ _ _ _ _ _ Hp) as [Hv Hvt].
  apply prepare_new in Hp as (_ & Hi & Hn & _ & Hl & Hid & Hk & Hc & _ & Ed & Et).
  cbv zeta. set (won := if dlv_Kind dl == WaitTimer then WaitExpired else WaitResolved).
  assert (Ht : wt_WinnerID target = dlv_ID dl /\ wt_State target = won /\ won <> WaitArmed /\ won <> WaitCanceled /\
    wt_Decisions target !! dlv_ID dl = Some d).
  { subst target. unfold recordWaitDecision. rewrite bool_decide_eq_true_2 by done. subst d. simpl.
    rewrite lookup_insert_eq. unfold won. by destruct (dlv_Kind dl == WaitTimer). }
  destruct Ht as (Hw & Hst & Hna & Hnc & Hd).
  destruct (wait_steps_frame _ _ Hs Hvt) as (Hsub & _ & _ & Hf). cbn [fst snd] in *. destruct (Hf ltac:(congruence)) as (Es & Ew & _).
  assert (Hd' : wt_Decisions r' !! dlv_ID dl = Some d) by by eapply lookup_weaken.
  split_and!; [congruence|congruence|done|].
  intros dl2 inc2 now2 m2 t2 d2 replay Hp2 Hne. assert (Es' : wt_State r' = won) by congruence.
  destruct replay.
  - split; [done|]. unfold prepareWaitDecision in Hp2. repeat (guard_in Hp2; [done|]).
    destruct (validateWaitDelivery r' dl2 rev'); [done|].
    destruct (wt_Decisions r' !! dlv_ID dl2); repeat (guard_in Hp2; try done); simplify_eq; split_and!; congruence.
  - apply prepare_new in Hp2 as (_ & _ & _ & _ & _ & _ & _ & _ & _ & -> & ->).
    unfold recordWaitDecision, newWaitDecision, waitDecisionStatus. simpl. rewrite Es'.
    rewrite (bool_decide_eq_false_2 _ Hnc), (bool_decide_eq_false_2 _ Hna). simpl.
    split_and!; [done|congruence|done|]. by rewrite lookup_insert_ne.
Qed.

Lemma first_commit_wins_witness : wt_WinnerID wait_example_expired = "d1".
Proof.
  apply (first_commit_wins wait_example 6 wait_delivery_example 3 wait_now true wait_example_expired
    wait_example_decision wait_example_expired 8 wait_example_delivered eq_refl).
  apply rtc_once, StepOther.
Defined.

(** Delivery is idempotent. Once an identity has a decision, delivering the same kind,
    correlation and payload under it again, at any later revision at or above the arm
    revision, returns the recorded decision as a replay and leaves the wait unchanged;
    a different payload digest under the same identity is a conflict. *)
Theorem redelivery_replays r rev dl inc now m target d r' rev' dl2 inc2 now2 m2 :
  prepareWaitDecision r dl rev inc now m = Ok (target, d, false) ->
  rtc wait_step (target, (rev + 1)%N) (r', rev') ->
  inc2 <> 0%N -> IsZero now2 = false ->
  dlv_Generation dl2 = dlv_Generation dl -> dlv_ID dl2 = dlv_ID dl -> dlv_Kind dl2 = dlv_Kind dl ->
  dlv_CorrelationID dl2 = dlv_CorrelationID dl ->
  (wt_ArmRevision r' <= dlv_ExpectedRevision dl2)%N -> (dlv_ExpectedRevision dl2 <= rev')%N ->
  prepareWaitDecision r' dl2 rev' inc2 now2 m2 =
    if waitPayloadDigest (dlv_Payload dl2) == waitPayloadDigest (dlv_Payload dl)
    then Ok (r', d, true) else Err ErrWaitConflict.
Proof.
  intros Hp Hs Hi2 Hn2 Hg Hid2 Hk2 Hc2 Hlo Hhi. pose proof (prepare_valid _ _ _ _ _ _ _ _ _ Hp) as [Hv Hvt].
  pose proof (wait_steps_valid _ _ Hs Hvt) as Hv'. simpl in Hv'.
  assert (Hgen : dlv_Generation dl = wt_Generation r).
  { unfold prepareWaitDecision in Hp. guard_in Hp; [done|]. destruct (validateWaitDelivery r dl rev) eqn:E; [done|].
    unfold validateWaitDelivery in E. guard_in E; [done|]. by reflect_bools. }
  apply prepare_new in Hp as (_ & Hi & Hn & _ & Hl & Hid & Hk & Hc & _ & Ed & Et).
  destruct (target_frame r dl rev inc now m Hv Hl Hid Hk Hc Hi Hn) as (_ & _ & _ & Edec & _).
  destruct (wait_steps_frame _ _ Hs Hvt) as (Hsub & _ & Eg & _). cbn [fst snd] in Hsub, Eg.
  assert (Hgt : wt_Generation target = wt_Generation r) by (subst; unfold recordWaitDecision; by case_bool_decide).
  assert (Hd : wt_Decisions r' !! dlv_ID dl = Some d).
  { eapply lookup_weaken; [|exact Hsub]. subst target d. rewrite Edec. apply lookup_insert_eq. }
  unfold prepareWaitDecision. apply validateDurableWait_iff in Hv'. rewrite Hv', Hn2, (bool_decide_eq_false_2 _ Hi2).
  assert (Hdl : validateWaitDelivery r' dl2 rev' = None).
  { unfold validateWaitDelivery. rewrite Hg, Hgen, Eg, Hgt, Hid2, Hk2, (bool_decide_eq_false_2 _ Hid).
    rewrite bool_decide_eq_true_2 by done. destruct (N.ltb_spec (dlv_ExpectedRevision dl2) (wt_ArmRevision r')); [lia|].
    destruct (N.ltb_spec rev' (dlv_ExpectedRevision dl2)); [lia|].
    destruct Hk as [-> | (-> & _)]; done. }
  rewrite Hdl, Hid2, Hd, Hk2, Hc2. subst d. cbn [newWaitDecision wdc_Kind wdc_CorrelationID wdc_PayloadDigest].
  rewrite (bool_decide_eq_true_2 (dlv_Kind dl = _)), (bool_decide_eq_true_2 (dlv_CorrelationID dl = _)) by done.
  cbn [is_nil negb orb].
  destruct (bool_decide_reflect (waitPayloadDigest (dlv_Payload dl2) = waitPayloadDigest (dlv_Payload dl))) as [E|E].
  - by rewrite bool_decide_eq_true_2.
  - by rewrite bool_decide_eq_false_2.
Qed.

Lemma redelivery_replays_witness :
  prepareWaitDecision wait_example_expired wait_delivery_example 9 8 wait_now false =
    if waitPayloadDigest "" == waitPayloadDigest "" then Ok (wait_example_expired, wait_example_decision, true)
    else Err ErrWaitConflict.
Proof.
  apply (redelivery_replays wait_example 6 wait_delivery_example 3 wait_now true wait_example_expired
    wait_example_decision wait_example_expired 9 wait_delivery_example 8 wait_now false wait_example_delivered);
    try reflexivity; try discriminate.
  eapply rtc_l; [apply StepOther|]. apply rtc_once, StepOther.
Defined.
