(* ===== verification/Contract.v ===== *)
(** * The execution envelope

    execution_contract.go, execution_integrity.go, execution_text.go and the data of
    execution_history.go, execution_fork_contract.go, execution_rollover_contract.go,
    execution_import.go and flowy.go: descriptors, progress, run metadata, terminal
    outcomes, provenance and the sealed aggregate that storage commits. Collections inside
    the envelope (journal, children, waits) are opaque payload bytes here; Aggregate.v
    decodes them.

    [json.Marshal] and [json.Unmarshal] of structured values are the operations of the
    class [JsonCodec]. What the runtime relies on is the class [JsonRoundTrip]: decoding
    what was encoded gives the value back. *)

From S2P Require Import Prelude Go Sha256 Json Identity Schedule Activity Waits.

(** ** Encoding of structured values *)
Class JsonCodec (A : Type) := {
  marshal : A -> option string;
  unmarshal : string -> option (option A);
}.

(** [representable] are the values JSON carries without loss (valid UTF-8, UTC times with
    marshalable years); a successful encoding of one is never empty and decodes to it. *)
Class JsonRoundTrip (A : Type) `{JsonCodec A} := {
  representable : A -> Prop;
  marshal_representable : forall a, representable a -> exists b, marshal a = Some b;
  marshal_nonempty : forall a b, marshal a = Some b -> b <> "";
  unmarshal_marshal : forall a b, representable a -> marshal a = Some b -> unmarshal b = Some (Some a);
}.

(** ** Descriptors *)
Inductive StepReplayMode := StepReplaySafe | ReplayModeOther (s : string).
#[export] Instance StepReplayMode_eq_dec : EqDecision StepReplayMode.
Proof. solve_decision. Defined.
Record StepReplayPolicy := mkReplayPolicy { rpl_Label : string; rpl_Mode : StepReplayMode }.
#[export] Instance StepReplayPolicy_eq_dec : EqDecision StepReplayPolicy.
Proof. solve_decision. Defined.

Record ExecutionDescriptor := mkDescriptor {
  dsc_GraphID : string;
  dsc_GraphRevision : string;
  dsc_StateCodec : string;
  dsc_EffectsCodec : string;
  dsc_ExecutionContract : string;
  dsc_ReplayPolicy : StepReplayPolicy;
}.
#[export] Instance ExecutionDescriptor_eq_dec : EqDecision ExecutionDescriptor.
Proof. solve_decision. Defined.

(** [ExecutionDescriptor.Validate] and [ExecutionDescriptor.Check]. *)
Definition validateDescriptor (d : ExecutionDescriptor) : option error :=
  if (dsc_GraphID d == "") || (dsc_GraphRevision d == "") || (dsc_StateCodec d == "") || (dsc_EffectsCodec d == "")
     || (dsc_ExecutionContract d == "")
     || negb (validRuntimeText [dsc_GraphID d; dsc_GraphRevision d; dsc_StateCodec d; dsc_EffectsCodec d;
                                dsc_ExecutionContract d; rpl_Label (dsc_ReplayPolicy d)])
     || (rpl_Label (dsc_ReplayPolicy d) == "") || (rpl_Mode (dsc_ReplayPolicy d) != StepReplaySafe)
  then Some (ErrExecutionIncompatible : error) else None.

Definition checkDescriptor (d target : ExecutionDescriptor) : option error :=
  match validateDescriptor d with
  | Some err => Some err
  | None => match validateDescriptor target with
    | Some err => Some err
    | None => if d != target then Some (ErrExecutionIncompatible : error) else None
    end
  end.

(** ** Progress and run metadata *)
Record ExecutionProgress := mkProgress {
  prg_StatePayload : string;
  prg_ExecutionPointer : ExecutionPointer;
  prg_ChildCursors : gmap string ExecutionPointer;
  prg_JournalReferences : gmap string string;
  prg_ChildGroupReferences : gmap string string;
}.
#[export] Instance eta_Progress : Eta ExecutionProgress := fun r =>
  mkProgress (prg_StatePayload r) (prg_ExecutionPointer r) (prg_ChildCursors r) (prg_JournalReferences r)
    (prg_ChildGroupReferences r).
#[export] Instance ExecutionProgress_eq_dec : EqDecision ExecutionProgress.
Proof. solve_decision. Defined.

Definition validMigrationText (state : ExecutionProgress) : bool :=
  validRuntimeText [prg_ExecutionPointer state]
  && map_all (fun key pointer => validRuntimeText [key; pointer]) (prg_ChildCursors state)
  && map_all (fun key identity => validRuntimeText [key; identity]) (prg_JournalReferences state)
  && map_all (fun key identity => validRuntimeText [key; identity]) (prg_ChildGroupReferences state).

Inductive RunStatus :=
| RunStatusCompleted | RunStatusTransferred | RunStatusSuspended | RunStatusContextCanceled | RunStatusFailed
| RunStatusHandoff | RunStatusOther (s : string).
#[export] Instance RunStatus_eq_dec : EqDecision RunStatus.
Proof. solve_decision. Defined.

Inductive SegmentEndReason :=
| SegmentOpen | SegmentEndSuspend | SegmentEndComplete | SegmentEndFail | SegmentEndHandoff
| SegmentEndContextCanceled | SegmentEndOther (s : string).
#[export] Instance SegmentEndReason_eq_dec : EqDecision SegmentEndReason.
Proof. solve_decision. Defined.
Record SegmentInfo := mkSegment {
  seg_SegmentID : string; seg_StartTime : Time; seg_EndTime : Time; seg_EndReason : SegmentEndReason
}.
#[export] Instance SegmentInfo_eq_dec : EqDecision SegmentInfo.
Proof. solve_decision. Defined.
#[export] Instance eta_Segment : Eta SegmentInfo := fun r =>
  mkSegment (seg_SegmentID r) (seg_StartTime r) (seg_EndTime r) (seg_EndReason r).

Inductive HandoffStatus :=
| HandoffStatusNone | HandoffStatusPending | HandoffStatusEnqueued | HandoffStatusOrphaned | HandoffStatusOther (s : string).
#[export] Instance HandoffStatus_eq_dec : EqDecision HandoffStatus.
Proof. solve_decision. Defined.

Record RunMetadata := mkRunMeta {
  met_Segment : SegmentInfo;
  met_SegmentStartTime : Time;
  met_RetryCounts : gmap string Z;
  met_BudgetCounts : gmap string Z;
  met_StepCount : Z;
  met_TelemetryContext : gmap string string;
  met_HandoffStatus : HandoffStatus;
  met_HandoffPendingAt : Time;
}.
#[export] Instance eta_RunMeta : Eta RunMetadata := fun r =>
  mkRunMeta (met_Segment r) (met_SegmentStartTime r) (met_RetryCounts r) (met_BudgetCounts r) (met_StepCount r)
    (met_TelemetryContext r) (met_HandoffStatus r) (met_HandoffPendingAt r).
#[export] Instance RunMetadata_eq_dec : EqDecision RunMetadata.
Proof. solve_decision. Defined.

Record ExecutionFailure := mkFailure { flr_Message : string }.
#[export] Instance ExecutionFailure_eq_dec : EqDecision ExecutionFailure.
Proof. solve_decision. Defined.
Record ExecutionTerminal := mkTerminal {
  trm_Status : RunStatus; trm_Reason : string; trm_Failure : option ExecutionFailure
}.
#[export] Instance ExecutionTerminal_eq_dec : EqDecision ExecutionTerminal.
Proof. solve_decision. Defined.

Definition terminalFailureError (terminal : option ExecutionTerminal) : option error :=
  match terminal with
  | None => None
  | Some t =>
      if (trm_Status t == RunStatusTransferred) && is_nil (trm_Failure t) then Some (ErrExecutionTransferred : error)
      else if (trm_Status t == RunStatusCompleted) && is_nil (trm_Failure t) then None
      else match trm_Failure t with
      | None => Some (ErrInvalidSnapshot : error)
      | Some f =>
          if trm_Status t != RunStatusFailed then Some (ErrInvalidSnapshot : error)
          else Some (PersistedExecutionError (flr_Message f) (trm_Reason t))
      end
  end.

(** ** Provenance *)
Record MigrationProvenance := mkMigrationProvenance {
  mgp_SourceRevision : N; mgp_SourceDigest : string; mgp_Chain : list string
}.
#[export] Instance MigrationProvenance_eq_dec : EqDecision MigrationProvenance.
Proof. solve_decision. Defined.

Record HistoricalCheckpointReference := mkReference {
  ref_ExecutionID : string; ref_Revision : N; ref_Digest : string
}.
#[export] Instance HistoricalCheckpointReference_eq_dec : EqDecision HistoricalCheckpointReference.
Proof. solve_decision. Defined.

Definition validateReference (s : HistoricalCheckpointReference) : option error :=
  if (ref_ExecutionID s == "") || negb (validRuntimeText [ref_ExecutionID s]) || (ref_Revision s == 0%N)
  then Some (ErrExecutionLifecycleInvalid : error)
  else if negb (validActivityDigest (ref_Digest s)) then Some (ErrExecutionSourceDigest : error) else None.

Record LegacyExecutionSource := mkLegacySource {
  leg_ID : string; leg_Revision : N; leg_Format : string; leg_Digest : string; leg_Payload : string
}.
#[export] Instance LegacyExecutionSource_eq_dec : EqDecision LegacyExecutionSource.
Proof. solve_decision. Defined.
Definition validateLegacySource (s : LegacyExecutionSource) : option error :=
  if (leg_ID s == "") || (leg_Revision s == 0%N) || (leg_Format s == "") || no_bytes (leg_Payload s)
     || negb (validRuntimeText [leg_ID s; leg_Format s])
  then Some (ErrExecutionImportInvalid : error)
  else if leg_Digest s != sha256_hex (leg_Payload s) then Some (ErrExecutionImportInvalid : error) else None.

Record ImportProvenance := mkImport { imp_Source : LegacyExecutionSource; imp_ImporterID : string }.
#[export] Instance ImportProvenance_eq_dec : EqDecision ImportProvenance.
Proof. solve_decision. Defined.

Inductive ForkActivityMode := NotForked | ForkFake | ForkLive | ForkModeOther (s : string).
#[export] Instance ForkActivityMode_eq_dec : EqDecision ForkActivityMode.
Proof. solve_decision. Defined.
Record ForkLineage := mkForkLineage {
  frk_Source : HistoricalCheckpointReference;
  frk_SourceDescriptor : ExecutionDescriptor;
  frk_TargetDescriptor : ExecutionDescriptor;
  frk_TargetID : string;
  frk_Mode : ForkActivityMode;
  frk_PolicyLabel : string;
  frk_TransformLabel : string;
  frk_ProjectionLabel : string;
  frk_CreatedAt : Time;
}.
#[export] Instance ForkLineage_eq_dec : EqDecision ForkLineage.
Proof. solve_decision. Defined.

Definition validateForkLineage (f : ForkLineage) : option error :=
  if negb (is_nil (validateReference (frk_Source f))) || negb (is_nil (validateDescriptor (frk_SourceDescriptor f)))
     || negb (is_nil (validateDescriptor (frk_TargetDescriptor f)))
     || negb (validRuntimeText [frk_TargetID f; ref_ExecutionID (frk_Source f); frk_PolicyLabel f; frk_TransformLabel f;
                                frk_ProjectionLabel f])
     || (frk_TargetID f == "") || (frk_TargetID f == ref_ExecutionID (frk_Source f)) || (frk_PolicyLabel f == "")
     || (frk_TransformLabel f == "") || IsZero (frk_CreatedAt f) || (time_loc (frk_CreatedAt f) != UTC)
  then Some (ErrExecutionLifecycleInvalid : error)
  else if (frk_Mode f != ForkFake) && (frk_Mode f != ForkLive) then Some (ErrForkPolicy : error)
  else if (frk_Mode f == ForkLive) && (frk_ProjectionLabel f == "") then Some (ErrForkPolicy : error)
  else None.

Record RolloverPolicy := mkRolloverPolicy {
  rpo_Label : string; rpo_MaxRecords : Z; rpo_MaxAggregateBytes : Z; rpo_MaxTargetBytes : Z
}.
#[export] Instance RolloverPolicy_eq_dec : EqDecision RolloverPolicy.
Proof. solve_decision. Defined.
Definition validateRolloverPolicy (p : RolloverPolicy) : option error :=
  if (rpo_Label p == "") || negb (validRuntimeText [rpo_Label p]) || (rpo_MaxRecords p <=? 0)%Z
     || (rpo_MaxAggregateBytes p <=? 0)%Z || (rpo_MaxTargetBytes p <=? 0)%Z
  then Some (ErrExecutionLifecycleLimit : error) else None.

Record RolloverLineage := mkRolloverLineage {
  rol_Source : HistoricalCheckpointReference;
  rol_SourceDescriptor : ExecutionDescriptor;
  rol_TargetDescriptor : ExecutionDescriptor;
  rol_TargetID : string;
  rol_DecisionID : string;
  rol_Policy : RolloverPolicy;
  rol_ProjectionLabel : string;
  rol_RequestDigest : string;
  rol_CreatedAt : Time;
}.
#[export] Instance RolloverLineage_eq_dec : EqDecision RolloverLineage.
Proof. solve_decision. Defined.

(** The JSON objects hashed by [rolloverRequestDigest], fields in declaration order. *)
Definition reference_json (s : HistoricalCheckpointReference) : json :=
  JObj [("execution_id", JStr (ref_ExecutionID s)); ("revision", JNum (Z.of_N (ref_Revision s)));
        ("digest", JStr (ref_Digest s))].
Definition replay_mode_text (m : StepReplayMode) : string :=
  match m with StepReplaySafe => "replay_safe" | ReplayModeOther s => s end.
Definition descriptor_json (d : ExecutionDescriptor) : json :=
  JObj [("graph_id", JStr (dsc_GraphID d)); ("graph_revision", JStr (dsc_GraphRevision d));
        ("state_codec", JStr (dsc_StateCodec d)); ("effects_codec", JStr (dsc_EffectsCodec d));
        ("execution_contract", JStr (dsc_ExecutionContract d));
        ("replay_policy", JObj [("label", JStr (rpl_Label (dsc_ReplayPolicy d)));
                                ("mode", JStr (replay_mode_text (rpl_Mode (dsc_ReplayPolicy d))))])].
Definition policy_json (p : RolloverPolicy) : json :=
  JObj [("label", JStr (rpo_Label p)); ("max_records", JNum (rpo_MaxRecords p));
        ("max_aggregate_bytes", JNum (rpo_MaxAggregateBytes p)); ("max_target_bytes", JNum (rpo_MaxTargetBytes p))].

Definition rollover_request_json (source : HistoricalCheckpointReference)
    (sourceDescriptor targetDescriptor : ExecutionDescriptor) (targetID decisionID : string) (policy : RolloverPolicy)
    (label : string) : json :=
  JArr [JStr "flowy-rollover-v1"; reference_json source; descriptor_json sourceDescriptor;
        descriptor_json targetDescriptor; JStr targetID; JStr decisionID; policy_json policy; JStr label].
Definition rolloverRequestDigest (source : HistoricalCheckpointReference)
    (sourceDescriptor targetDescriptor : ExecutionDescriptor) (targetID decisionID : string) (policy : RolloverPolicy)
    (label : string) : string :=
  sha256_hex (print (rollover_request_json source sourceDescriptor targetDescriptor targetID decisionID policy label)).

Definition lineageDigest (l : RolloverLineage) : string :=
  rolloverRequestDigest (rol_Source l) (rol_SourceDescriptor l) (rol_TargetDescriptor l) (rol_TargetID l)
    (rol_DecisionID l) (rol_Policy l) (rol_ProjectionLabel l).

Definition validateRolloverLineage (l : RolloverLineage) : option error :=
  if negb (is_nil (validateReference (rol_Source l))) || negb (is_nil (validateDescriptor (rol_SourceDescriptor l)))
     || negb (is_nil (validateDescriptor (rol_TargetDescriptor l))) || negb (is_nil (validateRolloverPolicy (rol_Policy l)))
     || (rol_TargetID l == "") || (rol_TargetID l == ref_ExecutionID (rol_Source l)) || (rol_DecisionID l == "")
     || (rol_ProjectionLabel l == "")
     || negb (validRuntimeText [rol_TargetID l; rol_DecisionID l; rol_ProjectionLabel l])
     || negb (validActivityDigest (rol_RequestDigest l)) || negb (activityScheduleTimeValid (rol_CreatedAt l))
     || (time_loc (rol_CreatedAt l) != UTC)
  then corrupt
  else if lineageDigest l != rol_RequestDigest l then corrupt else None.

Record RolloverReceipt := mkReceipt {
  rcp_Lineage : RolloverLineage; rcp_Target : HistoricalCheckpointReference; rcp_SourceRevision : N
}.
#[export] Instance RolloverReceipt_eq_dec : EqDecision RolloverReceipt.
Proof. solve_decision. Defined.
Definition validateReceipt (r : RolloverReceipt) : option error :=
  if negb (is_nil (validateRolloverLineage (rcp_Lineage r))) || negb (is_nil (validateReference (rcp_Target r)))
     || (ref_ExecutionID (rcp_Target r) != rol_TargetID (rcp_Lineage r)) || (ref_Revision (rcp_Target r) != 1%N)
     || (ref_Revision (rol_Source (rcp_Lineage r)) == max_uint64)
     || (rcp_SourceRevision r != succ_u64 (ref_Revision (rol_Source (rcp_Lineage r))))
  then corrupt else None.

(** ** The envelope *)
Record ExecutionEnvelope := mkEnvelope {
  env_ExecutionID : string;
  env_Revision : N;
  env_Digest : string;
  env_Descriptor : ExecutionDescriptor;
  env_RuntimeProfile : option WaitCapabilityProfile;
  env_Progress : ExecutionProgress;
  env_EffectsPayload : string;
  env_JournalPayload : string;
  env_ChildrenPayload : string;
  env_WaitsPayload : string;
  env_RunMeta : RunMetadata;
  env_Activation : N;
  env_Terminal : option ExecutionTerminal;
  env_Migration : option MigrationProvenance;
  env_Import : option ImportProvenance;
  env_Rollover : option RolloverLineage;
  env_Transfer : option RolloverReceipt;
  env_Fork : option ForkLineage;
}.
#[export] Instance eta_Envelope : Eta ExecutionEnvelope := fun r =>
  mkEnvelope (env_ExecutionID r) (env_Revision r) (env_Digest r) (env_Descriptor r) (env_RuntimeProfile r)
    (env_Progress r) (env_EffectsPayload r) (env_JournalPayload r) (env_ChildrenPayload r) (env_WaitsPayload r)
    (env_RunMeta r) (env_Activation r) (env_Terminal r) (env_Migration r) (env_Import r) (env_Rollover r)
    (env_Transfer r) (env_Fork r).
#[export] Instance ExecutionEnvelope_eq_dec : EqDecision ExecutionEnvelope.
Proof. solve_decision. Defined.

(** Go values are copied by [cloneExecutionEnvelope]; in the model every value is its own copy. *)
Definition cloneExecutionEnvelope (envelope : ExecutionEnvelope) : ExecutionEnvelope := envelope.

(** The errors that [json.Marshal] and [json.Unmarshal] report. *)
Definition json_error : error := ErrHost "json".

Section Sealing.
Context `{JsonCodec ExecutionEnvelope}.

Definition EnvelopeDigest (envelope : ExecutionEnvelope) : res string :=
  let envelope := envelope <| env_Digest := "" |> in
  data ← of_option (marshal envelope) json_error;
  Ok (sha256_hex data).

Definition SealExecutionEnvelope (envelope : ExecutionEnvelope) : res ExecutionEnvelope :=
  if (env_ExecutionID envelope == "") || (env_Revision envelope == 0%N)
     || (prg_ExecutionPointer (env_Progress envelope) == "") || negb (validRuntimeText [env_ExecutionID envelope])
     || negb (validMigrationText (env_Progress envelope))
  then Err ErrExecutionCorrupt
  else
    digest ← EnvelopeDigest envelope;
    Ok (envelope <| env_Digest := digest |>).

Definition ValidateExecutionIntegrity (envelope : ExecutionEnvelope) (id : string) (revision : N) : option error :=
  if (id == "") || (revision == 0%N) || (env_ExecutionID envelope != id) || (env_Revision envelope != revision)
     || negb (validRuntimeText [id]) || negb (validMigrationText (env_Progress envelope))
     || (prg_ExecutionPointer (env_Progress envelope) == "") || (env_Digest envelope == "")
  then corrupt
  else match EnvelopeDigest envelope with
  | Err err => Some err
  | Ok digest => if digest != env_Digest envelope then corrupt else None
  end.
End Sealing.

(** ** Source metadata and transfer anchors *)
Definition validateExecutionSourceMetadata (envelope : ExecutionEnvelope) : option error :=
  let transferred := match env_Terminal envelope with Some t => trm_Status t == RunStatusTransferred | None => false end in
  if match env_Rollover envelope with
     | Some l => negb (is_nil (validateRolloverLineage l)) || (rol_TargetID l != env_ExecutionID envelope)
     | None => false
     end then corrupt
  else if match env_Transfer envelope with
     | Some t => negb (is_nil (validateReceipt t))
                 || (ref_ExecutionID (rol_Source (rcp_Lineage t)) != env_ExecutionID envelope)
                 || (env_Revision envelope != rcp_SourceRevision t) || negb transferred
     | None => false
     end then corrupt
  else if transferred && is_nil (env_Transfer envelope) then corrupt
  else if match env_Fork envelope with
     | Some f => negb (is_nil (validateForkLineage f)) || (frk_TargetID f != env_ExecutionID envelope)
     | None => false
     end then corrupt
  else if match env_Import envelope with
     | Some i => (imp_ImporterID i == "") || negb (is_nil (validateLegacySource (imp_Source i)))
     | None => false
     end then Some (ErrExecutionImportInvalid : error)
  else match terminalFailureError (env_Terminal envelope) with
  | Some err => if errors_Is err ErrInvalidSnapshot then Some (ErrInvalidSnapshot : error) else None
  | None => None
  end.

Definition equalRolloverLineage (left right : option RolloverLineage) : bool := left == right.

Definition ValidateExecutionRolloverTransition (previous : option ExecutionEnvelope) (next : ExecutionEnvelope)
  : option error :=
  match previous with
  | None =>
      if negb (is_nil (env_Rollover next)) || negb (is_nil (env_Transfer next))
      then Some (ErrExecutionRolloverConflict : error) else None
  | Some p =>
      if negb (is_nil (env_Transfer p)) then Some (ErrExecutionTransferred : error)
      else if negb (equalRolloverLineage (env_Rollover p) (env_Rollover next)) || negb (is_nil (env_Transfer next))
      then corrupt else None
  end.

Definition ValidateExecutionLifecycleAnchors (envelope : ExecutionEnvelope) (incoming outgoing : option RolloverReceipt)
  : option error :=
  if negb (equalRolloverLineage (env_Rollover envelope) (rcp_Lineage <$> incoming)) then corrupt
  else if match incoming with
     | Some i => negb (is_nil (validateReceipt i)) || (ref_ExecutionID (rcp_Target i) != env_ExecutionID envelope)
     | None => false
     end then corrupt
  else if match incoming with
     | Some i => (env_Revision envelope == ref_Revision (rcp_Target i)) && (env_Digest envelope != ref_Digest (rcp_Target i))
     | None => false
     end then corrupt
  else match outgoing with
  | None => if negb (is_nil (env_Transfer envelope)) then corrupt else None
  | Some o =>
      let source := rol_Source (rcp_Lineage o) in
      if negb (is_nil (validateReceipt o)) || (ref_ExecutionID source != env_ExecutionID envelope) then corrupt
      else if (env_Revision envelope <? rcp_SourceRevision o)%N then
        if negb (is_nil (env_Transfer envelope)) then corrupt
        else if (env_Revision envelope == ref_Revision source) && (env_Digest envelope != ref_Digest source) then corrupt
        else None
      else if (env_Transfer envelope != Some o) || (env_Revision envelope != rcp_SourceRevision o)
           || match env_Terminal envelope with Some t => trm_Status t != RunStatusTransferred | None => true end
      then corrupt else None
  end.
