(* ===== verification/Wire.v ===== *)
(** * A concrete codec

    A self-delimiting encoding of the persisted data, for which decoding after encoding is
    proved. It is one lawful instance of [JsonCodec], used where a closed example of a
    theorem over any codec is evaluated; the runtime itself uses encoding/json. *)

From S2P Require Import Prelude Go Sha256 Json Identity Schedule Activity Waits Contract.

Class Wire (A : Type) := {
  put : A -> string;
  get : string -> option (A * string);
  get_put : forall a rest, get (put a +:+ rest) = Some (a, rest);
}.

Lemma app_str_nil (a : string) : a +:+ "" = a.
Proof. induction a as [|x a IH]; [done|]. by rewrite str_app_cons, IH. Qed.

(** ** Numbers *)
Fixpoint put_pos (p : positive) : string :=
  match p with xH => "." | xO q => String "0" (put_pos q) | xI q => String "1" (put_pos q) end.
Fixpoint get_pos (s : string) : option (positive * string) :=
  match s with
  | String "." r => Some (xH, r)
  | String "0" r => match get_pos r with Some (p, t) => Some (xO p, t) | None => None end
  | String "1" r => match get_pos r with Some (p, t) => Some (xI p, t) | None => None end
  | _ => None
  end.
Lemma get_put_pos p rest : get_pos (put_pos p +:+ rest) = Some (p, rest).
Proof.
  induction p as [p IH|p IH|]; cbn [put_pos]; rewrite ?str_app_cons; cbn [get_pos]; rewrite ?IH; done.
Qed.

#[export, refine] Instance wire_N : Wire N := {|
  put n := put_pos (N.succ_pos n);
  get s := match get_pos s with Some (p, t) => Some (Pos.pred_N p, t) | None => None end
|}.
Proof. intros n rest. rewrite get_put_pos, N.pos_pred_succ. done. Defined.

(** ** Combinators *)
#[export, refine] Instance wire_prod {A B} `{Wire A} `{Wire B} : Wire (A * B) := {|
  put ab := put ab.1 +:+ put ab.2;
  get s := match get s with
           | Some (a, t) => match get t with Some (b, u) => Some ((a, b), u) | None => None end
           | None => None
           end
|}.
Proof. intros [a b] rest. simpl. by rewrite <- str_app_assoc, !get_put. Defined.

Definition wire_iso {A B} `{Wire B} (to : A -> B) (from : B -> A) (law : forall a, from (to a) = a) : Wire A.
Proof.
  refine {| put a := put (to a); get s := match get s with Some (b, t) => Some (from b, t) | None => None end |}.
  intros a rest. by rewrite get_put, law.
Defined.

#[export, refine] Instance wire_unit : Wire unit := {| put _ := ""; get s := Some (tt, s) |}.
Proof. by intros [] rest. Defined.

(** A value followed by a flag: options and sums. *)
#[export, refine] Instance wire_option {A} `{Wire A} : Wire (option A) := {|
  put o := match o with None => "n" | Some a => String "s" (put a) end;
  get s := match s with
           | String "n" t => Some (None, t)
           | String "s" t => match get t with Some (a, u) => Some (Some a, u) | None => None end
           | _ => None
           end
|}.
Proof. intros [a|] rest; [|done]. by rewrite str_app_cons, get_put. Defined.

#[export] Instance wire_bool : Wire bool.
Proof.
  refine (wire_iso (fun b : bool => if b then Some tt else None) (fun o => match o with Some _ => true | None => false end) _).
  by intros [].
Defined.

#[export] Instance wire_Z : Wire Z.
Proof.
  refine (wire_iso (fun z => ((z <? 0)%Z, Z.to_N (Z.abs z))) (fun p => if p.1 then (- Z.of_N p.2)%Z else Z.of_N p.2) _).
  intros z. cbn [fst snd]. rewrite Z2N.id by lia. destruct (Z.ltb_spec z 0); lia.
Defined.

Definition put_list {A} `{Wire A} : list A -> string :=
  fix go l := match l with [] => "" | a :: r => put a +:+ go r end.
Definition get_list {A} `{Wire A} : nat -> string -> option (list A * string) :=
  fix go n s := match n with
  | O => Some ([], s)
  | S m => match get s with
           | Some (a, t) => match go m t with Some (l, u) => Some (a :: l, u) | None => None end
           | None => None
           end
  end.
Lemma get_put_list {A} `{Wire A} l rest : get_list (length l) (put_list l +:+ rest) = Some (l, rest).
Proof. induction l as [|a l IH]; [done|]. simpl. by rewrite <- str_app_assoc, get_put, IH. Qed.

#[export, refine] Instance wire_list {A} `{Wire A} : Wire (list A) := {|
  put l := put (N.of_nat (length l)) +:+ put_list l;
  get s := match get s with Some (n, t) => get_list (N.to_nat n) t | None => None end
|}.
Proof. intros l rest. by rewrite <- str_app_assoc, get_put, Nat2N.id, get_put_list. Defined.

#[export, refine] Instance wire_ascii : Wire ascii := {|
  put c := String c "";
  get s := match s with String c t => Some (c, t) | EmptyString => None end
|}.
Proof. done. Defined.
#[export] Instance wire_string : Wire string.
Proof.
  refine (wire_iso Stdlib.Strings.String.list_ascii_of_string Stdlib.Strings.String.string_of_list_ascii _).
  apply Stdlib.Strings.String.string_of_list_ascii_of_string.
Defined.
#[export] Instance wire_map {A} `{Wire A} : Wire (gmap string A).
Proof.
  refine (wire_iso (map_to_list : gmap string A -> list (string * A)) list_to_map _). apply list_to_map_to_list.
Defined.

(** ** The codec *)
#[export] Instance wire_codec {A} `{Wire A} : JsonCodec A := {|
  marshal a := Some (String "w" (put a));
  unmarshal s := match s with
                 | String "w" t => match get t with Some (a, EmptyString) => Some (Some a) | _ => None end
                 | _ => None
                 end
|}.
#[export] Instance wire_roundtrip {A} `{Wire A} : JsonRoundTrip A.
Proof.
  refine {| representable := fun _ => True |}.
  - intros a _. by eexists.
  - by intros a b [= <-].
  - intros a b _ [= <-]. cbn [unmarshal wire_codec]. pose proof (get_put a "") as Hg. rewrite app_str_nil in Hg. by rewrite Hg.
Defined.

(** ** The envelope *)
#[export] Instance wire_Location : Wire Location.
Proof.
  refine (wire_iso (fun l => match l with UTC => None | FixedZone o => Some o end)
    (fun o => match o with None => UTC | Some o => FixedZone o end) _). by intros [].
Defined.
#[export] Instance wire_Time : Wire Time.
Proof. refine (wire_iso (fun t => (time_ns t, time_loc t)) (fun p => mkTime p.1 p.2) _). by intros []. Defined.
#[export] Instance wire_StepReplayMode : Wire StepReplayMode.
Proof.
  refine (wire_iso (fun m => match m with StepReplaySafe => None | ReplayModeOther s => Some s end)
    (fun o => match o with None => StepReplaySafe | Some s => ReplayModeOther s end) _). by intros [].
Defined.
#[export] Instance wire_StepReplayPolicy : Wire StepReplayPolicy.
Proof. refine (wire_iso (fun p => (rpl_Label p, rpl_Mode p)) (fun p => mkReplayPolicy p.1 p.2) _). by intros []. Defined.
#[export] Instance wire_ExecutionDescriptor : Wire ExecutionDescriptor.
Proof.
  refine (wire_iso (fun d => (dsc_GraphID d, dsc_GraphRevision d, dsc_StateCodec d, dsc_EffectsCodec d, dsc_ExecutionContract d,
    dsc_ReplayPolicy d)) (fun '(a, b, c, d, e, f) => mkDescriptor a b c d e f) _). by intros [].
Defined.
#[export] Instance wire_Profile : Wire WaitCapabilityProfile.
Proof.
  refine (wire_iso (fun p => (prf_Label p, prf_JournalOwner p, prf_LeaseOwner p, prf_TimerOwner p, prf_ClockOwner p, prf_RetryOwner p, prf_RecoveryOwner p))
    (fun '(a, b, c, d, e, f, g) => mkProfile a b c d e f g) _). by intros [].
Defined.
#[export] Instance wire_Progress : Wire ExecutionProgress.
Proof.
  refine (wire_iso (fun p => (prg_StatePayload p, prg_ExecutionPointer p, prg_ChildCursors p, prg_JournalReferences p,
    prg_ChildGroupReferences p)) (fun '(a, b, c, d, e) => mkProgress a b c d e) _). by intros [].
Defined.
#[export] Instance wire_RunStatus : Wire RunStatus.
Proof.
  refine (wire_iso (fun s => match s with
    | RunStatusCompleted => (0%N, "") | RunStatusTransferred => (1%N, "") | RunStatusSuspended => (2%N, "")
    | RunStatusContextCanceled => (3%N, "") | RunStatusFailed => (4%N, "") | RunStatusHandoff => (5%N, "")
    | RunStatusOther t => (6%N, t) end)
    (fun p => match p.1 with
    | 0%N => RunStatusCompleted | 1%N => RunStatusTransferred | 2%N => RunStatusSuspended | 3%N => RunStatusContextCanceled
    | 4%N => RunStatusFailed | 5%N => RunStatusHandoff | _ => RunStatusOther p.2 end) _). by intros [].
Defined.
#[export] Instance wire_EndReason : Wire SegmentEndReason.
Proof.
  refine (wire_iso (fun s => match s with
    | SegmentOpen => (0%N, "") | SegmentEndSuspend => (1%N, "") | SegmentEndComplete => (2%N, "") | SegmentEndFail => (3%N, "")
    | SegmentEndHandoff => (4%N, "") | SegmentEndContextCanceled => (5%N, "") | SegmentEndOther t => (6%N, t) end)
    (fun p => match p.1 with
    | 0%N => SegmentOpen | 1%N => SegmentEndSuspend | 2%N => SegmentEndComplete | 3%N => SegmentEndFail
    | 4%N => SegmentEndHandoff | 5%N => SegmentEndContextCanceled | _ => SegmentEndOther p.2 end) _). by intros [].
Defined.
#[export] Instance wire_Segment : Wire SegmentInfo.
Proof.
  refine (wire_iso (fun s => (seg_SegmentID s, seg_StartTime s, seg_EndTime s, seg_EndReason s))
    (fun '(a, b, c, d) => mkSegment a b c d) _). by intros [].
Defined.
#[export] Instance wire_HandoffStatus : Wire HandoffStatus.
Proof.
  refine (wire_iso (fun s => match s with
    | HandoffStatusNone => (0%N, "") | HandoffStatusPending => (1%N, "") | HandoffStatusEnqueued => (2%N, "")
    | HandoffStatusOrphaned => (3%N, "") | HandoffStatusOther t => (4%N, t) end)
    (fun p => match p.1 with
    | 0%N => HandoffStatusNone | 1%N => HandoffStatusPending | 2%N => HandoffStatusEnqueued | 3%N => HandoffStatusOrphaned
    | _ => HandoffStatusOther p.2 end) _). by intros [].
Defined.
#[export] Instance wire_RunMeta : Wire RunMetadata.
Proof.
  refine (wire_iso (fun m => (met_Segment m, met_SegmentStartTime m, met_RetryCounts m, met_BudgetCounts m, met_StepCount m,
    met_TelemetryContext m, met_HandoffStatus m, met_HandoffPendingAt m))
    (fun '(a, b, c, d, e, f, g, h) => mkRunMeta a b c d e f g h) _). by intros [].
Defined.
#[export] Instance wire_Terminal : Wire ExecutionTerminal.
Proof.
  refine (wire_iso (fun t => (trm_Status t, trm_Reason t, flr_Message <$> trm_Failure t))
    (fun '(a, b, c) => mkTerminal a b (mkFailure <$> c)) _). by intros [? ? [[]|]].
Defined.
#[export] Instance wire_Migration : Wire MigrationProvenance.
Proof.
  refine (wire_iso (fun m => (mgp_SourceRevision m, mgp_SourceDigest m, mgp_Chain m))
    (fun '(a, b, c) => mkMigrationProvenance a b c) _). by intros [].
Defined.
#[export] Instance wire_Reference : Wire HistoricalCheckpointReference.
Proof.
  refine (wire_iso (fun s => (ref_ExecutionID s, ref_Revision s, ref_Digest s)) (fun '(a, b, c) => mkReference a b c) _). by intros [].
Defined.
#[export] Instance wire_Legacy : Wire LegacyExecutionSource.
Proof.
  refine (wire_iso (fun s => (leg_ID s, leg_Revision s, leg_Format s, leg_Digest s, leg_Payload s))
    (fun '(a, b, c, d, e) => mkLegacySource a b c d e) _). by intros [].
Defined.
#[export] Instance wire_Import : Wire ImportProvenance.
Proof. refine (wire_iso (fun i => (imp_Source i, imp_ImporterID i)) (fun p => mkImport p.1 p.2) _). by intros []. Defined.
#[export] Instance wire_ForkMode : Wire ForkActivityMode.
Proof.
  refine (wire_iso (fun m => match m with NotForked => (0%N, "") | ForkFake => (1%N, "") | ForkLive => (2%N, "") | ForkModeOther s => (3%N, s) end)
    (fun p => match p.1 with 0%N => NotForked | 1%N => ForkFake | 2%N => ForkLive | _ => ForkModeOther p.2 end) _). by intros [].
Defined.
#[export] Instance wire_Fork : Wire ForkLineage.
Proof.
  refine (wire_iso (fun f => (frk_Source f, frk_SourceDescriptor f, frk_TargetDescriptor f, frk_TargetID f, frk_Mode f,
    frk_PolicyLabel f, frk_TransformLabel f, frk_ProjectionLabel f, frk_CreatedAt f))
    (fun '(a, b, c, d, e, f, g, h, i) => mkForkLineage a b c d e f g h i) _). by intros [].
Defined.
#[export] Instance wire_RolloverPolicy : Wire RolloverPolicy.
Proof.
  refine (wire_iso (fun p => (rpo_Label p, rpo_MaxRecords p, rpo_MaxAggregateBytes p, rpo_MaxTargetBytes p))
    (fun '(a, b, c, d) => mkRolloverPolicy a b c d) _). by intros [].
Defined.
#[export] Instance wire_RolloverLineage : Wire RolloverLineage.
Proof.
  refine (wire_iso (fun l => (rol_Source l, rol_SourceDescriptor l, rol_TargetDescriptor l, rol_TargetID l, rol_DecisionID l,
    rol_Policy l, rol_ProjectionLabel l, rol_RequestDigest l, rol_CreatedAt l))
    (fun '(a, b, c, d, e, f, g, h, i) => mkRolloverLineage a b c d e f g h i) _). by intros [].
Defined.
#[export] Instance wire_Receipt : Wire RolloverReceipt.
Proof.
  refine (wire_iso (fun r => (rcp_Lineage r, rcp_Target r, rcp_SourceRevision r)) (fun '(a, b, c) => mkReceipt a b c) _). by intros [].
Defined.
#[export] Instance wire_Envelope : Wire ExecutionEnvelope.
Proof.
  refine (wire_iso (fun e => ((env_ExecutionID e, env_Revision e, env_Digest e, env_Descriptor e, env_RuntimeProfile e, env_Progress e,
    env_EffectsPayload e, env_JournalPayload e, env_ChildrenPayload e), (env_WaitsPayload e, env_RunMeta e, env_Activation e,
    env_Terminal e, env_Migration e, env_Import e, env_Rollover e, env_Transfer e, env_Fork e)))
    (fun '((a, b, c, d, e, f, g, h, i), (j, k, l, m, n, o, p, q, r)) => mkEnvelope a b c d e f g h i j k l m n o p q r) _).
  by intros [].
Defined.
