(* ===== verification/Migration.v ===== *)
(** * Execution migrations

    The registry walk and the transformation of execution_contract.go:
    [executionMigrationChain], [validateEffectsMigrationChain], [applyExecutionMigration]
    and [PrepareExecutionMigration]. Transformations are host functions; a nil function is
    [None]. *)

From S2P Require Import Prelude Go Sha256 Json Identity Schedule Activity Waits Contract.

Record ExecutionMigration := mkMigration {
  mig_ID : string;
  mig_Source : ExecutionDescriptor;
  mig_Target : ExecutionDescriptor;
  mig_Transform : option (ExecutionProgress -> res ExecutionProgress);
  mig_EffectsTransform : option (string -> res string);
}.

(** ** The chain *)

(** The maps [edges] and [ids] are the list of migrations accepted so far. *)
Definition find_edge (edges : list ExecutionMigration) (d : ExecutionDescriptor) : option ExecutionMigration :=
  List.find (fun m => mig_Source m == d) edges.

Definition validMigration (m : ExecutionMigration) : bool :=
  (mig_ID m != "") && validRuntimeText [mig_ID m] && negb (is_nil (mig_Transform m))
  && is_nil (validateDescriptor (mig_Source m)) && is_nil (validateDescriptor (mig_Target m)).

(** The registry loop. *)
Fixpoint collectEdges (edges registry : list ExecutionMigration) : res (list ExecutionMigration) :=
  match registry with
  | [] => Ok edges
  | m :: rest =>
      if negb (validMigration m) || existsb (fun x => mig_ID x == mig_ID m) edges
         || negb (is_nil (find_edge edges (mig_Source m)))
      then Err ErrMigrationInvalid
      else collectEdges (edges ++ [m]) rest
  end.

(** The loop [for source != target]; [None] means the fuel is spent. *)
Fixpoint chainLoop (fuel : nat) (edges : list ExecutionMigration) (target source : ExecutionDescriptor)
    (visited : list ExecutionDescriptor) : option (res (list ExecutionMigration)) :=
  match fuel with
  | O => None
  | S fuel =>
      if source == target then Some (Ok [])
      else if bool_decide (source ∈ visited) then Some (Err ErrMigrationInvalid)
      else match find_edge edges source with
      | None => Some (Err ErrMigrationMissing)
      | Some m =>
          match chainLoop fuel edges target (mig_Target m) (source :: visited) with
          | None => None
          | Some (Err e) => Some (Err e)
          | Some (Ok chain) => Some (Ok (m :: chain))
          end
      end
  end.

(** Every round but the last two marks a new source of an edge, so two more rounds than
    there are edges always suffice ([chainLoop_total]). *)
Definition executionMigrationChain (source target : ExecutionDescriptor) (registry : list ExecutionMigration)
  : option (res (list ExecutionMigration)) :=
  match collectEdges [] registry with
  | Err e => Some (Err e)
  | Ok edges => chainLoop (S (S (length edges))) edges target source []
  end.

(** ** Applying it *)
Definition validateEffectsMigrationChain (chain : list ExecutionMigration) : option error :=
  if forallb (fun m => negb ((dsc_EffectsCodec (mig_Source m) != dsc_EffectsCodec (mig_Target m))
                             && is_nil (mig_EffectsTransform m))) chain
  then None else Some (ErrMigrationInvalid : error).

Definition applyExecutionMigration (result : ExecutionEnvelope) (m : ExecutionMigration) : res ExecutionEnvelope :=
  match mig_Transform m with
  | None => Err ErrMigrationInvalid
  | Some transform =>
      match transform (env_Progress result) with
      | Err e => Err (ErrJoin ErrMigrationInvalid e)
      | Ok progress =>
          let result := result <| env_Progress := progress |> in
          match mig_EffectsTransform m with
          | None => Ok (result <| env_Descriptor := mig_Target m |>)
          | Some effects =>
              match effects (env_EffectsPayload result) with
              | Err e => Err (ErrJoin ErrMigrationInvalid e)
              | Ok payload => Ok (result <| env_EffectsPayload := payload |> <| env_Descriptor := mig_Target m |>)
              end
          end
      end
  end.

Fixpoint applyChain (result : ExecutionEnvelope) (chain : list ExecutionMigration) : res ExecutionEnvelope :=
  match chain with
  | [] => Ok result
  | m :: rest => result ← applyExecutionMigration result m; applyChain result rest
  end.

Section Prepare.
Context `{JsonCodec ExecutionEnvelope}.

Definition PrepareExecutionMigration (source : ExecutionEnvelope) (target : ExecutionDescriptor)
    (registry : list ExecutionMigration) (validatePointer : option (ExecutionPointer -> option error))
  : option (res ExecutionEnvelope) :=
  match validatePointer with
  | None => Some (Err ErrMigrationInvalid)
  | Some validate =>
      match ValidateExecutionIntegrity source (env_ExecutionID source) (env_Revision source) with
      | Some e => Some (Err (ErrJoin ErrMigrationInvalid e))
      | None =>
      match validateDescriptor (env_Descriptor source) with
      | Some e => Some (Err e)
      | None =>
      match validateDescriptor target with
      | Some e => Some (Err e)
      | None =>
      match executionMigrationChain (env_Descriptor source) target registry with
      | None => None
      | Some (Err e) => Some (Err e)
      | Some (Ok chain) => Some (
          check (validateEffectsMigrationChain chain);;
          result ← applyChain source chain;
          if (prg_ExecutionPointer (env_Progress result) == "") || negb (validMigrationText (env_Progress result))
          then Err ErrMigrationInvalid
          else match validate (prg_ExecutionPointer (env_Progress result)) with
          | Some e => Err (ErrJoin ErrMigrationInvalid e)
          | None =>
              match chain with
              | [] => Ok result
              | _ => Ok (result <| env_Migration :=
                      Some (mkMigrationProvenance (env_Revision source) (env_Digest source) (map mig_ID chain)) |>)
              end
          end)
      end end end end
  end.
End Prepare.

(** ** Theorems *)

(** A path through the registry: each step leaves the descriptor the previous one reached. *)
Inductive migration_path (registry : list ExecutionMigration) (target : ExecutionDescriptor)
  : ExecutionDescriptor -> list ExecutionMigration -> Prop :=
| PathEnd : migration_path registry target target []
| PathStep m chain : m ∈ registry -> mig_Source m <> target -> migration_path registry target (mig_Target m) chain ->
    migration_path registry target (mig_Source m) (m :: chain).

Lemma find_edge_Some edges d m : find_edge edges d = Some m -> m ∈ edges /\ mig_Source m = d.
Proof.
  intros H. apply find_some in H as [Hin E]. apply bool_decide_eq_true in E. split; [by apply list_elem_of_In|done].
Qed.

Definition unique_sources (edges : list ExecutionMigration) : Prop := NoDup (mig_Source <$> edges).

Lemma find_edge_unique edges m : unique_sources edges -> m ∈ edges -> find_edge edges (mig_Source m) = Some m.
Proof.
  unfold unique_sources, find_edge. induction edges as [|x edges IH]; intros Hn Hin; [by apply not_elem_of_nil in Hin|].
  rewrite fmap_cons in Hn. apply NoDup_cons in Hn as [Hx Hn]. simpl.
  apply elem_of_cons in Hin as [->|Hin]; [by rewrite bool_decide_eq_true_2|].
  rewrite bool_decide_eq_false_2; [by apply IH|]. intros E. apply Hx. rewrite E. by apply list_elem_of_fmap_2.
Qed.

Lemma collectEdges_Ok edges registry out : collectEdges edges registry = Ok out -> unique_sources edges ->
  out = edges ++ registry /\ unique_sources out /\ Forall (fun m => validMigration m = true) registry.
Proof.
  revert edges. induction registry as [|m rest IH]; intros edges H Hu; simpl in H.
  - simplify_eq. rewrite app_nil_r. by split_and!.
  - guard_in H; [done|]. apply orb_false_iff in Hg as [Hg Hf]. apply orb_false_iff in Hg as [Hv _].
    apply negb_false_iff in Hv. apply IH in H as (-> & Hu' & Hall).
    + rewrite <- app_assoc. by split_and!; [|rewrite <- app_assoc in Hu'|constructor].
    + unfold unique_sources in *. rewrite fmap_app. apply NoDup_app. split_and!; [done| |apply NoDup_singleton].
      intros d Hd Hm. apply list_elem_of_singleton in Hm as ->. apply list_elem_of_fmap in Hd as (x & Ex & Hx).
      rewrite Ex, (find_edge_unique edges x Hu Hx) in Hf. done.
Qed.

Lemma chainLoop_total edges target fuel : forall source visited,
  NoDup visited -> visited ⊆ mig_Source <$> edges -> (length edges + 2 <= fuel + length visited)%nat ->
  chainLoop fuel edges target source visited <> None.
Proof.
  induction fuel as [|fuel IH]; intros source visited Hn Hs Hl.
  - pose proof (submseteq_length _ _ (NoDup_submseteq visited (mig_Source <$> edges) Hn ltac:(set_solver))) as Hle.
    rewrite length_fmap in Hle. lia.
  - simpl. case_bool_decide; [done|]. case_bool_decide; [done|].
    destruct (find_edge edges source) as [m|] eqn:Hf; [|done]. apply find_edge_Some in Hf as [Hin Hm].
    pose proof (IH (mig_Target m) (source :: visited)) as HI.
    destruct (chainLoop fuel edges target (mig_Target m) (source :: visited)) as [[]|]; try done.
    exfalso. apply HI; [by constructor| |simpl; lia|done].
    intros x Hx. apply elem_of_cons in Hx as [->|Hx]; [|by apply Hs]. rewrite <- Hm. by apply list_elem_of_fmap_2.
Qed.

Lemma chainLoop_sound edges target fuel : forall source visited chain,
  chainLoop fuel edges target source visited = Some (Ok chain) -> migration_path edges target source chain.
Proof.
  induction fuel as [|fuel IH]; intros source visited chain H; [done|]. simpl in H.
  case_bool_decide as E; [simplify_eq; constructor|]. case_bool_decide; [done|].
  destruct (find_edge edges source) as [m|] eqn:Hf; [|done]. apply find_edge_Some in Hf as [Hin <-].
  destruct (chainLoop fuel _ _ _ _) as [[rest|]|] eqn:Hc; simplify_eq. constructor; [done..|]. by eapply IH.
Qed.

(** Descriptors have at most one outgoing edge, so the path is unique. *)
Lemma path_unique edges target source chain : unique_sources edges -> migration_path edges target source chain ->
  forall chain', migration_path edges target source chain' -> chain' = chain.
Proof.
  intros Hu. induction 1 as [|m chain Hin Hne Hp IH]; intros chain' Hp'.
  - inversion Hp'; [done|congruence].
  - inversion Hp' as [|m' c' Hin' Hne' Hp'']; [congruence|]. subst.
    assert (m' = m) as ->.
    { pose proof (find_edge_unique edges m Hu Hin) as E. rewrite <- H in E.
      rewrite (find_edge_unique edges m' Hu Hin') in E. congruence. }
    f_equal. by apply IH.
Qed.

(** Hence it visits no descriptor twice. *)
Lemma path_suffix edges target source chain : migration_path edges target source chain ->
  forall m, m ∈ chain -> exists rest, migration_path edges target (mig_Source m) (m :: rest) /\ length rest < length chain.
Proof.
  induction 1 as [|m chain Hin Hne Hp IH]; intros x Hx; [by apply not_elem_of_nil in Hx|].
  apply elem_of_cons in Hx as [->|Hx]; [exists chain; split; [by constructor|simpl; lia]|].
  destruct (IH x Hx) as (rest & ? & ?). exists rest. split; [done|simpl; lia].
Qed.

Lemma path_simple edges target m chain : unique_sources edges -> migration_path edges target (mig_Source m) (m :: chain) ->
  forall x, x ∈ chain -> mig_Source x <> mig_Source m.
Proof.
  intros Hu Hp x Hx E. inversion Hp as [|m' c' Hin Hne Hp']; subst.
  destruct (path_suffix _ _ _ _ Hp' x Hx) as (rest & Hr & Hlen). rewrite E in Hr.
  pose proof (path_unique _ _ _ _ Hu Hp _ Hr) as Eq. simplify_eq. lia.
Qed.

Lemma chainLoop_complete edges target source chain : unique_sources edges -> migration_path edges target source chain ->
  forall fuel visited, (length chain < fuel)%nat -> (forall x, x ∈ chain -> mig_Source x ∉ visited) ->
  chainLoop fuel edges target source visited = Some (Ok chain).
Proof.
  intros Hu. induction 1 as [|m chain Hin Hne Hp IH]; intros fuel visited Hl Hv;
    (destruct fuel as [|fuel]; [simpl in Hl; lia|]); simpl.
  - by rewrite bool_decide_eq_true_2.
  - rewrite bool_decide_eq_false_2 by done. rewrite bool_decide_eq_false_2 by (apply Hv; set_solver).
    rewrite (find_edge_unique edges m Hu Hin), IH; [done|simpl in Hl; lia|].
    intros x Hx Hc. apply elem_of_cons in Hc as [Hc|Hc]; [|apply (Hv x); set_solver].
    by apply (path_simple edges target m chain Hu ltac:(by constructor) x Hx).
Qed.

Lemma path_length edges target source chain : unique_sources edges -> migration_path edges target source chain ->
  (length chain <= length edges)%nat.
Proof.
  intros Hu Hp.
  assert (Hn : NoDup (mig_Source <$> chain) /\ (mig_Source <$> chain) ⊆ mig_Source <$> edges).
  { induction Hp as [|m chain Hin Hne Hp IH]; [split; [constructor|set_solver]|]. destruct IH as [IH1 IH2].
    rewrite fmap_cons. split.
    - constructor; [|done]. intros Hc. apply list_elem_of_fmap in Hc as (x & Ex & Hx).
      apply (path_simple edges target m chain Hu ltac:(by constructor) x Hx). done.
    - intros d Hd. apply elem_of_cons in Hd as [->|Hd]; [by apply list_elem_of_fmap_2|by apply IH2]. }
  destruct Hn as [Hn Hs]. pose proof (submseteq_length _ _ (NoDup_submseteq _ (mig_Source <$> edges) Hn ltac:(set_solver))) as H.
  by rewrite !length_fmap in H.
Qed.

(** A registry that is accepted: every migration is complete, no identifier occurs twice and no
    descriptor has two migrations. *)
Definition valid_registry (registry : list ExecutionMigration) : Prop :=
  Forall (fun m => validMigration m = true) registry /\ NoDup (mig_ID <$> registry) /\ unique_sources registry.

Lemma find_edge_None edges d : find_edge edges d = None <-> d ∉ mig_Source <$> edges.
Proof.
  split.
  - intros Hf Hd. apply list_elem_of_fmap in Hd as (x & -> & Hx). apply list_elem_of_In in Hx.
    pose proof (find_none _ _ Hf x Hx) as Hn. by apply bool_decide_eq_false in Hn.
  - intros Hd. destruct (find_edge edges d) as [m|] eqn:Hf; [|done]. apply find_edge_Some in Hf as [Hin <-]. destruct Hd. by apply list_elem_of_fmap_2.
Qed.
Lemma known_id edges m : existsb (fun x => mig_ID x == mig_ID m) edges = true <-> mig_ID m ∈ mig_ID <$> edges.
Proof.
  rewrite existsb_exists, list_elem_of_fmap. split.
  - intros (x & Hx & E). apply bool_decide_eq_true in E. exists x. split; [done|by apply list_elem_of_In].
  - intros (x & E & Hx). exists x. split; [by apply list_elem_of_In|by apply bool_decide_eq_true].
Qed.
Lemma collectEdges_spec registry : forall edges, NoDup (mig_ID <$> edges) -> unique_sources edges -> Forall (fun m => validMigration m = true) edges ->
  (valid_registry (edges ++ registry) /\ collectEdges edges registry = Ok (edges ++ registry)) \/
  (~ valid_registry (edges ++ registry) /\ collectEdges edges registry = Err ErrMigrationInvalid).
Proof.
  induction registry as [|m rest IH]; intros edges Hi Hu Hv; simpl.
  - left. rewrite app_nil_r. by split.
  - assert (Happ : edges ++ m :: rest = (edges ++ [m]) ++ rest) by by rewrite <- app_assoc. destruct (_ || _) eqn:Hg.
    + right. split; [|done]. intros (Hva & Hid & Hun). rewrite !orb_true_iff, negb_true_iff, known_id in Hg.
      rewrite fmap_app, fmap_cons in Hid. unfold unique_sources in Hun. rewrite fmap_app, fmap_cons in Hun.
      apply NoDup_app in Hid as (_ & Hid & _). apply NoDup_app in Hun as (_ & Hun & _). apply Forall_app in Hva as [_ Hva]. apply Forall_cons in Hva as [Hva _].
      destruct Hg as [[Hg|Hg]|Hg]; [congruence|by apply (Hid _ Hg); left|].
      destruct (find_edge edges (mig_Source m)) as [x|] eqn:Hf; [|done]. apply find_edge_Some in Hf as [Hx Ex].
      apply (Hun (mig_Source m)); [rewrite <- Ex; by apply list_elem_of_fmap_2|by left].
    + rewrite !orb_false_iff, !negb_false_iff, is_nil_true, find_edge_None in Hg. destruct Hg as ((Hg1 & Hg2) & Hg3).
      assert (mig_ID m ∉ mig_ID <$> edges) as Hg2' by (rewrite <- known_id; congruence).
      rewrite Happ. apply IH.
      * rewrite fmap_app. apply NoDup_app. split_and!; [done| |apply NoDup_singleton]. by intros d Hd ->%list_elem_of_singleton.
      * unfold unique_sources. rewrite fmap_app. apply NoDup_app. split_and!; [done| |apply NoDup_singleton]. by intros d Hd ->%list_elem_of_singleton.
      * apply Forall_app. split; [done|by constructor].
Qed.

(** Where the walk from a descriptor can get: along migrations that do not leave the target. *)
Inductive migration_walk (registry : list ExecutionMigration) (target : ExecutionDescriptor) : ExecutionDescriptor -> ExecutionDescriptor -> Prop :=
| WalkHere d : migration_walk registry target d d
| WalkStep m d : m ∈ registry -> mig_Source m <> target -> migration_walk registry target (mig_Target m) d ->
    migration_walk registry target (mig_Source m) d.
(** It stops short of the target at a descriptor without a migration. *)
Definition dead_end (registry : list ExecutionMigration) (target source : ExecutionDescriptor) : Prop :=
  exists d, migration_walk registry target source d /\ d <> target /\ forall m, m ∈ registry -> mig_Source m <> d.
(** It comes back to a descriptor it left. *)
Definition runs_in_circle (registry : list ExecutionMigration) (target source : ExecutionDescriptor) : Prop :=
  exists m, m ∈ registry /\ mig_Source m <> target /\ migration_walk registry target source (mig_Source m) /\
    migration_walk registry target (mig_Target m) (mig_Source m).

Section Walk.
Context (edges : list ExecutionMigration) (target : ExecutionDescriptor) (Hu : unique_sources edges).
#[local] Notation walk := (migration_walk edges target).
#[local] Notation path := (migration_path edges target).

Lemma same_edge m m' : m ∈ edges -> m' ∈ edges -> mig_Source m' = mig_Source m -> m' = m.
Proof.
  intros H1 H2 E. pose proof (find_edge_unique _ _ Hu H1) as F1. pose proof (find_edge_unique _ _ Hu H2) as F2. congruence.
Qed.
Lemma walk_trans a b c : walk a b -> walk b c -> walk a c.
Proof. induction 1; [done|]. intros. constructor; auto. Qed.
Lemma walk_edge m : m ∈ edges -> mig_Source m <> target -> walk (mig_Source m) (mig_Target m).
Proof. intros. constructor; [done..|constructor]. Qed.
Lemma walk_path a d : walk a d -> forall chain, path a chain -> exists rest, path d rest /\ length rest <= length chain.
Proof.
  induction 1 as [d|m d Hin Hne Hw IH]; intros chain Hp; [by exists chain|].
  inversion Hp as [|m' c' Hin' Hne' Hp' E]; [congruence|]. subst. rewrite (same_edge m m' Hin Hin' E) in *.
  destruct (IH _ Hp') as (rest & ? & ?). exists rest. split; [done|simpl; lia].
Qed.
Lemma walk_linear a b c : walk a b -> walk a c -> walk b c \/ walk c b.
Proof.
  intros Hb. revert c. induction Hb as [b|m b Hin Hne Hw IH]; intros c Hc; [by left|].
  inversion Hc as [d E|m' d Hin' Hne' Hw' E]; subst; [right; by constructor|].
  rewrite (same_edge m m' Hin Hin' E) in *. by apply IH.
Qed.

Lemma path_no_dead_end source chain : path source chain -> ~ dead_end edges target source.
Proof.
  intros Hp (d & Hw & Hd & Hno). destruct (walk_path _ _ Hw _ Hp) as (rest & Hr & _). inversion Hr as [|m c Hin _ _]; subst; [done|]. by apply (Hno m).
Qed.
Lemma path_no_circle source chain : path source chain -> ~ runs_in_circle edges target source.
Proof.
  intros Hp (m & Hin & Hne & Hw & Hback). destruct (walk_path _ _ Hw _ Hp) as (rest & Hr & _).
  inversion Hr as [|m' c Hin' _ Hr' E]; subst; [done|]. rewrite (same_edge m m' Hin Hin' E) in *.
  destruct (walk_path _ _ Hback _ Hr') as (rest' & Hr2 & Hlen). rewrite (path_unique _ _ _ _ Hu Hr _ Hr2) in Hlen. simpl in Hlen. lia.
Qed.
Lemma circle_no_dead_end source : runs_in_circle edges target source -> ~ dead_end edges target source.
Proof.
  intros (m & Hin & Hne & Hw & Hback) (d & Hwd & Hd & Hno).
  assert (Hout : forall x, walk x (mig_Source m) -> exists m', m' ∈ edges /\ mig_Source m' = x).
  { intros x Hx. inversion Hx as [y E|m' y Hin' _ _ E]; subst; [by exists m|by exists m']. }
  assert (Hstay : forall x y, walk x y -> walk x (mig_Source m) -> walk y (mig_Source m)).
  { intros x y Hxy. induction Hxy as [y|m' y Hin' Hne' _ IH]; intros Hx; [done|]. apply IH.
    inversion Hx as [z E|m2 z Hin2 _ Hx2 E]; subst; [by rewrite (same_edge m m' Hin Hin')|by rewrite (same_edge m2 m' Hin2 Hin')]. }
  destruct (walk_linear _ _ _ Hw Hwd) as [Hx|Hx].
  - destruct (Hout d) as (m' & Hm' & E); [by apply (Hstay _ _ Hx), WalkHere|]. by apply (Hno m').
  - destruct (Hout d Hx) as (m' & Hm' & E). by apply (Hno m').
Qed.

(** What the loop means by its errors. *)
Lemma chainLoop_error start fuel : forall source visited err, walk start source ->
  (forall v, v ∈ visited -> exists m, m ∈ edges /\ mig_Source m = v /\ v <> target /\ walk start v /\ walk (mig_Target m) source) ->
  chainLoop fuel edges target source visited = Some (Err err) ->
  (err = ErrMigrationMissing /\ dead_end edges target start) \/ (err = ErrMigrationInvalid /\ runs_in_circle edges target start).
Proof.
  induction fuel as [|fuel IH]; intros source visited err Hs Hv Hc; [done|]. simpl in Hc.
  case_bool_decide as Et; [done|]. case_bool_decide as Hvis.
  { injection Hc as <-. right. split; [done|]. destruct (Hv _ Hvis) as (m & Hin & <- & Hne & Hw & Hback). by exists m. }
  destruct (find_edge edges source) as [m|] eqn:Hf.
  - apply find_edge_Some in Hf as [Hin <-]. destruct (chainLoop fuel _ _ _ _) as [[|e]|] eqn:Hl; try done. injection Hc as ->.
    apply IH in Hl; [done|eapply walk_trans; [exact Hs|by apply walk_edge]|].
    intros v [->|Hin']%elem_of_cons.
    + exists m. split_and!; try done. constructor.
    + destruct (Hv _ Hin') as (m' & ? & ? & ? & ? & Hb). exists m'. split_and!; try done. eapply walk_trans; [exact Hb|by apply walk_edge].
  - injection Hc as <-. left. split; [done|]. exists source. split_and!; [done..|]. intros m Hin E.
    apply find_edge_None in Hf. destruct Hf. rewrite <- E. by apply list_elem_of_fmap_2.
Qed.
End Walk.

(** C15: the migration walk terminates and finds exactly the path. For every source, target
    and registry it returns within the fuel. It returns a chain if and only if the registry is
    valid and the chain is a path of registered migrations from the source descriptor to the
    first arrival at the target, and there is at most one; it reports that a migration is
    missing if and only if the registry is valid and the walk stops short of the target, at a
    descriptor without a migration; and it reports an invalid migration if and only if the
    registry is not valid, or is and the walk comes back to a descriptor that it left. There
    is no other error. *)
Theorem migration_chain_correct (source target : ExecutionDescriptor) (registry : list ExecutionMigration) :
  (exists r, executionMigrationChain source target registry = Some r /\
     forall err, r = Err err -> err = ErrMigrationMissing \/ err = ErrMigrationInvalid) /\
  (forall chain, executionMigrationChain source target registry = Some (Ok chain) <->
     valid_registry registry /\ migration_path registry target source chain) /\
  (executionMigrationChain source target registry = Some (Err ErrMigrationMissing) <->
     valid_registry registry /\ dead_end registry target source) /\
  (executionMigrationChain source target registry = Some (Err ErrMigrationInvalid) <->
     ~ valid_registry registry \/ (valid_registry registry /\ runs_in_circle registry target source)).
Proof.
  unfold executionMigrationChain.
  destruct (collectEdges_spec registry []) as [[Hval ->]|[Hval ->]]; [constructor..| |]; rewrite app_nil_l in *; cycle 1.
  { split_and!; [exists (Err ErrMigrationInvalid); split; [done|intros err [= <-]; by right]|..].
    - by split; [|intros []].
    - by split; [|intros []].
    - split; [by left|done]. }
  pose proof Hval as (_ & _ & Hu). pose proof (chainLoop_total registry target (S (S (length registry))) source []) as Ht.
  destruct (chainLoop _ _ _ _ _) as [r|] eqn:Hl; cycle 1.
  { exfalso. apply Ht; [constructor|set_solver|simpl; lia|done]. }
  assert (Hok : forall chain, migration_path registry target source chain -> r = Ok chain).
  { intros chain Hp. pose proof (chainLoop_complete _ _ _ _ Hu Hp (S (S (length registry))) []) as Hx. rewrite Hl in Hx.
    pose proof (path_length _ _ _ _ Hu Hp). by injection Hx as ->; [|lia|set_solver]. }
  destruct r as [chain|err].
  - apply chainLoop_sound in Hl. split_and!; [by exists (Ok chain)|..].
    + intros c. split; [by intros [= <-]|]. intros [_ Hp]. by rewrite (path_unique _ _ _ _ Hu Hl _ Hp).
    + split; [done|]. intros [_ Hd]. by destruct (path_no_dead_end _ _ Hu _ _ Hl).
    + split; [done|]. intros [?|[_ Hd]]; [done|]. by destruct (path_no_circle _ _ Hu _ _ Hl).
  - apply (chainLoop_error _ _ source) in Hl; [|constructor|by intros v ?%not_elem_of_nil].
    split_and!; [exists (Err err); split; [done|]; intros e [= <-]; tauto|..].
    + intros c. split; [done|]. intros [_ Hp]. by apply Hok in Hp.
    + destruct Hl as [[-> Hd]|[-> Hd]]; [by split|]. split; [done|]. intros [_ Hx]. by destruct (circle_no_dead_end _ _ Hu _ Hd).
    + destruct Hl as [[-> Hd]|[-> Hd]]; [|split; [by right|done]]. split; [done|]. intros [?|[_ Hx]]; [done|].
      by destruct (circle_no_dead_end _ _ Hu _ Hx).
Qed.

(** What a migration may not touch: identity, revision, digest of the source, journal,
    children, waits, run metadata, activation and lineage. *)
Definition migration_frame (e : ExecutionEnvelope) :=
  (env_ExecutionID e, env_Revision e, env_JournalPayload e, env_ChildrenPayload e, env_WaitsPayload e, env_RunMeta e,
   env_Activation e, env_Terminal e, env_RuntimeProfile e, (env_Import e, env_Rollover e, env_Transfer e, env_Fork e)).

Lemma applyChain_frame chain : forall e e', applyChain e chain = Ok e' ->
  migration_frame e' = migration_frame e /\ env_Digest e' = env_Digest e /\
  env_Descriptor e' = default (env_Descriptor e) (mig_Target <$> last chain).
Proof.
  induction chain as [|m chain IH]; intros e e' H; simpl in H; [by simplify_eq|].
  inv_ok H. apply IH in H as (Hf & Hd & Ht).
  assert (He : migration_frame x = migration_frame e /\ env_Digest x = env_Digest e /\ env_Descriptor x = mig_Target m).
  { unfold applyExecutionMigration in Hok. destruct (mig_Transform m) as [f|]; [|done].
    destruct (f _); [|done]. destruct (mig_EffectsTransform m) as [g|]; [destruct (g _); [|done]|]; by simplify_eq. }
  destruct He as (E1 & E2 & E3). split_and!; [congruence..|]. rewrite Ht, E3.
  destruct chain as [|y chain]; [done|]. rewrite last_cons_cons. by destruct (last (y :: chain)) eqn:E; [|apply last_None in E].
Qed.

Lemma path_last edges target source chain : migration_path edges target source chain ->
  default source (mig_Target <$> last chain) = target.
Proof.
  induction 1 as [|m chain Hin Hne Hp IH]; [done|]. destruct chain as [|y chain]; [by inversion Hp|].
  rewrite last_cons_cons. by destruct (last (y :: chain)) eqn:E; [|apply last_None in E].
Qed.

Section PrepareTheorem.
Context `{JsonCodec ExecutionEnvelope}.

(** A prepared migration ends at exactly the requested descriptor, keeps the
    execution's identity, revision, journal, children, waits, run metadata, activation,
    terminal outcome and lineage, leaves a valid non-empty cursor, and either applied no
    step (and is the source) or records the source revision, the source digest and the
    identifiers of the path it applied. *)
Theorem migration_preserves_execution source target registry validate e :
  PrepareExecutionMigration source target registry (Some validate) = Some (Ok e) ->
  exists chain, migration_path registry target (env_Descriptor source) chain /\
    env_Descriptor e = target /\ migration_frame e = migration_frame source /\
    prg_ExecutionPointer (env_Progress e) <> "" /\ validate (prg_ExecutionPointer (env_Progress e)) = None /\
    ((chain = [] /\ e = source) \/
     env_Migration e = Some (mkMigrationProvenance (env_Revision source) (env_Digest source) (map mig_ID chain))).
Proof.
  unfold PrepareExecutionMigration. intros Hp.
  destruct (ValidateExecutionIntegrity source _ _); [done|].
  destruct (validateDescriptor (env_Descriptor source)); [done|]. destruct (validateDescriptor target); [done|].
  destruct (executionMigrationChain _ _ _) as [[chain|]|] eqn:Hc; [|done..]. injection Hp as Hp.
  unfold executionMigrationChain in Hc. destruct (collectEdges [] registry) as [edges|] eqn:He; [|done].
  apply collectEdges_Ok in He as (-> & Hu & _); [|constructor]. apply chainLoop_sound in Hc. simpl in Hc.
  inv_ok Hp. guard_in Hp; [done|]. pose proof (applyChain_frame _ _ _ Hok0) as (Hf & Hd & Ht).
  destruct (validate _) eqn:Hv; [done|]. apply orb_false_iff in Hg as [Hg _]. apply bool_decide_eq_false in Hg.
  exists chain. rewrite (path_last _ _ _ _ Hc) in Ht.
  destruct chain as [|m chain]; injection Hp as <-; split_and!; try done; [left|by right].
  split; [done|]. simpl in Hok0. congruence.
Qed.
End PrepareTheorem.
