(* ===== verification/Integrity.v ===== *)
(** * Sealed envelopes

    execution_integrity.go and [SealExecutionEnvelope]: a sealed envelope passes its own
    integrity check, a digest identifies one envelope, and a sealed envelope that is changed
    in any field no longer validates, up to a SHA-256 collision. *)

From S2P Require Import Prelude Go Sha256 Json Identity Schedule Activity Waits Contract Wire Migration.

#[local] Arguments validRuntimeText : simpl never.

Section Seal.
Context `{HC : JsonCodec ExecutionEnvelope}.

Lemma EnvelopeDigest_sealed e d : EnvelopeDigest (e <| env_Digest := d |>) = EnvelopeDigest e.
Proof. done. Qed.

Lemma EnvelopeDigest_Ok e d : EnvelopeDigest e = Ok d <-> exists b, marshal (e <| env_Digest := "" |>) = Some b /\ d = sha256_hex b.
Proof.
  unfold EnvelopeDigest, of_option. cbv zeta. destruct (marshal _) as [b|]; cbn [mbind res_bind]; split.
  - intros [= <-]. by exists b.
  - by intros (b' & [= <-] & ->).
  - done.
  - by intros (b' & ? & _).
Qed.

Lemma seal_Ok e s : SealExecutionEnvelope e = Ok s -> exists b,
  marshal (e <| env_Digest := "" |>) = Some b /\ s = e <| env_Digest := sha256_hex b |> /\
  env_ExecutionID e <> "" /\ env_Revision e <> 0%N /\ prg_ExecutionPointer (env_Progress e) <> "" /\
  validRuntimeText [env_ExecutionID e] = true /\ validMigrationText (env_Progress e) = true.
Proof.
  unfold SealExecutionEnvelope. intros Hs. guard_in Hs; [done|]. apply bind_Ok in Hs as (d & Hd & Hs).
  rewrite !orb_false_iff, !negb_false_iff, !bool_decide_eq_false in Hg. apply EnvelopeDigest_Ok in Hd as (b & Hb & ->).
  exists b. injection Hs as <-. tauto.
Qed.

Lemma seal_integrity e s : SealExecutionEnvelope e = Ok s ->
  ValidateExecutionIntegrity s (env_ExecutionID e) (env_Revision e) = None.
Proof.
  intros Hs. apply seal_Ok in Hs as (b & Hb & -> & H1 & H2 & H3 & H4 & H5). unfold ValidateExecutionIntegrity.
  rewrite EnvelopeDigest_sealed. unfold EnvelopeDigest. cbv zeta. rewrite Hb. cbn [of_option mbind res_bind].
  generalize (sha256_hex_nonempty b). generalize (sha256_hex b). intros d Hd. simpl. rewrite H4, H5.
  rewrite (bool_decide_eq_false_2 (env_ExecutionID e = "")), (bool_decide_eq_false_2 (env_Revision e = 0%N)),
    (bool_decide_eq_false_2 (prg_ExecutionPointer (env_Progress e) = "")), (bool_decide_eq_false_2 (d = "")),
    (bool_decide_eq_true_2 (env_ExecutionID e = env_ExecutionID e)),
    (bool_decide_eq_true_2 (env_Revision e = env_Revision e)), (bool_decide_eq_true_2 (d = d)) by done. done.
Qed.

Lemma integrity_digest e id revision : ValidateExecutionIntegrity e id revision = None ->
  env_ExecutionID e = id /\ env_Revision e = revision /\
  exists b, marshal (e <| env_Digest := "" |>) = Some b /\ env_Digest e = sha256_hex b.
Proof.
  unfold ValidateExecutionIntegrity. intros Hv. guard_in Hv; [done|].
  rewrite !orb_false_iff, !negb_false_iff, !bool_decide_eq_true in Hg.
  destruct (EnvelopeDigest e) as [d|] eqn:Hd; [|done]. case_bool_decide as E; [|done].
  apply EnvelopeDigest_Ok in Hd as (b & Hb & Hd). split_and!; try tauto. exists b. split; congruence.
Qed.

(** C39: sealing an envelope succeeds only on a named execution with a positive revision and
    valid text, changes nothing but the digest, and the result passes
    [ValidateExecutionIntegrity] at its own identity and revision. *)
Theorem sealed_envelope_validates e s : SealExecutionEnvelope e = Ok s ->
  ValidateExecutionIntegrity s (env_ExecutionID e) (env_Revision e) = None /\
  s <| env_Digest := env_Digest e |> = e /\ env_Digest s <> "".
Proof.
  intros Hs. split; [by apply seal_integrity|]. apply seal_Ok in Hs as (b & _ & -> & _).
  split; [by destruct e|]. apply sha256_hex_nonempty.
Qed.

Context `{HR : !JsonRoundTrip ExecutionEnvelope}.

Lemma marshal_inj a b t : representable a -> representable b -> marshal a = Some t -> marshal b = Some t -> a = b.
Proof.
  intros Ha Hb Ea Eb. apply (unmarshal_marshal _ _ Ha) in Ea. apply (unmarshal_marshal _ _ Hb) in Eb. congruence.
Qed.

(** C40: a digest commits to the whole envelope. Two envelopes that both pass the integrity
    check under the same digest are equal in every field, or their encodings are a concrete
    SHA-256 collision; so no field of a committed revision can be altered unnoticed. *)
Theorem digest_commits_envelope e e' id id' revision revision' :
  representable (e <| env_Digest := "" |>) -> representable (e' <| env_Digest := "" |>) ->
  ValidateExecutionIntegrity e id revision = None -> ValidateExecutionIntegrity e' id' revision' = None ->
  env_Digest e = env_Digest e' ->
  e = e' \/ exists b b', collision b b' /\ marshal (e <| env_Digest := "" |>) = Some b /\ marshal (e' <| env_Digest := "" |>) = Some b'.
Proof.
  intros Hr Hr' Hv Hv' Hd. apply integrity_digest in Hv as (_ & _ & b & Hb & Eb). apply integrity_digest in Hv' as (_ & _ & b' & Hb' & Eb').
  assert (E : sha256_hex b = sha256_hex b') by congruence. apply sha256_hex_collision in E as [<- | E].
  - left. pose proof (marshal_inj _ _ _ Hr Hr' Hb Hb') as Ee. 
    assert (Hx : forall x : ExecutionEnvelope, x = x <| env_Digest := "" |> <| env_Digest := env_Digest x |>) by by intros [].
    rewrite (Hx e), (Hx e'). rewrite Hd. by apply (f_equal (fun x => x <| env_Digest := env_Digest e' |>)) in Ee.
  - right. by exists b, b'.
Qed.
End Seal.

(** ** A closed example *)
Definition descriptor_example (revision : string) : ExecutionDescriptor :=
  mkDescriptor "g" revision "s" "e" "c" (mkReplayPolicy "r" StepReplaySafe).
Definition meta_example : RunMetadata :=
  mkRunMeta (mkSegment "" time_zero time_zero SegmentOpen) time_zero ∅ ∅ 1 ∅ HandoffStatusNone time_zero.
Definition envelope_example : ExecutionEnvelope :=
  mkEnvelope "x" 1 "" (descriptor_example "1") None (mkProgress "p" "n" ∅ ∅ ∅) "" "" "" "" meta_example 1 None None None None None None.
Definition sealed_example : ExecutionEnvelope :=
  envelope_example <| env_Digest := sha256_hex (String "w" (put (envelope_example <| env_Digest := "" |>))) |>.

#[local] Opaque sha256_hex.
Lemma sealed_example_ok : SealExecutionEnvelope envelope_example = Ok sealed_example.
Proof. reflexivity. Qed.

Lemma sealed_envelope_validates_witness :
  ValidateExecutionIntegrity sealed_example "x" 1 = None /\
  sealed_example <| env_Digest := "" |> = envelope_example /\ env_Digest sealed_example <> "".
Proof. apply (sealed_envelope_validates envelope_example sealed_example). apply sealed_example_ok. Defined.

Lemma digest_commits_envelope_witness :
  sealed_example = sealed_example \/ exists b b', collision b b' /\
    marshal (sealed_example <| env_Digest := "" |>) = Some b /\ marshal (sealed_example <| env_Digest := "" |>) = Some b'.
Proof.
  apply (digest_commits_envelope sealed_example sealed_example "x" "x" 1 1); try exact I; try reflexivity;
    apply (seal_integrity envelope_example sealed_example sealed_example_ok).
Defined.

(** A one-step migration that rewrites the state. *)
Definition migration_example : ExecutionMigration :=
  mkMigration "m1" (descriptor_example "1") (descriptor_example "2")
    (Some (fun p => Ok (p <| prg_StatePayload := "q" |>))) None.
Definition migrated_example : ExecutionEnvelope :=
  sealed_example <| env_Descriptor := descriptor_example "2" |>
    <| env_Progress := mkProgress "q" "n" ∅ ∅ ∅ |>
    <| env_Migration := Some (mkMigrationProvenance 1 (env_Digest sealed_example) ["m1"]) |>.
Lemma migrated_example_ok : PrepareExecutionMigration sealed_example (descriptor_example "2") [migration_example] (Some (fun _ => None))
  = Some (Ok migrated_example).
Proof.
  unfold PrepareExecutionMigration.
  assert (ValidateExecutionIntegrity sealed_example (env_ExecutionID sealed_example) (env_Revision sealed_example) = None) as ->
    by apply (seal_integrity envelope_example sealed_example sealed_example_ok).
  reflexivity.
Qed.

Lemma migration_preserves_execution_witness : exists chain,
  migration_path [migration_example] (descriptor_example "2") (env_Descriptor sealed_example) chain /\
    env_Descriptor migrated_example = descriptor_example "2" /\ migration_frame migrated_example = migration_frame sealed_example /\
    prg_ExecutionPointer (env_Progress migrated_example) <> "" /\
    (fun _ => None : option error) (prg_ExecutionPointer (env_Progress migrated_example)) = None /\
    ((chain = [] /\ migrated_example = sealed_example) \/
     env_Migration migrated_example =
       Some (mkMigrationProvenance (env_Revision sealed_example) (env_Digest sealed_example) (map mig_ID chain))).
Proof.
  exact (migration_preserves_execution sealed_example (descriptor_example "2") [migration_example] (fun _ => None)
    migrated_example migrated_example_ok).
Defined.
