(* ===== verification/Children.v ===== *)
(** * Child groups

    child_contract.go, child_state.go, child_budget.go, child_budget_return.go,
    child_persistence.go, child_join.go and the record-level part of child_launch.go,
    child_cancel.go, child_cancel_confirmation.go, child_wait.go and
    child_outcome_resolution.go: the persisted group of isolated children, its integrity
    check, and every transition of a group or of one of its children. The byte comparisons
    of JSON encodings use the class [JsonCodec]. *)

From S2P Require Import Prelude Go Sha256 Json Identity Schedule Activity Waits Contract.

(** ** Data *)
Inductive ChildState :=
| ChildPlanned | ChildQueued | ChildRunning | ChildWaiting | ChildCompleted | ChildFailed | ChildCanceled
| ChildUnknown | ChildStateOther (s : string).
Inductive ChildFailurePolicy := ChildFailFast | ChildCollectErrors | FailurePolicyOther (s : string).
#[export] Instance ChildState_eq_dec : EqDecision ChildState.
Proof. solve_decision. Defined.
#[export] Instance ChildFailurePolicy_eq_dec : EqDecision ChildFailurePolicy.
Proof. solve_decision. Defined.

Record ChildSpec := mkChildSpec { csp_ID : string; csp_Input : string; csp_Allocation : gmap string Z }.
#[export] Instance ChildSpec_eq_dec : EqDecision ChildSpec.
Proof. solve_decision. Defined.

Record ChildGroupPlan := mkChildGroupPlan {
  pln_Key : string;
  pln_Label : string;
  pln_MergeLabel : string;
  pln_BudgetLabel : string;
  pln_CancelLabel : string;
  pln_MaxConcurrency : Z;
  pln_FailurePolicy : ChildFailurePolicy;
  pln_Children : list ChildSpec;
}.
#[export] Instance eta_ChildGroupPlan : Eta ChildGroupPlan := fun r =>
  mkChildGroupPlan (pln_Key r) (pln_Label r) (pln_MergeLabel r) (pln_BudgetLabel r) (pln_CancelLabel r)
    (pln_MaxConcurrency r) (pln_FailurePolicy r) (pln_Children r).
#[export] Instance ChildGroupPlan_eq_dec : EqDecision ChildGroupPlan.
Proof. solve_decision. Defined.

Record ChildWaitResolutionRecord := mkWaitResolution {
  cwr_WaitID : string; cwr_DecisionID : string; cwr_ChildRevision : N; cwr_SourceRevision : N; cwr_Incarnation : N;
  cwr_At : Time;
}.
#[export] Instance ChildWaitResolutionRecord_eq_dec : EqDecision ChildWaitResolutionRecord.
Proof. solve_decision. Defined.
Record ChildOutcomeResolutionRecord := mkOutcomeResolution {
  cor_DecisionID : string; cor_Reason : string; cor_Evidence : string; cor_RequestDigest : string;
  cor_PriorState : ChildState; cor_ChildRevision : N; cor_PriorIncarnation : N; cor_SourceRevision : N;
  cor_Incarnation : N; cor_At : Time;
}.
#[export] Instance ChildOutcomeResolutionRecord_eq_dec : EqDecision ChildOutcomeResolutionRecord.
Proof. solve_decision. Defined.
Record ChildCancelConfirmationRecord := mkCancelConfirmation {
  ccc_RequestID : string; ccc_DecisionID : string; ccc_Reason : string; ccc_Evidence : string;
  ccc_PriorState : ChildState; ccc_ChildRevision : N; ccc_SourceRevision : N; ccc_Incarnation : N; ccc_At : Time;
}.
#[export] Instance ChildCancelConfirmationRecord_eq_dec : EqDecision ChildCancelConfirmationRecord.
Proof. solve_decision. Defined.
Record ChildCancelRequestRecord := mkCancelRequest {
  ccr_ID : string; ccr_Reason : string; ccr_SourceRevision : N; ccr_Incarnation : N; ccr_At : Time;
}.
#[export] Instance ChildCancelRequestRecord_eq_dec : EqDecision ChildCancelRequestRecord.
Proof. solve_decision. Defined.
Record ChildBudgetReturnRecord := mkBudgetReturn {
  cbr_ChildRevision : N; cbr_DecisionID : string; cbr_Reason : string; cbr_Evidence : string;
  cbr_Used : gmap string Z; cbr_Returned : gmap string Z; cbr_SourceRevision : N; cbr_Incarnation : N; cbr_At : Time;
}.
#[export] Instance ChildBudgetReturnRecord_eq_dec : EqDecision ChildBudgetReturnRecord.
Proof. solve_decision. Defined.

Record ChildRecord := mkChild {
  chd_Spec : ChildSpec;
  chd_ExecutionID : string;
  chd_Revision : N;
  chd_Incarnation : N;
  chd_WaitID : string;
  chd_State : ChildState;
  chd_Result : string;
  chd_Error : string;
  chd_CancelRequested : bool;
  chd_CancelConfirmed : bool;
  chd_WaitResolution : option ChildWaitResolutionRecord;
  chd_OutcomeResolution : option ChildOutcomeResolutionRecord;
  chd_CancelConfirmation : option ChildCancelConfirmationRecord;
}.
#[export] Instance eta_Child : Eta ChildRecord := fun r =>
  mkChild (chd_Spec r) (chd_ExecutionID r) (chd_Revision r) (chd_Incarnation r) (chd_WaitID r) (chd_State r)
    (chd_Result r) (chd_Error r) (chd_CancelRequested r) (chd_CancelConfirmed r) (chd_WaitResolution r)
    (chd_OutcomeResolution r) (chd_CancelConfirmation r).
#[export] Instance ChildRecord_eq_dec : EqDecision ChildRecord.
Proof. solve_decision. Defined.

Record ChildGroupRecord := mkGroup {
  grp_ParentID : string;
  grp_Node : ExecutionPointer;
  grp_Activation : N;
  grp_Plan : ChildGroupPlan;
  grp_Children : list ChildRecord;
  grp_MergedIDs : list string;
  grp_MergedResult : string;
  grp_CancelRequested : bool;
  grp_CancelRequest : option ChildCancelRequestRecord;
  grp_Capacity : gmap string Z;
  grp_BudgetReturns : gmap string ChildBudgetReturnRecord;
}.
#[export] Instance eta_Group : Eta ChildGroupRecord := fun r =>
  mkGroup (grp_ParentID r) (grp_Node r) (grp_Activation r) (grp_Plan r) (grp_Children r) (grp_MergedIDs r)
    (grp_MergedResult r) (grp_CancelRequested r) (grp_CancelRequest r) (grp_Capacity r) (grp_BudgetReturns r).
#[export] Instance ChildGroupRecord_eq_dec : EqDecision ChildGroupRecord.
Proof. solve_decision. Defined.

Record ChildResult := mkChildResult { res_State : ChildState; res_Payload : string; res_Error : string; res_WaitID : string }.
Record ChildInvocation := mkInvocation {
  inv_ParentID : string; inv_GroupKey : string; inv_ChildID : string; inv_ExecutionID : string; inv_Revision : N;
  inv_Input : string; inv_Allocation : gmap string Z;
}.

(** ** Planning *)

(** [slices.SortFunc] with [compareChildIDs]: byte-wise order on identities, which the plan
    has checked to be distinct. *)
Definition id_le (a b : ChildSpec) : Prop := String.leb (csp_ID a) (csp_ID b) = true.
#[export] Instance id_le_dec : RelDecision id_le.
Proof. intros a b. unfold id_le. apply _. Defined.
Definition sortSpecs (specs : list ChildSpec) : list ChildSpec := merge_sort id_le specs.

Definition validChildCapacity (capacity : gmap string Z) : bool :=
  map_all (fun name units => negb ((name == "") || negb (validRuntimeText [name]) || (units <? 0)%Z)) capacity.

Fixpoint allocateLoop (remaining : gmap string Z) (allocation : list (string * Z)) : option (gmap string Z) :=
  match allocation with
  | [] => Some remaining
  | (name, units) :: rest =>
      match remaining !! name with
      | None => None
      | Some available =>
          if (name == "") || negb (validRuntimeText [name]) || (units <? 0)%Z || (available <? units)%Z then None
          else allocateLoop (<[name := (available - units)%Z]> remaining) rest
      end
  end.
Definition allocateChildCounters (remaining allocation : gmap string Z) : res (gmap string Z) :=
  of_option (allocateLoop remaining (range allocation)) ErrBudgetExceeded.

Fixpoint planLoop (seen : list string) (remaining : gmap string Z) (specs : list ChildSpec) : res (gmap string Z) :=
  match specs with
  | [] => Ok remaining
  | spec :: rest =>
      if (csp_ID spec == "") || negb (validRuntimeText [csp_ID spec]) then Err ErrChildInvalid
      else if bool_decide (csp_ID spec ∈ seen) then Err ErrChildDuplicate
      else
        remaining ← allocateChildCounters remaining (csp_Allocation spec);
        planLoop (csp_ID spec :: seen) remaining rest
  end.

Definition newChildRecord (parentID : string) (node : ExecutionPointer) (activation : N) (key : string) (spec : ChildSpec)
  : ChildRecord :=
  mkChild spec (childExecutionIdentity parentID node activation key (csp_ID spec)) 0 0 "" ChildPlanned "" "" false false
    None None None.

Definition PlanChildGroup (parentID : string) (node : ExecutionPointer) (activation : N) (plan : ChildGroupPlan)
    (available : gmap string Z) : res ChildGroupRecord :=
  if (parentID == "") || (node == "") || (activation == 0%N) || (pln_Key plan == "") || (pln_Label plan == "")
     || (pln_MergeLabel plan == "")
     || negb (validRuntimeText [parentID; node; pln_Key plan; pln_Label plan; pln_MergeLabel plan; pln_BudgetLabel plan;
                                pln_CancelLabel plan])
     || (pln_BudgetLabel plan == "") || (pln_CancelLabel plan == "") || (pln_MaxConcurrency plan <=? 0)%Z
     || (len (pln_Children plan) == 0%Z)
     || ((pln_FailurePolicy plan != ChildFailFast) && (pln_FailurePolicy plan != ChildCollectErrors))
  then Err ErrChildInvalid
  else if negb (validChildCapacity available) then Err ErrBudgetExceeded
  else
    planLoop [] available (pln_Children plan);;
    let plan := plan <| pln_Children := sortSpecs (pln_Children plan) |> in
    Ok (mkGroup parentID node activation plan
          (map (newChildRecord parentID node activation (pln_Key plan)) (pln_Children plan))
          [] "" false None available ∅).

(** ** Child integrity *)
Definition settledChild (child : ChildRecord) : bool :=
  (chd_State child == ChildCompleted) || (chd_State child == ChildFailed) || (chd_State child == ChildCanceled).

Definition unresolvedCancelableChild (state : ChildState) : bool :=
  (state == ChildRunning) || (state == ChildWaiting) || (state == ChildUnknown).

Definition validChildWaitResolution (child : ChildRecord) : bool :=
  match chd_WaitResolution child with
  | None => true
  | Some d =>
      (cwr_WaitID d != "") && (cwr_DecisionID d != "") && (0 <? cwr_SourceRevision d)%N
      && validRuntimeText [cwr_WaitID d; cwr_DecisionID d; chd_Error child] && (0 <? cwr_Incarnation d)%N
      && negb (IsZero (cwr_At d)) && (2 <? cwr_ChildRevision d)%N && (cwr_ChildRevision d <? max_uint64)%N
      && (chd_Revision child == succ_u64 (cwr_ChildRevision d))
      && ((chd_State child == ChildCompleted) || (chd_State child == ChildFailed)) && (chd_WaitID child == "")
  end.

Definition validChildCancelConfirmation (child : ChildRecord) : bool :=
  match chd_CancelConfirmation child with
  | None => true
  | Some d =>
      (chd_State child == ChildCanceled) && chd_CancelConfirmed child && chd_CancelRequested child
      && (chd_WaitID child == "") && (ccc_RequestID d != "") && (ccc_DecisionID d != "") && (ccc_Reason d != "")
      && (ccc_Evidence d != "")
      && validRuntimeText [ccc_RequestID d; ccc_DecisionID d; ccc_Reason d; ccc_Evidence d]
      && unresolvedCancelableChild (ccc_PriorState d) && (1 <? ccc_ChildRevision d)%N
      && (ccc_ChildRevision d <? max_uint64)%N && (chd_Revision child == succ_u64 (ccc_ChildRevision d))
      && (0 <? ccc_SourceRevision d)%N && (0 <? ccc_Incarnation d)%N && negb (IsZero (ccc_At d))
  end.

Definition validChildOutcomeResolution (child : ChildRecord) : bool :=
  match chd_OutcomeResolution child with
  | None => true
  | Some p =>
      ((chd_State child == ChildCompleted) || (chd_State child == ChildFailed)) && (chd_WaitID child == "")
      && negb (chd_CancelConfirmed child) && is_nil (chd_WaitResolution child) && is_nil (chd_CancelConfirmation child)
      && (cor_DecisionID p != "") && (cor_Reason p != "") && (cor_Evidence p != "") && (cor_RequestDigest p != "")
      && validRuntimeText [cor_DecisionID p; cor_Reason p; cor_Evidence p; chd_Error child]
      && (1 <? cor_ChildRevision p)%N && (cor_ChildRevision p <? max_uint64)%N
      && (chd_Revision child == succ_u64 (cor_ChildRevision p)) && (0 <? cor_PriorIncarnation p)%N
      && (chd_Incarnation child == cor_PriorIncarnation p) && (0 <? cor_SourceRevision p)%N
      && (cor_PriorIncarnation p <? cor_Incarnation p)%N && negb (IsZero (cor_At p))
      && ((cor_PriorState p == ChildUnknown) || (cor_PriorState p == ChildRunning))
  end.

Definition validateChildStateMachine (child : ChildRecord) : option error :=
  if chd_CancelConfirmed child && (negb (chd_CancelRequested child) || (chd_State child != ChildCanceled)) then corrupt
  else
    let noOutcome := (chd_Error child == "") && no_bytes (chd_Result child) && (chd_WaitID child == "") in
    let settled := (2 <? chd_Revision child)%N && (0 <? chd_Incarnation child)%N in
    let valid :=
      match chd_State child with
      | ChildPlanned => (chd_Revision child == 0%N) && (chd_Incarnation child == 0%N) && noOutcome
      | ChildQueued => (0 <? chd_Revision child)%N && (chd_Incarnation child == 0%N) && noOutcome
      | ChildRunning => (1 <? chd_Revision child)%N && (0 <? chd_Incarnation child)%N && noOutcome
      | ChildCompleted => settled && (chd_Error child == "") && (chd_WaitID child == "")
      | ChildFailed => settled && (chd_Error child != "") && (chd_WaitID child == "")
      | ChildWaiting => settled && (chd_WaitID child != "") && (chd_Error child == "")
      | ChildUnknown => settled && (chd_WaitID child == "")
      | ChildCanceled => (0 <? chd_Revision child)%N && chd_CancelConfirmed child
      | ChildStateOther _ => false
      end in
    if valid then None else corrupt.

Definition validateChildRecordState (child : ChildRecord) : option error :=
  if negb (validRuntimeText [chd_WaitID child]) || negb (validChildWaitResolution child)
     || negb (validChildCancelConfirmation child) || negb (validChildOutcomeResolution child)
  then corrupt
  else validateChildStateMachine child.

(** ** Budget *)
Definition ComputeChildBudgetReturn (child : ChildRecord) (used : gmap string Z) : res (gmap string Z) :=
  if negb (is_nil (validateChildRecordState child)) then Err ErrChildInvalid
  else if negb (settledChild child) then Err ErrChildrenUnresolved
  else if negb (map_all (fun name units =>
         match csp_Allocation (chd_Spec child) !! name with
         | None => false
         | Some allocated => negb ((name == "") || (units <? 0)%Z || (allocated <? units)%Z)
         end) used) then Err ErrBudgetExceeded
  else if negb (map_all (fun name allocated =>
         negb ((name == "") || (allocated <? 0)%Z || is_nil (used !! name))) (csp_Allocation (chd_Spec child)))
  then Err ErrBudgetExceeded
  else Ok (map_imap (fun name allocated => Some (allocated - default 0 (used !! name))%Z) (csp_Allocation (chd_Spec child))).

Definition childForBudgetReturn (group : ChildGroupRecord) (id : string) : option ChildRecord :=
  List.find (fun child => csp_ID (chd_Spec child) == id) (grp_Children group).

Definition validBudgetReturn (group : ChildGroupRecord) (id : string) (record : ChildBudgetReturnRecord) : bool :=
  match childForBudgetReturn group id with
  | None => false
  | Some child =>
      negb ((chd_Revision child != cbr_ChildRevision record) || (cbr_DecisionID record == "") || (cbr_Reason record == "")
            || (cbr_Evidence record == "") || (cbr_SourceRevision record == 0%N) || (cbr_Incarnation record == 0%N)
            || IsZero (cbr_At record)
            || negb (validRuntimeText [cbr_DecisionID record; cbr_Reason record; cbr_Evidence record]))
      && match ComputeChildBudgetReturn child (cbr_Used record) with
         | Err _ => false
         | Ok returned => returned == cbr_Returned record
         end
  end.
Definition validChildBudgetReturns (group : ChildGroupRecord) : bool :=
  map_all (validBudgetReturn group) (grp_BudgetReturns group).

(** Units of [name] returned for a child. *)
Definition returnedUnits (group : ChildGroupRecord) (id name : string) : Z :=
  match grp_BudgetReturns group !! id with
  | Some r => default 0%Z (cbr_Returned r !! name)
  | None => 0%Z
  end.

(** The loops of [validateChildCapacityLedger]; [ledger] holds, per activation, the capacity
    and what remains of it. *)
Fixpoint ledgerNames (group : ChildGroupRecord) (id : string) (remaining : gmap string Z) (names : list (string * Z))
  : option (gmap string Z) :=
  match names with
  | [] => Some remaining
  | (name, allocation) :: rest =>
      let outstanding := wrap_int64 (allocation - returnedUnits group id name) in
      match remaining !! name with
      | None => None
      | Some available =>
          if (outstanding <? 0)%Z || (available <? outstanding)%Z then None
          else ledgerNames group id (<[name := (available - outstanding)%Z]> remaining) rest
      end
  end.
Fixpoint ledgerChildren (group : ChildGroupRecord) (remaining : gmap string Z) (children : list ChildRecord)
  : option (gmap string Z) :=
  match children with
  | [] => Some remaining
  | child :: rest =>
      match ledgerNames group (csp_ID (chd_Spec child)) remaining (range (csp_Allocation (chd_Spec child))) with
      | None => None
      | Some remaining => ledgerChildren group remaining rest
      end
  end.
Fixpoint ledgerGroups (ledger : gmap N (gmap string Z * gmap string Z)) (groups : list ChildGroupRecord)
  : option (gmap N (gmap string Z * gmap string Z)) :=
  match groups with
  | [] => Some ledger
  | group :: rest =>
      match
        match ledger !! grp_Activation group with
        | Some (capacity, remaining) => if capacity == grp_Capacity group then Some remaining else None
        | None => Some (grp_Capacity group)
        end with
      | None => None
      | Some remaining =>
          match ledgerChildren group remaining (grp_Children group) with
          | None => None
          | Some remaining => ledgerGroups (<[grp_Activation group := (grp_Capacity group, remaining)]> ledger) rest
          end
      end
  end.
Definition validateChildCapacityLedger (groups : gmap string ChildGroupRecord) : option error :=
  if is_nil (ledgerGroups ∅ (map snd (range groups))) then Some (ErrBudgetExceeded : error) else None.

(** ** Manual outcomes *)
Record ChildOutcomeResolution := mkOutcomeRequest {
  oreq_Node : ExecutionPointer; oreq_Activation : N; oreq_GroupKey : string; oreq_GroupLabel : string;
  oreq_ChildID : string; oreq_ExecutionID : string; oreq_ChildRevision : N; oreq_DecisionID : string;
  oreq_Reason : string; oreq_Evidence : string; oreq_Result : ChildResult;
}.

Definition validChildOutcomeRequest (r : ChildOutcomeResolution) : bool :=
  forallb (fun text => (text != "") && validRuntimeText [text])
    [oreq_Node r; oreq_GroupKey r; oreq_GroupLabel r; oreq_ChildID r; oreq_ExecutionID r; oreq_DecisionID r; oreq_Reason r;
     oreq_Evidence r]
  && negb ((oreq_Activation r == 0%N) || (oreq_ChildRevision r <=? 1)%N || (oreq_ChildRevision r == max_uint64)
           || (res_WaitID (oreq_Result r) != "") || negb (validRuntimeText [res_Error (oreq_Result r)]))
  && match res_State (oreq_Result r) with
     | ChildCompleted => res_Error (oreq_Result r) == ""
     | ChildFailed => res_Error (oreq_Result r) != ""
     | _ => false
     end.

(** [json.Marshal] of a byte slice: [null] when nil, else standard base64. *)
Definition base64_digit (n : N) : ascii :=
  ascii_of_N (if (n <? 26)%N then 65 + n else if (n <? 52)%N then 71 + n else if (n <? 62)%N then n - 4
              else if (n =? 62)%N then 43 else 47)%N.
Fixpoint base64 (s : string) : string :=
  match s with
  | EmptyString => EmptyString
  | String a EmptyString =>
      String (base64_digit (ord a / 4)) (String (base64_digit (ord a mod 4 * 16)) "==")
  | String a (String b EmptyString) =>
      String (base64_digit (ord a / 4)) (String (base64_digit (ord a mod 4 * 16 + ord b / 16))
        (String (base64_digit (ord b mod 16 * 4)) "="))
  | String a (String b (String c rest)) =>
      String (base64_digit (ord a / 4)) (String (base64_digit (ord a mod 4 * 16 + ord b / 16))
        (String (base64_digit (ord b mod 16 * 4 + ord c / 64)) (String (base64_digit (ord c mod 64)) (base64 rest))))
  end.
Definition child_state_text (s : ChildState) : string :=
  match s with
  | ChildPlanned => "planned" | ChildQueued => "queued" | ChildRunning => "running" | ChildWaiting => "waiting"
  | ChildCompleted => "completed" | ChildFailed => "failed" | ChildCanceled => "canceled" | ChildUnknown => "unknown"
  | ChildStateOther s => s
  end.
Definition payload_json (payload : string) : json := if no_bytes payload then JNull else JStr (base64 payload).

Definition childOutcomeRequestDigest (r : ChildOutcomeResolution) : string :=
  sha256_hex (print (JArr
    [JStr "flowy-child-outcome-v1"; JStr (oreq_Node r); JNum (Z.of_N (oreq_Activation r)); JStr (oreq_GroupKey r);
     JStr (oreq_GroupLabel r); JStr (oreq_ChildID r); JStr (oreq_ExecutionID r); JNum (Z.of_N (oreq_ChildRevision r));
     JStr (oreq_DecisionID r); JStr (oreq_Reason r); JStr (oreq_Evidence r); JStr (child_state_text (res_State (oreq_Result r)));
     payload_json (res_Payload (oreq_Result r)); JStr (res_Error (oreq_Result r)); JStr (res_WaitID (oreq_Result r))])).
#[global] Arguments childOutcomeRequestDigest : simpl never.

Definition validChildOutcomeGroupProvenance (group : ChildGroupRecord) (child : ChildRecord) (revision : N) : bool :=
  match chd_OutcomeResolution child with
  | None => true
  | Some prior =>
      let resolution :=
        mkOutcomeRequest (grp_Node group) (grp_Activation group) (pln_Key (grp_Plan group)) (pln_Label (grp_Plan group))
          (csp_ID (chd_Spec child)) (chd_ExecutionID child) (cor_ChildRevision prior) (cor_DecisionID prior)
          (cor_Reason prior) (cor_Evidence prior)
          (mkChildResult (chd_State child) (chd_Result child) (chd_Error child) (chd_WaitID child)) in
      (cor_SourceRevision prior <? revision)%N && validChildOutcomeRequest resolution
      && (childOutcomeRequestDigest resolution == cor_RequestDigest prior)
  end.

(** ** Group integrity *)
Definition validChildProvenance (group : ChildGroupRecord) (revision : N) (child : ChildRecord) : bool :=
  validChildOutcomeGroupProvenance group child revision
  && match chd_CancelConfirmation child with
     | None => true
     | Some c =>
         match grp_CancelRequest group with
         | None => false
         | Some q => negb ((revision <=? ccc_SourceRevision c)%N || (ccc_RequestID c != ccr_ID q)
                           || (ccc_SourceRevision c <=? ccr_SourceRevision q)%N)
         end
     end
  && match chd_WaitResolution child with None => true | Some w => (cwr_SourceRevision w <? revision)%N end.

Definition validChildGroupProvenance (group : ChildGroupRecord) (revision : N) : bool :=
  match grp_CancelRequest group with None => true | Some q => (ccr_SourceRevision q <? revision)%N end
  && forallb (validChildProvenance group revision) (grp_Children group)
  && map_all (fun _ returned => (cbr_SourceRevision returned <? revision)%N) (grp_BudgetReturns group).

Definition validChildCancellation (group : ChildGroupRecord) : bool :=
  if negb (grp_CancelRequested group) then
    is_nil (grp_CancelRequest group)
    && forallb (fun child => negb (chd_CancelRequested child || chd_CancelConfirmed child)) (grp_Children group)
  else match grp_CancelRequest group with
  | None => false
  | Some q =>
      negb ((ccr_ID q == "") || (ccr_Reason q == "") || (ccr_SourceRevision q == 0%N) || (ccr_Incarnation q == 0%N)
            || IsZero (ccr_At q) || negb (validRuntimeText [ccr_ID q; ccr_Reason q]))
      && forallb (fun child => negb ((chd_State child == ChildPlanned) || (chd_State child == ChildQueued))
                               && negb (negb (settledChild child) && negb (chd_CancelRequested child))) (grp_Children group)
  end.

Definition validChildJoin (group : ChildGroupRecord) : bool :=
  match grp_MergedIDs group with
  | [] => no_bytes (grp_MergedResult group)
  | _ =>
      (len (grp_MergedIDs group) == len (grp_Children group))
      && all_index (fun index child =>
           match grp_MergedIDs group !! index with
           | Some id => (id == csp_ID (chd_Spec child)) && settledChild child
           | None => false
           end) 0 (grp_Children group)
  end.

Section GroupIntegrity.
Context `{JsonCodec ChildGroupPlan} `{JsonCodec ChildSpec}.

Definition childPlanBytes (plan : ChildGroupPlan) : string :=
  default "" (marshal (plan <| pln_Children := sortSpecs (pln_Children plan) |>)).
Definition childSpecEncoding (spec : ChildSpec) : string := default "" (marshal spec).

Definition validateChildGroup (group : ChildGroupRecord) : option error :=
  match PlanChildGroup (grp_ParentID group) (grp_Node group) (grp_Activation group) (grp_Plan group) (grp_Capacity group) with
  | Err _ => corrupt
  | Ok base =>
      if (len (grp_Children group) != len (grp_Children base)) || negb (validChildCancellation group)
         || negb (validChildJoin group) then corrupt
      else if negb (validChildBudgetReturns group) then corrupt
      else if childPlanBytes (grp_Plan base) != childPlanBytes (grp_Plan group) then corrupt
      else if all_index (fun index child =>
             match grp_Children base !! index with
             | None => false
             | Some original =>
                 (chd_ExecutionID child == chd_ExecutionID original)
                 && (childSpecEncoding (chd_Spec child) == childSpecEncoding (chd_Spec original))
                 && is_nil (validateChildRecordState child)
             end) 0 (grp_Children group) then None
      else corrupt
  end.
End GroupIntegrity.

(** ** Transitions *)

(** The loop [for index, child := range group.Children] that skips to the child named [id],
    rewrites it in place and returns; [missing] is returned when no child has that name. *)
Fixpoint updateChild (id : string) (missing : error) (f : ChildRecord -> res ChildRecord) (children : list ChildRecord)
  : res (list ChildRecord) :=
  match children with
  | [] => Err missing
  | child :: rest =>
      if csp_ID (chd_Spec child) != id then
        rest ← updateChild id missing f rest; Ok (child :: rest)
      else
        child ← f child; Ok (child :: rest)
  end.
Definition updateGroupChild (id : string) (missing : error) (f : ChildRecord -> res ChildRecord) (group : ChildGroupRecord)
  : res ChildGroupRecord :=
  children ← updateChild id missing f (grp_Children group);
  Ok (group <| grp_Children := children |>).

(** A transition that ends with [validateChildRecordState] before it is stored. *)
Definition checkedChild (child : ChildRecord) : res ChildRecord :=
  check (validateChildRecordState child);; Ok child.

(** [beginChildLocked]: admission, and the two states it persists one after the other. *)
Definition admitChild (cancelRequested : bool) (child : ChildRecord) : option error :=
  if cancelRequested || (max_uint64 - 2 <? chd_Revision child)%N then Some (ErrChildRevision : error)
  else if (chd_State child != ChildPlanned) && (chd_State child != ChildQueued) then Some (ErrChildRevision : error)
  else None.
Definition queueChild (id : string) (group : ChildGroupRecord) : res ChildGroupRecord :=
  updateGroupChild id ErrChildInvalid (fun child =>
    check (admitChild (grp_CancelRequested group) child);;
    Ok (if chd_State child == ChildPlanned
        then child <| chd_State := ChildQueued |> <| chd_Revision := succ_u64 (chd_Revision child) |>
        else child)) group.
Definition runChild (id : string) (incarnation : N) (group : ChildGroupRecord) : res ChildGroupRecord :=
  updateGroupChild id ErrChildInvalid (fun child =>
    check (if chd_State child != ChildQueued then Some (ErrChildRevision : error) else None);;
    Ok (child <| chd_State := ChildRunning |> <| chd_Revision := succ_u64 (chd_Revision child) |>
          <| chd_Incarnation := incarnation |>)) group.

Definition validChildResultState (state : ChildState) : bool :=
  match state with
  | ChildCompleted | ChildFailed | ChildWaiting | ChildUnknown | ChildCanceled => true
  | _ => false
  end.
Definition childInvocationMatches (child : ChildRecord) (invocation : ChildInvocation) (incarnation : N) : bool :=
  let matchesRevision := (chd_Revision child == inv_Revision invocation)
    || (chd_CancelRequested child && (inv_Revision invocation <? max_uint64)%N
        && (chd_Revision child == succ_u64 (inv_Revision invocation))) in
  (chd_State child == ChildRunning) && matchesRevision && (chd_Revision child <? max_uint64)%N
  && (chd_Incarnation child == incarnation).

Definition finishChildRecord (invocation : ChildInvocation) (result : ChildResult) (dispatchErr : option string)
    (incarnation : N) (child : ChildRecord) : res ChildRecord :=
  if negb (childInvocationMatches child invocation incarnation) then Err ErrChildRevision
  else
    let result := match dispatchErr with Some e => mkChildResult ChildUnknown "" e "" | None => result end in
    if negb (validChildResultState (res_State result)) then Err ErrChildInvalid
    else
      let child := child <| chd_State := res_State result |> <| chd_Result := res_Payload result |>
        <| chd_Error := res_Error result |> <| chd_WaitID := res_WaitID result |> in
      let child := if (chd_State child == ChildCanceled) && chd_CancelRequested child
                   then child <| chd_CancelConfirmed := true |> else child in
      checkedChild (child <| chd_Revision := succ_u64 (chd_Revision child) |>).
Definition finishChild (invocation : ChildInvocation) (result : ChildResult) (dispatchErr : option string)
    (incarnation : N) (group : ChildGroupRecord) : res ChildGroupRecord :=
  updateGroupChild (inv_ChildID invocation) ErrChildInvalid (finishChildRecord invocation result dispatchErr incarnation) group.

(** [recoverChildLaunches]: attempts of an earlier incarnation become unknown. *)
Fixpoint recoverChildren (incarnation : N) (children : list ChildRecord) : res (list ChildRecord) :=
  match children with
  | [] => Ok []
  | child :: rest =>
      child' ← (if chd_State child == ChildRunning then
                  if chd_Revision child == max_uint64 then Err ErrChildRevision
                  else if chd_Incarnation child == incarnation then Err ErrChildBusy
                  else Ok (child <| chd_State := ChildUnknown |> <| chd_Revision := succ_u64 (chd_Revision child) |>)
                else Ok child);
      rest ← recoverChildren incarnation rest;
      Ok (child' :: rest)
  end.
Definition recoverGroup (incarnation : N) (group : ChildGroupRecord) : res ChildGroupRecord :=
  children ← recoverChildren incarnation (grp_Children group);
  Ok (group <| grp_Children := children |>).
Definition recoveryPending (group : ChildGroupRecord) : bool :=
  existsb (fun child => (chd_State child == ChildUnknown) || (chd_State child == ChildRunning)
    || ((pln_FailurePolicy (grp_Plan group) == ChildFailFast) && (chd_State child == ChildFailed)
        && negb (grp_CancelRequested group))) (grp_Children group).

(** [requestChildCancellationLocked]: unsettled children are marked, unlaunched ones are canceled. *)
Fixpoint cancelChildrenLoop (children : list ChildRecord) : res (list ChildRecord) :=
  match children with
  | [] => Ok []
  | child :: rest =>
      child' ← (if settledChild child then Ok child
                else if (chd_Revision child == max_uint64)
                        || ((chd_State child == ChildRunning) && (max_uint64 - 1 <=? chd_Revision child)%N)
                then Err ErrChildRevision
                else
                  let child' := child <| chd_CancelRequested := true |> <| chd_Revision := succ_u64 (chd_Revision child) |> in
                  Ok (if (chd_State child == ChildPlanned) || (chd_State child == ChildQueued)
                      then child' <| chd_State := ChildCanceled |> <| chd_CancelConfirmed := true |> else child'));
      rest ← cancelChildrenLoop rest;
      Ok (child' :: rest)
  end.
Definition requestChildCancellation (requestID reason : string) (revision incarnation : N) (now : Time)
    (group : ChildGroupRecord) : res ChildGroupRecord :=
  match grp_CancelRequest group with
  | Some prior =>
      if (ccr_ID prior != requestID) || (ccr_Reason prior != reason) then Err ErrChildRevision else Ok group
  | None =>
      children ← cancelChildrenLoop (grp_Children group);
      Ok (group <| grp_CancelRequested := true |>
            <| grp_CancelRequest := Some (mkCancelRequest requestID reason revision incarnation (toUTC now)) |>
            <| grp_Children := children |>)
  end.

Record ChildCancelConfirmation := mkConfirmRequest {
  creq_Node : ExecutionPointer; creq_Activation : N; creq_GroupKey : string; creq_ChildID : string;
  creq_ExecutionID : string; creq_ChildRevision : N; creq_RequestID : string; creq_DecisionID : string;
  creq_Reason : string; creq_Evidence : string;
}.
Definition confirmChildRecord (d : ChildCancelConfirmation) (sourceRevision incarnation : N) (at_ : Time)
    (child : ChildRecord) : res ChildRecord :=
  if (chd_ExecutionID child != creq_ExecutionID d) || (chd_Revision child != creq_ChildRevision d)
     || (chd_Revision child == max_uint64) || negb (chd_CancelRequested child) || chd_CancelConfirmed child
     || negb (unresolvedCancelableChild (chd_State child))
  then Err ErrChildRevision
  else checkedChild (child
    <| chd_CancelConfirmation := Some (mkCancelConfirmation (creq_RequestID d) (creq_DecisionID d) (creq_Reason d)
         (creq_Evidence d) (chd_State child) (chd_Revision child) sourceRevision incarnation at_) |>
    <| chd_State := ChildCanceled |> <| chd_CancelConfirmed := true |> <| chd_WaitID := "" |>
    <| chd_Revision := succ_u64 (chd_Revision child) |>).
Definition applyChildCancelConfirmation (d : ChildCancelConfirmation) (sourceRevision incarnation : N) (at_ : Time)
    (group : ChildGroupRecord) : res ChildGroupRecord :=
  updateGroupChild (creq_ChildID d) ErrChildRevision (confirmChildRecord d sourceRevision incarnation at_) group.

Record ChildWaitResolution := mkWaitRequest {
  wreq_Node : ExecutionPointer; wreq_Activation : N; wreq_GroupKey : string; wreq_ChildID : string;
  wreq_ExecutionID : string; wreq_ChildRevision : N; wreq_WaitID : string; wreq_DecisionID : string; wreq_Result : ChildResult;
}.
Definition resolveWaitRecord (r : ChildWaitResolution) (sourceRevision incarnation : N) (at_ : Time) (child : ChildRecord)
  : res ChildRecord :=
  if (chd_ExecutionID child != wreq_ExecutionID r) || (chd_Revision child != wreq_ChildRevision r)
     || (chd_Revision child == max_uint64) || (chd_State child != ChildWaiting) || (chd_WaitID child != wreq_WaitID r)
     || negb (is_nil (chd_WaitResolution child))
  then Err ErrChildRevision
  else checkedChild (child <| chd_State := res_State (wreq_Result r) |> <| chd_Result := res_Payload (wreq_Result r) |>
    <| chd_Error := res_Error (wreq_Result r) |> <| chd_WaitID := "" |>
    <| chd_Revision := succ_u64 (chd_Revision child) |>
    <| chd_WaitResolution := Some (mkWaitResolution (wreq_WaitID r) (wreq_DecisionID r) (wreq_ChildRevision r)
         sourceRevision incarnation at_) |>).
Definition applyChildWaitResolution (r : ChildWaitResolution) (sourceRevision incarnation : N) (at_ : Time)
    (group : ChildGroupRecord) : res ChildGroupRecord :=
  updateGroupChild (wreq_ChildID r) ErrChildRevision (resolveWaitRecord r sourceRevision incarnation at_) group.

(** [childOutcomeDecisionReplay]: a decision identity already used, in any group. *)
Definition recordedOutcomes (groups : gmap string ChildGroupRecord) : list (ChildRecord * ChildOutcomeResolutionRecord) :=
  flat_map (fun kv => flat_map (fun child =>
    match chd_OutcomeResolution child with Some p => [(child, p)] | None => [] end) (grp_Children kv.2)) (range groups).
Definition childOutcomeDecisionReplay (groups : gmap string ChildGroupRecord) (r : ChildOutcomeResolution) (digest : string)
  : bool * option error :=
  match List.find (fun cp => cor_DecisionID cp.2 == oreq_DecisionID r) (recordedOutcomes groups) with
  | None => (false, None)
  | Some (child, prior) =>
      if (chd_ExecutionID child == oreq_ExecutionID r) && (cor_RequestDigest prior == digest) then (true, None)
      else (false, Some (ErrChildRevision : error))
  end.
Definition resolveOutcomeRecord (r : ChildOutcomeResolution) (sourceRevision incarnation : N) (at_ : Time) (digest : string)
    (child : ChildRecord) : res ChildRecord :=
  if (chd_ExecutionID child != oreq_ExecutionID r) || (chd_Revision child != oreq_ChildRevision r)
     || negb (is_nil (chd_OutcomeResolution child)) || chd_CancelConfirmed child
  then Err ErrChildRevision
  else if (chd_State child != ChildUnknown)
          && ((chd_State child != ChildRunning) || (incarnation <=? chd_Incarnation child)%N)
  then Err ErrChildRevision
  else checkedChild (child
    <| chd_OutcomeResolution := Some (mkOutcomeResolution (oreq_DecisionID r) (oreq_Reason r) (oreq_Evidence r) digest
         (chd_State child) (chd_Revision child) (chd_Incarnation child) sourceRevision incarnation at_) |>
    <| chd_State := res_State (oreq_Result r) |> <| chd_Result := res_Payload (oreq_Result r) |>
    <| chd_Error := res_Error (oreq_Result r) |> <| chd_WaitID := "" |>
    <| chd_Revision := succ_u64 (chd_Revision child) |>).
(** The flag of the result is [replay]. *)
Definition applyChildOutcomeResolution (r : ChildOutcomeResolution) (groups : gmap string ChildGroupRecord)
    (sourceRevision incarnation : N) (at_ : Time) (group : ChildGroupRecord) : res (ChildGroupRecord * bool) :=
  if IsZero at_ || (incarnation == 0%N) then Err ErrExecutionCapability
  else
    let digest := childOutcomeRequestDigest r in
    match childOutcomeDecisionReplay groups r digest with
    | (_, Some e) => Err e
    | (true, None) => Ok (group, true)
    | (false, None) =>
        group ← updateGroupChild (oreq_ChildID r) ErrChildRevision
                  (resolveOutcomeRecord r sourceRevision incarnation at_ digest) group;
        Ok (group, false)
    end.

(** The committed part of [joinChildren]; [result] is the host merge of the settled children. *)
Definition joinGroup (result : string) (group : ChildGroupRecord) : res ChildGroupRecord :=
  if negb (forallb settledChild (grp_Children group)) then Err ErrChildrenUnresolved
  else Ok (group <| grp_MergedIDs := map (fun child => csp_ID (chd_Spec child)) (grp_Children group) |>
             <| grp_MergedResult := result |>).

Record ChildBudgetReturn := mkReturnRequest {
  breq_ChildID : string; breq_ChildRevision : N; breq_DecisionID : string; breq_Reason : string; breq_Evidence : string;
  breq_Used : gmap string Z;
}.
Definition returnChildBudget (claim : ChildBudgetReturn) (revision incarnation : N) (now : Time) (group : ChildGroupRecord)
  : res ChildGroupRecord :=
  match grp_BudgetReturns group !! breq_ChildID claim with
  | Some prior =>
      if (cbr_DecisionID prior != breq_DecisionID claim) || (cbr_ChildRevision prior != breq_ChildRevision claim)
         || (cbr_Reason prior != breq_Reason claim) || (cbr_Evidence prior != breq_Evidence claim)
         || (cbr_Used prior != breq_Used claim)
      then Err ErrChildRevision else Ok group
  | None =>
      match childForBudgetReturn group (breq_ChildID claim) with
      | None => Err ErrChildRevision
      | Some child =>
          if chd_Revision child != breq_ChildRevision claim then Err ErrChildRevision
          else
            returned ← ComputeChildBudgetReturn child (breq_Used claim);
            Ok (group <| grp_BudgetReturns := <[breq_ChildID claim :=
                  mkBudgetReturn (breq_ChildRevision claim) (breq_DecisionID claim) (breq_Reason claim) (breq_Evidence claim)
                    (breq_Used claim) returned revision incarnation (toUTC now)]> (grp_BudgetReturns group) |>)
      end
  end.

Definition launchableChildIDs (group : ChildGroupRecord) : list string :=
  if grp_CancelRequested group then []
  else map (fun child => csp_ID (chd_Spec child))
         (List.filter (fun child => (chd_State child == ChildPlanned) || (chd_State child == ChildQueued)) (grp_Children group)).
