(* ===== verification/ChildBudget.v ===== *)
(** * Budgets of child groups

    child_budget.go and the loops of [PlanChildGroup]: allocating units child by child and
    name by name has a closed form, so the verdict does not depend on the order in which
    Go ranges over its maps, and no activation ever hands out more units than its capacity. *)

From S2P Require Import Prelude Go Sha256 Json Identity Schedule Activity Waits Contract Children.

#[local] Arguments validRuntimeText : simpl never.

(** ** Spending named units

    The common shape of every budget loop: take [units] of [name] from what remains. *)
Fixpoint spend (remaining : gmap string Z) (events : list (string * Z)) : option (gmap string Z) :=
  match events with
  | [] => Some remaining
  | (name, units) :: rest =>
      match remaining !! name with
      | None => None
      | Some available =>
          if (units <? 0)%Z || (available <? units)%Z then None
          else spend (<[name := (available - units)%Z]> remaining) rest
      end
  end.

Fixpoint total (name : string) (events : list (string * Z)) : Z :=
  match events with
  | [] => 0
  | (n, units) :: rest => ((if n == name then units else 0) + total name rest)%Z
  end.

(** The events can be paid from [remaining]. *)
Definition affordable (remaining : gmap string Z) (events : list (string * Z)) : Prop :=
  Forall (fun e => (0 <= e.2)%Z /\ exists available, remaining !! e.1 = Some available /\
                   (total e.1 events <= available)%Z) events.

Lemma total_perm name l k : Permutation l k -> total name l = total name k.
Proof.
  induction 1 as [|[n u] l k _ IH|[n u] [m v] l|l k k' _ IH1 _ IH2]; simpl; try lia.
Qed.

Lemma total_nonneg name l : Forall (fun e => (0 <= e.2)%Z) l -> (0 <= total name l)%Z.
Proof. induction 1 as [|[n u] l Hu _ IH]; simpl in *; [lia|]. case_bool_decide; lia. Qed.

(** The remaining units of a name after paying. *)
Definition after (events : list (string * Z)) (remaining : gmap string Z) : gmap string Z :=
  map_imap (fun name available => Some (available - total name events)%Z) remaining.

Lemma after_lookup events remaining name :
  after events remaining !! name = (fun a => (a - total name events)%Z) <$> remaining !! name.
Proof. unfold after. rewrite map_lookup_imap. by destruct (remaining !! name). Qed.

Lemma after_cons n u rest remaining a : remaining !! n = Some a ->
  after rest (<[n := (a - u)%Z]> remaining) = after ((n, u) :: rest) remaining.
Proof.
  intros Ha. apply map_eq. intros name. rewrite !after_lookup. simpl.
  destruct (bool_decide_reflect (n = name)) as [->|Hne].
  - rewrite lookup_insert_eq, Ha. simpl. f_equal. lia.
  - by rewrite lookup_insert_ne.
Qed.

(** Spending succeeds exactly when the totals are affordable. *)
Lemma spend_Some remaining events r : spend remaining events = Some r ->
  affordable remaining events /\ r = after events remaining.
Proof.
  unfold affordable. revert remaining r. induction events as [|[n u] events IH]; intros rem r Hs; simpl in Hs.
  - simplify_eq. split; [done|]. apply map_eq. intros k. rewrite after_lookup. simpl.
    destruct (r !! k); simpl; [f_equal; lia|done].
  - destruct (rem !! n) as [a|] eqn:Ha; [|done]. guard_in Hs; [done|].
    apply orb_false_iff in Hg as [Hu Hau]. apply Z.ltb_ge in Hu, Hau.
    destruct (IH _ _ Hs) as [Hf ->]. split; [|by apply after_cons]. rewrite Forall_forall in Hf.
    constructor; simpl.
    + split; [done|]. exists a. split; [done|]. rewrite bool_decide_eq_true_2 by done.
      destruct (decide (Exists (fun e => e.1 = n) events)) as [He|He].
      * apply Exists_exists in He as ([m v] & Hin & E). simpl in E. subst m.
        destruct (Hf _ Hin) as (_ & b & Hb & Hle). simpl in *. rewrite lookup_insert_eq in Hb. simplify_eq. lia.
      * assert (total n events = 0%Z) as ->; [|lia]. clear - He. induction events as [|[m v] l IHl]; [done|]. simpl.
        rewrite Exists_cons in He. simpl in He. case_bool_decide; [tauto|]. rewrite IHl; tauto.
    + apply Forall_forall. intros [m v] Hin. destruct (Hf _ Hin) as (Hv & b & Hb & Hle). simpl in *. split; [done|].
      case_bool_decide as E; [subst m; rewrite lookup_insert_eq in Hb; simplify_eq; exists a; split; [done|lia]|].
      rewrite lookup_insert_ne in Hb by done. by exists b.
Qed.

Lemma spend_complete remaining events : affordable remaining events ->
  spend remaining events = Some (after events remaining).
Proof.
  intros Ha. destruct (spend remaining events) as [r|] eqn:Hs; [by apply spend_Some in Hs as [_ ->]|].
  exfalso. revert remaining Ha Hs. unfold affordable. induction events as [|[n u] events IH]; intros rem Ha Hs; [done|].
  apply Forall_cons in Ha as [(Hu & a & Hn & Hle) Ha]. simpl in *. rewrite bool_decide_eq_true_2 in Hle by done.
  rewrite Hn in Hs. assert (Hpos : Forall (fun e => (0 <= e.2)%Z) events) by (eapply Forall_impl; [exact Ha|naive_solver]).
  pose proof (total_nonneg n events Hpos). guard_in Hs.
  { rewrite orb_true_iff, Z.ltb_lt, Z.ltb_lt in Hg. lia. }
  apply (IH _) in Hs; [done|]. eapply Forall_impl; [exact Ha|]. intros [m v] (Hv & b & Hb & Hm). simpl in *.
  split; [done|]. case_bool_decide as E.
  - subst m. rewrite lookup_insert_eq. exists (a - u)%Z. split; [done|]. simplify_eq. lia.
  - rewrite lookup_insert_ne by done. by exists b.
Qed.

Lemma spend_app remaining l k : spend remaining (l ++ k) = spend remaining l ≫= (fun r => spend r k).
Proof.
  revert remaining. induction l as [|[n u] l IH]; intros rem; simpl; [done|].
  destruct (rem !! n); [|done]. destruct (_ || _); [done|apply IH].
Qed.

Lemma affordable_perm remaining l k : Permutation l k -> affordable remaining l -> affordable remaining k.
Proof.
  unfold affordable. intros Hp Ha. rewrite <- Hp at 1. rewrite Forall_forall in *. intros e He.
  destruct (Ha e He) as (Hu & a & Hn & Hle). split; [done|]. exists a. split; [done|]. by rewrite <- (total_perm _ _ _ Hp).
Qed.

(** The order of the payments does not matter. *)
Lemma spend_perm remaining l k : Permutation l k -> spend remaining l = spend remaining k.
Proof.
  intros Hp. destruct (spend remaining l) as [r|] eqn:Hl.
  - apply spend_Some in Hl as [Ha ->]. rewrite (spend_complete _ k) by by eapply affordable_perm.
    f_equal. apply map_eq. intros n. rewrite !after_lookup. by rewrite (total_perm n _ _ Hp).
  - destruct (spend remaining k) as [r|] eqn:Hk; [|done]. apply spend_Some in Hk as [Ha _].
    rewrite (spend_complete _ l) in Hl by by eapply affordable_perm. done.
Qed.

(** ** Planning *)
Definition named (e : string * Z) : bool := (e.1 != "") && validRuntimeText [e.1].

Lemma allocateLoop_spend remaining allocation :
  allocateLoop remaining allocation = if forallb named allocation then spend remaining allocation else None.
Proof.
  revert remaining. induction allocation as [|[n u] l IH]; intros rem; simpl; [done|]. unfold named at 1. simpl.
  destruct (rem !! n) as [a|]; [|by destruct (forallb named l); destruct (n == ""), (validRuntimeText [n])].
  destruct (n == ""), (validRuntimeText [n]); simpl; try done. destruct ((u <? 0)%Z || (a <? u)%Z); [|apply IH].
  by destruct (forallb named l).
Qed.

Definition allocations (specs : list ChildSpec) : list (string * Z) := flat_map (fun s => range (csp_Allocation s)) specs.

(** The plan loop accepts exactly: named distinct children and affordable allocations. *)
Lemma planLoop_iff specs : forall seen remaining, is_Some (match planLoop seen remaining specs with Ok r => Some r | Err _ => None end) <->
  Forall (fun s => csp_ID s <> "" /\ validRuntimeText [csp_ID s] = true /\ csp_ID s ∉ seen) specs /\
  NoDup (map csp_ID specs) /\ Forall (fun e => named e = true) (allocations specs) /\
  is_Some (spend remaining (allocations specs)).
Proof.
  induction specs as [|s specs IH]; intros seen rem.
  { simpl. split; [|by eexists]. intros _. split_and!; try constructor. by eexists. }
  cbn [planLoop]. destruct (bool_decide_reflect (csp_ID s = "")) as [E|E]; simpl.
  { split; [intros [? [=]]|]. intros (Hf & _). apply Forall_cons in Hf as [(? & _) _]. done. }
  destruct (validRuntimeText [csp_ID s]) eqn:Ht; simpl.
  2:{ split; [intros [? [=]]|]. intros (Hf & _). apply Forall_cons in Hf as [(? & ? & _) _]. congruence. }
  case_bool_decide as Hs.
  { split; [intros [? [=]]|]. intros (Hf & _). apply Forall_cons in Hf as [(? & ? & ?) _]. done. }
  unfold allocateChildCounters. rewrite allocateLoop_spend.
  cbn [allocations flat_map map]. rewrite spend_app, Forall_app, <- (forallb_Forall named (range _)), NoDup_cons.
  destruct (forallb named (range (csp_Allocation s))); simpl.
  2:{ split; [intros [? [=]]|]. by intros (_ & _ & [? _] & _). }
  destruct (spend rem (range (csp_Allocation s))) as [r|]; simpl.
  2:{ split; [intros [? [=]]|]. by intros (_ & _ & _ & [? [=]]). }
  rewrite (IH (csp_ID s :: seen) r), Forall_cons. unfold allocations. setoid_rewrite not_elem_of_cons.
  setoid_rewrite list_elem_of_In. setoid_rewrite in_map_iff. rewrite !Forall_forall.
  setoid_rewrite list_elem_of_In. split.
  - intros (Hf & Hn & Ha & Hsp). split_and!; try done.
    + by rewrite <- list_elem_of_In.
    + intros x Hx. destruct (Hf x Hx) as (? & ? & ? & ?). by split_and!.
    + intros (x & E' & Hx). destruct (Hf x Hx) as (? & ? & ? & ?). congruence.
  - intros ((_ & Hf) & (Hni & Hn) & (_ & Ha) & Hsp). split_and!; try done. intros x Hx.
    destruct (Hf x Hx) as (? & ? & ?). split_and!; try done. intros E'. apply Hni. by exists x.
Qed.

Lemma allocations_perm l k : Permutation l k -> Permutation (allocations l) (allocations k).
Proof. intros Hp. unfold allocations. by rewrite Hp. Qed.

Lemma planLoop_perm seen remaining l k r : Permutation l k -> planLoop seen remaining l = Ok r ->
  exists r', planLoop seen remaining k = Ok r'.
Proof.
  intros Hp Hl. assert (Hk : is_Some (match planLoop seen remaining k with Ok r => Some r | Err _ => None end)).
  { apply planLoop_iff. assert (H : is_Some (match planLoop seen remaining l with Ok r => Some r | Err _ => None end))
      by (rewrite Hl; by eexists). apply planLoop_iff in H as (Hf & Hn & Ha & Hs).
    rewrite <- (spend_perm _ _ _ (allocations_perm _ _ Hp)). split_and!; [by rewrite <- Hp..| |done].
    by rewrite <- (allocations_perm _ _ Hp). }
  destruct (planLoop seen remaining k) as [r'|]; [by eexists|]. by destruct Hk.
Qed.

(** Two sorted plans with the same distinct children are the same list. *)
#[export] Instance id_le_total : Total id_le.
Proof.
  intros a b. unfold id_le, String.leb. rewrite (String.compare_antisym (csp_ID b)).
  destruct (csp_ID a ?= csp_ID b)%string; simpl; auto.
Qed.
Lemma id_le_trans : Transitive id_le.
Proof.
  intros a b c. unfold id_le. generalize (csp_ID a) (csp_ID b) (csp_ID c). unfold String.leb.
  induction s as [|x s IH]; intros [|y t] [|z u]; simpl; try done. unfold Ascii.compare.
  destruct (N.compare_spec (N_of_ascii x) (N_of_ascii y)), (N.compare_spec (N_of_ascii y) (N_of_ascii z)),
    (N.compare_spec (N_of_ascii x) (N_of_ascii z)); try done; try lia; try apply IH; congruence || lia.
Qed.
Lemma id_le_antisym a b : id_le a b -> id_le b a -> csp_ID a = csp_ID b.
Proof.
  unfold id_le, String.leb. rewrite (String.compare_antisym (csp_ID b)). intros H1 H2.
  destruct (csp_ID a ?= csp_ID b)%string eqn:E; simpl in *; try done. by apply String.compare_eq_iff in E.
Qed.
Lemma sorted_specs_unique l k : StronglySorted id_le l -> StronglySorted id_le k -> Permutation l k ->
  NoDup (map csp_ID l) -> l = k.
Proof.
  revert k. induction l as [|a l IH]; intros k Hl Hk Hp Hn; [by apply Permutation_nil in Hp|].
  destruct k as [|b k]; [by symmetry in Hp; apply Permutation_nil in Hp|].
  apply StronglySorted_inv in Hl as [Hl Ha]. apply StronglySorted_inv in Hk as [Hk Hb].
  assert (a = b) as <-.
  { assert (Hin : b ∈ a :: l) by (rewrite Hp; set_solver). apply elem_of_cons in Hin as [->|Hin]; [done|].
    assert (Hin' : a ∈ b :: k) by (rewrite <- Hp; set_solver). apply elem_of_cons in Hin' as [->|Hin']; [done|].
    rewrite Forall_forall in Ha, Hb. simpl in Hn. apply NoDup_cons in Hn as [Hn _]. exfalso. apply Hn.
    rewrite (id_le_antisym a b) by auto. apply list_elem_of_In, in_map. by apply list_elem_of_In. }
  f_equal. apply IH; [done..|by apply Permutation_cons_inv in Hp|by apply NoDup_cons in Hn as [_ ?]].
Qed.
Lemma sortSpecs_perm l : Permutation (sortSpecs l) l.
Proof. apply merge_sort_Permutation. Qed.
Lemma sortSpecs_idem l : NoDup (map csp_ID l) -> sortSpecs (sortSpecs l) = sortSpecs l.
Proof.
  intros Hn. pose proof id_le_trans. apply sorted_specs_unique; try (apply (StronglySorted_merge_sort id_le)).
  - by rewrite sortSpecs_perm.
  - by rewrite !sortSpecs_perm.
Qed.

(** ** The capacity ledger *)

(** What a group still holds, name by name, with the difference [sub] of allocation and return:
    [go_sub] of Go, which wraps, or [Z.sub]. *)
Definition go_sub (allocation returned : Z) : Z := wrap_int64 (allocation - returned).
Definition child_outstanding (sub : Z -> Z -> Z) (group : ChildGroupRecord) (child : ChildRecord) : list (string * Z) :=
  map (fun e => (e.1, sub e.2 (returnedUnits group (csp_ID (chd_Spec child)) e.1))) (range (csp_Allocation (chd_Spec child))).
Definition outstanding (sub : Z -> Z -> Z) (group : ChildGroupRecord) : list (string * Z) :=
  flat_map (child_outstanding sub group) (grp_Children group).
Definition held (sub : Z -> Z -> Z) (activation : N) (groups : list ChildGroupRecord) : list (string * Z) :=
  flat_map (outstanding sub) (filter (fun g => grp_Activation g = activation) groups).

(** The contract of the ledger: groups of one activation agree on its capacity, and what
    they hold together never exceeds it. *)
Definition capacity_respected (sub : Z -> Z -> Z) (groups : list ChildGroupRecord) : Prop :=
  (forall g h, g ∈ groups -> h ∈ groups -> grp_Activation g = grp_Activation h -> grp_Capacity g = grp_Capacity h) /\
  (forall g, g ∈ groups -> affordable (grp_Capacity g) (held sub (grp_Activation g) groups)).

(** No difference of an allocation and what was returned of it leaves the width of [int], as where
    neither is negative. *)
Definition int_differences (group : ChildGroupRecord) : Prop :=
  Forall (fun child => Forall (fun e => is_int64 (e.2 - returnedUnits group (csp_ID (chd_Spec child)) e.1))
    (range (csp_Allocation (chd_Spec child)))) (grp_Children group).

Lemma flat_map_ext_elem {A B} (f g : A -> list B) l : (forall x, x ∈ l -> f x = g x) -> flat_map f l = flat_map g l.
Proof. induction l as [|x l IH]; intros H; simpl; [done|]. rewrite (H x), IH by set_solver. done. Qed.
Lemma outstanding_exact group : int_differences group -> outstanding go_sub group = outstanding Z.sub group.
Proof.
  unfold int_differences. rewrite Forall_forall. intros Hd. apply flat_map_ext_elem. intros child Hc. apply map_ext_in. intros e He%list_elem_of_In.
  specialize (Hd child Hc). rewrite Forall_forall in Hd. unfold go_sub. by rewrite wrap_int64_id by by apply (Hd e).
Qed.
Lemma held_exact activation groups : (forall g, g ∈ groups -> int_differences g) -> held go_sub activation groups = held Z.sub activation groups.
Proof. intros Hd. apply flat_map_ext_elem. intros g [_ Hg]%list_elem_of_filter. by apply outstanding_exact, Hd. Qed.
Lemma respected_exact groups : (forall g, g ∈ groups -> int_differences g) -> capacity_respected go_sub groups <-> capacity_respected Z.sub groups.
Proof. intros Hd. unfold capacity_respected. by setoid_rewrite (fun a => held_exact a groups Hd). Qed.

Lemma ledgerNames_spend group id remaining names :
  ledgerNames group id remaining names = spend remaining (map (fun e => (e.1, go_sub e.2 (returnedUnits group id e.1))) names).
Proof.
  revert remaining. induction names as [|[n u] l IH]; intros rem; simpl; [done|].
  destruct (rem !! n); [|done]. destruct (_ || _); [done|apply IH].
Qed.

Lemma ledgerChildren_spend group remaining children :
  ledgerChildren group remaining children = spend remaining (flat_map (child_outstanding go_sub group) children).
Proof.
  revert remaining. induction children as [|c l IH]; intros rem; simpl; [done|].
  rewrite spend_app, ledgerNames_spend. unfold child_outstanding at 1. destruct (spend rem _); simpl; [apply IH|done].
Qed.

Lemma held_app activation l k : held go_sub activation (l ++ k) = held go_sub activation l ++ held go_sub activation k.
Proof. unfold held. by rewrite filter_app, flat_map_app. Qed.
Lemma held_same g : held go_sub (grp_Activation g) [g] = outstanding go_sub g.
Proof. unfold held. rewrite filter_cons_True by done. simpl. by rewrite app_nil_r. Qed.
Lemma held_other activation g : grp_Activation g <> activation -> held go_sub activation [g] = [].
Proof. unfold held. intros Hn. by rewrite filter_cons_False. Qed.

Lemma spend_iff remaining events : is_Some (spend remaining events) <-> affordable remaining events.
Proof.
  split; [intros [r Hr]; by apply spend_Some in Hr as [? _]|]. intros Ha. rewrite spend_complete by done. by eexists.
Qed.

Lemma respected_prefix l k : capacity_respected go_sub (l ++ k) -> capacity_respected go_sub l.
Proof.
  intros [Hc Ha]. split; [intros g h Hg Hh; apply Hc; set_solver|]. intros g Hg.
  assert (Hg' : g ∈ l ++ k) by set_solver. specialize (Ha g Hg'). rewrite <- spend_iff, held_app, spend_app in Ha.
  rewrite <- spend_iff. destruct (spend _ (held go_sub (grp_Activation g) l)); [by eexists|]. by destruct Ha.
Qed.

(** The ledger after the groups [done]. *)
Definition ledger_of (ledger : gmap N (gmap string Z * gmap string Z)) (settled : list ChildGroupRecord) : Prop :=
  forall activation, match ledger !! activation with
  | None => forall g, g ∈ settled -> grp_Activation g <> activation
  | Some (capacity, remaining) =>
      (exists g, g ∈ settled /\ grp_Activation g = activation) /\
      (forall g, g ∈ settled -> grp_Activation g = activation -> grp_Capacity g = capacity) /\
      spend capacity (held go_sub activation settled) = Some remaining
  end.

Lemma held_none activation groups : (forall g, g ∈ groups -> grp_Activation g <> activation) -> held go_sub activation groups = [].
Proof.
  unfold held. induction groups as [|g l IH]; intros H; [done|]. rewrite filter_cons_False by (apply H; set_solver).
  apply IH. intros h Hh. apply H. set_solver.
Qed.

(** One iteration of the loop succeeds exactly when the contract extends to the next group. *)
Lemma ledger_next ledger settled g : ledger_of ledger settled -> capacity_respected go_sub settled ->
  capacity_respected go_sub (settled ++ [g]) <->
  is_Some (match ledger !! grp_Activation g with
           | Some (capacity, remaining) => if capacity == grp_Capacity g then spend remaining (outstanding go_sub g) else None
           | None => spend (grp_Capacity g) (outstanding go_sub g)
           end).
Proof.
  intros HL Hr. specialize (HL (grp_Activation g)). destruct (ledger !! grp_Activation g) as [[cap rem]|].
  - destruct HL as ((h & Hh & Hha) & Hcap & Hs). case_bool_decide as E.
    + subst cap. assert (Hsp : spend (grp_Capacity g) (held go_sub (grp_Activation g) (settled ++ [g])) = spend rem (outstanding go_sub g))
        by by rewrite held_app, held_same, spend_app, Hs. rewrite <- Hsp, spend_iff. split; [intros [_ Ha]; apply Ha; set_solver|].
      intros Ha. split.
      * intros x y Hx Hy Hxy. rewrite elem_of_app, list_elem_of_singleton in Hx, Hy. destruct Hr as [Hr _].
        destruct Hx as [Hx| ->], Hy as [Hy| ->]; auto. by symmetry; apply Hcap.
      * intros x Hx. destruct (decide (grp_Activation x = grp_Activation g)) as [Ex|Ex].
        { rewrite Ex. rewrite elem_of_app, list_elem_of_singleton in Hx. destruct Hx as [Hx| ->]; [by rewrite (Hcap x)|done]. }
        rewrite held_app, (held_other _ g) by done. rewrite app_nil_r. destruct Hr as [_ Hr]. apply Hr. set_solver.
    + split; [|by intros [? [=]]]. intros [Hc _]. exfalso. apply E. rewrite <- (Hcap h) by done. apply Hc; set_solver.
  - assert (Hh : held go_sub (grp_Activation g) (settled ++ [g]) = outstanding go_sub g)
      by by rewrite held_app, held_same, held_none. rewrite <- Hh at 1. rewrite spend_iff. split; [intros [_ Ha]; apply Ha; set_solver|].
    intros Ha. split.
    + intros x y Hx Hy Hxy. rewrite elem_of_app, list_elem_of_singleton in Hx, Hy. destruct Hr as [Hr _].
      destruct Hx as [Hx| ->], Hy as [Hy| ->]; auto; exfalso; eapply HL; eauto.
    + intros x Hx. rewrite elem_of_app, list_elem_of_singleton in Hx. destruct Hx as [Hx| ->]; [|done].
      rewrite held_app, (held_other _ g), app_nil_r by (intros E; eapply HL; eauto). by apply Hr.
Qed.

Lemma ledger_extend ledger settled g rem : ledger_of ledger settled ->
  match ledger !! grp_Activation g with
  | Some (capacity, remaining) => if capacity == grp_Capacity g then spend remaining (outstanding go_sub g) else None
  | None => spend (grp_Capacity g) (outstanding go_sub g)
  end = Some rem -> ledger_of (<[grp_Activation g := (grp_Capacity g, rem)]> ledger) (settled ++ [g]).
Proof.
  intros HL Hs activation. specialize (HL activation). destruct (decide (grp_Activation g = activation)) as [E|E].
  - subst activation. rewrite lookup_insert_eq. split; [exists g; set_solver|]. rewrite held_app, held_same, spend_app.
    destruct (ledger !! grp_Activation g) as [[cap r]|].
    + destruct HL as (_ & Hcap & Hh). case_bool_decide; [subst cap|done]. split; [|by rewrite Hh].
      intros x Hx Hxg. rewrite elem_of_app, list_elem_of_singleton in Hx. destruct Hx as [Hx| ->]; auto.
    + split; [|by rewrite held_none]. intros x Hx Hxg. rewrite elem_of_app, list_elem_of_singleton in Hx.
      destruct Hx as [Hx| ->]; [exfalso; by eapply HL|done].
  - rewrite lookup_insert_ne, held_app, (held_other _ g), app_nil_r by done.
    destruct (ledger !! activation) as [[cap r]|].
    + destruct HL as ((h & Hh & Ha) & Hcap & Hsp). split; [exists h; set_solver|]. split; [|done].
      intros x Hx Hxa. rewrite elem_of_app, list_elem_of_singleton in Hx. destruct Hx as [Hx| ->]; auto. done.
    + intros x Hx. rewrite elem_of_app, list_elem_of_singleton in Hx. destruct Hx as [Hx| ->]; auto.
Qed.

Lemma ledger_iff groups : forall ledger settled, ledger_of ledger settled -> capacity_respected go_sub settled ->
  is_Some (ledgerGroups ledger groups) <-> capacity_respected go_sub (settled ++ groups).
Proof.
  induction groups as [|g groups IH]; intros ledger settled HL Hr.
  { simpl. rewrite app_nil_r. split; [done|]. intros _. by eexists. }
  pose proof (ledger_next ledger settled g HL Hr) as Hn. pose proof (ledger_extend ledger settled g) as Hx.
  cbn [ledgerGroups]. rewrite cons_middle, app_assoc.
  assert (Heq : (match ledger !! grp_Activation g with
           | Some (capacity, remaining) => if capacity == grp_Capacity g then spend remaining (outstanding go_sub g) else None
           | None => spend (grp_Capacity g) (outstanding go_sub g) end) =
      (match ledger !! grp_Activation g with
       | Some (capacity, remaining) => if capacity == grp_Capacity g then Some remaining else None
       | None => Some (grp_Capacity g) end) ≫= (fun r => ledgerChildren g r (grp_Children g))).
  { destruct (ledger !! grp_Activation g) as [[cap r]|]; [case_bool_decide|]; simpl; rewrite ?ledgerChildren_spend; done. }
  rewrite Heq in Hn, Hx. destruct (match ledger !! grp_Activation g with Some _ => _ | None => _ end) as [r|]; simpl in *.
  2:{ split; [by intros [? [=]]|]. intros Hp. apply respected_prefix, Hn in Hp. by destruct Hp. }
  destruct (ledgerChildren g r (grp_Children g)) as [r'|]; simpl in *.
  - apply IH; [by apply Hx|]. apply Hn. by eexists.
  - split; [by intros [? [=]]|]. intros Hp. apply respected_prefix, Hn in Hp. by destruct Hp.
Qed.

Lemma respected_perm l k : Permutation l k -> capacity_respected go_sub l -> capacity_respected go_sub k.
Proof.
  intros Hp [Hc Ha]. split.
  - intros g h Hg Hh. rewrite <- Hp in Hg, Hh. auto.
  - intros g Hg. rewrite <- Hp in Hg. eapply affordable_perm; [|by apply Ha]. unfold held. by rewrite Hp.
Qed.

(** C36: [validateChildCapacityLedger] accepts exactly the group sets in which all groups of
    an activation state the same capacity and in which, for every named unit, what the
    children of that activation hold (allocations less returns in the arithmetic of [int],
    none negative) adds up to at most the capacity. Where no such difference leaves the width
    of [int] they are the mathematical differences. The verdict is the same for every order
    in which Go ranges over the map. *)
Theorem capacity_ledger_exact (groups : gmap string ChildGroupRecord) :
  (validateChildCapacityLedger groups = None <-> capacity_respected go_sub (map snd (range groups))) /\
  ((forall id g, groups !! id = Some g -> int_differences g) ->
     validateChildCapacityLedger groups = None <-> capacity_respected Z.sub (map snd (range groups))) /\
  (forall order, Permutation order (map snd (range groups)) ->
     is_Some (ledgerGroups ∅ order) <-> validateChildCapacityLedger groups = None).
Proof.
  assert (H0 : ledger_of ∅ []) by (intros a; rewrite lookup_empty; set_solver).
  assert (Hr : capacity_respected go_sub []) by (split; set_solver).
  assert (Hv : validateChildCapacityLedger groups = None <-> is_Some (ledgerGroups ∅ (map snd (range groups)))).
  { unfold validateChildCapacityLedger. destruct (ledgerGroups _ _); simpl; split; intros Hs; first [done|by eexists|by destruct Hs]. }
  rewrite Hv. setoid_rewrite Hv. rewrite (ledger_iff _ _ [] H0 Hr). split_and!; [done| |].
  { intros Hd. simpl. apply respected_exact. intros g Hg. apply list_elem_of_fmap in Hg as ([id g'] & -> & Hg). apply (Hd id). by apply elem_of_map_to_list in Hg. }
  intros order Hp.
  rewrite !(ledger_iff _ _ [] H0 Hr). simpl. split; apply respected_perm; [done|by symmetry].
Qed.
