(* ===== verification/ChildrenInv.v ===== *)
(** * The child group state machine

    Every transition of Children.v keeps a group valid; settled children never change;
    budgets are conserved. *)

From stdpp Require Import relations.
From S2P Require Import Prelude Go Sha256 Json Identity Schedule Activity Waits Contract Wire Children ChildBudget.

#[local] Arguments validRuntimeText : simpl never.
#[local] Arguments validateChildRecordState : simpl never.
#[local] Arguments validChildOutcomeRequest : simpl never.

(** ** The integrity check, part by part *)

Definition state_ok (c : ChildRecord) : Prop := validateChildRecordState c = None.

(** What a valid record says while its child is not settled: none of the manual records. *)
Lemma unsettled_no_records c : state_ok c -> settledChild c = false ->
  chd_WaitResolution c = None /\ chd_CancelConfirmation c = None /\ chd_OutcomeResolution c = None /\
  validateChildStateMachine c = None /\ validRuntimeText [chd_WaitID c] = true.
Proof.
  unfold state_ok, validateChildRecordState, settledChild. intros H Hs. guard_in H; [done|].
  rewrite !orb_false_iff, !bool_decide_eq_false in Hs. destruct Hs as [[H1 H2] H3].
  rewrite !orb_false_iff, !negb_false_iff in Hg. destruct Hg as [[[Ht Hw] Hc] Ho].
  unfold validChildWaitResolution in Hw. unfold validChildCancelConfirmation in Hc. unfold validChildOutcomeResolution in Ho.
  rewrite (bool_decide_eq_false_2 _ H1), (bool_decide_eq_false_2 _ H2) in *. rewrite (bool_decide_eq_false_2 _ H3) in *.
  destruct (chd_WaitResolution c); [by rewrite ?andb_false_r in Hw|].
  destruct (chd_CancelConfirmation c); [done|]. by destruct (chd_OutcomeResolution c).
Qed.

Lemma state_ok_records c : state_ok c ->
  validChildWaitResolution c = true /\ validChildCancelConfirmation c = true /\ validChildOutcomeResolution c = true.
Proof.
  unfold state_ok, validateChildRecordState. intros H. guard_in H; [done|].
  rewrite !orb_false_iff, !negb_false_iff in Hg. tauto.
Qed.

Lemma outcome_state c p : state_ok c -> chd_OutcomeResolution c = Some p ->
  chd_State c = ChildCompleted \/ chd_State c = ChildFailed.
Proof.
  intros Hc E. apply state_ok_records in Hc as (_ & _ & Ho). unfold validChildOutcomeResolution in Ho. rewrite E in Ho.
  do 18 apply andb_true_iff in Ho as [Ho _]. rewrite orb_true_iff, !bool_decide_eq_true in Ho. done.
Qed.
Lemma resolution_state c p : state_ok c -> chd_WaitResolution c = Some p ->
  chd_State c = ChildCompleted \/ chd_State c = ChildFailed.
Proof.
  intros Hc E. apply state_ok_records in Hc as (Hw & _). unfold validChildWaitResolution in Hw. rewrite E in Hw.
  apply andb_true_iff in Hw as [[_ Hw]%andb_true_iff _]. rewrite orb_true_iff, !bool_decide_eq_true in Hw. done.
Qed.

(** A record without manual decisions is checked by the state machine alone. *)
Lemma plain_state_ok c : chd_WaitResolution c = None -> chd_CancelConfirmation c = None -> chd_OutcomeResolution c = None ->
  validRuntimeText [chd_WaitID c] = true -> validateChildStateMachine c = None -> state_ok c.
Proof.
  intros Hw Hc Ho Ht Hm. unfold state_ok, validateChildRecordState, validChildWaitResolution,
    validChildCancelConfirmation, validChildOutcomeResolution. by rewrite Hw, Hc, Ho, Ht.
Qed.

Lemma checkedChild_Ok c c' : checkedChild c = Ok c' -> c' = c /\ state_ok c.
Proof. unfold checkedChild, state_ok. intros H. inv_ok H. apply check_Ok in Hok. by simplify_eq. Qed.

(** The shape of an in-place update of the first child with a given identity. *)
Lemma updateChild_Ok id missing f l l' : updateChild id missing f l = Ok l' ->
  exists pre c post c', l = pre ++ c :: post /\ l' = pre ++ c' :: post /\ f c = Ok c' /\ csp_ID (chd_Spec c) = id /\
    Forall (fun x => csp_ID (chd_Spec x) <> id) pre.
Proof.
  revert l'. induction l as [|x l IH]; intros l' H; simpl in H; [done|].
  destruct (bool_decide_reflect (csp_ID (chd_Spec x) = id)) as [E|E]; simpl in H; inv_ok H; simplify_eq.
  - exists [], x, l, x0. by split_and!.
  - destruct (IH _ Hok) as (pre & c & post & c' & -> & -> & Hf & Hid & Hp).
    exists (x :: pre), c, post, c'. split_and!; try done. by constructor.
Qed.

(** The state machine as propositions. *)
Definition no_outcome (c : ChildRecord) : Prop := chd_Error c = "" /\ no_bytes (chd_Result c) = true /\ chd_WaitID c = "".
Definition attempted (c : ChildRecord) : Prop := (2 < chd_Revision c)%N /\ (0 < chd_Incarnation c)%N.
Definition machine_state (c : ChildRecord) : Prop :=
  match chd_State c with
  | ChildPlanned => chd_Revision c = 0%N /\ chd_Incarnation c = 0%N /\ no_outcome c
  | ChildQueued => (0 < chd_Revision c)%N /\ chd_Incarnation c = 0%N /\ no_outcome c
  | ChildRunning => (1 < chd_Revision c)%N /\ (0 < chd_Incarnation c)%N /\ no_outcome c
  | ChildCompleted => attempted c /\ chd_Error c = "" /\ chd_WaitID c = ""
  | ChildFailed => attempted c /\ chd_Error c <> "" /\ chd_WaitID c = ""
  | ChildWaiting => attempted c /\ chd_WaitID c <> "" /\ chd_Error c = ""
  | ChildUnknown => attempted c /\ chd_WaitID c = ""
  | ChildCanceled => (0 < chd_Revision c)%N /\ chd_CancelConfirmed c = true
  | ChildStateOther _ => False
  end.

Lemma machine_iff c : validateChildStateMachine c = None <->
  (chd_CancelConfirmed c = true -> chd_CancelRequested c = true /\ chd_State c = ChildCanceled) /\ machine_state c.
Proof.
  unfold validateChildStateMachine, machine_state, attempted, no_outcome. split.
  - intros Hm. guard_in Hm; [done|]. split.
    + intros E. rewrite E in Hg. simpl in Hg. reflect_bools. done.
    + guard_in Hm; [|done]. clear Hg Hm. destruct (chd_State c); reflect_bools; split_and!; try done; try lia.
  - intros [Hc Hm]. destruct (chd_CancelConfirmed c); simpl.
    + destruct Hc as [-> E]; [done|]. rewrite E in *. simpl. destruct Hm as [Hm _]. apply N.ltb_lt in Hm. by rewrite Hm.
    + destruct (chd_State c); try done; destruct_and?; repeat match goal with
      | H : (_ < _)%N |- _ => apply N.ltb_lt in H; rewrite H; clear H
      | H : _ = _ |- _ => rewrite H; clear H
      | H : _ <> _ |- _ => rewrite (bool_decide_eq_false_2 _ H); clear H
      end; done.
Qed.

(** A step of one child: its contract stays, it was not settled, and the new record is valid. *)
Definition child_step (c c' : ChildRecord) : Prop :=
  chd_Spec c' = chd_Spec c /\ chd_ExecutionID c' = chd_ExecutionID c /\ settledChild c = false /\
  is_u64 (chd_Revision c') /\ state_ok c'.

Section Group.
Context `{JsonCodec ChildGroupPlan} `{JsonCodec ChildSpec}.

Definition entry_ok (base : ChildGroupRecord) (index : nat) (child : ChildRecord) : bool :=
  match grp_Children base !! index with
  | None => false
  | Some original =>
      (chd_ExecutionID child == chd_ExecutionID original)
      && (childSpecEncoding (chd_Spec child) == childSpecEncoding (chd_Spec original))
      && is_nil (validateChildRecordState child)
  end.

Record valid_group (g : ChildGroupRecord) : Prop := mk_valid_group {
  vg_base : exists base,
    PlanChildGroup (grp_ParentID g) (grp_Node g) (grp_Activation g) (grp_Plan g) (grp_Capacity g) = Ok base /\
    len (grp_Children g) = len (grp_Children base) /\
    childPlanBytes (grp_Plan base) = childPlanBytes (grp_Plan g) /\
    all_index (entry_ok base) 0 (grp_Children g) = true;
  vg_cancel : validChildCancellation g = true;
  vg_join : validChildJoin g = true;
  vg_returns : validChildBudgetReturns g = true;
  vg_u64 : Forall (fun c => is_u64 (chd_Revision c)) (grp_Children g);
}.

(** [validateChildGroup] on a group whose revisions fit their [uint64] fields. *)
Lemma validateChildGroup_iff g :
  validateChildGroup g = None /\ Forall (fun c => is_u64 (chd_Revision c)) (grp_Children g) <-> valid_group g.
Proof.
  unfold validateChildGroup. split.
  - intros [V Hw]. destruct (PlanChildGroup _ _ _ _ _) as [base|] eqn:Hb; [|done].
    repeat (guard_in V; [done|]). rewrite !orb_false_iff, !negb_false_iff in *. destruct Hg as [[Hl Hc] Hj].
    apply bool_decide_eq_true in Hl, Hg1. destruct (all_index _ _ _) eqn:Ha; [|done].
    split; try done. by exists base.
  - intros [(base & Hb & Hl & Hp & Ha) Hc Hj Hr Hw]. split; [|done]. rewrite Hb, Hc, Hj, Hr. unfold entry_ok in Ha. rewrite Ha.
    by rewrite !bool_decide_eq_true_2.
Qed.

(** Records that are aligned with the same plan as before. *)
Lemma aligned_map base l l' : Forall2 (fun c c' => chd_Spec c' = chd_Spec c /\ chd_ExecutionID c' = chd_ExecutionID c /\
    (state_ok c -> state_ok c')) l l' ->
  forall i, all_index (entry_ok base) i l = true -> all_index (entry_ok base) i l' = true.
Proof.
  induction 1 as [|c c' l l' (Hs & He & Hv) _ IH]; intros i Ha; [done|]. simpl in *.
  apply andb_true_iff in Ha as [Hx Ha]. rewrite (IH _ Ha), andb_true_r.
  unfold entry_ok in *. destruct (grp_Children base !! i); [|done]. rewrite Hs, He.
  unfold state_ok in Hv. destruct (validateChildRecordState c); [by rewrite andb_false_r in Hx|].
  by rewrite Hv.
Qed.

Lemma aligned_states base l : forall i, all_index (entry_ok base) i l = true -> Forall state_ok l.
Proof.
  induction l as [|c l IH]; intros i Ha; [constructor|]. simpl in Ha. apply andb_true_iff in Ha as [Hx Ha].
  constructor; [|by eapply IH]. unfold entry_ok in Hx. destruct (grp_Children base !! i); [|done].
  unfold state_ok. destruct (validateChildRecordState c); [by rewrite andb_false_r in Hx|done].
Qed.

Lemma group_states g : valid_group g -> Forall state_ok (grp_Children g).
Proof. intros [(base & _ & _ & _ & Ha) _ _ _ _]. by eapply aligned_states. Qed.
End Group.

(** Budget returns name settled children, so a step of an unsettled child keeps them valid. *)
Lemma find_update_ne {A} (p : A -> bool) pre c post c' : p c' = p c ->
  List.find p (pre ++ c :: post) = Some c \/ List.find p (pre ++ c' :: post) = List.find p (pre ++ c :: post).
Proof.
  intros Hp. induction pre as [|x pre IH]; simpl.
  - rewrite Hp. destruct (p c); auto.
  - destruct (p x); auto.
Qed.

Lemma returns_step g g' pre c post c' : validChildBudgetReturns g = true ->
  grp_Children g = pre ++ c :: post -> grp_Children g' = pre ++ c' :: post ->
  grp_BudgetReturns g' = grp_BudgetReturns g -> chd_Spec c' = chd_Spec c -> settledChild c = false ->
  validChildBudgetReturns g' = true.
Proof.
  unfold validChildBudgetReturns. intros Hr Hc Hc' Hb Hs Hu. rewrite Hb, map_all_true in *.
  intros id r Hl. specialize (Hr id r Hl). unfold validBudgetReturn, childForBudgetReturn in *. rewrite Hc in Hr. rewrite Hc'.
  destruct (find_update_ne (fun x => csp_ID (chd_Spec x) == id) pre c post c') as [E|E]; [by rewrite Hs| |by rewrite E].
  rewrite E in Hr. unfold ComputeChildBudgetReturn in Hr. rewrite Hu in Hr.
  destruct (is_nil (validateChildRecordState c)); by rewrite andb_false_r in Hr.
Qed.

Section Steps.
Context `{JsonCodec ChildGroupPlan} `{JsonCodec ChildSpec}.

(** How a child step must treat the cancellation flags of its group. *)
Definition respects_cancel (g : ChildGroupRecord) (c c' : ChildRecord) : Prop :=
  if grp_CancelRequested g
  then chd_State c' <> ChildPlanned /\ chd_State c' <> ChildQueued /\ (settledChild c' = true \/ chd_CancelRequested c' = true)
  else chd_CancelRequested c' = chd_CancelRequested c /\ chd_CancelConfirmed c' = chd_CancelConfirmed c.

Lemma cancellation_step g g' pre c post c' : validChildCancellation g = true ->
  grp_Children g = pre ++ c :: post -> g' = g <| grp_Children := pre ++ c' :: post |> -> respects_cancel g c c' ->
  validChildCancellation g' = true.
Proof.
  unfold validChildCancellation, respects_cancel. intros Hv Hc -> Hr. simpl. rewrite Hc in Hv.
  destruct (grp_CancelRequested g); simpl in *.
  - destruct (grp_CancelRequest g) as [q|]; [|done]. apply andb_true_iff in Hv as [-> Hv]. simpl.
    rewrite forallb_app in *. simpl in *. rewrite !andb_true_iff in Hv. destruct Hv as (-> & _ & ->).
    destruct Hr as (H1 & H2 & H3). rewrite !bool_decide_eq_false_2 by done. simpl.
    by destruct H3 as [-> | ->]; rewrite ?andb_false_r.
  - apply andb_true_iff in Hv as [-> Hv]. simpl. rewrite forallb_app in *. simpl in *. destruct Hr as [-> ->]. done.
Qed.

(** What a valid group says about the flags of each of its children. *)
Lemma group_flags g c : valid_group g -> c ∈ grp_Children g ->
  if grp_CancelRequested g
  then chd_State c <> ChildPlanned /\ chd_State c <> ChildQueued /\ (settledChild c = true \/ chd_CancelRequested c = true)
  else chd_CancelRequested c = false /\ chd_CancelConfirmed c = false.
Proof.
  intros [_ Hc _ _ _] Hin. unfold validChildCancellation in Hc. destruct (grp_CancelRequested g); simpl in Hc.
  - destruct (grp_CancelRequest g); [|done]. apply andb_true_iff in Hc as [_ Hc].
    rewrite forallb_Forall, Forall_forall in Hc. specialize (Hc c Hin). destruct (settledChild c), (chd_CancelRequested c); reflect_bools; auto.
  - apply andb_true_iff in Hc as [_ Hc]. rewrite forallb_Forall, Forall_forall in Hc. specialize (Hc c Hin).
    by destruct (chd_CancelRequested c), (chd_CancelConfirmed c).
Qed.

(** A joined group has only settled children. *)
Lemma joined_settled g c : valid_group g -> grp_MergedIDs g <> [] -> c ∈ grp_Children g -> settledChild c = true.
Proof.
  intros [_ _ Hj _ _] Hm Hin. unfold validChildJoin in Hj. destruct (grp_MergedIDs g) as [|m ms]; [done|].
  apply andb_true_iff in Hj as [_ Hj]. rewrite all_index_true in Hj. apply list_elem_of_lookup in Hin as [i Hi].
  specialize (Hj i c Hi). destruct (_ !! _); [|done]. by apply andb_true_iff in Hj as [_ ?].
Qed.

(** The child that a lookup by identity finds after an update of that identity. *)
Lemma updateGroupChild_find g g' id missing f : updateGroupChild id missing f g = Ok g' ->
  exists c c', childForBudgetReturn g id = Some c /\ f c = Ok c' /\
    (chd_Spec c' = chd_Spec c -> childForBudgetReturn g' id = Some c').
Proof.
  unfold updateGroupChild, childForBudgetReturn. intros Hu. inv_ok Hu. injection Hu as <-. simpl.
  apply updateChild_Ok in Hok as (pre & c & post & c' & -> & -> & Hf & Hid & Hp). exists c, c'.
  assert (Hfind : forall y, csp_ID (chd_Spec y) = id -> List.find (fun x => csp_ID (chd_Spec x) == id) (pre ++ y :: post) = Some y).
  { intros y Hy. induction Hp as [|x pre Hx _ IH]; simpl; [by rewrite bool_decide_eq_true_2|].
    by rewrite bool_decide_eq_false_2. }
  split_and!; [by apply Hfind|done|]. intros Hs. apply Hfind. by rewrite Hs.
Qed.

(** What every transition keeps: validity, and every settled child as it is. *)
Definition preserved (g g' : ChildGroupRecord) : Prop :=
  valid_group g' /\ Forall2 (fun c c' => c' = c \/ child_step c c') (grp_Children g) (grp_Children g').

Lemma kept_refl (l : list ChildRecord) : Forall2 (fun c c' => c' = c \/ child_step c c') l l.
Proof. apply Forall_Forall2_diag, Forall_true. auto. Qed.

Lemma group_update g g' id missing f : valid_group g -> updateGroupChild id missing f g = Ok g' ->
  (forall c c', childForBudgetReturn g id = Some c -> c ∈ grp_Children g -> state_ok c -> f c = Ok c' -> c' = c \/ child_step c c' /\ respects_cancel g c c') ->
  preserved g g'.
Proof.
  intros Hv Hu Hf. unfold updateGroupChild in Hu. inv_ok Hu. injection Hu as <-.
  apply updateChild_Ok in Hok as (pre & c & post & c' & Hc & -> & Hfc & Hid & Hpre).
  assert (Hin : c ∈ grp_Children g) by (rewrite Hc; set_solver).
  assert (Hst : state_ok c) by (pose proof (group_states g Hv) as Hs; rewrite Forall_forall in Hs; auto).
  assert (Hfind : childForBudgetReturn g id = Some c).
  { unfold childForBudgetReturn. rewrite Hc. clear - Hid Hpre. induction Hpre as [|x pre Hx _ IH]; simpl;
      [by rewrite bool_decide_eq_true_2|by rewrite bool_decide_eq_false_2]. }
  destruct (Hf c c' Hfind Hin Hst Hfc) as [-> | [(Hs & He & Hu & Hw' & Hok') Hr]].
  { rewrite <- Hc. destruct g. split; [done|apply kept_refl]. }
  assert (Hm : grp_MergedIDs g = []).
  { destruct (decide (grp_MergedIDs g = [])) as [|Hn]; [done|]. by rewrite (joined_settled g c Hv Hn Hin) in Hu. }
  destruct Hv as [(base & Hb & Hl & Hp & Ha) Hca Hj Hre Hw]. split.
  2:{ rewrite Hc. simpl. apply Forall2_app; [apply kept_refl|]. constructor; [by right|apply kept_refl]. }
  split.
  - exists base. simpl. split_and!; try done.
    + rewrite <- Hl, Hc. unfold len. by rewrite !length_app.
    + eapply aligned_map; [|exact Ha]. rewrite Hc. apply Forall2_app; [by apply Forall_Forall2_diag, Forall_true|].
      constructor; [done|]. by apply Forall_Forall2_diag, Forall_true.
  - by eapply cancellation_step.
  - unfold validChildJoin in *. simpl. by rewrite Hm in *.
  - by eapply (returns_step g _ pre c post c').
  - simpl. rewrite Hc in Hw. rewrite Forall_app, Forall_cons in *. tauto.
Qed.

(** A step keeps the flags of an unsettled child, or settles it. *)
Lemma keeps_flags g c c' : valid_group g -> c ∈ grp_Children g -> settledChild c = false ->
  chd_CancelRequested c' = chd_CancelRequested c ->
  chd_State c' <> ChildPlanned -> chd_State c' <> ChildQueued ->
  (chd_CancelConfirmed c' = chd_CancelConfirmed c \/ chd_CancelRequested c = true) -> respects_cancel g c c'.
Proof.
  intros Hv Hin Hs Hr H1 H2 Hc. pose proof (group_flags g c Hv Hin) as Hf. unfold respects_cancel.
  destruct (grp_CancelRequested g).
  - split_and!; try done. right. rewrite Hr. destruct Hf as (_ & _ & [Hf|Hf]); congruence.
  - destruct Hf as [Hf1 Hf2]. split; [done|]. destruct Hc; congruence.
Qed.

Lemma unsettled_state c : chd_State c = ChildPlanned \/ chd_State c = ChildQueued \/ chd_State c = ChildRunning \/
  chd_State c = ChildWaiting \/ chd_State c = ChildUnknown -> settledChild c = false.
Proof. unfold settledChild. by intros [-> | [-> | [-> | [-> | ->]]]]. Qed.

(** The begin, finish and recovery transitions of a record. *)
Lemma queued_ok c : state_ok c -> chd_State c = ChildPlanned ->
  state_ok (c <| chd_State := ChildQueued |> <| chd_Revision := succ_u64 (chd_Revision c) |>).
Proof.
  intros Hok E. assert (Hs : settledChild c = false) by (apply unsettled_state; auto).
  destruct (unsettled_no_records c Hok Hs) as (Hw & Hc & Ho & Hm & Ht). apply plain_state_ok; try done.
  rewrite machine_iff in *. unfold machine_state in *. rewrite E in Hm. simpl. destruct Hm as [Hm (-> & Hi & Hn)].
  split; [|by split_and!]. intros E'. by destruct (Hm E').
Qed.

Lemma running_ok c incarnation : state_ok c -> chd_State c = ChildQueued -> (0 < incarnation)%N ->
  (chd_Revision c < max_uint64)%N ->
  state_ok (c <| chd_State := ChildRunning |> <| chd_Revision := succ_u64 (chd_Revision c) |> <| chd_Incarnation := incarnation |>).
Proof.
  intros Hok E Hi Hr. assert (Hs : settledChild c = false) by (apply unsettled_state; auto).
  destruct (unsettled_no_records c Hok Hs) as (Hw & Hc & Ho & Hm & Ht). apply plain_state_ok; try done.
  rewrite machine_iff in *. unfold machine_state in *. rewrite E in Hm. simpl. destruct Hm as [Hm (Hr' & _ & Hn)].
  split; [intros E'; by destruct (Hm E')|]. rewrite succ_u64_lt by done. split_and!; try done. lia.
Qed.

Lemma unknown_ok c : state_ok c -> chd_State c = ChildRunning -> (chd_Revision c < max_uint64)%N ->
  state_ok (c <| chd_State := ChildUnknown |> <| chd_Revision := succ_u64 (chd_Revision c) |>).
Proof.
  intros Hok E Hr. assert (Hs : settledChild c = false) by (apply unsettled_state; auto).
  destruct (unsettled_no_records c Hok Hs) as (Hw & Hc & Ho & Hm & Ht). apply plain_state_ok; try done.
  rewrite machine_iff in *. unfold machine_state, attempted in *. rewrite E in Hm. simpl. destruct Hm as [Hm (Hr' & Hi & Hn)].
  split; [intros E'; by destruct (Hm E')|]. rewrite succ_u64_lt by done. destruct Hn as (_ & _ & ->). split_and!; try done. lia.
Qed.

(** [requestChildCancellationLocked] on one unsettled child. *)
Lemma cancel_marked_ok c : state_ok c -> settledChild c = false -> (chd_Revision c < max_uint64)%N ->
  state_ok (if (chd_State c == ChildPlanned) || (chd_State c == ChildQueued)
            then c <| chd_CancelRequested := true |> <| chd_Revision := succ_u64 (chd_Revision c) |>
                   <| chd_State := ChildCanceled |> <| chd_CancelConfirmed := true |>
            else c <| chd_CancelRequested := true |> <| chd_Revision := succ_u64 (chd_Revision c) |>).
Proof.
  intros Hok Hs Hr. destruct (unsettled_no_records c Hok Hs) as (Hw & Hc & Ho & Hm & Ht).
  rewrite machine_iff in Hm. unfold machine_state, attempted in Hm. destruct Hm as [Hm Hst].
  assert (Hset := Hs). unfold settledChild in Hset. rewrite !orb_false_iff, !bool_decide_eq_false in Hset.
  destruct ((chd_State c == ChildPlanned) || (chd_State c == ChildQueued)) eqn:E; apply plain_state_ok; try done;
    rewrite machine_iff; unfold machine_state, attempted; simpl; rewrite succ_u64_lt by done.
  - split; [done|]. split; [lia|done].
  - rewrite orb_false_iff, !bool_decide_eq_false in E. split; [intros E'; by destruct (Hm E')|].
    unfold no_outcome in *. destruct (chd_State c); try tauto; simpl; destruct_and?; split_and!; try done; lia.
Qed.

Lemma queue_valid g g' id : valid_group g -> queueChild id g = Ok g' -> preserved g g'.
Proof.
  intros Hv Hq. eapply group_update; [done..|]. intros c c' _ Hin Hok Hf. simpl in Hf. inv_ok Hf. simplify_eq.
  apply check_Ok in Hok0. unfold admitChild in Hok0. guard_in Hok0; [done|]. clear Hok0.
  destruct (bool_decide_reflect (chd_State c = ChildPlanned)) as [E|E]; [right|by left]. split.
  - split_and!; try done; [apply unsettled_state; auto|apply succ_u64_is|by apply queued_ok].
  - unfold respects_cancel. apply orb_false_iff in Hg as [-> _]. done.
Qed.

(** The running record is stored only after the queued one, whose revision [admitChild] bounds. *)
Lemma queue_bounds g g' id : queueChild id g = Ok g' ->
  exists c, childForBudgetReturn g' id = Some c /\ (chd_Revision c < max_uint64)%N /\ grp_CancelRequested g' = false.
Proof.
  intros Hq. assert (Hq' := Hq). apply updateGroupChild_find in Hq as (c & c' & _ & Hf & Hc'). cbv beta in Hf. inv_ok Hf.
  apply check_Ok in Hok. unfold admitChild in Hok. guard_in Hok; [done|]. clear Hok.
  apply orb_false_iff in Hg as [Hcr Hr]. apply N.ltb_ge in Hr. injection Hf as <-.
  assert (max_uint64 - 2 < max_uint64 - 1)%N by done. eexists. split; [apply Hc'; by case_bool_decide|].
  split; [case_bool_decide; simpl; [rewrite succ_u64_lt|]; lia|].
  unfold queueChild, updateGroupChild in Hq'. inv_ok Hq'. by injection Hq' as <-.
Qed.

Lemma run_valid g0 g g' id incarnation : valid_group g -> (0 < incarnation)%N -> queueChild id g0 = Ok g ->
  runChild id incarnation g = Ok g' -> preserved g g'.
Proof.
  intros Hv Hi Hq Hr. apply queue_bounds in Hq as (q & Hq & Hqr & Hcr). eapply group_update; [done..|].
  intros c c' Hfc Hin Hok Hf. rewrite Hq in Hfc. injection Hfc as ->. cbv beta in Hf. inv_ok Hf. simplify_eq.
  apply check_Ok in Hok0. case_bool_decide as E; [|done]. right. split.
  - split_and!; try done; [apply unsettled_state; auto|apply succ_u64_is|by apply running_ok].
  - unfold respects_cancel. by rewrite Hcr.
Qed.

Lemma finish_valid g g' invocation result dispatchErr incarnation : valid_group g ->
  finishChild invocation result dispatchErr incarnation g = Ok g' -> preserved g g'.
Proof.
  intros Hv Hu. eapply group_update; [done..|]. intros c c' _ Hin Hok Hf. right. unfold finishChildRecord in Hf.
  guard_in Hf; [done|]. apply negb_false_iff in Hg. unfold childInvocationMatches in Hg.
  repeat (apply andb_true_iff in Hg as [Hg _]). apply bool_decide_eq_true in Hg as E.
  revert Hf. generalize (match dispatchErr with Some e => mkChildResult ChildUnknown "" e "" | None => result end).
  intros outcome Hf. guard_in Hf; [done|]. apply checkedChild_Ok in Hf as [-> Hc']. apply negb_false_iff in Hg.
  assert (Hs : settledChild c = false) by (apply unsettled_state; auto).
  remember (c <| chd_State := res_State outcome |> <| chd_Result := res_Payload outcome |>
    <| chd_Error := res_Error outcome |> <| chd_WaitID := res_WaitID outcome |>) as d eqn:Hd.
  assert (Hst : chd_State d = res_State outcome /\ chd_Spec d = chd_Spec c /\ chd_ExecutionID d = chd_ExecutionID c /\
    chd_CancelRequested d = chd_CancelRequested c /\ chd_CancelConfirmed d = chd_CancelConfirmed c) by by subst d.
  clear Hd. destruct Hst as (Hst & Hsp & He & Hr & Hcc). rewrite Hr in *.
  assert (Hp : chd_State d <> ChildPlanned /\ chd_State d <> ChildQueued) by (rewrite Hst; destruct (res_State outcome); done).
  destruct (_ && chd_CancelRequested c) eqn:Ec; (split; [exact (conj Hsp (conj He (conj Hs (conj (succ_u64_is _) Hc'))))|]);
    (apply keeps_flags; [exact Hv|exact Hin|exact Hs|exact Hr|apply Hp|apply Hp|]); [right|by left].
  by apply andb_true_iff in Ec as [_ ?].
Qed.

Lemma confirm_valid g g' d sourceRevision incarnation at_ : valid_group g ->
  applyChildCancelConfirmation d sourceRevision incarnation at_ g = Ok g' -> preserved g g'.
Proof.
  intros Hv Hu. eapply group_update; [done..|]. intros c c' _ Hin Hok Hf. right. unfold confirmChildRecord in Hf.
  guard_in Hf; [done|]. apply checkedChild_Ok in Hf as [-> Hc']. rewrite !orb_false_iff, !negb_false_iff in Hg.
  destruct Hg as [[[_ Hr] _] Hu']. unfold unresolvedCancelableChild in Hu'. rewrite !orb_true_iff, !bool_decide_eq_true in Hu'.
  assert (Hs : settledChild c = false) by (apply unsettled_state; tauto). split; [split_and!; try done; apply succ_u64_is|].
  apply keeps_flags; try done. by right.
Qed.

Lemma wait_valid g g' r sourceRevision incarnation at_ : valid_group g ->
  applyChildWaitResolution r sourceRevision incarnation at_ g = Ok g' -> preserved g g'.
Proof.
  intros Hv Hu. eapply group_update; [done..|]. intros c c' _ Hin Hok Hf. right. unfold resolveWaitRecord in Hf.
  guard_in Hf; [done|]. apply checkedChild_Ok in Hf as [-> Hc']. rewrite !orb_false_iff, !negb_false_iff, !bool_decide_eq_true in Hg.
  destruct Hg as [[[_ E] _] _]. assert (Hs : settledChild c = false) by (apply unsettled_state; tauto). split; [split_and!; try done; apply succ_u64_is|].
  pose proof (resolution_state _ _ Hc' eq_refl) as Hw. simpl in Hw.
  apply keeps_flags; try done; simpl; [| |by left]; destruct Hw as [-> | ->]; done.
Qed.

Lemma outcome_valid g g' r groups sourceRevision incarnation at_ replay : valid_group g ->
  applyChildOutcomeResolution r groups sourceRevision incarnation at_ g = Ok (g', replay) -> preserved g g'.
Proof.
  intros Hv Hu. unfold applyChildOutcomeResolution in Hu. guard_in Hu; [done|].
  revert Hu. cbv zeta. generalize (childOutcomeRequestDigest r). intros digest Hu.
  destruct (childOutcomeDecisionReplay _ _ _) as [[|] [e|]]; simplify_eq; [split; [done|apply kept_refl]|]. inv_ok Hu. simplify_eq.
  eapply group_update; [done..|]. intros c c' _ Hin Hok' Hf. right. unfold resolveOutcomeRecord in Hf.
  guard_in Hf; [done|]. guard_in Hf; [done|]. apply checkedChild_Ok in Hf as [-> Hc'].
  assert (Hs : settledChild c = false).
  { apply unsettled_state. apply andb_false_iff in Hg1. rewrite orb_false_iff, !negb_false_iff, !bool_decide_eq_true in Hg1. tauto. }
  split; [split_and!; try done; apply succ_u64_is|]. pose proof (outcome_state _ _ Hc' eq_refl) as Hst. simpl in Hst.
  apply keeps_flags; try done; simpl; [| |by left]; destruct Hst as [-> | ->]; done.
Qed.
(** ** Transitions of several children *)

Lemma returns_map g g' : Forall2 (fun c c' => c' = c \/ chd_Spec c' = chd_Spec c /\ settledChild c = false)
    (grp_Children g) (grp_Children g') ->
  grp_BudgetReturns g' = grp_BudgetReturns g -> validChildBudgetReturns g = true -> validChildBudgetReturns g' = true.
Proof.
  unfold validChildBudgetReturns. intros Hf Hb Hr. rewrite Hb, map_all_true in *. intros id r Hl. specialize (Hr id r Hl).
  unfold validBudgetReturn, childForBudgetReturn in *.
  assert (Hfind : List.find (fun c => csp_ID (chd_Spec c) == id) (grp_Children g') =
                  List.find (fun c => csp_ID (chd_Spec c) == id) (grp_Children g) \/
                  exists c, List.find (fun c => csp_ID (chd_Spec c) == id) (grp_Children g) = Some c /\ settledChild c = false).
  { clear - Hf. induction Hf as [|c c' l l' Hc _ IH]; simpl; [by left|].
    destruct Hc as [-> | [Hs Hu]]; [|rewrite Hs]; destruct (_ == id); eauto. }
  destruct Hfind as [-> | (c & E & Hs)]; [done|]. rewrite E in Hr. unfold ComputeChildBudgetReturn in Hr. rewrite Hs in Hr.
  destruct (is_nil (validateChildRecordState c)); by rewrite andb_false_r in Hr.
Qed.

(** Aligned children of a group, before and after. *)
Lemma base_map g g' : valid_group g -> grp_ParentID g' = grp_ParentID g -> grp_Node g' = grp_Node g ->
  grp_Activation g' = grp_Activation g -> grp_Plan g' = grp_Plan g -> grp_Capacity g' = grp_Capacity g ->
  Forall2 (fun c c' => c' = c \/ child_step c c') (grp_Children g) (grp_Children g') ->
  exists base,
    PlanChildGroup (grp_ParentID g') (grp_Node g') (grp_Activation g') (grp_Plan g') (grp_Capacity g') = Ok base /\
    len (grp_Children g') = len (grp_Children base) /\
    childPlanBytes (grp_Plan base) = childPlanBytes (grp_Plan g') /\
    all_index (entry_ok base) 0 (grp_Children g') = true.
Proof.
  intros [(base & Hb & Hl & Hp & Ha) _ _ _ _] E1 E2 E3 E4 E5 Hf. exists base. rewrite E1, E2, E3, E4, E5.
  split_and!; try done.
  - rewrite <- Hl. unfold len. by rewrite (Forall2_length _ _ _ Hf).
  - eapply aligned_map; [|exact Ha]. eapply Forall2_impl; [exact Hf|]. intros c c' [-> | (Hs & He & _ & _ & Hv)]; by split_and!.
Qed.

Lemma recoverChildren_map incarnation l l' : recoverChildren incarnation l = Ok l' ->
  Forall (fun c => state_ok c /\ is_u64 (chd_Revision c)) l ->
  Forall2 (fun c c' => c' = c \/ child_step c c' /\ chd_State c = ChildRunning /\
    c' = c <| chd_State := ChildUnknown |> <| chd_Revision := succ_u64 (chd_Revision c) |>) l l'.
Proof.
  revert l'. induction l as [|c l IH]; intros l' Hr Hs; simpl in Hr; [by simplify_eq|]. apply Forall_cons in Hs as [[Hc Hw] Hs].
  inv_ok Hr. simplify_eq. constructor; [|by apply IH].
  destruct (bool_decide_reflect (chd_State c = ChildRunning)) as [E|E]; [|simplify_eq; by left].
  case_bool_decide as E1; [done|]. guard_in Hok; [done|]. injection Hok as <-. right. split; [|done].
  unfold is_u64 in Hw. split_and!; try done; [apply unsettled_state; auto|apply succ_u64_is|]. apply unknown_ok; try done. lia.
Qed.

Lemma group_typed g : valid_group g -> Forall (fun c => state_ok c /\ is_u64 (chd_Revision c)) (grp_Children g).
Proof. intros Hv. apply Forall_and. split; [by apply group_states|apply Hv]. Qed.

(** Every child of a group is rewritten or kept; the records of the group other than the
    cancellation request stay. *)
Lemma children_map_valid g g' : valid_group g -> grp_ParentID g' = grp_ParentID g -> grp_Node g' = grp_Node g ->
  grp_Activation g' = grp_Activation g -> grp_Plan g' = grp_Plan g -> grp_Capacity g' = grp_Capacity g ->
  grp_BudgetReturns g' = grp_BudgetReturns g -> grp_MergedIDs g' = grp_MergedIDs g -> grp_MergedResult g' = grp_MergedResult g ->
  Forall2 (fun c c' => c' = c \/ child_step c c') (grp_Children g) (grp_Children g') ->
  validChildCancellation g' = true -> valid_group g'.
Proof.
  intros Hv E1 E2 E3 E4 E5 E6 E7 E8 Hf Hc. split; [by apply (base_map g)|done| | |].
  - unfold validChildJoin. rewrite E7, E8. pose proof (joined_settled g) as Hj. pose proof (vg_join _ Hv) as Hjoin.
    unfold validChildJoin in Hjoin. destruct (grp_MergedIDs g) as [|m ms]; [done|].
    assert (grp_Children g' = grp_Children g) as ->; [|done].
    assert (Hset : Forall (fun c => settledChild c = true) (grp_Children g))
      by (apply Forall_forall; intros c Hin; by apply (Hj c)).
    clear - Hf Hset. induction Hf as [|c c' l l' H _ IH]; [done|]. apply Forall_cons in Hset as [Hs Hset].
    rewrite (IH Hset). destruct H as [-> | (_ & _ & Hn & _)]; congruence.
  - eapply (returns_map g); [|done|apply Hv]. eapply Forall2_impl; [exact Hf|]. intros c c' [-> | (Hs & _ & Hu & _)]; auto.
  - pose proof (vg_u64 _ Hv) as Hw. clear - Hf Hw. induction Hf as [|c c' l l' H _ IH]; [done|].
    apply Forall_cons in Hw as [Hw1 Hw]. constructor; [|by apply IH]. by destruct H as [-> | (_ & _ & _ & ? & _)].
Qed.

Lemma recover_valid g g' incarnation : valid_group g -> recoverGroup incarnation g = Ok g' -> preserved g g'.
Proof.
  intros Hv Hr. unfold recoverGroup in Hr. inv_ok Hr. injection Hr as <-.
  apply recoverChildren_map in Hok; [|by apply group_typed].
  assert (Hk : Forall2 (fun c c' => c' = c \/ child_step c c') (grp_Children g) x)
    by (eapply Forall2_impl; [exact Hok|]; intros c c' [-> | [? _]]; auto).
  split; [|exact Hk]. apply (children_map_valid g); try done; simpl. clear Hk.
  pose proof (vg_cancel _ Hv) as Hc. unfold validChildCancellation in *. simpl.
  destruct (grp_CancelRequested g); simpl in *.
  - destruct (grp_CancelRequest g) as [prior|]; [|done]. apply andb_true_iff in Hc as [-> Hc]. simpl.
    clear Hv. induction Hok as [|c c' l l' Hcc _ IH]; [done|]. simpl in *. apply andb_true_iff in Hc as [Hc1 Hc].
    rewrite (IH Hc), andb_true_r. destruct Hcc as [-> | (_ & E & ->)]; [done|]. simpl in *. unfold settledChild in *. simpl.
    rewrite E in Hc1. done.
  - apply andb_true_iff in Hc as [-> Hc]. simpl. clear Hv. induction Hok as [|c c' l l' Hcc _ IH]; [done|]. simpl in *.
    apply andb_true_iff in Hc as [Hc1 Hc]. rewrite (IH Hc), andb_true_r. by destruct Hcc as [-> | (_ & E & ->)].
Qed.

Lemma cancelLoop_map l l' : cancelChildrenLoop l = Ok l' -> Forall (fun c => state_ok c /\ is_u64 (chd_Revision c)) l ->
  Forall2 (fun c c' => c' = c \/ child_step c c') l l' /\
  Forall (fun c' => chd_State c' <> ChildPlanned /\ chd_State c' <> ChildQueued /\
            (settledChild c' = true \/ chd_CancelRequested c' = true)) l'.
Proof.
  revert l'. induction l as [|c l IH]; intros l' Hr Hs; simpl in Hr; [by simplify_eq|].
  apply Forall_cons in Hs as [[Hc Hw] Hs]. inv_ok Hr. simplify_eq. destruct (IH _ Hok0 Hs) as [IH1 IH2].
  destruct (settledChild c) eqn:Hset.
  { simplify_eq. split; constructor; auto. unfold settledChild in Hset. rewrite !orb_true_iff, !bool_decide_eq_true in Hset.
    split_and!; [| |left; unfold settledChild; by rewrite !orb_true_iff, !bool_decide_eq_true];
      destruct Hset as [[-> | ->] | ->]; done. }
  guard_in Hok; [done|]. apply orb_false_iff in Hg as [Hmax _]. apply bool_decide_eq_false in Hmax.
  assert (Hr : (chd_Revision c < max_uint64)%N) by (unfold is_u64 in Hw; lia).
  pose proof (cancel_marked_ok c Hc Hset Hr) as Hck. injection Hok as <-.
  destruct ((chd_State c == ChildPlanned) || (chd_State c == ChildQueued)) eqn:E; split; constructor; try done.
  - right. split_and!; try done. apply succ_u64_is.
  - split_and!; try done. by left.
  - right. split_and!; try done. apply succ_u64_is.
  - rewrite orb_false_iff, !bool_decide_eq_false in E. destruct E. split_and!; try done. by right.
Qed.

(** [CancelChildren] checks the request before it reaches the group. *)
Definition validCancelRequest (requestID reason : string) (revision incarnation : N) (now : Time) : Prop :=
  requestID <> "" /\ reason <> "" /\ validRuntimeText [requestID; reason] = true /\ (0 < revision)%N /\
  (0 < incarnation)%N /\ IsZero now = false.

Lemma group_cancel_valid g g' requestID reason revision incarnation now : valid_group g ->
  validCancelRequest requestID reason revision incarnation now ->
  requestChildCancellation requestID reason revision incarnation now g = Ok g' -> preserved g g'.
Proof.
  intros Hv (H1 & H2 & H3 & H4 & H5 & H6) Hr. unfold requestChildCancellation in Hr. destruct (grp_CancelRequest g).
  { guard_in Hr; [done|]. simplify_eq. split; [done|apply kept_refl]. }
  inv_ok Hr. injection Hr as <-. apply cancelLoop_map in Hok as [Hf Hc]; [|by apply group_typed].
  split; [|exact Hf]. apply (children_map_valid g); try done. unfold validChildCancellation. simpl.
  assert (IsZero (toUTC now) = false) as -> by done. rewrite H3, !bool_decide_eq_false_2 by (done || lia). simpl.
  apply forallb_Forall. eapply Forall_impl; [exact Hc|]. intros c (Hp & Hq & Hs).
  rewrite (bool_decide_eq_false_2 (chd_State c = ChildPlanned)), (bool_decide_eq_false_2 (chd_State c = ChildQueued)) by done.
  by destruct Hs as [-> | ->]; rewrite ?andb_false_r.
Qed.

Lemma join_valid g g' result : valid_group g -> joinGroup result g = Ok g' -> preserved g g'.
Proof.
  intros Hv Hj. unfold joinGroup in Hj. guard_in Hj; [done|]. injection Hj as <-. apply negb_false_iff in Hg.
  destruct Hv as [Hb Hc Hjn Hr Hw]. split; [|apply kept_refl]. split; try done. unfold validChildJoin. simpl.
  assert (Hne : grp_Children g <> []).
  { destruct Hb as (base & Hb & Hl & _). intros E. rewrite E in Hl. unfold PlanChildGroup in Hb.
    guard_in Hb; [done|]. guard_in Hb; [done|]. inv_ok Hb. injection Hb as <-. unfold len in Hl. simpl in Hl.
    rewrite length_map in Hl. rewrite !orb_false_iff in Hg0. destruct Hg0 as [[_ Hn] _]. apply bool_decide_eq_false in Hn.
    apply Hn. unfold len. rewrite <- (Permutation_length (sortSpecs_perm (pln_Children (grp_Plan g)))). lia. }
  destruct (map _ (grp_Children g)) eqn:E; [by destruct (grp_Children g)|]. rewrite <- E. clear E.
  unfold len. rewrite length_map, bool_decide_eq_true_2 by done. simpl. apply all_index_true. intros i c Hi. simpl.
  rewrite list_lookup_fmap, Hi. simpl. rewrite bool_decide_eq_true_2 by done. simpl.
  rewrite forallb_Forall, Forall_forall in Hg. apply Hg. by eapply list_elem_of_lookup_2.
Qed.

(** [ReturnChildBudget] checks the claim before it reaches the group. *)
Definition validReturnClaim (claim : ChildBudgetReturn) (revision incarnation : N) (now : Time) : Prop :=
  breq_DecisionID claim <> "" /\ breq_Reason claim <> "" /\ breq_Evidence claim <> "" /\
  validRuntimeText [breq_DecisionID claim; breq_Reason claim; breq_Evidence claim] = true /\ (0 < revision)%N /\
  (0 < incarnation)%N /\ IsZero now = false.

Lemma return_valid g g' claim revision incarnation now : valid_group g -> validReturnClaim claim revision incarnation now ->
  returnChildBudget claim revision incarnation now g = Ok g' -> preserved g g'.
Proof.
  intros Hv (H1 & H2 & H3 & H4 & H5 & H6 & H7) Hr. unfold returnChildBudget in Hr.
  destruct (grp_BudgetReturns g !! breq_ChildID claim);
    [guard_in Hr; [done|simplify_eq; split; [done|apply kept_refl]]|].
  destruct (childForBudgetReturn g (breq_ChildID claim)) as [c|] eqn:Hc; [|done].
  case_bool_decide as E; [|done]. simpl in Hr. inv_ok Hr. injection Hr as <-. destruct Hv as [Hb Hca Hj Hre Hw].
  split; [|apply kept_refl]. split; try done.
  unfold validChildBudgetReturns in *. simpl. apply map_all_insert.
  - unfold validBudgetReturn, childForBudgetReturn in *. simpl. rewrite Hc, Hok. simpl.
    assert (IsZero (toUTC now) = false) as -> by done. rewrite H4.
    rewrite (bool_decide_eq_true_2 (chd_Revision c = breq_ChildRevision claim)) by done.
    rewrite !bool_decide_eq_false_2 by (done || lia). simpl. by apply bool_decide_eq_true.
  - erewrite <- Hre. reflexivity.
Qed.
End Steps.

(** ** Provenance: every recorded decision names an earlier revision *)
Lemma child_provenance_mono g r r' c : (r <= r')%N -> validChildProvenance g r c = true -> validChildProvenance g r' c = true.
Proof.
  unfold validChildProvenance, validChildOutcomeGroupProvenance. intros Hr Hp.
  apply andb_true_iff in Hp as [[Ho Hc]%andb_true_iff Hw]. rewrite !andb_true_iff. split_and!.
  - destruct (chd_OutcomeResolution c); [|done]. apply andb_true_iff in Ho as [[Ho1 ->]%andb_true_iff ->].
    rewrite !andb_true_r. apply N.ltb_lt. apply N.ltb_lt in Ho1. lia.
  - destruct (chd_CancelConfirmation c); [|done]. destruct (grp_CancelRequest g); [|done].
    rewrite negb_true_iff, !orb_false_iff in *. destruct Hc as [[Hc1 ->] ->]. split_and!; try done.
    apply N.leb_gt. apply N.leb_gt in Hc1. lia.
  - destruct (chd_WaitResolution c); [|done]. apply N.ltb_lt. apply N.ltb_lt in Hw. lia.
Qed.

Definition prov (g : ChildGroupRecord) (r : N) : Prop := validChildGroupProvenance g r = true.

Lemma prov_iff g r : prov g r <->
  (forall q, grp_CancelRequest g = Some q -> (ccr_SourceRevision q < r)%N) /\
  Forall (fun c => validChildProvenance g r c = true) (grp_Children g) /\
  map_Forall (fun _ b => (cbr_SourceRevision b < r)%N) (grp_BudgetReturns g).
Proof.
  unfold prov, validChildGroupProvenance. rewrite !andb_true_iff, forallb_Forall, map_all_true. split.
  - intros [[Hq Hc] Hb]. split_and!; [|done|].
    + intros q E. rewrite E in Hq. by apply N.ltb_lt.
    + intros id b Hl. by apply N.ltb_lt, (Hb id b).
  - intros (Hq & Hc & Hb). split; [split; [|done]|].
    + destruct (grp_CancelRequest g); [|done]. by apply N.ltb_lt, Hq.
    + intros id b Hl. by apply N.ltb_lt, (Hb id b).
Qed.

Lemma prov_mono g r r' : (r <= r')%N -> prov g r -> prov g r'.
Proof.
  rewrite !prov_iff. intros Hr (Hq & Hc & Hb). split_and!.
  - intros q E. specialize (Hq q E). lia.
  - eapply Forall_impl; [exact Hc|]. intros c. by apply child_provenance_mono.
  - intros id b Hl. specialize (Hb id b Hl). simpl in Hb. lia.
Qed.

(** Records without decisions have nothing to prove. *)
Lemma plain_provenance g r c : chd_WaitResolution c = None -> chd_CancelConfirmation c = None ->
  chd_OutcomeResolution c = None -> validChildProvenance g r c = true.
Proof. intros Hw Hc Ho. unfold validChildProvenance, validChildOutcomeGroupProvenance. by rewrite Hw, Hc, Ho. Qed.

Definition no_records (c : ChildRecord) : Prop :=
  chd_WaitResolution c = None /\ chd_CancelConfirmation c = None /\ chd_OutcomeResolution c = None.

Section Provenance.
Context `{JsonCodec ChildGroupPlan} `{JsonCodec ChildSpec}.

Lemma prov_update g g' id missing f r r' : valid_group g -> prov g r -> (r <= r')%N -> updateGroupChild id missing f g = Ok g' ->
  (forall c c', c ∈ grp_Children g -> csp_ID (chd_Spec c) = id -> state_ok c -> f c = Ok c' ->
     validChildProvenance g r' c = true -> validChildProvenance g r' c' = true) ->
  prov g' r'.
Proof.
  intros Hv Hp Hr Hu Hf. apply (prov_mono _ r r' Hr) in Hp. unfold updateGroupChild in Hu. inv_ok Hu. injection Hu as <-.
  apply updateChild_Ok in Hok as (pre & c & post & c' & Hc & -> & Hfc & Hid & _). rewrite prov_iff in *. simpl.
  destruct Hp as (Hq & Hch & Hb). split_and!; [done| |done]. rewrite Hc in Hch. rewrite Forall_app, Forall_cons in Hch.
  destruct Hch as (H1 & H2 & H3). rewrite Forall_app, Forall_cons. split_and!; [done| |done].
  eapply Hf; try done; [rewrite Hc; set_solver|]. pose proof (group_states g Hv) as Hs. rewrite Forall_forall in Hs.
  apply Hs. rewrite Hc. set_solver.
Qed.

Lemma unsettled_records c : state_ok c -> settledChild c = false -> no_records c.
Proof. intros Hok Hs. destruct (unsettled_no_records c Hok Hs) as (? & ? & ? & _). done. Qed.

Lemma queue_prov g g' id r r' : valid_group g -> prov g r -> (r <= r')%N -> queueChild id g = Ok g' -> prov g' r'.
Proof.
  intros Hv Hp Hr Hq. eapply prov_update; [done..|]. intros c c' Hin _ Hok Hf Hc. cbv beta in Hf. inv_ok Hf. injection Hf as <-.
  case_bool_decide as E; [|exact Hc]. destruct (unsettled_records c Hok) as (Hw & Hcc & Ho); [apply unsettled_state; auto|].
  by apply plain_provenance.
Qed.

Lemma run_prov g g' id incarnation r r' : valid_group g -> prov g r -> (r <= r')%N -> runChild id incarnation g = Ok g' -> prov g' r'.
Proof.
  intros Hv Hp Hr Hq. eapply prov_update; [done..|]. intros c c' Hin _ Hok Hf Hc. cbv beta in Hf. inv_ok Hf.
  injection Hf as <-. apply check_Ok in Hok0. case_bool_decide as E; [|done].
  destruct (unsettled_records c Hok) as (Hw & Hcc & Ho); [apply unsettled_state; auto|]. by apply plain_provenance.
Qed.

Lemma finish_prov g g' invocation result dispatchErr incarnation r r' : valid_group g -> prov g r -> (r <= r')%N ->
  finishChild invocation result dispatchErr incarnation g = Ok g' -> prov g' r'.
Proof.
  intros Hv Hp Hr Hu. eapply prov_update; [done..|]. intros c c' Hin _ Hok Hf Hc. unfold finishChildRecord in Hf.
  guard_in Hf; [done|]. apply negb_false_iff in Hg. unfold childInvocationMatches in Hg.
  do 3 apply andb_true_iff in Hg as [Hg _]. apply bool_decide_eq_true in Hg as E.
  destruct (unsettled_records c Hok) as (Hw & Hcc & Ho); [apply unsettled_state; auto|].
  revert Hf. generalize (match dispatchErr with Some e => mkChildResult ChildUnknown "" e "" | None => result end).
  intros outcome Hf. guard_in Hf; [done|]. apply checkedChild_Ok in Hf as [-> _].
  destruct (_ && _); by apply plain_provenance.
Qed.

Lemma recover_prov g g' incarnation r r' : valid_group g -> prov g r -> (r <= r')%N -> recoverGroup incarnation g = Ok g' ->
  prov g' r'.
Proof.
  intros Hv Hp Hr Hu. apply (prov_mono _ r r' Hr) in Hp. unfold recoverGroup in Hu. inv_ok Hu. injection Hu as Hg'.
  pose proof (group_typed g Hv) as Ht. apply recoverChildren_map in Hok; [|done].
  assert (Hpl : grp_Children g' = x /\ (forall c, validChildProvenance g' r' c = validChildProvenance g r' c) /\
    grp_CancelRequest g' = grp_CancelRequest g /\ grp_BudgetReturns g' = grp_BudgetReturns g) by by subst g'.
  destruct Hpl as (Hx & Hpl & Hq' & Hb'). apply prov_iff in Hp. apply prov_iff. rewrite Hx, Hq', Hb'.
  destruct Hp as (Hq & Hc & Hb). split_and!; try done. clear - Hok Hc Ht Hpl.
  induction Hok as [|c c' l l' Hs _ IH]; [constructor|]. apply Forall_cons in Hc as [Hc1 Hc]. apply Forall_cons in Ht as [Ht1 Ht].
  constructor; [|by apply IH]. rewrite Hpl. destruct Hs as [-> | (_ & E & ->)]; [done|].
  destruct (unsettled_records c) as (Hw & Hcc & Ho); [apply Ht1|apply unsettled_state; auto|]. by apply plain_provenance.
Qed.

Lemma cancel_prov g g' requestID reason incarnation now r r' : valid_group g -> prov g r -> (r < r')%N ->
  requestChildCancellation requestID reason r incarnation now g = Ok g' -> prov g' r'.
Proof.
  intros Hv Hp Hr Hu. assert (Hp' := Hp). apply (prov_mono _ r r') in Hp'; [|lia]. unfold requestChildCancellation in Hu.
  destruct (grp_CancelRequest g) as [q|] eqn:Hq; [guard_in Hu; [done|by simplify_eq]|]. inv_ok Hu. injection Hu as Hg'.
  pose proof (group_typed g Hv) as Ht.
  assert (Hpl : grp_Children g' = x /\ grp_BudgetReturns g' = grp_BudgetReturns g /\
    grp_CancelRequest g' = Some (mkCancelRequest requestID reason r incarnation (toUTC now)) /\
    forall c, chd_CancelConfirmation c = None -> validChildProvenance g r' c = true -> validChildProvenance g' r' c = true).
  { subst g'. split_and!; try done. intros c Hn. unfold validChildProvenance. by rewrite Hn. }
  clear Hg'. destruct Hpl as (Hx & Hb' & Hq' & Hpl). apply prov_iff in Hp'. apply prov_iff. rewrite Hx, Hb', Hq'.
  destruct Hp' as (_ & Hc & Hb). split_and!; [by intros q [= <-]| |done].
  assert (Hno : Forall (fun c => chd_CancelConfirmation c = None) (grp_Children g)).
  { eapply Forall_impl; [exact Hc|]. intros c Hcp. unfold validChildProvenance in Hcp. rewrite Hq in Hcp.
    destruct (chd_CancelConfirmation c); [by rewrite andb_false_r in Hcp|done]. }
  clear - Hok Hc Ht Hno Hpl. revert x Hok. generalize dependent (grp_Children g). intros l.
  induction l as [|c l IH]; intros Hc Ht Hno x Hok; simpl in Hok; [simplify_eq; constructor|].
  apply Forall_cons in Hno as [Hno1 Hno]. apply Forall_cons in Hc as [Hc1 Hc]. apply Forall_cons in Ht as [Ht1 Ht]. inv_ok Hok.
  injection Hok as <-. constructor; [|by eapply IH]. destruct (settledChild c) eqn:Hs; [injection Hok0 as <-; by apply Hpl|].
  guard_in Hok0; [done|]. destruct (unsettled_records c) as (Hw & Hcc & Ho); [apply Ht1|done|].
  injection Hok0 as <-. destruct ((chd_State c == ChildPlanned) || (chd_State c == ChildQueued)); by apply plain_provenance.
Qed.

Lemma confirm_prov g g' d q incarnation at_ r r' : valid_group g -> prov g r -> (r < r')%N ->
  grp_CancelRequest g = Some q -> ccr_ID q = creq_RequestID d ->
  applyChildCancelConfirmation d r incarnation at_ g = Ok g' -> prov g' r'.
Proof.
  intros Hv Hp Hr Hq Hid Hu. assert (Hlt : (ccr_SourceRevision q < r)%N) by (apply prov_iff in Hp as (Hp & _); auto).
  eapply prov_update; [done|done| |done|]; [lia|]. intros c c' Hin _ Hok Hf _. unfold confirmChildRecord in Hf.
  guard_in Hf; [done|]. apply checkedChild_Ok in Hf as [-> _]. rewrite !orb_false_iff, !negb_false_iff in Hg.
  destruct Hg as [_ Hg]. unfold unresolvedCancelableChild in Hg. rewrite !orb_true_iff, !bool_decide_eq_true in Hg.
  destruct (unsettled_records c Hok) as (Hw & Hcc & Ho); [apply unsettled_state; tauto|].
  unfold validChildProvenance, validChildOutcomeGroupProvenance. simpl. rewrite Ho, Hw, Hq, Hid.
  rewrite bool_decide_eq_true_2 by done. simpl. rewrite andb_true_r, negb_true_iff, orb_false_r, orb_false_iff, !N.leb_gt. done.
Qed.

Lemma wait_prov g g' w incarnation at_ r r' : valid_group g -> prov g r -> (r < r')%N ->
  applyChildWaitResolution w r incarnation at_ g = Ok g' -> prov g' r'.
Proof.
  intros Hv Hp Hr Hu. eapply prov_update; [done|done| |done|]; [lia|]. intros c c' Hin _ Hok Hf _. unfold resolveWaitRecord in Hf.
  guard_in Hf; [done|]. apply checkedChild_Ok in Hf as [-> _]. rewrite !orb_false_iff, !negb_false_iff, !bool_decide_eq_true in Hg.
  destruct Hg as [[[_ E] _] _]. destruct (unsettled_records c Hok) as (Hw & Hcc & Ho); [apply unsettled_state; tauto|].
  unfold validChildProvenance, validChildOutcomeGroupProvenance. simpl. rewrite Ho, Hcc. by apply N.ltb_lt.
Qed.

Lemma outcome_provenance_intro g r c p q : chd_OutcomeResolution c = Some p -> chd_CancelConfirmation c = None ->
  chd_WaitResolution c = None ->
  mkOutcomeRequest (grp_Node g) (grp_Activation g) (pln_Key (grp_Plan g)) (pln_Label (grp_Plan g))
    (csp_ID (chd_Spec c)) (chd_ExecutionID c) (cor_ChildRevision p) (cor_DecisionID p) (cor_Reason p) (cor_Evidence p)
    (mkChildResult (chd_State c) (chd_Result c) (chd_Error c) (chd_WaitID c)) = q ->
  validChildOutcomeRequest q = true -> childOutcomeRequestDigest q = cor_RequestDigest p -> (cor_SourceRevision p < r)%N ->
  validChildProvenance g r c = true.
Proof.
  intros Ho Hc Hw Hq Hv Hd Hr. unfold validChildProvenance, validChildOutcomeGroupProvenance. rewrite Ho, Hc, Hw. cbv zeta.
  rewrite Hq, Hv, (bool_decide_eq_true_2 _ Hd). apply N.ltb_lt in Hr. by rewrite Hr.
Qed.

(** The request a recorded outcome reconstructs is the one that was decided. *)
Lemma outcome_prov g g' q groups incarnation at_ replay r r' : valid_group g -> prov g r -> (r < r')%N ->
  validChildOutcomeRequest q = true -> oreq_Node q = grp_Node g -> oreq_Activation q = grp_Activation g ->
  oreq_GroupKey q = pln_Key (grp_Plan g) -> oreq_GroupLabel q = pln_Label (grp_Plan g) ->
  applyChildOutcomeResolution q groups r incarnation at_ g = Ok (g', replay) -> prov g' r'.
Proof.
  intros Hv Hp Hr Hreq E1 E2 E3 E4 Hu. unfold applyChildOutcomeResolution in Hu. guard_in Hu; [done|].
  remember (childOutcomeRequestDigest q) as digest eqn:Hd. cbv zeta in Hu.
  destruct (childOutcomeDecisionReplay _ _ _) as [[|] [e|]]; simplify_eq; [eapply prov_mono; [|done]; lia|]. inv_ok Hu.
  injection Hu as -> <-. eapply prov_update; [done|done| |done|]; [lia|]. intros c c' Hin Hid Hok' Hf _.
  unfold resolveOutcomeRecord in Hf. guard_in Hf; [done|]. guard_in Hf; [done|]. apply checkedChild_Ok in Hf as [-> _].
  assert (Hs : settledChild c = false).
  { apply unsettled_state. apply andb_false_iff in Hg1. rewrite orb_false_iff, !negb_false_iff, !bool_decide_eq_true in Hg1. tauto. }
  destruct (unsettled_records c Hok' Hs) as (Hw & Hcc & Ho). rewrite !orb_false_iff, !negb_false_iff, !bool_decide_eq_true in Hg0.
  destruct Hg0 as [[[Ee Er] _] _].
  assert (Hwid : res_WaitID (oreq_Result q) = "").
  { unfold validChildOutcomeRequest in Hreq. apply andb_true_iff in Hreq as [[_ Hreq]%andb_true_iff _].
    rewrite negb_true_iff, !orb_false_iff, negb_false_iff, bool_decide_eq_true in Hreq. tauto. }
  assert (Heq : mkOutcomeRequest (grp_Node g) (grp_Activation g) (pln_Key (grp_Plan g)) (pln_Label (grp_Plan g))
          (csp_ID (chd_Spec c)) (chd_ExecutionID c) (chd_Revision c) (oreq_DecisionID q) (oreq_Reason q) (oreq_Evidence q)
          (mkChildResult (res_State (oreq_Result q)) (res_Payload (oreq_Result q)) (res_Error (oreq_Result q)) "") = q).
  { rewrite <- Hwid, <- E1, <- E2, <- E3, <- E4, Hid, Ee, Er. by destruct q as [? ? ? ? ? ? ? ? ? ? []]. }
  eapply outcome_provenance_intro; [reflexivity|exact Hcc|exact Hw|exact Heq|exact Hreq|reflexivity|exact Hr].
Qed.

Lemma join_prov g g' result r r' : prov g r -> (r <= r')%N -> joinGroup result g = Ok g' -> prov g' r'.
Proof.
  intros Hp Hr Hj. apply (prov_mono _ r r' Hr) in Hp. unfold joinGroup in Hj. guard_in Hj; [done|]. injection Hj as <-.
  rewrite prov_iff in *. done.
Qed.

Lemma return_prov g g' claim incarnation now r r' : prov g r -> (r < r')%N ->
  returnChildBudget claim r incarnation now g = Ok g' -> prov g' r'.
Proof.
  intros Hp Hr Hu. apply (prov_mono _ r r') in Hp; [|lia]. unfold returnChildBudget in Hu.
  destruct (grp_BudgetReturns g !! _); [guard_in Hu; [done|by simplify_eq]|].
  destruct (childForBudgetReturn _ _); [|done]. guard_in Hu; [done|]. inv_ok Hu. injection Hu as <-.
  rewrite prov_iff in *. destruct Hp as (Hq & Hc & Hb). split_and!; try done. simpl. by apply map_Forall_insert_2.
Qed.
End Provenance.

(** ** Reachable groups *)
Section Reachable.
Context `{JsonCodec ChildGroupPlan} `{JsonCodec ChildSpec}.

(** A fresh plan is valid: planning the sorted plan again gives the same group. *)
Lemma plan_again parentID node activation plan available g :
  PlanChildGroup parentID node activation plan available = Ok g ->
  PlanChildGroup parentID node activation (grp_Plan g) available = Ok g /\
  childPlanBytes (grp_Plan g) = childPlanBytes plan /\
  g = mkGroup parentID node activation (plan <| pln_Children := sortSpecs (pln_Children plan) |>)
        (map (newChildRecord parentID node activation (pln_Key plan)) (sortSpecs (pln_Children plan))) [] "" false None available ∅.
Proof.
  intros Hp. unfold PlanChildGroup in Hp. guard_in Hp; [done|]. guard_in Hp; [done|]. apply bind_Ok in Hp as (r & Hr & Hp).
  injection Hp as <-. cbn [grp_Plan].
  assert (Hn : NoDup (map csp_ID (pln_Children plan))).
  { assert (Hs : is_Some (match planLoop [] available (pln_Children plan) with Ok r => Some r | Err _ => None end))
      by (rewrite Hr; by eexists). by apply planLoop_iff in Hs as (_ & ? & _). }
  split_and!; [| |done].
  - unfold PlanChildGroup. cbn [pln_Key pln_Label pln_MergeLabel pln_BudgetLabel pln_CancelLabel pln_MaxConcurrency
      pln_FailurePolicy pln_Children upd].
    assert (len (sortSpecs (pln_Children plan)) = len (pln_Children plan)) as ->
      by (unfold len; by rewrite (Permutation_length (sortSpecs_perm _))).
    rewrite Hg, Hg0. destruct (planLoop_perm _ _ _ (sortSpecs (pln_Children plan)) _ (symmetry (sortSpecs_perm _)) Hr) as [r' Hr'].
    rewrite Hr'. cbn [mbind res_bind]. by rewrite (sortSpecs_idem _ Hn).
  - unfold childPlanBytes. cbn [pln_Key pln_Label pln_MergeLabel pln_BudgetLabel pln_CancelLabel pln_MaxConcurrency
      pln_FailurePolicy pln_Children upd]. by rewrite (sortSpecs_idem _ Hn).
Qed.

Lemma group_plan_valid parentID node activation plan available g :
  PlanChildGroup parentID node activation plan available = Ok g -> valid_group g /\ forall r, prov g r.
Proof.
  intros Hp. destruct (plan_again _ _ _ _ _ _ Hp) as (Hagain & _ & Hg).
  assert (Hst : Forall (fun c => validateChildRecordState c = None /\ chd_Revision c = 0%N /\ chd_CancelRequested c = false /\
    chd_CancelConfirmed c = false /\ no_records c) (grp_Children g)).
  { rewrite Hg. cbn [grp_Children]. apply Forall_forall. intros c Hc. apply list_elem_of_In, in_map_iff in Hc as (s & <- & _).
    by split_and!. }
  assert (Hf : grp_ParentID g = parentID /\ grp_Node g = node /\ grp_Activation g = activation /\ grp_Capacity g = available /\
    grp_CancelRequested g = false /\ grp_CancelRequest g = None /\ grp_MergedIDs g = [] /\ grp_MergedResult g = "" /\
    grp_BudgetReturns g = ∅) by (rewrite Hg; by split_and!).
  clear Hg. destruct Hf as (E1 & E2 & E3 & E4 & E5 & E6 & E7 & E8 & E9). split.
  - split.
    + exists g. rewrite E1, E2, E3, E4. split_and!; try done.
      apply all_index_true. intros i c Hi. unfold entry_ok. simpl. rewrite Hi, !bool_decide_eq_true_2 by done.
      rewrite Forall_forall in Hst. destruct (Hst c) as (-> & _); [by eapply list_elem_of_lookup_2|done].
    + unfold validChildCancellation. rewrite E5, E6. simpl.
      apply forallb_Forall. eapply Forall_impl; [exact Hst|]. by intros c (_ & _ & -> & -> & _).
    + unfold validChildJoin. by rewrite E7, E8.
    + unfold validChildBudgetReturns. rewrite E9. apply map_all_empty.
    + eapply Forall_impl; [exact Hst|]. intros c (_ & -> & _). unfold is_u64. lia.
  - intros r. apply prov_iff. rewrite E6, E9. split_and!; [done| |apply map_Forall_empty].
    eapply Forall_impl; [exact Hst|]. intros c (_ & _ & _ & _ & Hw & Hc & Ho). by apply plain_provenance.
Qed.

(** One committed change of a group while its execution is at revision [r]; the guards are
    those of the handlers that reach the transition. A launch is two commits: the running
    record is written after the queued one. *)
Inductive group_step (r : N) : ChildGroupRecord -> ChildGroupRecord -> Prop :=
| step_queue g g' id : queueChild id g = Ok g' -> group_step r g g'
| step_run g0 g g' id incarnation : queueChild id g0 = Ok g -> (0 < incarnation)%N -> runChild id incarnation g = Ok g' ->
    group_step r g g'
| step_finish g g' invocation result dispatchErr incarnation :
    finishChild invocation result dispatchErr incarnation g = Ok g' -> group_step r g g'
| step_recover g g' incarnation : recoverGroup incarnation g = Ok g' -> group_step r g g'
| step_cancel g g' requestID reason incarnation now : validCancelRequest requestID reason r incarnation now ->
    requestChildCancellation requestID reason r incarnation now g = Ok g' -> group_step r g g'
| step_confirm g g' d q incarnation at_ : grp_CancelRequest g = Some q -> ccr_ID q = creq_RequestID d ->
    applyChildCancelConfirmation d r incarnation at_ g = Ok g' -> group_step r g g'
| step_wait g g' w incarnation at_ : applyChildWaitResolution w r incarnation at_ g = Ok g' -> group_step r g g'
| step_outcome g g' q groups incarnation at_ replay : validChildOutcomeRequest q = true -> oreq_Node q = grp_Node g ->
    oreq_Activation q = grp_Activation g -> oreq_GroupKey q = pln_Key (grp_Plan g) -> oreq_GroupLabel q = pln_Label (grp_Plan g) ->
    applyChildOutcomeResolution q groups r incarnation at_ g = Ok (g', replay) -> group_step r g g'
| step_join g g' result : joinGroup result g = Ok g' -> group_step r g g'
| step_return g g' claim incarnation now : validReturnClaim claim r incarnation now ->
    returnChildBudget claim r incarnation now g = Ok g' -> group_step r g g'.

(** Revisions only grow; other parts of the execution may commit in between. *)
Inductive group_run : N * ChildGroupRecord -> N * ChildGroupRecord -> Prop :=
| run_here r g : group_run (r, g) (r, g)
| run_step s r g r' g' : group_run s (r, g) -> (r < r')%N -> group_step r g g' -> group_run s (r', g')
| run_wait s r g r' : group_run s (r, g) -> (r <= r')%N -> group_run s (r', g).

Lemma step_valid r g g' : valid_group g -> group_step r g g' -> preserved g g'.
Proof.
  intros Hv Hs. destruct Hs.
  - by eapply queue_valid.
  - by eapply run_valid.
  - by eapply finish_valid.
  - by eapply recover_valid.
  - by eapply group_cancel_valid.
  - by eapply confirm_valid.
  - by eapply wait_valid.
  - by eapply outcome_valid.
  - by eapply join_valid.
  - by eapply return_valid.
Qed.

Lemma step_prov r r' g g' : valid_group g -> prov g r -> (r < r')%N -> group_step r g g' -> prov g' r'.
Proof.
  intros Hv Hp Hr Hs. assert (Hr' : (r <= r')%N) by lia. destruct Hs.
  - by eapply queue_prov.
  - by eapply run_prov.
  - by eapply finish_prov.
  - by eapply recover_prov.
  - by eapply cancel_prov.
  - by eapply confirm_prov.
  - by eapply wait_prov.
  - by eapply outcome_prov.
  - by eapply join_prov.
  - by eapply return_prov.
Qed.

Lemma run_invariant s s' : group_run s s' -> valid_group s.2 -> prov s.2 s.1 -> valid_group s'.2 /\ prov s'.2 s'.1.
Proof.
  induction 1 as [|s r g r' g' _ IH Hr Hs|s r g r' _ IH Hr]; intros Hv Hp; [done| |]; destruct (IH Hv Hp) as [Hv' Hp']; simpl in *.
  - split; [by eapply step_valid|by eapply step_prov].
  - split; [done|by eapply prov_mono].
Qed.

(** Along any run the children stay in place, and a settled one keeps its record. *)
Lemma run_children s s' : group_run s s' -> valid_group s.2 -> prov s.2 s.1 ->
  Forall2 (fun c c' => chd_Spec c' = chd_Spec c /\ chd_ExecutionID c' = chd_ExecutionID c /\ (settledChild c = true -> c' = c))
    (grp_Children s.2) (grp_Children s'.2).
Proof.
  induction 1 as [r g|s r g r' g' Hrun IH Hr Hs|s r g r' _ IH Hr]; intros Hv Hp; simpl in *.
  - by apply Forall_Forall2_diag, Forall_true.
  - destruct (run_invariant _ _ Hrun Hv Hp) as [Hv' _]. destruct (step_valid _ _ _ Hv' Hs) as [_ Hk].
    eapply Forall2_trans; [|by apply IH|exact Hk]. simpl. intros c c1 c2 (Hs1 & He1 & Hf1) [-> | (Hs2 & He2 & Hu & _)]; [done|].
    split_and!; [congruence..|]. intros Hset. rewrite (Hf1 Hset) in Hu. congruence.
  - by apply IH.
Qed.

(** C13: every group reachable from a plan passes the integrity check of the runtime. Along any
    sequence of launches, outcomes, recoveries, cancellations, confirmations, manual
    resolutions, joins and budget returns, committed at increasing revisions, the group
    satisfies [validateChildGroup] and every decision it records names an earlier revision. *)
Theorem reachable_group_valid parentID node activation plan available g0 r0 r g :
  PlanChildGroup parentID node activation plan available = Ok g0 -> group_run (r0, g0) (r, g) ->
  validateChildGroup g = None /\ validChildGroupProvenance g r = true.
Proof.
  intros Hp Hrun. destruct (group_plan_valid _ _ _ _ _ _ Hp) as [Hv Hpr].
  destruct (run_invariant _ _ Hrun Hv (Hpr r0)) as [Hv' Hp']. split; [|exact Hp'].
  by apply validateChildGroup_iff in Hv' as [? _].
Qed.

(** C37: children keep their place, contract and execution identity, and a settled child is
    final: once completed, failed or canceled, no later transition changes its record. *)
Theorem settled_children_final parentID node activation plan available g0 r0 r1 g1 r g i c :
  PlanChildGroup parentID node activation plan available = Ok g0 -> group_run (r0, g0) (r1, g1) -> group_run (r1, g1) (r, g) ->
  grp_Children g1 !! i = Some c ->
  exists c', grp_Children g !! i = Some c' /\ chd_Spec c' = chd_Spec c /\ chd_ExecutionID c' = chd_ExecutionID c /\
    (settledChild c = true -> c' = c).
Proof.
  intros Hp Hr1 Hr2 Hi. destruct (group_plan_valid _ _ _ _ _ _ Hp) as [Hv Hpr].
  destruct (run_invariant _ _ Hr1 Hv (Hpr r0)) as [Hv1 Hp1]. pose proof (run_children _ _ Hr2 Hv1 Hp1) as Hf. simpl in Hf.
  destruct (Forall2_lookup_l _ _ _ _ _ Hf Hi) as (c' & Hc' & ?). by exists c'.
Qed.
End Reachable.

(** ** A closed example: two children, one launched, completed and joined. *)
#[export] Instance wire_ChildSpec : Wire ChildSpec.
Proof. refine (wire_iso (fun s => (csp_ID s, csp_Input s, csp_Allocation s)) (fun '(a, b, c) => mkChildSpec a b c) _). by intros []. Defined.
#[export] Instance wire_FailurePolicy : Wire ChildFailurePolicy.
Proof.
  refine (wire_iso (fun p => match p with ChildFailFast => (0%N, "") | ChildCollectErrors => (1%N, "") | FailurePolicyOther s => (2%N, s) end)
    (fun p => match p.1 with 0%N => ChildFailFast | 1%N => ChildCollectErrors | _ => FailurePolicyOther p.2 end) _). by intros [].
Defined.
#[export] Instance wire_ChildGroupPlan : Wire ChildGroupPlan.
Proof.
  refine (wire_iso (fun p => (pln_Key p, pln_Label p, pln_MergeLabel p, pln_BudgetLabel p, pln_CancelLabel p, pln_MaxConcurrency p,
    pln_FailurePolicy p, pln_Children p)) (fun '(a, b, c, d, e, f, g, h) => mkChildGroupPlan a b c d e f g h) _). by intros [].
Defined.

Definition plan_example : ChildGroupPlan :=
  mkChildGroupPlan "k" "l" "m" "b" "c" 1 ChildCollectErrors
    [mkChildSpec "b" "in-b" {["u" := 2%Z]}; mkChildSpec "a" "in-a" {["u" := 3%Z]}].
Definition sorted_plan_example : ChildGroupPlan :=
  mkChildGroupPlan "k" "l" "m" "b" "c" 1 ChildCollectErrors
    [mkChildSpec "a" "in-a" {["u" := 3%Z]}; mkChildSpec "b" "in-b" {["u" := 2%Z]}].
Definition group_example : ChildGroupRecord :=
  mkGroup "x" "n" 1 sorted_plan_example
    (map (newChildRecord "x" "n" 1 "k") (pln_Children sorted_plan_example)) [] "" false None {["u" := 5%Z]} ∅.

#[local] Opaque childExecutionIdentity.
Lemma group_example_planned : PlanChildGroup "x" "n" 1 plan_example {["u" := 5%Z]} = Ok group_example.
Proof. reflexivity. Qed.

Definition example_child (g : ChildGroupRecord) (i : nat) : ChildRecord :=
  default (newChildRecord "" "" 0 "" (mkChildSpec "" "" ∅)) (grp_Children g !! i).
(** Child [a] queued, run by incarnation 4 and completed. *)
Definition group_queued : ChildGroupRecord :=
  group_example <| grp_Children := [(example_child group_example 0) <| chd_State := ChildQueued |> <| chd_Revision := 1%N |>;
                                    example_child group_example 1] |>.
Definition group_running : ChildGroupRecord :=
  group_example <| grp_Children := [(example_child group_example 0) <| chd_State := ChildRunning |> <| chd_Revision := 2%N |>
                                      <| chd_Incarnation := 4%N |>; example_child group_example 1] |>.
Definition completed_child : ChildRecord :=
  (example_child group_example 0) <| chd_State := ChildCompleted |> <| chd_Revision := 3%N |> <| chd_Incarnation := 4%N |>
    <| chd_Result := "out" |>.
Definition group_completed : ChildGroupRecord :=
  group_example <| grp_Children := [completed_child; example_child group_example 1] |>.
(** Then the group is canceled: [b] never ran and is canceled at once. *)
Definition group_canceled : ChildGroupRecord :=
  group_example <| grp_Children := [completed_child; (example_child group_example 1) <| chd_State := ChildCanceled |>
      <| chd_Revision := 1%N |> <| chd_CancelRequested := true |> <| chd_CancelConfirmed := true |>] |>
    <| grp_CancelRequested := true |> <| grp_CancelRequest := Some (mkCancelRequest "q" "stop" 4 4 (mkTime 9 UTC)) |>.

Lemma group_example_run : group_run (1%N, group_example) (4%N, group_completed).
Proof.
  apply (run_step _ 3 group_running); [|lia|].
  - apply (run_step _ 2 group_queued); [|lia|].
    + apply (run_step _ 1 group_example); [constructor|lia|]. by apply (step_queue _ _ _ "a").
    + by apply (step_run _ group_example _ _ "a" 4).
  - by apply (step_finish _ _ _ (mkInvocation "x" "k" "a" "" 2 "" ∅) (mkChildResult ChildCompleted "out" "" "") None 4).
Qed.
Lemma group_example_cancel : group_run (4%N, group_completed) (5%N, group_canceled).
Proof.
  apply (run_step _ 4 group_completed); [constructor|lia|].
  by apply (step_cancel _ _ _ "q" "stop" 4 (mkTime 9 UTC)).
Qed.

Lemma reachable_group_valid_witness :
  validateChildGroup group_completed = None /\ validChildGroupProvenance group_completed 4 = true.
Proof.
  apply (reachable_group_valid "x" "n" 1 plan_example {["u" := 5%Z]} group_example 1 4 group_completed);
    [apply group_example_planned|apply group_example_run].
Defined.

Lemma settled_children_final_witness :
  exists c', grp_Children group_canceled !! 0%nat = Some c' /\ chd_Spec c' = chd_Spec completed_child /\
    chd_ExecutionID c' = chd_ExecutionID completed_child /\ (settledChild completed_child = true -> c' = completed_child).
Proof.
  apply (settled_children_final "x" "n" 1 plan_example {["u" := 5%Z]} group_example 1 4 group_completed 5 group_canceled 0 completed_child);
    [apply group_example_planned|apply group_example_run|apply group_example_cancel|reflexivity].
Defined.

Lemma capacity_ledger_exact_witness :
  is_Some (ledgerGroups ∅ [group_canceled]) /\ capacity_respected Z.sub (map snd (range {["g" := group_canceled]})).
Proof.
  split; [apply (capacity_ledger_exact {["g" := group_canceled]}); reflexivity|].
  apply (capacity_ledger_exact {["g" := group_canceled]}); [|reflexivity].
  intros id g [_ <-]%lookup_singleton_Some. repeat constructor; vm_compute; discriminate.
Defined.
