(* ===== verification/Aggregate.v ===== *)
(** * The collections of an execution and its lifecycle boundary

    activity_integrity.go, activity_references.go, activity_retry_inspection.go,
    child_persistence.go, child_references.go, durable_wait_arbitration.go,
    execution_integrity.go, execution_lifecycle_validation.go, execution_fork_contract.go,
    execution_history.go, execution_retention.go and the resolution gate of
    execution_checkpointer.go: how the journal, the child groups and the waits are decoded
    and checked against the envelope that carries them, and what must hold before an
    execution may roll over, fork or be pruned. *)

From S2P Require Import Prelude Go Sha256 Json Identity Schedule Activity Waits Contract Children.

(** The encodings the runtime uses, one instance per persisted type. *)
Class Codecs := {
  codec_envelope :: JsonCodec ExecutionEnvelope;
  codec_journal :: JsonCodec (gmap string ActivityRecord);
  codec_groups :: JsonCodec (gmap string ChildGroupRecord);
  codec_waits :: JsonCodec (gmap string DurableWaitRecord);
  codec_plan :: JsonCodec ChildGroupPlan;
  codec_spec :: JsonCodec ChildSpec;
}.

(** What the runtime relies on: every encoding decodes to what was encoded. *)
Class LawfulCodecs `{Codecs} := {
  law_envelope :: JsonRoundTrip ExecutionEnvelope;
  law_journal :: JsonRoundTrip (gmap string ActivityRecord);
  law_groups :: JsonRoundTrip (gmap string ChildGroupRecord);
  law_waits :: JsonRoundTrip (gmap string DurableWaitRecord);
}.

(** One acquisition of an execution (execution_store.go). *)
Record ExecutionLease := mkLease {
  lse_ExecutionID : string; lse_Owner : string; lse_Incarnation : N; lse_ExpiresAt : Time;
}.
#[export] Instance ExecutionLease_eq_dec : EqDecision ExecutionLease.
Proof. solve_decision. Defined.
#[export] Instance eta_Lease : Eta ExecutionLease := fun r =>
  mkLease (lse_ExecutionID r) (lse_Owner r) (lse_Incarnation r) (lse_ExpiresAt r).

Record ResumeToken := mkToken { tok_ThreadID : string; tok_SnapshotRevision : N }.
#[export] Instance ResumeToken_eq_dec : EqDecision ResumeToken.
Proof. solve_decision. Defined.

Definition of_error (e : option error) {A} (a : A) : res A := match e with Some x => Err x | None => Ok a end.

Section Collections.
Context `{Codecs}.

(** ** Activities *)
Definition decodeActivityJournal (payload : string) : res (gmap string ActivityRecord) :=
  if no_bytes payload then Ok ∅
  else match unmarshal payload with
  | None => Err (ErrJoin ErrExecutionCorrupt json_error)
  | Some None => Err ErrExecutionCorrupt
  | Some (Some journal) =>
      if map_all (fun identity record => (identity == rec_Identity record) && is_nil (validateActivityRecord record)) journal
      then Ok journal else Err ErrExecutionCorrupt
  end.

Definition activityIdentity (envelope : ExecutionEnvelope) (key : string) : string :=
  activityAddressIdentity (env_ExecutionID envelope) (prg_ExecutionPointer (env_Progress envelope)) (env_Activation envelope) key.

Definition boundActivityIdentity (envelope : ExecutionEnvelope) (key : string) : string :=
  match prg_JournalReferences (env_Progress envelope) !! key with
  | Some identity => identity
  | None => activityIdentity envelope key
  end.

Definition validateActivityReferences (envelope : ExecutionEnvelope) (journal : gmap string ActivityRecord) : option error :=
  if negb (map_all (fun key identity =>
       match journal !! identity with
       | None => false
       | Some record => negb ((key != rec_Key record) || (rec_Activation record != env_Activation envelope))
       end) (prg_JournalReferences (env_Progress envelope))) then corrupt
  else if negb (map_all (fun _ record =>
       if negb (activityUnresolved (rec_State record)) then true
       else negb ((rec_Activation record != env_Activation envelope)
                  || (boundActivityIdentity envelope (rec_Key record) != rec_Identity record))) journal) then corrupt
  else None.

Definition validJournalRecord (envelope : ExecutionEnvelope) (record : ActivityRecord) : bool :=
  let fakeFork := match env_Fork envelope with Some f => frk_Mode f == ForkFake | None => false end in
  negb ((rec_Origin record == ActivitySimulated) && negb fakeFork)
  && negb ((rec_Origin record == ActivityLive) && fakeFork)
  && negb ((rec_ExecutionID record != env_ExecutionID envelope) || (env_Activation envelope <? rec_Activation record)%N)
  && forallb (fun decision => negb (env_Revision envelope <=? rsl_SourceRevision decision)%N) (rec_Resolutions record).

Definition executionActivityJournal (envelope : ExecutionEnvelope) : res (gmap string ActivityRecord) :=
  journal ← decodeActivityJournal (env_JournalPayload envelope);
  if negb (map_all (fun _ record => validJournalRecord envelope record) journal) then Err ErrExecutionCorrupt
  else of_error (validateActivityReferences envelope journal) journal.

(** ** Child groups *)
Definition boundChildGroupIdentity (envelope : ExecutionEnvelope) (key : string) : string :=
  match prg_ChildGroupReferences (env_Progress envelope) !! key with
  | Some identity => identity
  | None => childExecutionIdentity (env_ExecutionID envelope) (prg_ExecutionPointer (env_Progress envelope))
              (env_Activation envelope) key ""
  end.

Definition groupIdentity (group : ChildGroupRecord) : string :=
  childExecutionIdentity (grp_ParentID group) (grp_Node group) (grp_Activation group) (pln_Key (grp_Plan group)) "".

Definition currentChildGroup (envelope : ExecutionEnvelope) (group : ChildGroupRecord) : bool :=
  (grp_ParentID group == env_ExecutionID envelope) && (grp_Activation group == env_Activation envelope)
  && (boundChildGroupIdentity envelope (pln_Key (grp_Plan group)) == groupIdentity group).

Definition joinedGroup (group : ChildGroupRecord) : bool := len (grp_MergedIDs group) == len (grp_Children group).

Definition validateChildGroupReferences (envelope : ExecutionEnvelope) (groups : gmap string ChildGroupRecord) : option error :=
  if negb (map_all (fun key identity =>
       match groups !! identity with
       | None => false
       | Some group => negb ((key != pln_Key (grp_Plan group)) || (grp_Activation group != env_Activation envelope))
       end) (prg_ChildGroupReferences (env_Progress envelope))) then corrupt
  else if negb (map_all (fun _ group => negb (negb (joinedGroup group) && negb (currentChildGroup envelope group))) groups)
  then corrupt else None.

Fixpoint noDuplicates (seen : list string) (ids : list string) : bool :=
  match ids with
  | [] => true
  | id :: rest => if bool_decide (id ∈ seen) then false else noDuplicates (id :: seen) rest
  end.
Definition validChildOutcomeDecisionIDs (groups : gmap string ChildGroupRecord) : bool :=
  noDuplicates [] (map (fun cp => cor_DecisionID cp.2) (recordedOutcomes groups)).

Definition validGroupEntry (envelope : ExecutionEnvelope) (identity : string) (group : ChildGroupRecord) : bool :=
  validChildGroupProvenance group (env_Revision envelope)
  && negb ((identity != groupIdentity group) || (grp_ParentID group != env_ExecutionID envelope) || (grp_Activation group == 0%N)
           || (env_Activation envelope <? grp_Activation group)%N || negb (is_nil (validateChildGroup group))).

Definition executionChildGroups (envelope : ExecutionEnvelope) : res (gmap string ChildGroupRecord) :=
  let payload := env_ChildrenPayload envelope in
  if no_bytes payload then of_error (validateChildGroupReferences envelope ∅) ∅
  else if negb (ValidString payload) then Err ErrExecutionCorrupt
  else match unmarshal payload with
  | None => Err (ErrJoin ErrExecutionCorrupt json_error)
  | Some None => Err ErrExecutionCorrupt
  | Some (Some groups) =>
      if negb (validChildOutcomeDecisionIDs groups) then Err ErrExecutionCorrupt
      else if negb (map_all (validGroupEntry envelope) groups) then Err ErrExecutionCorrupt
      else match validateChildGroupReferences envelope groups with
      | Some err => Err err
      | None =>
          match validateChildCapacityLedger groups with
          | Some err => Err (ErrJoin ErrExecutionCorrupt err)
          | None => Ok groups
          end
      end
  end.

Definition validChildGroupText (group : ChildGroupRecord) : bool :=
  let plan := grp_Plan group in
  validRuntimeText [grp_ParentID group; grp_Node group; pln_Key plan; pln_Label plan; pln_MergeLabel plan; pln_BudgetLabel plan;
                    pln_CancelLabel plan]
  && validChildCapacity (grp_Capacity group)
  && forallb (fun spec => validRuntimeText [csp_ID spec] && validChildCapacity (csp_Allocation spec)) (pln_Children plan)
  && forallb (fun child =>
       validRuntimeText [csp_ID (chd_Spec child); chd_ExecutionID child; chd_WaitID child; chd_Error child]
       && validChildCapacity (csp_Allocation (chd_Spec child))) (grp_Children group)
  && match grp_CancelRequest group with None => true | Some q => validRuntimeText [ccr_ID q; ccr_Reason q] end
  && map_all (fun _ d => validRuntimeText [cbr_DecisionID d; cbr_Reason d; cbr_Evidence d]) (grp_BudgetReturns group).

(** ** Waits *)
Definition durableWaitCanceledReason : string := "durable_wait_canceled".

Definition validWaitEnvelopeAddress (envelope : ExecutionEnvelope) (identity : string) (record : DurableWaitRecord) : bool :=
  match env_RuntimeProfile envelope with None => true | Some profile => wt_Profile record == profile end
  && (identity == waitIdentity (wt_ExecutionID record) (wt_Node record) (wt_Activation record) (wsp_ID (wt_Spec record)))
  && (wt_ExecutionID record == env_ExecutionID envelope) && (wt_Activation record <=? env_Activation envelope)%N
  && is_nil (validateDurableWait record (env_Revision envelope))
  && ((wt_State record != WaitArmed)
      || (is_nil (env_Terminal envelope) && (wt_Activation record == env_Activation envelope)
          && (wt_Node record == prg_ExecutionPointer (env_Progress envelope)))).

Definition validCanceledWaitTerminal (envelope : ExecutionEnvelope) (record : DurableWaitRecord) : bool :=
  if wt_State record != WaitCanceled then true
  else match wt_Cancellation record, env_Terminal envelope with
  | Some cancellation, Some terminal =>
      (trm_Status terminal == RunStatusFailed)
      && match trm_Failure terminal with
         | None => false
         | Some failure =>
             (trm_Reason terminal == durableWaitCanceledReason)
             && (flr_Message failure == durableWaitCanceledReason +:+ ": " +:+ wcn_Reason cancellation)
         end
      && (env_Activation envelope == wt_Activation record)
      && (prg_ExecutionPointer (env_Progress envelope) == wt_Node record)
  | _, _ => false
  end.

Definition armedWaits (waits : gmap string DurableWaitRecord) : list DurableWaitRecord :=
  List.filter (fun record => wt_State record == WaitArmed) (map snd (range waits)).

Definition executionWaits (envelope : ExecutionEnvelope) : res (gmap string DurableWaitRecord) :=
  if no_bytes (env_WaitsPayload envelope) then Ok ∅
  else match unmarshal (env_WaitsPayload envelope) with
  | None | Some None => Err ErrExecutionCorrupt
  | Some (Some waits) =>
      if negb (map_all (fun identity record =>
           validWaitEnvelopeAddress envelope identity record && validCanceledWaitTerminal envelope record) waits)
         || (1 <? len (armedWaits waits))%Z
      then Err ErrExecutionCorrupt else Ok waits
  end.

(** ** The whole aggregate *)
Definition validateExecutionCollectionsWithWaits (envelope : ExecutionEnvelope) : res (gmap string DurableWaitRecord) :=
  if negb (validMigrationText (env_Progress envelope)) then Err ErrExecutionCorrupt
  else if match env_RuntimeProfile envelope with Some p => negb (is_nil (validateProfile p)) | None => false end
  then Err ErrExecutionCorrupt
  else
    executionActivityJournal envelope;;
    executionChildGroups envelope;;
    executionWaits envelope.
Definition validateExecutionCollections (envelope : ExecutionEnvelope) : option error :=
  err_of (validateExecutionCollectionsWithWaits envelope).

(** [slices.Sort] on distinct keys. *)
Definition key_le {V} (a b : string * V) : Prop := String.leb a.1 b.1 = true.
#[export] Instance key_le_dec {V} : RelDecision (key_le (V := V)).
Proof. intros a b. unfold key_le. apply _. Defined.
Definition sortedRange {V} (m : gmap string V) : list (string * V) := merge_sort key_le (range m).

Definition InspectExecutionWaits (envelope : ExecutionEnvelope) : res (list DurableWaitRecord) :=
  check (ValidateExecutionIntegrity envelope (env_ExecutionID envelope) (env_Revision envelope));;
  waits ← validateExecutionCollectionsWithWaits envelope;
  Ok (map snd (sortedRange waits)).

Record PendingActivityRetry := mkPendingRetry {
  ptr_Identity : string; ptr_Node : ExecutionPointer; ptr_Activation : N; ptr_ResumeToken : ResumeToken;
  ptr_Descriptor : ExecutionDescriptor; ptr_Policy : ActivityRetryPolicy; ptr_Attempts : Z; ptr_Deadline : Time;
}.
Definition pendingRetry (envelope : ExecutionEnvelope) (identity : string) (record : ActivityRecord) : option PendingActivityRetry :=
  if (rec_Activation record != env_Activation envelope) || (rec_State record != ActivityPrepared)
     || (len (rec_Attempts record) == 0%Z) || IsZero (rec_NextAttemptAt record)
     || (pol_MaxAttempts (rec_Retry record) <=? len (rec_Attempts record))%Z || (pol_SafeRetryContract (rec_Retry record) == "")
  then None
  else Some (mkPendingRetry identity (prg_ExecutionPointer (env_Progress envelope)) (env_Activation envelope)
    (mkToken (env_ExecutionID envelope) (env_Revision envelope)) (env_Descriptor envelope) (rec_Retry record)
    (len (rec_Attempts record)) (rec_NextAttemptAt record)).
Definition InspectPendingActivityRetries (envelope : ExecutionEnvelope) : res (list PendingActivityRetry) :=
  check (ValidateExecutionIntegrity envelope (env_ExecutionID envelope) (env_Revision envelope));;
  check (validateDescriptor (env_Descriptor envelope));;
  check (validateExecutionCollections envelope);;
  check (validateExecutionSourceMetadata envelope);;
  match env_Terminal envelope with
  | Some _ => Ok []
  | None =>
      journal ← executionActivityJournal envelope;
      Ok (omap (fun kv => pendingRetry envelope kv.1 kv.2) (sortedRange journal))
  end.

Definition InspectExecutionResume (load : string -> res ExecutionEnvelope) (executionID : string) : res ResumeToken :=
  if (executionID == "") || negb (validRuntimeText [executionID]) then Err ErrInvalidResumeToken
  else
    envelope ← load executionID;
    check (ValidateExecutionIntegrity envelope executionID (env_Revision envelope));;
    check (validateDescriptor (env_Descriptor envelope));;
    check (validateExecutionCollections envelope);;
    check (validateExecutionSourceMetadata envelope);;
    Ok (mkToken (env_ExecutionID envelope) (env_Revision envelope)).

(** [history] is [None] for a store without [ExecutionHistoryStore]. *)
Definition InspectExecutionCheckpoint (history : option (string -> N -> res ExecutionEnvelope))
    (source : HistoricalCheckpointReference) : res ExecutionEnvelope :=
  check (validateReference source);;
  match history with
  | None => Err ErrExecutionHistoryUnsupported
  | Some loadCheckpoint =>
      match loadCheckpoint (ref_ExecutionID source) (ref_Revision source) with
      | Err err => if errors_Is err ErrThreadNotFound then Err (ErrJoin ErrExecutionCheckpointUnavailable err) else Err err
      | Ok envelope =>
          check (ValidateExecutionIntegrity envelope (ref_ExecutionID source) (ref_Revision source));;
          if env_Digest envelope != ref_Digest source then Err ErrExecutionSourceDigest
          else
            check (validateDescriptor (env_Descriptor envelope));;
            check (validateExecutionCollections envelope);;
            check (validateExecutionSourceMetadata envelope);;
            Ok (cloneExecutionEnvelope envelope)
      end
  end.

(** ** The resolution gate

    [resolvedChildGroupsLocked] and [resolvedActivitiesLocked]: what must be settled before
    the cursor of an execution moves. Where several records are open, Go reports one of
    them; the model reports the first in the order of [range]. *)
Definition resolvedChildGroups (envelope : ExecutionEnvelope) : option error :=
  match executionChildGroups envelope with
  | Err err => Some err
  | Ok groups =>
      if negb (map_all (fun _ group => negb ((grp_Activation group == env_Activation envelope) && negb (joinedGroup group))) groups)
      then Some (ErrChildrenUnresolved : error) else None
  end.

Definition unresolvedActivityError (envelope : ExecutionEnvelope) (activity : ActivityRecord) : option error :=
  if rec_Activation activity != env_Activation envelope then None
  else match rec_State activity with
  | ActivityRunning => Some (ErrActivityBusy : error)
  | ActivityUnknown => Some (ErrActivityUnknown : error)
  | ActivityPrepared =>
      if (0 <? len (rec_Attempts activity))%Z then Some (activityRecordError activity (env_Revision envelope))
      else Some (ErrActivityConflict : error)
  | ActivityFailed => if rec_Classification activity == ActivityAmbiguous then Some (ErrActivityUnknown : error) else None
  | ActivityCompleted => None
  | _ => Some (ErrActivityConflict : error)
  end.

Definition first_error (l : list (option error)) : option error :=
  match List.find (fun e => negb (is_nil e)) l with Some e => e | None => None end.

Definition resolvedActivities (envelope : ExecutionEnvelope) : option error :=
  match executionWaits envelope with
  | Err err => Some err
  | Ok waits =>
      if negb (map_all (fun _ wait => wt_State wait != WaitArmed) waits) then Some (ErrWaitUnresolved : error)
      else match resolvedChildGroups envelope with
      | Some err => Some err
      | None =>
          match executionActivityJournal envelope with
          | Err err => Some err
          | Ok journal => first_error (map (fun kv => unresolvedActivityError envelope kv.2) (range journal))
          end
      end
  end.

(** ** Lifecycle boundaries *)
Definition validateLifecycleJournal (source : ExecutionEnvelope) (journal : gmap string ActivityRecord) : option error :=
  if map_all (fun _ record =>
       negb ((rec_State record != ActivityCompleted) && (rec_State record != ActivityFailed))
       && negb (is_nil (env_Terminal source) && (rec_Activation record == env_Activation source))) journal
  then None else Some (ErrExecutionLifecycleUnsafe : error).

Definition validateLifecycleChildren (source : ExecutionEnvelope) (groups : gmap string ChildGroupRecord) : option error :=
  if map_all (fun _ group =>
       negb (negb (joinedGroup group) || (is_nil (env_Terminal source) && (grp_Activation group == env_Activation source)))
       && forallb (fun child =>
            settledChild child
            && ((csp_Allocation (chd_Spec child) == ∅)
                || match grp_BudgetReturns group !! csp_ID (chd_Spec child) with
                   | None => false
                   | Some claim => cbr_ChildRevision claim == chd_Revision child
                   end)) (grp_Children group)) groups
  then None else Some (ErrExecutionLifecycleUnsafe : error).

Definition ValidateExecutionLifecycleBoundary (source : ExecutionEnvelope) : option error :=
  err_of (
    check (ValidateExecutionIntegrity source (env_ExecutionID source) (env_Revision source));;
    check (validateDescriptor (env_Descriptor source));;
    check (validateExecutionSourceMetadata source);;
    check (validateExecutionCollections source);;
    check (if is_nil (env_Terminal source) && (met_StepCount (env_RunMeta source) <=? 0)%Z
           then Some (ErrExecutionLifecycleUnsafe : error) else None);;
    journal ← executionActivityJournal source;
    check (validateLifecycleJournal source journal);;
    groups ← executionChildGroups source;
    check (validateLifecycleChildren source groups);;
    waits ← executionWaits source;
    check (if map_all (fun _ wait => wt_State wait != WaitArmed) waits then None else Some (ErrExecutionLifecycleUnsafe : error));;
    check (if prg_ChildCursors (env_Progress source) != ∅ then Some (ErrExecutionLifecycleUnsafe : error) else None)).

Definition byte_len (s : string) : Z := Z.of_nat (String.length s).
Definition map_len {V} (m : gmap string V) : Z := Z.of_nat (size m).

(** The loop over the groups subtracts from what remains of [MaxRecords]. *)
Fixpoint recordBudget (remaining : Z) (groups : list ChildGroupRecord) : option Z :=
  match groups with
  | [] => Some remaining
  | group :: rest => if (remaining <? len (grp_Children group))%Z then None
                     else recordBudget (remaining - len (grp_Children group)) rest
  end.
Definition validateRolloverRecordLimit (source : ExecutionEnvelope) (policy : RolloverPolicy) : option error :=
  err_of (
    check (validateRolloverPolicy policy);;
    encoded ← of_option (marshal source) json_error;
    check (if (rpo_MaxAggregateBytes policy <? byte_len encoded)%Z then Some (ErrExecutionLifecycleLimit : error) else None);;
    journal ← executionActivityJournal source;
    groups ← executionChildGroups source;
    waits ← executionWaits source;
    let remaining := (rpo_MaxRecords policy - map_len journal)%Z in
    check (if (remaining <? 0)%Z then Some (ErrExecutionLifecycleLimit : error) else None);;
    remaining ← of_option (recordBudget remaining (map snd (range groups))) ErrExecutionLifecycleLimit;
    check (if (remaining <? map_len waits)%Z then Some (ErrExecutionLifecycleLimit : error) else None)).

Definition validateRolloverTarget (source target : ExecutionEnvelope) : option error :=
  match env_Rollover target with
  | None => Some (ErrExecutionRolloverConflict : error)
  | Some lineage =>
      if negb (is_nil (validateRolloverLineage lineage)) || (rol_TargetID lineage != env_ExecutionID target)
         || (ref_ExecutionID (rol_Source lineage) != env_ExecutionID source)
         || (ref_Revision (rol_Source lineage) != env_Revision source)
         || (ref_Digest (rol_Source lineage) != env_Digest source)
         || (rol_SourceDescriptor lineage != env_Descriptor source) || (rol_TargetDescriptor lineage != env_Descriptor target)
         || (env_Revision target != 0%N) || (env_Digest target != "") || (env_Activation target != 1%N)
         || negb (is_nil (env_Transfer target)) || negb (is_nil (env_Terminal target)) || negb (is_nil (env_Fork target))
         || negb (is_nil (env_Import target)) || negb (is_nil (env_Migration target))
         || negb (no_bytes (env_JournalPayload target)) || negb (no_bytes (env_ChildrenPayload target))
         || negb (no_bytes (env_WaitsPayload target)) || (prg_ChildCursors (env_Progress target) != ∅)
         || (prg_JournalReferences (env_Progress target) != ∅) || (prg_ChildGroupReferences (env_Progress target) != ∅)
      then Some (ErrExecutionRolloverConflict : error)
      else match validateExecutionCollections target with
      | Some err => Some err
      | None =>
          if (met_StepCount (env_RunMeta target) != 0%Z)
             || (met_RetryCounts (env_RunMeta target) != met_RetryCounts (env_RunMeta source))
             || (met_BudgetCounts (env_RunMeta target) != met_BudgetCounts (env_RunMeta source))
          then Some (ErrExecutionLifecycleUnsafe : error)
          else
            let limit := rpo_MaxTargetBytes (rol_Policy lineage) in
            let state := byte_len (prg_StatePayload (env_Progress target)) in
            if (limit <? state)%Z || (limit - state <? byte_len (env_EffectsPayload target))%Z
            then Some (ErrExecutionLifecycleLimit : error) else None
      end
  end.

Definition validateRolloverSource (source : ExecutionEnvelope) : option error :=
  if negb (is_nil (env_Fork source)) || negb (is_nil (env_Transfer source))
     || match env_Terminal source with Some t => trm_Status t != RunStatusCompleted | None => false end
     || (env_Revision source == max_uint64)
  then Some (ErrExecutionLifecycleUnsafe : error)
  else ValidateExecutionLifecycleBoundary source.

Definition rolloverTerminal : ExecutionTerminal := mkTerminal RunStatusTransferred "rollover" None.

(** The target is dereferenced only after [validateRolloverTarget] accepted its lineage. *)
Definition PrepareExecutionRolloverPublication (source target : ExecutionEnvelope) (lease : ExecutionLease)
  : res (ExecutionEnvelope * ExecutionEnvelope * RolloverReceipt) :=
  if (env_ExecutionID source != lse_ExecutionID lease) || (lse_Incarnation lease == 0%N) || (lse_Owner lease == "")
  then Err ErrLeaseLost
  else
    check (validateRolloverSource source);;
    check (validateRolloverTarget source target);;
    lineage ← of_option (env_Rollover target) ErrExecutionRolloverConflict;
    check (validateRolloverRecordLimit source (rol_Policy lineage));;
    let target := target <| env_Revision := 1%N |> in
    sealedTarget ← SealExecutionEnvelope target;
    encoded ← of_option (marshal sealedTarget) json_error;
    check (if (rpo_MaxTargetBytes (rol_Policy lineage) <? byte_len encoded)%Z then Some (ErrExecutionLifecycleLimit : error) else None);;
    let receipt := mkReceipt lineage (mkReference (env_ExecutionID target) 1 (env_Digest sealedTarget))
                     (succ_u64 (env_Revision source)) in
    let transferred := source <| env_Revision := succ_u64 (env_Revision source) |> <| env_Transfer := Some receipt |>
                         <| env_Terminal := Some rolloverTerminal |> in
    transferred ← SealExecutionEnvelope transferred;
    Ok (transferred, sealedTarget, receipt).

Definition forkSourceSettled (source : ExecutionEnvelope) : option error :=
  err_of (
    journal ← executionActivityJournal source;
    check (if map_all (fun _ record => negb ((rec_State record != ActivityCompleted) && (rec_State record != ActivityFailed))) journal
           then None else Some (ErrForkUnresolved : error));;
    groups ← executionChildGroups source;
    check (if map_all (fun _ group => joinedGroup group && forallb settledChild (grp_Children group)) groups
           then None else Some (ErrForkUnresolved : error));;
    waits ← executionWaits source;
    check (if map_all (fun _ wait => wt_State wait != WaitArmed) waits then None else Some (ErrForkUnresolved : error))).
End Collections.

Definition executionForkMode (envelope : ExecutionEnvelope) : ForkActivityMode :=
  match env_Fork envelope with None => NotForked | Some f => frk_Mode f end.

(** ** Retention *)
Record ExecutionRetentionPolicy := mkRetentionPolicy {
  rtp_Label : string; rtp_KeepLast : Z; rtp_DeletePayload : bool; rtp_ProtectedRevisions : list N;
}.
Record ExecutionRetentionRequest := mkRetentionRequest {
  rtr_ExecutionID : string; rtr_Revision : N; rtr_Policy : ExecutionRetentionPolicy;
}.
Record ExecutionRetentionReceipt := mkRetentionReceipt {
  rtc_ExecutionID : string; rtc_Revision : N; rtc_DeletedRevisions : Z; rtc_DeletedBytes : Z;
}.

(** [slices.IsSorted]. *)
Fixpoint isSorted (l : list N) : bool :=
  match l with
  | a :: ((b :: _) as rest) => (a <=? b)%N && isSorted rest
  | _ => true
  end.
Fixpoint protectedLoop (head prior : N) (l : list N) : bool :=
  match l with
  | [] => true
  | revision :: rest =>
      negb ((revision == 0%N) || (head <? revision)%N || (revision == prior)) && protectedLoop head revision rest
  end.
Definition validateRetentionRequest (request : ExecutionRetentionRequest) : option error :=
  let p := rtr_Policy request in
  if (rtr_ExecutionID request == "") || negb (validRuntimeText [rtr_ExecutionID request; rtp_Label p])
     || (rtr_Revision request == 0%N) || (rtp_Label p == "") || (rtp_KeepLast p <? 0)%Z
     || negb (isSorted (rtp_ProtectedRevisions p))
  then Some (ErrExecutionLifecycleUnsafe : error)
  else if rtp_DeletePayload p && ((rtp_KeepLast p != 0%Z) || (len (rtp_ProtectedRevisions p) != 0%Z))
  then Some (ErrExecutionLifecycleUnsafe : error)
  else if negb (protectedLoop (rtr_Revision request) 0 (rtp_ProtectedRevisions p)) then Some (ErrExecutionLifecycleUnsafe : error)
  else None.

Definition ExecutionRevisionRetained (request : ExecutionRetentionRequest) (revision : N) : bool :=
  if rtp_DeletePayload (rtr_Policy request) then false
  else if (revision == rtr_Revision request) || bool_decide (revision ∈ rtp_ProtectedRevisions (rtr_Policy request)) then true
  else if (rtp_KeepLast (rtr_Policy request) <? 0)%Z then false
  else (revision <=? rtr_Revision request)%N
       && (rtr_Revision request - revision <? Z.to_N (rtp_KeepLast (rtr_Policy request)))%N.

(** [RetainExecution]: [retain] is the store capability, [None] when it is missing. *)
Definition RetainExecution (retain : option (ExecutionRetentionRequest -> res ExecutionRetentionReceipt))
    (request : ExecutionRetentionRequest) : res ExecutionRetentionReceipt :=
  match retain with
  | None => Err ErrExecutionLifecycleUnsupported
  | Some retain =>
      check (validateRetentionRequest request);;
      receipt ← retain request;
      if (rtc_ExecutionID receipt != rtr_ExecutionID request) || (rtc_Revision receipt != rtr_Revision request)
         || (rtc_DeletedBytes receipt <? 0)%Z || (rtc_DeletedRevisions receipt <? 0)%Z
      then Err ErrExecutionCorrupt else Ok receipt
  end.
