(* ===== verification/Runtime.v ===== *)
(** * Directives, results and events

    flowy.go, runner_events.go, budget.go, effects.go and execution_failure.go: the commands
    nodes return, the results and events runs produce, handoff intents and resume plans. The
    state type [T] and the effect type [E] are the host's. Times are clock readings taken
    where the source calls [time.Now]. *)

From S2P Require Import Prelude Go Sha256 Json Identity Schedule Activity Waits Contract Children Aggregate.

(** ** Directives *)
Inductive directiveKind :=
| directiveZero | directiveCompleted | directiveEnd | directiveSuspend | directiveRetry | directiveEffect | directiveFail
| directiveHandoff | directiveWait | directiveNext.
#[export] Instance directiveKind_eq_dec : EqDecision directiveKind.
Proof. solve_decision. Defined.

(** [effect] is [None] where the payload is not of the effect type of the graph. *)
Inductive Directive (E : Type) := mkDirective {
  dir_kind : directiveKind;
  dir_reason : string;
  dir_maxAttempts : Z;
  dir_resumeAt : ExecutionPointer;
  dir_base : option (Directive E);
  dir_effect : option E;
  dir_wait : option DurableWaitSpec;
}.
Arguments mkDirective {E} _ _ _ _ _ _ _.
Arguments dir_kind {E} _.
Arguments dir_reason {E} _.
Arguments dir_maxAttempts {E} _.
Arguments dir_resumeAt {E} _.
Arguments dir_base {E} _.
Arguments dir_effect {E} _.
Arguments dir_wait {E} _.
#[export] Instance eta_Directive {E} : Eta (Directive E) := fun d =>
  mkDirective (dir_kind d) (dir_reason d) (dir_maxAttempts d) (dir_resumeAt d) (dir_base d) (dir_effect d) (dir_wait d).

Section Directives.
Context {E : Type}.
Definition directiveWithKind (kind : directiveKind) : Directive E := mkDirective kind "" 0 "" None None None.
(** A directive option sets where a suspended or handed-off run resumes. *)
Definition applyDirectiveOptions (d : Directive E) (opts : list ExecutionPointer) : Directive E :=
  fold_left (fun d pointer => d <| dir_resumeAt := pointer |>) opts d.
Definition Completed : Directive E := directiveWithKind directiveCompleted.
Definition End : Directive E := directiveWithKind directiveEnd.
Definition Suspend (reason : string) (opts : list ExecutionPointer) : Directive E :=
  applyDirectiveOptions ((directiveWithKind directiveSuspend) <| dir_reason := reason |>) opts.
Definition Await (spec : DurableWaitSpec) : Directive E := (directiveWithKind directiveWait) <| dir_wait := Some spec |>.
Definition Fail (reason : string) : Directive E := (directiveWithKind directiveFail) <| dir_reason := reason |>.
Definition Handoff (reason : string) (opts : list ExecutionPointer) : Directive E :=
  applyDirectiveOptions ((directiveWithKind directiveHandoff) <| dir_reason := reason |>) opts.
Definition Retry (maxAttempts : Z) : Directive E := (directiveWithKind directiveRetry) <| dir_maxAttempts := maxAttempts |>.
Definition Effect (base : Directive E) (payload : E) : Directive E :=
  (directiveWithKind directiveEffect) <| dir_base := Some base |> <| dir_effect := Some payload |>.
Definition WithEffects (base : Directive E) (effects : list E) : Directive E := fold_left Effect effects base.
Definition IsCompleted (d : Directive E) : bool := dir_kind d == directiveCompleted.
Definition Type_ (d : Directive E) : string :=
  match dir_kind d with
  | directiveCompleted => "completed"
  | directiveEnd => "end"
  | directiveSuspend => "suspend"
  | directiveWait => "durable_wait"
  | directiveRetry => "retry"
  | directiveEffect => "effect"
  | directiveFail => "fail"
  | directiveHandoff => "handoff"
  | directiveNext => "next"
  | directiveZero => "unknown"
  end.

(** The loop of [UnwrapDirective] peels one effect per turn; [effects] are those peeled. *)
Fixpoint unwrapLoop (current : Directive E) (effects : list E) : res (Directive E * list E) :=
  match current with
  | mkDirective directiveEffect _ _ _ base effect _ =>
      match effect with
      | None => Err (ErrHost "flowy: effect type mismatch")
      | Some payload =>
          match base with
          | None => Err (ErrHost "flowy: Effect requires base directive")
          | Some next => unwrapLoop next (effects ++ [payload])
          end
      end
  | mkDirective directiveZero _ _ _ _ _ _ => Err (ErrHost "flowy: zero directive is not allowed")
  | _ => Ok (current, rev effects)
  end.
Definition UnwrapDirective (d : Directive E) : res (Directive E * list E) := unwrapLoop d [].

Definition directiveResumePointer (current : ExecutionPointer) (directive : Directive E) : ExecutionPointer :=
  if dir_resumeAt directive != "" then dir_resumeAt directive else current.
End Directives.
Arguments Type_ {E} d.

(** ** Resume plans *)
Record ResumePlan := mkResumePlan { rsp_target : ExecutionPointer; rsp_useCurrent : bool }.
Definition ResumeCurrent : ResumePlan := mkResumePlan "" true.
Definition ResumeTo (pointer : ExecutionPointer) : ResumePlan := mkResumePlan pointer false.
Definition resolve (p : ResumePlan) (current : ExecutionPointer) : res ExecutionPointer :=
  if rsp_useCurrent p then Ok current
  else if rsp_target p == "" then Err ErrInvalidResumePlan
  else Ok (rsp_target p).

(** ** Handoff intents *)
Record HandoffIntent := mkIntent {
  int_ThreadID : string;
  int_ExecutionPointer : ExecutionPointer;
  int_Reason : string;
  int_HandoffStatus : HandoffStatus;
  int_PendingSnapshotRevision : N;
  int_CommittedSnapshotRevision : N;
  int_SnapshotRevision : N;
  int_ResumeToken : ResumeToken;
}.

Definition buildHandoffIntent (threadID : string) (pointer : ExecutionPointer) (reason : string) (status : HandoffStatus)
    (pendingRevision committedRevision : N) : HandoffIntent :=
  mkIntent threadID pointer reason status pendingRevision committedRevision committedRevision (mkToken threadID committedRevision).

Definition invalid_intent (text : string) : option error := Some (ErrJoin ErrInvalidHandoffIntent (ErrHost text)).
Definition validateHandoffIntent (i : HandoffIntent) : option error :=
  if int_ThreadID i == "" then invalid_intent "empty thread ID"
  else if int_ExecutionPointer i == "" then invalid_intent "empty execution pointer"
  else if int_HandoffStatus i != HandoffStatusEnqueued then invalid_intent "handoff intent status must be enqueued"
  else if int_PendingSnapshotRevision i == 0%N then invalid_intent "zero pending snapshot revision"
  else if int_CommittedSnapshotRevision i == 0%N then invalid_intent "zero committed snapshot revision"
  else if int_SnapshotRevision i == 0%N then invalid_intent "zero snapshot revision"
  else if tok_ThreadID (int_ResumeToken i) != int_ThreadID i then invalid_intent "resume token thread mismatch"
  else if tok_SnapshotRevision (int_ResumeToken i) != int_SnapshotRevision i then invalid_intent "resume token revision mismatch"
  else if int_SnapshotRevision i != int_CommittedSnapshotRevision i
  then invalid_intent "snapshot revision does not match committed revision"
  else if (int_CommittedSnapshotRevision i <? int_PendingSnapshotRevision i)%N
  then invalid_intent "pending revision is after committed revision"
  else None.

Definition NewHandoffIntent (threadID : string) (pointer : ExecutionPointer) (reason : string) (status : HandoffStatus)
    (pendingRevision committedRevision : N) : res HandoffIntent :=
  let intent := buildHandoffIntent threadID pointer reason status pendingRevision committedRevision in
  check (validateHandoffIntent intent);; Ok intent.

(** ** Snapshots, results and events *)
Record Snapshot (T E : Type) := mkSnapshot {
  snp_ThreadID : string;
  snp_ExecutionPointer : ExecutionPointer;
  snp_Revision : N;
  snp_State : T;
  snp_RunMeta : RunMetadata;
  snp_Effects : list E;
}.
Arguments mkSnapshot {T E} _ _ _ _ _ _.
Arguments snp_ThreadID {T E} _.
Arguments snp_ExecutionPointer {T E} _.
Arguments snp_Revision {T E} _.
Arguments snp_State {T E} _.
Arguments snp_RunMeta {T E} _.
Arguments snp_Effects {T E} _.
#[export] Instance eta_Snapshot {T E} : Eta (Snapshot T E) := fun s =>
  mkSnapshot (snp_ThreadID s) (snp_ExecutionPointer s) (snp_Revision s) (snp_State s) (snp_RunMeta s) (snp_Effects s).

Record RunResult (T E : Type) := mkResult {
  rr_State : T;
  rr_Status : RunStatus;
  rr_Effects : list E;
  rr_RunMeta : RunMetadata;
  rr_ExecutionPointer : ExecutionPointer;
  rr_Reason : string;
  rr_ResumeToken : ResumeToken;
}.
Arguments mkResult {T E} _ _ _ _ _ _ _.
Arguments rr_State {T E} _.
Arguments rr_Status {T E} _.
Arguments rr_Effects {T E} _.
Arguments rr_RunMeta {T E} _.
Arguments rr_ExecutionPointer {T E} _.
Arguments rr_Reason {T E} _.
Arguments rr_ResumeToken {T E} _.
#[export] Instance eta_RunResult {T E} : Eta (RunResult T E) := fun r =>
  mkResult (rr_State r) (rr_Status r) (rr_Effects r) (rr_RunMeta r) (rr_ExecutionPointer r) (rr_Reason r) (rr_ResumeToken r).

Inductive EventType :=
| EventNodeStarted | EventNodeCompleted | EventCompleted | EventSuspended | EventFailed | EventHandoff | EventContextCanceled
| EventCheckpointFailed.
#[export] Instance EventType_eq_dec : EqDecision EventType.
Proof. solve_decision. Defined.
Record RunEvent (T E : Type) := mkEvent {
  evt_Type : EventType;
  evt_ExecutionPointer : ExecutionPointer;
  evt_State : T;
  evt_Effect : option E;
  evt_Error : option error;
  evt_Reason : string;
}.
Arguments mkEvent {T E} _ _ _ _ _ _.
Arguments evt_Type {T E} _.

Record directiveStep (T E : Type) := mkStep {
  stp_nextNode : string; stp_result : option (RunResult T E); stp_err : option error; stp_terminal : bool;
}.
Arguments mkStep {T E} _ _ _ _.
Arguments stp_nextNode {T E} _.
Arguments stp_result {T E} _.
Arguments stp_err {T E} _.
Arguments stp_terminal {T E} _.
#[export] Instance eta_directiveStep {T E} : Eta (directiveStep T E) := fun s =>
  mkStep (stp_nextNode s) (stp_result s) (stp_err s) (stp_terminal s).

Definition no_token : ResumeToken := mkToken "" 0.
Definition endSegment (meta : RunMetadata) (now : Time) (reason : SegmentEndReason) : RunMetadata :=
  meta <| met_Segment := (met_Segment meta) <| seg_EndTime := toUTC now |> <| seg_EndReason := reason |> |>.
Definition markSegmentFailed (meta : RunMetadata) (now : Time) : RunMetadata := endSegment meta now SegmentEndFail.

Section Results.
Context {T E : Type}.
Implicit Types (state : T) (effects : list E) (meta : RunMetadata).

Definition newRunResultHandoff state effects meta (pointer reason : string) : RunResult T E :=
  mkResult state RunStatusHandoff effects meta pointer reason no_token.
Definition newRunResultCompleted state effects meta (pointer : string) : RunResult T E :=
  mkResult state RunStatusCompleted effects meta pointer "" no_token.
Definition newRunResultContextCanceled state effects meta (pointer : string) : RunResult T E :=
  mkResult state RunStatusContextCanceled effects meta pointer "context_canceled" no_token.
Definition newRunResultSuspended state effects meta (pointer reason : string) : RunResult T E :=
  mkResult state RunStatusSuspended effects meta pointer reason no_token.
Definition newRunResultFailed (now : Time) state effects meta (pointer reason : string) : RunResult T E :=
  let meta :=
    if (seg_EndReason (met_Segment meta) != SegmentEndFail) || IsZero (seg_EndTime (met_Segment meta))
    then markSegmentFailed meta now
    else meta <| met_Segment := (met_Segment meta) <| seg_EndTime := toUTC (seg_EndTime (met_Segment meta)) |> |> in
  mkResult state RunStatusFailed effects meta pointer reason no_token.

Definition continueDirectiveStep (nextNode : string) : directiveStep T E := mkStep nextNode None None false.
Definition terminalDirectiveStep (result : option (RunResult T E)) (err : option error) : directiveStep T E := mkStep "" result err true.

Definition newRunEvent (type : EventType) (pointer : string) state (err : option error) (reason : string) : RunEvent T E :=
  mkEvent type pointer state None err reason.
End Results.

(** ** Budgets *)
Definition checkBudgetLimits (meta : RunMetadata) (limits : gmap string Z) : option error :=
  if map_all (fun name limit => (limit <=? 0)%Z || (default 0 (met_BudgetCounts meta !! name) <=? limit)%Z) limits
  then None else Some (ErrBudgetExceeded : error).

(** ** Terminals *)
Definition makeExecutionTerminal (error_text : error -> string) (status : RunStatus) (reason : string) (err : option error)
  : ExecutionTerminal :=
  if status != RunStatusFailed then mkTerminal status reason None
  else mkTerminal status reason (Some (mkFailure (match err with Some e => error_text e | None => reason end))).

Definition recoverableExecutionFailure (err : error) : bool :=
  existsb (errors_Is err)
    [ErrActivityConflict; ErrActivityUnknown; ErrActivityBusy; ErrActivityRetryPending; ErrActivityFailed; ErrActivityAttemptsExhausted;
     ErrActivityScheduleInvalid; ErrLeaseLost; ErrConcurrencyConflict; ErrExecutionCapability; ContextCanceled; ContextDeadlineExceeded;
     ErrWaitInvalid; ErrWaitConflict; ErrWaitStale; ErrWaitUnresolved; ErrWaitRegistration].

(** ** Effects round trip *)
Definition plain {E} (d : Directive E) : Prop := dir_kind d <> directiveEffect /\ dir_kind d <> directiveZero.

Lemma unwrap_effects {E} (base : Directive E) es acc : plain base ->
  unwrapLoop (fold_left Effect es base) acc = Ok (base, es ++ rev acc).
Proof.
  intros [H1 H2]. revert acc. induction es as [|e es IH] using rev_ind; intros acc.
  - destruct base as [k ? ? ? ? ? ?]. by destruct k.
  - rewrite fold_left_app. cbn [fold_left]. unfold Effect, directiveWithKind. cbn [upd]. simpl. rewrite IH.
    rewrite rev_app_distr. simpl. by rewrite <- app_assoc.
Qed.

Lemma unwrap_plain {E} (d : Directive E) : forall acc b es, unwrapLoop d acc = Ok (b, es) -> plain b.
Proof.
  revert d. fix IH 1. intros [k r n p base eff w] acc b es. destruct k; cbn [unwrapLoop]; try done; try (intros [= <- _]; by split).
  destruct eff as [e|]; [|done]. destruct base as [next|]; [apply IH|done].
Qed.

(** Effects round trip: a node that wraps a directive in a list of effects is read by the
    runner as exactly that directive with exactly those effects in execution order, and what
    the runner reads is never an effect wrapper or the zero directive. *)
Theorem effects_roundtrip {E} (base : Directive E) (effects : list E) : plain base ->
  UnwrapDirective (WithEffects base effects) = Ok (base, effects) /\
  (forall d b es, UnwrapDirective d = Ok (b, es) -> plain (E := E) b).
Proof.
  intros Hp. split.
  - unfold UnwrapDirective, WithEffects. rewrite unwrap_effects by done. by rewrite app_nil_r.
  - intros d b es. apply unwrap_plain.
Qed.
