(* ===== verification/WireRecords.v ===== *)
(** * The concrete codec for the collections

    Instances of the self-delimiting encoding for journal, child and wait records, and the
    bundle of lawful codecs they form. *)

From S2P Require Import Prelude Go Sha256 Json Identity Schedule Activity Waits Contract Wire Children ChildBudget ChildrenInv Aggregate.


(** ** Journal *)
#[export] Instance wire_ActivityRetryScheduleKind : Wire ActivityRetryScheduleKind.
Proof.
  refine (wire_iso (fun v => match v with
    | ActivityRetryFixed => (0%N, "") | ActivityRetryExponential => (1%N, "") | ScheduleKindOther s => (2%N, s) end)
    (fun p => match p.1 with | 0%N => ActivityRetryFixed | 1%N => ActivityRetryExponential | _ => ScheduleKindOther p.2 end) _). by intros [].
Defined.
#[export] Instance wire_ActivityOrigin : Wire ActivityOrigin.
Proof.
  refine (wire_iso (fun v => match v with
    | NoOrigin => (0%N, "") | ActivityLive => (1%N, "") | ActivityReplayed => (2%N, "") | ActivityReconciled => (3%N, "") | ActivityManual => (4%N, "") | ActivitySimulated => (5%N, "") | OriginOther s => (6%N, s) end)
    (fun p => match p.1 with | 0%N => NoOrigin | 1%N => ActivityLive | 2%N => ActivityReplayed | 3%N => ActivityReconciled | 4%N => ActivityManual | 5%N => ActivitySimulated | _ => OriginOther p.2 end) _). by intros [].
Defined.
#[export] Instance wire_ActivityState : Wire ActivityState.
Proof.
  refine (wire_iso (fun v => match v with
    | ActivityPrepared => (0%N, "") | ActivityRunning => (1%N, "") | ActivityCompleted => (2%N, "") | ActivityFailed => (3%N, "") | ActivityUnknown => (4%N, "") | ActivityStateOther s => (5%N, s) end)
    (fun p => match p.1 with | 0%N => ActivityPrepared | 1%N => ActivityRunning | 2%N => ActivityCompleted | 3%N => ActivityFailed | 4%N => ActivityUnknown | _ => ActivityStateOther p.2 end) _). by intros [].
Defined.
#[export] Instance wire_ActivityFailureClass : Wire ActivityFailureClass.
Proof.
  refine (wire_iso (fun v => match v with
    | NoClass => (0%N, "") | ActivityRetryable => (1%N, "") | ActivityNonRetryable => (2%N, "") | ActivityAmbiguous => (3%N, "") | ClassOther s => (4%N, s) end)
    (fun p => match p.1 with | 0%N => NoClass | 1%N => ActivityRetryable | 2%N => ActivityNonRetryable | 3%N => ActivityAmbiguous | _ => ClassOther p.2 end) _). by intros [].
Defined.
#[export] Instance wire_ActivityResolutionAction : Wire ActivityResolutionAction.
Proof.
  refine (wire_iso (fun v => match v with
    | ActivityResolveComplete => (0%N, "") | ActivityResolveFail => (1%N, "") | ActivityResolveRetry => (2%N, "") | ActionOther s => (3%N, s) end)
    (fun p => match p.1 with | 0%N => ActivityResolveComplete | 1%N => ActivityResolveFail | 2%N => ActivityResolveRetry | _ => ActionOther p.2 end) _). by intros [].
Defined.
#[export] Instance wire_ActivityRetrySchedule : Wire ActivityRetrySchedule.
Proof.
  refine (wire_iso (fun r => (sch_Kind r, sch_InitialDelay r, sch_MaxDelay r, sch_Multiplier r, sch_JitterPermille r, sch_HintLabel r))
    (fun '(x0, x1, x2, x3, x4, x5) => mkActivityRetrySchedule x0 x1 x2 x3 x4 x5) _). by intros [].
Defined.
#[export] Instance wire_ActivityRetryPolicy : Wire ActivityRetryPolicy.
Proof.
  refine (wire_iso (fun r => (pol_Label r, pol_MaxAttempts r, pol_Schedule r, pol_SafeRetryContract r))
    (fun '(x0, x1, x2, x3) => mkActivityRetryPolicy x0 x1 x2 x3) _). by intros [].
Defined.
#[export] Instance wire_ActivityRetryScheduleDecision : Wire ActivityRetryScheduleDecision.
Proof.
  refine (wire_iso (fun r => (dec_Attempt r, dec_PreparedAt r, dec_BaseDelay r, dec_SelectedDelay r, dec_NotBefore r, dec_Deadline r, dec_Rejection r))
    (fun '(x0, x1, x2, x3, x4, x5, x6) => mkDecision x0 x1 x2 x3 x4 x5 x6) _). by intros [].
Defined.
#[export] Instance wire_ActivityAttempt : Wire ActivityAttempt.
Proof.
  refine (wire_iso (fun r => (att_Number r, att_Incarnation r, att_State r, att_Error r, att_Classification r, att_StartedAt r, att_RetrySchedule r, att_FinishedAt r))
    (fun '(x0, x1, x2, x3, x4, x5, x6, x7) => mkAttempt x0 x1 x2 x3 x4 x5 x6 x7) _). by intros [].
Defined.
#[export] Instance wire_ActivityResolutionRecord : Wire ActivityResolutionRecord.
Proof.
  refine (wire_iso (fun r => ((rsl_DecisionID r, rsl_Attempt r, rsl_Action r, rsl_PriorState r, rsl_SourceRevision r, rsl_Incarnation r, rsl_Reason r, rsl_Evidence r), (rsl_SafeRetryContract r, rsl_RetrySchedule r, rsl_At r)))
    (fun '((x0, x1, x2, x3, x4, x5, x6, x7), (x8, x9, x10)) => mkResolutionRecord x0 x1 x2 x3 x4 x5 x6 x7 x8 x9 x10) _). by intros [].
Defined.
#[export] Instance wire_ActivityRecord : Wire ActivityRecord.
Proof.
  refine (wire_iso (fun r => ((rec_Identity r, rec_ExecutionID r, rec_Node r, rec_Activation r, rec_Key r, rec_InputDigest r, rec_Implementation r, rec_State r), (rec_Outcome r, rec_Origin r, rec_Attempts r, rec_Retry r, rec_Classification r, rec_NextAttemptAt r, rec_Resolutions r)))
    (fun '((x0, x1, x2, x3, x4, x5, x6, x7), (x8, x9, x10, x11, x12, x13, x14)) => mkActivityRecord x0 x1 x2 x3 x4 x5 x6 x7 x8 x9 x10 x11 x12 x13 x14) _). by intros [].
Defined.

(** ** Waits *)
#[export] Instance wire_WaitState : Wire WaitState.
Proof.
  refine (wire_iso (fun v => match v with
    | WaitArmed => (0%N, "") | WaitResolved => (1%N, "") | WaitExpired => (2%N, "") | WaitCanceled => (3%N, "") | WaitStateOther s => (4%N, s) end)
    (fun p => match p.1 with | 0%N => WaitArmed | 1%N => WaitResolved | 2%N => WaitExpired | 3%N => WaitCanceled | _ => WaitStateOther p.2 end) _). by intros [].
Defined.
#[export] Instance wire_WaitWinnerPolicy : Wire WaitWinnerPolicy.
Proof.
  refine (wire_iso (fun v => match v with
    | WaitFirstCommitted => (0%N, "") | WinnerPolicyOther s => (1%N, s) end)
    (fun p => match p.1 with | 0%N => WaitFirstCommitted | _ => WinnerPolicyOther p.2 end) _). by intros [].
Defined.
#[export] Instance wire_WaitDeliveryKind : Wire WaitDeliveryKind.
Proof.
  refine (wire_iso (fun v => match v with
    | WaitEvent => (0%N, "") | WaitTimer => (1%N, "") | DeliveryKindOther s => (2%N, s) end)
    (fun p => match p.1 with | 0%N => WaitEvent | 1%N => WaitTimer | _ => DeliveryKindOther p.2 end) _). by intros [].
Defined.
#[export] Instance wire_WaitDecisionStatus : Wire WaitDecisionStatus.
Proof.
  refine (wire_iso (fun v => match v with
    | WaitAccepted => (0%N, "") | WaitUnmatched => (1%N, "") | WaitLost => (2%N, "") | WaitRejectedCanceled => (3%N, "") | DecisionStatusOther s => (4%N, s) end)
    (fun p => match p.1 with | 0%N => WaitAccepted | 1%N => WaitUnmatched | 2%N => WaitLost | 3%N => WaitRejectedCanceled | _ => DecisionStatusOther p.2 end) _). by intros [].
Defined.
#[export] Instance wire_DurableWaitSpec : Wire DurableWaitSpec.
Proof.
  refine (wire_iso (fun r => ((wsp_ID r, wsp_CorrelationID r, wsp_Deadline r, wsp_MatcherLabel r, wsp_PayloadCodec r, wsp_ContinuationLabel r, wsp_EventPointer r, wsp_TimeoutPointer r), (wsp_WinnerPolicy r)))
    (fun '((x0, x1, x2, x3, x4, x5, x6, x7), (x8)) => mkWaitSpec x0 x1 x2 x3 x4 x5 x6 x7 x8) _). by intros [].
Defined.
#[export] Instance wire_WaitDecision : Wire WaitDecision.
Proof.
  refine (wire_iso (fun r => (wdc_ID r, wdc_Kind r, wdc_CorrelationID r, wdc_PayloadDigest r, wdc_Status r, wdc_SourceRevision r, wdc_Incarnation r, wdc_At r))
    (fun '(x0, x1, x2, x3, x4, x5, x6, x7) => mkWaitDecision x0 x1 x2 x3 x4 x5 x6 x7) _). by intros [].
Defined.
#[export] Instance wire_WaitCancellationRecord : Wire WaitCancellationRecord.
Proof.
  refine (wire_iso (fun r => (wcn_ID r, wcn_Reason r, wcn_Evidence r, wcn_SourceRevision r, wcn_Incarnation r, wcn_At r))
    (fun '(x0, x1, x2, x3, x4, x5) => mkWaitCancellationRecord x0 x1 x2 x3 x4 x5) _). by intros [].
Defined.
#[export] Instance wire_DurableWaitRecord : Wire DurableWaitRecord.
Proof.
  refine (wire_iso (fun r => ((wt_ExecutionID r, wt_Node r, wt_Activation r, wt_Generation r, wt_ArmRevision r, wt_Spec r, wt_Profile r, wt_State r), (wt_WinnerID r, wt_Decisions r, wt_Cancellation r)))
    (fun '((x0, x1, x2, x3, x4, x5, x6, x7), (x8, x9, x10)) => mkWaitRecord x0 x1 x2 x3 x4 x5 x6 x7 x8 x9 x10) _). by intros [].
Defined.

(** ** Child groups *)
#[export] Instance wire_ChildState : Wire ChildState.
Proof.
  refine (wire_iso (fun v => match v with
    | ChildPlanned => (0%N, "") | ChildQueued => (1%N, "") | ChildRunning => (2%N, "") | ChildWaiting => (3%N, "") | ChildCompleted => (4%N, "") | ChildFailed => (5%N, "") | ChildCanceled => (6%N, "") | ChildUnknown => (7%N, "") | ChildStateOther s => (8%N, s) end)
    (fun p => match p.1 with | 0%N => ChildPlanned | 1%N => ChildQueued | 2%N => ChildRunning | 3%N => ChildWaiting | 4%N => ChildCompleted | 5%N => ChildFailed | 6%N => ChildCanceled | 7%N => ChildUnknown | _ => ChildStateOther p.2 end) _). by intros [].
Defined.
#[export] Instance wire_ChildWaitResolutionRecord : Wire ChildWaitResolutionRecord.
Proof.
  refine (wire_iso (fun r => (cwr_WaitID r, cwr_DecisionID r, cwr_ChildRevision r, cwr_SourceRevision r, cwr_Incarnation r, cwr_At r))
    (fun '(x0, x1, x2, x3, x4, x5) => mkWaitResolution x0 x1 x2 x3 x4 x5) _). by intros [].
Defined.
#[export] Instance wire_ChildOutcomeResolutionRecord : Wire ChildOutcomeResolutionRecord.
Proof.
  refine (wire_iso (fun r => ((cor_DecisionID r, cor_Reason r, cor_Evidence r, cor_RequestDigest r, cor_PriorState r, cor_ChildRevision r, cor_PriorIncarnation r, cor_SourceRevision r), (cor_Incarnation r, cor_At r)))
    (fun '((x0, x1, x2, x3, x4, x5, x6, x7), (x8, x9)) => mkOutcomeResolution x0 x1 x2 x3 x4 x5 x6 x7 x8 x9) _). by intros [].
Defined.
#[export] Instance wire_ChildCancelConfirmationRecord : Wire ChildCancelConfirmationRecord.
Proof.
  refine (wire_iso (fun r => ((ccc_RequestID r, ccc_DecisionID r, ccc_Reason r, ccc_Evidence r, ccc_PriorState r, ccc_ChildRevision r, ccc_SourceRevision r, ccc_Incarnation r), (ccc_At r)))
    (fun '((x0, x1, x2, x3, x4, x5, x6, x7), (x8)) => mkCancelConfirmation x0 x1 x2 x3 x4 x5 x6 x7 x8) _). by intros [].
Defined.
#[export] Instance wire_ChildCancelRequestRecord : Wire ChildCancelRequestRecord.
Proof.
  refine (wire_iso (fun r => (ccr_ID r, ccr_Reason r, ccr_SourceRevision r, ccr_Incarnation r, ccr_At r))
    (fun '(x0, x1, x2, x3, x4) => mkCancelRequest x0 x1 x2 x3 x4) _). by intros [].
Defined.
#[export] Instance wire_ChildBudgetReturnRecord : Wire ChildBudgetReturnRecord.
Proof.
  refine (wire_iso (fun r => ((cbr_ChildRevision r, cbr_DecisionID r, cbr_Reason r, cbr_Evidence r, cbr_Used r, cbr_Returned r, cbr_SourceRevision r, cbr_Incarnation r), (cbr_At r)))
    (fun '((x0, x1, x2, x3, x4, x5, x6, x7), (x8)) => mkBudgetReturn x0 x1 x2 x3 x4 x5 x6 x7 x8) _). by intros [].
Defined.
#[export] Instance wire_ChildRecord : Wire ChildRecord.
Proof.
  refine (wire_iso (fun r => ((chd_Spec r, chd_ExecutionID r, chd_Revision r, chd_Incarnation r, chd_WaitID r, chd_State r, chd_Result r, chd_Error r), (chd_CancelRequested r, chd_CancelConfirmed r, chd_WaitResolution r, chd_OutcomeResolution r, chd_CancelConfirmation r)))
    (fun '((x0, x1, x2, x3, x4, x5, x6, x7), (x8, x9, x10, x11, x12)) => mkChild x0 x1 x2 x3 x4 x5 x6 x7 x8 x9 x10 x11 x12) _). by intros [].
Defined.
#[export] Instance wire_ChildGroupRecord : Wire ChildGroupRecord.
Proof.
  refine (wire_iso (fun r => ((grp_ParentID r, grp_Node r, grp_Activation r, grp_Plan r, grp_Children r, grp_MergedIDs r, grp_MergedResult r, grp_CancelRequested r), (grp_CancelRequest r, grp_Capacity r, grp_BudgetReturns r)))
    (fun '((x0, x1, x2, x3, x4, x5, x6, x7), (x8, x9, x10)) => mkGroup x0 x1 x2 x3 x4 x5 x6 x7 x8 x9 x10) _). by intros [].
Defined.

(** ** The bundle *)
#[export] Instance wire_codecs : Codecs := Build_Codecs wire_codec wire_codec wire_codec wire_codec wire_codec wire_codec.
#[export] Instance wire_lawful : LawfulCodecs.
Proof. constructor; apply wire_roundtrip. Defined.
