(* ===== verification/Store.v ===== *)
(** * Execution storage

    testutil/execution_store.go, execution_rollover.go and execution_retention.go: the
    reference implementation of [ExecutionStore], [ExecutionHistoryStore],
    [ExecutionRolloverStore] and [ExecutionRetentionStore], with the fork checks of
    execution_fork_transition.go, and lease.go: the in-process lease manager.

    Each method runs under the mutex of the store, so it is one function of the store's
    state. Methods read the clock where the source calls it; the readings are arguments.
    [ctxErr] is [ctx.Err()] at entry. *)

From S2P Require Import Prelude Go Sha256 Json Identity Schedule Activity Waits Contract Children Aggregate.

(** ** Immutable fork lineage *)
Definition ValidateExecutionForkTransition (previous : option (string * option ForkLineage)) (next : ExecutionEnvelope)
  : option error :=
  if match env_Fork next with
     | Some f => negb (is_nil (validateForkLineage f)) || (frk_TargetID f != env_ExecutionID next)
     | None => false
     end then corrupt
  else match previous with
  | None => None
  | Some (previousID, previousFork) =>
      if (previousID != env_ExecutionID next) || (is_nil previousFork != is_nil (env_Fork next)) then corrupt
      else if match previousFork with Some _ => previousFork != env_Fork next | None => false end then corrupt
      else None
  end.
(** The envelope compared with itself, its lineage replaced by the anchor. *)
Definition ValidateExecutionForkAnchor (envelope : ExecutionEnvelope) (anchor : option ForkLineage) : option error :=
  ValidateExecutionForkTransition (Some (env_ExecutionID envelope, anchor)) envelope.

(** ** The in-memory store *)
Record MemoryExecutionStore := mkStore {
  sto_history : gmap string (gmap N string);
  sto_heads : gmap string N;
  sto_leases : gmap string ExecutionLease;
  sto_fences : gmap string N;
  sto_lineage : gmap string ForkLineage;
  sto_incoming : gmap string RolloverReceipt;
  sto_outgoing : gmap string RolloverReceipt;
}.
#[export] Instance eta_Store : Eta MemoryExecutionStore := fun r =>
  mkStore (sto_history r) (sto_heads r) (sto_leases r) (sto_fences r) (sto_lineage r) (sto_incoming r) (sto_outgoing r).
Definition NewMemoryExecutionStore : MemoryExecutionStore := mkStore ∅ ∅ ∅ ∅ ∅ ∅ ∅.

(** Missing keys of a Go map read as the zero value. *)
Definition head_of (s : MemoryExecutionStore) (id : string) : N := default 0%N (sto_heads s !! id).
Definition fence_of (s : MemoryExecutionStore) (id : string) : N := default 0%N (sto_fences s !! id).
Definition items_of (s : MemoryExecutionStore) (id : string) : gmap N string := default ∅ (sto_history s !! id).
Definition payload_of (s : MemoryExecutionStore) (id : string) (revision : N) : string := default "" (items_of s id !! revision).
Definition no_lease : ExecutionLease := mkLease "" "" 0 time_zero.
Definition lease_of (s : MemoryExecutionStore) (id : string) : ExecutionLease := default no_lease (sto_leases s !! id).

Definition held (s : MemoryExecutionStore) (now : Time) (lease : ExecutionLease) : bool :=
  let current := lease_of s (lse_ExecutionID lease) in
  (lse_Incarnation lease != 0%N) && (lse_Owner current == lse_Owner lease)
  && (lse_Incarnation current == lse_Incarnation lease) && After (lse_ExpiresAt current) now.

Definition invalid_acquisition : error := ErrHost "flowy: invalid lease acquisition".
Definition invalid_renewal : error := ErrHost "flowy: invalid lease renewal".

Section Store.
Context `{Codecs}.

(** A JSON [null] leaves the zero envelope, which never validates. *)
Definition decodeExecution (data id : string) (revision : N) : res ExecutionEnvelope :=
  match unmarshal data with
  | None => Err (ErrJoin ErrExecutionCorrupt json_error)
  | Some None => Err ErrExecutionCorrupt
  | Some (Some result) => of_error (ValidateExecutionIntegrity result id revision) result
  end.

Definition decodeAnchoredExecution (s : MemoryExecutionStore) (data id : string) (revision : N) : res ExecutionEnvelope :=
  if no_bytes data then Err ErrExecutionCheckpointUnavailable
  else
    envelope ← decodeExecution data id revision;
    check (ValidateExecutionForkAnchor envelope (sto_lineage s !! id));;
    check (ValidateExecutionLifecycleAnchors envelope (sto_incoming s !! id) (sto_outgoing s !! id));;
    Ok envelope.

Definition LoadExecution (ctxErr : option error) (s : MemoryExecutionStore) (id : string) : res ExecutionEnvelope :=
  check ctxErr;;
  let revision := head_of s id in
  if revision == 0%N then Err ErrThreadNotFound
  else decodeAnchoredExecution s (payload_of s id revision) id revision.

Definition LoadCheckpoint (ctxErr : option error) (s : MemoryExecutionStore) (id : string) (revision : N) : res ExecutionEnvelope :=
  if revision == 0%N then Err ErrInvalidSnapshot
  else
    check ctxErr;;
    if (head_of s id <? revision)%N then Err ErrThreadNotFound
    else decodeAnchoredExecution s (payload_of s id revision) id revision.

Definition put_checkpoint (s : MemoryExecutionStore) (id : string) (revision : N) (data : string) : MemoryExecutionStore :=
  s <| sto_history := <[id := <[revision := data]> (items_of s id)]> (sto_history s) |>
    <| sto_heads := <[id := revision]> (sto_heads s) |>.

Definition CommitExecution (ctxErr : option error) (now : Time) (s : MemoryExecutionStore) (expectedRevision : N)
    (lease : ExecutionLease) (envelope : ExecutionEnvelope) : res (MemoryExecutionStore * ExecutionEnvelope) :=
  if expectedRevision == max_uint64 then Err ErrExecutionCapability
  else
    check ctxErr;;
    if negb (held s now lease) || (env_ExecutionID envelope != lse_ExecutionID lease) then Err ErrLeaseLost
    else
      check (validateDescriptor (env_Descriptor envelope));;
      if prg_ExecutionPointer (env_Progress envelope) == "" then Err ErrInvalidSnapshot
      else
        let id := env_ExecutionID envelope in
        if head_of s id != expectedRevision then Err ErrConcurrencyConflict
        else
          previous ← (if (0 <? expectedRevision)%N
                      then stored ← decodeAnchoredExecution s (payload_of s id expectedRevision) id expectedRevision;
                           Ok (Some stored)
                      else Ok None);
          check (ValidateExecutionRolloverTransition previous envelope);;
          check (ValidateExecutionForkTransition ((fun p => (env_ExecutionID p, env_Fork p)) <$> previous) envelope);;
          envelope ← SealExecutionEnvelope (envelope <| env_Revision := succ_u64 expectedRevision |>);
          encoded ← of_option (marshal envelope) json_error;
          result ← decodeExecution encoded (env_ExecutionID envelope) (env_Revision envelope);
          let s := put_checkpoint s (env_ExecutionID envelope) (env_Revision envelope) encoded in
          Ok (match env_Fork result with
              | Some lineage => if expectedRevision == 0%N then s <| sto_lineage := <[env_ExecutionID envelope := lineage]> (sto_lineage s) |> else s
              | None => s
              end, result).

Definition AcquireExecution (ctxErr : option error) (now now' : Time) (s : MemoryExecutionStore) (id owner : string) (ttl : Z)
  : res (MemoryExecutionStore * ExecutionLease) :=
  check ctxErr;;
  if (id == "") || (owner == "") || (ttl <=? 0)%Z then Err invalid_acquisition
  else
    let current := lease_of s id in
    if After (lse_ExpiresAt current) now then
      if lse_Owner current == owner then Err ErrThreadLeaseBusy else Err ErrLeaseHeld
    else if fence_of s id == max_uint64 then Err ErrExecutionCapability
    else
      let fence := succ_u64 (fence_of s id) in
      let lease := mkLease id owner fence (Add now' ttl) in
      Ok (s <| sto_fences := <[id := fence]> (sto_fences s) |> <| sto_leases := <[id := lease]> (sto_leases s) |>, lease).

Definition RenewExecution (ctxErr : option error) (now now' : Time) (s : MemoryExecutionStore) (lease : ExecutionLease) (ttl : Z)
  : res (MemoryExecutionStore * ExecutionLease) :=
  check ctxErr;;
  if (ttl <=? 0)%Z then Err invalid_renewal
  else if negb (held s now lease) then Err ErrLeaseLost
  else
    let lease := lease <| lse_ExpiresAt := Add now' ttl |> in
    Ok (s <| sto_leases := <[lse_ExecutionID lease := lease]> (sto_leases s) |>, lease).

Definition ReleaseExecution (ctxErr : option error) (s : MemoryExecutionStore) (lease : ExecutionLease) : res MemoryExecutionStore :=
  check ctxErr;;
  match sto_leases s !! lse_ExecutionID lease with
  | None =>
      if (fence_of s (lse_ExecutionID lease) == lse_Incarnation lease) && (lse_Incarnation lease != 0%N) then Ok s
      else Err ErrLeaseLost
  | Some current =>
      if (lse_Owner current != lse_Owner lease) || (lse_Incarnation current != lse_Incarnation lease) then Err ErrLeaseLost
      else Ok (s <| sto_leases := delete (lse_ExecutionID lease) (sto_leases s) |>)
  end.

Definition LoadRollover (ctxErr : option error) (s : MemoryExecutionStore) (sourceID : string) : res (option RolloverReceipt) :=
  check ctxErr;;
  match sto_outgoing s !! sourceID with
  | None => Ok None
  | Some receipt => of_error (validateReceipt receipt) (Some receipt)
  end.

Definition CommitRollover (ctxErr : option error) (now : Time) (s : MemoryExecutionStore) (lease : ExecutionLease)
    (source : HistoricalCheckpointReference) (target : ExecutionEnvelope) : res (MemoryExecutionStore * RolloverReceipt) :=
  check ctxErr;;
  let sourceID := ref_ExecutionID source in
  if negb (held s now lease) || (lse_ExecutionID lease != sourceID) then Err ErrLeaseLost
  else if negb (is_nil (sto_outgoing s !! sourceID)) then Err ErrExecutionRolloverConflict
  else if head_of s sourceID != ref_Revision source then Err ErrConcurrencyConflict
  else if ref_Revision source == 0%N then Err ErrThreadNotFound
  else
    current ← decodeAnchoredExecution s (payload_of s sourceID (ref_Revision source)) sourceID (ref_Revision source);
    if env_Digest current != ref_Digest source then Err ErrExecutionRolloverConflict
    else if (head_of s (env_ExecutionID target) != 0%N) || (fence_of s (env_ExecutionID target) != 0%N)
    then Err ErrExecutionRolloverConflict
    else
      publication ← PrepareExecutionRolloverPublication current target lease;
      let '(transferred, created, receipt) := publication in
      sourceBytes ← of_option (marshal transferred) json_error;
      targetBytes ← of_option (marshal created) json_error;
      let s := put_checkpoint s sourceID (env_Revision transferred) sourceBytes in
      let s := s <| sto_history := <[env_ExecutionID created := {[1%N := targetBytes]}]> (sto_history s) |>
                 <| sto_heads := <[env_ExecutionID created := 1%N]> (sto_heads s) |> in
      Ok (s <| sto_outgoing := <[sourceID := receipt]> (sto_outgoing s) |>
            <| sto_incoming := <[env_ExecutionID created := receipt]> (sto_incoming s) |>, receipt).

Fixpoint validateRetentionProtected (s : MemoryExecutionStore) (id : string) (protected : list N) : option error :=
  match protected with
  | [] => None
  | revision :: rest =>
      if no_bytes (payload_of s id revision) then Some (ErrExecutionCheckpointUnavailable : error)
      else match decodeAnchoredExecution s (payload_of s id revision) id revision with
      | Err err => Some err
      | Ok _ => validateRetentionProtected s id rest
      end
  end.

(** The loop that deletes every stored payload the policy does not retain. *)
Definition pruned (request : ExecutionRetentionRequest) (kv : N * string) : bool :=
  negb (no_bytes kv.2 || ExecutionRevisionRetained request kv.1).
Definition RetainExecutionStore (ctxErr : option error) (now : Time) (s : MemoryExecutionStore) (request : ExecutionRetentionRequest)
  : res (MemoryExecutionStore * ExecutionRetentionReceipt) :=
  check ctxErr;;
  check (validateRetentionRequest request);;
  let id := rtr_ExecutionID request in
  if After (lse_ExpiresAt (lease_of s id)) now then Err ErrThreadLeaseBusy
  else if head_of s id == 0%N then Err ErrThreadNotFound
  else if head_of s id != rtr_Revision request then Err ErrConcurrencyConflict
  else if no_bytes (payload_of s id (rtr_Revision request)) then
    if rtp_DeletePayload (rtr_Policy request) then Ok (s, mkRetentionReceipt id (rtr_Revision request) 0 0)
    else Err ErrExecutionCheckpointUnavailable
  else
    source ← decodeAnchoredExecution s (payload_of s id (rtr_Revision request)) id (rtr_Revision request);
    check (ValidateExecutionLifecycleBoundary source);;
    if rtp_DeletePayload (rtr_Policy request) && is_nil (env_Terminal source) then Err ErrExecutionLifecycleUnsafe
    else
      check (validateRetentionProtected s id (rtp_ProtectedRevisions (rtr_Policy request)));;
      let deleted := List.filter (pruned request) (map_to_list (items_of s id)) in
      Ok (s <| sto_history := <[id := filter (fun kv => pruned request kv = false) (items_of s id)]> (sto_history s) |>,
          mkRetentionReceipt id (rtr_Revision request) (len deleted) (fold_right Z.add 0%Z (map (fun kv => byte_len kv.2) deleted))).
End Store.

(** ** The in-process lease manager *)
Record leaseRecord := mkLeaseRecord { lr_owner : string; lr_expiresAt : Time; lr_incarnation : N }.
Record MemoryLeaseManager := mkLeaseManager { mlm_leases : gmap string leaseRecord; mlm_fences : gmap string N }.
#[export] Instance eta_LeaseManager : Eta MemoryLeaseManager := fun r => mkLeaseManager (mlm_leases r) (mlm_fences r).
Definition NewMemoryLeaseManager : MemoryLeaseManager := mkLeaseManager ∅ ∅.
Definition lm_fence (m : MemoryLeaseManager) (id : string) : N := default 0%N (mlm_fences m !! id).

Definition Acquire (now : Time) (m : MemoryLeaseManager) (threadID owner : string) (ttl : Z)
  : res (MemoryLeaseManager * ExecutionLease) :=
  if (threadID == "") || (owner == "") then Err (ErrHost "flowy: lease acquire requires threadID and owner")
  else if (ttl <=? 0)%Z then Err (ErrHost "flowy: lease ttl must be positive")
  else
    match mlm_leases m !! threadID with
    | Some rec => if After (lr_expiresAt rec) now
                  then Err (ErrJoin (if lr_owner rec != owner then ErrLeaseHeld else ErrThreadLeaseBusy) (ErrHost (lr_owner rec)))
                  else Ok tt
    | None => Ok tt
    end;;
    if lm_fence m threadID == max_uint64 then Err ErrExecutionCapability
    else
      let fence := succ_u64 (lm_fence m threadID) in
      let record := mkLeaseRecord owner (Add now ttl) fence in
      Ok (m <| mlm_fences := <[threadID := fence]> (mlm_fences m) |> <| mlm_leases := <[threadID := record]> (mlm_leases m) |>,
          mkLease threadID owner fence (lr_expiresAt record)).

Definition Renew (now : Time) (m : MemoryLeaseManager) (lease : ExecutionLease) (ttl : Z) : res (MemoryLeaseManager * ExecutionLease) :=
  if (lse_ExecutionID lease == "") || (lse_Owner lease == "") || (lse_Incarnation lease == 0%N) || (ttl <=? 0)%Z
  then Err ErrLeaseLost
  else match mlm_leases m !! lse_ExecutionID lease with
  | None => Err ErrLeaseLost
  | Some rec =>
      if negb (After (lr_expiresAt rec) now) || (lr_owner rec != lse_Owner lease) || (lr_incarnation rec != lse_Incarnation lease)
      then Err ErrLeaseLost
      else
        let rec' := mkLeaseRecord (lr_owner rec) (Add now ttl) (lr_incarnation rec) in
        Ok (m <| mlm_leases := <[lse_ExecutionID lease := rec']> (mlm_leases m) |>, lease <| lse_ExpiresAt := Add now ttl |>)
  end.

Definition Holder (now : Time) (m : MemoryLeaseManager) (threadID : string) : string * bool :=
  match mlm_leases m !! threadID with
  | None => ("", false)
  | Some rec => if negb (After (lr_expiresAt rec) now) then ("", false) else (lr_owner rec, true)
  end.
Definition IsHeld (now : Time) (m : MemoryLeaseManager) (threadID : string) : bool := (Holder now m threadID).2.

Definition Release (m : MemoryLeaseManager) (lease : ExecutionLease) : res MemoryLeaseManager :=
  if (lse_ExecutionID lease == "") || (lse_Owner lease == "") || (lse_Incarnation lease == 0%N) then Err ErrLeaseLost
  else match mlm_leases m !! lse_ExecutionID lease with
  | None => Ok m
  | Some rec =>
      if (lr_owner rec != lse_Owner lease) || (lr_incarnation rec != lse_Incarnation lease) then Err ErrLeaseLost
      else Ok (m <| mlm_leases := delete (lse_ExecutionID lease) (mlm_leases m) |>)
  end.
