(* ===== verification/StoreInv.v ===== *)
(** * Guarantees of the execution store

    Over every sequence of commits, acquisitions, renewals, releases, rollovers and
    retentions: what is stored always decodes and validates against its permanent anchors,
    revisions are never rewritten, a superseded lease can do nothing, and a transferred
    execution is closed for good. *)

From stdpp Require Import relations.
From S2P Require Import Prelude Go Sha256 Json Identity Schedule Activity Waits Contract Children Wire Migration Integrity Aggregate Store.

#[local] Arguments validRuntimeText : simpl never.
#[local] Arguments max_uint64 : simpl never.
#[local] Arguments validateReceipt : simpl never.
#[local] Arguments validateForkLineage : simpl never.
#[local] Arguments validateRolloverLineage : simpl never.
#[local] Arguments lineageDigest : simpl never.

Section StoreInv.
Context `{HC : Codecs} `{HL : !LawfulCodecs}.

(** ** Steps *)
Inductive store_step : MemoryExecutionStore -> MemoryExecutionStore -> Prop :=
| sstep_commit s s' now expected lease envelope result :
    (forall e, SealExecutionEnvelope (envelope <| env_Revision := succ_u64 expected |>) = Ok e -> representable e) ->
    CommitExecution None now s expected lease envelope = Ok (s', result) -> store_step s s'
| sstep_acquire s s' now now' id owner ttl lease : AcquireExecution None now now' s id owner ttl = Ok (s', lease) -> store_step s s'
| sstep_renew s s' now now' lease ttl lease' : RenewExecution None now now' s lease ttl = Ok (s', lease') -> store_step s s'
| sstep_release s s' lease : ReleaseExecution None s lease = Ok s' -> store_step s s'
| sstep_rollover s s' now lease source target receipt :
    (forall current transferred created receipt, PrepareExecutionRolloverPublication current target lease = Ok (transferred, created, receipt) ->
       representable transferred /\ representable created) ->
    CommitRollover None now s lease source target = Ok (s', receipt) -> store_step s s'
| sstep_retain s s' now request receipt : RetainExecutionStore None now s request = Ok (s', receipt) -> store_step s s'.

Definition store_reachable (s : MemoryExecutionStore) : Prop := rtc store_step NewMemoryExecutionStore s.

(** ** The invariant *)
Record store_ok (s : MemoryExecutionStore) : Prop := mk_store_ok {
  so_head : forall id, is_u64 (head_of s id);
  so_items : forall id r data, items_of s id !! r = Some data ->
    (0 < r <= head_of s id)%N /\ data <> "" /\ exists e, decodeAnchoredExecution s data id r = Ok e;
  so_lineage : forall id l, sto_lineage s !! id = Some l -> head_of s id <> 0%N;
  so_incoming : forall id r, sto_incoming s !! id = Some r -> head_of s id <> 0%N;
  so_outgoing : forall id r, sto_outgoing s !! id = Some r -> head_of s id = rcp_SourceRevision r /\ (1 < head_of s id)%N;
  so_leases : forall id l, sto_leases s !! id = Some l ->
    lse_ExecutionID l = id /\ lse_Incarnation l = fence_of s id /\ lse_Incarnation l <> 0%N;
  so_fences : forall id, is_u64 (fence_of s id);
}.

Lemma store_ok_new : store_ok NewMemoryExecutionStore.
Proof. by split. Qed.

(** ** Decoding *)
Lemma encoded_nonempty (e : ExecutionEnvelope) b : marshal e = Some b -> b <> "".
Proof. apply marshal_nonempty. Qed.
Lemma decodeExecution_Ok data id r e : decodeExecution data id r = Ok e <->
  unmarshal data = Some (Some e) /\ ValidateExecutionIntegrity e id r = None.
Proof.
  unfold decodeExecution, of_error. destruct (unmarshal data) as [[x|]|]; split; try done.
  - destruct (ValidateExecutionIntegrity x id r) eqn:E; [done|]. by intros [= <-].
  - intros ([= ->] & ->). done.
  - by intros ([=] & _).
  - by intros ([=] & _).
Qed.

Lemma decodeAnchored_Ok s data id r e : decodeAnchoredExecution s data id r = Ok e <->
  data <> "" /\ unmarshal data = Some (Some e) /\ ValidateExecutionIntegrity e id r = None /\
  ValidateExecutionForkAnchor e (sto_lineage s !! id) = None /\
  ValidateExecutionLifecycleAnchors e (sto_incoming s !! id) (sto_outgoing s !! id) = None.
Proof.
  unfold decodeAnchoredExecution, no_bytes. case_bool_decide as E.
  { split; [done|]. by intros (? & _). }
  split.
  - intros Hd. inv_ok Hd. apply decodeExecution_Ok in Hok as [Hu Hv]. apply check_Ok in Hok0, Hok1. by simplify_eq.
  - intros (_ & Hu & Hv & Hf & Ha). assert (Hd : decodeExecution data id r = Ok e) by by apply decodeExecution_Ok.
    rewrite Hd. cbn [mbind res_bind]. rewrite Hf, Ha. done.
Qed.

(** Loading depends only on the anchors of the execution. *)
Lemma decodeAnchored_ext s s' data id r : sto_lineage s' !! id = sto_lineage s !! id ->
  sto_incoming s' !! id = sto_incoming s !! id -> sto_outgoing s' !! id = sto_outgoing s !! id ->
  decodeAnchoredExecution s' data id r = decodeAnchoredExecution s data id r.
Proof. unfold decodeAnchoredExecution. by intros -> -> ->. Qed.

Lemma head_payload s id r : store_ok s -> payload_of s id r <> "" ->
  exists e, decodeAnchoredExecution s (payload_of s id r) id r = Ok e /\ (0 < r <= head_of s id)%N.
Proof.
  intros Hs Hp. unfold payload_of in *. destruct (items_of s id !! r) as [d|] eqn:E; [|done].
  destruct (so_items _ Hs _ _ _ E) as (Hr & _ & e & He). by exists e.
Qed.

(** ** Leases *)
Lemma held_fence s now lease : store_ok s -> held s now lease = true ->
  lse_Incarnation lease = fence_of s (lse_ExecutionID lease) /\ lse_Incarnation lease <> 0%N.
Proof.
  intros Hs Hh. unfold held, lease_of in Hh. rewrite !andb_true_iff, negb_true_iff, !bool_decide_eq_true, bool_decide_eq_false in Hh.
  destruct Hh as [[[Hn Ho] Hi] _]. destruct (sto_leases s !! lse_ExecutionID lease) as [l|] eqn:E; simpl in *; [|congruence].
  destruct (so_leases _ Hs _ _ E) as (_ & Hf & _). split; congruence.
Qed.

Lemma acquire_ok s s' now now' id owner ttl lease : store_ok s -> AcquireExecution None now now' s id owner ttl = Ok (s', lease) ->
  store_ok s'.
Proof.
  intros Hs Ha. unfold AcquireExecution in Ha. cbn [check mbind res_bind] in Ha. guard_in Ha; [done|]. guard_in Ha; [by case_bool_decide|].
  case_bool_decide as Hm; [done|]. injection Ha as <- <-. assert (Hf := so_fences _ Hs id). unfold is_u64 in Hf.
  assert (Hlt : (fence_of s id < max_uint64)%N) by lia. destruct Hs as [H1 H2 H3 H4 H5 H6 H7]. split; try done; simpl.
  - intros id' l. unfold fence_of. simpl. destruct (decide (id' = id)) as [->|Hne].
    + rewrite !lookup_insert_eq. intros [= <-]. simpl. split_and!; try done. rewrite succ_u64_lt by done. lia.
    + rewrite !lookup_insert_ne by done. apply H6.
  - intros id'. unfold fence_of. simpl. destruct (decide (id' = id)) as [->|Hne].
    + rewrite lookup_insert_eq. apply succ_u64_is.
    + rewrite lookup_insert_ne by done. apply H7.
Qed.

Lemma renew_ok s s' now now' lease ttl lease' : store_ok s -> RenewExecution None now now' s lease ttl = Ok (s', lease') -> store_ok s'.
Proof.
  intros Hs Ha. unfold RenewExecution in Ha. cbn [check mbind res_bind] in Ha. guard_in Ha; [done|]. guard_in Ha; [done|].
  injection Ha as <- <-. apply negb_false_iff in Hg0. apply (held_fence _ _ _ Hs) in Hg0 as [Hf Hn].
  destruct Hs as [H1 H2 H3 H4 H5 H6 H7]. split; try done; simpl. intros id' l.
  destruct (decide (id' = lse_ExecutionID lease)) as [->|Hne].
  - rewrite lookup_insert_eq. intros [= <-]. done.
  - rewrite lookup_insert_ne by done. apply H6.
Qed.

Lemma release_ok s s' lease : store_ok s -> ReleaseExecution None s lease = Ok s' -> store_ok s'.
Proof.
  intros Hs Ha. unfold ReleaseExecution in Ha. cbn [check mbind res_bind] in Ha.
  destruct (sto_leases s !! lse_ExecutionID lease) as [l|]; (guard_in Ha; [try done|]); try done; [|by simplify_eq].
  injection Ha as <-. destruct Hs as [H1 H2 H3 H4 H5 H6 H7]. split; try done; simpl. intros id' l' Hl.
  apply lookup_delete_Some in Hl as [_ Hl]. by apply H6.
Qed.

(** ** Anchors *)
Definition fork_valid (e : ExecutionEnvelope) : Prop :=
  forall f, env_Fork e = Some f -> validateForkLineage f = None /\ frk_TargetID f = env_ExecutionID e.

Lemma fork_transition_Ok previous e : ValidateExecutionForkTransition previous e = None <->
  fork_valid e /\ forall id f, previous = Some (id, f) -> id = env_ExecutionID e /\ f = env_Fork e.
Proof.
  unfold ValidateExecutionForkTransition, fork_valid. split.
  - intros Hv. guard_in Hv; [done|]. split.
    + intros f E. rewrite E in Hg. rewrite orb_false_iff, !negb_false_iff, bool_decide_eq_true, is_nil_true in Hg. done.
    + intros id f ->. guard_in Hv; [done|]. apply orb_false_iff in Hg0 as [Hid Hn]. apply negb_false_iff, bool_decide_eq_true in Hid, Hn.
      guard_in Hv; [done|]. split; [done|]. destruct f as [f|].
      * by apply negb_false_iff, bool_decide_eq_true in Hg0.
      * simpl in Hn. symmetry in Hn. apply is_nil_true in Hn. done.
  - intros [Hf Hp]. assert (Hg : match env_Fork e with
       | Some f => negb (is_nil (validateForkLineage f)) || (frk_TargetID f != env_ExecutionID e) | None => false end = false).
    { destruct (env_Fork e) as [f|]; [|done]. destruct (Hf f eq_refl) as [-> ->]. simpl. by rewrite bool_decide_eq_true_2. }
    rewrite Hg. destruct previous as [[id f]|]; [|done]. destruct (Hp id f eq_refl) as [-> ->].
    rewrite !bool_decide_eq_true_2 by done. simpl. by destruct (env_Fork e).
Qed.

Lemma fork_anchor_Ok e anchor : ValidateExecutionForkAnchor e anchor = None <-> fork_valid e /\ anchor = env_Fork e.
Proof.
  unfold ValidateExecutionForkAnchor. rewrite fork_transition_Ok. split.
  - intros [Hf Hp]. split; [done|]. by destruct (Hp _ _ eq_refl).
  - intros [Hf ->]. split; [done|]. by intros id f [= <- <-].
Qed.

(** The incoming half of the lifecycle anchors. *)
Definition incoming_ok (e : ExecutionEnvelope) (incoming : option RolloverReceipt) : Prop :=
  env_Rollover e = rcp_Lineage <$> incoming /\
  forall i, incoming = Some i -> validateReceipt i = None /\ ref_ExecutionID (rcp_Target i) = env_ExecutionID e /\
    (env_Revision e = ref_Revision (rcp_Target i) -> env_Digest e = ref_Digest (rcp_Target i)).
Definition outgoing_ok (e : ExecutionEnvelope) (outgoing : option RolloverReceipt) : Prop :=
  match outgoing with
  | None => env_Transfer e = None
  | Some o =>
      validateReceipt o = None /\ ref_ExecutionID (rol_Source (rcp_Lineage o)) = env_ExecutionID e /\
      if (env_Revision e <? rcp_SourceRevision o)%N
      then env_Transfer e = None /\
           (env_Revision e = ref_Revision (rol_Source (rcp_Lineage o)) -> env_Digest e = ref_Digest (rol_Source (rcp_Lineage o)))
      else env_Transfer e = Some o /\ env_Revision e = rcp_SourceRevision o /\
           exists t, env_Terminal e = Some t /\ trm_Status t = RunStatusTransferred
  end.

Lemma lifecycle_anchors_Ok e incoming outgoing : ValidateExecutionLifecycleAnchors e incoming outgoing = None <->
  incoming_ok e incoming /\ outgoing_ok e outgoing.
Proof.
  unfold ValidateExecutionLifecycleAnchors, incoming_ok, outgoing_ok, equalRolloverLineage. split.
  - intros Hv. repeat (guard_in Hv; [done|]). apply negb_false_iff, bool_decide_eq_true in Hg.
    split; [split; [done|]|].
    + intros i ->. rewrite orb_false_iff, !negb_false_iff, bool_decide_eq_true, is_nil_true in Hg0.
      rewrite andb_false_iff, negb_false_iff, bool_decide_eq_false, bool_decide_eq_true in Hg1.
      destruct Hg0 as [? ?]. split_and!; try done. intros E. by destruct Hg1.
    + destruct outgoing as [o|].
      * guard_in Hv; [done|]. rewrite orb_false_iff, !negb_false_iff, bool_decide_eq_true, is_nil_true in Hg2. destruct Hg2 as [Ho Hid].
        split_and!; [done..|]. destruct (_ <? _)%N.
        { guard_in Hv; [done|]. guard_in Hv; [done|]. apply negb_false_iff, is_nil_true in Hg2. split; [done|].
          rewrite andb_false_iff, negb_false_iff, bool_decide_eq_false, bool_decide_eq_true in Hg3. intros E. by destruct Hg3. }
        guard_in Hv; [done|]. rewrite !orb_false_iff, !negb_false_iff, !bool_decide_eq_true in Hg2. destruct Hg2 as [[Ht Hr] Hs].
        split_and!; [done..|]. destruct (env_Terminal e) as [t|]; [|done]. exists t. split; [done|].
        by apply negb_false_iff, bool_decide_eq_true in Hs.
      * guard_in Hv; [done|]. by apply negb_false_iff, is_nil_true in Hg2.
  - intros [[Hr Hi] Ho]. rewrite (bool_decide_eq_true_2 _ Hr). cbn [negb orb andb is_nil]. destruct incoming as [i|].
    + destruct (Hi i eq_refl) as (Hv & Hid & Hd). rewrite Hv, (bool_decide_eq_true_2 _ Hid). cbn [negb orb andb is_nil].
      destruct (bool_decide_reflect (env_Revision e = ref_Revision (rcp_Target i))) as [E|E]; cbn [negb orb andb is_nil]; [rewrite (bool_decide_eq_true_2 _ (Hd E)); cbn [negb orb andb is_nil]|].
      all: destruct outgoing as [o|]; [|by rewrite Ho].
      all: destruct Ho as (Hov & Hoid & Ho); rewrite Hov, (bool_decide_eq_true_2 _ Hoid); cbn [negb orb andb is_nil]; destruct (_ <? _)%N.
      all: try (destruct Ho as [-> Hd']; cbn [negb orb andb is_nil]; destruct (bool_decide_reflect (env_Revision e = ref_Revision (rol_Source (rcp_Lineage o)))) as [E'|E'];
        cbn [negb orb andb is_nil]; [by rewrite (bool_decide_eq_true_2 _ (Hd' E'))|done]).
      all: destruct Ho as (-> & E' & t & -> & Ht); rewrite (bool_decide_eq_true_2 _ E'), (bool_decide_eq_true_2 _ Ht);
        by rewrite bool_decide_eq_true_2.
    + destruct outgoing as [o|]; [|by rewrite Ho]. destruct Ho as (Hov & Hoid & Ho). rewrite Hov, (bool_decide_eq_true_2 _ Hoid). cbn [negb orb andb is_nil].
      destruct (_ <? _)%N.
      * destruct Ho as [-> Hd']; cbn [negb orb andb is_nil]. destruct (bool_decide_reflect (env_Revision e = ref_Revision (rol_Source (rcp_Lineage o)))) as [E'|E'];
          cbn [negb orb andb is_nil]; [by rewrite (bool_decide_eq_true_2 _ (Hd' E'))|done].
      * destruct Ho as (-> & E' & t & -> & Ht). rewrite (bool_decide_eq_true_2 _ E'), (bool_decide_eq_true_2 _ Ht).
        by rewrite bool_decide_eq_true_2.
Qed.

Lemma rollover_transition_Ok previous next : ValidateExecutionRolloverTransition previous next = None <->
  env_Transfer next = None /\
  match previous with None => env_Rollover next = None | Some p => env_Transfer p = None /\ env_Rollover p = env_Rollover next end.
Proof.
  unfold ValidateExecutionRolloverTransition, equalRolloverLineage. destruct previous as [p|].
  - split.
    + intros Hv. guard_in Hv; [done|]. guard_in Hv; [done|]. rewrite orb_false_iff, !negb_false_iff, bool_decide_eq_true, is_nil_true in Hg0.
      apply negb_false_iff, is_nil_true in Hg. tauto.
    + intros (-> & -> & ->). cbn [negb orb is_nil]. by rewrite bool_decide_eq_true_2.
  - split.
    + intros Hv. guard_in Hv; [done|]. rewrite orb_false_iff, !negb_false_iff, !is_nil_true in Hg. tauto.
    + by intros [-> ->].
Qed.

(** A receipt that validates names revision one of the target and the successor of its source. *)
Lemma receipt_Ok r : validateReceipt r = None ->
  validateRolloverLineage (rcp_Lineage r) = None /\ ref_Revision (rcp_Target r) = 1%N /\
  ref_ExecutionID (rcp_Target r) = rol_TargetID (rcp_Lineage r) /\
  ref_Revision (rol_Source (rcp_Lineage r)) <> max_uint64 /\
  rcp_SourceRevision r = succ_u64 (ref_Revision (rol_Source (rcp_Lineage r))).
Proof.
  unfold validateReceipt. intros Hv. guard_in Hv; [done|].
  rewrite !orb_false_iff, !negb_false_iff, !bool_decide_eq_true, bool_decide_eq_false, !is_nil_true in Hg. tauto.
Qed.

(** ** Commits *)

(** Everything a successful commit established. *)
Record committed (now : Time) (s : MemoryExecutionStore) (expected : N) (lease : ExecutionLease) (envelope : ExecutionEnvelope)
    (s' : MemoryExecutionStore) (result : ExecutionEnvelope) : Prop := mk_committed {
  cm_max : expected <> max_uint64;
  cm_held : held s now lease = true;
  cm_id : env_ExecutionID envelope = lse_ExecutionID lease;
  cm_head : head_of s (env_ExecutionID envelope) = expected;
  cm_previous : exists previous,
    (if (0 <? expected)%N
     then exists p, previous = Some p /\
       decodeAnchoredExecution s (payload_of s (env_ExecutionID envelope) expected) (env_ExecutionID envelope) expected = Ok p
     else previous = None) /\
    ValidateExecutionRolloverTransition previous envelope = None /\
    ValidateExecutionForkTransition ((fun p => (env_ExecutionID p, env_Fork p)) <$> previous) envelope = None;
  cm_seal : SealExecutionEnvelope (envelope <| env_Revision := succ_u64 expected |>) = Ok result;
  cm_store : exists encoded, marshal result = Some encoded /\ unmarshal encoded = Some (Some result) /\
    ValidateExecutionIntegrity result (env_ExecutionID envelope) (succ_u64 expected) = None /\
    s' = (let s1 := put_checkpoint s (env_ExecutionID envelope) (succ_u64 expected) encoded in
          match env_Fork envelope with
          | Some lineage => if expected == 0%N then s1 <| sto_lineage := <[env_ExecutionID envelope := lineage]> (sto_lineage s1) |> else s1
          | None => s1
          end);
}.

Lemma commit_Ok now s expected lease envelope s' result :
  (forall e, SealExecutionEnvelope (envelope <| env_Revision := succ_u64 expected |>) = Ok e -> representable e) ->
  CommitExecution None now s expected lease envelope = Ok (s', result) -> committed now s expected lease envelope s' result.
Proof.
  intros Hrep Hc. unfold CommitExecution in Hc. case_bool_decide as Hm; [done|]. cbn [check mbind res_bind] in Hc.
  guard_in Hc; [done|]. apply orb_false_iff in Hg as [Hh Hid]. apply negb_false_iff in Hh, Hid. apply bool_decide_eq_true in Hid.
  apply bind_Ok in Hc as (u1 & _ & Hc). case_bool_decide as Hp; [done|]. cbv zeta in Hc. guard_in Hc; [done|].
  apply negb_false_iff, bool_decide_eq_true in Hg.
  apply bind_Ok in Hc as (previous & Hprev & Hc). apply bind_Ok in Hc as (u2 & Hroll & Hc). apply bind_Ok in Hc as (u3 & Hfork & Hc).
  apply check_Ok in Hroll, Hfork. apply bind_Ok in Hc as (sealed & Hseal & Hc).
  apply bind_Ok in Hc as (encoded & Henc & Hc). apply bind_Ok in Hc as (r & Hdec & Hc).
  unfold of_option in Henc. destruct (marshal sealed) as [b|] eqn:Hm'; [|done]. injection Henc as ->.
  apply decodeExecution_Ok in Hdec as [Hu Hv]. pose proof (Hrep _ Hseal) as Hr.
  rewrite (unmarshal_marshal _ _ Hr Hm') in Hu. injection Hu as <-. injection Hc as Hs' <-.
  pose proof (seal_Ok _ _ Hseal) as (b' & _ & Es & _).
  assert (Ei : env_ExecutionID sealed = env_ExecutionID envelope) by by rewrite Es.
  assert (Er : env_Revision sealed = succ_u64 expected) by by rewrite Es.
  assert (Ef : env_Fork sealed = env_Fork envelope) by by rewrite Es.
  rewrite Ei, Er, Ef in Hs'. rewrite Ei, Er in Hv. split; try done.
  - exists previous. split_and!; try done. destruct (0 <? expected)%N; [|by simplify_eq].
    apply bind_Ok in Hprev as (p & Hp' & [= <-]). by exists p.
  - exists encoded. split_and!; try done. apply (unmarshal_marshal _ _ Hr Hm').
Qed.

(** Conversely the checks of [CommitExecution] are all it asks: a commit that meets them
    succeeds with the sealed envelope. *)
Lemma commit_complete now s lease envelope result previous (expected := head_of s (env_ExecutionID envelope)) :
  expected <> max_uint64 -> held s now lease = true -> env_ExecutionID envelope = lse_ExecutionID lease ->
  validateDescriptor (env_Descriptor envelope) = None ->
  (if (0 <? expected)%N
   then stored ← decodeAnchoredExecution s (payload_of s (env_ExecutionID envelope) expected) (env_ExecutionID envelope) expected;
        Ok (Some stored)
   else Ok None) = Ok previous ->
  ValidateExecutionRolloverTransition previous envelope = None ->
  ValidateExecutionForkTransition ((fun p => (env_ExecutionID p, env_Fork p)) <$> previous) envelope = None ->
  SealExecutionEnvelope (envelope <| env_Revision := succ_u64 expected |>) = Ok result -> representable result ->
  exists s', CommitExecution None now s expected lease envelope = Ok (s', result).
Proof.
  intros Hmax Hheld Hid Hdesc Hprev Hroll Hfork Hseal Hrep. pose proof (seal_integrity _ _ Hseal) as Hv.
  pose proof (seal_Ok _ _ Hseal) as (b & _ & Es & _ & _ & Hp & _).
  assert (Ei : env_ExecutionID result = env_ExecutionID envelope) by by rewrite Es.
  assert (Er : env_Revision result = succ_u64 expected) by by rewrite Es. clear Es.
  destruct (marshal_representable _ Hrep) as (encoded & Hm). pose proof (unmarshal_marshal _ _ Hrep Hm) as Hu.
  assert (Hdec : decodeExecution encoded (env_ExecutionID result) (env_Revision result) = Ok result).
  { apply decodeExecution_Ok. split; [done|]. by rewrite Ei, Er. }
  unfold CommitExecution. rewrite bool_decide_eq_false_2 by done. cbn [check mbind res_bind].
  rewrite Hheld, (bool_decide_eq_true_2 (env_ExecutionID envelope = lse_ExecutionID lease)), Hdesc by done. cbn [negb orb check mbind res_bind].
  rewrite bool_decide_eq_false_2 by done. cbv zeta. fold expected.
  rewrite (bool_decide_eq_true_2 (expected = expected)) by done. cbn [negb]. rewrite Hprev. cbn [mbind res_bind].
  rewrite Hroll, Hfork. cbn [check mbind res_bind]. rewrite Hseal. cbn [mbind res_bind]. rewrite Hm. cbn [of_option mbind res_bind].
  rewrite Hdec. cbn [mbind res_bind]. by eexists.
Qed.

Lemma commit_frame now s expected lease envelope s' result : committed now s expected lease envelope s' result ->
  sto_leases s' = sto_leases s /\ sto_fences s' = sto_fences s /\ sto_incoming s' = sto_incoming s /\ sto_outgoing s' = sto_outgoing s /\
  (exists encoded, marshal result = Some encoded /\ unmarshal encoded = Some (Some result) /\
     sto_history s' = <[env_ExecutionID envelope := <[succ_u64 expected := encoded]> (items_of s (env_ExecutionID envelope))]> (sto_history s)) /\
  sto_heads s' = <[env_ExecutionID envelope := succ_u64 expected]> (sto_heads s) /\
  sto_lineage s' = match env_Fork envelope with
    | Some l => if expected == 0%N then <[env_ExecutionID envelope := l]> (sto_lineage s) else sto_lineage s
    | None => sto_lineage s end.
Proof.
  intros [_ _ _ _ _ _ (encoded & Hm & Hu & _ & ->)]. cbv zeta.
  destruct (env_Fork envelope); [case_bool_decide|]; split_and!; try done; by exists encoded.
Qed.

Lemma items_insert s s' id m : sto_history s' = <[id := m]> (sto_history s) ->
  items_of s' id = m /\ forall id', id' <> id -> items_of s' id' = items_of s id'.
Proof.
  intros E. unfold items_of. rewrite E. split; [by rewrite lookup_insert_eq|]. intros id' Hne. by rewrite lookup_insert_ne.
Qed.
Lemma head_insert s s' id r : sto_heads s' = <[id := r]> (sto_heads s) ->
  head_of s' id = r /\ forall id', id' <> id -> head_of s' id' = head_of s id'.
Proof.
  intros E. unfold head_of. rewrite E. split; [by rewrite lookup_insert_eq|]. intros id' Hne. by rewrite lookup_insert_ne.
Qed.

(** The committed envelope loads back under the anchors of its execution. *)
Lemma commit_anchored now s expected lease envelope s' result data : store_ok s ->
  committed now s expected lease envelope s' result -> marshal result = Some data -> unmarshal data = Some (Some result) ->
  decodeAnchoredExecution s' data (env_ExecutionID envelope) (succ_u64 expected) = Ok result.
Proof.
  intros Hs Hc Hm Hu. pose proof (commit_frame _ _ _ _ _ _ _ Hc) as (_ & _ & Hin & Hout & _ & _ & Hlin).
  destruct Hc as [Hmax Hheld Hid Hhead (previous & Hprev & Hroll & Hfork) Hseal (encoded & Hm' & _ & Hint & _)].
  pose proof (seal_Ok _ _ Hseal) as (b & _ & Es & _). rewrite decodeAnchored_Ok, Hin, Hout, Hlin.
  split_and!; [by eapply encoded_nonempty|done|done| |].
  - apply fork_anchor_Ok. apply fork_transition_Ok in Hfork as [Hfv Hfp]. split; [by rewrite Es|].
    assert (env_Fork result = env_Fork envelope) as -> by by rewrite Es.
    destruct (N.ltb_spec 0 expected) as [Hpos|Hz].
    + destruct Hprev as (p & -> & Hd). destruct (Hfp _ _ eq_refl) as [_ Hf]. apply decodeAnchored_Ok in Hd as (_ & _ & _ & Ha & _).
      apply fork_anchor_Ok in Ha as [_ Ha]. rewrite (bool_decide_eq_false_2 (expected = 0%N)) by lia. destruct (env_Fork envelope); congruence.
    + assert (Ez : expected = 0%N) by lia. rewrite (bool_decide_eq_true_2 _ Ez). destruct (env_Fork envelope) as [f|]; [by rewrite lookup_insert_eq|].
      destruct (sto_lineage s !! env_ExecutionID envelope) eqn:El; [|done]. apply (so_lineage _ Hs) in El. congruence.
  - assert (E1 : env_Rollover result = env_Rollover envelope) by by rewrite Es.
    assert (E2 : env_Transfer result = env_Transfer envelope) by by rewrite Es.
    assert (E3 : env_ExecutionID result = env_ExecutionID envelope) by by rewrite Es.
    assert (E4 : env_Revision result = succ_u64 expected) by by rewrite Es.
    apply rollover_transition_Ok in Hroll as [Ht Hroll]. apply lifecycle_anchors_Ok. unfold incoming_ok. rewrite E1, E3, E4.
    destruct (N.ltb_spec 0 expected) as [Hpos|Hz].
    + destruct Hprev as (p & -> & Hd). destruct Hroll as [Htp Hrp].
      apply decodeAnchored_Ok in Hd as (_ & _ & Hv & _ & Ha). apply integrity_digest in Hv as (Hpid & Hprev & _).
      apply lifecycle_anchors_Ok in Ha as [[Hi1 Hi2] Ho].
      assert (Hexp : (expected < max_uint64)%N) by (pose proof (so_head _ Hs (env_ExecutionID envelope)) as Hh; unfold is_u64 in Hh; lia).
      split; [split; [congruence|]|].
      * intros i Ei. destruct (Hi2 i Ei) as (Hrv & Hti & _). split_and!; [done|congruence|].
        apply receipt_Ok in Hrv as (_ & -> & _). rewrite succ_u64_lt by done. lia.
      * unfold outgoing_ok in *. destruct (sto_outgoing s !! env_ExecutionID envelope) as [o|] eqn:Eo; [|congruence].
        apply (so_outgoing _ Hs) in Eo as [Eo _]. destruct Ho as (_ & _ & Ho).
        replace (env_Revision p <? rcp_SourceRevision o)%N with false in Ho by (symmetry; apply N.ltb_ge; lia).
        destruct Ho as [Ho _]. congruence.
    + assert (Ez : expected = 0%N) by lia. subst previous.
      assert (Hni : sto_incoming s !! env_ExecutionID envelope = None).
      { destruct (_ !! _) eqn:E; [|done]. apply (so_incoming _ Hs) in E. congruence. }
      assert (Hno : sto_outgoing s !! env_ExecutionID envelope = None).
      { destruct (sto_outgoing s !! _) eqn:E; [|done]. apply (so_outgoing _ Hs) in E as [_ E]. lia. }
      rewrite Hni, Hno. split; [split; [done|]; done|]. unfold outgoing_ok. congruence.
Qed.

Lemma commit_ok now s expected lease envelope s' result : store_ok s ->
  committed now s expected lease envelope s' result -> store_ok s'.
Proof.
  intros Hs Hc. pose proof (commit_frame _ _ _ _ _ _ _ Hc) as (Hl & Hf & Hin & Hout & (encoded & Hm & Hu & Hhist) & Hheads & Hlin).
  pose proof (commit_anchored _ _ _ _ _ _ _ _ Hs Hc Hm Hu) as Hanch.
  destruct (items_insert _ _ _ _ Hhist) as [Hi Hi']. destruct (head_insert _ _ _ _ Hheads) as [Hh Hh'].
  pose proof (cm_head _ _ _ _ _ _ _ Hc) as Hhead. pose proof (cm_max _ _ _ _ _ _ _ Hc) as Hmax.
  assert (Hexp : (expected < max_uint64)%N) by (pose proof (so_head _ Hs (env_ExecutionID envelope)) as Hx; unfold is_u64 in Hx; lia).
  rewrite succ_u64_lt in * by done. set (id := env_ExecutionID envelope) in *.
  assert (Hmono : forall id', head_of s id' <> 0%N -> head_of s' id' <> 0%N).
  { intros id' Hn. destruct (decide (id' = id)) as [->|Hne]; [rewrite Hh; lia|by rewrite Hh']. }
  split.
  - intros id'. unfold is_u64. destruct (decide (id' = id)) as [->|Hne]; [rewrite Hh; lia|rewrite Hh' by done; apply (so_head _ Hs)].
  - intros id' r data Hr. destruct (decide (id' = id)) as [->|Hne].
    + rewrite Hi in Hr. rewrite Hh. destruct (decide (r = (expected + 1)%N)) as [->|Hr'].
      * rewrite lookup_insert_eq in Hr. injection Hr as <-. split_and!; try lia; [by eapply encoded_nonempty|]. by exists result.
      * rewrite lookup_insert_ne in Hr by done. destruct (so_items _ Hs _ _ _ Hr) as (Hb & Hn & e & He). rewrite Hhead in Hb.
        split_and!; try lia; try done. exists e. rewrite <- He. apply decodeAnchored_ext; [|by rewrite Hin|by rewrite Hout].
        rewrite Hlin. rewrite (bool_decide_eq_false_2 (expected = 0%N)) by lia. by destruct (env_Fork envelope).
    + rewrite Hi' in Hr by done. rewrite Hh' by done. destruct (so_items _ Hs _ _ _ Hr) as (Hb & Hn & e & He). split_and!; try done; try lia.
      exists e. rewrite <- He. apply decodeAnchored_ext; [|by rewrite Hin|by rewrite Hout]. rewrite Hlin.
      destruct (env_Fork envelope); [case_bool_decide|]; try done. by rewrite lookup_insert_ne.
  - intros id' l. rewrite Hlin. intros E. destruct (decide (id' = id)) as [->|Hne]; [rewrite Hh; lia|].
    apply Hmono, (so_lineage _ Hs _ l). destruct (env_Fork envelope); [case_bool_decide|]; try done. by rewrite lookup_insert_ne in E.
  - intros id' r. rewrite Hin. intros E. by apply Hmono, (so_incoming _ Hs _ r).
  - intros id' r. rewrite Hout. intros E. destruct (decide (id' = id)) as [->|Hne].
    2:{ rewrite Hh' by done. by apply (so_outgoing _ Hs). }
    exfalso. destruct (so_outgoing _ Hs _ _ E) as [E1 E2]. destruct (cm_previous _ _ _ _ _ _ _ Hc) as (previous & Hprev & Hroll & _).
    fold id in Hprev. replace (0 <? expected)%N with true in Hprev by (symmetry; apply N.ltb_lt; lia). destruct Hprev as (p & -> & Hd).
    apply rollover_transition_Ok in Hroll as (_ & Ht & _). apply decodeAnchored_Ok in Hd as (_ & _ & Hv & _ & Ha).
    apply integrity_digest in Hv as (_ & Hr & _). apply lifecycle_anchors_Ok in Ha as [_ Ho]. rewrite E in Ho. destruct Ho as (_ & _ & Ho).
    replace (env_Revision p <? rcp_SourceRevision r)%N with false in Ho by (symmetry; apply N.ltb_ge; lia). destruct Ho as [Ho _]. congruence.
  - intros id' l. unfold fence_of. rewrite Hl, Hf. apply (so_leases _ Hs).
  - intros id'. unfold fence_of. rewrite Hf. apply (so_fences _ Hs).
Qed.

(** ** Rollover *)
(** What was committed is what loads. *)
Lemma commit_loads now s expected lease envelope s' result : store_ok s -> committed now s expected lease envelope s' result ->
  LoadExecution None s' (env_ExecutionID envelope) = Ok result.
Proof.
  intros Hs Hc. pose proof (commit_frame _ _ _ _ _ _ _ Hc) as (_ & _ & _ & _ & (encoded & Hm & Hu & Hhist) & Hheads & _).
  pose proof (commit_anchored _ _ _ _ _ _ _ _ Hs Hc Hm Hu) as Ha. destruct Hc as [Hmax _ _ Hhead _ _ _].
  pose proof (so_head _ Hs (env_ExecutionID envelope)) as Hx. unfold is_u64 in Hx. rewrite Hhead in Hx. rewrite succ_u64_lt in * by lia.
  destruct (items_insert _ _ _ _ Hhist) as [Hi _]. destruct (head_insert _ _ _ _ Hheads) as [Hh _].
  unfold LoadExecution. cbn [check mbind res_bind]. rewrite Hh, bool_decide_eq_false_2 by lia. rewrite <- Ha. f_equal.
  unfold payload_of. rewrite Hi. by rewrite lookup_insert_eq.
Qed.

Lemma lineage_Ok l : validateRolloverLineage l = None ->
  rol_TargetID l <> "" /\ rol_TargetID l <> ref_ExecutionID (rol_Source l) /\ validRuntimeText [rol_TargetID l] = true.
Proof.
  unfold validateRolloverLineage. intros Hv. guard_in Hv; [done|]. clear Hv.
  rewrite !orb_false_iff, !negb_false_iff, !bool_decide_eq_false in Hg.
  assert (Ht : validRuntimeText [rol_TargetID l; rol_DecisionID l; rol_ProjectionLabel l] = true) by tauto.
  split_and!; [tauto..|]. unfold validRuntimeText in *. cbn [forallb] in *. rewrite !andb_true_iff in *. tauto.
Qed.

(** What [PrepareExecutionRolloverPublication] guarantees about the pair it seals. *)
Lemma publication_Ok source target lease transferred created receipt :
  PrepareExecutionRolloverPublication source target lease = Ok (transferred, created, receipt) ->
  exists lineage, env_Rollover target = Some lineage /\
    receipt = mkReceipt lineage (mkReference (env_ExecutionID target) 1 (env_Digest created)) (succ_u64 (env_Revision source)) /\
    validateReceipt receipt = None /\
    rol_Source lineage = mkReference (env_ExecutionID source) (env_Revision source) (env_Digest source) /\
    SealExecutionEnvelope (target <| env_Revision := 1%N |>) = Ok created /\
    SealExecutionEnvelope (source <| env_Revision := succ_u64 (env_Revision source) |> <| env_Transfer := Some receipt |>
      <| env_Terminal := Some rolloverTerminal |>) = Ok transferred /\
    env_Fork source = None /\ env_Transfer source = None /\ env_Revision source <> max_uint64 /\
    env_Transfer target = None /\ env_Fork target = None /\ env_ExecutionID target <> env_ExecutionID source /\
    ValidateExecutionLifecycleBoundary source = None.
Proof.
  unfold PrepareExecutionRolloverPublication. intros Hp. guard_in Hp; [done|].
  apply bind_Ok in Hp as (u1 & Hsrc & Hp). apply bind_Ok in Hp as (u2 & Htgt & Hp). apply check_Ok in Hsrc, Htgt.
  apply bind_Ok in Hp as (lineage & Hlin & Hp). apply bind_Ok in Hp as (u3 & _ & Hp). cbv zeta in Hp.
  apply bind_Ok in Hp as (c & Hc & Hp). apply bind_Ok in Hp as (enc & _ & Hp). apply bind_Ok in Hp as (u4 & _ & Hp).
  apply bind_Ok in Hp as (t & Ht & Hp). injection Hp as <- <- <-.
  unfold of_option in Hlin. destruct (env_Rollover target) as [l|] eqn:Hl; [|done]. injection Hlin as ->.
  unfold validateRolloverSource in Hsrc. guard_in Hsrc; [done|]. rewrite !orb_false_iff, !negb_false_iff, !is_nil_true, bool_decide_eq_false in Hg0.
  destruct Hg0 as [[[Hsf Hst] _] Hmax].
  unfold validateRolloverTarget in Htgt. rewrite Hl in Htgt. guard_in Htgt; [done|]. clear Htgt.
  rewrite !orb_false_iff, !negb_false_iff, !bool_decide_eq_true, !is_nil_true in Hg0.
  assert (Hlv : validateRolloverLineage lineage = None) by tauto. assert (Htid : rol_TargetID lineage = env_ExecutionID target) by tauto.
  assert (Hs : rol_Source lineage = mkReference (env_ExecutionID source) (env_Revision source) (env_Digest source)).
  { destruct (rol_Source lineage). simpl in *. f_equal; tauto. }
  destruct (lineage_Ok _ Hlv) as (Hne & Hns & Htext).
  pose proof (seal_Ok _ _ Hc) as (b & _ & Ec & _).
  exists lineage. split_and!; try done; try tauto.
  - unfold validateReceipt. cbn [rcp_Lineage rcp_Target rcp_SourceRevision ref_ExecutionID ref_Revision]. rewrite Hlv, Hs.
    unfold validateReference. cbn [ref_ExecutionID ref_Revision ref_Digest]. rewrite Htid in *. rewrite Htext.
    assert (validActivityDigest (env_Digest c) = true) as ->.
    { rewrite Ec. cbn [env_Digest upd]. apply sha256_hex_digest. }
    rewrite (bool_decide_eq_false_2 (env_ExecutionID target = "")), (bool_decide_eq_false_2 (1%N = 0%N)),
      (bool_decide_eq_true_2 (env_ExecutionID target = env_ExecutionID target)), (bool_decide_eq_true_2 (1%N = 1%N)),
      (bool_decide_eq_false_2 (env_Revision source = max_uint64)),
      (bool_decide_eq_true_2 (succ_u64 (env_Revision source) = succ_u64 (env_Revision source))) by done. done.
  - rewrite Hs in Hns. simpl in Hns. congruence.
Qed.

(** The pair validates against the anchors the store will keep, and the source checkpoint
    it was made from stays readable. *)
Lemma publication_anchors source target lease transferred created receipt incoming : is_u64 (env_Revision source) ->
  PrepareExecutionRolloverPublication source target lease = Ok (transferred, created, receipt) ->
  (0 < env_Revision source)%N -> incoming_ok source incoming ->
  incoming_ok transferred incoming /\ outgoing_ok transferred (Some receipt) /\ incoming_ok created (Some receipt) /\
  env_Transfer created = None /\ env_Fork created = None /\ env_Fork transferred = None /\
  env_ExecutionID transferred = env_ExecutionID source /\ env_Revision transferred = (env_Revision source + 1)%N /\
  env_ExecutionID created = env_ExecutionID target /\ env_Revision created = 1%N /\
  ValidateExecutionIntegrity transferred (env_ExecutionID source) (env_Revision source + 1) = None /\
  ValidateExecutionIntegrity created (env_ExecutionID target) 1 = None.
Proof.
  intros Hu Hp Hpos [Hi1 Hi2].
  apply publication_Ok in Hp as (lineage & Hl & Er & Hrv & Hs & Hc & Ht & Hsf & Hst & Hmax & Htt & Htf & Hne & _).
  unfold is_u64 in Hu. assert (Hsucc : succ_u64 (env_Revision source) = (env_Revision source + 1)%N) by (apply succ_u64_lt; lia).
  pose proof (seal_integrity _ _ Ht) as Hti. pose proof (seal_integrity _ _ Hc) as Hci.
  apply seal_Ok in Ht as (bt & _ & Et & _). apply seal_Ok in Hc as (bc & _ & Ec & _).
  cbn [env_ExecutionID env_Revision upd] in Hti, Hci. rewrite Hsucc in Hti.
  assert (Ft : env_ExecutionID transferred = env_ExecutionID source /\ env_Revision transferred = succ_u64 (env_Revision source) /\
    env_Transfer transferred = Some receipt /\ env_Rollover transferred = env_Rollover source /\ env_Fork transferred = env_Fork source /\
    env_Terminal transferred = Some rolloverTerminal) by by rewrite Et.
  assert (Fc : env_ExecutionID created = env_ExecutionID target /\ env_Revision created = 1%N /\ env_Transfer created = env_Transfer target /\
    env_Rollover created = env_Rollover target /\ env_Fork created = env_Fork target) by by rewrite Ec.
  clear Et Ec. destruct Ft as (T1 & T2 & T3 & T4 & T5 & T6), Fc as (C1 & C2 & C3 & C4 & C5). rewrite Hsucc in *.
  assert (Hrs : rcp_SourceRevision receipt = (env_Revision source + 1)%N) by by rewrite Er.
  split_and!; try congruence.
  - split; [congruence|]. intros i E. destruct (Hi2 i E) as (Hv & Hid & _). split_and!; [done|congruence|].
    apply receipt_Ok in Hv as (_ & -> & _). rewrite T2. lia.
  - unfold outgoing_ok. split_and!; [done|rewrite Er; cbn [rcp_Lineage]; by rewrite Hs, T1|].
    rewrite T2, Hrs, N.ltb_irrefl. split_and!; try done. by exists rolloverTerminal.
  - split; [rewrite C4, Hl, Er; done|]. intros i [= <-]. split_and!; [done|rewrite Er; by rewrite C1|]. rewrite Er. done.
Qed.

Lemma rollover_Ok now s lease source target s' receipt :
  (forall current transferred created receipt, PrepareExecutionRolloverPublication current target lease = Ok (transferred, created, receipt) ->
     representable transferred /\ representable created) ->
  CommitRollover None now s lease source target = Ok (s', receipt) ->
  exists current transferred created sourceBytes targetBytes,
    held s now lease = true /\ lse_ExecutionID lease = ref_ExecutionID source /\ sto_outgoing s !! ref_ExecutionID source = None /\
    head_of s (ref_ExecutionID source) = ref_Revision source /\ ref_Revision source <> 0%N /\
    decodeAnchoredExecution s (payload_of s (ref_ExecutionID source) (ref_Revision source)) (ref_ExecutionID source) (ref_Revision source) = Ok current /\
    env_Digest current = ref_Digest source /\ head_of s (env_ExecutionID target) = 0%N /\ fence_of s (env_ExecutionID target) = 0%N /\
    PrepareExecutionRolloverPublication current target lease = Ok (transferred, created, receipt) /\
    marshal transferred = Some sourceBytes /\ unmarshal sourceBytes = Some (Some transferred) /\
    marshal created = Some targetBytes /\ unmarshal targetBytes = Some (Some created) /\
    s' = mkStore
      (<[env_ExecutionID created := {[1%N := targetBytes]}]>
         (<[ref_ExecutionID source := <[env_Revision transferred := sourceBytes]> (items_of s (ref_ExecutionID source))]> (sto_history s)))
      (<[env_ExecutionID created := 1%N]> (<[ref_ExecutionID source := env_Revision transferred]> (sto_heads s)))
      (sto_leases s) (sto_fences s) (sto_lineage s) (<[env_ExecutionID created := receipt]> (sto_incoming s))
      (<[ref_ExecutionID source := receipt]> (sto_outgoing s)).
Proof.
  intros Hrep Hc. unfold CommitRollover in Hc. cbn [check mbind res_bind] in Hc. cbv zeta in Hc. guard_in Hc; [done|]. guard_in Hc; [done|].
  guard_in Hc; [done|]. case_bool_decide as Hz; [done|]. apply bind_Ok in Hc as (current & Hd & Hc). guard_in Hc; [done|]. guard_in Hc; [done|].
  apply bind_Ok in Hc as ([[transferred created] r] & Hp & Hc). apply bind_Ok in Hc as (sb & Hsb & Hc). apply bind_Ok in Hc as (tb & Htb & Hc).
  injection Hc as <- <-. unfold of_option in Hsb, Htb. destruct (marshal transferred) as [x|] eqn:Em; [|done]. injection Hsb as ->.
  destruct (marshal created) as [y|] eqn:En; [|done]. injection Htb as ->. destruct (Hrep _ _ _ _ Hp) as [Hr1 Hr2].
  rewrite orb_false_iff, !negb_false_iff, bool_decide_eq_true in Hg. apply negb_false_iff, is_nil_true in Hg0.
  apply negb_false_iff, bool_decide_eq_true in Hg1, Hg2. rewrite orb_false_iff, !negb_false_iff, !bool_decide_eq_true in Hg3.
  exists current, transferred, created, sb, tb. split_and!; try done; try tauto; by apply unmarshal_marshal.
Qed.

(** Changing two executions of a store. *)
(** A rollover that meets the checks of [CommitRollover] succeeds. *)
Lemma rollover_complete now s lease source target current transferred created receipt :
  held s now lease = true -> lse_ExecutionID lease = ref_ExecutionID source -> sto_outgoing s !! ref_ExecutionID source = None ->
  head_of s (ref_ExecutionID source) = ref_Revision source -> ref_Revision source <> 0%N ->
  decodeAnchoredExecution s (payload_of s (ref_ExecutionID source) (ref_Revision source)) (ref_ExecutionID source) (ref_Revision source)
    = Ok current ->
  env_Digest current = ref_Digest source -> head_of s (env_ExecutionID target) = 0%N -> fence_of s (env_ExecutionID target) = 0%N ->
  PrepareExecutionRolloverPublication current target lease = Ok (transferred, created, receipt) ->
  representable transferred -> representable created ->
  exists s', CommitRollover None now s lease source target = Ok (s', receipt).
Proof.
  intros Hheld Hid Hout Hhead Hz Hdec Hdig Hh Hf Hpub Ht Hc.
  destruct (marshal_representable _ Ht) as (tb & Htb), (marshal_representable _ Hc) as (cb & Hcb).
  unfold CommitRollover. cbn [check mbind res_bind]. cbv zeta. rewrite Hheld, Hout, Hhead, Hh, Hf.
  rewrite !bool_decide_eq_true_2, bool_decide_eq_false_2 by done. cbn [negb orb is_nil]. rewrite Hdec. cbn [mbind res_bind].
  rewrite bool_decide_eq_true_2 by done. cbn [negb]. rewrite Hpub. cbn [mbind res_bind]. rewrite Htb, Hcb. cbn [of_option mbind res_bind].
  by eexists.
Qed.

Lemma items_two s hist id id' m m' : hist = <[id' := m']> (<[id := m]> (sto_history s)) -> id <> id' -> forall k,
  default ∅ (hist !! k) = if bool_decide (k = id') then m' else if bool_decide (k = id) then m else items_of s k.
Proof.
  intros -> Hne k. case_bool_decide as E1; [subst; by rewrite lookup_insert_eq|]. rewrite lookup_insert_ne by done.
  case_bool_decide as E2; [subst; by rewrite lookup_insert_eq|]. by rewrite lookup_insert_ne.
Qed.
Lemma heads_two s heads id id' r r' : heads = <[id' := r']> (<[id := r]> (sto_heads s)) -> id <> id' -> forall k,
  default 0%N (heads !! k) = if bool_decide (k = id') then r' else if bool_decide (k = id) then r else head_of s k.
Proof.
  intros -> Hne k. case_bool_decide as E1; [subst; by rewrite lookup_insert_eq|]. rewrite lookup_insert_ne by done.
  case_bool_decide as E2; [subst; by rewrite lookup_insert_eq|]. by rewrite lookup_insert_ne.
Qed.

(** The store after a rollover, fact by fact. *)
Record rolled (s : MemoryExecutionStore) (sid tid : string) (revision : N) (receipt : RolloverReceipt) (transferred created : ExecutionEnvelope)
    (s' : MemoryExecutionStore) : Prop := mk_rolled {
  rl_distinct : sid <> tid;
  rl_head : head_of s sid = revision /\ (0 < revision)%N;
  rl_fresh : head_of s tid = 0%N;
  rl_receipt : rcp_SourceRevision receipt = (revision + 1)%N /\ ref_ExecutionID (rcp_Target receipt) = tid;
  rl_outgoing : sto_outgoing s !! sid = None /\ sto_outgoing s' = <[sid := receipt]> (sto_outgoing s);
  rl_incoming : sto_incoming s' = <[tid := receipt]> (sto_incoming s);
  rl_same : sto_leases s' = sto_leases s /\ sto_fences s' = sto_fences s /\ sto_lineage s' = sto_lineage s;
  rl_heads : forall k, head_of s' k = if bool_decide (k = tid) then 1%N else if bool_decide (k = sid) then (revision + 1)%N else head_of s k;
  rl_items : exists sb tb, sb <> "" /\ tb <> "" /\
    decodeAnchoredExecution s' sb sid (revision + 1) = Ok transferred /\ decodeAnchoredExecution s' tb tid 1 = Ok created /\
    forall k, items_of s' k = if bool_decide (k = tid) then {[1%N := tb]}
                              else if bool_decide (k = sid) then <[(revision + 1)%N := sb]> (items_of s sid) else items_of s k;
  rl_old : forall r data e, items_of s sid !! r = Some data -> decodeAnchoredExecution s data sid r = Ok e ->
    decodeAnchoredExecution s' data sid r = Ok e;
  rl_transfer : env_Transfer transferred = Some receipt /\ env_Rollover created = Some (rcp_Lineage receipt);
}.

Lemma rollover_published now s lease source target s' receipt : store_ok s ->
  (forall current transferred created receipt, PrepareExecutionRolloverPublication current target lease = Ok (transferred, created, receipt) ->
     representable transferred /\ representable created) ->
  CommitRollover None now s lease source target = Ok (s', receipt) ->
  exists current transferred created,
    decodeAnchoredExecution s (payload_of s (ref_ExecutionID source) (ref_Revision source)) (ref_ExecutionID source) (ref_Revision source) = Ok current /\
    PrepareExecutionRolloverPublication current target lease = Ok (transferred, created, receipt) /\
    rolled s (ref_ExecutionID source) (env_ExecutionID target) (ref_Revision source) receipt transferred created s'.
Proof.
  intros Hs Hrep Hc. apply (rollover_Ok _ _ _ _ _ _ _ Hrep) in Hc
    as (current & transferred & created & sb & tb & Hheld & Hlid & Hno & Hhead & Hz & Hd & Hdig & Hth & Htf & Hp & Em & Eu & En & Ev & ->).
  exists current, transferred, created. split; [done|]. split; [done|]. apply decodeAnchored_Ok in Hd as (Hdn & Hdu & Hdv & Hdf & Hda). pose proof (integrity_digest _ _ _ Hdv) as (Hcid & Hcrev & _).
  apply lifecycle_anchors_Ok in Hda as [Hin Hout]. rewrite Hno in Hout. unfold outgoing_ok in Hout. apply fork_anchor_Ok in Hdf as [_ Hlin].
  assert (Hu : is_u64 (env_Revision current)) by (rewrite Hcrev, <- Hhead; apply (so_head _ Hs)).
  pose proof (publication_Ok _ _ _ _ _ _ Hp) as (lineage & Hl & Er & Hrv & Hsrc & _ & _ & Hcf & _ & Hmax & _ & _ & Hne & _).
  destruct (publication_anchors _ _ _ _ _ _ _ Hu Hp ltac:(lia) Hin)
    as (A1 & A2 & A3 & A4 & A5 & A6 & A7 & A8 & A9 & A10 & A11 & A12).
  rewrite Hcid, Hcrev in *. rewrite A9, A8 in *.
  assert (Hni : sto_incoming s !! env_ExecutionID target = None).
  { destruct (sto_incoming s !! env_ExecutionID target) eqn:E; [|done]. by apply (so_incoming _ Hs) in E. }
  assert (Hnl : sto_lineage s !! env_ExecutionID target = None).
  { destruct (sto_lineage s !! env_ExecutionID target) eqn:E; [|done]. by apply (so_lineage _ Hs) in E. }
  assert (Hnt : sto_outgoing s !! env_ExecutionID target = None).
  { destruct (sto_outgoing s !! env_ExecutionID target) eqn:E; [|done]. apply (so_outgoing _ Hs) in E as [_ E]. lia. }
  assert (Hrs : rcp_SourceRevision receipt = (ref_Revision source + 1)%N).
  { rewrite Er. simpl. apply succ_u64_lt. unfold is_u64 in Hu. lia. }
  split; try done.
  - split; [done|lia].
  - split; [exact Hrs|by rewrite Er].
  - intros k. unfold head_of. cbn [sto_heads]. by apply heads_two.
  - exists sb, tb. split_and!; [by eapply encoded_nonempty..| | |].
    + apply decodeAnchored_Ok. cbn [sto_lineage sto_incoming sto_outgoing]. rewrite lookup_insert_ne, lookup_insert_eq by done.
      split_and!; [by eapply encoded_nonempty|done|done| |].
      * apply fork_anchor_Ok. split; [intros f E; congruence|congruence].
      * apply lifecycle_anchors_Ok. done.
    + apply decodeAnchored_Ok. cbn [sto_lineage sto_incoming sto_outgoing]. rewrite lookup_insert_eq, lookup_insert_ne by done.
      split_and!; [by eapply encoded_nonempty|done|done| |].
      * apply fork_anchor_Ok. split; [intros f E; congruence|congruence].
      * apply lifecycle_anchors_Ok. rewrite Hnt. done.
    + intros k. unfold items_of at 1. cbn [sto_history]. by apply items_two.
  - intros r data e Hr He. apply decodeAnchored_Ok in He as (Hn & Hue & Hve & Hfe & Hae). apply decodeAnchored_Ok.
    cbn [sto_lineage sto_incoming sto_outgoing]. rewrite lookup_insert_ne, lookup_insert_eq by done. split_and!; try done.
    apply lifecycle_anchors_Ok in Hae as [Hie Hoe]. apply lifecycle_anchors_Ok. split; [done|]. rewrite Hno in Hoe. unfold outgoing_ok in *.
    pose proof (integrity_digest _ _ _ Hve) as (Heid & Herev & _). destruct (so_items _ Hs _ _ _ Hr) as (Hb & _).
    split_and!; [done|rewrite Er; cbn [rcp_Lineage]; rewrite Hsrc; cbn [ref_ExecutionID]; congruence|]. rewrite Hrs, Herev.
    replace (r <? ref_Revision source + 1)%N with true by (symmetry; apply N.ltb_lt; lia). split; [done|].
    rewrite Er. cbn [rcp_Lineage]. rewrite Hsrc. cbn [ref_Revision ref_Digest]. intros E. subst r.
    unfold payload_of in Hdu. rewrite E in Hr. rewrite Hr in Hdu. simpl in Hdu. rewrite Hue in Hdu. by injection Hdu as ->.
  - split; [|rewrite Er; destruct A3 as [-> _]; by rewrite Er]. destruct A2 as (_ & _ & A2). rewrite A8, Hrs, N.ltb_irrefl in A2. apply A2.
Qed.
Lemma rollover_rolled now s lease source target s' receipt : store_ok s ->
  (forall current transferred created receipt, PrepareExecutionRolloverPublication current target lease = Ok (transferred, created, receipt) ->
     representable transferred /\ representable created) ->
  CommitRollover None now s lease source target = Ok (s', receipt) ->
  exists transferred created, rolled s (ref_ExecutionID source) (env_ExecutionID target) (ref_Revision source) receipt transferred created s'.
Proof. intros Hs Hrep Hc. destruct (rollover_published _ _ _ _ _ _ _ Hs Hrep Hc) as (_ & t & c & _ & _ & Hr). by exists t, c. Qed.

Lemma rolled_ok s sid tid revision receipt transferred created s' : store_ok s -> is_u64 (revision + 1) ->
  rolled s sid tid revision receipt transferred created s' -> store_ok s'.
Proof.
  intros Hs Hu [Hne [Hh Hpos] Hf [Hrs _] [Hno Hout] Hin (Hle & Hfe & Hli) Hheads (sb & tb & Hsb & Htb & Hds & Hdt & Hitems) Hold _].
  assert (Hmono : forall id', head_of s id' <> 0%N -> head_of s' id' <> 0%N).
  { intros id' Hn. rewrite Hheads. case_bool_decide; [done|]. case_bool_decide; [lia|done]. }
  split.
  - intros id. rewrite Hheads. case_bool_decide; [done|]. case_bool_decide; [done|apply (so_head _ Hs)].
  - intros id r data. rewrite Hitems, Hheads. case_bool_decide as E1.
    { subst. intros Hr. apply lookup_singleton_Some in Hr as [<- <-]. split_and!; try done. by exists created. }
    case_bool_decide as E2.
    + subst. destruct (decide (r = (head_of s sid + 1)%N)) as [->|Hr].
      * rewrite lookup_insert_eq. intros [= <-]. split_and!; try lia; [done|]. by exists transferred.
      * rewrite lookup_insert_ne by done. intros Hl. destruct (so_items _ Hs _ _ _ Hl) as (Hb & Hn & e & He).
        split_and!; try lia; [done|]. exists e. by eapply Hold.
    + intros Hl. destruct (so_items _ Hs _ _ _ Hl) as (Hb & Hn & e & He). split_and!; try done; try lia. exists e. rewrite <- He.
      apply decodeAnchored_ext; [by rewrite Hli|rewrite Hin; by rewrite lookup_insert_ne|rewrite Hout; by rewrite lookup_insert_ne].
  - intros id l. rewrite Hli. intros E. by apply Hmono, (so_lineage _ Hs _ l).
  - intros id r. rewrite Hin. intros E. destruct (decide (id = tid)) as [->|Hn]; [rewrite Hheads; by rewrite bool_decide_eq_true_2|].
    rewrite lookup_insert_ne in E by done. by apply Hmono, (so_incoming _ Hs _ r).
  - intros id r. rewrite Hout. intros E. rewrite Hheads. destruct (decide (id = sid)) as [->|Hn].
    + rewrite lookup_insert_eq in E. injection E as <-. rewrite bool_decide_eq_false_2, bool_decide_eq_true_2 by done. lia.
    + rewrite lookup_insert_ne in E by done. rewrite (bool_decide_eq_false_2 (id = sid)) by done. case_bool_decide as Et; [|by apply (so_outgoing _ Hs)].
      subst. apply (so_outgoing _ Hs) in E as [_ E]. lia.
  - intros id l. unfold fence_of. rewrite Hle, Hfe. apply (so_leases _ Hs).
  - intros id. unfold fence_of. rewrite Hfe. apply (so_fences _ Hs).
Qed.

(** ** Retention *)
Lemma retain_Ok now s request s' receipt : RetainExecutionStore None now s request = Ok (s', receipt) ->
  s' = s \/
  s' = s <| sto_history := <[rtr_ExecutionID request := filter (fun kv => pruned request kv = false) (items_of s (rtr_ExecutionID request))]> (sto_history s) |>.
Proof.
  unfold RetainExecutionStore. intros Hr. cbn [check mbind res_bind] in Hr. apply bind_Ok in Hr as (u & _ & Hr). cbv zeta in Hr.
  do 3 (guard_in Hr; [done|]). guard_in Hr; [guard_in Hr; [simplify_eq; by left|done]|]. apply bind_Ok in Hr as (src & _ & Hr).
  apply bind_Ok in Hr as (u2 & _ & Hr). guard_in Hr; [done|]. apply bind_Ok in Hr as (u3 & _ & Hr). injection Hr as <- <-. by right.
Qed.

Lemma retain_ok now s request s' receipt : store_ok s -> RetainExecutionStore None now s request = Ok (s', receipt) -> store_ok s'.
Proof.
  intros Hs Hr. apply retain_Ok in Hr as [-> | Hr]; [done|].
  assert (Hit : forall k r data, items_of s' k !! r = Some data -> items_of s k !! r = Some data).
  { intros k r data. subst s'. unfold items_of at 1. cbn [sto_history upd]. destruct (decide (k = rtr_ExecutionID request)) as [->|Hn].
    - rewrite lookup_insert_eq. simpl. intros E. by apply map_lookup_filter_Some in E as [E _].
    - by rewrite lookup_insert_ne. }
  assert (Hsame : sto_heads s' = sto_heads s /\ sto_leases s' = sto_leases s /\ sto_fences s' = sto_fences s /\ sto_lineage s' = sto_lineage s /\
    sto_incoming s' = sto_incoming s /\ sto_outgoing s' = sto_outgoing s) by by subst s'.
  clear Hr. destruct Hsame as (E1 & E2 & E3 & E4 & E5 & E6). destruct Hs as [H1 H2 H3 H4 H5 H6 H7].
  split; unfold head_of, fence_of in *; rewrite ?E1, ?E2, ?E3, ?E4, ?E5, ?E6; try done.
  intros id r data Hl. apply Hit in Hl. destruct (H2 _ _ _ Hl) as (Hb & Hn & e & He). split_and!; try done; try apply Hb.
  exists e. rewrite <- He. apply decodeAnchored_ext; congruence.
Qed.

(** ** Reachable stores *)
Lemma step_ok s s' : store_ok s -> store_step s s' -> store_ok s'.
Proof.
  intros Hs Hst. destruct Hst as [s s' now expected lease envelope result Hrep Hc|s s' now now' id owner ttl lease Ha|s s' now now' lease ttl lease' Ha
    |s s' lease Ha|s s' now lease source target receipt Hrep Hc|s s' now request receipt Hr].
  - eapply commit_ok; [done|by apply commit_Ok].
  - by eapply acquire_ok.
  - by eapply renew_ok.
  - by eapply release_ok.
  - pose proof Hc as Hc'. apply (rollover_rolled _ _ _ _ _ _ _ Hs Hrep) in Hc as (t & c & Hroll).
    eapply rolled_ok; [done| |done]. apply (rollover_Ok _ _ _ _ _ _ _ Hrep) in Hc'
      as (current & t' & c' & sb & tb & _ & _ & _ & Hhead & _ & Hd & _ & _ & _ & Hp & _).
    apply decodeAnchored_Ok in Hd as (_ & _ & Hv & _). apply integrity_digest in Hv as (_ & Hcr & _).
    apply publication_Ok in Hp as (lineage & _ & _ & _ & _ & _ & _ & _ & _ & Hmax & _).
    pose proof (so_head _ Hs (ref_ExecutionID source)) as Hu. unfold is_u64 in *. lia.
  - by eapply retain_ok.
Qed.

Lemma steps_ok s s' : store_ok s -> rtc store_step s s' -> store_ok s'.
Proof. intros Hs Hst. induction Hst as [|s s1 s2 H1 _ IH]; [done|]. apply IH. by eapply step_ok. Qed.
Lemma reachable_ok s : store_reachable s -> store_ok s.
Proof. apply steps_ok, store_ok_new. Qed.

(** How one step may change an execution: heads and fences grow, payloads stay or are pruned. *)
Lemma step_history s s' : store_ok s -> store_step s s' -> forall id,
  (head_of s id <= head_of s' id)%N /\ (fence_of s id <= fence_of s' id)%N /\
  (forall r, (r <= head_of s id)%N -> payload_of s' id r = payload_of s id r \/ payload_of s' id r = "") /\
  (forall o, sto_outgoing s !! id = Some o -> sto_outgoing s' !! id = Some o).
Proof.
  intros Hs Hst id. destruct Hst as [s s' now expected lease envelope result Hrep Hc|s s' now now' id' owner ttl lease Ha|s s' now now' lease ttl lease' Ha
    |s s' lease Ha|s s' now lease source target receipt Hrep Hc|s s' now request receipt Hr].
  - apply commit_Ok in Hc; [|done]. pose proof (commit_frame _ _ _ _ _ _ _ Hc) as (_ & Hf & _ & Hout & (encoded & _ & _ & Hhist) & Hheads & _).
    destruct (items_insert _ _ _ _ Hhist) as [Hi Hi']. destruct (head_insert _ _ _ _ Hheads) as [Hh Hh'].
    pose proof (cm_head _ _ _ _ _ _ _ Hc) as Hhead. pose proof (cm_max _ _ _ _ _ _ _ Hc) as Hmax.
    pose proof (so_head _ Hs (env_ExecutionID envelope)) as Hx. unfold is_u64 in Hx. rewrite succ_u64_lt in * by lia.
    unfold fence_of. rewrite Hf, Hout. destruct (decide (id = env_ExecutionID envelope)) as [->|Hne].
    + rewrite Hh. split_and!; try lia; [|done]. intros r Hr. left. unfold payload_of. rewrite Hi. by rewrite lookup_insert_ne by lia.
    + rewrite Hh' by done. split_and!; try lia; [|done]. intros r Hr. left. unfold payload_of. by rewrite Hi'.
  - unfold AcquireExecution in Ha. cbn [check mbind res_bind] in Ha. guard_in Ha; [done|]. guard_in Ha; [by case_bool_decide|].
    case_bool_decide as Hm; [done|]. injection Ha as <- <-. pose proof (so_fences _ Hs id') as Hf. unfold is_u64 in Hf.
    split_and!; try done; [|by left]. unfold fence_of at 2. cbn [sto_fences upd]. destruct (decide (id = id')) as [->|Hne].
    + simpl. rewrite lookup_insert_eq. simpl. rewrite succ_u64_lt by lia. lia.
    + simpl. by rewrite lookup_insert_ne.
  - unfold RenewExecution in Ha. cbn [check mbind res_bind] in Ha. guard_in Ha; [done|]. guard_in Ha; [done|]. injection Ha as <- <-.
    split_and!; try done. by left.
  - unfold ReleaseExecution in Ha. cbn [check mbind res_bind] in Ha.
    destruct (sto_leases s !! lse_ExecutionID lease) as [l|]; (guard_in Ha; [try done|]); try done; injection Ha as <-; split_and!; try done; by left.
  - apply (rollover_rolled _ _ _ _ _ _ _ Hs Hrep) in Hc as (t & c & Hr).
    destruct Hr as [Hne [Hh Hpos] Hf Hrs [Hno Hout] Hin (Hle & Hfe & Hli) Hheads (sb & tb & Hsb & Htb & Hds & Hdt & Hitems) Hold _].
    unfold fence_of. rewrite Hfe, Hheads, Hout. split_and!.
    + case_bool_decide; [subst; lia|]. case_bool_decide; [subst; lia|lia].
    + lia.
    + intros r Hr. left. unfold payload_of. rewrite Hitems. case_bool_decide as E1.
      * subst. rewrite Hf in Hr. assert (r = 0%N) as -> by lia. rewrite lookup_singleton_ne by lia.
        destruct (items_of s (env_ExecutionID target) !! 0%N) eqn:E; [|done]. apply (so_items _ Hs) in E as (E & _). lia.
      * case_bool_decide as E2; [|done]. subst. by rewrite lookup_insert_ne by lia.
    + intros o Ho. destruct (decide (id = ref_ExecutionID source)) as [->|Hn]; [congruence|]. by rewrite lookup_insert_ne.
  - apply retain_Ok in Hr as [-> | ->]; [split_and!; try done; by left|]. split_and!; try done. intros r _. unfold payload_of, items_of.
    cbn [sto_history upd]. simpl. destruct (decide (id = rtr_ExecutionID request)) as [->|Hne].
    + rewrite lookup_insert_eq. simpl. destruct (filter _ _ !! r) eqn:E; [|by right]. apply map_lookup_filter_Some in E as [E _]. left.
      unfold items_of in E. by rewrite E.
    + left. by rewrite lookup_insert_ne.
Qed.

Lemma steps_history s s' : store_ok s -> rtc store_step s s' -> forall id,
  (head_of s id <= head_of s' id)%N /\ (fence_of s id <= fence_of s' id)%N /\
  (forall r, (r <= head_of s id)%N -> payload_of s' id r = payload_of s id r \/ payload_of s' id r = "") /\
  (forall o, sto_outgoing s !! id = Some o -> sto_outgoing s' !! id = Some o).
Proof.
  intros Hs Hst id. induction Hst as [s|s s1 s2 H1 _ IH]; [split_and!; try done; by left|].
  destruct (step_history _ _ Hs H1 id) as (A1 & A2 & A3 & A4). destruct (IH (step_ok _ _ Hs H1)) as (B1 & B2 & B3 & B4).
  split_and!; [lia|lia| |auto]. intros r Hr. destruct (B3 r ltac:(lia)) as [-> | ->]; [|by right]. by apply A3.
Qed.

(** A lease that is not the latest acquisition is not held. *)
Lemma stale_not_held s now lease : store_ok s -> (lse_Incarnation lease < fence_of s (lse_ExecutionID lease))%N -> held s now lease = false.
Proof.
  intros Hs Hlt. destruct (held s now lease) eqn:Hh; [|done]. apply (held_fence _ _ _ Hs) in Hh as [Hh _]. lia.
Qed.

(** C34: what is stored is always readable. In every reachable store each retained revision
    of each execution loads, passes its integrity check and its permanent anchors, and
    carries exactly the identity and revision it is addressed by. *)
Theorem stored_checkpoints_load s id r : store_reachable s -> payload_of s id r <> "" ->
  exists e, LoadCheckpoint None s id r = Ok e /\ env_ExecutionID e = id /\ env_Revision e = r /\ (0 < r <= head_of s id)%N.
Proof.
  intros Hs Hp. apply reachable_ok in Hs. destruct (head_payload _ _ _ Hs Hp) as (e & He & Hr). exists e.
  pose proof He as Hd. apply decodeAnchored_Ok in Hd as (_ & _ & Hv & _). apply integrity_digest in Hv as (Hid & Hrev & _).
  split_and!; try done; try lia. unfold LoadCheckpoint. rewrite bool_decide_eq_false_2 by lia. cbn [check mbind res_bind].
  replace (head_of s id <? r)%N with false by (symmetry; apply N.ltb_ge; lia). done.
Qed.

(** The lease [lease] is live at [now]: it is the lease stored for its execution, by owner and
    fencing token, the token is the latest, and the stored lease has not expired. *)
Definition live_lease (s : MemoryExecutionStore) (now : Time) (lease : ExecutionLease) : Prop :=
  exists stored, sto_leases s !! lse_ExecutionID lease = Some stored /\ lse_Owner lease = lse_Owner stored /\
    lse_Incarnation lease = lse_Incarnation stored /\ lse_Incarnation lease <> 0%N /\
    lse_Incarnation lease = fence_of s (lse_ExecutionID lease) /\ (time_ns now < time_ns (lse_ExpiresAt stored))%Z.
Lemma held_live s now lease : store_ok s -> held s now lease = true -> live_lease s now lease.
Proof.
  intros Hs Hh. destruct (held_fence _ _ _ Hs Hh) as [Hf Hn]. unfold held, lease_of in Hh.
  rewrite !andb_true_iff, negb_true_iff, !bool_decide_eq_true in Hh. destruct Hh as [[[_ Ho] Hi] Ha].
  destruct (sto_leases s !! lse_ExecutionID lease) as [l|] eqn:E; simpl in *; [|congruence]. exists l. apply Z.ltb_lt in Ha. by split_and!.
Qed.

(** C16: commits are linearized. A commit succeeds only for the live lease of the execution
    (the stored one, of the same owner, with the latest fencing token, before it expires),
    against the current head; it publishes the sealed envelope as the next revision, which is
    the new head and what the store loads from then on; it touches nothing else (no other
    revision and no head of another execution, no lease, no fence, no rollover receipt, and
    the fork anchor only with the first revision of a fork); and no later commit can succeed
    against the same expected revision, so there are no lost updates. *)
Theorem commit_linearizes s s' now expected lease envelope result : store_reachable s ->
  (forall e, SealExecutionEnvelope (envelope <| env_Revision := succ_u64 expected |>) = Ok e -> representable e) ->
  CommitExecution None now s expected lease envelope = Ok (s', result) ->
  let id := env_ExecutionID envelope in
  lse_ExecutionID lease = id /\ live_lease s now lease /\ head_of s id = expected /\
  SealExecutionEnvelope (envelope <| env_Revision := (expected + 1)%N |>) = Ok result /\
  head_of s' id = (expected + 1)%N /\ LoadExecution None s' id = Ok result /\
  (forall id' r, (id', r) <> (id, (expected + 1)%N) -> payload_of s' id' r = payload_of s id' r) /\
  (forall id', id' <> id -> head_of s' id' = head_of s id') /\
  sto_leases s' = sto_leases s /\ sto_fences s' = sto_fences s /\ sto_incoming s' = sto_incoming s /\ sto_outgoing s' = sto_outgoing s /\
  (forall id', sto_lineage s' !! id' = sto_lineage s !! id' \/ (id' = id /\ expected = 0%N /\ sto_lineage s' !! id' = env_Fork envelope)) /\
  (forall s'' now' lease' envelope', rtc store_step s' s'' -> env_ExecutionID envelope' = id ->
     exists err, CommitExecution None now' s'' expected lease' envelope' = Err err).
Proof.
  intros Hs Hrep Hc id. apply reachable_ok in Hs. apply (commit_Ok _ _ _ _ _ _ _ Hrep) in Hc.
  pose proof (commit_frame _ _ _ _ _ _ _ Hc) as (Hle & Hfe & Hin & Hout & (encoded & Hm & Hu & Hhist) & Hheads & Hlin).
  pose proof (commit_loads _ _ _ _ _ _ _ Hs Hc) as Hload. pose proof (commit_ok _ _ _ _ _ _ _ Hs Hc) as Hs'.
  destruct Hc as [Hmax Hheld Hid Hhead _ Hseal _]. pose proof (so_head _ Hs (env_ExecutionID envelope)) as Hx. unfold is_u64 in Hx. rewrite Hhead in Hx.
  rewrite succ_u64_lt in * by lia. destruct (items_insert _ _ _ _ Hhist) as [Hi Hi']. destruct (head_insert _ _ _ _ Hheads) as [Hh Hh'].
  split; [done|]. split; [by apply held_live|]. subst id. split_and!; try done.
  - intros id' r Hne. unfold payload_of. destruct (decide (id' = env_ExecutionID envelope)) as [->|Hn]; [|by rewrite Hi']. rewrite Hi.
    by rewrite lookup_insert_ne by congruence.
  - intros id'. rewrite Hlin. destruct (env_Fork envelope) as [l|]; [|by left]. case_bool_decide as E0; [|by left].
    destruct (decide (id' = env_ExecutionID envelope)) as [->|Hn]; [right; by rewrite lookup_insert_eq|left; by rewrite lookup_insert_ne].
  - clear Hlin. intros s'' now' lease' envelope' Hst Eid. destruct (steps_history _ _ Hs' Hst (env_ExecutionID envelope)) as (Hge & _). rewrite Hh in Hge.
    unfold CommitExecution. rewrite bool_decide_eq_false_2 by done. cbn [check mbind res_bind]. destruct (_ || _); [by eexists|].
    destruct (validateDescriptor _); [by eexists|]. cbn [check mbind res_bind]. case_bool_decide; [by eexists|]. cbv zeta. rewrite Eid.
    rewrite (bool_decide_eq_false_2 (head_of s'' (env_ExecutionID envelope) = expected)) by lia. by eexists.
Qed.

(** C17: fencing. Once an execution has been acquired again, every earlier lease of it is
    powerless in all later states: it cannot commit, roll over, renew or release. *)
Theorem stale_lease_fenced s s' s'' now now' id owner ttl lease lease' now1 now2 : store_reachable s ->
  AcquireExecution None now now' s id owner ttl = Ok (s', lease') -> rtc store_step s' s'' ->
  lse_ExecutionID lease = id -> (lse_Incarnation lease < lse_Incarnation lease')%N ->
  (forall expected envelope, expected <> max_uint64 -> CommitExecution None now1 s'' expected lease envelope = Err ErrLeaseLost) /\
  (forall source target, CommitRollover None now1 s'' lease source target = Err ErrLeaseLost) /\
  (forall ttl', (0 < ttl')%Z -> RenewExecution None now1 now2 s'' lease ttl' = Err ErrLeaseLost) /\
  ReleaseExecution None s'' lease = Err ErrLeaseLost.
Proof.
  intros Hs Ha Hst Hid Hlt. apply reachable_ok in Hs. pose proof (acquire_ok _ _ _ _ _ _ _ _ Hs Ha) as Hs'.
  assert (Hf : fence_of s' id = lse_Incarnation lease').
  { unfold AcquireExecution in Ha. cbn [check mbind res_bind] in Ha. guard_in Ha; [done|]. guard_in Ha; [by case_bool_decide|].
    case_bool_decide; [done|]. injection Ha as <- <-. unfold fence_of at 1. cbn [sto_fences upd]. simpl. by rewrite lookup_insert_eq. }
  destruct (steps_history _ _ Hs' Hst id) as (_ & Hge & _). pose proof (steps_ok _ _ Hs' Hst) as Hs''.
  assert (Hstale : forall t, held s'' t lease = false) by (intros t; apply stale_not_held; [done|rewrite Hid; lia]).
  split_and!.
  - intros expected envelope Hm. unfold CommitExecution. rewrite bool_decide_eq_false_2 by done. cbn [check mbind res_bind]. by rewrite Hstale.
  - intros source target. unfold CommitRollover. cbn [check mbind res_bind]. cbv zeta. by rewrite Hstale.
  - intros ttl' Ht. unfold RenewExecution. cbn [check mbind res_bind]. replace (ttl' <=? 0)%Z with false by (symmetry; apply Z.leb_gt; lia).
    by rewrite Hstale.
  - unfold ReleaseExecution. cbn [check mbind res_bind]. rewrite Hid. destruct (sto_leases s'' !! id) as [l|] eqn:El.
    + destruct (so_leases _ Hs'' _ _ El) as (_ & Ei & _). rewrite (bool_decide_eq_false_2 (lse_Incarnation l = lse_Incarnation lease)) by lia.
      by rewrite orb_true_r.
    + by rewrite (bool_decide_eq_false_2 (fence_of s'' id = lse_Incarnation lease)) by lia.
Qed.

(** C33: history is immutable. Along any run revisions and fencing tokens never decrease and
    a stored revision keeps its exact bytes until retention removes it. *)
Theorem history_immutable s s' id r : store_reachable s -> rtc store_step s s' -> payload_of s id r <> "" ->
  (head_of s id <= head_of s' id)%N /\ (fence_of s id <= fence_of s' id)%N /\
  (payload_of s' id r = payload_of s id r \/ payload_of s' id r = "").
Proof.
  intros Hs Hst Hp. apply reachable_ok in Hs. destruct (steps_history _ _ Hs Hst id) as (H1 & H2 & H3 & _). split_and!; try done.
  apply H3. destruct (head_payload _ _ _ Hs Hp) as (e & _ & Hr). lia.
Qed.

(** C18: rollover transfers authority exactly once. After a successful rollover the source
    loads as transferred with the receipt, the target loads as revision one created by it,
    and in every later state the source accepts no commit and no second rollover, while the
    receipt stays available. *)
Theorem rollover_transfers_authority s s' now lease source target receipt : store_reachable s ->
  (forall current transferred created receipt, PrepareExecutionRolloverPublication current target lease = Ok (transferred, created, receipt) ->
     representable transferred /\ representable created) ->
  CommitRollover None now s lease source target = Ok (s', receipt) ->
  let sourceID := ref_ExecutionID source in
  (exists transferred, LoadExecution None s' sourceID = Ok transferred /\ env_Transfer transferred = Some receipt /\
     env_Revision transferred = (ref_Revision source + 1)%N) /\
  (exists created, LoadExecution None s' (env_ExecutionID target) = Ok created /\ env_Revision created = 1%N /\
     env_Rollover created = Some (rcp_Lineage receipt)) /\
  (forall s'' now' expected lease' envelope source' target', rtc store_step s' s'' ->
     env_ExecutionID envelope = sourceID -> ref_ExecutionID source' = sourceID ->
     (exists err, CommitExecution None now' s'' expected lease' envelope = Err err) /\
     (exists err, CommitRollover None now' s'' lease' source' target' = Err err) /\
     sto_outgoing s'' !! sourceID = Some receipt).
Proof.
  intros Hs Hrep Hc sourceID. apply reachable_ok in Hs. pose proof (step_ok _ _ Hs (sstep_rollover _ _ _ _ _ _ _ Hrep Hc)) as Hs'.
  apply (rollover_rolled _ _ _ _ _ _ _ Hs Hrep) in Hc as (t & c & Hr).
  destruct Hr as [Hne [Hh Hpos] Hf [Hrs _] [Hno Hout] Hin _ Hheads (sb & tb & Hsb & Htb & Hds & Hdt & Hitems) Hold [Ht Hcr]].
  subst sourceID. set (sourceID := ref_ExecutionID source) in *. split_and!.
  - exists t. pose proof Hds as Hd. apply decodeAnchored_Ok in Hd as (_ & _ & Hv & _). apply integrity_digest in Hv as (_ & Hrev & _).
    split_and!; try done. unfold LoadExecution. cbn [check mbind res_bind]. cbv zeta.
    rewrite Hheads, (bool_decide_eq_false_2 (sourceID = env_ExecutionID target)), (bool_decide_eq_true_2 (sourceID = sourceID)) by done.
    rewrite bool_decide_eq_false_2 by lia. rewrite <- Hds. f_equal. unfold payload_of.
    rewrite Hitems, (bool_decide_eq_false_2 (sourceID = env_ExecutionID target)), (bool_decide_eq_true_2 (sourceID = sourceID)) by done.
    by rewrite lookup_insert_eq.
  - exists c. pose proof Hdt as Hd. apply decodeAnchored_Ok in Hd as (_ & _ & Hv & _). apply integrity_digest in Hv as (_ & Hrev & _).
    split_and!; try done. unfold LoadExecution. cbn [check mbind res_bind]. cbv zeta.
    rewrite Hheads, (bool_decide_eq_true_2 (env_ExecutionID target = env_ExecutionID target)) by done.
    rewrite (bool_decide_eq_false_2 (1%N = 0%N)) by done. rewrite <- Hdt. f_equal. unfold payload_of.
    rewrite Hitems, (bool_decide_eq_true_2 (env_ExecutionID target = env_ExecutionID target)) by done. by rewrite lookup_singleton_eq.
  - intros s'' now' expected lease' envelope source' target' Hst Eid Esrc. pose proof (steps_ok _ _ Hs' Hst) as Hs''.
    destruct (steps_history _ _ Hs' Hst sourceID) as (_ & _ & _ & Hkeep).
    assert (Ho : sto_outgoing s'' !! sourceID = Some receipt) by (apply Hkeep; rewrite Hout; by rewrite lookup_insert_eq).
    split_and!; [| |done].
    + destruct (CommitExecution None now' s'' expected lease' envelope) as [[s3 e]|err] eqn:Hce; [|by eexists]. exfalso.
      unfold CommitExecution in Hce. case_bool_decide; [done|]. cbn [check mbind res_bind] in Hce. guard_in Hce; [done|].
      apply bind_Ok in Hce as (u1 & _ & Hce). case_bool_decide; [done|]. cbv zeta in Hce. guard_in Hce; [done|].
      apply negb_false_iff, bool_decide_eq_true in Hg0. rewrite Eid in Hg0, Hce. destruct (so_outgoing _ Hs'' _ _ Ho) as [Eh Eh'].
      replace (0 <? expected)%N with true in Hce by (symmetry; apply N.ltb_lt; lia). apply bind_Ok in Hce as (p & Hp & Hce).
      apply bind_Ok in Hp as (stored & Hd & [= <-]). apply bind_Ok in Hce as (u2 & Hroll & _). apply check_Ok in Hroll.
      apply rollover_transition_Ok in Hroll as (_ & Htr & _). apply decodeAnchored_Ok in Hd as (_ & _ & Hv & _ & Ha).
      apply integrity_digest in Hv as (_ & Hrev & _). apply lifecycle_anchors_Ok in Ha as [_ Hoo]. rewrite Ho in Hoo. destruct Hoo as (_ & _ & Hoo).
      replace (env_Revision stored <? rcp_SourceRevision receipt)%N with false in Hoo by (symmetry; apply N.ltb_ge; lia).
      destruct Hoo as [Hoo _]. congruence.
    + unfold CommitRollover. cbn [check mbind res_bind]. cbv zeta. rewrite Esrc. destruct (_ || _); [by eexists|]. rewrite Ho. by eexists.
Qed.
End StoreInv.
