(* ===== verification/StoreExample.v ===== *)
(** * A closed run of the store

    The theorems of StoreInv.v on concrete states: the empty store, the acquisition of
    execution "x", its first commit, a second acquisition after the first lease expired, and
    a rollover to execution "y". Digests are never evaluated; the laws of sealing give what
    the checks need. *)

From stdpp Require Import relations.
From S2P Require Import Prelude Go Sha256 Json Identity Schedule Activity Waits Contract Children Wire Migration Integrity Aggregate WireRecords Store StoreInv.

#[local] Opaque sha256_hex.
#[local] Arguments max_uint64 : simpl never.

Definition at_second (n : Z) : Time := mkTime (year10000_ns / 2 + n * 1000000000) UTC.
Definition owner_lease : ExecutionLease := mkLease "x" "o" 1 (at_second 10).
Definition store_acquired : MemoryExecutionStore :=
  mkStore ∅ ∅ {["x" := owner_lease]} {["x" := 1%N]} ∅ ∅ ∅.
Definition store_committed : MemoryExecutionStore :=
  put_checkpoint store_acquired "x" 1 (String "w" (put sealed_example)).

Lemma store_acquired_ok : AcquireExecution None (at_second 0) (at_second 0) NewMemoryExecutionStore "x" "o" 10000000000 = Ok (store_acquired, owner_lease).
Proof. vm_compute. reflexivity. Qed.

Lemma store_acquired_reachable : store_reachable store_acquired.
Proof. eapply rtc_once, sstep_acquire, store_acquired_ok. Qed.

Lemma sealed_example_integrity : ValidateExecutionIntegrity sealed_example "x" 1 = None.
Proof. apply (seal_integrity envelope_example _ sealed_example_ok). Qed.

(** What the head of an execution needs to load: its payload, its integrity, its anchors. *)
Lemma store_committed_ok : CommitExecution None (at_second 1) store_acquired 0 owner_lease envelope_example = Ok (store_committed, sealed_example).
Proof.
  destruct (commit_complete (at_second 1) store_acquired owner_lease envelope_example sealed_example None) as (s' & Hs');
    [done|reflexivity|reflexivity|reflexivity|reflexivity|reflexivity|reflexivity|apply sealed_example_ok|exact I|].
  change (head_of store_acquired (env_ExecutionID envelope_example)) with 0%N in Hs'. rewrite Hs'.
  apply commit_Ok in Hs'; [|intros e _; exact I]. destruct Hs' as [_ _ _ _ _ _ (b & Hb & _ & _ & ->)]. injection Hb as <-. reflexivity.
Qed.

Lemma store_committed_step : store_step store_acquired store_committed.
Proof. eapply sstep_commit, store_committed_ok. intros e _. exact I. Qed.
Lemma store_committed_reachable : store_reachable store_committed.
Proof. eapply rtc_r; [apply store_acquired_reachable|apply store_committed_step]. Qed.

(** The first lease expires at second ten; another owner takes over at second twenty. *)
Definition taker_lease : ExecutionLease := mkLease "x" "p" 2 (at_second 30).
Definition store_taken : MemoryExecutionStore :=
  store_committed <| sto_fences := {["x" := 2%N]} |> <| sto_leases := {["x" := taker_lease]} |>.
Lemma store_taken_ok : AcquireExecution None (at_second 20) (at_second 20) store_committed "x" "p" 10000000000 = Ok (store_taken, taker_lease).
Proof. reflexivity. Qed.
Lemma store_taken_step : store_step store_committed store_taken.
Proof. eapply sstep_acquire, store_taken_ok. Qed.

Lemma stored_checkpoints_load_witness : exists e, LoadCheckpoint None store_committed "x" 1 = Ok e /\
  env_ExecutionID e = "x" /\ env_Revision e = 1%N /\ (0 < 1 <= head_of store_committed "x")%N.
Proof. apply stored_checkpoints_load; [apply store_committed_reachable|discriminate]. Defined.

Lemma commit_linearizes_witness : LoadExecution None store_committed "x" = Ok sealed_example /\
  exists err, CommitExecution None (at_second 2) store_committed 0 owner_lease envelope_example = Err err.
Proof.
  destruct (commit_linearizes store_acquired store_committed (at_second 1) 0 owner_lease envelope_example sealed_example
    store_acquired_reachable (fun e _ => I) store_committed_ok) as (_ & _ & _ & _ & _ & Hload & _ & _ & _ & _ & _ & _ & _ & Hlost).
  split; [exact Hload|]. apply Hlost; [apply rtc_refl|reflexivity].
Defined.

Lemma stale_lease_fenced_witness : ReleaseExecution None store_taken owner_lease = Err ErrLeaseLost /\
  CommitExecution None (at_second 21) store_taken 1 owner_lease sealed_example = Err ErrLeaseLost.
Proof.
  destruct (stale_lease_fenced store_committed store_taken store_taken (at_second 20) (at_second 20) "x" "p" 10000000000
    owner_lease taker_lease (at_second 21) (at_second 21) store_committed_reachable store_taken_ok (rtc_refl _ _) eq_refl eq_refl)
    as (Hc & _ & _ & Hr).
  split; [exact Hr|]. apply Hc. discriminate.
Defined.

Lemma history_immutable_witness : (head_of store_committed "x" <= head_of store_taken "x")%N /\
  (fence_of store_committed "x" <= fence_of store_taken "x")%N /\
  (payload_of store_taken "x" 1 = payload_of store_committed "x" 1 \/ payload_of store_taken "x" 1 = "").
Proof.
  apply history_immutable; [apply store_committed_reachable|apply rtc_once, store_taken_step|discriminate].
Defined.

(** ** A rollover of "x" to "y", for any source digest [d] and request digest [rd] *)
Definition policy_example : RolloverPolicy := mkRolloverPolicy "p" 10 1000000 1000000.
Definition reference_with (d : string) : HistoricalCheckpointReference := mkReference "x" 1 d.
Definition lineage_with (d rd : string) : RolloverLineage :=
  mkRolloverLineage (reference_with d) (descriptor_example "1") (descriptor_example "1") "y" "d" policy_example "l" rd (at_second 0).
Definition target_with (d rd : string) : ExecutionEnvelope :=
  mkEnvelope "y" 0 "" (descriptor_example "1") None (mkProgress "p" "n" ∅ ∅ ∅) "" "" "" "" (meta_example <| met_StepCount := 0%Z |>) 1 None None None
    (Some (lineage_with d rd)) None None.

Lemma length_hex_encode s : String.length (hex_EncodeToString s) = (2 * String.length s)%nat.
Proof. induction s as [|c s IH]; [done|]. cbn [hex_EncodeToString]. cbn [String.length]. rewrite ?IH. lia. Qed.
Lemma length_sha256_hex m : String.length (sha256_hex m) = 64%nat.
Proof. Transparent sha256_hex. unfold sha256_hex. rewrite length_hex_encode, length_sha256. done. Qed.
#[local] Opaque sha256_hex.

(** The encoded size depends on the lengths of the digests only. *)
Ltac explode s H :=
  lazymatch type of H with
  | _ = O => destruct s; [|discriminate H]
  | _ = S _ => let c := fresh "c" in let t := fresh "t" in
      destruct s as [|c t]; [discriminate H|]; apply Nat.succ_inj in H; explode t H
  end.
Definition source_with (d : string) : ExecutionEnvelope := envelope_example <| env_Digest := d |>.
Lemma source_with_small d : String.length d = 64%nat -> (byte_len (String "w" (put (source_with d))) <= 1000000)%Z.
Proof. intros Hd. explode d Hd. vm_compute. discriminate. Qed.
Lemma target_with_small d rd td : String.length d = 64%nat -> String.length rd = 64%nat -> String.length td = 64%nat ->
  (byte_len (String "w" (put ((target_with d rd) <| env_Revision := 1%N |> <| env_Digest := td |>))) <= 1000000)%Z.
Proof. intros Hd Hrd Htd. explode d Hd. explode rd Hrd. explode td Htd. vm_compute. discriminate. Qed.

Section Rollover.
Context (d rd : string) (Hd : validActivityDigest d = true) (Hrd : validActivityDigest rd = true).
Context (Hdigest : lineageDigest (lineage_with d rd) = rd) (Hlen : String.length d = 64%nat) (Hlen' : String.length rd = 64%nat).

Lemma lineage_with_valid : validateRolloverLineage (lineage_with d rd) = None.
Proof.
  unfold validateRolloverLineage. rewrite Hdigest. unfold validateReference. cbn [lineage_with rol_Source rol_RequestDigest ref_Digest reference_with].
  rewrite Hd, Hrd, (bool_decide_eq_true_2 (rd = rd)) by done. reflexivity.
Qed.

#[local] Notation source_with := (source_with d).
Context (Hsource : ValidateExecutionIntegrity source_with "x" 1 = None).
Lemma source_with_safe : validateRolloverSource source_with = None.
Proof.
  unfold validateRolloverSource, ValidateExecutionLifecycleBoundary.
  change (ValidateExecutionIntegrity source_with (env_ExecutionID source_with) (env_Revision source_with))
    with (ValidateExecutionIntegrity source_with "x" 1). rewrite Hsource. reflexivity.
Qed.

Lemma target_with_valid : validateRolloverTarget source_with (target_with d rd) = None.
Proof.
  unfold validateRolloverTarget. cbn [env_Rollover target_with]. rewrite lineage_with_valid.
  change (ref_Digest (rol_Source (lineage_with d rd))) with d. change (env_Digest source_with) with d.
  rewrite (bool_decide_eq_true_2 (d = d)) by done. reflexivity.
Qed.

Definition transferred_with (receipt : RolloverReceipt) : ExecutionEnvelope :=
  source_with <| env_Revision := 2%N |> <| env_Transfer := Some receipt |> <| env_Terminal := Some rolloverTerminal |>.

Lemma record_limit_with : validateRolloverRecordLimit source_with policy_example = None.
Proof.
  unfold validateRolloverRecordLimit. change (validateRolloverPolicy policy_example) with (@None error). cbn [check mbind res_bind].
  change (marshal source_with) with (Some (String "w" (put source_with))). cbn [of_option mbind res_bind].
  change (rpo_MaxAggregateBytes policy_example) with 1000000%Z.
  replace (1000000 <? byte_len (String "w" (put source_with)))%Z with false
    by (symmetry; apply Z.ltb_ge, source_with_small, Hlen).
  reflexivity.
Qed.

Lemma publication_with : exists receipt created transferred,
  PrepareExecutionRolloverPublication source_with (target_with d rd) owner_lease = Ok (transferred, created, receipt).
Proof.
  unfold PrepareExecutionRolloverPublication. rewrite source_with_safe, target_with_valid.
  change (env_ExecutionID source_with) with "x". change (env_Rollover (target_with d rd)) with (Some (lineage_with d rd)).
  cbn [of_option check mbind res_bind]. change (rol_Policy (lineage_with d rd)) with policy_example. rewrite record_limit_with.
  set (b := String "w" (put ((target_with d rd) <| env_Revision := 1%N |> <| env_Digest := "" |>))).
  assert (Hseal : SealExecutionEnvelope ((target_with d rd) <| env_Revision := 1%N |>)
    = Ok ((target_with d rd) <| env_Revision := 1%N |> <| env_Digest := sha256_hex b |>)) by reflexivity.
  cbv zeta. rewrite Hseal. clear Hseal. cbn [check mbind res_bind].
  pose proof (target_with_small d rd (sha256_hex b) Hlen Hlen' (length_sha256_hex b)) as Hsize.
  set (sealed := (target_with d rd) <| env_Revision := 1%N |> <| env_Digest := sha256_hex b |>) in *.
  change (marshal sealed) with (Some (String "w" (put sealed))). cbn [of_option mbind res_bind].
  change (rpo_MaxTargetBytes policy_example) with 1000000%Z. rewrite (proj2 (Z.ltb_ge _ _) Hsize). cbn [check mbind res_bind].
  set (receipt := mkReceipt _ _ _).
  assert (Hseal : SealExecutionEnvelope (transferred_with receipt)
    = Ok ((transferred_with receipt) <| env_Digest := sha256_hex (String "w" (put ((transferred_with receipt) <| env_Digest := "" |>))) |>)) by reflexivity.
  change (source_with <| env_Revision := succ_u64 (env_Revision source_with) |> <| env_Transfer := Some receipt |>
    <| env_Terminal := Some rolloverTerminal |>) with (transferred_with receipt). rewrite Hseal. cbn [mbind res_bind].
  by do 3 eexists.
Qed.
End Rollover.

Definition request_digest : string := lineageDigest (lineage_with (env_Digest sealed_example) "").
Definition target_example : ExecutionEnvelope := target_with (env_Digest sealed_example) request_digest.

Lemma store_rolled_ok : exists s' receipt,
  CommitRollover None (at_second 2) store_committed owner_lease (reference_with (env_Digest sealed_example)) target_example = Ok (s', receipt).
Proof.
  assert (Hload : decodeAnchoredExecution store_committed (payload_of store_committed "x" 1) "x" 1 = Ok sealed_example).
  { apply decodeAnchored_Ok. split_and!; [discriminate|by apply unmarshal_marshal|apply sealed_example_integrity|reflexivity|reflexivity]. }
  destruct (publication_with (env_Digest sealed_example) request_digest) as (receipt & created & transferred & Hpub);
    [apply sha256_hex_digest|apply sha256_hex_digest|reflexivity|apply length_sha256_hex|apply length_sha256_hex|apply sealed_example_integrity|].
  destruct (rollover_complete (at_second 2) store_committed owner_lease (reference_with (env_Digest sealed_example)) target_example
    sealed_example transferred created receipt) as (s' & Hs');
    [reflexivity|reflexivity|reflexivity|reflexivity|done|exact Hload|reflexivity|reflexivity|reflexivity|exact Hpub|exact I|exact I|].
  by exists s', receipt.
Qed.

Lemma rollover_transfers_authority_witness : exists s' receipt,
  (exists transferred, LoadExecution None s' "x" = Ok transferred /\ env_Transfer transferred = Some receipt /\
     env_Revision transferred = (1 + 1)%N) /\
  (exists created, LoadExecution None s' "y" = Ok created /\ env_Revision created = 1%N /\
     env_Rollover created = Some (rcp_Lineage receipt)) /\
  exists err, CommitExecution None (at_second 3) s' 2 owner_lease envelope_example = Err err.
Proof.
  destruct store_rolled_ok as (s' & receipt & Hs'). exists s', receipt.
  destruct (rollover_transfers_authority store_committed s' (at_second 2) owner_lease _ target_example receipt
    store_committed_reachable (fun _ _ _ _ _ => conj I I) Hs') as (Ht & Hc & Hno).
  split; [exact Ht|]. split; [exact Hc|].
  destruct (Hno s' (at_second 3) 2%N owner_lease envelope_example (reference_with "") target_example (rtc_refl _ _) eq_refl eq_refl) as [He _].
  exact He.
Defined.
