(* ===== verification/Postgres.v ===== *)
(** * The PostgreSQL store

    adapters/checkpointer/postgres: the tables of execution_store.go and
    execution_projection.go, and every method of [ExecutionStore] with its rollovers
    (execution_rollover.go), retention (execution_retention.go) and the discovery rows
    written beside each commit.

    The statements of the source are functions on the tables. A statement reads the clock of
    the server once and may fail; a transaction that fails, or whose commit is refused, leaves
    the tables as they were, and a commit may succeed without its acknowledgement. Writers of
    one execution exclude each other by the lock on its row, taken first, so a transaction is
    one step; the one read outside a lock, the holder reported by a refused acquisition, may
    see a later state. A [jsonb] column holds the server's own text of a value. *)

From S2P Require Import Prelude Go Sha256 Json Identity Schedule Activity Waits Contract Children Aggregate Store.

(** ** Columns *)

(** The cast to [jsonb], [None] where the server refuses the text; [->'fork'] on a stored
    envelope, [None] for SQL null; and the encodings of the anchor columns. *)
Class JsonColumns := {
  to_jsonb : string -> option string;
  jsonb_fork : string -> option string;
  codec_lineage :: JsonCodec ForkLineage;
  codec_receipt :: JsonCodec RolloverReceipt;
}.

(** The server keeps the JSON value of a text it accepts. *)
Class LawfulColumns `{Codecs} `{JsonColumns} := {
  jsonb_nonempty : forall s p, to_jsonb s = Some p -> p <> "";
  jsonb_envelope : forall s p, to_jsonb s = Some p -> unmarshal (A := ExecutionEnvelope) p = unmarshal s;
  jsonb_receipt : forall s p, to_jsonb s = Some p -> unmarshal (A := RolloverReceipt) p = unmarshal s;
  jsonb_fork_value : forall p e, unmarshal p = Some (Some e) ->
    match jsonb_fork p with
    | None => env_Fork e = None
    | Some q => q <> "" /\ unmarshal q = Some (env_Fork e)
    end;
  law_receipt :: JsonRoundTrip RolloverReceipt;
}.

Record execution_row := mkRow {
  row_revision : N;
  row_fence : N;
  row_lease_owner : option string;
  row_lease_expiry : option Time;
  row_fork_lineage : option string;
  row_rollover_incoming : option string;
  row_rollover_outgoing : option string;
  row_payload_deleted : bool;
  row_discovery_projected : bool;
  row_discovery_error : option string;
}.
#[export] Instance eta_row : Eta execution_row := fun r =>
  mkRow (row_revision r) (row_fence r) (row_lease_owner r) (row_lease_expiry r) (row_fork_lineage r) (row_rollover_incoming r)
    (row_rollover_outgoing r) (row_payload_deleted r) (row_discovery_projected r) (row_discovery_error r).
(** The defaults of the schema. *)
Definition default_row : execution_row := mkRow 0 0 None None None None None false false None.

Record dueCandidate := mkDue {
  due_ExecutionID : string; due_Revision : N; due_Identity : string; due_ProfileDigest : string; due_Kind : string; due_Deadline : Time;
}.

(** The tables of threads: checkpoints in the order they were inserted, leases and fences. *)
Record checkpoint_row := mkCheckpointRow {
  ckr_revision : N; ckr_node_id : string; ckr_state_payload : string; ckr_run_meta : string; ckr_effects : string; ckr_updated_at : Time;
}.
Record lease_row := mkLeaseRow { lsr_owner : string; lsr_expires_at : Time; lsr_incarnation : N }.
Record ThreadTables := mkThreadTables {
  tbl_checkpoints : gmap string (list checkpoint_row);
  tbl_leases : gmap string lease_row;
  tbl_fences : gmap string N;
}.
#[export] Instance eta_ThreadTables : Eta ThreadTables := fun t => mkThreadTables (tbl_checkpoints t) (tbl_leases t) (tbl_fences t).

(** Rows by primary key. *)
Record Database := mkDatabase {
  db_executions : gmap string execution_row;
  db_history : gmap string (gmap N string);
  db_due : gmap string (gmap (string * string) dueCandidate);
  db_threads : ThreadTables;
}.
#[export] Instance eta_Database : Eta Database := fun d => mkDatabase (db_executions d) (db_history d) (db_due d) (db_threads d).
Definition empty_database : Database := mkDatabase ∅ ∅ ∅ (mkThreadTables ∅ ∅ ∅).

Definition history_of (db : Database) (id : string) : gmap N string := default ∅ (db_history db !! id).
Definition due_of (db : Database) (id : string) : gmap (string * string) dueCandidate := default ∅ (db_due db !! id).

(** ** Statements and transactions *)
(** A statement fails with an error of the driver or of the context, never with an error of
    this package. *)
Inductive fault := DriverFault (message : string) | ContextFault (deadline : bool).
Definition fault_error (f : fault) : error :=
  match f with DriverFault message => ErrHost message | ContextFault deadline => if deadline then ContextDeadlineExceeded else ContextCanceled end.
Inductive commitOutcome := CommitMade | CommitRefused (err : error) | CommitUnacknowledged (err : error).

Record postgres_world := mkPostgres {
  pw_db : Database;
  pw_tick : nat;
  pw_clock : nat -> Time;
  pw_fault : nat -> option fault;
  pw_commit : nat -> commitOutcome;
  (** what another session made of a lease owner since the last statement *)
  pw_holder : nat -> option string;
  pw_host_clock : nat -> Time;
  pw_context : nat -> option error;
  pw_random : nat -> option N;
}.
#[export] Instance eta_Postgres : Eta postgres_world := fun w =>
  mkPostgres (pw_db w) (pw_tick w) (pw_clock w) (pw_fault w) (pw_commit w) (pw_holder w) (pw_host_clock w) (pw_context w) (pw_random w).
Definition with_db (db : Database) (w : postgres_world) : postgres_world := w <| pw_db := db |>.
Definition next_tick (w : postgres_world) : postgres_world := w <| pw_tick := S (pw_tick w) |>.

Definition pg (A : Type) : Type := postgres_world -> postgres_world * res A.
Definition pg_ret {A} (a : A) : pg A := fun w => (w, Ok a).
Definition pg_lift {A} (r : res A) : pg A := fun w => (w, r).
Definition pg_bind {A B} (m : pg A) (k : A -> pg B) : pg B := fun w =>
  match m w with (w, Ok a) => k a w | (w, Err e) => (w, Err e) end.
Declare Scope pg_scope.
Notation "'let*' x ':=' m 'in' k" := (pg_bind m (fun x => k)) (at level 200, x name, m at level 100, k at level 200) : pg_scope.
Notation "'do*' m 'in' k" := (pg_bind m (fun _ => k)) (at level 200, m at level 100, k at level 200) : pg_scope.
Notation "'guard*' b 'else' e 'in' k" := (if (b : bool) then k else pg_lift (Err e)) (at level 200, b at level 100, e at level 100, k at level 200) : pg_scope.
Open Scope pg_scope.

Definition statement {A} (f : Time -> Database -> res (Database * A)) : pg A := fun w =>
  let t := pw_tick w in
  let w := next_tick w in
  match pw_fault w t with
  | Some f => (w, Err (fault_error f))
  | None => match f (pw_clock w t) (pw_db w) with Ok (db, a) => (with_db db w, Ok a) | Err err => (w, Err err) end
  end.
Definition query {A} (f : Time -> Database -> res A) : pg A := statement (fun now db => a ← f now db; Ok (db, a)).

(** The end of a transaction begun on [before]: [tx.Commit], or the deferred [tx.Rollback]. *)
Definition settle {A} (before : Database) (out : postgres_world * res (bool * A)) : postgres_world * res A :=
  match out with
  | (w, Err err) => (with_db before w, Err err)
  | (w, Ok (false, a)) => (with_db before w, Ok a)
  | (w, Ok (true, a)) =>
      let t := pw_tick w in
      let w := next_tick w in
      match pw_commit w t with
      | CommitMade => (w, Ok a)
      | CommitRefused err => (with_db before w, Err err)
      | CommitUnacknowledged err => (w, Err err)
      end
  end.
Definition begin : pg unit := query (fun _ _ => Ok tt).
(** A body that returns [false] leaves without a commit. *)
Definition transactionIf {A} (body : pg (bool * A)) : pg A := fun w =>
  match begin w with (w, Ok _) => settle (pw_db w) (body w) | (w, Err err) => (w, Err err) end.
Definition transaction {A} (body : pg A) : pg A := transactionIf (let* a := body in pg_ret (true, a)).
(** A statement outside a transaction. *)
Definition autocommit {A} (m : pg A) : pg A := fun w => settle (pw_db w) ((let* a := m in pg_ret (true, a)) w).

Definition max_bigint : N := 9223372036854775807.
(** The driver refuses an unsigned argument that is no [bigint]. *)
Definition bigint (n : N) : res N := if (n <=? max_bigint)%N then Ok n else Err (ErrHost "is greater than maximum value for int8").
Definition unique_violation : error := ErrHost "duplicate key value violates unique constraint".
Definition foreign_key_violation : error := ErrHost "violates foreign key constraint".
Definition invalid_json : error := ErrHost "invalid input syntax for type json".
Definition numeric_out_of_range : error := ErrHost "22003".

(** ** Rows *)
Definition update_row (id : string) (f : execution_row -> execution_row) (db : Database) : Database :=
  db <| db_executions := alter f id (db_executions db) |>.

Definition stored_row (db : Database) (id : string) : bool := negb (is_nil (db_executions db !! id)).
Definition insertExecution (id : string) (row : execution_row) (db : Database) : Database * N :=
  if stored_row db id then (db, 0%N) else (db <| db_executions := <[id := row]> (db_executions db) |>, 1%N).

(** [lease_owner=@owner AND fence=@fence AND lease_expiry>clock_timestamp()]. *)
Definition owned (now : Time) (owner : string) (fence : N) (row : execution_row) : bool :=
  match row_lease_owner row, row_lease_expiry row with
  | Some o, Some expiry => (o == owner) && (row_fence row == fence) && After expiry now
  | _, _ => false
  end.

(** [UPDATE ... WHERE execution_id=@execution_id AND ...], with the rows affected. *)
Definition updateWhere (id : string) (p : execution_row -> bool) (f : execution_row -> execution_row) (db : Database) : Database * N :=
  match db_executions db !! id with
  | Some row => if p row then (update_row id f db, 1%N) else (db, 0%N)
  | None => (db, 0%N)
  end.

Section Columns.
Context `{Codecs} `{JsonColumns}.

Definition jsonb (s : string) : res string := of_option (to_jsonb s) invalid_json.

Definition insertHistory (id : string) (revision : N) (payload : string) (db : Database) : res Database :=
  stored ← jsonb payload;
  if negb (stored_row db id) then Err foreign_key_violation
  else if negb (is_nil (history_of db id !! revision)) then Err unique_violation
  else Ok (db <| db_history := <[id := <[revision := stored]> (history_of db id)]> (db_history db) |>).

(** ** Discovery rows (execution_projection.go) *)
Definition microsecond : Z := 1000.
Definition Truncate (t : Time) (d : Z) : Time := Add t (- (time_ns t mod d)).
Definition discoveryDeadline (deadline : Time) : Time :=
  let rounded := Truncate deadline microsecond in
  if Before rounded deadline then Add rounded microsecond else rounded.

Definition profile_json (p : WaitCapabilityProfile) : json :=
  JObj [("label", JStr (prf_Label p)); ("journal_owner", JStr (prf_JournalOwner p)); ("lease_owner", JStr (prf_LeaseOwner p));
        ("timer_owner", JStr (prf_TimerOwner p)); ("clock_owner", JStr (prf_ClockOwner p)); ("retry_owner", JStr (prf_RetryOwner p));
        ("recovery_owner", JStr (prf_RecoveryOwner p))].
Definition discoveryProfileDigest (profile : WaitCapabilityProfile) : string := sha256_hex (print (profile_json profile)).

Definition executionCandidates (envelope : ExecutionEnvelope) : res (list dueCandidate) :=
  match env_Terminal envelope, env_RuntimeProfile envelope with
  | None, Some profile =>
      waits ← InspectExecutionWaits envelope;
      retries ← InspectPendingActivityRetries envelope;
      let candidate kind identity deadline :=
        mkDue (env_ExecutionID envelope) (env_Revision envelope) identity (discoveryProfileDigest profile) kind (discoveryDeadline deadline) in
      Ok (map (fun wait => candidate "wait" (wt_Generation wait) (wsp_Deadline (wt_Spec wait)))
            (List.filter (fun wait => wt_State wait == WaitArmed) waits)
          ++ map (fun retry => candidate "retry" (ptr_Identity retry) (ptr_Deadline retry)) retries)
  | _, _ => Ok []
  end.

Definition deleteDue (id : string) (db : Database) : Database := db <| db_due := delete id (db_due db) |>.
Definition insertDue (c : dueCandidate) (db : Database) : res Database :=
  let id := due_ExecutionID c in
  if negb (stored_row db id) then Err foreign_key_violation
  else if negb (is_nil (due_of db id !! (due_Kind c, due_Identity c))) then Err unique_violation
  else Ok (db <| db_due := <[id := <[(due_Kind c, due_Identity c) := c]> (due_of db id)]> (db_due db) |>).

Definition exec (f : Database -> res Database) : pg unit := statement (fun _ db => db ← f db; Ok (db, tt)).
Definition project (id : string) (reason : option string) : pg unit :=
  exec (fun db => Ok (update_row id (fun row => row <| row_discovery_projected := true |> <| row_discovery_error := reason |>) db)).

Fixpoint insertCandidates (candidates : list dueCandidate) : pg unit :=
  match candidates with
  | [] => pg_ret tt
  | c :: rest => do* exec (insertDue c) in insertCandidates rest
  end.
Definition replaceDiscoveryProjection (envelope : ExecutionEnvelope) : pg unit :=
  let* candidates := pg_lift (executionCandidates envelope) in
  do* exec (fun db => Ok (deleteDue (env_ExecutionID envelope) db)) in
  do* insertCandidates candidates in
  project (env_ExecutionID envelope) None.
Definition removeDiscoveryProjection (id : string) (diagnostic : string) : pg unit :=
  do* exec (fun db => Ok (deleteDue id db)) in
  project id (if diagnostic == "" then None else Some diagnostic).

(** ** Loading *)
Record anchoredRow := mkAnchored {
  anc_revision : N; anc_payload : string; anc_fork : string; anc_incoming : string; anc_outgoing : string; anc_deleted : bool;
}.
(** SQL null scans to no bytes. *)
Definition anchored (row : execution_row) (revision : N) (payload : option string) : anchoredRow :=
  mkAnchored revision (default "" payload) (default "" (row_fork_lineage row)) (default "" (row_rollover_incoming row))
    (default "" (row_rollover_outgoing row)) (row_payload_deleted row).

Definition selectHead (id : string) (db : Database) : option anchoredRow :=
  (fun row => anchored row (row_revision row) (history_of db id !! row_revision row)) <$> db_executions db !! id.
Definition selectRevision (id : string) (revision : N) (db : Database) : option anchoredRow :=
  (fun row => anchored row revision (history_of db id !! revision)) <$> db_executions db !! id.
Definition selectReached (id : string) (revision : N) (db : Database) : option anchoredRow :=
  match db_executions db !! id with
  | Some row => if (revision <=? row_revision row)%N then selectRevision id revision db else None
  | None => None
  end.
(** The inner join of [validateForkPredecessor]. *)
Definition selectStored (id : string) (revision : N) (db : Database) : option anchoredRow :=
  match history_of db id !! revision with Some _ => selectRevision id revision db | None => None end.

Definition decodeRawEnvelope (payload id : string) (revision expectedRevision : N) : res ExecutionEnvelope :=
  if (revision == 0%N) && no_bytes payload then Err ErrThreadNotFound
  else match unmarshal payload with
  | None => Err (ErrJoin ErrExecutionCorrupt json_error)
  | Some envelope =>
      if (expectedRevision != 0%N) && (revision != expectedRevision) then Err ErrExecutionCorrupt
      else match envelope with
      | None => Err ErrExecutionCorrupt
      | Some envelope => of_error (ValidateExecutionIntegrity envelope id revision) envelope
      end
  end.

Definition decodeColumn {A} `{JsonCodec A} (payload : string) : res (option A) :=
  if no_bytes payload then Ok None else of_option (unmarshal payload) (ErrJoin ErrExecutionCorrupt json_error).
Definition validateStoredForkAnchor (envelope : ExecutionEnvelope) (payload : string) : option error :=
  match decodeColumn payload with Err err => Some err | Ok anchor => ValidateExecutionForkAnchor envelope anchor end.
Definition validateStoredLifecycleAnchors (envelope : ExecutionEnvelope) (incomingPayload outgoingPayload : string) : option error :=
  match decodeColumn incomingPayload with
  | Err err => Some err
  | Ok incoming =>
      match decodeColumn outgoingPayload with
      | Err err => Some err
      | Ok outgoing => ValidateExecutionLifecycleAnchors envelope incoming outgoing
      end
  end.

Definition loadAnchoredEnvelope (row : option anchoredRow) (id : string) (expectedRevision : N) : res ExecutionEnvelope :=
  match row with
  | None => Err ErrThreadNotFound
  | Some r =>
      if (0 <? anc_revision r)%N && no_bytes (anc_payload r) && (anc_deleted r || (0 <? expectedRevision)%N)
      then Err ErrExecutionCheckpointUnavailable
      else
        envelope ← decodeRawEnvelope (anc_payload r) id (anc_revision r) expectedRevision;
        check (validateStoredForkAnchor envelope (anc_fork r));;
        check (validateStoredLifecycleAnchors envelope (anc_incoming r) (anc_outgoing r));;
        Ok envelope
  end.

Definition pgLoadExecution (executionID : string) : pg ExecutionEnvelope :=
  query (fun _ db => loadAnchoredEnvelope (selectHead executionID db) executionID 0).
Definition pgLoadCheckpoint (executionID : string) (revision : N) : pg ExecutionEnvelope :=
  guard* revision != 0%N else ErrInvalidSnapshot in
  guard* (revision <=? max_bigint)%N else ErrExecutionCapability in
  query (fun _ db => loadAnchoredEnvelope (selectReached executionID revision db) executionID revision).

(** ** Commits *)
Definition validateForkPredecessor (revision : N) (next : ExecutionEnvelope) : pg unit :=
  if revision == 0%N then
    do* pg_lift (check (ValidateExecutionRolloverTransition None next)) in
    pg_lift (check (ValidateExecutionForkTransition None next))
  else
    let* previous := query (fun _ db =>
      match loadAnchoredEnvelope (selectStored (env_ExecutionID next) revision db) (env_ExecutionID next) revision with
      | Err err => Err (if errors_Is err ErrThreadNotFound then (ErrExecutionCorrupt : error) else err)
      | Ok previous => Ok previous
      end) in
    do* pg_lift (check (ValidateExecutionRolloverTransition (Some previous) next)) in
    pg_lift (check (ValidateExecutionForkTransition (Some (env_ExecutionID previous, env_Fork previous)) next)).

(** [SELECT revision, COALESCE(...) ... FOR UPDATE]. *)
Definition lockHead (id owner : string) (fence : N) : pg (option (N * bool)) :=
  query (fun now db => Ok ((fun row => (row_revision row, owned now owner fence row)) <$> db_executions db !! id)).

Definition pgCommitExecution (expectedRevision : N) (lease : ExecutionLease) (envelope : ExecutionEnvelope) : pg ExecutionEnvelope :=
  guard* (expectedRevision <? max_bigint)%N else ErrExecutionCapability in
  guard* (lse_Incarnation lease != 0%N) && (lse_Incarnation lease <=? max_bigint)%N && (lse_Owner lease != "")
         && (env_ExecutionID envelope == lse_ExecutionID lease) else ErrLeaseLost in
  do* pg_lift (check (validateDescriptor (env_Descriptor envelope))) in
  guard* prg_ExecutionPointer (env_Progress envelope) != "" else ErrInvalidSnapshot in
  transaction (
    let* head := lockHead (lse_ExecutionID lease) (lse_Owner lease) (lse_Incarnation lease) in
    let* revision := pg_lift (match head with Some (revision, true) => Ok revision | _ => Err ErrLeaseLost end) in
    guard* revision == expectedRevision else ErrConcurrencyConflict in
    do* validateForkPredecessor revision envelope in
    let* envelope := pg_lift (SealExecutionEnvelope (envelope <| env_Revision := (expectedRevision + 1)%N |>)) in
    let* payload := pg_lift (of_option (marshal envelope) json_error) in
    let* result := pg_lift (of_option (mjoin (unmarshal payload)) json_error) in
    do* exec (insertHistory (env_ExecutionID envelope) (env_Revision envelope) payload) in
    let* affected := statement (fun now db =>
      stored ← jsonb payload;
      Ok (updateWhere (env_ExecutionID envelope) (owned now (lse_Owner lease) (lse_Incarnation lease)) (fun row =>
            row <| row_revision := env_Revision envelope |>
                <| row_fork_lineage := if row_revision row == 0%N then jsonb_fork stored else row_fork_lineage row |>) db)) in
    guard* affected == 1%N else ErrLeaseLost in
    do* replaceDiscoveryProjection envelope in
    pg_ret result).

(** ** Leases *)
(** In nanoseconds: whole microseconds, rounded up. *)
Definition leaseTTLSeconds (ttl : Z) : Z :=
  let micros := (ttl / microsecond)%Z in
  ((if negb (ttl mod microsecond =? 0) then micros + 1 else micros) * microsecond)%Z.

Definition expired (now : Time) (row : execution_row) : bool :=
  match row_lease_expiry row with None => true | Some expiry => negb (After expiry now) end.

(** The fenced update: [None] where no row qualifies. *)
Definition acquireRow (id owner : string) (ttl : Z) (now : Time) (db : Database) : res (Database * option ExecutionLease) :=
  match db_executions db !! id with
  | Some row =>
      if expired now row then
        if (row_fence row =? max_bigint)%N then Err (ErrJoin ErrExecutionCapability numeric_out_of_range)
        else
          let lease := mkLease id owner (row_fence row + 1) (Add now (leaseTTLSeconds ttl)) in
          Ok (update_row id (fun row => row <| row_fence := lse_Incarnation lease |> <| row_lease_owner := Some owner |>
                                            <| row_lease_expiry := Some (lse_ExpiresAt lease) |>) db, Some lease)
      else Ok (db, None)
  | None => Ok (db, None)
  end.
(** The diagnostic read, which another session may have preceded. *)
Definition leaseHolder (id : string) : pg string := fun w =>
  query (fun _ db => match db_executions db !! id with
    | Some row => Ok (default (default "" (row_lease_owner row)) (pw_holder w (pw_tick w)))
    | None => Err ErrThreadNotFound
    end) w.

Definition pgAcquireExecution (executionID owner : string) (ttl : Z) : pg ExecutionLease :=
  guard* negb ((executionID == "") || (owner == "") || (ttl <=? 0)%Z) else ErrInvalidResumeToken in
  transaction (
    do* exec (fun db => Ok (insertExecution executionID default_row db).1) in
    let* acquired := statement (acquireRow executionID owner ttl) in
    match acquired with
    | Some lease => pg_ret lease
    | None =>
        let* holder := leaseHolder executionID in
        pg_lift (Err (if holder == owner then ErrThreadLeaseBusy else ErrLeaseHeld))
    end).

Definition leaseArguments (lease : ExecutionLease) : bool :=
  (lse_Incarnation lease != 0%N) && (lse_Incarnation lease <=? max_bigint)%N && (lse_ExecutionID lease != "") && (lse_Owner lease != "").

Definition pgRenewExecution (lease : ExecutionLease) (ttl : Z) : pg ExecutionLease :=
  guard* (0 <? ttl)%Z && leaseArguments lease else ErrLeaseLost in
  autocommit (
    let* renewed := statement (fun now db =>
      let expiry := Add now (leaseTTLSeconds ttl) in
      let '(db, affected) := updateWhere (lse_ExecutionID lease) (owned now (lse_Owner lease) (lse_Incarnation lease))
                               (fun row => row <| row_lease_expiry := Some expiry |>) db in
      Ok (db, if affected == 0%N then None else Some expiry)) in
    match renewed with
    | Some expiry => pg_ret (lease <| lse_ExpiresAt := expiry |>)
    | None => pg_lift (Err ErrLeaseLost)
    end).

Definition pgReleaseExecution (lease : ExecutionLease) : pg unit :=
  guard* leaseArguments lease else ErrLeaseLost in
  autocommit (
    let* affected := statement (fun _ db =>
      Ok (updateWhere (lse_ExecutionID lease) (fun row => (row_fence row == lse_Incarnation lease)
            && match row_lease_owner row with None => true | Some o => o == lse_Owner lease end)
          (fun row => row <| row_lease_owner := None |> <| row_lease_expiry := None |>) db)) in
    guard* affected != 0%N else ErrLeaseLost in pg_ret tt).

(** ** Rollovers *)
Definition pgLoadRollover (sourceID : string) : pg (option RolloverReceipt) :=
  let* payload := query (fun _ db => Ok (default "" (db_executions db !! sourceID ≫= row_rollover_outgoing))) in
  if no_bytes payload then pg_ret None
  else pg_lift (match unmarshal payload with
    | None => Err (ErrJoin ErrExecutionCorrupt json_error)
    | Some None => Err ErrExecutionCorrupt
    | Some (Some receipt) =>
        if negb (is_nil (validateReceipt receipt)) || (ref_ExecutionID (rol_Source (rcp_Lineage receipt)) != sourceID)
        then Err ErrExecutionCorrupt else Ok (Some receipt)
    end).

Definition lockRolloverSource (lease : ExecutionLease) (source : HistoricalCheckpointReference) : pg ExecutionEnvelope :=
  guard* negb ((lse_ExecutionID lease != ref_ExecutionID source) || (lse_Owner lease == "") || (lse_Incarnation lease == 0%N))
    else ErrLeaseLost in
  let* fence := pg_lift (bigint (lse_Incarnation lease)) in
  let* head := lockHead (ref_ExecutionID source) (lse_Owner lease) fence in
  let* revision := pg_lift (match head with Some (revision, true) => Ok revision | _ => Err ErrLeaseLost end) in
  guard* revision == ref_Revision source else ErrConcurrencyConflict in
  let* envelope := query (fun _ db => loadAnchoredEnvelope (selectHead (ref_ExecutionID source) db) (ref_ExecutionID source) (ref_Revision source)) in
  guard* env_Digest envelope == ref_Digest source else ErrExecutionRolloverConflict in
  pg_ret envelope.

Definition pgCommitRollover (lease : ExecutionLease) (source : HistoricalCheckpointReference) (target : ExecutionEnvelope) : pg RolloverReceipt :=
  transaction (
    let* current := lockRolloverSource lease source in
    let* publication := pg_lift (PrepareExecutionRolloverPublication current target lease) in
    let '(transferred, created, receipt) := publication in
    let* exists_ := query (fun _ db => Ok (stored_row db (env_ExecutionID created))) in
    guard* negb exists_ else ErrExecutionRolloverConflict in
    let* sourcePayload := pg_lift (of_option (marshal transferred) json_error) in
    let* targetPayload := pg_lift (of_option (marshal created) json_error) in
    let* receiptPayload := pg_lift (of_option (marshal receipt) json_error) in
    let* affected := statement (fun _ db =>
      stored ← jsonb receiptPayload;
      Ok (insertExecution (env_ExecutionID created) (default_row <| row_revision := 1%N |> <| row_rollover_incoming := Some stored |>) db)) in
    guard* affected == 1%N else ErrExecutionRolloverConflict in
    let* revision := pg_lift (bigint (env_Revision transferred)) in
    do* exec (fun db => db ← insertHistory (ref_ExecutionID source) revision sourcePayload db;
                        insertHistory (env_ExecutionID created) 1 targetPayload db) in
    let* affected := statement (fun now db =>
      stored ← jsonb receiptPayload;
      Ok (updateWhere (ref_ExecutionID source) (owned now (lse_Owner lease) (lse_Incarnation lease)) (fun row =>
            row <| row_revision := revision |> <| row_rollover_outgoing := Some stored |>) db)) in
    guard* affected == 1%N else ErrLeaseLost in
    do* replaceDiscoveryProjection transferred in
    do* replaceDiscoveryProjection created in
    pg_ret receipt).

(** ** Retention *)
Fixpoint loadProtected (id : string) (protected : list N) : pg unit :=
  match protected with
  | [] => pg_ret tt
  | revision :: rest =>
      let* argument := pg_lift (bigint revision) in
      do* query (fun _ db => loadAnchoredEnvelope (selectRevision id argument db) id revision) in
      loadProtected id rest
  end.
Definition validateRetentionDependencies (request : ExecutionRetentionRequest) : pg unit :=
  let id := rtr_ExecutionID request in
  let* source := query (fun _ db => loadAnchoredEnvelope (selectHead id db) id (rtr_Revision request)) in
  do* pg_lift (check (ValidateExecutionLifecycleBoundary source)) in
  guard* negb (rtp_DeletePayload (rtr_Policy request) && is_nil (env_Terminal source)) else ErrExecutionLifecycleUnsafe in
  loadProtected id (rtp_ProtectedRevisions (rtr_Policy request)).

Definition retentionSelection (request : ExecutionRetentionRequest) (revision : N) : res (N * list N) :=
  let policy := rtr_Policy request in
  if (rtp_KeepLast policy <? 0)%Z || (max_bigint <? revision)%N then Err ErrExecutionLifecycleUnsafe
  else
    let keep := Z.to_N (rtp_KeepLast policy) in
    let firstRetained := (if keep <? revision then revision - keep + 1 else 1)%N in
    let firstRetained := if negb (rtp_DeletePayload policy) && (revision <? firstRetained)%N then revision else firstRetained in
    if forallb (fun value => negb (max_bigint <? value)%N) (rtp_ProtectedRevisions policy)
    then Ok (firstRetained, rtp_ProtectedRevisions policy) else Err ErrExecutionLifecycleUnsafe.

(** The rows the statement deletes. *)
Definition removed (request : ExecutionRetentionRequest) (firstRetained : N) (protected : list N) (kv : N * string) : bool :=
  rtp_DeletePayload (rtr_Policy request) || ((kv.1 <? firstRetained)%N && negb (bool_decide (kv.1 ∈ protected))).
Definition deleteHistory (request : ExecutionRetentionRequest) (firstRetained : N) (protected : list N) (db : Database) : Database * (Z * Z) :=
  let id := rtr_ExecutionID request in
  let gone := List.filter (removed request firstRetained protected) (map_to_list (history_of db id)) in
  (db <| db_history := <[id := filter (fun kv => removed request firstRetained protected kv = false) (history_of db id)]> (db_history db) |>,
   (len gone, fold_right Z.add 0%Z (map (fun kv => byte_len kv.2) gone))).

Definition retainDiscoveryProjection (request : ExecutionRetentionRequest) : pg unit :=
  if negb (rtp_DeletePayload (rtr_Policy request)) then pg_ret tt else removeDiscoveryProjection (rtr_ExecutionID request) "".

Definition pgRetainExecution (request : ExecutionRetentionRequest) : pg ExecutionRetentionReceipt :=
  let id := rtr_ExecutionID request in
  let delete_ := rtp_DeletePayload (rtr_Policy request) in
  guard* negb ((max_bigint <? rtr_Revision request)%N || (rtp_KeepLast (rtr_Policy request) <? 0)%Z) else ErrExecutionLifecycleUnsafe in
  do* pg_lift (check (validateRetentionRequest request)) in
  transactionIf (
    let* head := query (fun now db => Ok ((fun row => (row_revision row, negb (expired now row), row_payload_deleted row)) <$> db_executions db !! id)) in
    let* head := pg_lift (of_option head ErrThreadNotFound) in
    let '(revision, leased, deleted) := head in
    guard* negb leased else ErrThreadLeaseBusy in
    guard* revision == rtr_Revision request else ErrConcurrencyConflict in
    if (deleted : bool) then
      guard* delete_ else ErrExecutionCheckpointUnavailable in pg_ret (false, mkRetentionReceipt id revision 0 0)
    else
      do* validateRetentionDependencies request in
      let* selection := pg_lift (retentionSelection request revision) in
      let* gone := statement (fun _ db => Ok (deleteHistory request selection.1 selection.2 db)) in
      do* (if delete_ then exec (fun db => Ok (update_row id (fun row => row <| row_payload_deleted := true |>) db)) else pg_ret tt) in
      do* retainDiscoveryProjection request in
      pg_ret (true, mkRetentionReceipt id revision gone.1 gone.2)).
End Columns.
