(* ===== verification/Discovery.v ===== *)
(** * Discovery of due work in PostgreSQL

    execution_due.go, durable_wait.go, activity_retry_discovery.go and
    execution_discovery.go of adapters/checkpointer/postgres: the pages of a polling cycle
    over the rows that commits leave for armed waits and pending retries, the validation of
    each row against its head, the registration of a wait, and the repair pass that rebuilds
    rows. Texts of errors and the collation of the server are parameters. *)

From S2P Require Import Prelude Go Sha256 Json Identity Schedule Activity Waits Contract Children Aggregate Store Postgres.

(** [<] on text in the collation of the database. *)
Class Collation := text_lt : string -> string -> bool.
Class LawfulCollation `{Collation} := {
  text_irreflexive : forall s, text_lt s s = false;
  text_transitive : forall s t u, text_lt s t = true -> text_lt t u = true -> text_lt s u = true;
  text_total : forall s t, s = t \/ text_lt s t = true \/ text_lt t s = true;
}.

Record DiscoveryCursor := mkCursor {
  cur_UpperDeadline : Time; cur_AfterDeadline : Time; cur_AfterExecutionID : string; cur_AfterIdentity : string;
  cur_ProfileDigest : string; cur_Kind : string;
}.
#[export] Instance DiscoveryCursor_eq_dec : EqDecision DiscoveryCursor.
Proof. solve_decision. Defined.
Definition empty_cursor : DiscoveryCursor := mkCursor time_zero time_zero "" "" "" "".
(** The cursor after the row of [c]. *)
Definition advance (position : DiscoveryCursor) (c : dueCandidate) : DiscoveryCursor :=
  mkCursor (cur_UpperDeadline position) (due_Deadline c) (due_ExecutionID c) (due_Identity c) (cur_ProfileDigest position) (cur_Kind position).

Record DiscoveryDiagnostic := mkDiagnostic {
  dgn_ExecutionID : string; dgn_Revision : N; dgn_Identity : string; dgn_Kind : string; dgn_Reason : string;
}.
Record ScanPage (A : Type) := mkPage { pag_Items : list A; pag_Cursor : DiscoveryCursor; pag_More : bool; pag_Diagnostics : list DiscoveryDiagnostic }.
Arguments mkPage {A}.
Arguments pag_Items {A}.
Arguments pag_Cursor {A}.
Arguments pag_More {A}.
Arguments pag_Diagnostics {A}.
Record DueWait := mkDueWait { dwt_Wait : DurableWaitRecord; dwt_Revision : N }.
Record DiscoveryRebuildPage := mkRebuild {
  rbl_AfterExecutionID : string; rbl_More : bool; rbl_Processed : Z; rbl_Diagnostics : list DiscoveryDiagnostic;
}.

Definition maxWaitScanHeads : Z := 500.

(** ** Rows in the order of the index *)
Definition due_rows (db : Database) : list dueCandidate :=
  map_to_list (db_due db) ≫= fun kv => map snd (map_to_list kv.2).

(** A value that the caller inspects instead of returning early. *)
Definition attempt {A} (m : pg A) : pg (res A) := fun w => let '(w, r) := m w in (w, Ok r).

(** A selection with an error for [pgx.ErrNoRows]. *)
Definition no_rows : error := ErrHost "no rows in result set".

Section Discovery.
Context `{Codecs} `{JsonColumns} `{Collation}.

(** [(d1, e1, i1) < (d2, e2, i2)] on rows of SQL. *)
Definition row_lt (d1 : Time) (e1 i1 : string) (d2 : Time) (e2 i2 : string) : bool :=
  Before d1 d2 || (TimeEqual d1 d2 && (text_lt e1 e2 || ((e1 == e2) && text_lt i1 i2))).
Definition candidate_lt (c1 c2 : dueCandidate) : bool :=
  row_lt (due_Deadline c1) (due_ExecutionID c1) (due_Identity c1) (due_Deadline c2) (due_ExecutionID c2) (due_Identity c2).
Definition candidate_le (c1 c2 : dueCandidate) : Prop := candidate_lt c2 c1 = false.
#[export] Instance candidate_le_dec : RelDecision candidate_le.
Proof. intros c1 c2. unfold candidate_le. apply _. Defined.
Definition text_le (s t : string) : Prop := text_lt t s = false.
#[export] Instance text_le_dec : RelDecision text_le.
Proof. intros s t. unfold text_le. apply _. Defined.

Definition after_cursor (cursor : DiscoveryCursor) (c : dueCandidate) : bool :=
  row_lt (cur_AfterDeadline cursor) (cur_AfterExecutionID cursor) (cur_AfterIdentity cursor) (due_Deadline c) (due_ExecutionID c) (due_Identity c).
(** The timestamp parameter has microseconds, as the columns have. *)
Definition selected (cursor : DiscoveryCursor) (c : dueCandidate) : bool :=
  (due_ProfileDigest c == cur_ProfileDigest cursor) && (due_Kind c == cur_Kind cursor)
  && negb (After (due_Deadline c) (Truncate (cur_UpperDeadline cursor) microsecond)).
Definition dueSelection (cursor : DiscoveryCursor) (limit : Z) (db : Database) : list dueCandidate :=
  let matching c := selected cursor c && (IsZero (cur_AfterDeadline cursor) || after_cursor cursor c) in
  take (Z.to_nat (limit + 1)) (merge_sort candidate_le (List.filter matching (due_rows db))).

(** ** A page *)
Context (error_text : error -> string) (waitProfile : option WaitCapabilityProfile).

Definition discoveryPosition (now : Time) (cursor : DiscoveryCursor) (limit : Z) (kind : string) : res DiscoveryCursor :=
  match waitProfile with
  | None => Err ErrExecutionCapability
  | Some profile =>
      if IsZero now || (limit <=? 0)%Z || (maxWaitScanHeads <? limit)%Z then Err ErrWaitInvalid
      else
        let digest := discoveryProfileDigest profile in
        if cursor == empty_cursor then Ok (mkCursor now time_zero "" "" digest kind)
        else if negb (TimeEqual (cur_UpperDeadline cursor) now) || (cur_ProfileDigest cursor != digest) || (cur_Kind cursor != kind)
                || IsZero (cur_AfterDeadline cursor) || (cur_AfterExecutionID cursor == "") || (cur_AfterIdentity cursor == "")
                || After (cur_AfterDeadline cursor) now
        then Err ErrDiscoveryCursor
        else Ok cursor
  end.

Definition unready (row : execution_row) : bool :=
  (0 <? row_revision row)%N && negb (row_payload_deleted row) && negb (row_discovery_projected row).
Definition readDueCandidates (cursor : DiscoveryCursor) (limit : Z) : pg (list dueCandidate) :=
  let* rebuild := query (fun _ db => Ok (existsb (fun kv => unready kv.2) (map_to_list (db_executions db)))) in
  guard* negb rebuild else ErrDiscoveryRebuildRequired in
  query (fun _ db => Ok (dueSelection cursor limit db)).

Definition discoveryRecordError (err : error) : bool :=
  errors_Is err ErrExecutionCorrupt || errors_Is err ErrInvalidSnapshot
  || errors_Is err ErrExecutionCheckpointUnavailable || errors_Is err ErrThreadNotFound
  || errors_Is err ErrExecutionImportInvalid || errors_Is err ErrDiscoveryStaleRevision
  || errors_Is err ErrDiscoveryProfileMismatch || errors_Is err ErrDiscoveryProjectionMismatch.

Definition checkCandidate (envelope : ExecutionEnvelope) (candidate : dueCandidate) : res ExecutionEnvelope :=
  if env_Revision envelope != due_Revision candidate then Err ErrDiscoveryStaleRevision
  else if match env_RuntimeProfile envelope with None => true | Some p => discoveryProfileDigest p != due_ProfileDigest candidate end
  then Err ErrDiscoveryProfileMismatch
  else match executionCandidates envelope with
  | Err err => Err (ErrJoin ErrExecutionCorrupt err)
  | Ok expected =>
      if existsb (fun current => (due_Identity current == due_Identity candidate) && (due_Kind current == due_Kind candidate)
                                 && TimeEqual (due_Deadline current) (due_Deadline candidate)) expected
      then Ok envelope else Err ErrDiscoveryProjectionMismatch
  end.
Definition validateDueCandidate (candidate : dueCandidate) : pg ExecutionEnvelope :=
  guard* due_Revision candidate != 0%N else ErrDiscoveryProjectionMismatch in
  let* envelope := pgLoadExecution (due_ExecutionID candidate) in
  pg_lift (checkCandidate envelope candidate).

Definition diagnose (c : dueCandidate) (err : error) : DiscoveryDiagnostic :=
  mkDiagnostic (due_ExecutionID c) (due_Revision c) (due_Identity c) (due_Kind c) (error_text err).
Fixpoint scanLoop {A} (visit : ExecutionEnvelope -> dueCandidate -> res A) (position : DiscoveryCursor) (candidates : list dueCandidate)
  : pg (DiscoveryCursor * list A * list DiscoveryDiagnostic) :=
  match candidates with
  | [] => pg_ret (position, [], [])
  | c :: rest =>
      let* validated := attempt (validateDueCandidate c) in
      do* pg_lift (match validated with Err err => if discoveryRecordError err then Ok tt else Err err | Ok _ => Ok tt end) in
      let* later := scanLoop visit (advance position c) rest in
      let '(position, items, diagnostics) := later in
      pg_ret (match (envelope ← validated; visit envelope c) with
              | Ok a => (position, a :: items, diagnostics)
              | Err err => (position, items, diagnose c err :: diagnostics)
              end)
  end.
Definition scanDueCandidates {A} (now : Time) (cursor : DiscoveryCursor) (limit : Z) (kind : string)
    (visit : ExecutionEnvelope -> dueCandidate -> res A) : pg (ScanPage A) :=
  let* position := pg_lift (discoveryPosition now cursor limit kind) in
  let* candidates := readDueCandidates position limit in
  let more := (limit <? len candidates)%Z in
  let* scanned := scanLoop visit position (if more then take (Z.to_nat limit) candidates else candidates) in
  let '(position, items, diagnostics) := scanned in
  pg_ret (mkPage items position more diagnostics).

(** ** Due waits and due retries *)
Definition dueWaitCandidates (envelope : ExecutionEnvelope) (now : Time) : res (list DueWait) :=
  if no_bytes (env_WaitsPayload envelope) then Ok []
  else
    records ← InspectExecutionWaits envelope;
    Ok (map (fun record => mkDueWait record (env_Revision envelope))
          (List.filter (fun record => (Some (wt_Profile record) == waitProfile) && (wt_State record == WaitArmed)
                                      && negb (Before now (wsp_Deadline (wt_Spec record)))) records)).
Definition visitWait (now : Time) (envelope : ExecutionEnvelope) (candidate : dueCandidate) : res DueWait :=
  waits ← dueWaitCandidates envelope now;
  of_option (List.find (fun wait => wt_Generation (dwt_Wait wait) == due_Identity candidate) waits) ErrExecutionCorrupt.
Definition DiscoverDueWaits (now : Time) (cursor : DiscoveryCursor) (scanLimit : Z) : pg (ScanPage DueWait) :=
  scanDueCandidates now cursor scanLimit "wait" (visitWait now).

Definition visitRetry (now : Time) (envelope : ExecutionEnvelope) (candidate : dueCandidate) : res PendingActivityRetry :=
  retries ← InspectPendingActivityRetries envelope;
  of_option (List.find (fun retry => (ptr_Identity retry == due_Identity candidate) && negb (Before now (ptr_Deadline retry))) retries) ErrExecutionCorrupt.
Definition DiscoverDueActivityRetries (now : Time) (cursor : DiscoveryCursor) (scanLimit : Z) : pg (ScanPage PendingActivityRetry) :=
  scanDueCandidates now cursor scanLimit "retry" (visitRetry now).

(** ** Registration *)
Definition NewWaitExecutionStore (profile : WaitCapabilityProfile) : res (option WaitCapabilityProfile) :=
  if is_nil (validateProfile profile) then Ok (Some profile) else Err ErrExecutionCapability.
Definition pgWaitCapabilities : WaitCapabilityProfile := default (mkProfile "" "" "" "" "" "" "") waitProfile.

Context `{codec_spec : JsonCodec DurableWaitSpec}.
Definition sameRegistration (record expected : DurableWaitRecord) (expectedSpec : string) : res unit :=
  actualSpec ← of_option (marshal (wt_Spec record)) json_error;
  if (wt_State record != WaitArmed) || (wt_ArmRevision record != wt_ArmRevision expected) || (wt_Node record != wt_Node expected)
     || (wt_Activation record != wt_Activation expected) || (wt_Profile record != wt_Profile expected) || (actualSpec != expectedSpec)
  then Err ErrWaitConflict else Ok tt.
Definition pgRegisterWait (expected : DurableWaitRecord) : pg unit :=
  guard* Some (wt_Profile expected) == waitProfile else ErrExecutionCapability in
  let* envelope := pgLoadExecution (wt_ExecutionID expected) in
  pg_lift (
    records ← InspectExecutionWaits envelope;
    expectedSpec ← of_option (marshal (wt_Spec expected)) json_error;
    match List.find (fun record => wt_Generation record == wt_Generation expected) records with
    | Some record => sameRegistration record expected expectedSpec
    | None => Err ErrWaitNotArmed
    end).

(** ** Repair *)
Definition rebuildLoadedHead (id : string) (revision : N) : pg (option DiscoveryDiagnostic) :=
  let* loaded := attempt (query (fun _ db => loadAnchoredEnvelope (selectHead id db) id 0)) in
  match (envelope ← loaded; match executionCandidates envelope with Ok _ => Ok envelope | Err err => Err (ErrJoin ErrExecutionCorrupt err) end) with
  | Ok envelope => do* replaceDiscoveryProjection envelope in pg_ret None
  | Err err =>
      guard* discoveryRecordError err else err in
      do* removeDiscoveryProjection id (error_text err) in
      pg_ret (Some (mkDiagnostic id revision "" "" (error_text err)))
  end.
Definition rebuildDiscoveryHead (id : string) : pg (option DiscoveryDiagnostic) :=
  transaction (
    let* head := query (fun _ db => match db_executions db !! id with Some row => Ok (row_revision row, row_payload_deleted row) | None => Err no_rows end) in
    let '(revision, deleted) := head in
    if (deleted : bool) then do* removeDiscoveryProjection id "" in pg_ret None else rebuildLoadedHead id revision).

Definition discoveryRebuildIDs (afterID : string) (limit : Z) : pg (list string) :=
  query (fun _ db =>
    let ids := map fst (List.filter (fun kv => text_lt afterID kv.1 && (0 <? row_revision kv.2)%N) (map_to_list (db_executions db))) in
    Ok (take (Z.to_nat (limit + 1)) (merge_sort text_le ids))).

(** Progress that is confirmed is returned beside a later error. *)
Fixpoint rebuildLoop (page : DiscoveryRebuildPage) (ids : list string) (w : postgres_world)
  : postgres_world * (DiscoveryRebuildPage * option error) :=
  match ids with
  | [] => (w, (page, None))
  | id :: rest =>
      match rebuildDiscoveryHead id w with
      | (w, Err err) => (w, (mkRebuild (rbl_AfterExecutionID page) true (rbl_Processed page) (rbl_Diagnostics page), Some err))
      | (w, Ok diagnostic) =>
          let diagnostics := rbl_Diagnostics page ++ match diagnostic with Some d => [d] | None => [] end in
          rebuildLoop (mkRebuild id (rbl_More page) (rbl_Processed page + 1) diagnostics) rest w
      end
  end.
Definition empty_rebuild : DiscoveryRebuildPage := mkRebuild "" false 0 [].
Definition RebuildDiscovery (afterID : string) (limit : Z) (w : postgres_world) : postgres_world * (DiscoveryRebuildPage * option error) :=
  if (limit <=? 0)%Z || (maxWaitScanHeads <? limit)%Z then (w, (empty_rebuild, Some (ErrWaitInvalid : error)))
  else match discoveryRebuildIDs afterID limit w with
  | (w, Err err) => (w, (empty_rebuild, Some err))
  | (w, Ok ids) =>
      let more := (limit <? len ids)%Z in
      rebuildLoop (mkRebuild afterID more 0 []) (if more then take (Z.to_nat limit) ids else ids) w
  end.
End Discovery.
