(* ===== verification/Session.v ===== *)
(** * Storage as the runtime sees it, and the session state

    execution_store.go states what an [ExecutionStore] promises; here that promise is a
    class, [StoreContract], and everything the runtime does with storage is proved against
    it. StoreWorld.v shows that the in-memory store satisfies it.

    [W] is the world outside the session: storage, clocks, random source and the contexts of
    calls. Operations of the world return its next state, so a commit whose acknowledgement
    is lost changes the world and reports an error.

    [executionCheckpointer] (execution_checkpointer.go) is the state of one owned session;
    its methods hold the mutex of the session, so each is one step of the monad [act]. *)

From S2P Require Import Prelude Go Sha256 Json Identity Schedule Activity Waits Contract Children Aggregate.

Class ExecutionStore (W : Type) := {
  store_load : W -> string -> W * res ExecutionEnvelope;
  store_commit : W -> N -> ExecutionLease -> ExecutionEnvelope -> W * res ExecutionEnvelope;
  store_acquire : W -> string -> string -> Z -> W * res ExecutionLease;
  store_release : W -> ExecutionLease -> W * option error;
  (** the committed head of an execution, which only commits change *)
  store_head : W -> string -> option ExecutionEnvelope;
  (** [ExecutionClock.Now], [ctx.Err] (with [context.Cause]) and the random source of retries *)
  clock_Now : W -> W * Time;
  ctx_Err : W -> option error;
  retry_random : W -> W * option N;
}.

Section Contract.
Context `{Codecs}.

(** The contract of execution_store.go. A commit that is acknowledged was made at the
    expected revision by the owner of the execution, and its envelope, sealed at the next
    revision, is the new head. A commit that is refused changed nothing, or was made and its
    acknowledgement lost. No other operation moves a head. *)
Class StoreContract (W : Type) `{ExecutionStore W} := {
  store_inv : W -> Prop;
  commit_accepted : forall w w' revision lease envelope committed, store_inv w ->
    store_commit w revision lease envelope = (w', Ok committed) ->
    env_ExecutionID envelope = lse_ExecutionID lease /\ default 0%N (env_Revision <$> store_head w (env_ExecutionID envelope)) = revision /\
    SealExecutionEnvelope (envelope <| env_Revision := (revision + 1)%N |>) = Ok committed /\
    store_head w' (env_ExecutionID envelope) = Some committed;
  commit_refused : forall w w' revision lease envelope err, store_inv w ->
    store_commit w revision lease envelope = (w', Err err) ->
    store_head w' (env_ExecutionID envelope) = store_head w (env_ExecutionID envelope) \/
    exists committed, SealExecutionEnvelope (envelope <| env_Revision := (revision + 1)%N |>) = Ok committed /\
      store_head w' (env_ExecutionID envelope) = Some committed;
  commit_inv : forall w revision lease envelope, store_inv w ->
    store_inv (store_commit w revision lease envelope).1;
  load_head : forall w w' id e, store_inv w -> store_load w id = (w', Ok e) -> store_head w id = Some e;
  load_frame : forall w id, store_inv w -> store_inv (store_load w id).1 /\ forall k, store_head (store_load w id).1 k = store_head w k;
  acquire_frame : forall w id owner ttl, store_inv w ->
    store_inv (store_acquire w id owner ttl).1 /\ forall k, store_head (store_acquire w id owner ttl).1 k = store_head w k;
  acquire_lease : forall w w' id owner ttl lease, store_inv w -> store_acquire w id owner ttl = (w', Ok lease) ->
    lse_ExecutionID lease = id /\ lse_Incarnation lease <> 0%N;
  release_frame : forall w lease, store_inv w ->
    store_inv (store_release w lease).1 /\ forall k, store_head (store_release w lease).1 k = store_head w k;
  now_frame : forall w, store_inv w -> store_inv (clock_Now w).1 /\ forall k, store_head (clock_Now w).1 k = store_head w k;
  random_frame : forall w, store_inv w -> store_inv (retry_random w).1 /\ forall k, store_head (retry_random w).1 k = store_head w k;
}.

(** The same promise of one store, with the invariant [inv]: a commit is held to it where the
    store can [carry] the envelope. A store keeps texts; an envelope that its encoding does not
    carry without loss is not there to be found again. *)
Record store_keeps {W : Type} `{ExecutionStore W} (inv : W -> Prop) (carry : N -> ExecutionEnvelope -> Prop) : Prop := {
  sk_accepted : forall w w' revision lease envelope committed, inv w -> carry revision envelope ->
    store_commit w revision lease envelope = (w', Ok committed) ->
    env_ExecutionID envelope = lse_ExecutionID lease /\ default 0%N (env_Revision <$> store_head w (env_ExecutionID envelope)) = revision /\
    SealExecutionEnvelope (envelope <| env_Revision := (revision + 1)%N |>) = Ok committed /\
    store_head w' (env_ExecutionID envelope) = Some committed;
  sk_refused : forall w w' revision lease envelope err, inv w -> carry revision envelope ->
    store_commit w revision lease envelope = (w', Err err) ->
    store_head w' (env_ExecutionID envelope) = store_head w (env_ExecutionID envelope) \/
    exists committed, SealExecutionEnvelope (envelope <| env_Revision := (revision + 1)%N |>) = Ok committed /\
      store_head w' (env_ExecutionID envelope) = Some committed;
  sk_commit : forall w revision lease envelope, inv w -> carry revision envelope -> inv (store_commit w revision lease envelope).1;
  sk_head : forall w w' id e, inv w -> store_load w id = (w', Ok e) -> store_head w id = Some e;
  sk_load : forall w id, inv w -> inv (store_load w id).1 /\ forall k, store_head (store_load w id).1 k = store_head w k;
  sk_acquire : forall w id owner ttl, inv w ->
    inv (store_acquire w id owner ttl).1 /\ forall k, store_head (store_acquire w id owner ttl).1 k = store_head w k;
  sk_lease : forall w w' id owner ttl lease, inv w -> store_acquire w id owner ttl = (w', Ok lease) ->
    lse_ExecutionID lease = id /\ lse_Incarnation lease <> 0%N;
  sk_release : forall w lease, inv w -> inv (store_release w lease).1 /\ forall k, store_head (store_release w lease).1 k = store_head w k;
  sk_now : forall w, inv w -> inv (clock_Now w).1 /\ forall k, store_head (clock_Now w).1 k = store_head w k;
  sk_random : forall w, inv w -> inv (retry_random w).1 /\ forall k, store_head (retry_random w).1 k = store_head w k;
}.

(** A store used by callers that commit only what it carries: the same store, whose commits
    pass [gate] first. Over a store that keeps its promise it keeps the contract, so what is
    proved of sessions holds of every use of the store in which the gate refuses nothing. *)
Record gated (W : Type) := mkGated { gt_world : W }.
#[global] Arguments mkGated {W} _.
#[global] Arguments gt_world {W} _.
Section Gated.
Context {W : Type} `{HS : ExecutionStore W} (gate : N -> ExecutionEnvelope -> bool).
Definition through {A} (f : W -> W * A) (g : gated W) : gated W * A := let '(w, a) := f (gt_world g) in (mkGated w, a).
Definition gated_store : ExecutionStore (gated W) := {|
  store_load g id := through (fun w => store_load w id) g;
  store_commit g revision lease envelope :=
    if gate revision envelope then through (fun w => store_commit w revision lease envelope) g else (g, Err json_error);
  store_acquire g id owner ttl := through (fun w => store_acquire w id owner ttl) g;
  store_release g lease := through (fun w => store_release w lease) g;
  store_head g id := store_head (gt_world g) id;
  clock_Now := through clock_Now;
  ctx_Err g := ctx_Err (gt_world g);
  retry_random := through retry_random;
|}.
Definition gated_contract (inv : W -> Prop) (carry : N -> ExecutionEnvelope -> Prop) :
  store_keeps inv carry -> (forall revision e, gate revision e = true -> carry revision e) -> @StoreContract (gated W) gated_store.
Proof.
  intros Hk Hg. refine (@Build_StoreContract _ gated_store (fun g => inv (gt_world g)) _ _ _ _ _ _ _ _ _ _); cbn; unfold through; cbn.
  - intros [w] w' revision lease envelope committed Hi. destruct (gate revision envelope) eqn:Eg; [|done]. cbn.
    destruct (store_commit w revision lease envelope) as [w1 out] eqn:Ec. intros [= <- ->]. by apply (sk_accepted _ _ Hk _ _ _ _ _ _ Hi (Hg _ _ Eg) Ec).
  - intros [w] w' revision lease envelope err Hi. destruct (gate revision envelope) eqn:Eg; [|intros [= <- _]; by left]. cbn.
    destruct (store_commit w revision lease envelope) as [w1 out] eqn:Ec. intros [= <- ->]. by apply (sk_refused _ _ Hk _ _ _ _ _ _ Hi (Hg _ _ Eg) Ec).
  - intros [w] revision lease envelope Hi. destruct (gate revision envelope) eqn:Eg; [|done]. cbn.
    pose proof (sk_commit _ _ Hk w revision lease envelope Hi (Hg _ _ Eg)). by destruct (store_commit w revision lease envelope).
  - intros [w] w' id e Hi. cbn. destruct (store_load w id) as [w1 out] eqn:El. intros [= _ ->]. by apply (sk_head _ _ Hk _ _ _ _ Hi El).
  - intros [w] id Hi. pose proof (sk_load _ _ Hk w id Hi). cbn. by destruct (store_load w id).
  - intros [w] id owner ttl Hi. pose proof (sk_acquire _ _ Hk w id owner ttl Hi). cbn. by destruct (store_acquire w id owner ttl).
  - intros [w] w' id owner ttl lease Hi. cbn. destruct (store_acquire w id owner ttl) as [w1 out] eqn:Ea. intros [= _ ->].
    by apply (sk_lease _ _ Hk _ _ _ _ _ _ Hi Ea).
  - intros [w] lease Hi. pose proof (sk_release _ _ Hk w lease Hi). cbn. by destruct (store_release w lease).
  - intros [w] Hi. pose proof (sk_now _ _ Hk w Hi). cbn. by destruct (clock_Now w).
  - intros [w] Hi. pose proof (sk_random _ _ Hk w Hi). cbn. by destruct (retry_random w).
Defined.
End Gated.

(** A store that carries every envelope keeps the contract itself. *)
Definition whole_contract {W : Type} `{ExecutionStore W} (inv : W -> Prop) : store_keeps inv (fun _ _ => True) -> StoreContract W.
Proof.
  intros Hk. refine {| store_inv := inv |}; destruct Hk as [H1 H2 H3 H4 H5 H6 H7 H8 H9 H10]; eauto.
Defined.
End Contract.

(** ** The session *)
Record executionCheckpointer (W : Type) := mkCheckpointer {
  ckp_world : W;
  ckp_lease : ExecutionLease;
  ckp_envelope : ExecutionEnvelope;
  ckp_stepRevision : N;
  ckp_persistenceFailed : bool;
  (** the cancellation signals that were closed, by group *)
  ckp_cancelled : list string;
}.
Arguments mkCheckpointer {W} _ _ _ _ _ _.
Arguments ckp_world {W} _.
Arguments ckp_lease {W} _.
Arguments ckp_envelope {W} _.
Arguments ckp_stepRevision {W} _.
Arguments ckp_persistenceFailed {W} _.
Arguments ckp_cancelled {W} _.
#[export] Instance eta_Checkpointer {W} : Eta (executionCheckpointer W) := fun c =>
  mkCheckpointer (ckp_world c) (ckp_lease c) (ckp_envelope c) (ckp_stepRevision c) (ckp_persistenceFailed c) (ckp_cancelled c).

(** ** The monad: session state is kept on error *)
Definition act (W A : Type) : Type := executionCheckpointer W -> executionCheckpointer W * res A.
Definition ret {W A} (a : A) : act W A := fun c => (c, Ok a).
Definition throw {W A} (e : error) : act W A := fun c => (c, Err e).
Definition lift {W A} (r : res A) : act W A := fun c => (c, r).
Definition bind {W A B} (m : act W A) (k : A -> act W B) : act W B := fun c =>
  match m c with (c', Ok a) => k a c' | (c', Err e) => (c', Err e) end.
Definition reading {W A} (f : W -> W * A) : act W A := fun c =>
  let '(w, a) := f (ckp_world c) in (c <| ckp_world := w |>, Ok a).
Definition asking {W A} (f : executionCheckpointer W -> A) : act W A := fun c => (c, Ok (f c)).
(** [if err := f(); err != nil { return wrap(err) }]. *)
Definition wrap_error {W A} (f : error -> error) (m : act W A) : act W A := fun c =>
  match m c with (c', Err e) => (c', Err (f e)) | r => r end.

Declare Scope act_scope.
Delimit Scope act_scope with act.
Notation "'let!' x ':=' m 'in' k" := (bind m (fun x => k)) (at level 200, x name, m at level 100, k at level 200) : act_scope.
Notation "'do!' m 'in' k" := (bind m (fun _ => k)) (at level 200, m at level 100, k at level 200) : act_scope.
Notation "'guard!' b 'else' e 'in' k" := (if (b : bool) then k else throw e) (at level 200, b at level 100, e at level 100, k at level 200) : act_scope.
Open Scope act_scope.

Lemma bind_inv {W A B} (m : act W A) (k : A -> act W B) c c' b : bind m k c = (c', Ok b) <->
  exists c1 a, m c = (c1, Ok a) /\ k a c1 = (c', Ok b).
Proof.
  unfold bind. destruct (m c) as [c1 [a|e]]; split.
  - intros E. by exists c1, a.
  - by intros (c2 & a2 & [= <- <-] & E).
  - done.
  - by intros (c2 & a2 & ? & _).
Qed.

(** ** Committing from a session *)
Section Commit.
Context {W : Type} `{ExecutionStore W}.

(** The commit shared by [persistActivity], [persistChildGroupsLocked],
    [prepareChildrenLocked] and [persistSnapshotLocked]: a failure marks the session. *)
Definition commit_target (target : ExecutionEnvelope) : act W ExecutionEnvelope := fun c =>
  match store_commit (ckp_world c) (env_Revision (ckp_envelope c)) (ckp_lease c) target with
  | (w, Ok committed) => (c <| ckp_world := w |> <| ckp_envelope := cloneExecutionEnvelope committed |>, Ok committed)
  | (w, Err err) => (c <| ckp_world := w |> <| ckp_persistenceFailed := true |>, Err err)
  end.
End Commit.
