(* ===== verification/ActivityCall.v ===== *)
(** * The activity boundary of a durable node

    activity.go and activity_observation.go with the fork gate of execution_fork_contract.go:
    [CallActivity] of a session. An attempt is committed as running before the host's
    dispatcher is called, its outcome is committed before the call returns, and a recorded
    outcome is replayed without calling the host. The mutex of the session is released while
    a host callback runs, so a callback is any change of the session state and a result.

    A panicking callback unwinds the node instead of returning and is not modelled; the
    record it leaves is the running one committed before the call. *)

From S2P Require Import Prelude Go Sha256 Json Identity Schedule Activity Waits Contract Children Aggregate Session.

Record ActivityInvocation := mkActivityInvocation { ain_Identity : string; ain_Input : string; ain_Attempt : Z }.
Record ActivityOutcome := mkOutcome {
  out_Payload : string; out_Origin : ActivityOrigin; out_Revision : N; out_Identity : string;
}.

Record ActivityRequest (W : Type) := mkActivityRequest {
  req_Key : string;
  req_Implementation : string;
  req_Input : string;
  req_Dispatch : ActivityInvocation -> act W string;
  req_Reconcile : option (ActivityRecord -> act W string);
  req_Retry : ActivityRetryPolicy;
  req_Classify : option (error -> ActivityFailureDecision);
}.
Arguments mkActivityRequest {W} _ _ _ _ _ _ _.
Arguments req_Key {W} _.
Arguments req_Implementation {W} _.
Arguments req_Input {W} _.
Arguments req_Dispatch {W} _.
Arguments req_Reconcile {W} _.
Arguments req_Retry {W} _.
Arguments req_Classify {W} _.
#[export] Instance eta_ActivityRequest {W} : Eta (ActivityRequest W) := fun r =>
  mkActivityRequest (req_Key r) (req_Implementation r) (req_Input r) (req_Dispatch r) (req_Reconcile r) (req_Retry r) (req_Classify r).

(** What [callActivity] does next once it holds no lock. *)
Inductive begun :=
| Replayed (outcome : ActivityOutcome)
| Dispatching (invocation : ActivityInvocation)
| Reconciling (record : ActivityRecord).

Record ForkExecutionPolicy (W : Type) := mkForkPolicy {
  fpo_Label : string;
  fpo_Mode : ForkActivityMode;
  fpo_Authorize : option (ForkLineage -> W -> W * res unit);
  fpo_FakeActivity : option (ActivityInvocation -> act W string);
  fpo_FakeChild : option (ChildInvocation -> act W ChildResult);
}.
Arguments fpo_Label {W} _.
Arguments fpo_Mode {W} _.
Arguments fpo_Authorize {W} _.
Arguments fpo_FakeActivity {W} _.
Arguments fpo_FakeChild {W} _.

Definition activityJournalCommitError (err : error) : error :=
  if existsb (errors_Is err)
       [ErrConcurrencyConflict; ErrLeaseLost; ErrExecutionCorrupt; ErrInvalidSnapshot; ErrExecutionCapability;
        ErrExecutionIncompatible; ContextCanceled; ContextDeadlineExceeded]
  then err else ErrJoin ErrActivityJournalUnavailable err.

Section ActivityCall.
Context {W : Type} `{Codecs} `{ExecutionStore W}.
(** [Error()] of an error value, the fork configuration of the session. *)
Context (error_text : error -> string) (forkPolicy : option (ForkExecutionPolicy W)) (forkMode : ForkActivityMode).

Definition readJournal : act W (gmap string ActivityRecord) := fun c => (c, executionActivityJournal (ckp_envelope c)).

Definition persistActivity (journal : gmap string ActivityRecord) (record : ActivityRecord) : act W (gmap string ActivityRecord) :=
  do! lift (check (validateActivityRecord record)) in
  let journal := <[rec_Identity record := record]> journal in
  let! payload := lift (of_option (marshal journal) json_error) in
  let! envelope := asking ckp_envelope in
  do! wrap_error activityJournalCommitError (commit_target ((cloneExecutionEnvelope envelope) <| env_JournalPayload := payload |>)) in
  ret journal.

(** ** Forks *)
Definition authorizeForkDispatch : act W unit :=
  if (forkMode != ForkLive) then ret tt
  else
    let! lineage := asking (fun c => env_Fork (ckp_envelope c)) in
    match lineage, forkPolicy with
    | Some lineage, Some policy =>
        match fpo_Authorize policy with
        | Some authorize =>
            if (fpo_Mode policy != frk_Mode lineage) || (fpo_Label policy != frk_PolicyLabel lineage) then throw ErrForkPolicy
            else
              do! (fun c => (c, check (ctx_Err (ckp_world c)))) in
              do! wrap_error (ErrJoin ErrForkPolicy) (let! authorized := reading (authorize lineage) in lift authorized) in
              (fun c => (c, check (ctx_Err (ckp_world c))))
        | None => throw ErrForkPolicy
        end
    | _, _ => throw ErrForkPolicy
    end.

Definition forkActivityRequest (request : ActivityRequest W) : res (ActivityRequest W) :=
  if (forkMode == ForkLive) then
    Ok (request <| req_Dispatch := (fun invocation => do! authorizeForkDispatch in req_Dispatch request invocation) |>
          <| req_Reconcile := (fun reconcile record => do! authorizeForkDispatch in reconcile record) <$> req_Reconcile request |>)
  else if (forkMode != ForkFake) then Ok request
  else match forkPolicy ≫= fpo_FakeActivity with
  | None => Err ErrForkPolicy
  | Some fake => Ok (request <| req_Dispatch := fake |> <| req_Reconcile := None |> <| req_Classify := None |>)
  end.

Definition activityDispatchOrigin : ActivityOrigin :=
  if (forkMode == ForkFake) then ActivitySimulated else ActivityLive.

(** ** Recovery of an attempt whose outcome is not recorded *)
Definition recoverActivityLocked (request : ActivityRequest W) (journal : gmap string ActivityRecord) (record : ActivityRecord)
  : act W begun := fun c =>
  let running := rec_State record == ActivityRunning in
  let sameIncarnation := match last (rec_Attempts record) with
                         | Some attempt => att_Incarnation attempt == lse_Incarnation (ckp_lease c)
                         | None => false
                         end in
  if running && (len (rec_Attempts record) == 0%Z) then (c, Err ErrActivityConflict)
  else if running && sameIncarnation then (c, Err ErrActivityBusy)
  else
    (let record := if running then abandonActivity record else record in
     do! (if running then persistActivity journal record else ret journal) in
     match req_Reconcile request with
     | None => throw ErrActivityUnknown
     | Some _ => ret (Reconciling record)
     end) c.

(** ** The first critical section of [callActivity] *)
Definition startAttempt (request : ActivityRequest W) (journal : gmap string ActivityRecord) (record : ActivityRecord) : act W begun :=
  let! incarnation := asking (fun c => lse_Incarnation (ckp_lease c)) in
  let! now := reading clock_Now in
  let record := startActivityAttempt record incarnation now in
  do! persistActivity journal record in
  ret (Dispatching (mkActivityInvocation (rec_Identity record) (req_Input request) (len (rec_Attempts record)))).

Definition activityConflict (request : ActivityRequest W) (record : ActivityRecord) : bool :=
  (rec_InputDigest record != sha256_hex (req_Input request)) || (rec_Implementation record != req_Implementation request)
  || (rec_Retry record != req_Retry request).

Definition beginActivity (request : ActivityRequest W) : act W begun :=
  let! envelope := asking ckp_envelope in
  let identity := boundActivityIdentity envelope (req_Key request) in
  let! journal := readJournal in
  match journal !! identity with
  | Some record =>
      if activityConflict request record then throw ErrActivityConflict
      else if rec_State record == ActivityCompleted then
        ret (Replayed (mkOutcome (rec_Outcome record) ActivityReplayed (env_Revision envelope) (rec_Identity record)))
      else if (rec_State record == ActivityRunning) || (rec_State record == ActivityUnknown) then
        recoverActivityLocked request journal record
      else
        let! now := reading clock_Now in
        do! lift (check (preparedActivityError record (env_Revision envelope) now)) in
        startAttempt request journal record
  | None =>
      let record := newActivityRecord identity (env_ExecutionID envelope) (prg_ExecutionPointer (env_Progress envelope))
                      (env_Activation envelope) (req_Key request) (sha256_hex (req_Input request)) (req_Implementation request)
                      (req_Retry request) in
      let! journal := persistActivity journal record in
      startAttempt request journal record
  end.

(** ** The second critical section: the outcome of a dispatch or of a reconciliation

    The random source is read whenever a failure is recorded; the schedule uses the reading
    only where the policy has jitter. *)
Definition finishActivityLocked (identity : string) (result : res string) (origin : ActivityOrigin)
    (classification : ActivityFailureDecision) : act W ActivityOutcome :=
  let! journal := readJournal in
  let! revision := asking (fun c => env_Revision (ckp_envelope c)) in
  match journal !! identity with
  | None => throw ErrActivityConflict
  | Some record =>
      if len (rec_Attempts record) == 0%Z then throw ErrActivityConflict
      else if rec_State record == ActivityCompleted then
        match result with
        | Ok payload => if rec_Outcome record != payload then throw ErrActivityConflict
                        else ret (mkOutcome (rec_Outcome record) ActivityReplayed revision identity)
        | Err _ => throw ErrActivityConflict
        end
      else
        let! record :=
          match result with
          | Err dispatchErr =>
              let! now := reading clock_Now in
              let! random := reading retry_random in
              ret (recordActivityFailure record (error_text dispatchErr) classification now random)
          | Ok payload =>
              if (origin != ActivityReconciled) && (origin != ActivityManual) then
                let! now := reading clock_Now in ret (completeActivity record payload origin now)
              else ret (completeActivity record payload origin time_zero)
          end in
        do! wrap_error (ErrJoin ErrActivityUnknown) (persistActivity journal record) in
        let! revision := asking (fun c => env_Revision (ckp_envelope c)) in
        match result with
        | Err dispatchErr => throw (ErrJoin (activityRecordError record revision) dispatchErr)
        | Ok _ => ret (mkOutcome (rec_Outcome record) origin revision identity)
        end
  end.

(** ** The whole call *)
Definition no_decision_class : ActivityFailureDecision := mkFailureDecision NoClass time_zero.
Definition classifyObservedActivityFailure (request : ActivityRequest W) (result : res string) : ActivityFailureDecision :=
  match result with
  | Ok _ => no_decision_class
  | Err dispatchErr => (classifyActivityFailure (req_Classify request) dispatchErr).1
  end.

(** The result of a host callback, its error as a value. *)
Definition attempt_result {A} (m : act W A) : act W (res A) := fun c => let '(c', r) := m c in (c', Ok r).

Definition callActivity (request : ActivityRequest W) : act W ActivityOutcome :=
  let! request := lift (forkActivityRequest request) in
  let! next := beginActivity request in
  match next with
  | Replayed outcome => ret outcome
  | Dispatching invocation =>
      let! result := attempt_result (req_Dispatch request invocation) in
      finishActivityLocked (ain_Identity invocation) result activityDispatchOrigin (classifyObservedActivityFailure request result)
  | Reconciling record =>
      match req_Reconcile request with
      | None => throw ErrActivityUnknown
      | Some reconcile =>
          let! payload := wrap_error (ErrJoin ErrActivityUnknown) (reconcile record) in
          finishActivityLocked (rec_Identity record) (Ok payload) ActivityReconciled no_decision_class
      end
  end.

(** [CallActivity]: the checks made before the session is entered. [callback] is whether the
    context belongs to a host callback, [durable] whether the node runs in a session. *)
Definition CallActivity (callback durable : bool) (request : ActivityRequest W) : act W ActivityOutcome :=
  if callback then throw ErrExecutionCapability
  else if negb durable || (req_Key request == "") || (req_Implementation request == "")
       || negb (validRuntimeText [req_Key request; req_Implementation request])
  then throw ErrExecutionCapability
  else
    do! lift (check (validateActivityRetry (req_Retry request))) in
    callActivity request.
End ActivityCall.
