(* ===== verification/ActivityCallInv.v ===== *)
(** * Write-ahead, replay and recovery of activities

    What [callActivity] guarantees on any store that keeps its contract: the host's
    dispatcher runs only after its attempt is the committed head of the execution; a recorded
    outcome is replayed without touching the host or the store; an attempt whose outcome is
    not recorded is never dispatched again but reconciled; and a result is returned only
    after it is the committed head. *)

From S2P Require Import Prelude Go Sha256 Json Identity Schedule Activity Waits Contract Children Wire Migration Integrity Aggregate Session ActivityCall.

#[local] Arguments validRuntimeText : simpl never.
#[local] Arguments sha256_hex : simpl never.
#[local] Arguments validateActivityRecord : simpl never.

Section ActivityCallInv.
Context {W : Type} `{HC : Codecs} `{HS : ExecutionStore W} `{HK : !StoreContract W}.
Context (error_text : error -> string) (forkPolicy : option (ForkExecutionPolicy W)) (forkMode : ForkActivityMode).

(** The session holds exactly the committed head of its execution. *)
Record synced (c : executionCheckpointer W) : Prop := mk_synced {
  sy_inv : store_inv (ckp_world c);
  sy_head : store_head (ckp_world c) (env_ExecutionID (ckp_envelope c)) = Some (ckp_envelope c);
}.

(** The head of the session's execution has journal payload [payload] encoding [journal]. *)
Definition journaled (c : executionCheckpointer W) (journal : gmap string ActivityRecord) : Prop :=
  exists payload, marshal journal = Some payload /\ env_JournalPayload (ckp_envelope c) = payload.

(** What a successful commit of the session changes. *)
Lemma commit_target_Ok target c c' e : store_inv (ckp_world c) -> commit_target target c = (c', Ok e) ->
  synced c' /\ ckp_envelope c' = e /\ e = target <| env_Revision := (env_Revision (ckp_envelope c) + 1)%N |> <| env_Digest := env_Digest e |> /\
  ckp_lease c' = ckp_lease c /\ ckp_stepRevision c' = ckp_stepRevision c /\ ckp_persistenceFailed c' = ckp_persistenceFailed c.
Proof.
  intros Hinv. unfold commit_target.
  destruct (store_commit (ckp_world c) (env_Revision (ckp_envelope c)) (ckp_lease c) target) as [w [x|x]] eqn:E; [|done].
  intros [= Ec Ee]. subst x. pose proof (commit_inv _ (env_Revision (ckp_envelope c)) (ckp_lease c) target Hinv) as Hinv'. rewrite E in Hinv'.
  apply commit_accepted in E as (_ & _ & Hseal & Hh); [|done]. pose proof (seal_Ok _ _ Hseal) as (b & _ & Es & _).
  assert (Ei : env_ExecutionID e = env_ExecutionID target) by (rewrite Es; by destruct target).
  subst c'. split_and!; try done.
  - split; [done|]. simpl. unfold cloneExecutionEnvelope. rewrite Ei. done.
  - rewrite Es. by destruct target.
Qed.

(** Only the journal, the revision and the digest differ. *)
Definition journal_update (e e' : ExecutionEnvelope) : Prop :=
  e' = e <| env_JournalPayload := env_JournalPayload e' |> <| env_Revision := (env_Revision e + 1)%N |> <| env_Digest := env_Digest e' |>.

Lemma persistActivity_Ok journal record c c' j : synced c -> persistActivity journal record c = (c', Ok j) ->
  validateActivityRecord record = None /\ j = <[rec_Identity record := record]> journal /\
  synced c' /\ journaled c' j /\ journal_update (ckp_envelope c) (ckp_envelope c') /\ ckp_lease c' = ckp_lease c.
Proof.
  intros Hs Hp. unfold persistActivity in Hp. apply bind_inv in Hp as (c1 & [] & Hv & Hp). injection Hv as <- Hv. apply check_Ok in Hv.
  cbv zeta in Hp. apply bind_inv in Hp as (c2 & payload & Hm & Hp). injection Hm as <- Hm.
  apply bind_inv in Hp as (c3 & e & He & Hp). injection He as <- <-. apply bind_inv in Hp as (c4 & e' & Hc & Hp). injection Hp as <- <-.
  unfold wrap_error in Hc. destruct (commit_target _ c) as [c5 [x|x]] eqn:Ec; [|done]. injection Hc as -> ->.
  apply commit_target_Ok in Ec as (Hs' & Ee & Hx & Hl & _ & _); [|apply Hs].
  unfold of_option in Hm. destruct (marshal _) as [p|] eqn:Em; [|done]. injection Hm as ->. split_and!; try done.
  - exists payload. split; [done|]. by rewrite Ee, Hx.
  - unfold journal_update. rewrite Ee. rewrite Hx at 1. by rewrite Hx.
Qed.

Lemma decoded_entry payload journal id record : decodeActivityJournal payload = Ok journal -> journal !! id = Some record ->
  rec_Identity record = id /\ validateActivityRecord record = None.
Proof.
  unfold decodeActivityJournal. intros Hd Hr. destruct (no_bytes _); [injection Hd as <-; by rewrite lookup_empty in Hr|].
  destruct (unmarshal _) as [[x|]|]; [|done|done]. guard_in Hd; [|done]. injection Hd as ->.
  pose proof (map_all_lookup _ _ _ _ Hg Hr) as Hi. apply andb_true_iff in Hi as [Hi Hv].
  apply bool_decide_eq_true in Hi. by apply is_nil_true in Hv.
Qed.
Lemma journal_entry e journal id record : executionActivityJournal e = Ok journal -> journal !! id = Some record ->
  rec_Identity record = id /\ validateActivityRecord record = None /\ validJournalRecord e record = true.
Proof.
  unfold executionActivityJournal. intros Hj Hr. apply bind_Ok in Hj as (j & Hd & Hj). guard_in Hj; [done|].
  unfold of_error in Hj. destruct (validateActivityReferences e j); [done|]. injection Hj as ->. apply negb_false_iff in Hg.
  pose proof (map_all_lookup _ _ _ _ Hg Hr) as Hv. destruct (decoded_entry _ _ _ _ Hd Hr). by split_and!.
Qed.

Lemma synced_reading {A} (f : W -> W * A) c : synced c -> (forall w, store_inv w -> store_inv (f w).1 /\ forall k, store_head (f w).1 k = store_head w k) ->
  synced (c <| ckp_world := (f (ckp_world c)).1 |>).
Proof. intros [Hi Hh] Hf. destruct (Hf _ Hi) as [Hi' Hh']. split; [done|]. simpl. by rewrite Hh'. Qed.

(** An attempt as recorded in the committed head when the host is called. *)
Record write_ahead (request : ActivityRequest W) (c : executionCheckpointer W) (invocation : ActivityInvocation)
    (c1 : executionCheckpointer W) : Prop := mk_write_ahead {
  wa_synced : synced c1;
  wa_identity : ain_Identity invocation = boundActivityIdentity (ckp_envelope c) (req_Key request);
  wa_input : ain_Input invocation = req_Input request;
  wa_revision : (env_Revision (ckp_envelope c) < env_Revision (ckp_envelope c1))%N;
  wa_record : exists journal record attempt, journaled c1 journal /\ journal !! ain_Identity invocation = Some record /\
    validateActivityRecord record = None /\ rec_State record = ActivityRunning /\
    rec_InputDigest record = sha256_hex (req_Input request) /\ rec_Implementation record = req_Implementation request /\
    len (rec_Attempts record) = ain_Attempt invocation /\ last (rec_Attempts record) = Some attempt /\
    att_State attempt = ActivityRunning /\ att_Incarnation attempt = lse_Incarnation (ckp_lease c);
}.

Lemma startAttempt_Ok request journal record c c1 b : synced c -> startAttempt request journal record c = (c1, Ok b) -> exists now,
  let record' := startActivityAttempt record (lse_Incarnation (ckp_lease c)) now in
  b = Dispatching (mkActivityInvocation (rec_Identity record) (req_Input request) (len (rec_Attempts record'))) /\
  validateActivityRecord record' = None /\ synced c1 /\ journaled c1 (<[rec_Identity record := record']> journal) /\
  journal_update (ckp_envelope c) (ckp_envelope c1).
Proof.
  intros Hs Hst. unfold startAttempt in Hst. apply bind_inv in Hst as (c2 & inc & Hi & Hst). injection Hi as <- <-.
  apply bind_inv in Hst as (c2 & now & Hn & Hst). exists now. unfold reading in Hn. pose proof (synced_reading clock_Now c Hs now_frame) as Hs2.
  destruct (clock_Now (ckp_world c)) as [w t]. injection Hn as Ec2 ->. simpl in Hs2. rewrite Ec2 in Hs2. cbv zeta in Hst.
  apply bind_inv in Hst as (c3 & j & Hp & Hst). injection Hst as <- <-.
  apply persistActivity_Ok in Hp as (Hv & -> & Hs3 & Hj & Hu & _); [|done]. subst c2. by split_and!.
Qed.

Lemma startActivityAttempt_last record incarnation now : exists attempt,
  last (rec_Attempts (startActivityAttempt record incarnation now)) = Some attempt /\
  att_State attempt = ActivityRunning /\ att_Incarnation attempt = incarnation.
Proof. eexists. split; [apply last_snoc|done]. Qed.

(** The committed head records [outcome] as the completed activity. *)
Definition outcome_recorded (c : executionCheckpointer W) (outcome : ActivityOutcome) : Prop :=
  exists journal record, (executionActivityJournal (ckp_envelope c) = Ok journal \/ journaled c journal) /\
    journal !! out_Identity outcome = Some record /\ rec_State record = ActivityCompleted /\
    rec_Outcome record = out_Payload outcome /\ out_Revision outcome = env_Revision (ckp_envelope c).

Lemma recover_Ok request journal record c c1 b : synced c -> rec_State record = ActivityRunning \/ rec_State record = ActivityUnknown ->
  recoverActivityLocked request journal record c = (c1, Ok b) ->
  exists record', b = Reconciling record' /\ synced c1 /\ rec_Identity record' = rec_Identity record /\ rec_State record' = ActivityUnknown.
Proof.
  intros Hs Hst Hb. unfold recoverActivityLocked in Hb. destruct (_ && _); [done|]. destruct (_ && _); [done|].
  apply bind_inv in Hb as (c2 & j & Hp & Hb). destruct (req_Reconcile request); [|done]. injection Hb as <- <-.
  eexists. split; [done|]. case_bool_decide as E.
  - by apply persistActivity_Ok in Hp as (_ & _ & Hs2 & _).
  - injection Hp as <- <-. split_and!; [done|done|]. by destruct Hst.
Qed.

(** The three ways a call goes on, and what each has committed. *)
Lemma begin_cases request c c1 b : synced c -> beginActivity request c = (c1, Ok b) ->
  match b with
  | Replayed outcome => c1 = c /\ out_Identity outcome = boundActivityIdentity (ckp_envelope c) (req_Key request) /\ outcome_recorded c outcome
  | Dispatching invocation => write_ahead request c invocation c1
  | Reconciling record => synced c1 /\ rec_Identity record = boundActivityIdentity (ckp_envelope c) (req_Key request) /\
                          rec_State record = ActivityUnknown
  end.
Proof.
  intros Hs Hb. unfold beginActivity in Hb. apply bind_inv in Hb as (c2 & e & He & Hb). injection He as <- <-. cbv zeta in Hb.
  set (identity := boundActivityIdentity (ckp_envelope c) (req_Key request)) in *.
  apply bind_inv in Hb as (c2 & journal & Hj & Hb). injection Hj as <- Hj.
  destruct (journal !! identity) as [record|] eqn:Hr.
  - destruct (journal_entry _ _ _ _ Hj Hr) as (Hid & _ & _). destruct (activityConflict request record) eqn:Hconf; [done|].
    case_bool_decide as Hdone.
    { injection Hb as <- <-. split_and!; [done|done|]. exists journal, record. split_and!; try done; [by left|]. simpl. by rewrite Hid. }
    destruct (_ || _) eqn:Hst in Hb.
    { apply orb_true_iff in Hst. rewrite !bool_decide_eq_true in Hst.
      destruct (recover_Ok _ _ _ _ _ _ Hs Hst Hb) as (record' & -> & Hs1 & Hi & Hu). by rewrite Hi. }
    apply bind_inv in Hb as (c2 & now & Hn & Hb). unfold reading in Hn.
    pose proof (synced_reading clock_Now c Hs now_frame) as Hs2. destruct (clock_Now (ckp_world c)) as [w t].
    injection Hn as Ec2 ->. simpl in Hs2. rewrite Ec2 in Hs2. apply bind_inv in Hb as (c3 & [] & Hready & Hb). injection Hready as <- Hready.
    apply startAttempt_Ok in Hb as (now' & -> & Hv & Hs1 & Hj1 & Hu); [|done]. cbv zeta in *.
    unfold activityConflict in Hconf. rewrite !orb_false_iff, !negb_false_iff, !bool_decide_eq_true in Hconf. destruct Hconf as [[Hdig Himpl] _].
    subst c2. simpl in Hu, Hv, Hj1.
    destruct (startActivityAttempt_last record (lse_Incarnation (ckp_lease c)) now') as (attempt & Hlast & Hast & Hinc).
    split; try done.
    + rewrite Hu. simpl. lia.
    + eexists _, _, attempt. split_and!; [exact Hj1| |exact Hv|..]; try done. simpl. by rewrite lookup_insert_eq.
  - apply bind_inv in Hb as (c2 & j & Hp & Hb). apply persistActivity_Ok in Hp as (_ & -> & Hs2 & _ & Hu2 & Hl2); [|done].
    apply startAttempt_Ok in Hb as (now' & -> & Hv & Hs1 & Hj1 & Hu); [|done]. cbv zeta in *. rewrite Hl2 in *.
    set (record := newActivityRecord identity _ _ _ _ _ _ _) in *.
    destruct (startActivityAttempt_last record (lse_Incarnation (ckp_lease c)) now') as (attempt & Hlast & Hast & Hinc).
    split; try done.
    + rewrite Hu, Hu2. simpl. lia.
    + do 3 eexists. split_and!; [exact Hj1| |exact Hv|..]; try done. simpl. by rewrite lookup_insert_eq.
Qed.

Lemma begin_dispatch request d c : beginActivity (request <| req_Dispatch := d |>) c = beginActivity request c.
Proof. reflexivity. Qed.

(** The request as a fork makes it: its dispatcher replaced. *)
Lemma forked_dispatch request : exists fork, forall d, forkActivityRequest forkPolicy forkMode (request <| req_Dispatch := d |>) =
  match fork with
  | None => Err ErrForkPolicy
  | Some (effective, around) => Ok (effective <| req_Dispatch := around d |>)
  end /\
  forall effective around, fork = Some (effective, around) ->
    req_Key effective = req_Key request /\ req_Input effective = req_Input request /\
    req_Implementation effective = req_Implementation request /\ req_Retry effective = req_Retry request /\
    ((around = fun d => d) \/ (exists fake, around = fun _ => fake) \/
     (forkMode = ForkLive /\ around = fun d invocation => do! authorizeForkDispatch forkPolicy forkMode in d invocation)).
Proof.
  unfold forkActivityRequest. destruct (decide (forkMode = ForkLive)) as [Hl|Hl].
  { exists (Some (request <| req_Reconcile := (fun reconcile record => do! authorizeForkDispatch forkPolicy forkMode in reconcile record) <$> req_Reconcile request |>,
      fun d invocation => do! authorizeForkDispatch forkPolicy forkMode in d invocation)).
    intros d. rewrite (bool_decide_eq_true_2 _ Hl). split; [done|]. intros effective around [= <- <-]. split_and!; try done. by right; right. }
  destruct (decide (forkMode = ForkFake)) as [Hf|Hf].
  - destruct (forkPolicy ≫= fpo_FakeActivity) as [fake|]; [|exists None; intros d; by rewrite (bool_decide_eq_false_2 _ Hl), (bool_decide_eq_true_2 _ Hf)].
    exists (Some (request <| req_Reconcile := None |> <| req_Classify := None |>, fun _ => fake)). intros d.
    rewrite (bool_decide_eq_false_2 _ Hl), (bool_decide_eq_true_2 _ Hf). split; [done|]. intros effective around [= <- <-]. split_and!; try done.
    right. left. by exists fake.
  - exists (Some (request, fun d => d)). intros d. rewrite (bool_decide_eq_false_2 _ Hl), (bool_decide_eq_false_2 _ Hf). split; [done|].
    intros effective around [= <- <-]. split_and!; try done. by left.
Qed.

(** The gate of a live fork moves no head of the store. *)
Definition gate_frames : Prop := forall policy authorize lineage w, forkMode = ForkLive -> forkPolicy = Some policy ->
  fpo_Authorize policy = Some authorize -> store_inv w ->
  store_inv (authorize lineage w).1 /\ forall k, store_head (authorize lineage w).1 k = store_head w k.
Lemma authorize_frames c c' out : gate_frames -> forkMode = ForkLive -> store_inv (ckp_world c) -> authorizeForkDispatch forkPolicy forkMode c = (c', out) ->
  exists w, c' = c <| ckp_world := w |> /\ store_inv w /\ forall k, store_head w k = store_head (ckp_world c) k.
Proof.
  intros Hg Hl Hi. assert (Hsame : c = c <| ckp_world := ckp_world c |>) by by destruct c. unfold authorizeForkDispatch. case_match.
  { intros [= <- _]. by exists (ckp_world c). }
  unfold bind at 1, asking. destruct (env_Fork (ckp_envelope c)) as [lineage|], forkPolicy as [policy|] eqn:Ep; try (intros [= <- _]; by exists (ckp_world c)).
  destruct (fpo_Authorize policy) as [authorize|] eqn:Ea; [|intros [= <- _]; by exists (ckp_world c)].
  destruct (_ || _); [intros [= <- _]; by exists (ckp_world c)|]. unfold bind at 1. destruct (check (ctx_Err _)); [|intros [= <- _]; by exists (ckp_world c)].
  unfold bind, wrap_error, reading, lift. destruct (Hg policy authorize lineage (ckp_world c)) as [H1 H2]; [done..|].
  destruct (authorize lineage (ckp_world c)) as [w [[]|err]]; intros [= <- _]; by exists w.
Qed.

Lemma write_ahead_world request c invocation c1 w : write_ahead request c invocation c1 -> store_inv w ->
  (forall k, store_head w k = store_head (ckp_world c1) k) -> write_ahead request c invocation (c1 <| ckp_world := w |>).
Proof.
  intros [[_ Hh] H2 H3 H4 H5] Hi Hw. split; try done. split; [done|]. simpl. by rewrite Hw.
Qed.

(** C5: write-ahead. The host's dispatcher has effect on a call only through the states in
    which its attempt is already the committed head of the execution: running, with the
    attempt number it is given, under the lease of the session, for the same input and
    implementation. Two dispatchers that agree in those states give the same call. This holds
    in every fork mode; the gate of a live fork, which is asked before the dispatcher, is one
    that moves no head. *)
Theorem dispatch_write_ahead request d d' c : synced c -> gate_frames ->
  (forall invocation c1, write_ahead request c invocation c1 -> d invocation c1 = d' invocation c1) ->
  callActivity error_text forkPolicy forkMode (request <| req_Dispatch := d |>) c =
  callActivity error_text forkPolicy forkMode (request <| req_Dispatch := d' |>) c.
Proof.
  intros Hs Hg Hd. destruct (forked_dispatch request) as (fork & Hfork). unfold callActivity.
  destruct (Hfork d) as [-> Hx], (Hfork d') as [-> _]. destruct fork as [[effective around]|]; [|done].
  destruct (Hx _ _ eq_refl) as (E1 & E2 & E3 & _ & Haround). unfold bind, lift. rewrite !begin_dispatch.
  destruct (beginActivity effective c) as [c1 [[o|invocation|r]|e]] eqn:Hb; [done| |done|done].
  assert (Hw : write_ahead request c invocation c1).
  { destruct (begin_cases _ _ _ _ Hs Hb) as [H1 H2 H3 H4 H5]. rewrite E1, E2, E3 in *. by split. }
  assert (around d invocation c1 = around d' invocation c1) as He.
  { destruct Haround as [->|[(fake & ->)|[Hl ->]]]; [by apply Hd|done|]. unfold bind.
    destruct (authorizeForkDispatch forkPolicy forkMode c1) as [c2 [[]|err]] eqn:Ea; [|done].
    apply authorize_frames in Ea as (w & -> & H1 & H2); [|done|done|apply Hw]. apply Hd. by apply write_ahead_world. }
  unfold attempt_result. cbn [req_Dispatch upd]. simpl. by rewrite He.
Qed.

Lemma call_replay request effective c journal record : forkActivityRequest forkPolicy forkMode request = Ok effective ->
  executionActivityJournal (ckp_envelope c) = Ok journal ->
  journal !! boundActivityIdentity (ckp_envelope c) (req_Key request) = Some record ->
  activityConflict request record = false -> rec_State record = ActivityCompleted ->
  callActivity error_text forkPolicy forkMode request c =
    (c, Ok (mkOutcome (rec_Outcome record) ActivityReplayed (env_Revision (ckp_envelope c)) (rec_Identity record))).
Proof.
  intros He Hj Hr Hconf Hc. unfold callActivity. rewrite He. unfold bind, lift.
  assert (req_Key effective = req_Key request /\ activityConflict effective record = false) as [Ek Ec].
  { destruct (forked_dispatch request) as (fork & Hfork). destruct (Hfork (req_Dispatch request)) as [Hx Hfields].
    assert (request <| req_Dispatch := req_Dispatch request |> = request) as Hsame by by destruct request. rewrite Hsame, He in Hx.
    destruct fork as [[e around]|]; [|done]. injection Hx as ->. destruct (Hfields _ _ eq_refl) as (E1 & E2 & E3 & E4 & _).
    split; [done|]. unfold activityConflict in *. cbn. by rewrite E2, E3, E4. }
  unfold beginActivity, bind, asking, readJournal. rewrite Ek, Hj, Hr, Ec.
  by rewrite (bool_decide_eq_true_2 (rec_State record = ActivityCompleted)) by done.
Qed.

(** A call over a record that is not waiting to start never dispatches. *)
Lemma recorded_no_dispatch request c journal record c1 invocation : executionActivityJournal (ckp_envelope c) = Ok journal ->
  journal !! boundActivityIdentity (ckp_envelope c) (req_Key request) = Some record -> rec_State record <> ActivityPrepared ->
  beginActivity request c <> (c1, Ok (Dispatching invocation)).
Proof.
  intros Hj Hr Hst Hb. unfold beginActivity in Hb. apply bind_inv in Hb as (c2 & e & He & Hb). injection He as <- <-.
  apply bind_inv in Hb as (c2 & j & Hj' & Hb). injection Hj' as <- Hj'. rewrite Hj in Hj'. injection Hj' as <-. rewrite Hr in Hb.
  destruct (activityConflict request record); [done|]. case_bool_decide; [done|]. guard_in Hb.
  - unfold recoverActivityLocked in Hb. destruct (_ && _); [done|]. destruct (_ && _); [done|].
    apply bind_inv in Hb as (c3 & j & _ & Hb). by destruct (req_Reconcile request).
  - apply bind_inv in Hb as (c3 & now & _ & Hb). apply bind_inv in Hb as (c4 & u & Hready & _). injection Hready as _ Hready.
    apply check_Ok in Hready. unfold preparedActivityError in Hready. case_bool_decide; [done|].
    by rewrite (bool_decide_eq_false_2 (rec_State record = ActivityPrepared)) in Hready by done.
Qed.

(** C29: an activity that was started is never dispatched again. Once the journal holds a record
    of this identity that is not prepared (a prepared record is new, or was scheduled for
    another attempt), no dispatcher is called, neither the one of the request nor the fake of a
    fork policy: the call never reaches a dispatch, and the dispatcher of the request plays no
    part in it. If the record is completed with the same input and implementation, the call
    returns the recorded outcome as replayed, with no commit, no host call and no change of the
    session. This holds in every fork mode in which the call is admitted at all. *)
Theorem recorded_never_redispatched request d d' c journal record :
  executionActivityJournal (ckp_envelope c) = Ok journal ->
  journal !! boundActivityIdentity (ckp_envelope c) (req_Key request) = Some record -> rec_State record <> ActivityPrepared ->
  callActivity error_text forkPolicy forkMode (request <| req_Dispatch := d |>) c =
    callActivity error_text forkPolicy forkMode (request <| req_Dispatch := d' |>) c /\
  forall effective, forkActivityRequest forkPolicy forkMode request = Ok effective ->
    (forall c1 invocation, beginActivity effective c <> (c1, Ok (Dispatching invocation))) /\
    (activityConflict request record = false -> rec_State record = ActivityCompleted ->
     callActivity error_text forkPolicy forkMode request c =
       (c, Ok (mkOutcome (rec_Outcome record) ActivityReplayed (env_Revision (ckp_envelope c)) (rec_Identity record)))).
Proof.
  intros Hj Hr Hst. split.
  - destruct (forked_dispatch request) as (fork & Hfork). unfold callActivity. destruct (Hfork d) as [-> Hx], (Hfork d') as [-> _].
    destruct fork as [[effective around]|]; [|done]. destruct (Hx _ _ eq_refl) as (E1 & _). unfold bind, lift. rewrite !begin_dispatch.
    destruct (beginActivity effective c) as [c1 [[o|invocation|r]|e]] eqn:Hb; [done| |done|done].
    by eapply recorded_no_dispatch in Hb; [|done|rewrite E1|].
  - intros effective He. split; [|intros Hconf Hc; by apply (call_replay request effective c journal record)]. intros c1 invocation.
    apply (recorded_no_dispatch _ _ journal record); [done| |done]. destruct (forked_dispatch request) as (fork & Hfork).
    destruct (Hfork (req_Dispatch request)) as [Hx Hfields].
    assert (request <| req_Dispatch := req_Dispatch request |> = request) as Hsame by by destruct request. rewrite Hsame, He in Hx.
    destruct fork as [[e around]|]; [|done]. injection Hx as ->. destruct (Hfields _ _ eq_refl) as (E1 & _). cbn. by rewrite E1.
Qed.

Lemma completeActivity_fields record payload origin now :
  rec_State (completeActivity record payload origin now) = ActivityCompleted /\
  rec_Outcome (completeActivity record payload origin now) = payload /\
  rec_Identity (completeActivity record payload origin now) = rec_Identity record.
Proof. unfold completeActivity. by destruct (_ && _). Qed.

Lemma finish_recorded identity result origin classification c c' outcome : synced c ->
  finishActivityLocked error_text identity result origin classification c = (c', Ok outcome) ->
  synced c' /\ out_Identity outcome = identity /\ outcome_recorded c' outcome.
Proof.
  intros Hs Hf. unfold finishActivityLocked in Hf. apply bind_inv in Hf as (c1 & journal & Hj & Hf). injection Hj as <- Hj.
  apply bind_inv in Hf as (c1 & revision & Hr & Hf). injection Hr as <- <-.
  destruct (journal !! identity) as [record|] eqn:Er; [|done]. destruct (journal_entry _ _ _ _ Hj Er) as (Hid & _ & _).
  case_bool_decide; [done|]. case_bool_decide as Hc.
  { destruct result as [payload|]; [|done]. case_bool_decide; [|done]. injection Hf as <- <-. split_and!; [done..|].
    exists journal, record. split_and!; try done. by left. }
  destruct result as [payload|err]; cycle 1.
  { apply bind_inv in Hf as (c2 & record' & _ & Hf). apply bind_inv in Hf as (c3 & j & _ & Hf). by apply bind_inv in Hf as (c4 & rev & _ & Hf). }
  apply bind_inv in Hf as (c2 & record' & Hrec & Hf).
  assert (Hx : synced c2 /\ exists now, record' = completeActivity record payload origin now).
  { guard_in Hrec.
    - apply bind_inv in Hrec as (c3 & now & Hn & Hrec). injection Hrec as <- <-. unfold reading in Hn.
      pose proof (synced_reading clock_Now c Hs now_frame) as Hs2. destruct (clock_Now (ckp_world c)). injection Hn as <- <-. split; [done|]. by eexists.
    - injection Hrec as <- <-. split; [done|]. by eexists. }
  destruct Hx as (Hs2 & now & ->). destruct (completeActivity_fields record payload origin now) as (F1 & F2 & F3).
  apply bind_inv in Hf as (c3 & j & Hp & Hf). unfold wrap_error in Hp. destruct (persistActivity _ _ c2) as [c4 [x|x]] eqn:Ep; [|done].
  injection Hp as <- <-. apply persistActivity_Ok in Ep as (_ & -> & Hs3 & Hj3 & _); [|done].
  apply bind_inv in Hf as (c5 & rev & Hrev & Hf). injection Hrev as <- <-. injection Hf as <- <-. split_and!; [done..|].
  eexists _, _. split_and!; [by right|simpl; rewrite <- Hid, <- F3; by rewrite lookup_insert_eq|done..].
Qed.

(** C28: a returned outcome is durable. When a call returns, the committed head of the
    execution records the activity as completed with exactly the returned payload, at the
    returned revision, under the identity the key is bound to; this holds for a dispatch, a
    reconciliation and a replay, whatever other callbacks of the session do meanwhile. *)
Theorem returned_outcome_durable request effective c c' outcome : synced c ->
  forkActivityRequest forkPolicy forkMode request = Ok effective ->
  (forall invocation c1, synced c1 -> synced (req_Dispatch effective invocation c1).1) ->
  (forall reconcile record c1, req_Reconcile effective = Some reconcile -> synced c1 -> synced (reconcile record c1).1) ->
  callActivity error_text forkPolicy forkMode request c = (c', Ok outcome) ->
  synced c' /\ out_Identity outcome = boundActivityIdentity (ckp_envelope c) (req_Key effective) /\ outcome_recorded c' outcome.
Proof.
  intros Hs Hfork Hd Hrec Hcall. unfold callActivity in Hcall. apply bind_inv in Hcall as (c1 & r & E & Hcall). injection E as <- E.
  rewrite Hfork in E. injection E as <-. apply bind_inv in Hcall as (c1 & next & Hb & Hcall).
  pose proof (begin_cases _ _ _ _ Hs Hb) as Hcase.
  destruct next as [o|invocation|record].
  - destruct Hcase as (-> & Hi & Ho). by injection Hcall as <- <-.
  - destruct Hcase as [Hs1 Hi _ _ _]. apply bind_inv in Hcall as (c2 & result & Ha & Hcall).
    unfold attempt_result in Ha. pose proof (Hd invocation c1 Hs1) as Hs2. destruct (req_Dispatch effective invocation c1) as [c3 r].
    injection Ha as <- <-. destruct (finish_recorded _ _ _ _ _ _ _ Hs2 Hcall) as (Hs' & Ho & Hout). by rewrite Ho.
  - destruct Hcase as (Hs1 & Hi & _). destruct (req_Reconcile effective) as [reconcile|] eqn:Er; [|done].
    apply bind_inv in Hcall as (c2 & payload & Ha & Hcall). unfold wrap_error in Ha. pose proof (Hrec reconcile record c1 eq_refl Hs1) as Hs2.
    destruct (reconcile record c1) as [c3 [x|x]]; [|done]. injection Ha as <- <-.
    destruct (finish_recorded _ _ _ _ _ _ _ Hs2 Hcall) as (Hs' & Ho & Hout). by rewrite Ho.
Qed.

(** ** The journal reads back

    What a record must satisfy to belong in the journal of an envelope. *)
Record record_fits (e : ExecutionEnvelope) (journal : gmap string ActivityRecord) (r : ActivityRecord) : Prop := mk_fits {
  ft_execution : rec_ExecutionID r = env_ExecutionID e;
  ft_activation : (rec_Activation r <= env_Activation e)%N;
  ft_simulated : rec_Origin r = ActivitySimulated -> executionForkMode e = ForkFake;
  ft_live : rec_Origin r = ActivityLive -> executionForkMode e <> ForkFake;
  ft_decisions : Forall (fun d => rsl_SourceRevision d <= env_Revision e)%N (rec_Resolutions r);
  ft_prior : forall prior, journal !! rec_Identity r = Some prior -> rec_Key r = rec_Key prior /\ rec_Activation r = rec_Activation prior;
  ft_open : activityUnresolved (rec_State r) = true ->
    rec_Activation r = env_Activation e /\ boundActivityIdentity e (rec_Key r) = rec_Identity r;
}.

Lemma fork_mode_fake e : match env_Fork e with Some f => frk_Mode f == ForkFake | None => false end = (executionForkMode e == ForkFake).
Proof. unfold executionForkMode. by destruct (env_Fork e). Qed.

Lemma valid_record_iff e r : validJournalRecord e r = true <->
  (rec_Origin r = ActivitySimulated -> executionForkMode e = ForkFake) /\ (rec_Origin r = ActivityLive -> executionForkMode e <> ForkFake) /\
  rec_ExecutionID r = env_ExecutionID e /\ (rec_Activation r <= env_Activation e)%N /\
  Forall (fun d => rsl_SourceRevision d < env_Revision e)%N (rec_Resolutions r).
Proof.
  unfold validJournalRecord. rewrite fork_mode_fake, !andb_true_iff, !negb_true_iff, !andb_false_iff, orb_false_iff, !negb_false_iff.
  rewrite bool_decide_eq_true, !bool_decide_eq_false, N.ltb_ge, forallb_Forall, bool_decide_eq_true.
  assert (Forall (fun d => negb (env_Revision e <=? rsl_SourceRevision d)%N = true) (rec_Resolutions r) <->
          Forall (fun d => rsl_SourceRevision d < env_Revision e)%N (rec_Resolutions r)) as ->.
  { rewrite !Forall_forall. setoid_rewrite negb_true_iff. by setoid_rewrite N.leb_gt. }
  destruct (decide (executionForkMode e = ForkFake)), (decide (rec_Origin r = ActivitySimulated)), (decide (rec_Origin r = ActivityLive)); tauto.
Qed.

Lemma references_iff e journal : validateActivityReferences e journal = None <->
  map_Forall (fun key identity => exists r, journal !! identity = Some r /\ rec_Key r = key /\ rec_Activation r = env_Activation e)
    (prg_JournalReferences (env_Progress e)) /\
  map_Forall (fun _ r => activityUnresolved (rec_State r) = true ->
    rec_Activation r = env_Activation e /\ boundActivityIdentity e (rec_Key r) = rec_Identity r) journal.
Proof.
  unfold validateActivityReferences. rewrite <- (map_all_reflect (fun key identity =>
       match journal !! identity with
       | None => false
       | Some record => negb ((key != rec_Key record) || (rec_Activation record != env_Activation e))
       end)), <- (map_all_reflect (fun _ record =>
       if negb (activityUnresolved (rec_State record)) then true
       else negb ((rec_Activation record != env_Activation e) || (boundActivityIdentity e (rec_Key record) != rec_Identity record)))).
  - destruct (map_all _ _); simpl; [|split; [done|by intros []]]. destruct (map_all _ _); simpl; split; try done. by intros [].
  - intros k r. destruct (activityUnresolved _); simpl; [|done].
    rewrite negb_true_iff, orb_false_iff, !negb_false_iff, !bool_decide_eq_true. tauto.
  - intros k identity. destruct (journal !! identity) as [r|]; [|split; [done|by intros (r & ? & _)]].
    rewrite negb_true_iff, orb_false_iff, !negb_false_iff, !bool_decide_eq_true. split.
    + intros [E1 E2]. by exists r.
    + by intros (r' & [= <-] & E1 & E2).
Qed.

Lemma journal_iff e journal : executionActivityJournal e = Ok journal <->
  decodeActivityJournal (env_JournalPayload e) = Ok journal /\ map_Forall (fun _ r => validJournalRecord e r = true) journal /\
  validateActivityReferences e journal = None.
Proof.
  unfold executionActivityJournal. rewrite bind_Ok. unfold of_error. split.
  - intros (j & Hd & Hj). guard_in Hj; [done|]. destruct (validateActivityReferences e j) eqn:Hr; [done|]. injection Hj as ->.
    apply negb_false_iff, map_all_true in Hg. done.
  - intros (Hd & Hv & Hr). exists journal. split; [done|]. apply map_all_true in Hv. by rewrite Hv, Hr.
Qed.

Lemma decode_marshal `{HL : !LawfulCodecs} journal payload : marshal journal = Some payload -> representable journal ->
  map_Forall (fun id r => rec_Identity r = id /\ validateActivityRecord r = None) journal -> decodeActivityJournal payload = Ok journal.
Proof.
  intros Hm Hr Hv. unfold decodeActivityJournal. pose proof (marshal_nonempty _ _ Hm) as Hne. unfold no_bytes.
  rewrite bool_decide_eq_false_2 by done. rewrite (unmarshal_marshal _ _ Hr Hm).
  assert (map_all (fun id r => (id == rec_Identity r) && is_nil (validateActivityRecord r)) journal = true) as ->; [|done].
  apply map_all_true. intros k r Hk. destruct (Hv _ _ Hk) as [<- ->]. by rewrite bool_decide_eq_true_2.
Qed.

(** The journal reads back. After a record that fits the journal of the session is
    persisted, the committed head decodes, passes every integrity check of its journal and
    holds exactly the previous journal with that one record replaced. *)
Theorem persisted_journal_reads_back `{HL : !LawfulCodecs} journal record c c' j : synced c ->
  executionActivityJournal (ckp_envelope c) = Ok journal -> record_fits (ckp_envelope c) journal record ->
  persistActivity journal record c = (c', Ok j) -> representable j ->
  executionActivityJournal (ckp_envelope c') = Ok (<[rec_Identity record := record]> journal).
Proof.
  intros Hs Hj [F1 F2 F3 F4 F5 F6 F7] Hp Hrep. apply persistActivity_Ok in Hp as (Hv & -> & _ & (payload & Hm & Hpay) & Hu & _); [|done].
  apply journal_iff in Hj as (Hd & Hval & Hrefs). apply references_iff in Hrefs as [Hrefs Hopen]. apply journal_iff. split_and!.
  - rewrite Hpay. apply (decode_marshal _ _ Hm Hrep). apply map_Forall_insert_2; [done|]. intros k r Hk.
    apply (decoded_entry _ _ _ _ Hd Hk).
  - rewrite Hu. apply map_Forall_insert_2.
    + apply valid_record_iff. split_and!; try done. eapply Forall_impl; [exact F5|]. simpl. intros d ?. lia.
    + intros k r Hk. apply Hval, valid_record_iff in Hk as (G1 & G2 & G3 & G4 & G5). apply valid_record_iff. split_and!; try done.
      eapply Forall_impl; [exact G5|]. simpl. intros d ?. lia.
  - rewrite Hu. apply references_iff. split.
    + intros key identity Hk. destruct (Hrefs key identity Hk) as (r & Hr & Hkey & Hact). simpl.
      destruct (decide (identity = rec_Identity record)) as [->|Hne].
      * exists record. rewrite lookup_insert_eq. destruct (F6 _ Hr) as [E1 E2]. split_and!; congruence.
      * exists r. by rewrite lookup_insert_ne by done.
    + apply map_Forall_insert_2; [done|]. intros k r Hk. apply (Hopen _ _ Hk).
Qed.
End ActivityCallInv.
