(* ===== verification/StoreWorld.v ===== *)
(** * The in-memory store keeps the contract

    The world of a session over the store of testutil/execution_store.go: every call reads
    the next instant of the clock and of its context, and a commit may lose its
    acknowledgement after it was made. [memory_keeps] shows that every operation keeps the
    contract of storage, a commit where JSON carries the envelope it seals; what is proved of
    sessions against that contract holds of sessions over this store, faults included. *)

From S2P Require Import Prelude Go Sha256 Json Identity Schedule Activity Waits Contract Children Wire Migration Integrity Aggregate Store StoreInv Session.

Record memory_world := mkMemoryWorld {
  mw_store : MemoryExecutionStore;
  mw_tick : nat;
  mw_clock : nat -> Time;
  mw_context : nat -> option error;
  mw_random : nat -> option N;
  mw_lost : nat -> bool;
}.
#[export] Instance eta_MemoryWorld : Eta memory_world := fun w =>
  mkMemoryWorld (mw_store w) (mw_tick w) (mw_clock w) (mw_context w) (mw_random w) (mw_lost w).

Definition tick (w : memory_world) : memory_world := w <| mw_tick := S (mw_tick w) |>.
Definition with_store (w : memory_world) (s : MemoryExecutionStore) : memory_world := (tick w) <| mw_store := s |>.
Definition lost_acknowledgement : error := ErrHost "acknowledgement lost".

Section World.
Context `{HC : Codecs}.

#[export] Instance memory_execution_store : ExecutionStore memory_world := {|
  store_load w id := (tick w, LoadExecution (mw_context w (mw_tick w)) (mw_store w) id);
  store_commit w revision lease envelope :=
    match CommitExecution (mw_context w (mw_tick w)) (mw_clock w (mw_tick w)) (mw_store w) revision lease envelope with
    | Ok (s, committed) => (with_store w s, if mw_lost w (mw_tick w) then Err lost_acknowledgement else Ok committed)
    | Err err => (tick w, Err err)
    end;
  store_acquire w id owner ttl :=
    match AcquireExecution (mw_context w (mw_tick w)) (mw_clock w (mw_tick w)) (mw_clock w (mw_tick w)) (mw_store w) id owner ttl with
    | Ok (s, lease) => (with_store w s, Ok lease)
    | Err err => (tick w, Err err)
    end;
  store_release w lease :=
    match ReleaseExecution (mw_context w (mw_tick w)) (mw_store w) lease with
    | Ok s => (with_store w s, None)
    | Err err => (tick w, Some err)
    end;
  store_head w id := match LoadExecution None (mw_store w) id with Ok e => Some e | Err _ => None end;
  clock_Now w := (tick w, mw_clock w (mw_tick w));
  ctx_Err w := mw_context w (mw_tick w);
  retry_random w := (tick w, mw_random w (mw_tick w));
|}.

Context `{HL : !LawfulCodecs}.

Lemma ctx_None {A} ctxErr (m : res A) a : (check ctxErr;; m) = Ok a -> ctxErr = None /\ m = Ok a.
Proof. intros Hm. apply bind_Ok in Hm as ([] & Hc & Hm). by apply check_Ok in Hc. Qed.

Lemma commit_context ctxErr now s revision lease envelope r : CommitExecution ctxErr now s revision lease envelope = Ok r ->
  CommitExecution None now s revision lease envelope = Ok r.
Proof. unfold CommitExecution. case_bool_decide; [done|]. intros Hm. by apply ctx_None in Hm as [_ ->]. Qed.

(** The head of an execution is the revision its commits are checked against. *)
Lemma committed_head now s expected lease envelope s' result : store_ok s -> committed now s expected lease envelope s' result ->
  default 0%N (env_Revision <$> match LoadExecution None s (env_ExecutionID envelope) with Ok e => Some e | Err _ => None end) = expected.
Proof.
  intros Hs [_ _ _ Hhead (previous & Hprev & _) _ _]. unfold LoadExecution. cbn [check mbind res_bind]. rewrite Hhead.
  destruct (N.ltb_spec 0 expected) as [Hlt|Hle].
  - destruct Hprev as (p & _ & Hp). rewrite bool_decide_eq_false_2 by lia. rewrite Hp. simpl.
    apply decodeAnchored_Ok in Hp as (_ & _ & Hv & _). by apply integrity_digest in Hv as (_ & -> & _).
  - rewrite bool_decide_eq_true_2 by lia. simpl. lia.
Qed.

Lemma load_acquired ctxErr now now' s s' id owner ttl lease id' : AcquireExecution ctxErr now now' s id owner ttl = Ok (s', lease) ->
  LoadExecution None s' id' = LoadExecution None s id' /\ lse_ExecutionID lease = id /\
  AcquireExecution None now now' s id owner ttl = Ok (s', lease).
Proof.
  unfold AcquireExecution. intros Ha. apply ctx_None in Ha as [-> Ha]. cbn [check mbind res_bind]. split_and!; [| |done].
  - guard_in Ha; [done|]. guard_in Ha; [by case_bool_decide|]. case_bool_decide; [done|]. by injection Ha as <- <-.
  - guard_in Ha; [done|]. guard_in Ha; [by case_bool_decide|]. case_bool_decide; [done|]. by injection Ha as <- <-.
Qed.

Lemma load_released ctxErr s s' lease id : ReleaseExecution ctxErr s lease = Ok s' -> LoadExecution None s' id = LoadExecution None s id /\
  ReleaseExecution None s lease = Ok s'.
Proof.
  unfold ReleaseExecution. intros Ha. apply ctx_None in Ha as [-> Ha]. cbn [check mbind res_bind]. split; [|done].
  destruct (sto_leases s !! _); guard_in Ha; try done; by injection Ha as <-.
Qed.

(** The envelope a commit seals is one that JSON carries without loss. *)
Definition seals_representable (expected : N) (envelope : ExecutionEnvelope) : Prop :=
  forall e, SealExecutionEnvelope (envelope <| env_Revision := (expected + 1)%N |>) = Ok e -> representable e.
Lemma sealed_representable expected envelope : seals_representable expected envelope -> (expected < max_uint64)%N ->
  forall e, SealExecutionEnvelope (envelope <| env_Revision := succ_u64 expected |>) = Ok e -> representable e.
Proof. intros Hr Hm e. rewrite succ_u64_lt by done. apply Hr. Qed.
Lemma committed_bound now s expected lease envelope r : store_ok s -> CommitExecution None now s expected lease envelope = Ok r -> (expected < max_uint64)%N.
Proof.
  intros Hs Hc. unfold CommitExecution in Hc. case_bool_decide; [done|]. cbn [check mbind res_bind] in Hc. guard_in Hc; [done|].
  apply bind_Ok in Hc as (u & _ & Hc). guard_in Hc; [done|]. cbv zeta in Hc. guard_in Hc; [done|]. apply negb_false_iff, bool_decide_eq_true in Hg1.
  pose proof (so_head _ Hs (env_ExecutionID envelope)) as Hh. unfold is_u64 in Hh. lia.
Qed.

Lemma memory_commit w revision lease envelope s' committed :
  CommitExecution (mw_context w (mw_tick w)) (mw_clock w (mw_tick w)) (mw_store w) revision lease envelope = Ok (s', committed) ->
  store_ok (mw_store w) -> seals_representable revision envelope ->
  store_step (mw_store w) s' /\ env_ExecutionID envelope = lse_ExecutionID lease /\
  default 0%N (env_Revision <$> store_head w (env_ExecutionID envelope)) = revision /\
  SealExecutionEnvelope (envelope <| env_Revision := (revision + 1)%N |>) = Ok committed /\
  LoadExecution None s' (env_ExecutionID envelope) = Ok committed.
Proof.
  intros Hc Hs Hr. apply commit_context in Hc. pose proof (sealed_representable _ _ Hr (committed_bound _ _ _ _ _ _ Hs Hc)) as Hrep.
  assert (Hst : store_step (mw_store w) s') by (by eapply sstep_commit). apply commit_Ok in Hc; [|done]. split_and!.
  - done.
  - apply Hc.
  - apply (committed_head _ _ _ _ _ _ _ Hs Hc).
  - pose proof (cm_seal _ _ _ _ _ _ _ Hc) as Hseal. destruct Hc as [Hmax _ _ Hhead _ _ _].
    pose proof (so_head _ Hs (env_ExecutionID envelope)) as Hx. unfold is_u64 in Hx. rewrite Hhead in Hx. by rewrite succ_u64_lt in Hseal by lia.
  - apply (commit_loads _ _ _ _ _ _ _ Hs Hc).
Qed.

Lemma acquired_incarnation now now' s s' id owner ttl lease : store_ok s -> AcquireExecution None now now' s id owner ttl = Ok (s', lease) ->
  lse_Incarnation lease <> 0%N.
Proof.
  intros Hs Ha. unfold AcquireExecution in Ha. cbn [check mbind res_bind] in Ha. guard_in Ha; [done|]. guard_in Ha; [by case_bool_decide|].
  case_bool_decide; [done|]. injection Ha as _ <-. pose proof (so_fences _ Hs id) as Hf. unfold is_u64 in Hf. simpl.
  rewrite succ_u64_lt by lia. lia.
Qed.

(** Every operation of every client over this store. *)
Lemma memory_keeps : store_keeps (fun w : memory_world => store_reachable (mw_store w)) seals_representable.
Proof.
  split.
  - intros w w' revision lease envelope committed Hs%reachable_ok Hr. cbn [store_commit memory_execution_store].
    destruct (CommitExecution _ _ _ _ _ _) as [[s' e]|] eqn:Hc; [|done]. apply memory_commit in Hc as (_ & H1 & H2 & H3 & H4); [|done..].
    destruct (mw_lost w (mw_tick w)); [done|]. intros [= <- <-]. split_and!; try done. cbn [store_head memory_execution_store].
    simpl. by rewrite H4.
  - intros w w' revision lease envelope err Hs%reachable_ok Hr. cbn [store_commit memory_execution_store].
    destruct (CommitExecution _ _ _ _ _ _) as [[s' e]|] eqn:Hc; [|intros [= <- _]; by left].
    apply memory_commit in Hc as (_ & H1 & H2 & H3 & H4); [|done..]. destruct (mw_lost w (mw_tick w)); [|done]. intros [= <- _]. right.
    exists e. split; [done|]. cbn [store_head memory_execution_store]. simpl. by rewrite H4.
  - intros w revision lease envelope Hs Hr. cbn [store_commit memory_execution_store]. pose proof (reachable_ok _ Hs) as Hok.
    destruct (CommitExecution _ _ _ _ _ _) as [[s' e]|] eqn:Hc; [|done]. apply memory_commit in Hc as (Hst & _); [|done..]. by eapply rtc_r.
  - intros w w' id e _. cbn [store_load store_head memory_execution_store]. intros [= _ Hl]. unfold LoadExecution in *.
    apply ctx_None in Hl as [_ Hl]. cbn [check mbind res_bind]. by rewrite Hl.
  - done.
  - intros w id owner ttl Hs. cbn [store_acquire memory_execution_store].
    destruct (AcquireExecution _ _ _ _ _ _ _) as [[s' lease]|] eqn:Ha; [|done]. split.
    + destruct (load_acquired _ _ _ _ _ _ _ _ _ id Ha) as (_ & _ & Ha'). by eapply rtc_r, sstep_acquire.
    + intros k. cbn [store_head memory_execution_store]. simpl. by destruct (load_acquired _ _ _ _ _ _ _ _ _ k Ha) as (-> & _).
  - intros w w' id owner ttl lease Hs%reachable_ok. cbn [store_acquire memory_execution_store].
    destruct (AcquireExecution _ _ _ _ _ _ _) as [[s' l]|] eqn:Ha; [|done]. intros [= _ <-].
    destruct (load_acquired _ _ _ _ _ _ _ _ _ id Ha) as (_ & Hid & Ha'). split; [done|]. apply (acquired_incarnation _ _ _ _ _ _ _ _ Hs Ha').
  - intros w lease Hs. cbn [store_release memory_execution_store]. destruct (ReleaseExecution _ _ _) as [s'|] eqn:Hr; [|done]. split.
    + destruct (load_released _ _ _ _ (lse_ExecutionID lease) Hr) as (_ & Hr'). by eapply rtc_r, sstep_release.
    + intros k. cbn [store_head memory_execution_store]. simpl. by destruct (load_released _ _ _ _ k Hr) as (-> & _).
  - done.
  - done.
Qed.

(** The contract over this store, for a codec that carries every envelope. *)
Definition memory_contract (Hrep : forall e : ExecutionEnvelope, representable e) : StoreContract memory_world.
Proof.
  refine (whole_contract (fun w : memory_world => store_reachable (mw_store w)) _). destruct memory_keeps as [H1 H2 H3 H4 H5 H6 H7 H8 H9 H10].
  assert (forall revision e, seals_representable revision e) as Hall by (intros revision e e' _; apply Hrep). split; eauto.
Defined.
End World.

(** C7: the in-memory store refines the storage contract. Whatever its clock, its contexts and
    the acknowledgements it loses: from every reachable store every operation leads to a
    reachable store; an acknowledged commit was made by the owner at the expected revision and
    its sealed envelope is the new head; a commit that fails changed nothing or was made and
    its acknowledgement lost; a load returns the head; an acquired lease is of the execution
    asked for; and no operation but a commit moves a head. Of a commit this is claimed where
    JSON carries the envelope that it seals without loss. So over the store, used by callers
    whose envelopes are of that kind, the contract holds that the theorems about sessions
    assume. *)
Theorem memory_store_keeps_contract `{HC : Codecs} `{HL : !LawfulCodecs} :
  store_keeps (fun w : memory_world => store_reachable (mw_store w)) seals_representable /\
  forall gate, (forall revision e, gate revision e = true -> seals_representable revision e) ->
    exists contract : @StoreContract HC (gated memory_world) (gated_store gate), forall w, store_reachable (mw_store w) -> @store_inv HC _ (gated_store gate) contract (mkGated w).
Proof. split; [apply memory_keeps|]. intros gate Hg. by exists (gated_contract gate _ _ memory_keeps Hg). Qed.
