(* ===== verification/PostgresInv.v ===== *)
(** * The PostgreSQL store refines the reference store

    [memory_of] reads the tables as a state of the store of Store.v: the payloads re-encoded,
    the anchors decoded, the lease of a row with an owner. Every operation that takes effect
    is the operation of the same name there, so what StoreInv.v proves of reachable stores
    holds of the tables; an operation that fails took no effect, or took it unacknowledged. *)

From stdpp Require Import relations.
From S2P Require Import Prelude Go Sha256 Json Identity Schedule Activity Waits Contract Children Wire Migration Integrity Aggregate Store StoreInv Session Postgres.

(** ** Maps of rows *)
Lemma imap_insert {A B} (f : string -> A -> option B) (m : gmap string A) i x :
  map_imap f (<[i := x]> m) = match f i x with Some y => <[i := y]> (map_imap f m) | None => delete i (map_imap f m) end.
Proof.
  apply map_eq. intros j. rewrite map_lookup_imap. destruct (decide (i = j)) as [<-|Hn].
  - rewrite lookup_insert_eq. simpl. destruct (f i x); [by rewrite lookup_insert_eq|by rewrite lookup_delete_eq].
  - rewrite lookup_insert_ne by done. rewrite <- map_lookup_imap. destruct (f i x); [by rewrite lookup_insert_ne|by rewrite lookup_delete_ne].
Qed.
Lemma imap_same {A B} (f : string -> A -> option B) (m : gmap string A) i x y : m !! i = Some x -> f i y = f i x ->
  map_imap f (<[i := y]> m) = map_imap f m.
Proof.
  intros Hm Hf. apply map_eq. intros j. rewrite !map_lookup_imap. destruct (decide (i = j)) as [<-|Hn].
  - by rewrite lookup_insert_eq, Hm.
  - by rewrite lookup_insert_ne.
Qed.
Lemma imap_fresh {A B} (f : string -> A -> option B) (m : gmap string A) i x : m !! i = None -> f i x = None ->
  map_imap f (<[i := x]> m) = map_imap f m.
Proof. intros Hm Hf. rewrite imap_insert, Hf. apply delete_id. by rewrite map_lookup_imap, Hm. Qed.

Lemma default_Some {A} (a x : A) : default a (Some x) = x.
Proof. done. Qed.
Lemma default_None {A} (a : A) : default a None = a.
Proof. done. Qed.

(** ** Runs of statements, the world aside *)
Definition runs {A} (m : pg A) (db db' : Database) (a : A) : Prop := exists w w', m w = (w', Ok a) /\ pw_db w = db /\ pw_db w' = db'.

Lemma runs_bind {A B} (m : pg A) (k : A -> pg B) db db' b : runs (pg_bind m k) db db' b ->
  exists db1 a, runs m db db1 a /\ runs (k a) db1 db' b.
Proof.
  intros (w & w' & Hr & <- & <-). unfold pg_bind in Hr. destruct (m w) as [w1 [a|e]] eqn:Em; [|done].
  exists (pw_db w1), a. split; [by exists w, w1|by exists w1, w'].
Qed.
Lemma runs_lift {A} (r : res A) db db' a : runs (pg_lift r) db db' a -> db' = db /\ r = Ok a.
Proof. intros (w & w' & [= <- ->] & <- & <-). done. Qed.
Lemma runs_ret {A} (x : A) db db' a : runs (pg_ret x) db db' a -> db' = db /\ a = x.
Proof. intros (w & w' & [= <- <-] & <- & <-). done. Qed.
Lemma statement_eq {A} (f : Time -> Database -> res (Database * A)) w : statement f w =
  match pw_fault w (pw_tick w) with
  | Some err => (next_tick w, Err (fault_error err))
  | None => match f (pw_clock w (pw_tick w)) (pw_db w) with Ok (db, a) => (with_db db (next_tick w), Ok a) | Err err => (next_tick w, Err err) end
  end.
Proof. reflexivity. Qed.
Lemma runs_statement {A} (f : Time -> Database -> res (Database * A)) db db' a : runs (statement f) db db' a -> exists now, f now db = Ok (db', a).
Proof.
  intros (w & w' & Hr & <- & <-). rewrite statement_eq in Hr. destruct (pw_fault w (pw_tick w)); [done|]. exists (pw_clock w (pw_tick w)).
  destruct (f _ (pw_db w)) as [[d x]|e]; [|done]. by injection Hr as <- <-.
Qed.
Lemma runs_query {A} (f : Time -> Database -> res A) db db' a : runs (query f) db db' a -> db' = db /\ exists now, f now db = Ok a.
Proof. intros (now & Hf)%runs_statement. apply bind_Ok in Hf as (x & Hx & [= <- <-]). split; [done|by exists now]. Qed.
Lemma runs_exec (f : Database -> res Database) db db' u : runs (exec f) db db' u -> f db = Ok db'.
Proof. intros (now & Hf)%runs_statement. by apply bind_Ok in Hf as (x & Hx & [= <- _]). Qed.

(** A guard that fails returns nothing. *)
Lemma runs_guard {A} (b : bool) (e : error) (k : pg A) db db' a : runs (if b then k else pg_lift (Err e)) db db' a -> b = true /\ runs k db db' a.
Proof. destruct b; [done|]. by intros [_ ?]%runs_lift. Qed.

Ltac run_in H :=
  lazymatch type of H with
  | runs (pg_bind _ _) _ _ _ => let db := fresh "db" in let a := fresh "a" in let H1 := fresh "Hr" in apply runs_bind in H as (db & a & H1 & H); cbv beta in H; run_in H1; run_in H
  | runs (pg_lift _) _ _ _ => let E := fresh "Hok" in apply runs_lift in H as [-> E]; rename E into H
  | runs (pg_ret _) _ _ _ => apply runs_ret in H as [-> H]
  | runs (query _) _ _ _ => let now := fresh "now" in apply runs_query in H as [-> [now H]]
  | runs (exec _) _ _ _ => apply runs_exec in H
  | runs (statement _) _ _ _ => let now := fresh "now" in apply runs_statement in H as [now H]
  | runs (if _ then _ else pg_lift (Err _)) _ _ _ => let G := fresh "Hguard" in apply runs_guard in H as [G H]; run_in H
  | _ => idtac
  end.

(** ** Ends of transactions *)

(** What an operation did to the tables: [P db' a] for the effect of a run that returned [a]. *)
Definition effects {A} (m : pg A) (w : postgres_world) (P : Database -> A -> Prop) : Prop :=
  match m w with
  | (w', Ok a) => P (pw_db w') a
  | (w', Err _) => pw_db w' = pw_db w \/ exists a, P (pw_db w') a
  end.

Lemma effects_settle {A} (before : Database) (out : postgres_world * res (bool * A)) (P : Database -> A -> Prop) :
  (forall w' a, out = (w', Ok (true, a)) -> P (pw_db w') a) -> (forall w' a, out = (w', Ok (false, a)) -> P before a) ->
  match settle before out with
  | (w', Ok a) => P (pw_db w') a
  | (w', Err _) => pw_db w' = before \/ exists a, P (pw_db w') a
  end.
Proof.
  intros Ht Hf. destruct out as [w' [[[] a]|e]]; cbn [settle]; [|by apply (Hf w')|by left].
  specialize (Ht w' a eq_refl). cbv zeta. change (pw_commit (next_tick w')) with (pw_commit w'). destruct (pw_commit w' (pw_tick w')); [done|by left|]. right. by exists a.
Qed.
Lemma effects_transactionIf {A} (body : pg (bool * A)) w (P : Database -> A -> Prop) :
  (forall db' a, runs body (pw_db w) db' (true, a) -> P db' a) -> (forall db' a, runs body (pw_db w) db' (false, a) -> P (pw_db w) a) ->
  effects (transactionIf body) w P.
Proof.
  intros Ht Hf. unfold effects, transactionIf. destruct (begin w) as [w1 [u|e]] eqn:Eb.
  - assert (E1 : pw_db w1 = pw_db w) by (destruct (runs_query (fun _ _ => Ok tt) (pw_db w) (pw_db w1) u) as [? _]; [by exists w, w1|done]).
    rewrite E1. apply effects_settle.
    + intros w' a Hr. apply Ht. by exists w1, w'.
    + intros w' a Hr. apply (Hf (pw_db w')). by exists w1, w'.
  - left. revert Eb. unfold begin, query. rewrite statement_eq. destruct (pw_fault w _); [by intros [= <- _]|done].
Qed.
Lemma runs_committed {A} (body : pg A) db db' b a : runs (pg_bind body (fun a => pg_ret (true, a))) db db' (b, a) -> b = true /\ runs body db db' a.
Proof. intros Hr. run_in Hr. injection Hr as -> ->. by split. Qed.
Lemma effects_transaction {A} (body : pg A) w (P : Database -> A -> Prop) :
  (forall db' a, runs body (pw_db w) db' a -> P db' a) -> effects (transaction body) w P.
Proof.
  intros Hb. apply effects_transactionIf.
  - intros db' a [_ Hr]%runs_committed. by apply Hb.
  - by intros db' a [? _]%runs_committed.
Qed.
Lemma effects_autocommit {A} (m : pg A) w (P : Database -> A -> Prop) :
  (forall db' a, runs m (pw_db w) db' a -> P db' a) -> effects (autocommit m) w P.
Proof.
  intros Hb. unfold effects, autocommit. apply effects_settle.
  - intros w' a Hr. destruct (runs_committed m (pw_db w) (pw_db w') true a) as [_ ?]; [by exists w, w'|by apply Hb].
  - intros w' a Hr. destruct (runs_committed m (pw_db w) (pw_db w') false a) as [? _]; [by exists w, w'|done].
Qed.
Lemma effects_guard {A} (b : bool) (e : error) (m : pg A) w P : (b = true -> effects m w P) -> effects (if b then m else pg_lift (Err e)) w P.
Proof. destruct b; [auto|]. intros _. by left. Qed.
Lemma effects_check {A} (e : option error) (m : pg A) w P : (e = None -> effects m w P) -> effects (pg_bind (pg_lift (check e)) (fun _ => m)) w P.
Proof. destruct e; [by left|]. auto. Qed.
Lemma effects_query {A} (f : Time -> Database -> res A) w (P : Database -> A -> Prop) :
  (forall now a, f now (pw_db w) = Ok a -> P (pw_db w) a) -> effects (query f) w P /\ pw_db (query f w).1 = pw_db w.
Proof.
  intros Hf. unfold effects, query. rewrite statement_eq. destruct (pw_fault w _); [by split; [left|]|]. destruct (f _ (pw_db w)) as [a|e] eqn:Ef; cbn.
  - split; [by eapply Hf|done].
  - split; [by left|done].
Qed.

Lemma effects_mono {A} (m : pg A) w (P Q : Database -> A -> Prop) : effects m w P -> (forall db' a, P db' a -> Q db' a) -> effects m w Q.
Proof. unfold effects. intros Hp Hq. destruct (m w) as [w' [a|e]]; [by apply Hq|]. destruct Hp as [?|[a Ha]]; [by left|right; eauto]. Qed.
Lemma effects_step {A} (m : pg A) w (P : Database -> A -> Prop) (R : Database -> Prop) : effects m w P -> R (pw_db w) ->
  (forall db' a, P db' a -> R db') -> R (pw_db (m w).1).
Proof.
  unfold effects. intros He Hr Hp. destruct (m w) as [w' [a|e]]; cbn [fst]; [by eapply Hp|].
  destruct He as [->|(a & ?)]; [done|by eapply Hp].
Qed.

Section PostgresInv.
Context `{HC : Codecs} `{HL : !LawfulCodecs} `{HJ : JsonColumns} `{HLC : !LawfulColumns}.

(** ** The reference store that the tables stand for *)
Definition canon (payload : string) : string :=
  match unmarshal (A := ExecutionEnvelope) payload with Some (Some e) => default payload (marshal e) | _ => payload end.
Definition column {A} `{JsonCodec A} (value : option string) : option A := value ≫= fun q => mjoin (unmarshal q).
Definition row_head (_ : string) (row : execution_row) : option N := if (row_revision row =? 0)%N then None else Some (row_revision row).
Definition row_lease (id : string) (row : execution_row) : option ExecutionLease :=
  match row_lease_owner row, row_lease_expiry row with
  | Some owner, Some expiry => Some (mkLease id owner (row_fence row) expiry)
  | _, _ => None
  end.
Definition row_fences (_ : string) (row : execution_row) : option N := if (row_fence row =? 0)%N then None else Some (row_fence row).
Definition row_lineage (_ : string) (row : execution_row) : option ForkLineage := column (row_fork_lineage row).
Definition row_incoming (_ : string) (row : execution_row) : option RolloverReceipt := column (row_rollover_incoming row).
Definition row_outgoing (_ : string) (row : execution_row) : option RolloverReceipt := column (row_rollover_outgoing row).
Definition canon_items (items : gmap N string) : gmap N string := canon <$> items.
Definition memory_of (db : Database) : MemoryExecutionStore :=
  mkStore (canon_items <$> db_history db) (map_imap row_head (db_executions db)) (map_imap row_lease (db_executions db))
    (map_imap row_fences (db_executions db)) (map_imap row_lineage (db_executions db))
    (map_imap row_incoming (db_executions db)) (map_imap row_outgoing (db_executions db)).

(** ** The invariant of the tables *)
Definition readable {A} `{JsonCodec A} (value : option string) : Prop :=
  forall q, value = Some q -> q <> "" /\ exists a : option A, unmarshal q = Some a.
Record row_ok (db : Database) (id : string) (row : execution_row) : Prop := mk_row_ok {
  ro_revision : (row_revision row <= max_bigint)%N;
  ro_fence : (row_fence row <= max_bigint)%N;
  ro_lease : is_nil (row_lease_owner row) = is_nil (row_lease_expiry row);
  ro_fork : readable (A := ForkLineage) (row_fork_lineage row);
  ro_incoming : readable (A := RolloverReceipt) (row_rollover_incoming row);
  ro_outgoing : readable (A := RolloverReceipt) (row_rollover_outgoing row);
  ro_fresh : row_revision row = 0%N -> row_payload_deleted row = false;
  ro_head : row_revision row <> 0%N -> row_payload_deleted row = is_nil (history_of db id !! row_revision row);
}.
Record tables_ok (db : Database) : Prop := mk_tables_ok {
  do_rows : forall id row, db_executions db !! id = Some row -> row_ok db id row;
  do_history : forall id r p, history_of db id !! r = Some p ->
    p <> "" /\ exists e : ExecutionEnvelope, unmarshal p = Some (Some e) /\ representable e;
  do_keys : forall id, db_executions db !! id = None -> db_history db !! id = None;
}.
Record db_ok (db : Database) : Prop := mk_db_ok { do_store : store_ok (memory_of db); do_tables :> tables_ok db }.

Lemma db_ok_empty : db_ok empty_database.
Proof.
  split; [|split; [done| |done]].
  - unfold memory_of, empty_database. cbn [db_history db_executions]. rewrite fmap_empty, !map_imap_empty. apply store_ok_new.
  - intros id r p. unfold history_of, empty_database. cbn. by rewrite lookup_empty.
Qed.

(** ** Reading the reference store *)
Section Reading.
Context (db : Database) (id : string) (row : execution_row) (Hrow : db_executions db !! id = Some row).
Lemma memory_head : head_of (memory_of db) id = row_revision row.
Proof.
  unfold head_of. cbn [sto_heads memory_of]. rewrite map_lookup_imap, Hrow. cbn. unfold row_head.
  destruct (N.eqb_spec (row_revision row) 0) as [E|E]; [by rewrite E|done].
Qed.
Lemma memory_fence : fence_of (memory_of db) id = row_fence row.
Proof.
  unfold fence_of. cbn [sto_fences memory_of]. rewrite map_lookup_imap, Hrow. cbn. unfold row_fences.
  destruct (N.eqb_spec (row_fence row) 0) as [E|E]; [by rewrite E|done].
Qed.
Lemma memory_lease : sto_leases (memory_of db) !! id = row_lease id row.
Proof. cbn [sto_leases memory_of]. by rewrite map_lookup_imap, Hrow. Qed.
Lemma memory_anchors : sto_lineage (memory_of db) !! id = column (A := ForkLineage) (row_fork_lineage row)
  /\ sto_incoming (memory_of db) !! id = column (A := RolloverReceipt) (row_rollover_incoming row)
  /\ sto_outgoing (memory_of db) !! id = column (A := RolloverReceipt) (row_rollover_outgoing row).
Proof. cbn [sto_lineage sto_incoming sto_outgoing memory_of]. rewrite !map_lookup_imap, Hrow. done. Qed.
End Reading.

Lemma memory_absent db id : db_executions db !! id = None -> head_of (memory_of db) id = 0%N /\ fence_of (memory_of db) id = 0%N
  /\ sto_leases (memory_of db) !! id = None.
Proof. intros Hn. unfold head_of, fence_of. cbn [sto_heads sto_fences sto_leases memory_of]. by rewrite !map_lookup_imap, Hn. Qed.
Lemma memory_history db id : items_of (memory_of db) id = canon <$> history_of db id.
Proof. unfold items_of, history_of. cbn [sto_history memory_of]. rewrite lookup_fmap. destruct (db_history db !! id); [done|]. cbn. unfold canon_items. by rewrite fmap_empty. Qed.
Lemma memory_payload db id r : payload_of (memory_of db) id r = default "" (canon <$> history_of db id !! r).
Proof. unfold payload_of. by rewrite memory_history, lookup_fmap. Qed.

Lemma canon_value (p : string) (e : ExecutionEnvelope) : unmarshal p = Some (Some e) -> representable e ->
  canon p <> "" /\ unmarshal (canon p) = Some (Some e) /\ marshal e = Some (canon p).
Proof.
  intros Hu Hr. destruct (marshal_representable e Hr) as [b Hb]. unfold canon. rewrite Hu, Hb.
  change (default p (Some b)) with b. split; [exact (encoded_nonempty e b Hb)|]. split; [exact (unmarshal_marshal e b Hr Hb)|done].
Qed.
Lemma canon_stored (e : ExecutionEnvelope) payload stored : representable e -> marshal e = Some payload -> to_jsonb payload = Some stored ->
  canon stored = payload /\ unmarshal stored = Some (Some e).
Proof.
  intros Hr Hm Hj. pose proof (jsonb_envelope _ _ Hj) as Hu. rewrite (unmarshal_marshal _ _ Hr Hm) in Hu.
  destruct (canon_value _ _ Hu Hr) as (_ & _ & Hc). split; congruence.
Qed.

(** ** Loads agree *)
Lemma decodeColumn_column {A} `{JsonCodec A} value : readable (A := A) value -> decodeColumn (default "" value) = Ok (column (A := A) value).
Proof.
  intros Hv. unfold decodeColumn, no_bytes. destruct value as [q|]; [|done]. destruct (Hv q eq_refl) as (Hq & a & Ha). cbn [default].
  rewrite bool_decide_eq_false_2 by done. unfold column. cbn. rewrite Ha. by destruct a.
Qed.

(** A row read at a positive revision: the revision asked for, or the head. *)
Lemma anchored_load db id row revision expected : db_ok db -> db_executions db !! id = Some row -> revision <> 0%N ->
  (if (expected =? 0)%N then revision = row_revision row else revision = expected) ->
  loadAnchoredEnvelope (Some (anchored row revision (history_of db id !! revision))) id expected
  = decodeAnchoredExecution (memory_of db) (payload_of (memory_of db) id revision) id revision.
Proof.
  intros Hdb Hrow Hr He. pose proof (do_rows _ Hdb _ _ Hrow) as Hok. rewrite memory_payload. unfold loadAnchoredEnvelope, decodeAnchoredExecution.
  destruct (memory_anchors db id row Hrow) as (-> & -> & ->).
  cbn [anchored anc_revision anc_payload anc_deleted anc_fork anc_incoming anc_outgoing].
  assert (Hpos : (0 <? revision)%N = true) by (apply N.ltb_lt; lia). rewrite Hpos. cbn [andb].
  destruct (history_of db id !! revision) as [p|] eqn:Ep; cbn [fmap option_fmap option_map].
  - rewrite !default_Some. destruct (do_history _ Hdb _ _ _ Ep) as (Hp & e & Hu & Hrep). destruct (canon_value _ _ Hu Hrep) as (Hne & Hcu & _).
    unfold no_bytes. rewrite !bool_decide_eq_false_2 by done. cbn [andb].
    unfold decodeRawEnvelope, decodeExecution. rewrite Hu, Hcu. rewrite (bool_decide_eq_false_2 (revision = 0%N)) by done. cbn [andb].
    assert ((expected != 0%N) && (revision != expected) = false) as ->.
    { destruct (N.eqb_spec expected 0) as [->|Hn]; [done|]. subst. rewrite (bool_decide_eq_true_2 (expected = expected)) by done. by rewrite andb_false_r. }
    destruct (of_error _ e) as [x|x]; [|done]. cbn [mbind res_bind]. unfold validateStoredForkAnchor, validateStoredLifecycleAnchors.
    by rewrite (decodeColumn_column _ (ro_fork _ _ _ Hok)), (decodeColumn_column _ (ro_incoming _ _ _ Hok)), (decodeColumn_column _ (ro_outgoing _ _ _ Hok)).
  - unfold no_bytes. rewrite !default_None, !bool_decide_eq_true_2 by done. cbn [andb].
    destruct (N.eqb_spec expected 0) as [->|Hn].
    + subst. pose proof (ro_head _ _ _ Hok Hr) as Hd. rewrite Ep in Hd. by rewrite Hd.
    + replace (0 <? expected)%N with true by (symmetry; apply N.ltb_lt; lia). by rewrite orb_true_r.
Qed.

Lemma history_zero db id : db_ok db -> history_of db id !! 0%N = None.
Proof.
  intros Hdb. destruct (history_of db id !! 0%N) as [p|] eqn:Ep; [|done].
  pose proof (so_items _ (do_store _ Hdb) id 0%N (canon p)) as Hit. rewrite memory_history, lookup_fmap, Ep in Hit. destruct (Hit eq_refl) as (Hz & _). lia.
Qed.

Lemma selectHead_load db id : db_ok db -> loadAnchoredEnvelope (selectHead id db) id 0 = LoadExecution None (memory_of db) id.
Proof.
  intros Hdb. unfold selectHead, LoadExecution. cbn [check mbind res_bind]. destruct (db_executions db !! id) as [row|] eqn:Er; cbn [fmap option_fmap option_map].
  - rewrite (memory_head _ _ _ Er). destruct (decide (row_revision row = 0%N)) as [E|E].
    + rewrite E, (history_zero db id Hdb). done.
    + rewrite bool_decide_eq_false_2 by done. by apply anchored_load.
  - destruct (memory_absent db id Er) as (-> & _). done.
Qed.
Lemma selectReached_load db id revision : db_ok db -> revision <> 0%N ->
  loadAnchoredEnvelope (selectReached id revision db) id revision = LoadCheckpoint None (memory_of db) id revision.
Proof.
  intros Hdb Hr. unfold selectReached, LoadCheckpoint, selectRevision. rewrite bool_decide_eq_false_2 by done. cbn [check mbind res_bind].
  destruct (db_executions db !! id) as [row|] eqn:Er; cbn [fmap option_fmap option_map].
  - rewrite (memory_head _ _ _ Er). destruct (N.leb_spec revision (row_revision row)), (N.ltb_spec (row_revision row) revision); try lia; [|done].
    apply anchored_load; [done..|]. by destruct (N.eqb_spec revision 0).
  - destruct (memory_absent db id Er) as (-> & _). destruct (N.ltb_spec 0 revision); [done|lia].
Qed.

(** ** What discovery rows do not change *)
Definition core (row : execution_row) : execution_row := row <| row_discovery_projected := false |> <| row_discovery_error := None |>.
Definition same_core (db db' : Database) : Prop :=
  db_history db' = db_history db /\ forall id, core <$> db_executions db' !! id = core <$> db_executions db !! id.

Lemma imap_core {A} (f : string -> execution_row -> option A) db db' : same_core db db' -> (forall id row, f id (core row) = f id row) ->
  map_imap f (db_executions db') = map_imap f (db_executions db).
Proof.
  intros [_ Hc] Hf. apply map_eq. intros id. rewrite !map_lookup_imap. specialize (Hc id).
  destruct (db_executions db' !! id) as [r'|], (db_executions db !! id) as [r|]; try done.
  pose proof (inj Some (core r') (core r) Hc) as E. cbn. by rewrite <- Hf, E, Hf.
Qed.
Lemma memory_core db db' : same_core db db' -> memory_of db' = memory_of db.
Proof.
  intros Hc. unfold memory_of. rewrite (proj1 Hc). rewrite !(imap_core _ db db' Hc); [done|..]; by intros id [].
Qed.
Lemma db_ok_core db db' : same_core db db' -> db_ok db -> db_ok db'.
Proof.
  intros Hc Hdb. pose proof Hc as [Hh He].
  assert (Hhist : forall id, history_of db' id = history_of db id) by (intros id; unfold history_of; by rewrite Hh).
  split; [rewrite (memory_core db db' Hc); exact (do_store _ Hdb)|split].
  - intros id row' Hr. specialize (He id). rewrite Hr in He. destruct (db_executions db !! id) as [row|] eqn:Er; [|done]. pose proof (inj Some (core row') (core row) He) as E.
    destruct (do_rows _ Hdb _ _ Er) as [H1 H2 H3 H4 H5 H6 H7 H8]. destruct row, row'. injection E as -> -> -> -> -> -> -> ->.
    split; try done. cbn in *. by rewrite Hhist.
  - intros id r p. rewrite Hhist. apply (do_history _ Hdb).
  - intros id Hn. rewrite Hh. apply (do_keys _ Hdb). specialize (He id). rewrite Hn in He. by destruct (db_executions db !! id).
Qed.

Lemma same_core_refl db : same_core db db.
Proof. done. Qed.
Lemma same_core_trans db1 db2 db3 : same_core db1 db2 -> same_core db2 db3 -> same_core db1 db3.
Proof. intros [H1 H2] [H3 H4]. split; [congruence|]. intros id. by rewrite H4. Qed.
Lemma same_core_stored db db' id : same_core db db' -> is_Some (db_executions db !! id) -> is_Some (db_executions db' !! id).
Proof. intros [_ Hc] [row Hrow]. specialize (Hc id). rewrite Hrow in Hc. destruct (db_executions db' !! id); [by eexists|done]. Qed.
Lemma same_core_due db due : same_core db (db <| db_due := due |>).
Proof. done. Qed.
Lemma same_core_project db id reason :
  same_core db (update_row id (fun row => row <| row_discovery_projected := true |> <| row_discovery_error := reason |>) db).
Proof.
  split; [done|]. intros k. cbn. destruct (decide (id = k)) as [<-|Hn]; [|by rewrite lookup_alter_ne].
  rewrite lookup_alter_eq. by destruct (db_executions db !! id) as [[]|].
Qed.
Lemma insertDue_core c db db' : insertDue c db = Ok db' -> same_core db db'.
Proof. unfold insertDue. intros Hi. do 2 (guard_in Hi; [done|]). injection Hi as <-. apply same_core_due. Qed.
Lemma insertCandidates_core candidates db db' u : runs (insertCandidates candidates) db db' u -> same_core db db'.
Proof.
  revert db. induction candidates as [|c l IH]; intros db Hr; cbn [insertCandidates] in Hr.
  - run_in Hr. subst. apply same_core_refl.
  - run_in Hr. apply insertDue_core in Hr0. eapply same_core_trans; [exact Hr0|by apply IH].
Qed.
Lemma replace_core envelope db db' u : runs (replaceDiscoveryProjection envelope) db db' u -> same_core db db'.
Proof.
  intros Hr. unfold replaceDiscoveryProjection, project in Hr. run_in Hr. injection Hr as <-. injection Hr1 as <-. apply insertCandidates_core in Hr2.
  eapply same_core_trans; [apply same_core_due|]. eapply same_core_trans; [exact Hr2|apply same_core_project].
Qed.
Lemma remove_core id diagnostic db db' u : runs (removeDiscoveryProjection id diagnostic) db db' u -> same_core db db'.
Proof.
  intros Hr. unfold removeDiscoveryProjection, project in Hr. run_in Hr. injection Hr as <-. injection Hr0 as <-.
  eapply same_core_trans; [apply same_core_due|apply same_core_project].
Qed.
(** ** What the discovery rows become *)
Definition flags (db : Database) (id : string) : option (bool * option string) :=
  (fun row => (row_discovery_projected row, row_discovery_error row)) <$> db_executions db !! id.
Definition candidate_key (c : dueCandidate) : string * string := (due_Kind c, due_Identity c).
Definition due_map (candidates : list dueCandidate) : gmap (string * string) dueCandidate :=
  list_to_map (map (fun c => (candidate_key c, c)) candidates).
Definition same_index (db db' : Database) (k : string) : Prop := due_of db' k = due_of db k /\ flags db' k = flags db k.
(** The rows of an execution are the candidates of [e]. *)
Definition indexes (e : ExecutionEnvelope) (db : Database) : Prop :=
  exists candidates, executionCandidates e = Ok candidates /\ NoDup (map candidate_key candidates) /\
    due_of db (env_ExecutionID e) = due_map candidates /\ flags db (env_ExecutionID e) = Some (true, None).
Definition unindexed (id : string) (reason : option string) (db : Database) : Prop := due_of db id = ∅ /\ flags db id = Some (true, reason).

Lemma same_index_trans db1 db2 db3 k : same_index db1 db2 k -> same_index db2 db3 k -> same_index db1 db3 k.
Proof. intros [H1 H2] [H3 H4]. split; congruence. Qed.
Lemma indexes_same e db db' : indexes e db -> same_index db db' (env_ExecutionID e) -> indexes e db'.
Proof. intros (cs & H1 & H2 & H3 & H4) [H5 H6]. exists cs. split_and!; congruence. Qed.

Lemma due_map_key candidates key c : due_map candidates !! key = Some c -> key = candidate_key c /\ c ∈ candidates.
Proof.
  intros Hc. apply elem_of_list_to_map_2, list_elem_of_In, in_map_iff in Hc as (x & [= <- <-] & Hx). split; [done|by apply list_elem_of_In].
Qed.
Lemma due_map_fresh candidates c : candidate_key c ∉ map candidate_key candidates <-> due_map candidates !! candidate_key c = None.
Proof.
  unfold due_map. rewrite <- not_elem_of_list_to_map. assert (E : map candidate_key candidates = (map (fun c => (candidate_key c, c)) candidates).*1);
    [|by rewrite E]. induction candidates as [|x l IH]; [done|]. cbn. by f_equal.
Qed.

Lemma insertCandidates_index id candidates db db' u : runs (insertCandidates candidates) db db' u ->
  (forall c, c ∈ candidates -> due_ExecutionID c = id) ->
  db_executions db' = db_executions db /\ NoDup (map candidate_key candidates) /\
  (forall c, c ∈ candidates -> due_of db id !! candidate_key c = None) /\
  due_of db' id = due_map candidates ∪ due_of db id /\ forall k, k <> id -> due_of db' k = due_of db k.
Proof.
  revert db. induction candidates as [|c l IH]; intros db Hr Hid; cbn [insertCandidates] in Hr.
  - run_in Hr. subst. split_and!; try done; [constructor|by intros c ?%not_elem_of_nil|]. symmetry. apply (left_id_L ∅ (∪)).
  - run_in Hr. apply IH in Hr as (E & Hnd & Hfr & Hdue & Hoth); [|intros x Hx; apply Hid; by right].
    unfold insertDue in Hr0. rewrite (Hid c) in Hr0 by left. guard_in Hr0; [done|]. guard_in Hr0; [done|]. injection Hr0 as Edb.
    apply negb_false_iff, is_nil_true in Hg0. change (due_Kind c, due_Identity c) with (candidate_key c) in *.
    rename db0 into db1. assert (Ed : forall k, due_of db1 k
      = if bool_decide (k = id) then <[candidate_key c := c]> (due_of db id) else due_of db k).
    { intros k. rewrite <- Edb. unfold due_of at 1. cbn [db_due upd]. case_bool_decide as Ek; [subst; by rewrite lookup_insert_eq|by rewrite lookup_insert_ne]. }
    rewrite (Ed id), bool_decide_eq_true_2 in Hdue by done.
    assert (Hnew : candidate_key c ∉ map candidate_key l).
    { intros (x & Ex & Hx)%list_elem_of_In%in_map_iff. apply list_elem_of_In in Hx. specialize (Hfr x Hx). rewrite Ed, bool_decide_eq_true_2, Ex, lookup_insert_eq in Hfr by done. done. }
    split; [by rewrite E, <- Edb|]. split; [by constructor|]. split; [|split].
    + intros x [->|Hx]%elem_of_cons; [done|]. specialize (Hfr x Hx). rewrite Ed, bool_decide_eq_true_2 in Hfr by done. by apply lookup_insert_None in Hfr as [? _].
    + rewrite Hdue. change (due_map (c :: l)) with (<[candidate_key c := c]> (due_map l)). rewrite <- insert_union_l. symmetry. apply insert_union_r. by apply due_map_fresh.
    + intros k Hk. rewrite Hoth by done. rewrite Ed. by rewrite bool_decide_eq_false_2.
Qed.

Lemma deleteDue_index id db k : due_of (deleteDue id db) k = if bool_decide (k = id) then ∅ else due_of db k.
Proof. unfold due_of, deleteDue. cbn [db_due upd]. case_bool_decide as E; [subst; by rewrite lookup_delete_eq|by rewrite lookup_delete_ne]. Qed.
Lemma project_index id reason db k :
  let db' := update_row id (fun row => row <| row_discovery_projected := true |> <| row_discovery_error := reason |>) db in
  db_due db' = db_due db /\ flags db' k = if bool_decide (k = id) then (fun _ => (true, reason)) <$> db_executions db !! k else flags db k.
Proof.
  cbv zeta. split; [done|]. unfold flags, update_row. cbn [db_executions upd]. case_bool_decide as E.
  - subst. rewrite lookup_alter_eq. by destruct (db_executions db !! id).
  - by rewrite lookup_alter_ne.
Qed.

Lemma executionCandidates_id e candidates c : executionCandidates e = Ok candidates -> c ∈ candidates -> due_ExecutionID c = env_ExecutionID e.
Proof.
  unfold executionCandidates. intros He Hc. destruct (env_Terminal e), (env_RuntimeProfile e); try (injection He as <-; by apply not_elem_of_nil in Hc).
  apply bind_Ok in He as (waits & _ & He). apply bind_Ok in He as (retries & _ & He). injection He as <-.
  apply elem_of_app in Hc as [Hc|Hc]; by apply list_elem_of_In, in_map_iff in Hc as (x & <- & _).
Qed.

Lemma replace_index e db db' u : is_Some (db_executions db !! env_ExecutionID e) -> runs (replaceDiscoveryProjection e) db db' u ->
  indexes e db' /\ forall k, k <> env_ExecutionID e -> same_index db db' k.
Proof.
  intros [row Hrow] Hr. unfold replaceDiscoveryProjection, project in Hr. run_in Hr. injection Hr as <-. injection Hr1 as <-.
  apply (insertCandidates_index (env_ExecutionID e)) in Hr2 as (E & Hnd & _ & Hdue & Hoth); [|intros c; by apply executionCandidates_id].
  rewrite deleteDue_index, bool_decide_eq_true_2, (right_id_L ∅ (∪)) in Hdue by done.
  change (db_executions (deleteDue (env_ExecutionID e) db)) with (db_executions db) in E.
  split.
  - exists a. split; [done|]. split; [done|]. split; [exact Hdue|]. etransitivity; [apply (proj2 (project_index (env_ExecutionID e) None db1 _))|]. rewrite bool_decide_eq_true_2 by done. by rewrite E, Hrow.
  - intros k Hk. split.
    + transitivity (due_of db1 k); [done|]. rewrite (Hoth k Hk). by rewrite deleteDue_index, bool_decide_eq_false_2.
    + etransitivity; [apply (proj2 (project_index (env_ExecutionID e) None db1 _))|]. rewrite bool_decide_eq_false_2 by done. unfold flags. by rewrite E.
Qed.
Lemma remove_index id diagnostic db db' u : is_Some (db_executions db !! id) -> runs (removeDiscoveryProjection id diagnostic) db db' u ->
  unindexed id (if diagnostic == "" then None else Some diagnostic) db' /\ forall k, k <> id -> same_index db db' k.
Proof.
  intros [row Hrow] Hr. unfold removeDiscoveryProjection, project in Hr. run_in Hr. injection Hr as <-. injection Hr0 as <-.
  set (reason := if diagnostic == "" then None else Some diagnostic). pose proof (project_index id reason (deleteDue id db)) as Hp.
  split; [split|intros k Hk; split].
  - change (due_of (deleteDue id db) id = ∅). by rewrite deleteDue_index, bool_decide_eq_true_2.
  - etransitivity; [apply (proj2 (Hp id))|]. rewrite bool_decide_eq_true_2 by done. change (db_executions (deleteDue id db)) with (db_executions db). by rewrite Hrow.
  - change (due_of (deleteDue id db) k = due_of db k). by rewrite deleteDue_index, bool_decide_eq_false_2.
  - etransitivity; [apply (proj2 (Hp k))|]. by rewrite bool_decide_eq_false_2.
Qed.
End PostgresInv.
