(* ===== verification/PostgresOps.v ===== *)
(** * Operations of the PostgreSQL store, one by one

    Each operation of Postgres.v takes effect as the operation of the same name of the
    reference store, and keeps the invariant of the tables. *)

From stdpp Require Import relations.
From S2P Require Import Prelude Go Sha256 Json Identity Schedule Activity Waits Contract Children Wire Migration Integrity Aggregate Store StoreInv Session Postgres PostgresInv.

Section PostgresOps.
Context `{HC : Codecs} `{HL : !LawfulCodecs} `{HJ : JsonColumns} `{HLC : !LawfulColumns}.

Lemma store_eq (s s' : MemoryExecutionStore) : sto_history s = sto_history s' -> sto_heads s = sto_heads s' -> sto_leases s = sto_leases s' ->
  sto_fences s = sto_fences s' -> sto_lineage s = sto_lineage s' -> sto_incoming s = sto_incoming s' -> sto_outgoing s = sto_outgoing s' -> s = s'.
Proof. destruct s, s'. cbn. congruence. Qed.

(** ** One row *)
Lemma update_row_insert id f db row : db_executions db !! id = Some row ->
  update_row id f db = db <| db_executions := <[id := f row]> (db_executions db) |>.
Proof.
  intros Hr. unfold update_row. destruct db as [ex h d]. cbn in *. f_equal. apply map_eq. intros k. destruct (decide (id = k)) as [<-|Hn].
  - by rewrite lookup_alter_eq, lookup_insert_eq, Hr.
  - by rewrite lookup_alter_ne, lookup_insert_ne.
Qed.
Lemma updateWhere_one id p f db db' : updateWhere id p f db = (db', 1%N) ->
  exists row, db_executions db !! id = Some row /\ p row = true /\ db' = db <| db_executions := <[id := f row]> (db_executions db) |>.
Proof.
  unfold updateWhere. destruct (db_executions db !! id) as [row|] eqn:Er; [|done]. destruct (p row) eqn:Ep; [|done].
  intros [= <-]. exists row. split; [done|]. split; [done|]. by apply update_row_insert.
Qed.
Lemma owned_true now owner fence row : owned now owner fence row = true ->
  row_lease_owner row = Some owner /\ row_fence row = fence /\ exists t, row_lease_expiry row = Some t /\ After t now = true.
Proof.
  unfold owned. destruct (row_lease_owner row) as [o|]; [|done]. destruct (row_lease_expiry row) as [t|]; [|done].
  rewrite !andb_true_iff, !bool_decide_eq_true. intros [[-> ->] Ha]. eauto.
Qed.
Lemma owned_held db id row now owner fence lease : db_executions db !! id = Some row -> owned now owner fence row = true ->
  lse_ExecutionID lease = id -> lse_Owner lease = owner -> lse_Incarnation lease = fence -> fence <> 0%N -> held (memory_of db) now lease = true.
Proof.
  intros Hr Ho <- <- <- Hf. apply owned_true in Ho as (Eo & Ef & t & Et & Ha). unfold held, lease_of. rewrite (memory_lease db _ row Hr). unfold row_lease.
  rewrite Eo, Et, default_Some, Ef. cbn [lse_Owner lse_Incarnation lse_ExpiresAt].
  rewrite bool_decide_eq_false_2, !bool_decide_eq_true_2, Ha by done. done.
Qed.

Lemma lockHead_runs id owner fence db db' revision : runs (lockHead id owner fence) db db' (Some (revision, true)) ->
  db' = db /\ exists row now, db_executions db !! id = Some row /\ revision = row_revision row /\ owned now owner fence row = true.
Proof.
  intros Hr. unfold lockHead in Hr. run_in Hr. split; [done|]. destruct (db_executions db !! id) as [row|]; [|done].
  injection Hr as E Ho. exists row, now. done.
Qed.

(** ** A new checkpoint of one execution *)
Definition put_checkpoint_row (id : string) (row : execution_row) (revision : N) (stored : string) (db : Database) : Database :=
  mkDatabase (<[id := row]> (db_executions db)) (<[id := <[revision := stored]> (history_of db id)]> (db_history db)) (db_due db) (db_threads db).

Lemma insertHistory_Ok id revision payload db db' : insertHistory id revision payload db = Ok db' ->
  exists stored, to_jsonb payload = Some stored /\ history_of db id !! revision = None /\ is_Some (db_executions db !! id) /\
    db' = db <| db_history := <[id := <[revision := stored]> (history_of db id)]> (db_history db) |>.
Proof.
  unfold insertHistory, jsonb, of_option, stored_row. destruct (to_jsonb payload) as [stored|]; [|done]. cbn [mbind res_bind]. intros Hi.
  guard_in Hi; [done|]. guard_in Hi; [done|]. injection Hi as <-. exists stored.
  apply negb_false_iff in Hg, Hg0. apply is_nil_true in Hg0. split_and!; try done. destruct (db_executions db !! id); [by eexists|done].
Qed.

Lemma put_checkpoint_items id row revision stored db k : history_of (put_checkpoint_row id row revision stored db) k =
  if bool_decide (k = id) then <[revision := stored]> (history_of db id) else history_of db k.
Proof.
  unfold history_of at 1. cbn [db_history put_checkpoint_row]. case_bool_decide as E.
  - subst. by rewrite lookup_insert_eq.
  - by rewrite lookup_insert_ne.
Qed.

Lemma put_checkpoint_tables id row' revision stored (e : ExecutionEnvelope) db : tables_ok db ->
  unmarshal stored = Some (Some e) -> representable e -> stored <> "" ->
  row_revision row' = revision -> (0 < revision <= max_bigint)%N -> (row_fence row' <= max_bigint)%N ->
  is_nil (row_lease_owner row') = is_nil (row_lease_expiry row') -> row_payload_deleted row' = false ->
  readable (A := ForkLineage) (row_fork_lineage row') -> readable (A := RolloverReceipt) (row_rollover_incoming row') ->
  readable (A := RolloverReceipt) (row_rollover_outgoing row') -> tables_ok (put_checkpoint_row id row' revision stored db).
Proof.
  intros Hdb Hu Hrep Hne Hrev Hb Hf Hl Hdel H1 H2 H3. split.
  - intros k r Hk. cbn [db_executions put_checkpoint_row] in Hk. destruct (decide (k = id)) as [->|Hn].
    + rewrite lookup_insert_eq in Hk. injection Hk as <-. split; try done; try congruence; try (rewrite Hrev; lia).
      intros _. rewrite put_checkpoint_items, bool_decide_eq_true_2 by done. by rewrite Hrev, lookup_insert_eq.
    + rewrite lookup_insert_ne in Hk by done. destruct (do_rows _ Hdb _ _ Hk) as [B1 B2 B3 B4 B5 B6 B7 B8]. split; try done.
      intros Hz. rewrite put_checkpoint_items, bool_decide_eq_false_2 by done. by apply B8.
  - intros k r p. rewrite put_checkpoint_items. case_bool_decide as E; [|apply (do_history _ Hdb)].
    destruct (decide (r = revision)) as [->|Hn]; [|rewrite lookup_insert_ne by done; apply (do_history _ Hdb)].
    rewrite lookup_insert_eq. intros [= <-]. split; [done|]. by exists e.
  - intros k Hk. cbn [db_executions db_history put_checkpoint_row] in Hk |- *. apply lookup_insert_None in Hk as [Hk Hn].
    apply lookup_insert_None. split; [by apply (do_keys _ Hdb)|done].
Qed.

Lemma memory_put_checkpoint id row row' revision stored db : db_executions db !! id = Some row ->
  row_revision row' = revision -> revision <> 0%N -> row_fence row' = row_fence row ->
  row_lease_owner row' = row_lease_owner row -> row_lease_expiry row' = row_lease_expiry row ->
  let s := memory_of db in let s' := memory_of (put_checkpoint_row id row' revision stored db) in
  sto_history s' = <[id := <[revision := canon stored]> (items_of s id)]> (sto_history s) /\
  sto_heads s' = <[id := revision]> (sto_heads s) /\ sto_leases s' = sto_leases s /\ sto_fences s' = sto_fences s.
Proof.
  intros Hrow Hrev Hz Hf Ho He s s'. subst s s'. split_and!.
  - cbn [sto_history memory_of db_history put_checkpoint_row]. rewrite fmap_insert, memory_history. f_equal. unfold canon_items. by rewrite fmap_insert.
  - cbn [sto_heads memory_of db_executions put_checkpoint_row]. rewrite imap_insert. unfold row_head at 1. rewrite Hrev.
    by destruct (N.eqb_spec revision 0).
  - cbn [sto_leases memory_of db_executions put_checkpoint_row]. apply (imap_same _ _ _ row); [done|]. unfold row_lease. by rewrite Hf, Ho, He.
  - cbn [sto_fences memory_of db_executions put_checkpoint_row]. apply (imap_same _ _ _ row); [done|]. unfold row_fences. by rewrite Hf.
Qed.

Lemma predecessor_runs revision next db db' u : db_ok db -> runs (validateForkPredecessor revision next) db db' u ->
  db' = db /\ exists previous,
    (if (0 <? revision)%N
     then stored ← decodeAnchoredExecution (memory_of db) (payload_of (memory_of db) (env_ExecutionID next) revision) (env_ExecutionID next) revision;
          Ok (Some stored)
     else Ok None) = Ok previous /\
    ValidateExecutionRolloverTransition previous next = None /\
    ValidateExecutionForkTransition ((fun p => (env_ExecutionID p, env_Fork p)) <$> previous) next = None.
Proof.
  intros Hdb Hr. unfold validateForkPredecessor in Hr. case_bool_decide as E.
  - run_in Hr. apply check_Ok in Hr, Hr0. split; [done|]. exists None. by subst.
  - run_in Hr. apply check_Ok in Hr, Hr1. split; [done|]. exists (Some a). replace (0 <? revision)%N with true by (symmetry; apply N.ltb_lt; lia).
    split_and!; [|done|done]. unfold selectStored, selectRevision in Hr0. destruct (history_of db _ !! revision) as [p|] eqn:Ep; [|done].
    destruct (db_executions db !! env_ExecutionID next) as [row|] eqn:Er; [|done]. cbn [fmap option_fmap option_map] in Hr0.
    rewrite <- Ep, (anchored_load db _ row revision revision Hdb Er E) in Hr0 by by destruct (N.eqb_spec revision 0).
    destruct (decodeAnchoredExecution _ _ _ _) as [x|x]; [|done]. injection Hr0 as ->. done.
Qed.

(** ** Commits *)
Lemma commit_row_fork (e : ExecutionEnvelope) stored row : unmarshal stored = Some (Some e) ->
  readable (A := ForkLineage) (row_fork_lineage row) ->
  readable (A := ForkLineage) (if row_revision row == 0%N then jsonb_fork stored else row_fork_lineage row).
Proof.
  intros Hu Hr. case_bool_decide; [|done]. pose proof (jsonb_fork_value stored e Hu) as Hf. intros q Hq. rewrite Hq in Hf. destruct Hf as [Hne Hf].
  split; [done|]. by exists (env_Fork e).
Qed.
Lemma column_fork (e : ExecutionEnvelope) stored : unmarshal stored = Some (Some e) -> column (A := ForkLineage) (jsonb_fork stored) = env_Fork e.
Proof.
  intros Hu. pose proof (jsonb_fork_value stored e Hu) as Hf. unfold column. destruct (jsonb_fork stored) as [q|]; [|done].
  destruct Hf as [_ Hf]. cbn. rewrite Hf. by destruct (env_Fork e).
Qed.

Definition committed_row (row : execution_row) (revision : N) (stored : string) : execution_row :=
  row <| row_revision := revision |>
      <| row_fork_lineage := if row_revision row == 0%N then jsonb_fork stored else row_fork_lineage row |>.

(** The lineage of the reference store after a commit. *)
Lemma memory_commit_lineage id row stored (e : ExecutionEnvelope) revision db : db_executions db !! id = Some row -> unmarshal stored = Some (Some e) ->
  sto_lineage (memory_of db) !! id = None \/ row_revision row <> 0%N ->
  map_imap row_lineage (<[id := committed_row row revision stored]> (db_executions db)) =
  match env_Fork e with
  | Some l => if row_revision row == 0%N then <[id := l]> (sto_lineage (memory_of db)) else sto_lineage (memory_of db)
  | None => sto_lineage (memory_of db)
  end.
Proof.
  intros Hrow Hu Hl. rewrite imap_insert. unfold row_lineage at 1. cbn [row_fork_lineage committed_row upd]. case_bool_decide as Hz.
  - rewrite (column_fork e stored Hu). destruct (env_Fork e); [done|]. apply delete_id. by destruct Hl.
  - assert (map_imap row_lineage (db_executions db) !! id = column (row_fork_lineage row)) as E by by rewrite map_lookup_imap, Hrow.
    change (sto_lineage (memory_of db)) with (map_imap row_lineage (db_executions db)).
    assert (match column (row_fork_lineage row) with Some y => <[id := y]> (map_imap row_lineage (db_executions db))
            | None => delete id (map_imap row_lineage (db_executions db)) end = map_imap row_lineage (db_executions db)) as ->.
    { destruct (column _) as [l|]; [by apply insert_id|by apply delete_id]. }
    by destruct (env_Fork e).
Qed.


(** The tables after a commit that passed every check are the reference store after the
    same commit. *)
Lemma commit_simulated db now row lease envelope sealed payload stored previous (id := env_ExecutionID envelope) (expected := row_revision row) :
  db_ok db -> db_executions db !! id = Some row -> (expected < max_bigint)%N -> held (memory_of db) now lease = true ->
  id = lse_ExecutionID lease -> validateDescriptor (env_Descriptor envelope) = None ->
  (if (0 <? expected)%N
   then stored ← decodeAnchoredExecution (memory_of db) (payload_of (memory_of db) id expected) id expected; Ok (Some stored)
   else Ok None) = Ok previous ->
  ValidateExecutionRolloverTransition previous envelope = None ->
  ValidateExecutionForkTransition ((fun p => (env_ExecutionID p, env_Fork p)) <$> previous) envelope = None ->
  SealExecutionEnvelope (envelope <| env_Revision := (expected + 1)%N |>) = Ok sealed -> representable sealed ->
  marshal sealed = Some payload -> to_jsonb payload = Some stored ->
  let db' := put_checkpoint_row id (committed_row row (expected + 1) stored) (expected + 1) stored db in
  db_ok db' /\ CommitExecution None now (memory_of db) expected lease envelope = Ok (memory_of db', sealed).
Proof.
  intros Hdb Hrow Hmax Hheld Hid Hdesc Hprev Hroll Hfork Hseal Hrep Hm Hj db'. pose proof (canon_stored _ _ _ Hrep Hm Hj) as [Hcan Hu].
  assert (Hlt : (expected < max_uint64)%N) by (unfold max_bigint, max_uint64 in *; lia).
  assert (Hsucc : succ_u64 expected = (expected + 1)%N) by by apply succ_u64_lt.
  pose proof (memory_head db id row Hrow) as Hhead. fold expected in Hhead. pose proof (do_rows _ Hdb _ _ Hrow) as Hok.
  destruct (commit_complete now (memory_of db) lease envelope sealed previous) as [s' Hs']; unfold id in *; rewrite ?Hhead; try done; [lia|by rewrite Hsucc|].
  rewrite Hhead in Hs'. pose proof (fun H => commit_Ok _ _ _ _ _ _ _ H Hs') as Hc. rewrite Hsucc in Hc.
  assert (Hcm : committed now (memory_of db) expected lease envelope s' sealed) by (apply Hc; intros e He; congruence). clear Hc.
  pose proof (commit_ok _ _ _ _ _ _ _ (do_store _ Hdb) Hcm) as Hst. pose proof (seal_Ok _ _ Hseal) as (b & _ & Es & _).
  assert (Ef : env_Fork sealed = env_Fork envelope) by by rewrite Es. clear Es b.
  destruct (memory_put_checkpoint _ row (committed_row row (expected + 1) stored) (expected + 1) stored db Hrow) as (M1 & M2 & M3 & M4); [done|lia|done..|].
  destruct (memory_anchors db _ row Hrow) as (A1 & _ & _).
  assert (Es' : s' = memory_of db').
  { pose proof (commit_frame _ _ _ _ _ _ _ Hcm) as (F1 & F2 & F3 & F4 & (encoded & F5 & _ & F6) & F7 & F8). rewrite Hsucc in F6, F7.
    assert (encoded = payload) as -> by congruence. unfold db'. apply store_eq.
    1-4: rewrite ?M1, ?M2, ?M3, ?M4, ?Hcan; done.
    - rewrite F8, <- Ef. symmetry. cbn [sto_lineage memory_of db_executions put_checkpoint_row].
      apply (memory_commit_lineage _ row stored sealed _ db Hrow Hu).
      destruct (decide (expected = 0%N)) as [E|E]; [|by right]. left. destruct (sto_lineage (memory_of db) !! env_ExecutionID envelope) eqn:El; [|done].
      apply (so_lineage _ (do_store _ Hdb)) in El. congruence.
    - rewrite F3. symmetry. cbn [sto_incoming memory_of db_executions put_checkpoint_row]. by apply (imap_same _ _ _ row).
    - rewrite F4. symmetry. cbn [sto_outgoing memory_of db_executions put_checkpoint_row]. by apply (imap_same _ _ _ row). }
  subst s'. split; [|done]. split; [done|]. apply (put_checkpoint_tables _ _ _ _ sealed _ (do_tables _ Hdb)); try done.
  - exact (jsonb_nonempty _ _ Hj).
  - lia.
  - exact (ro_fence _ _ _ Hok).
  - exact (ro_lease _ _ _ Hok).
  - cbn. destruct (decide (expected = 0%N)) as [E|E]; [by apply (ro_fresh _ _ _ Hok)|]. rewrite (ro_head _ _ _ Hok E).
    replace (0 <? expected)%N with true in Hprev by (symmetry; apply N.ltb_lt; lia). apply bind_Ok in Hprev as (x & Hx & _).
    apply decodeAnchored_Ok in Hx as (Hne & _). rewrite memory_payload in Hne. unfold expected in *. by destruct (history_of db _ !! row_revision row).
  - exact (commit_row_fork sealed stored row Hu (ro_fork _ _ _ Hok)).
  - exact (ro_incoming _ _ _ Hok).
  - exact (ro_outgoing _ _ _ Hok).
Qed.

(** A row replaced by one with the same discovery columns. *)
Lemma put_index id row row' history db k : db_executions db !! id = Some row ->
  row_discovery_projected row' = row_discovery_projected row -> row_discovery_error row' = row_discovery_error row ->
  same_index db (mkDatabase (<[id := row']> (db_executions db)) history (db_due db) (db_threads db)) k.
Proof.
  intros Hrow H1 H2. split; [done|]. unfold flags. cbn [db_executions]. destruct (decide (id = k)) as [<-|Hn]; [|by rewrite lookup_insert_ne].
  rewrite lookup_insert_eq, Hrow. cbn. by rewrite H1, H2.
Qed.

Lemma commit_effects w expected lease envelope : db_ok (pw_db w) ->
  (forall e, SealExecutionEnvelope (envelope <| env_Revision := (expected + 1)%N |>) = Ok e -> representable e) ->
  effects (pgCommitExecution expected lease envelope) w (fun db' result => db_ok db' /\
    (exists now, CommitExecution None now (memory_of (pw_db w)) expected lease envelope = Ok (memory_of db', result)) /\
    indexes result db' /\ forall k, k <> env_ExecutionID result -> same_index (pw_db w) db' k).
Proof.
  intros Hdb Hrep. apply effects_guard. intros Hmax. apply effects_guard. intros Hlease. apply effects_check. intros Hdesc.
  apply effects_guard. intros Hptr. apply effects_transaction. intros db' result Hr. run_in Hr.
  rewrite !andb_true_iff, !negb_true_iff, !bool_decide_eq_true, !bool_decide_eq_false in Hlease. destruct Hlease as (((Hinc & _) & _) & Hid).
  apply bool_decide_eq_true in Hguard, Hguard0. subst a0 a6. apply N.ltb_lt in Hmax.
  destruct a as [[revision []]|]; [|done..]. injection Hr1 as ->. apply lockHead_runs in Hr0 as (-> & row & now0 & Hrow & -> & Hown).
  apply (predecessor_runs _ _ _ _ _ Hdb) in Hr2 as (-> & previous & Hprev & Hroll & Hfork).
  pose proof (Hrep _ Hr3) as Hra. pose proof (seal_Ok _ _ Hr3) as (b & _ & Es & _).
  assert (E1 : env_ExecutionID a2 = env_ExecutionID envelope) by by rewrite Es.
  assert (E2 : env_Revision a2 = (row_revision row + 1)%N) by by rewrite Es. clear Es b. rewrite E1, E2 in *.
  unfold of_option in Hr4. destruct (marshal a2) as [payload|] eqn:Em; [|done]. injection Hr4 as ->.
  rewrite (unmarshal_marshal _ _ Hra Em) in Hr5. injection Hr5 as <-. subst result.
  apply insertHistory_Ok in Hr6 as (stored & Hj & _ & _ & ->). unfold jsonb in Hr7. rewrite Hj in Hr7. injection Hr7 as Hr7.
  apply updateWhere_one in Hr7 as (row' & Hrow' & _ & ->). cbn [db_executions upd] in Hrow'. rewrite Hid, Hrow in Hrow'. injection Hrow' as <-.
  pose proof Hr8 as Hindex. apply replace_core in Hr8. apply replace_index in Hindex as [Hix Hoth]; [|rewrite E1, Hid; eexists; apply lookup_insert_eq].
  rewrite Hid in *. destruct (commit_simulated (pw_db w) now0 row lease envelope a2 a3 stored previous) as [Hok Hc]; rewrite ?Hid; try done.
  - by eapply owned_held.
  - rewrite Hid in Hok, Hc. split; [by eapply db_ok_core|]. split; [exists now0; rewrite Hc; f_equal; f_equal; symmetry; by apply memory_core|].
    split; [done|]. intros k Hk. eapply same_index_trans; [|by apply Hoth]. exact (put_index _ row (committed_row row (row_revision row + 1) stored) _ (pw_db w) k Hrow eq_refl eq_refl).
Qed.

(** ** Leases *)
Definition put_row (id : string) (row : execution_row) (db : Database) : Database := db <| db_executions := <[id := row]> (db_executions db) |>.
(** The columns that no lease operation changes. *)
Definition same_contents (row row' : execution_row) : Prop :=
  row_revision row' = row_revision row /\ row_fork_lineage row' = row_fork_lineage row /\ row_rollover_incoming row' = row_rollover_incoming row /\
  row_rollover_outgoing row' = row_rollover_outgoing row /\ row_payload_deleted row' = row_payload_deleted row.

Lemma memory_put_lease id row row' db : db_executions db !! id = Some row -> same_contents row row' -> row_fence row' <> 0%N ->
  let s := memory_of db in
  memory_of (put_row id row' db) = mkStore (sto_history s) (sto_heads s)
    (match row_lease id row' with Some l => <[id := l]> (sto_leases s) | None => delete id (sto_leases s) end)
    (<[id := row_fence row']> (sto_fences s)) (sto_lineage s) (sto_incoming s) (sto_outgoing s).
Proof.
  intros Hrow (H1 & H2 & H3 & H4 & _) Hf s. subst s. apply store_eq; cbn [memory_of put_row sto_history sto_heads sto_leases sto_fences sto_lineage sto_incoming sto_outgoing db_executions db_history upd].
  - done.
  - apply (imap_same _ _ _ row); [done|]. unfold row_head. by rewrite H1.
  - apply imap_insert.
  - rewrite imap_insert. unfold row_fences at 1. by destruct (N.eqb_spec (row_fence row') 0).
  - apply (imap_same _ _ _ row); [done|]. unfold row_lineage. by rewrite H2.
  - apply (imap_same _ _ _ row); [done|]. unfold row_incoming. by rewrite H3.
  - apply (imap_same _ _ _ row); [done|]. unfold row_outgoing. by rewrite H4.
Qed.
Lemma put_lease_ok id row row' db : db_ok db -> db_executions db !! id = Some row -> same_contents row row' -> (row_fence row' <= max_bigint)%N ->
  is_nil (row_lease_owner row') = is_nil (row_lease_expiry row') -> store_ok (memory_of (put_row id row' db)) -> db_ok (put_row id row' db).
Proof.
  intros Hdb Hrow (H1 & H2 & H3 & H4 & H5) Hf Hl Hst. split; [done|split].
  - intros k r Hk. change (db_executions (put_row id row' db)) with (<[id := row']> (db_executions db)) in Hk.
    destruct (decide (id = k)) as [<-|Hn].
    + rewrite lookup_insert_eq in Hk. injection Hk as <-. destruct (do_rows _ Hdb _ _ Hrow). split; rewrite ?H1, ?H2, ?H3, ?H4, ?H5; done.
    + rewrite lookup_insert_ne in Hk by done. destruct (do_rows _ Hdb _ _ Hk). by split.
  - exact (do_history _ Hdb).
  - intros k Hk. change (db_executions (put_row id row' db)) with (<[id := row']> (db_executions db)) in Hk.
    apply lookup_insert_None in Hk as [Hk _]. exact (do_keys _ Hdb _ Hk).
Qed.

Lemma insert_default id db : db_ok db -> db_executions db !! id = None ->
  memory_of (put_row id default_row db) = memory_of db /\ db_ok (put_row id default_row db).
Proof.
  intros Hdb Hn. assert (Hm : memory_of (put_row id default_row db) = memory_of db).
  { apply store_eq; cbn [memory_of put_row sto_history sto_heads sto_leases sto_fences sto_lineage sto_incoming sto_outgoing db_executions db_history upd];
      [done|by apply imap_fresh..]. }
  split; [done|]. split; [rewrite Hm; exact (do_store _ Hdb)|split].
  - intros k r Hk. change (db_executions (put_row id default_row db)) with (<[id := default_row]> (db_executions db)) in Hk.
    destruct (decide (id = k)) as [<-|Hne].
    + rewrite lookup_insert_eq in Hk. injection Hk as <-. by split.
    + rewrite lookup_insert_ne in Hk by done. destruct (do_rows _ Hdb _ _ Hk). by split.
  - exact (do_history _ Hdb).
  - intros k Hk. change (db_executions (put_row id default_row db)) with (<[id := default_row]> (db_executions db)) in Hk.
    apply lookup_insert_None in Hk as [Hk _]. exact (do_keys _ Hdb _ Hk).
Qed.
Lemma insertExecution_default id db db' : db_ok db -> (insertExecution id default_row db).1 = db' ->
  db_ok db' /\ memory_of db' = memory_of db.
Proof.
  intros Hdb <-. unfold insertExecution, stored_row. destruct (db_executions db !! id) eqn:E; [done|]. cbn [is_nil negb fst].
  destruct (insert_default id db Hdb E). done.
Qed.

Lemma leaseTTLSeconds_pos ttl : (0 < ttl)%Z -> (0 < leaseTTLSeconds ttl)%Z /\ (ttl <= leaseTTLSeconds ttl < ttl + 1000)%Z.
Proof.
  intros Ht. unfold leaseTTLSeconds, microsecond. pose proof (Z.div_mod ttl 1000 ltac:(lia)). pose proof (Z.mod_pos_bound ttl 1000 ltac:(lia)).
  destruct (Z.eqb_spec (ttl mod 1000) 0); cbn [negb]; lia.
Qed.

(** A row with the defaults of the schema may appear. *)
Definition index_grows (db db' : Database) (k : string) : Prop :=
  same_index db db' k \/ (due_of db' k = due_of db k /\ flags db k = None /\ flags db' k = Some (false, None)).
Lemma insertExecution_index id db k : index_grows db (insertExecution id default_row db).1 k.
Proof.
  unfold insertExecution, stored_row. destruct (db_executions db !! id) eqn:E; [by left|]. cbn [is_nil negb fst].
  destruct (decide (id = k)) as [<-|Hn].
  - right. split; [done|]. unfold flags. cbn [db_executions upd]. by rewrite E, lookup_insert_eq.
  - left. split; [done|]. unfold flags. cbn [db_executions upd]. by rewrite lookup_insert_ne.
Qed.
Lemma index_grows_same db1 db2 db3 k : index_grows db1 db2 k -> same_index db2 db3 k -> index_grows db1 db3 k.
Proof. intros [Hs|(H1 & H2 & H3)] Ht; [left; by eapply same_index_trans|]. destruct Ht. right. split_and!; congruence. Qed.

Lemma acquire_effects w id owner ttl : db_ok (pw_db w) ->
  effects (pgAcquireExecution id owner ttl) w (fun db' lease => db_ok db' /\
    (exists now now', AcquireExecution None now now' (memory_of (pw_db w)) id owner (leaseTTLSeconds ttl) = Ok (memory_of db', lease)) /\
    forall k, index_grows (pw_db w) db' k).
Proof.
  intros Hdb. apply effects_guard. intros Hargs. apply effects_transaction. intros db' lease Hr. run_in Hr. injection Hr0 as Hr0.
  assert (Hgrow : forall k, index_grows (pw_db w) db k) by (intros k; rewrite <- Hr0; apply insertExecution_index).
  destruct (insertExecution_default _ _ _ Hdb Hr0) as [Hdb1 Hm]. rewrite <- Hm. clear Hr0 Hm Hdb. destruct a0 as [l|]; [|run_in Hr; done].
  apply runs_ret in Hr as [-> ->]. unfold acquireRow in Hr1. destruct (db_executions db !! id) as [row|] eqn:Hrow; [|done].
  guard_in Hr1; [|done]. guard_in Hr1; [done|]. injection Hr1 as <- <-. cbn [lse_Incarnation lse_ExpiresAt].
  rewrite (update_row_insert _ _ _ _ Hrow). set (row' := row <| row_fence := (row_fence row + 1)%N |> <| row_lease_owner := Some owner |> <| row_lease_expiry := Some (Add now (leaseTTLSeconds ttl)) |>).
  change (db <| db_executions := <[id := row']> (db_executions db) |>) with (put_row id row' db).
  pose proof (do_rows _ Hdb1 _ _ Hrow) as Hok. pose proof (ro_fence _ _ _ Hok) as Hf. apply N.eqb_neq in Hg0.
  assert (Hlt : (row_fence row < max_uint64)%N) by (unfold max_bigint, max_uint64 in *; lia).
  apply negb_true_iff in Hargs. rewrite !orb_false_iff, !bool_decide_eq_false, Z.leb_gt in Hargs.
  destruct Hargs as [[Hid Hown] Httl]. apply leaseTTLSeconds_pos in Httl as [Httl _].
  assert (Ha : exists now1, AcquireExecution None now1 now (memory_of db) id owner (leaseTTLSeconds ttl)
    = Ok (memory_of (put_row id row' db), mkLease id owner (row_fence row + 1) (Add now (leaseTTLSeconds ttl)))).
  { rewrite (memory_put_lease id row row' db Hrow); [|done|cbn; lia]. cbn [row_lease row' row_lease_owner row_lease_expiry row_fence upd].
    unfold AcquireExecution. cbn [check mbind res_bind]. rewrite !bool_decide_eq_false_2 by done.
    replace (leaseTTLSeconds ttl <=? 0)%Z with false by (symmetry; apply Z.leb_gt; lia). cbn [orb].
    rewrite (memory_fence db id row Hrow), (bool_decide_eq_false_2 (row_fence row = max_uint64)) by lia. rewrite succ_u64_lt by done.
    unfold lease_of. rewrite (memory_lease db id row Hrow). unfold row_lease at 1. unfold expired in Hg. pose proof (ro_lease _ _ _ Hok) as Hl.
    destruct (row_lease_expiry row) as [t|], (row_lease_owner row) as [o|]; try done.
    - exists now. rewrite default_Some. cbn [lse_ExpiresAt lse_Owner]. apply negb_true_iff in Hg. by rewrite Hg.
    - exists time_zero. done. }
  destruct Ha as [now1 Ha]. split; [|split; [by exists now1, now|intros k; eapply index_grows_same; [apply Hgrow|exact (put_index _ row row' _ db k Hrow eq_refl eq_refl)]]]. apply (put_lease_ok id row); [done|done|done|cbn; lia|done|].
  exact (acquire_ok _ _ _ _ _ _ _ _ (do_store _ Hdb1) Ha).
Qed.

Lemma leaseArguments_true lease : leaseArguments lease = true -> lse_Incarnation lease <> 0%N.
Proof. unfold leaseArguments. rewrite !andb_true_iff, negb_true_iff, bool_decide_eq_false. tauto. Qed.

Lemma renew_effects w lease ttl : db_ok (pw_db w) ->
  effects (pgRenewExecution lease ttl) w (fun db' lease' => db_ok db' /\
    (exists now, RenewExecution None now now (memory_of (pw_db w)) lease (leaseTTLSeconds ttl) = Ok (memory_of db', lease')) /\
    forall k, same_index (pw_db w) db' k).
Proof.
  intros Hdb. apply effects_guard. intros Hargs. apply andb_true_iff in Hargs as [Httl Hargs]. apply leaseArguments_true in Hargs.
  apply Z.ltb_lt in Httl. apply leaseTTLSeconds_pos in Httl as [Httl _]. apply effects_autocommit. intros db' lease' Hr. run_in Hr.
  cbv zeta in Hr0. destruct (updateWhere _ _ _ (pw_db w)) as [db1 affected] eqn:Eu. injection Hr0 as <- <-. unfold updateWhere in Eu.
  destruct (db_executions (pw_db w) !! lse_ExecutionID lease) as [row|] eqn:Hrow; [|injection Eu as <- <-; rewrite bool_decide_eq_true_2 in Hr by done; by run_in Hr].
  destruct (owned now (lse_Owner lease) (lse_Incarnation lease) row) eqn:Hown; [|injection Eu as <- <-; rewrite bool_decide_eq_true_2 in Hr by done; by run_in Hr]. injection Eu as <- <-.
  apply runs_ret in Hr as [-> ->]. rewrite (update_row_insert _ _ _ _ Hrow). set (row' := row <| row_lease_expiry := Some (Add now (leaseTTLSeconds ttl)) |>).
  change ((pw_db w) <| db_executions := <[lse_ExecutionID lease := row']> (db_executions (pw_db w)) |>) with (put_row (lse_ExecutionID lease) row' (pw_db w)).
  pose proof (owned_held _ _ _ _ _ _ lease Hrow Hown eq_refl eq_refl eq_refl Hargs) as Hheld.
  apply owned_true in Hown as (Eo & Hinc & t & Et & _). pose proof (do_rows _ Hdb _ _ Hrow) as Hok.
  assert (Ha : RenewExecution None now now (memory_of (pw_db w)) lease (leaseTTLSeconds ttl)
    = Ok (memory_of (put_row (lse_ExecutionID lease) row' (pw_db w)), lease <| lse_ExpiresAt := Add now (leaseTTLSeconds ttl) |>)).
  { rewrite (memory_put_lease _ row row' _ Hrow); [|done|cbn; congruence]. unfold row_lease, row' at 1. cbn [row_lease_owner row_lease_expiry row_fence upd].
    rewrite Eo. unfold RenewExecution. cbn [check mbind res_bind]. replace (leaseTTLSeconds ttl <=? 0)%Z with false by (symmetry; apply Z.leb_gt; lia).
    rewrite Hheld. cbn [negb]. f_equal. f_equal. apply store_eq; try done; cbn [sto_leases sto_fences upd].
    - change (row_fence row') with (row_fence row). by rewrite Hinc.
    - symmetry. apply insert_id. change (row_fence row') with (row_fence row). cbn [sto_fences memory_of]. rewrite map_lookup_imap, Hrow. cbn. unfold row_fences. rewrite Hinc. by destruct (N.eqb_spec (lse_Incarnation lease) 0). }
  split; [|split; [exists now; exact Ha|intros k; exact (put_index _ row row' _ (pw_db w) k Hrow eq_refl eq_refl)]]. apply (put_lease_ok _ row); [done|done|done|exact (ro_fence _ _ _ Hok)|cbn; by rewrite Eo|].
  exact (renew_ok _ _ _ _ _ _ _ (do_store _ Hdb) Ha).
Qed.

Lemma release_effects w lease : db_ok (pw_db w) ->
  effects (pgReleaseExecution lease) w (fun db' _ => db_ok db' /\ ReleaseExecution None (memory_of (pw_db w)) lease = Ok (memory_of db') /\
    forall k, same_index (pw_db w) db' k).
Proof.
  intros Hdb. apply effects_guard. intros Hargs. apply leaseArguments_true in Hargs. apply effects_autocommit. intros db' u Hr. run_in Hr.
  injection Hr0 as Hr0. unfold updateWhere in Hr0. destruct (db_executions (pw_db w) !! lse_ExecutionID lease) as [row|] eqn:Hrow; [|by injection Hr0 as <- <-].
  guard_in Hr0; [|by injection Hr0 as <- <-]. injection Hr0 as <- <-. clear Hr Hguard. apply andb_true_iff in Hg as [Hf Ho]. apply bool_decide_eq_true in Hf.
  rewrite (update_row_insert _ _ _ _ Hrow). set (row' := row <| row_lease_owner := None |> <| row_lease_expiry := None |>).
  change ((pw_db w) <| db_executions := <[lse_ExecutionID lease := row']> (db_executions (pw_db w)) |>) with (put_row (lse_ExecutionID lease) row' (pw_db w)).
  pose proof (do_rows _ Hdb _ _ Hrow) as Hok.
  assert (Hfence : <[lse_ExecutionID lease := row_fence row]> (sto_fences (memory_of (pw_db w))) = sto_fences (memory_of (pw_db w))).
  { apply insert_id. cbn [sto_fences memory_of]. rewrite map_lookup_imap, Hrow. cbn. unfold row_fences. rewrite Hf. by destruct (N.eqb_spec (lse_Incarnation lease) 0). }
  assert (Ha : ReleaseExecution None (memory_of (pw_db w)) lease = Ok (memory_of (put_row (lse_ExecutionID lease) row' (pw_db w)))).
  { rewrite (memory_put_lease _ row row' _ Hrow); [|done|cbn; congruence]. cbn [row_lease row' row_lease_owner row_lease_expiry row_fence upd]. rewrite Hfence.
    unfold ReleaseExecution. cbn [check mbind res_bind]. rewrite (memory_lease _ _ _ Hrow), (memory_fence _ _ _ Hrow). unfold row_lease.
    pose proof (ro_lease _ _ _ Hok) as Hl. destruct (row_lease_owner row) as [o|] eqn:Eo, (row_lease_expiry row) as [t|] eqn:Et; try done; cbn [lse_Owner lse_Incarnation].
    - apply bool_decide_eq_true in Ho. rewrite Ho, Hf. by rewrite !bool_decide_eq_true_2 by done.
    - rewrite Hf, bool_decide_eq_true_2, bool_decide_eq_false_2 by done. cbn [andb negb]. f_equal. apply store_eq; try done. cbn [sto_leases].
      symmetry. apply delete_id. rewrite (memory_lease _ _ _ Hrow). unfold row_lease. by rewrite Eo. }
  split; [|split; [done|intros k; exact (put_index _ row row' _ (pw_db w) k Hrow eq_refl eq_refl)]].
  apply (put_lease_ok _ row); [done|done|done|exact (ro_fence _ _ _ Hok)|done|]. exact (release_ok _ _ _ (do_store _ Hdb) Ha).
Qed.
End PostgresOps.
