(* ===== verification/PostgresLifecycle.v ===== *)
(** * Retention and rollover in the PostgreSQL store

    Two more operations simulated on the reference store: the pruning of checkpoints, whose
    row arithmetic selects exactly the revisions the policy does not retain, and the transfer
    of an execution to a new one. *)

From stdpp Require Import relations.
From S2P Require Import Prelude Go Sha256 Json Identity Schedule Activity Waits Contract Children Wire Migration Integrity Aggregate Store StoreInv Session Postgres PostgresInv PostgresOps.

Section PostgresLifecycle.
Context `{HC : Codecs} `{HL : !LawfulCodecs} `{HJ : JsonColumns} `{HLC : !LawfulColumns}.

(** ** Retention *)
Lemma expired_memory db id row now : db_ok db -> db_executions db !! id = Some row -> expired now row = true ->
  exists now', After (lse_ExpiresAt (lease_of (memory_of db) id)) now' = false.
Proof.
  intros Hdb Hrow He. pose proof (ro_lease _ _ _ (do_rows _ Hdb _ _ Hrow)) as Hl. unfold lease_of. rewrite (memory_lease _ _ _ Hrow).
  unfold row_lease, expired in *. destruct (row_lease_owner row), (row_lease_expiry row) as [t|]; try done.
  - exists now. by apply negb_true_iff.
  - by exists time_zero.
Qed.

Lemma loadProtected_runs id protected db db' u : db_ok db -> is_Some (db_executions db !! id) -> runs (loadProtected id protected) db db' u ->
  db' = db /\ validateRetentionProtected (memory_of db) id protected = None.
Proof.
  intros Hdb [row Hrow]. revert u. induction protected as [|revision rest IH]; intros u Hr; cbn [loadProtected] in Hr.
  - by run_in Hr.
  - run_in Hr. destruct (IH u Hr) as [-> Hp]. split; [done|]. unfold bigint in Hr0. guard_in Hr0; [|done]. injection Hr0 as ->.
    unfold selectRevision in Hr1. rewrite Hrow in Hr1. cbn [fmap option_fmap option_map] in Hr1. cbn [validateRetentionProtected].
    destruct (decide (a = 0%N)) as [->|Hn]; [by rewrite history_zero in Hr1|].
    rewrite (anchored_load db id row a a Hdb Hrow Hn) in Hr1 by by destruct (N.eqb_spec a 0).
    rewrite Hr1. apply decodeAnchored_Ok in Hr1 as (Hne & _). unfold no_bytes. by rewrite bool_decide_eq_false_2.
Qed.

(** The rows the statement deletes are those the policy does not retain. *)
Lemma removed_pruned request revision first protected r data : retentionSelection request revision = Ok (first, protected) ->
  rtr_Revision request = revision -> (0 < r <= revision)%N -> data <> "" ->
  removed request first protected (r, data) = pruned request (r, canon data) \/ canon data = "".
Proof.
  intros Hs Hrev Hr Hd. destruct (decide (canon data = "")) as [E|E]; [by right|]. left. unfold retentionSelection in Hs. cbv zeta in Hs.
  guard_in Hs; [done|]. guard_in Hs; [|done]. injection Hs as <- <-. apply orb_false_iff in Hg as [Hk _]. rewrite Z.ltb_ge in Hk.
  unfold removed, pruned, ExecutionRevisionRetained, no_bytes. cbn [fst snd]. rewrite (bool_decide_eq_false_2 (canon data = "")) by done. cbn [orb].
  destruct (rtp_DeletePayload (rtr_Policy request)); [done|]. cbn [negb orb andb]. rewrite Hrev.
  replace (rtp_KeepLast (rtr_Policy request) <? 0)%Z with false by (symmetry; apply Z.ltb_ge; lia).
  set (keep := Z.to_N (rtp_KeepLast (rtr_Policy request))). destruct (bool_decide (r ∈ rtp_ProtectedRevisions (rtr_Policy request))); cbn [negb].
  { by rewrite andb_false_r, orb_true_r. }
  rewrite andb_true_r, orb_false_r. case_bool_decide as Er.
  - cbn [negb]. apply N.ltb_ge. destruct (N.ltb_spec keep revision); [|destruct (N.ltb_spec revision 1); lia].
    destruct (N.ltb_spec revision (revision - keep + 1)); lia.
  - replace (r <=? revision)%N with true by (symmetry; apply N.leb_le; lia). cbn [andb].
    destruct (N.ltb_spec (revision - r) keep); cbn [negb].
    + apply N.ltb_ge. destruct (N.ltb_spec keep revision); [|destruct (N.ltb_spec revision 1); lia].
      destruct (N.ltb_spec revision (revision - keep + 1)); lia.
    + apply N.ltb_lt. destruct (N.ltb_spec keep revision); [|lia]. destruct (N.ltb_spec revision (revision - keep + 1)); lia.
Qed.

(** The tables after a pruning, before the discovery rows go. *)
Definition pruned_tables (request : ExecutionRetentionRequest) (row : execution_row) (first : N) (protected : list N) (db : Database) : Database :=
  let id := rtr_ExecutionID request in
  mkDatabase (<[id := if rtp_DeletePayload (rtr_Policy request) then row <| row_payload_deleted := true |> else row]> (db_executions db))
    (<[id := filter (fun kv => removed request first protected kv = false) (history_of db id)]> (db_history db)) (db_due db) (db_threads db).

Lemma pruned_items request row first protected db k : history_of (pruned_tables request row first protected db) k =
  if bool_decide (k = rtr_ExecutionID request) then filter (fun kv => removed request first protected kv = false) (history_of db k) else history_of db k.
Proof.
  unfold history_of at 1. cbn [db_history pruned_tables]. case_bool_decide as E; [subst; by rewrite lookup_insert_eq|by rewrite lookup_insert_ne].
Qed.

Lemma pruned_tables_ok request row first protected db : tables_ok db -> db_executions db !! rtr_ExecutionID request = Some row ->
  retentionSelection request (row_revision row) = Ok (first, protected) -> row_revision row <> 0%N -> row_payload_deleted row = false ->
  tables_ok (pruned_tables request row first protected db).
Proof.
  intros Hdb Hrow Hs Hz Hdel. pose proof (do_rows _ Hdb _ _ Hrow) as Hok. split.
  - intros k r Hk. cbn [db_executions pruned_tables] in Hk. destruct (decide (k = rtr_ExecutionID request)) as [->|Hn].
    + rewrite lookup_insert_eq in Hk. injection Hk as <-. destruct Hok as [A1 A2 A3 A4 A5 A6 A7 A8].
      assert (Hhead : history_of (pruned_tables request row first protected db) (rtr_ExecutionID request) !! row_revision row =
        if rtp_DeletePayload (rtr_Policy request) then None else history_of db (rtr_ExecutionID request) !! row_revision row).
      { rewrite pruned_items, bool_decide_eq_true_2 by done. unfold removed. destruct (rtp_DeletePayload (rtr_Policy request)) eqn:Ed.
        - apply map_lookup_filter_None. right. intros x _. cbn. done.
        - destruct (history_of db (rtr_ExecutionID request) !! row_revision row) as [x|] eqn:Ex.
          + apply map_lookup_filter_Some. split; [done|]. cbn [fst orb]. unfold retentionSelection in Hs. cbv zeta in Hs. rewrite Ed in Hs.
            guard_in Hs; [done|]. guard_in Hs; [|done]. injection Hs as <- <-. apply andb_false_iff. left. apply N.ltb_ge. cbn [negb andb].
            destruct (N.ltb_spec (Z.to_N (rtp_KeepLast (rtr_Policy request))) (row_revision row)).
            * destruct (N.ltb_spec (row_revision row) (row_revision row - Z.to_N (rtp_KeepLast (rtr_Policy request)) + 1)); lia.
            * destruct (N.ltb_spec (row_revision row) 1); lia.
          + apply map_lookup_filter_None. by left. }
      destruct (rtp_DeletePayload (rtr_Policy request)); split; try done; cbn [row_revision row_payload_deleted upd]; intros H; try done;
        rewrite Hhead; [done|by apply A8].
    + rewrite lookup_insert_ne in Hk by done. destruct (do_rows _ Hdb _ _ Hk) as [B1 B2 B3 B4 B5 B6 B7 B8]. split; try done.
      intros Hz'. rewrite pruned_items, bool_decide_eq_false_2 by done. by apply B8.
  - intros k r p. rewrite pruned_items. case_bool_decide; [|apply (do_history _ Hdb)]. intros [Hp _]%map_lookup_filter_Some. by apply (do_history _ Hdb) in Hp.
  - intros k Hk. cbn [db_executions db_history pruned_tables] in Hk |- *. apply lookup_insert_None in Hk as [Hk Hn].
    apply lookup_insert_None. split; [by apply (do_keys _ Hdb)|done].
Qed.

Lemma memory_pruned request row first protected db : db_ok db -> db_executions db !! rtr_ExecutionID request = Some row ->
  retentionSelection request (row_revision row) = Ok (first, protected) -> rtr_Revision request = row_revision row ->
  memory_of (pruned_tables request row first protected db) = (memory_of db) <| sto_history :=
    <[rtr_ExecutionID request := filter (fun kv => pruned request kv = false) (items_of (memory_of db) (rtr_ExecutionID request))]> (sto_history (memory_of db)) |>.
Proof.
  intros Hdb Hrow Hs Hrev. apply store_eq; cbn [memory_of pruned_tables sto_history sto_heads sto_leases sto_fences sto_lineage sto_incoming sto_outgoing db_executions db_history upd].
  2-7: apply (imap_same _ _ _ row); [done|]; by destruct (rtp_DeletePayload (rtr_Policy request)).
  rewrite fmap_insert. f_equal. rewrite memory_history. unfold canon_items. rewrite map_filter_fmap. f_equal. apply map_filter_ext.
  intros r data Hd. pose proof (so_items _ (do_store _ Hdb) (rtr_ExecutionID request) r (canon data)) as Hit.
  rewrite memory_history, lookup_fmap, Hd in Hit. destruct (Hit eq_refl) as (Hb & Hne & _). rewrite (memory_head _ _ _ Hrow) in Hb.
  destruct (do_history _ Hdb _ _ _ Hd) as (Hdn & _).
  destruct (removed_pruned request (row_revision row) first protected r data Hs Hrev Hb Hdn) as [E|E]; [|done]. cbn. by rewrite E.
Qed.

Definition retained_alike (request : ExecutionRetentionRequest) (db db' : Database) (receipt : ExecutionRetentionReceipt) : Prop :=
  db_ok db' /\ rtc_ExecutionID receipt = rtr_ExecutionID request /\ rtc_Revision receipt = rtr_Revision request /\
  (exists now receipt', RetainExecutionStore None now (memory_of db) request = Ok (memory_of db', receipt')) /\
  (db' = db \/ forall k, if rtp_DeletePayload (rtr_Policy request) && bool_decide (k = rtr_ExecutionID request) then unindexed k None db' else same_index db db' k).

Lemma dependencies_runs request row db db' u : db_ok db -> db_executions db !! rtr_ExecutionID request = Some row ->
  rtr_Revision request = row_revision row -> row_revision row <> 0%N -> runs (validateRetentionDependencies request) db db' u ->
  db' = db /\ exists source,
    decodeAnchoredExecution (memory_of db) (payload_of (memory_of db) (rtr_ExecutionID request) (rtr_Revision request)) (rtr_ExecutionID request)
      (rtr_Revision request) = Ok source /\
    ValidateExecutionLifecycleBoundary source = None /\ rtp_DeletePayload (rtr_Policy request) && is_nil (env_Terminal source) = false /\
    validateRetentionProtected (memory_of db) (rtr_ExecutionID request) (rtp_ProtectedRevisions (rtr_Policy request)) = None.
Proof.
  intros Hdb Hrow Hrev Hz Hr. unfold validateRetentionDependencies in Hr. cbv zeta in Hr. run_in Hr. apply check_Ok in Hr1. apply negb_true_iff in Hguard.
  apply loadProtected_runs in Hr as [-> Hp]; [|done|by eexists]. split; [done|]. exists a. split_and!; try done.
  unfold selectHead in Hr0. rewrite Hrow in Hr0. cbn [fmap option_fmap option_map] in Hr0.
  rewrite (anchored_load db _ row _ _ Hdb Hrow Hz) in Hr0; [by rewrite Hrev|]. rewrite Hrev. by destruct (N.eqb_spec (row_revision row) 0).
Qed.

Lemma retained_tables request row first protected db db1 db2 db3 u u' gone : db_executions db !! rtr_ExecutionID request = Some row ->
  deleteHistory request first protected db = (db1, gone) ->
  runs (if rtp_DeletePayload (rtr_Policy request)
        then exec (fun db => Ok (update_row (rtr_ExecutionID request) (fun row => row <| row_payload_deleted := true |>) db)) else pg_ret tt) db1 db2 u ->
  runs (retainDiscoveryProjection request) db2 db3 u' -> same_core (pruned_tables request row first protected db) db3 /\
  forall k, if rtp_DeletePayload (rtr_Policy request) && bool_decide (k = rtr_ExecutionID request) then unindexed k None db3 else same_index db db3 k.
Proof.
  intros Hrow [= <- _] Hd Hp. unfold retainDiscoveryProjection in Hp. assert (E : db2 = pruned_tables request row first protected db).
  { unfold pruned_tables. destruct (rtp_DeletePayload (rtr_Policy request)).
    - run_in Hd. injection Hd as <-. by rewrite (update_row_insert _ _ _ row).
    - run_in Hd. cbv zeta. by rewrite (insert_id (db_executions db)). }
  subst db2. set (row' := if rtp_DeletePayload (rtr_Policy request) then row <| row_payload_deleted := true |> else row).
  assert (Hsame : forall k, same_index db (pruned_tables request row first protected db) k)
    by (intros k; apply (put_index _ row row'); [done|by unfold row'; destruct (rtp_DeletePayload _)..]).
  destruct (rtp_DeletePayload (rtr_Policy request)) eqn:Ed; cbn [negb] in Hp.
  - split; [by apply remove_core in Hp|]. intros k. apply remove_index in Hp as [Hu Hoth].
    + destruct (decide (k = rtr_ExecutionID request)) as [->|Ek]; [by rewrite bool_decide_eq_true_2|].
      rewrite bool_decide_eq_false_2 by done. eapply same_index_trans; [apply Hsame|by apply Hoth].
    + eexists. unfold pruned_tables. cbn [db_executions]. apply lookup_insert_eq.
  - run_in Hp. split; [apply same_core_refl|]. intros k. cbn [andb]. apply Hsame.
Qed.

Lemma retain_effects w request : db_ok (pw_db w) ->
  effects (pgRetainExecution request) w (retained_alike request (pw_db w)).
Proof.
  intros Hdb. apply effects_guard. intros _. apply effects_check. intros Hval.
  assert (Hz : rtr_Revision request <> 0%N).
  { intros E. unfold validateRetentionRequest in Hval. cbv zeta in Hval. rewrite E in Hval. guard_in Hval; [done|].
    rewrite !orb_false_iff, !bool_decide_eq_false in Hg. naive_solver. }
  assert (Hbase : forall row, db_executions (pw_db w) !! rtr_ExecutionID request = Some row -> forall now, expired now row = true ->
    row_revision row = rtr_Revision request -> exists now', After (lse_ExpiresAt (lease_of (memory_of (pw_db w)) (rtr_ExecutionID request))) now' = false /\
    head_of (memory_of (pw_db w)) (rtr_ExecutionID request) = rtr_Revision request).
  { intros row Hrow now He Hrev. destruct (expired_memory _ _ _ _ Hdb Hrow He) as [now' Hn]. exists now'. split; [done|]. by rewrite (memory_head _ _ _ Hrow). }
  apply effects_transactionIf; intros db' receipt Hr; run_in Hr; injection Hr0 as <-;
    (destruct (db_executions (pw_db w) !! rtr_ExecutionID request) as [row|] eqn:Hrow; [|done]); injection Hr1 as <-; cbv iota beta in Hr; run_in Hr;
    rewrite negb_involutive in Hguard; apply bool_decide_eq_true in Hguard0; destruct (Hbase row eq_refl now Hguard Hguard0) as (now' & Hnow & Hhead);
    destruct (row_payload_deleted row) eqn:Hdel; run_in Hr.
  - done.
  - injection Hr as ->. destruct a0 as [first protected]. cbn [fst snd] in Hr2.
    assert (Hgone : deleteHistory request first protected db = (db0, a1)) by congruence. clear Hr2.
    apply (dependencies_runs request row) in Hr0 as (-> & source & Hd & Hb & Ht & Hp); [|done|done|done|congruence].
    pose proof (retained_tables _ row _ _ _ _ _ _ _ _ _ Hrow Hgone Hr3 Hr4) as [Hcore Hindex].
    assert (Ha : RetainExecutionStore None now' (memory_of (pw_db w)) request = Ok (memory_of (pruned_tables request row first protected (pw_db w)),
      mkRetentionReceipt (rtr_ExecutionID request) (rtr_Revision request)
        (len (List.filter (pruned request) (map_to_list (items_of (memory_of (pw_db w)) (rtr_ExecutionID request)))))
        (fold_right Z.add 0%Z (map (fun kv => byte_len kv.2)
           (List.filter (pruned request) (map_to_list (items_of (memory_of (pw_db w)) (rtr_ExecutionID request)))))))).
    { rewrite (memory_pruned request row first protected (pw_db w)) by done. unfold RetainExecutionStore. rewrite Hval. cbn [check mbind res_bind]. cbv zeta.
      rewrite Hnow, Hhead. rewrite bool_decide_eq_false_2, bool_decide_eq_true_2 by done. cbn [negb].
      pose proof Hd as Hne. apply decodeAnchored_Ok in Hne as (Hne & _). unfold no_bytes at 1. rewrite bool_decide_eq_false_2 by done.
      rewrite Hd. cbn [mbind res_bind]. rewrite Hb. cbn [check mbind res_bind]. rewrite Ht, Hp. done. }
    split; [|split; [done|split; [done|split]]].
    + apply (db_ok_core _ _ Hcore). split; [exact (retain_ok _ _ _ _ _ (do_store _ Hdb) Ha)|].
      apply pruned_tables_ok; [exact (do_tables _ Hdb)|done|done|congruence|done].
    + exists now'. eexists. rewrite Ha. by rewrite (memory_core _ _ Hcore).
    + by right.
  - injection Hr as ->. split; [done|]. split; [done|]. split; [done|]. split; [|by left]. exists now', (mkRetentionReceipt (rtr_ExecutionID request) (rtr_Revision request) 0 0).
    unfold RetainExecutionStore. rewrite Hval. cbn [check mbind res_bind]. cbv zeta. rewrite Hnow, Hhead. rewrite bool_decide_eq_false_2, bool_decide_eq_true_2 by done.
    cbn [negb]. rewrite memory_payload. pose proof (ro_head _ _ _ (do_rows _ Hdb _ _ Hrow)) as Hh. rewrite Hguard0, Hdel in Hh.
    specialize (Hh Hz). destruct (history_of (pw_db w) (rtr_ExecutionID request) !! rtr_Revision request); [done|]. unfold no_bytes.
    cbn [fmap option_fmap option_map]. rewrite default_None, bool_decide_eq_true_2 by done. by rewrite Hguard1.
  - done.
Qed.

(** ** Rollover *)
Lemma lockRolloverSource_runs lease source db db' current : db_ok db -> runs (lockRolloverSource lease source) db db' current ->
  db' = db /\ lse_ExecutionID lease = ref_ExecutionID source /\ ref_Revision source <> 0%N /\ exists row now,
    db_executions db !! ref_ExecutionID source = Some row /\ row_revision row = ref_Revision source /\
    held (memory_of db) now lease = true /\ env_Digest current = ref_Digest source /\
    decodeAnchoredExecution (memory_of db) (payload_of (memory_of db) (ref_ExecutionID source) (ref_Revision source)) (ref_ExecutionID source)
      (ref_Revision source) = Ok current.
Proof.
  intros Hdb Hr. unfold lockRolloverSource in Hr. run_in Hr. apply negb_true_iff in Hguard.
  rewrite !orb_false_iff, negb_false_iff, !bool_decide_eq_false, bool_decide_eq_true in Hguard. destruct Hguard as [[Hid Hown] Hinc].
  apply bool_decide_eq_true in Hguard0, Hguard1. unfold bigint in Hr0. guard_in Hr0; [|done]. injection Hr0 as <-. subst a1.
  destruct a0 as [[revision []]|]; [|done..]. injection Hr2 as ->. apply lockHead_runs in Hr1 as (-> & row & now' & Hrow & Hrev & Ho). symmetry in Hrev.
  unfold selectHead in Hr3. rewrite Hrow in Hr3. cbn [fmap option_fmap option_map] in Hr3. subst current.
  assert (Hz : ref_Revision source <> 0%N).
  { intros E. rewrite Hrev, E, (history_zero _ _ Hdb) in Hr3. discriminate Hr3. }
  split; [done|]. split; [done|]. split; [done|]. exists row, now'. rewrite <- Hrev in Hz. split_and!; try done.
  - by eapply owned_held.
  - rewrite (anchored_load db _ row _ _ Hdb Hrow Hz) in Hr3; [by rewrite Hrev in Hr3|]. rewrite Hrev. by destruct (N.eqb_spec (ref_Revision source) 0); [congruence|].
Qed.

(** The rows of the two executions after a transfer. *)
Definition transferred_row (row : execution_row) (revision : N) (stored : string) : execution_row :=
  row <| row_revision := revision |> <| row_rollover_outgoing := Some stored |>.
Definition created_row (stored : string) : execution_row := default_row <| row_revision := 1%N |> <| row_rollover_incoming := Some stored |>.
Definition rolled_tables (sid tid : string) (row : execution_row) (revision : N) (sourceText targetText stored : string) (db : Database) : Database :=
  put_checkpoint_row tid (created_row stored) 1 targetText (put_checkpoint_row sid (transferred_row row revision stored) revision sourceText db).

Lemma column_receipt receipt payload stored : representable (A := RolloverReceipt) receipt -> marshal receipt = Some payload -> to_jsonb payload = Some stored ->
  column (A := RolloverReceipt) (Some stored) = Some receipt /\ readable (A := RolloverReceipt) (Some stored).
Proof.
  intros Hr Hm Hj. pose proof (jsonb_receipt _ _ Hj) as Hu. rewrite (unmarshal_marshal _ _ Hr Hm) in Hu. unfold column, readable. cbn. rewrite Hu.
  split; [done|]. intros q [= <-]. split; [by eapply jsonb_nonempty|]. rewrite Hu. by eexists.
Qed.

Lemma memory_rolled sid tid row revision sourceText targetText receipt stored db : tables_ok db -> sid <> tid ->
  db_executions db !! sid = Some row -> db_executions db !! tid = None -> revision <> 0%N ->
  column (A := RolloverReceipt) (Some stored) = Some receipt ->
  let s := memory_of db in
  memory_of (rolled_tables sid tid row revision sourceText targetText stored db) =
  mkStore (<[tid := {[1%N := canon targetText]}]> (<[sid := <[revision := canon sourceText]> (items_of s sid)]> (sto_history s)))
    (<[tid := 1%N]> (<[sid := revision]> (sto_heads s))) (sto_leases s) (sto_fences s) (sto_lineage s)
    (<[tid := receipt]> (sto_incoming s)) (<[sid := receipt]> (sto_outgoing s)).
Proof.
  intros Hdb Hne Hs Ht Hz Hc s. subst s. assert (Hfresh : forall r, (<[sid := r]> (db_executions db)) !! tid = None) by (intros r; by rewrite lookup_insert_ne).
  apply store_eq; cbn [memory_of rolled_tables put_checkpoint_row sto_history sto_heads sto_leases sto_fences sto_lineage sto_incoming sto_outgoing db_executions db_history].
  - rewrite !fmap_insert, memory_history. unfold canon_items. rewrite !fmap_insert. f_equal.
    assert (history_of (put_checkpoint_row sid (transferred_row row revision stored) revision sourceText db) tid = ∅) as ->.
    { rewrite put_checkpoint_items, bool_decide_eq_false_2 by done. unfold history_of. by rewrite (do_keys _ Hdb _ Ht). }
    by rewrite fmap_empty, insert_empty.
  - rewrite !imap_insert. unfold row_head at 1 2. cbn [created_row transferred_row row_revision default_row upd]. by destruct (N.eqb_spec revision 0).
  - rewrite (imap_fresh _ _ tid) by done. by apply (imap_same _ _ _ row).
  - rewrite (imap_fresh _ _ tid) by done. by apply (imap_same _ _ _ row).
  - rewrite (imap_fresh _ _ tid) by done. by apply (imap_same _ _ _ row).
  - rewrite imap_insert. unfold row_incoming at 1. cbn [created_row row_rollover_incoming default_row upd]. rewrite Hc. f_equal. by apply (imap_same _ _ _ row).
  - rewrite (imap_fresh _ _ tid) by done. rewrite imap_insert. unfold row_outgoing at 1. cbn [transferred_row row_rollover_outgoing upd]. by rewrite Hc.
Qed.

Definition publishes_representable (lease : ExecutionLease) (target : ExecutionEnvelope) : Prop :=
  forall current transferred created receipt, PrepareExecutionRolloverPublication current target lease = Ok (transferred, created, receipt) ->
    representable transferred /\ representable created /\ representable (A := RolloverReceipt) receipt.

(** The tables after a transfer that passed every check are the reference store after the
    same transfer. *)
Lemma rollover_simulated db now row lease source target current transferred created receipt st tt' rp s1 s2 s3 :
  db_ok db -> db_executions db !! ref_ExecutionID source = Some row -> row_revision row = ref_Revision source ->
  ref_Revision source <> 0%N -> held (memory_of db) now lease = true -> lse_ExecutionID lease = ref_ExecutionID source ->
  decodeAnchoredExecution (memory_of db) (payload_of (memory_of db) (ref_ExecutionID source) (ref_Revision source)) (ref_ExecutionID source)
    (ref_Revision source) = Ok current ->
  env_Digest current = ref_Digest source -> PrepareExecutionRolloverPublication current target lease = Ok (transferred, created, receipt) ->
  db_executions db !! env_ExecutionID created = None -> publishes_representable lease target -> marshal transferred = Some st -> marshal created = Some tt' -> marshal receipt = Some rp ->
  to_jsonb st = Some s1 -> to_jsonb tt' = Some s2 -> to_jsonb rp = Some s3 -> (env_Revision transferred <= max_bigint)%N ->
  let db' := rolled_tables (ref_ExecutionID source) (env_ExecutionID created) row (env_Revision transferred) s1 s2 s3 db in
  ref_ExecutionID source <> env_ExecutionID created /\ db_ok db' /\
  CommitRollover None now (memory_of db) lease source target = Ok (memory_of db', receipt).
Proof.
  intros Hdb Hrow Hrev Hz Hheld Hid Hd Hdig Hp Hfresh Hrep M1 M2 M3 J1 J2 J3 Hmax db'.
  destruct (Hrep _ _ _ _ Hp) as (R1 & R2 & R3).
  pose proof (do_rows _ Hdb _ _ Hrow) as Hok. pose proof Hd as Hd'. apply decodeAnchored_Ok in Hd' as (_ & _ & Hv & _ & Ha).
  apply integrity_digest in Hv as (Hcid & Hcrev & _). apply lifecycle_anchors_Ok in Ha as [Hin Hout].
  pose proof (ro_revision _ _ _ Hok) as Hb. assert (Hu : is_u64 (env_Revision current)) by (unfold is_u64, max_uint64, max_bigint in *; lia).
  destruct (publication_anchors current target lease transferred created receipt _ Hu Hp ltac:(lia) Hin)
    as (_ & _ & _ & _ & _ & _ & Etid & Etrev & Ecid & Ecrev & _).
  pose proof (publication_Ok _ _ _ _ _ _ Hp) as (lineage & _ & _ & _ & _ & _ & _ & _ & Htr & _ & _ & _ & Hne & _).
  assert (Hno : sto_outgoing (memory_of db) !! ref_ExecutionID source = None).
  { destruct (sto_outgoing (memory_of db) !! ref_ExecutionID source) as [o|] eqn:Eo; [|done]. exfalso.
    apply (so_outgoing _ (do_store _ Hdb)) in Eo as [Eo _]. rewrite (memory_head _ _ _ Hrow) in Eo. destruct Hout as (_ & _ & Hout).
    replace (env_Revision current <? rcp_SourceRevision o)%N with false in Hout by (symmetry; apply N.ltb_ge; lia). destruct Hout as [Hout _]. congruence. }
  assert (Hne' : ref_ExecutionID source <> env_ExecutionID created) by congruence.
  destruct (memory_absent db _ Hfresh) as (F1 & F2 & _). rewrite Ecid in F1, F2.
  destruct (rollover_complete now (memory_of db) lease source target current transferred created receipt) as [s' Hs']; try done.
  { by rewrite (memory_head _ _ _ Hrow). }
  destruct (canon_stored _ _ _ R1 M1 J1) as [C1 U1], (canon_stored _ _ _ R2 M2 J2) as [C2 U2], (column_receipt _ _ _ R3 M3 J3) as [C3 D3].
  assert (Es' : s' = memory_of db').
  { unfold db'. rewrite (memory_rolled _ _ row _ _ _ receipt); [|exact (do_tables _ Hdb)|done|done|done|lia|done]. rewrite C1, C2. 
    destruct (rollover_Ok now (memory_of db) lease source target s' receipt) as (c & t & cr & sb & tb & Q); [|done|].
    { intros c t cr r Hpc. destruct (Hrep _ _ _ _ Hpc) as (? & ? & _). done. }
    destruct Q as (_ & _ & _ & _ & _ & Qd & _ & _ & _ & Qp & Q1 & _ & Q2 & _ & ->). rewrite Hd in Qd. injection Qd as <-.
    rewrite Hp in Qp. injection Qp as <- <-. rewrite M1 in Q1. rewrite M2 in Q2. injection Q1 as <-. injection Q2 as <-. done. }
  subst s'. split; [done|]. split; [|done]. split.
  - eapply step_ok; [exact (do_store _ Hdb)|]. eapply sstep_rollover; [|exact Hs']. intros c t cr r Hpc. destruct (Hrep _ _ _ _ Hpc) as (? & ? & _). done.
  - apply (put_checkpoint_tables _ _ _ _ created); try done; [|exact (jsonb_nonempty _ _ J2)].
    apply (put_checkpoint_tables _ _ _ _ transferred _ (do_tables _ Hdb)); try done.
    + exact (jsonb_nonempty _ _ J1).
    + lia.
    + exact (ro_fence _ _ _ Hok).
    + exact (ro_lease _ _ _ Hok).
    + cbn. rewrite (ro_head _ _ _ Hok) by congruence. rewrite Hrev. apply decodeAnchored_Ok in Hd as (Hn & _). rewrite memory_payload in Hn.
      by destruct (history_of db _ !! ref_Revision source).
    + exact (ro_fork _ _ _ Hok).
    + exact (ro_incoming _ _ _ Hok).
Qed.

(** What the three writes of a transfer make of the tables. *)
Lemma rollover_writes sid tid row revision sourcePayload targetPayload stored now owner fence db db1 db2 affected s :
  sid <> tid -> db_executions db !! sid = Some row -> db_executions db !! tid = None -> tables_ok db ->
  insertHistory sid revision sourcePayload (put_row tid (created_row stored) db) ≫= insertHistory tid 1 targetPayload = Ok db1 ->
  updateWhere sid (owned now owner fence) (fun row => row <| row_revision := revision |> <| row_rollover_outgoing := Some s |>) db1 = (db2, affected) ->
  affected = 1%N -> s = stored ->
  exists s1 s2, to_jsonb sourcePayload = Some s1 /\ to_jsonb targetPayload = Some s2 /\ db2 = rolled_tables sid tid row revision s1 s2 stored db.
Proof.
  intros Hne Hs Ht Hdb Hi Hu -> ->. apply bind_Ok in Hi as (db0 & H1 & H2). apply insertHistory_Ok in H1 as (s1 & J1 & _ & _ & ->).
  apply insertHistory_Ok in H2 as (s2 & J2 & _ & _ & ->). exists s1, s2. split; [done|]. split; [done|].
  apply updateWhere_one in Hu as (row' & Hrow & _ & ->). cbn [db_executions put_row upd] in Hrow. rewrite lookup_insert_ne, Hs in Hrow by done. injection Hrow as <-.
  unfold rolled_tables, put_checkpoint_row, transferred_row. cbn [db_executions db_history db_due put_row upd]. f_equal. by apply insert_insert_ne.
Qed.

Lemma published_ids current target lease transferred created receipt :
  PrepareExecutionRolloverPublication current target lease = Ok (transferred, created, receipt) ->
  env_ExecutionID transferred = env_ExecutionID current /\ env_ExecutionID created = env_ExecutionID target.
Proof.
  intros Hp. apply publication_Ok in Hp as (lineage & _ & _ & _ & _ & Hc & Ht & _). apply seal_Ok in Hc as (b & _ & -> & _).
  by apply seal_Ok in Ht as (b' & _ & -> & _).
Qed.
Lemma rolled_index sid tid row revision s1 s2 stored db k : k <> sid -> k <> tid ->
  same_index db (rolled_tables sid tid row revision s1 s2 stored db) k.
Proof.
  intros H1 H2. split; [done|]. unfold flags, rolled_tables, put_checkpoint_row. cbn [db_executions]. by rewrite !lookup_insert_ne.
Qed.

Lemma rollover_effects w lease source target : db_ok (pw_db w) -> publishes_representable lease target ->
  effects (pgCommitRollover lease source target) w (fun db' receipt => db_ok db' /\
    (exists now, CommitRollover None now (memory_of (pw_db w)) lease source target = Ok (memory_of db', receipt)) /\
    exists current transferred created,
      decodeAnchoredExecution (memory_of (pw_db w)) (payload_of (memory_of (pw_db w)) (ref_ExecutionID source) (ref_Revision source))
        (ref_ExecutionID source) (ref_Revision source) = Ok current /\
      PrepareExecutionRolloverPublication current target lease = Ok (transferred, created, receipt) /\
      indexes transferred db' /\ indexes created db' /\
      forall k, k <> env_ExecutionID transferred -> k <> env_ExecutionID created -> same_index (pw_db w) db' k).
Proof.
  intros Hdb Hrep. apply effects_transaction. intros db' receipt Hr. run_in Hr. destruct a0 as [[transferred created] r]. run_in Hr.
  apply (lockRolloverSource_runs _ _ _ _ _ Hdb) in Hr0 as (-> & Hid & Hz & row & now' & Hrow & Hrev & Hheld & Hdig & Hd).
  injection Hr2 as <-. apply negb_true_iff in Hguard. unfold stored_row in Hguard. apply negb_false_iff, is_nil_true in Hguard.
  apply bool_decide_eq_true in Hguard0, Hguard1. subst a4 receipt. unfold of_option in Hr3, Hr4, Hr5, Hr6, Hr7, Hr9.
  destruct (marshal transferred) as [st|] eqn:M1; [|done]. destruct (marshal created) as [ct|] eqn:M2; [|done]. destruct (marshal r) as [rt|] eqn:M3; [|done].
  injection Hr3 as <-. injection Hr4 as <-. injection Hr5 as <-. unfold jsonb, of_option in Hr6, Hr9. destruct (to_jsonb rt) as [stored|] eqn:J3; [|done].
  cbn [mbind res_bind] in Hr6, Hr9. injection Hr9 as Hr9. unfold insertExecution, stored_row in Hr6. rewrite Hguard in Hr6. injection Hr6 as <-.
  unfold bigint in Hr7. guard_in Hr7; [|done]. injection Hr7 as <-. apply N.leb_le in Hg.
  assert (Hne : ref_ExecutionID source <> env_ExecutionID created) by congruence.
  destruct (rollover_writes _ _ row _ _ _ stored _ _ _ (pw_db w) _ _ _ stored Hne Hrow Hguard (do_tables _ Hdb) Hr8 Hr9 Hguard1 eq_refl) as (s1 & s2 & J1 & J2 & ->).
  destruct (rollover_simulated (pw_db w) now' row lease source target a transferred created r st ct rt s1 s2 stored) as (_ & Hok & Hc); try done.
  assert (Hsid : env_ExecutionID transferred = ref_ExecutionID source).
  { destruct (published_ids _ _ _ _ _ _ Hr1) as [-> _]. apply decodeAnchored_Ok in Hd as (_ & _ & Hv & _). by apply integrity_digest in Hv as (? & _). }
  pose proof Hr10 as Hi1. apply replace_core in Hr10. apply replace_index in Hi1 as [Hi1 Ho1];
    [|rewrite Hsid; unfold rolled_tables, put_checkpoint_row; cbn [db_executions]; rewrite lookup_insert_ne by done; eexists; apply lookup_insert_eq].
  pose proof Hr11 as Hi2. apply replace_core in Hr11. apply replace_index in Hi2 as [Hi2 Ho2];
    [|apply (same_core_stored _ _ _ Hr10); unfold rolled_tables, put_checkpoint_row; cbn [db_executions]; eexists; apply lookup_insert_eq].
  pose proof (same_core_trans _ _ _ Hr10 Hr11) as Hcore. split; [by eapply db_ok_core|].
  split; [exists now'; rewrite Hc; f_equal; f_equal; symmetry; by apply memory_core|].
  exists a, transferred, created. split; [done|]. split; [done|]. split; [|split; [done|]].
  - eapply indexes_same; [exact Hi1|]. apply Ho2. congruence.
  - intros k Hk1 Hk2. eapply same_index_trans; [|eapply same_index_trans; [by apply Ho1|by apply Ho2]]. apply rolled_index; congruence.
Qed.
End PostgresLifecycle.
