(* ===== verification/DiscoveryInv.v ===== *)
(** * Discovery rows follow the heads

    In every reachable state of the tables, the due rows of an execution are the candidates of
    its head: each operation that moves a head replaces its rows in the same transaction, no
    other operation touches them, and the repair pass leaves them as they are. *)

From stdpp Require Import relations.
From S2P Require Import Prelude Go Sha256 Json Identity Schedule Activity Waits Contract Children Wire Migration Integrity Aggregate Store StoreInv Session StoreWorld Postgres Discovery PostgresInv PostgresOps PostgresLifecycle.

(** ** Executions that an operation of the reference store leaves alone *)
Section Frames.
Context `{HC : Codecs} `{HL : !LawfulCodecs}.
Implicit Types s : MemoryExecutionStore.

Definition same_head s s' (id : string) : Prop := LoadExecution None s' id = LoadExecution None s id /\ head_of s' id = head_of s id.
Lemma same_head_at s s' id : head_of s' id = head_of s id -> payload_of s' id (head_of s id) = payload_of s id (head_of s id) ->
  sto_lineage s' !! id = sto_lineage s !! id -> sto_incoming s' !! id = sto_incoming s !! id -> sto_outgoing s' !! id = sto_outgoing s !! id ->
  same_head s s' id.
Proof. intros H1 H2 H3 H4 H5. split; [|done]. unfold LoadExecution, decodeAnchoredExecution. by rewrite H1, H2, H3, H4, H5. Qed.

Lemma acquire_same_head now now' s s' id owner ttl lease k : AcquireExecution None now now' s id owner ttl = Ok (s', lease) -> same_head s s' k.
Proof.
  intros Ha. split; [by destruct (load_acquired _ _ _ _ _ _ _ _ _ k Ha)|]. unfold AcquireExecution in Ha. cbn [check mbind res_bind] in Ha.
  guard_in Ha; [done|]. guard_in Ha; [by case_bool_decide|]. case_bool_decide; [done|]. by injection Ha as <- <-.
Qed.
Lemma renew_same_head now now' s s' lease ttl lease' k : RenewExecution None now now' s lease ttl = Ok (s', lease') -> same_head s s' k.
Proof.
  intros Ha. unfold RenewExecution in Ha. cbn [check mbind res_bind] in Ha. guard_in Ha; [done|]. guard_in Ha; [done|]. by injection Ha as <- <-.
Qed.
Lemma release_same_head s s' lease k : ReleaseExecution None s lease = Ok s' -> same_head s s' k.
Proof.
  intros Ha. unfold ReleaseExecution in Ha. cbn [check mbind res_bind] in Ha. destruct (sto_leases s !! _); guard_in Ha; try done; by injection Ha as <-.
Qed.
Lemma commit_same_head now s expected lease envelope s' result k : committed now s expected lease envelope s' result ->
  k <> env_ExecutionID envelope -> same_head s s' k.
Proof.
  intros Hc Hk. apply commit_frame in Hc as (_ & _ & Hin & Hout & (b & _ & _ & Hhist) & Hheads & Hlin).
  apply same_head_at; unfold head_of, payload_of, items_of; rewrite ?Hheads, ?Hhist, ?Hin, ?Hout, ?Hlin, ?lookup_insert_ne by done; try done.
  destruct (env_Fork envelope); [|done]. case_bool_decide; [by rewrite lookup_insert_ne|done].
Qed.
Lemma rolled_same_head s sid tid revision receipt transferred created s' k : rolled s sid tid revision receipt transferred created s' ->
  k <> sid -> k <> tid -> same_head s s' k.
Proof.
  intros [_ _ _ _ [_ Hout] Hin (_ & _ & Hlin) Hheads (sb & tb & _ & _ & _ & _ & Hitems) _ _] H1 H2.
  specialize (Hheads k). specialize (Hitems k). rewrite !bool_decide_eq_false_2 in Hheads, Hitems by done.
  apply same_head_at; [done|unfold payload_of; by rewrite Hitems|by rewrite Hlin|by rewrite Hin, lookup_insert_ne|by rewrite Hout, lookup_insert_ne].
Qed.
Lemma rolled_loads s sid tid revision receipt transferred created s' : rolled s sid tid revision receipt transferred created s' ->
  LoadExecution None s' sid = Ok transferred /\ LoadExecution None s' tid = Ok created.
Proof.
  intros [Hne [Hh Hpos] _ _ _ _ _ Hheads (sb & tb & Hs & Ht & Hds & Hdt & Hitems) _ _].
  assert (E1 : head_of s' sid = (revision + 1)%N /\ payload_of s' sid (revision + 1) = sb).
  { unfold payload_of. rewrite Hheads, Hitems. rewrite !(bool_decide_eq_false_2 (sid = tid)), !(bool_decide_eq_true_2 (sid = sid)) by done.
    by rewrite lookup_insert_eq. }
  assert (E2 : head_of s' tid = 1%N /\ payload_of s' tid 1 = tb).
  { unfold payload_of. rewrite Hheads, Hitems. rewrite !(bool_decide_eq_true_2 (tid = tid)) by done. by rewrite lookup_singleton_eq. }
  destruct E1 as [Eh1 Ep1], E2 as [Eh2 Ep2]. unfold LoadExecution. cbn [check mbind res_bind]. rewrite Eh1, Eh2, Ep1, Ep2.
  rewrite !bool_decide_eq_false_2 by lia. done.
Qed.
(** The head survives every pruning that keeps payloads. *)
Lemma retain_same_head now s request s' receipt k : RetainExecutionStore None now s request = Ok (s', receipt) ->
  k <> rtr_ExecutionID request \/ (rtp_DeletePayload (rtr_Policy request) = false) -> same_head s s' k.
Proof.
  intros Hr Hk. pose proof Hr as Hform. apply retain_Ok in Hform as [-> | ->]; [done|].
  apply same_head_at; try done. unfold payload_of, items_of. cbn [sto_history upd]. destruct (decide (k = rtr_ExecutionID request)) as [->|Hn]; [|by rewrite lookup_insert_ne].
  destruct Hk as [?|Hd]; [done|]. rewrite lookup_insert_eq, default_Some. fold (items_of s (rtr_ExecutionID request)).
  unfold RetainExecutionStore in Hr. cbn [check mbind res_bind] in Hr. apply bind_Ok in Hr as (u & _ & Hr). cbv zeta in Hr.
  guard_in Hr; [done|]. guard_in Hr; [done|]. guard_in Hr; [done|]. apply negb_false_iff, bool_decide_eq_true in Hg1. rewrite Hg1.
  destruct (items_of s (rtr_ExecutionID request) !! rtr_Revision request) as [data|] eqn:E.
  - rewrite (map_lookup_filter_Some_2 _ _ _ data); [done|done|]. unfold pruned, ExecutionRevisionRetained. cbn [fst snd].
    rewrite Hd, bool_decide_eq_true_2 by done. cbn [orb]. by rewrite orb_true_r.
  - rewrite map_lookup_filter_None_2; [done|by left].
Qed.
Lemma retain_deleted now s request s' receipt : RetainExecutionStore None now s request = Ok (s', receipt) ->
  rtp_DeletePayload (rtr_Policy request) = true -> exists err, LoadExecution None s' (rtr_ExecutionID request) = Err err.
Proof.
  intros Hr Hd. unfold RetainExecutionStore in Hr. cbn [check mbind res_bind] in Hr. apply bind_Ok in Hr as (u & _ & Hr). cbv zeta in Hr.
  guard_in Hr; [done|]. guard_in Hr; [done|]. guard_in Hr; [done|]. apply negb_false_iff, bool_decide_eq_true in Hg1.
  unfold LoadExecution, decodeAnchoredExecution. cbn [check mbind res_bind].
  assert (E : head_of s' (rtr_ExecutionID request) = head_of s (rtr_ExecutionID request) /\ payload_of s' (rtr_ExecutionID request) (rtr_Revision request) = "").
  { guard_in Hr; [rewrite Hd in Hr; injection Hr as <- <-; split; [done|]; by apply bool_decide_eq_true in Hg2|].
    apply bind_Ok in Hr as (src & _ & Hr). apply bind_Ok in Hr as (u2 & _ & Hr). guard_in Hr; [done|]. apply bind_Ok in Hr as (u3 & _ & Hr).
    injection Hr as <- <-. split; [done|]. unfold payload_of, items_of. cbn [sto_history upd]. rewrite lookup_insert_eq, default_Some.
    destruct (filter _ _ !! rtr_Revision request) as [data|] eqn:E; [|done]. apply map_lookup_filter_Some in E as [_ E].
    unfold pruned, ExecutionRevisionRetained in E. cbn [fst snd] in E. rewrite Hd, orb_false_r in E. apply negb_false_iff in E. by apply bool_decide_eq_true in E. }
  destruct E as [-> E]. rewrite Hg1, E. change (no_bytes "") with true. destruct (rtr_Revision request == 0%N); by eexists.
Qed.
End Frames.

Section DiscoveryInv.
Context `{HC : Codecs} `{HL : !LawfulCodecs} `{HJ : JsonColumns} `{HLC : !LawfulColumns}.

(** ** The invariant *)
Definition indexed (db : Database) (id : string) : Prop :=
  match LoadExecution None (memory_of db) id with
  | Ok e => indexes e db
  | Err _ => due_of db id = ∅ /\ (head_of (memory_of db) id <> 0%N -> exists reason, flags db id = Some (true, reason))
  end.
Definition index_ok (db : Database) : Prop := forall id, indexed db id.

Lemma loaded_id db id e : LoadExecution None (memory_of db) id = Ok e -> env_ExecutionID e = id.
Proof.
  unfold LoadExecution. cbn [check mbind res_bind]. case_bool_decide; [done|]. intros Hd.
  apply decodeAnchored_Ok in Hd as (_ & _ & Hv & _). by apply integrity_digest in Hv as (? & _).
Qed.

Lemma index_ok_empty : index_ok empty_database.
Proof.
  intros id. unfold indexed, LoadExecution, head_of, memory_of, empty_database. cbn [check mbind res_bind sto_heads db_executions].
  rewrite map_imap_empty, lookup_empty. cbn. done.
Qed.

Lemma indexed_same db db' id : same_head (memory_of db) (memory_of db') id -> same_index db db' id -> indexed db id -> indexed db' id.
Proof.
  intros [Hl Hh] Hs. unfold indexed. rewrite Hl, Hh. destruct (LoadExecution None (memory_of db) id) as [e|err] eqn:E.
  - intros Hi. apply (indexes_same _ _ _ Hi). by rewrite (loaded_id _ _ _ E).
  - destruct Hs as [-> ->]. done.
Qed.
Lemma indexed_grows db db' id : same_head (memory_of db) (memory_of db') id -> index_grows db db' id -> indexed db id -> indexed db' id.
Proof.
  intros Hh [Hs|(H1 & H2 & H3)]; [by apply indexed_same|]. unfold indexed. destruct Hh as [-> ->].
  destruct (LoadExecution None (memory_of db) id) as [e|err] eqn:E.
  - intros (cs & _ & _ & _ & Hf). rewrite (loaded_id _ _ _ E) in Hf. congruence.
  - rewrite H1. intros [Hd Hn]. split; [done|]. intros Hx. destruct (Hn Hx). congruence.
Qed.
Lemma indexed_loads db id e : LoadExecution None (memory_of db) id = Ok e -> indexes e db -> indexed db id.
Proof. intros Hl Hi. unfold indexed. by rewrite Hl. Qed.
Lemma indexed_gone db id err reason : LoadExecution None (memory_of db) id = Err err -> unindexed id reason db -> indexed db id.
Proof. intros Hl [H1 H2]. unfold indexed. rewrite Hl. split; [done|]. intros _. by exists reason. Qed.

(** ** Operations keep it *)
Lemma commit_indexed db db' now expected lease envelope result : store_ok (memory_of db) ->
  committed now (memory_of db) expected lease envelope (memory_of db') result -> indexes result db' ->
  (forall k, k <> env_ExecutionID result -> same_index db db' k) -> index_ok db -> index_ok db'.
Proof.
  intros Hs Hc Hi Ho Hok id. pose proof (commit_loads _ _ _ _ _ _ _ Hs Hc) as Hl. pose proof (loaded_id _ _ _ Hl) as Hid.
  destruct (decide (id = env_ExecutionID envelope)) as [->|Hn]; [by eapply indexed_loads|].
  apply (indexed_same db); [by eapply commit_same_head|apply Ho; congruence|done].
Qed.
Lemma rollover_indexed db db' now lease source target receipt current transferred created : store_ok (memory_of db) ->
  publishes_representable lease target ->
  CommitRollover None now (memory_of db) lease source target = Ok (memory_of db', receipt) ->
  decodeAnchoredExecution (memory_of db) (payload_of (memory_of db) (ref_ExecutionID source) (ref_Revision source))
    (ref_ExecutionID source) (ref_Revision source) = Ok current ->
  PrepareExecutionRolloverPublication current target lease = Ok (transferred, created, receipt) ->
  indexes transferred db' -> indexes created db' ->
  (forall k, k <> env_ExecutionID transferred -> k <> env_ExecutionID created -> same_index db db' k) -> index_ok db -> index_ok db'.
Proof.
  intros Hs Hrep Hc Hd Hp Hi1 Hi2 Ho Hok id.
  apply rollover_published in Hc as (current' & transferred' & created' & Hd' & Hp' & Hroll);
    [|done|intros c t cr r Hx; destruct (Hrep _ _ _ _ Hx) as (? & ? & _); done].
  assert (current' = current) as -> by congruence. assert (transferred' = transferred) as -> by congruence. assert (created' = created) as -> by congruence.
  destruct (rolled_loads _ _ _ _ _ _ _ _ Hroll) as [Hl1 Hl2]. pose proof (loaded_id _ _ _ Hl1). pose proof (loaded_id _ _ _ Hl2).
  destruct (decide (id = ref_ExecutionID source)) as [->|H1]; [by eapply indexed_loads|].
  destruct (decide (id = env_ExecutionID target)) as [->|H2]; [by eapply indexed_loads|].
  apply (indexed_same db); [by eapply rolled_same_head|apply Ho; congruence|done].
Qed.
Lemma retain_indexed request db db' receipt : retained_alike request db db' receipt -> index_ok db -> index_ok db'.
Proof.
  intros (_ & _ & _ & (now & r & Hr) & Hi) Hok. destruct Hi as [->|Hi]; [done|]. intros id. specialize (Hi id).
  destruct (rtp_DeletePayload (rtr_Policy request)) eqn:Ed.
  - destruct (decide (id = rtr_ExecutionID request)) as [->|Hn].
    + rewrite bool_decide_eq_true_2 in Hi by done. destruct (retain_deleted _ _ _ _ _ Hr Ed) as [err He]. exact (indexed_gone _ _ _ _ He Hi).
    + rewrite bool_decide_eq_false_2 in Hi by done. apply (indexed_same db); [exact (retain_same_head _ _ _ _ _ _ Hr (or_introl Hn))|exact Hi|done].
  - apply (indexed_same db); [exact (retain_same_head _ _ _ _ _ _ Hr (or_intror Ed))|exact Hi|done].
Qed.

(** ** The repair pass *)
Context `{HCol : Collation} (error_text : error -> string).

Lemma runs_attempt_query {A} (f : Time -> Database -> res A) db db' (r : res A) : runs (attempt (query f)) db db' r ->
  db' = db /\ ((exists now, r = f now db) \/ exists f, r = Err (fault_error f)).
Proof.
  intros (w & w' & Hr & <- & <-). unfold attempt, query in Hr. rewrite statement_eq in Hr. destruct (pw_fault w (pw_tick w)) as [err|].
  - injection Hr as <- <-. split; [done|]. right. by eexists.
  - destruct (f _ (pw_db w)) as [a|e] eqn:E; cbn in Hr; injection Hr as <- <-; (split; [done|]); left; eexists; by rewrite E.
Qed.

Lemma fault_no_record f : discoveryRecordError (fault_error f) = false.
Proof. by destruct f as [?|[]]. Qed.

Lemma deleted_load db id row : db_ok db -> db_executions db !! id = Some row -> row_payload_deleted row = true ->
  exists err, LoadExecution None (memory_of db) id = Err err.
Proof.
  intros Hdb Hrow Hd. pose proof (do_rows _ Hdb _ _ Hrow) as Hok. unfold LoadExecution, decodeAnchoredExecution. cbn [check mbind res_bind].
  rewrite (memory_head _ _ _ Hrow), memory_payload. case_bool_decide as E; [by eexists|]. pose proof (ro_head _ _ _ Hok E) as Hh. rewrite Hd in Hh.
  destruct (history_of db id !! row_revision row); [done|]. cbn. by eexists.
Qed.

Lemma rebuild_loaded id revision db db' d : db_ok db -> index_ok db -> is_Some (db_executions db !! id) ->
  runs (rebuildLoadedHead error_text id revision) db db' d -> same_core db db' /\ index_ok db'.
Proof.
  intros Hdb Hok Hrow Hr. unfold rebuildLoadedHead in Hr. run_in Hr. apply runs_attempt_query in Hr0 as [-> Hload].
  assert (Hcase : (exists e u, LoadExecution None (memory_of db) id = Ok e /\ indexes e db /\ runs (replaceDiscoveryProjection e) db db' u)
    \/ exists err u, LoadExecution None (memory_of db) id = Err err /\ runs (removeDiscoveryProjection id (error_text err)) db db' u).
  { destruct Hload as [[_ ->]|[f ->]]; [|cbn [mbind res_bind] in Hr; rewrite fault_no_record in Hr; by run_in Hr].
    rewrite (selectHead_load _ _ Hdb) in Hr. pose proof (Hok id) as Hi. unfold indexed in Hi.
    destruct (LoadExecution None (memory_of db) id) as [e|err] eqn:El; cbn [mbind res_bind] in Hr.
    - left. pose proof Hi as (cs & Hcs & _). rewrite Hcs in Hr. run_in Hr. by eexists e, _.
    - right. run_in Hr. by eexists err, _. }
  destruct Hcase as [(e & u & Hl & Hi & Hrun)|(err & u & Hl & Hrun)].
  - pose proof (loaded_id _ _ _ Hl) as Hid. pose proof Hrun as Hc. apply replace_core in Hc. apply replace_index in Hrun as [Hx Ho]; [|by rewrite Hid].
    split; [done|]. intros k. destruct (decide (k = id)) as [->|Hn].
    + eapply indexed_loads; [|exact Hx]. by rewrite (memory_core _ _ Hc).
    + apply (indexed_same db); [by rewrite (memory_core _ _ Hc)|apply Ho; congruence|done].
  - pose proof Hrun as Hc. apply remove_core in Hc. apply remove_index in Hrun as [Hx Ho]; [|done].
    split; [done|]. intros k. destruct (decide (k = id)) as [->|Hn].
    + eapply indexed_gone; [|exact Hx]. by rewrite (memory_core _ _ Hc).
    + apply (indexed_same db); [by rewrite (memory_core _ _ Hc)|by apply Ho|done].
Qed.

Lemma rebuild_effects w id : db_ok (pw_db w) -> index_ok (pw_db w) ->
  effects (rebuildDiscoveryHead error_text id) w (fun db' _ => same_core (pw_db w) db' /\ index_ok db').
Proof.
  intros Hdb Hok. apply effects_transaction. intros db' d Hr. run_in Hr. destruct a as [revision deleted].
  destruct (db_executions (pw_db w) !! id) as [row|] eqn:Hrow; [|done]. injection Hr0 as <- <-. destruct (row_payload_deleted row) eqn:Hd.
  - run_in Hr. pose proof Hr0 as Hc. apply remove_core in Hc. apply remove_index in Hr0 as [Hx Ho]; [|by eexists].
    destruct (deleted_load _ _ _ Hdb Hrow Hd) as [err Hl]. split; [done|]. intros k. destruct (decide (k = id)) as [->|Hn].
    + eapply indexed_gone; [|exact Hx]. by rewrite (memory_core _ _ Hc).
    + apply (indexed_same (pw_db w)); [by rewrite (memory_core _ _ Hc)|by apply Ho|done].
  - eapply rebuild_loaded; [done|done|by eexists|exact Hr].
Qed.
End DiscoveryInv.
