(* ===== verification/PostgresWorld.v ===== *)
(** * The PostgreSQL store keeps the contract

    The refinement of the reference store, over every schedule of operations, faults and
    lost acknowledgements, and the second implementation of [StoreContract]: what is proved
    of sessions, runs and operator decisions against that interface holds over PostgreSQL. *)

From stdpp Require Import relations.
From S2P Require Import Prelude Go Sha256 Json Identity Schedule Activity Waits Contract Children Wire Migration Integrity Aggregate Store StoreInv Session StoreWorld Postgres Discovery PostgresInv PostgresOps PostgresLifecycle DiscoveryInv.

Section PostgresWorld.
Context `{HC : Codecs} `{HL : !LawfulCodecs} `{HJ : JsonColumns} `{HLC : !LawfulColumns}.

(** ** Steps *)
(** One operation of one client, whatever its statements met; or the passage of time. *)
Inductive postgres_step : postgres_world -> postgres_world -> Prop :=
| pstep_commit w expected lease envelope : seals_representable expected envelope ->
    postgres_step w (pgCommitExecution expected lease envelope w).1
| pstep_acquire w id owner ttl : postgres_step w (pgAcquireExecution id owner ttl w).1
| pstep_renew w lease ttl : postgres_step w (pgRenewExecution lease ttl w).1
| pstep_release w lease : postgres_step w (pgReleaseExecution lease w).1
| pstep_rollover w lease source target : publishes_representable lease target ->
    postgres_step w (pgCommitRollover lease source target w).1
| pstep_retain w request : postgres_step w (pgRetainExecution request w).1
| pstep_rebuild w error_text id : postgres_step w (rebuildDiscoveryHead error_text id w).1
| pstep_other w w' : pw_db w' = pw_db w -> postgres_step w w'.
Definition postgres_reachable (w : postgres_world) : Prop := exists w0, pw_db w0 = empty_database /\ rtc postgres_step w0 w.

(** An operation does to the tables what [op] does to the reference store; one that fails
    did nothing, or did it without saying so. *)
Definition simulates {A} (m : pg A) (w : postgres_world) (op : MemoryExecutionStore -> MemoryExecutionStore -> A -> Prop) : Prop :=
  effects m w (fun db' a => op (memory_of (pw_db w)) (memory_of db') a).

Definition commit_op (expected : N) (lease : ExecutionLease) (envelope : ExecutionEnvelope) s s' result : Prop :=
  exists now, CommitExecution None now s expected lease envelope = Ok (s', result).
Definition acquire_op (id owner : string) (ttl : Z) s s' lease : Prop :=
  exists now now', AcquireExecution None now now' s id owner (leaseTTLSeconds ttl) = Ok (s', lease).
Definition renew_op (lease : ExecutionLease) (ttl : Z) s s' lease' : Prop :=
  exists now, RenewExecution None now now s lease (leaseTTLSeconds ttl) = Ok (s', lease').
Definition release_op (lease : ExecutionLease) s s' (_ : unit) : Prop := ReleaseExecution None s lease = Ok s'.
Definition rollover_op (lease : ExecutionLease) (source : HistoricalCheckpointReference) (target : ExecutionEnvelope) s s' receipt : Prop :=
  exists now, CommitRollover None now s lease source target = Ok (s', receipt).
(** The receipts differ in the count of deleted bytes: the tables hold the texts of the server. *)
Definition retain_op (request : ExecutionRetentionRequest) s s' receipt : Prop :=
  rtc_ExecutionID receipt = rtr_ExecutionID request /\ rtc_Revision receipt = rtr_Revision request /\
  exists now receipt', RetainExecutionStore None now s request = Ok (s', receipt').

(** What a step keeps of the tables before it. *)
Definition refines (db db' : Database) : Prop := db_ok db' /\ index_ok db' /\ rtc store_step (memory_of db) (memory_of db').
Lemma refines_refl db : db_ok db -> index_ok db -> refines db db.
Proof. intros H1 H2. split; [done|]. split; [done|]. apply rtc_refl. Qed.

Lemma step_refines w w' : postgres_step w w' -> db_ok (pw_db w) -> index_ok (pw_db w) -> refines (pw_db w) (pw_db w').
Proof.
  intros Hs Hdb Hix. pose proof (do_store _ Hdb) as Hst. pose proof (refines_refl _ Hdb Hix) as Hrefl.
  destruct Hs as [w expected lease envelope Hr|w id owner ttl|w lease ttl|w lease|w lease source target Hr|w request|w text id|w w' E].
  - apply (effects_step _ _ _ (refines (pw_db w)) (commit_effects w expected lease envelope Hdb Hr) Hrefl).
    intros db' a (Hok & (now & Hc) & Hi & Ho). pose proof (sealed_representable _ _ Hr (committed_bound _ _ _ _ _ _ Hst Hc)) as Hrep.
    split; [done|]. split; [|eapply rtc_once, sstep_commit, Hc; exact Hrep].
    by eapply (commit_indexed (pw_db w)); [|by eapply commit_Ok|..].
  - apply (effects_step _ _ _ (refines (pw_db w)) (acquire_effects w id owner ttl Hdb) Hrefl). intros db' a (Hok & (now & now' & Ha) & Hi).
    split; [done|]. split; [|by eapply rtc_once, sstep_acquire]. intros k. apply (indexed_grows (pw_db w)); [by eapply acquire_same_head|apply Hi|apply Hix].
  - apply (effects_step _ _ _ (refines (pw_db w)) (renew_effects w lease ttl Hdb) Hrefl). intros db' a (Hok & (now & Ha) & Hi).
    split; [done|]. split; [|by eapply rtc_once, sstep_renew]. intros k. apply (indexed_same (pw_db w)); [by eapply renew_same_head|apply Hi|apply Hix].
  - apply (effects_step _ _ _ (refines (pw_db w)) (release_effects w lease Hdb) Hrefl). intros db' a (Hok & Ha & Hi).
    split; [done|]. split; [|by eapply rtc_once, sstep_release]. intros k. apply (indexed_same (pw_db w)); [by eapply release_same_head|apply Hi|apply Hix].
  - apply (effects_step _ _ _ (refines (pw_db w)) (rollover_effects w lease source target Hdb Hr) Hrefl).
    intros db' a (Hok & (now & Ha) & c & t & cr & Hd & Hp & Hi1 & Hi2 & Ho). split; [done|]. split; [by eapply rollover_indexed|].
    eapply rtc_once, sstep_rollover; [|exact Ha]. intros x y z r Hx. destruct (Hr _ _ _ _ Hx) as (? & ? & _). done.
  - apply (effects_step _ _ _ (refines (pw_db w)) (retain_effects w request Hdb) Hrefl). intros db' a Ha.
    pose proof Ha as (Hok & _ & _ & (now & r & Hm) & _). split; [done|]. split; [by eapply retain_indexed|]. by eapply rtc_once, sstep_retain.
  - apply (effects_step _ _ _ (refines (pw_db w)) (rebuild_effects text w id Hdb Hix) Hrefl). intros db' a [Hc Hi].
    split; [by eapply db_ok_core|]. split; [done|]. rewrite (memory_core _ _ Hc). apply rtc_refl.
  - by rewrite E.
Qed.

Lemma reachable_tables w : postgres_reachable w -> db_ok (pw_db w) /\ index_ok (pw_db w) /\ store_reachable (memory_of (pw_db w)).
Proof.
  intros (w0 & E & Hs). assert (H0 : db_ok (pw_db w0) /\ index_ok (pw_db w0) /\ store_reachable (memory_of (pw_db w0))).
  { rewrite E. split; [apply db_ok_empty|]. split; [apply index_ok_empty|]. unfold store_reachable, memory_of, empty_database. cbn [db_history db_executions].
    rewrite fmap_empty, !map_imap_empty. apply rtc_refl. }
  clear E. induction Hs as [w|w1 w2 w3 H1 _ IH]; [done|]. apply IH. destruct H0 as (Hdb & Hix & Hr).
  destruct (step_refines _ _ H1 Hdb Hix) as (Hdb' & Hix' & Hr'). split; [done|]. split; [done|]. unfold store_reachable in *. by etrans.
Qed.

(** C8: the PostgreSQL store refines the reference store. Over every sequence of operations
    by any clients, with statements that fail, commits that are refused and acknowledgements
    that are lost at any point, the tables stand for a reachable state of the in-memory
    reference store; a load that reaches the server returns what that state returns, errors
    included; and each operation takes effect as the operation of the same name, or has no
    effect. What is proved of reachable reference stores (linear history, fencing, immutable
    checkpoints, transfer of authority) is thereby true of the tables. *)
Theorem postgres_refines_reference (w : postgres_world) (Hw : postgres_reachable w) :
  store_reachable (memory_of (pw_db w)) /\
  (forall id, pw_fault w (pw_tick w) = None -> (pgLoadExecution id w).2 = LoadExecution None (memory_of (pw_db w)) id) /\
  (forall id revision, (revision <= max_bigint)%N -> pw_fault w (pw_tick w) = None ->
     (pgLoadCheckpoint id revision w).2 = LoadCheckpoint None (memory_of (pw_db w)) id revision) /\
  (forall expected lease envelope, seals_representable expected envelope ->
     simulates (pgCommitExecution expected lease envelope) w (commit_op expected lease envelope)) /\
  (forall id owner ttl, simulates (pgAcquireExecution id owner ttl) w (acquire_op id owner ttl)) /\
  (forall lease ttl, simulates (pgRenewExecution lease ttl) w (renew_op lease ttl)) /\
  (forall lease, simulates (pgReleaseExecution lease) w (release_op lease)) /\
  (forall lease source target, publishes_representable lease target ->
     simulates (pgCommitRollover lease source target) w (rollover_op lease source target)) /\
  (forall request, simulates (pgRetainExecution request) w (retain_op request)).
Proof.
  apply reachable_tables in Hw as (Hdb & _ & Hr). split; [done|]. split_and!.
  - intros id Hf. unfold pgLoadExecution, query. rewrite statement_eq, Hf, (selectHead_load _ _ Hdb). by destruct (LoadExecution _ _ _).
  - intros id revision Hm Hf. unfold pgLoadCheckpoint. destruct (decide (revision = 0%N)) as [->|Hn]; [done|].
    rewrite bool_decide_eq_false_2 by done. cbn [negb]. replace (revision <=? max_bigint)%N with true by (symmetry; apply N.leb_le; lia).
    unfold query. rewrite statement_eq, Hf, (selectReached_load _ _ _ Hdb Hn). by destruct (LoadCheckpoint _ _ _ _).
  - intros expected lease envelope Hs. eapply effects_mono; [by apply commit_effects|]. by intros db' a (_ & ? & _).
  - intros id owner ttl. eapply effects_mono; [by apply acquire_effects|]. by intros db' a (_ & ? & _).
  - intros lease ttl. eapply effects_mono; [by apply renew_effects|]. by intros db' a (_ & ? & _).
  - intros lease. eapply effects_mono; [by apply release_effects|]. by intros db' a (_ & ? & _).
  - intros lease source target Hs. eapply effects_mono; [by apply rollover_effects|]. by intros db' a (_ & ? & _).
  - intros request. eapply effects_mono; [by apply retain_effects|]. intros db' a (_ & H1 & H2 & H3 & _). by split.
Qed.

(** ** The contract of a store *)
#[export] Instance postgres_execution_store : ExecutionStore postgres_world := {|
  store_load w id := pgLoadExecution id w;
  store_commit w revision lease envelope := pgCommitExecution revision lease envelope w;
  store_acquire w id owner ttl := pgAcquireExecution id owner ttl w;
  store_release w lease := let '(w, r) := pgReleaseExecution lease w in (w, err_of r);
  store_head w id := match loadAnchoredEnvelope (selectHead id (pw_db w)) id 0 with Ok e => Some e | Err _ => None end;
  clock_Now w := (next_tick w, pw_host_clock w (pw_tick w));
  ctx_Err w := pw_context w (pw_tick w);
  retry_random w := (next_tick w, pw_random w (pw_tick w));
|}.

Definition memory_head_of (s : MemoryExecutionStore) (id : string) : option ExecutionEnvelope :=
  match LoadExecution None s id with Ok e => Some e | Err _ => None end.
Lemma postgres_head w id : db_ok (pw_db w) -> store_head w id = memory_head_of (memory_of (pw_db w)) id.
Proof. intros Hdb. cbn [store_head postgres_execution_store]. by rewrite (selectHead_load _ _ Hdb). Qed.

(** A commit of the reference store, in the terms of the contract. *)
Lemma commit_op_contract s s' revision lease envelope committed : seals_representable revision envelope -> store_ok s ->
  commit_op revision lease envelope s s' committed ->
  env_ExecutionID envelope = lse_ExecutionID lease /\ default 0%N (env_Revision <$> memory_head_of s (env_ExecutionID envelope)) = revision /\
  SealExecutionEnvelope (envelope <| env_Revision := (revision + 1)%N |>) = Ok committed /\
  memory_head_of s' (env_ExecutionID envelope) = Some committed.
Proof.
  intros Hrep Hs (now & Hc).
  destruct (memory_commit (mkMemoryWorld s 0 (fun _ => now) (fun _ => None) (fun _ => None) (fun _ => false)) revision lease envelope s' committed Hc Hs Hrep)
    as (_ & H1 & H2 & H3 & H4).
  split; [done|]. split; [exact H2|]. split; [done|]. unfold memory_head_of. by rewrite H4.
Qed.

Lemma effects_heads {A} (m : pg A) w (op : MemoryExecutionStore -> MemoryExecutionStore -> A -> Prop) :
  effects m w (fun db' a => db_ok db' /\ op (memory_of (pw_db w)) (memory_of db') a) -> db_ok (pw_db w) ->
  (forall s s' a, op s s' a -> forall k, LoadExecution None s' k = LoadExecution None s k) ->
  db_ok (pw_db (m w).1) /\ forall k, memory_head_of (memory_of (pw_db (m w).1)) k = memory_head_of (memory_of (pw_db w)) k.
Proof.
  unfold effects, memory_head_of. intros He Hdb Hop. destruct (m w) as [w' [a|e]]; cbn [fst].
  - destruct He as [? Ho]. split; [done|]. intros k. by rewrite (Hop _ _ _ Ho).
  - destruct He as [->|(a & ? & Ho)]; [done|]. split; [done|]. intros k. by rewrite (Hop _ _ _ Ho).
Qed.

Lemma postgres_keeps : store_keeps (fun w => db_ok (pw_db w)) seals_representable.
Proof.
  assert (Hcommit : forall w revision lease envelope, db_ok (pw_db w) -> seals_representable revision envelope ->
    effects (pgCommitExecution revision lease envelope) w
      (fun db' committed => db_ok db' /\ commit_op revision lease envelope (memory_of (pw_db w)) (memory_of db') committed)).
  { intros w revision lease envelope Hdb Hr. eapply effects_mono; [by apply commit_effects|]. by intros db' a (? & ? & _). }
  split.
  - intros w w' revision lease envelope committed Hdb Hr Hc. rewrite (postgres_head _ _ Hdb). specialize (Hcommit w revision lease envelope Hdb Hr).
    unfold effects in Hcommit. cbn [store_commit postgres_execution_store] in Hc. rewrite Hc in Hcommit. destruct Hcommit as [Hok Ho].
    rewrite (postgres_head _ _ Hok). exact (commit_op_contract _ _ _ _ _ _ Hr (do_store _ Hdb) Ho).
  - intros w w' revision lease envelope err Hdb Hr Hc. rewrite (postgres_head _ _ Hdb). specialize (Hcommit w revision lease envelope Hdb Hr).
    unfold effects in Hcommit. cbn [store_commit postgres_execution_store] in Hc. rewrite Hc in Hcommit. destruct Hcommit as [E|(a & Hok & Ho)].
    + left. rewrite postgres_head by (rewrite E; done). by rewrite E.
    + right. exists a. rewrite (postgres_head _ _ Hok). by destruct (commit_op_contract _ _ _ _ _ _ Hr (do_store _ Hdb) Ho) as (_ & _ & ? & ?).
  - intros w revision lease envelope Hdb Hr. specialize (Hcommit w revision lease envelope Hdb Hr). unfold effects in Hcommit.
    cbn [store_commit postgres_execution_store]. destruct (pgCommitExecution revision lease envelope w) as [w' [a|e]]; cbn [fst]; [by destruct Hcommit|].
    by destruct Hcommit as [->|(a & ? & _)].
  - intros w w' id e Hdb Hl. cbn [store_load postgres_execution_store] in Hl. rewrite (postgres_head _ _ Hdb). unfold memory_head_of.
    destruct (runs_query (fun _ db => loadAnchoredEnvelope (selectHead id db) id 0) (pw_db w) (pw_db w') e) as [_ [_ Hq]]; [by exists w, w'|].
    by rewrite <- (selectHead_load _ _ Hdb), Hq.
  - intros w id Hdb. cbn [store_load postgres_execution_store]. unfold pgLoadExecution.
    assert (E : pw_db (query (fun _ db => loadAnchoredEnvelope (selectHead id db) id 0) w).1 = pw_db w)
      by (apply (effects_query _ _ (fun _ _ => True)); done).
    split; [by rewrite E|]. intros k. cbn [store_head postgres_execution_store]. by rewrite E.
  - intros w id owner ttl Hdb. cbn [store_acquire postgres_execution_store].
    destruct (effects_heads (pgAcquireExecution id owner ttl) w (acquire_op id owner ttl)) as [Hok Hk]; [eapply effects_mono; [by apply acquire_effects|by intros db' a (? & ? & _)]|done| |].
    { intros s s' a (now & now' & Ha) k. by destruct (load_acquired _ _ _ _ _ _ _ _ _ k Ha). }
    split; [done|]. intros k. rewrite (postgres_head _ _ Hok), (postgres_head _ _ Hdb). apply Hk.
  - intros w w' id owner ttl lease Hdb Ha. cbn [store_acquire postgres_execution_store] in Ha. pose proof (acquire_effects w id owner ttl Hdb) as He.
    unfold effects in He. rewrite Ha in He. destruct He as (_ & (now & now' & Hm) & _). destruct (load_acquired _ _ _ _ _ _ _ _ _ id Hm) as (_ & Hid & _).
    split; [done|]. exact (acquired_incarnation _ _ _ _ _ _ _ _ (do_store _ Hdb) Hm).
  - intros w lease Hdb. cbn [store_release postgres_execution_store].
    destruct (effects_heads (pgReleaseExecution lease) w (release_op lease)) as [Hok Hk]; [eapply effects_mono; [by apply release_effects|by intros db' a (? & ? & _)]|done| |].
    { intros s s' a Ha k. by destruct (load_released _ _ _ _ k Ha). }
    destruct (pgReleaseExecution lease w) as [w' r]. cbn [fst] in *. split; [done|]. intros k. rewrite (postgres_head _ _ Hok), (postgres_head _ _ Hdb). apply Hk.
  - done.
  - done.
Qed.
End PostgresWorld.

(** The contract of storage holds over PostgreSQL as it does over the in-memory store. *)
Theorem postgres_store_keeps_contract `{HC : Codecs} `{HL : !LawfulCodecs} `{HJ : JsonColumns} `{HLC : !LawfulColumns} :
  store_keeps (fun w => db_ok (pw_db w)) seals_representable /\
  forall gate, (forall revision e, gate revision e = true -> seals_representable revision e) ->
    exists contract : @StoreContract HC (gated postgres_world) (gated_store gate), forall w, postgres_reachable w -> @store_inv HC _ (gated_store gate) contract (mkGated w).
Proof.
  split; [apply postgres_keeps|]. intros gate Hg. exists (gated_contract gate _ _ postgres_keeps Hg). intros w Hw. exact (proj1 (reachable_tables w Hw)).
Qed.
