(* ===== verification/DiscoveryPoll.v ===== *)
(** * A polling cycle finds the due work

    A cycle takes pages until one says that there are no more. Over tables that stand still
    it returns each due wait, or retry, of the profile exactly once and no diagnostics: the
    rows are those of the heads (DiscoveryInv.v), a page continues strictly after the cursor,
    and each row passes the validation against its head. *)

From Stdlib Require Import Permutation.
From stdpp Require Import relations.
From S2P Require Import Prelude Go Sha256 Json Identity Schedule Activity Waits Contract Children Wire Migration Integrity Aggregate Store StoreInv Session StoreWorld Postgres Discovery PostgresInv PostgresOps PostgresLifecycle DiscoveryInv PostgresWorld.

(** ** Sorted lists *)
Section Sorted.
Context {A : Type}.
Implicit Types (R : relation A) (p : A -> bool) (l : list A).

Lemma elem_of_bool_filter p l x : x ∈ List.filter p l <-> x ∈ l /\ p x = true.
Proof. rewrite !list_elem_of_In. apply List.filter_In. Qed.
Lemma bool_filter_permutation p l1 l2 : l1 ≡ₚ l2 -> List.filter p l1 ≡ₚ List.filter p l2.
Proof.
  induction 1 as [|x l l' _ IH|x y l|l l' l'' _ IH1 _ IH2]; cbn [List.filter].
  - done.
  - destruct (p x); [by constructor|done].
  - destruct (p x), (p y); try done. constructor.
  - by etrans.
Qed.
Lemma StronglySorted_bool_filter R p l : StronglySorted R l -> StronglySorted R (List.filter p l).
Proof.
  induction 1 as [|x l _ IH Hx]; cbn [List.filter]; [constructor|]. destruct (p x); [|done]. constructor; [done|].
  rewrite Forall_forall in *. intros y [Hy _]%elem_of_bool_filter. by apply Hx.
Qed.
Lemma NoDup_bool_filter p l : NoDup l -> NoDup (List.filter p l).
Proof.
  induction 1 as [|x l Hx _ IH]; cbn [List.filter]; [constructor|]. destruct (p x); [|done]. constructor; [|done]. by intros [? _]%elem_of_bool_filter.
Qed.
Lemma bool_filter_all p l : (forall x, x ∈ l -> p x = true) -> List.filter p l = l.
Proof. induction l as [|x l IH]; [done|]. intros H. cbn [List.filter]. rewrite H by left. f_equal. apply IH. intros y Hy. apply H. by right. Qed.
Lemma bool_filter_none p l : (forall x, x ∈ l -> p x = false) -> List.filter p l = [].
Proof. induction l as [|x l IH]; [done|]. intros H. cbn [List.filter]. rewrite H by left. apply IH. intros y Hy. apply H. by right. Qed.
Lemma bool_filter_filter p q l : List.filter p (List.filter q l) = List.filter (fun x => q x && p x) l.
Proof. induction l as [|x l IH]; [done|]. cbn [List.filter]. destruct (q x); cbn [List.filter andb]; [|done]. destruct (p x); by rewrite IH. Qed.

(** Sorting commutes with selecting where the order tells the elements apart. *)
Lemma merge_sort_filter R `{!RelDecision R, !Transitive R, !Total R} p l :
  (forall x y, x ∈ l -> y ∈ l -> R x y -> R y x -> x = y) -> merge_sort R (List.filter p l) = List.filter p (merge_sort R l).
Proof.
  intros Ha. apply (StronglySorted_unique_strong R).
  - intros x y Hx Hy. apply elem_of_Permutation_proper with (y := List.filter p l) in Hx; [|apply merge_sort_Permutation].
    apply elem_of_bool_filter in Hx as [Hx _], Hy as [Hy _]. apply Ha; [done|]. by rewrite merge_sort_Permutation in Hy.
  - by apply StronglySorted_merge_sort.
  - by apply StronglySorted_bool_filter, StronglySorted_merge_sort.
  - rewrite merge_sort_Permutation. apply bool_filter_permutation. by rewrite merge_sort_Permutation.
Qed.

(** What comes strictly after an element of a sorted list is its suffix. *)
Lemma filter_after R (lt : A -> A -> bool) l1 c l2 :
  StronglySorted R (l1 ++ c :: l2) -> NoDup (l1 ++ c :: l2) ->
  (forall x y, x ∈ l1 ++ c :: l2 -> y ∈ l1 ++ c :: l2 -> R x y -> lt y x = false) ->
  (forall x y, x ∈ l1 ++ c :: l2 -> y ∈ l1 ++ c :: l2 -> R x y -> x <> y -> lt x y = true) -> 
  R c c -> List.filter (lt c) (l1 ++ c :: l2) = l2.
Proof.
  intros Hs Hnd Hf Ht Hc. apply StronglySorted_app in Hs as (H1 & _ & H2). inversion H2 as [|? ? _ H3]. subst. rewrite Forall_forall in H3.
  rewrite List.filter_app. rewrite bool_filter_none, app_nil_l.
  - cbn [List.filter]. rewrite Hf; [|set_solver..|done]. apply bool_filter_all. intros x Hx. apply Ht; [set_solver..|by apply H3|].
    intros ->. apply NoDup_app in Hnd as (_ & _ & Hnd). by apply NoDup_cons in Hnd as [? _].
  - intros x Hx. apply Hf; [set_solver..|]. apply H1; [done|left].
Qed.
End Sorted.

Lemma NoDup_Forall2 {A B} (P : A -> B -> Prop) (l : list A) (k : list B) : Forall2 P l k -> NoDup l ->
  (forall x y b, x ∈ l -> y ∈ l -> P x b -> P y b -> x = y) -> NoDup k.
Proof.
  induction 1 as [|x b l k Hp Hf IH]; intros Hnd Hinj; [constructor|]. apply NoDup_cons in Hnd as [Hx Hnd]. constructor.
  - intros (i & Hb)%list_elem_of_lookup. destruct (Forall2_lookup_r _ _ _ _ _ Hf Hb) as (y & Hy & Hpy). apply list_elem_of_lookup_2 in Hy.
    assert (x = y) as ->; [|done]. eapply Hinj; [by left|by right|exact Hp|exact Hpy].
  - apply IH; [done|]. intros y z c Hy Hz. apply Hinj; by right.
Qed.

(** ** The order of the rows *)
Section Order.
Context `{HCol : Collation} `{HLCol : !LawfulCollation}.

Lemma text_asymmetric s t : text_lt s t = true -> text_lt t s = false.
Proof.
  intros H1. destruct (text_lt t s) eqn:H2; [|done]. pose proof (text_transitive _ _ _ H1 H2) as H3. by rewrite text_irreflexive in H3.
Qed.
Lemma row_lt_true d1 e1 i1 d2 e2 i2 : row_lt d1 e1 i1 d2 e2 i2 = true <->
  (time_ns d1 < time_ns d2)%Z \/ time_ns d1 = time_ns d2 /\ (text_lt e1 e2 = true \/ e1 = e2 /\ text_lt i1 i2 = true).
Proof.
  unfold row_lt, Before, TimeEqual. rewrite orb_true_iff, !andb_true_iff, orb_true_iff, andb_true_iff, !bool_decide_eq_true, Z.ltb_lt. done.
Qed.
Lemma row_lt_false d1 e1 i1 d2 e2 i2 : row_lt d1 e1 i1 d2 e2 i2 = false <->
  (time_ns d2 < time_ns d1)%Z \/ time_ns d1 = time_ns d2 /\ (text_lt e2 e1 = true \/ e1 = e2 /\ (text_lt i2 i1 = true \/ i1 = i2)).
Proof.
  split.
  - intros Hf. assert (Hn : ~ row_lt d1 e1 i1 d2 e2 i2 = true) by congruence. rewrite row_lt_true in Hn.
    destruct (Z.lt_trichotomy (time_ns d1) (time_ns d2)) as [?|[E|?]]; [tauto| |by left]. right. split; [done|].
    destruct (text_total e1 e2) as [->|[?|?]]; [|tauto|by left]. right. split; [done|].
    destruct (text_total i1 i2) as [->|[?|?]]; [by right|tauto|by left].
  - intros H. apply not_true_iff_false. rewrite row_lt_true. intros H'.
    destruct H as [H|(H & [He|[-> [Hi|Hi]]])], H' as [H'|(H' & [He'|[E Hi']])]; try lia; subst;
      try (apply text_asymmetric in He'; congruence); try (rewrite text_irreflexive in *; congruence);
      try (apply text_asymmetric in Hi'; congruence).
Qed.

Lemma candidate_le_iff a b : candidate_le a b <-> (time_ns (due_Deadline a) < time_ns (due_Deadline b))%Z \/
  time_ns (due_Deadline a) = time_ns (due_Deadline b) /\ (text_lt (due_ExecutionID a) (due_ExecutionID b) = true \/
    due_ExecutionID a = due_ExecutionID b /\ (text_lt (due_Identity a) (due_Identity b) = true \/ due_Identity a = due_Identity b)).
Proof. unfold candidate_le, candidate_lt. rewrite row_lt_false. naive_solver. Qed.
#[export] Instance candidate_le_trans : Transitive candidate_le.
Proof.
  intros a b c. rewrite !candidate_le_iff. intros [H1|(H1 & H2)] [H3|(H3 & H4)]; [left; lia..|]. right. split; [lia|].
  destruct H2 as [H2|[-> H2]], H4 as [H4|[E4 H4]]; [left; by eapply text_transitive|rewrite <- E4; by left|by left|].
  right. split; [done|]. destruct H2 as [H2| ->], H4 as [H4|E]; [left; by eapply text_transitive|rewrite <- E; by left|by left|by right].
Qed.
#[export] Instance candidate_le_total : Total candidate_le.
Proof.
  intros a b. unfold candidate_le. destruct (candidate_lt b a) eqn:E; [|by left]. right. unfold candidate_lt in *.
  apply row_lt_true in E. apply row_lt_false. destruct E as [Hd|(Hd & [He|(He & Hi)])]; [by left|right; split; [done|by left]|right; split; [done|right; split; [done|by left]]].
Qed.
Lemma candidate_le_key a b : candidate_le a b -> candidate_le b a ->
  due_ExecutionID a = due_ExecutionID b /\ due_Identity a = due_Identity b.
Proof.
  rewrite !candidate_le_iff. intros H1 H2.
  destruct H1 as [H1|(H1 & [He|[He [Hi|Hi]]])], H2 as [H2|(H2 & [He'|[He' [Hi'|Hi']]])]; try lia; try done;
    repeat match goal with H : text_lt _ _ = true |- _ => pose proof (text_asymmetric _ _ H); revert H end; intros;
    try congruence; rewrite He in *; try (rewrite text_irreflexive in *; congruence).
Qed.
Lemma candidate_lt_le a b : candidate_le a b -> a <> b -> (due_ExecutionID a = due_ExecutionID b -> due_Identity a = due_Identity b -> a = b) ->
  candidate_lt a b = true.
Proof.
  intros Hle Hne Hk. destruct (candidate_lt a b) eqn:E; [done|]. destruct (candidate_le_key a b Hle E) as [H1 H2]. by destruct Hne; apply Hk.
Qed.
End Order.

(** ** A polling cycle *)
Fixpoint poll {A} (discover : DiscoveryCursor -> pg (ScanPage A)) (fuel : nat) (cursor : DiscoveryCursor) : pg (option (list A * list DiscoveryDiagnostic)) :=
  match fuel with
  | O => pg_ret None
  | S fuel =>
      let* page := discover cursor in
      if pag_More page then
        let* later := poll discover fuel (pag_Cursor page) in
        pg_ret ((fun l => (pag_Items page ++ l.1, pag_Diagnostics page ++ l.2)) <$> later)
      else pg_ret (Some (pag_Items page, pag_Diagnostics page))
  end.

Section Poll.
Context `{HC : Codecs} `{HL : !LawfulCodecs} `{HJ : JsonColumns} `{HLC : !LawfulColumns} `{HCol : Collation} `{HLCol : !LawfulCollation}.
Context (error_text : error -> string) (db : Database) (Hdb : db_ok db) (Hix : index_ok db).

(** ** Reads of tables that stand still *)
Definition still (w : postgres_world) : Prop := pw_db w = db /\ forall n, pw_fault w n = None.
Definition reads {A} (m : pg A) (a : A) : Prop := forall w, still w -> exists w', still w' /\ m w = (w', Ok a).
Lemma reads_ret {A} (a : A) : reads (pg_ret a) a.
Proof. intros w Hw. by exists w. Qed.
Lemma reads_lift {A} (r : res A) a : r = Ok a -> reads (pg_lift r) a.
Proof. intros -> w Hw. by exists w. Qed.
Lemma reads_bind {A B} (m : pg A) (k : A -> pg B) a b : reads m a -> reads (k a) b -> reads (pg_bind m k) b.
Proof. intros Hm Hk w Hw. destruct (Hm w Hw) as (w1 & H1 & E). unfold pg_bind. rewrite E. by apply Hk. Qed.
Lemma reads_attempt {A} (m : pg A) a : reads m a -> reads (attempt m) (Ok a).
Proof. intros Hm w Hw. destruct (Hm w Hw) as (w1 & H1 & E). exists w1. unfold attempt. by rewrite E. Qed.
Lemma reads_query {A} (f : Time -> Database -> res A) a : (forall now, f now db = Ok a) -> reads (query f) a.
Proof.
  intros Hf w [E Hw]. exists (next_tick w). unfold query. rewrite statement_eq, Hw, E, Hf. cbn. split; [by split|]. by destruct w; cbn in *; subst.
Qed.

(** ** Rows and heads *)
Lemma elem_of_due_rows c : c ∈ due_rows db <-> exists id key, due_of db id !! key = Some c.
Proof.
  unfold due_rows. rewrite list_elem_of_bind. split.
  - intros ([id m] & Hc & Hm). apply elem_of_map_to_list in Hm. apply list_elem_of_In, in_map_iff in Hc as ([key x] & <- & Hx).
    apply list_elem_of_In, elem_of_map_to_list in Hx. exists id, key. unfold due_of. by rewrite Hm.
  - intros (id & key & Hc). unfold due_of in Hc. destruct (db_due db !! id) as [m|] eqn:Em; [|by rewrite default_None, lookup_empty in Hc].
    exists (id, m). split; [|by apply elem_of_map_to_list]. apply list_elem_of_In, in_map_iff. exists (key, c). split; [done|].
    by apply list_elem_of_In, elem_of_map_to_list.
Qed.
Lemma due_of_key id key c : due_of db id !! key = Some c -> due_ExecutionID c = id /\ key = candidate_key c /\
  exists e candidates, LoadExecution None (memory_of db) id = Ok e /\ executionCandidates e = Ok candidates /\ c ∈ candidates.
Proof.
  intros Hc. pose proof (Hix id) as Hi. unfold indexed in Hi. destruct (LoadExecution None (memory_of db) id) as [e|err] eqn:El.
  - destruct Hi as (cs & Hcs & _ & Hdue & _). pose proof (loaded_id _ _ _ El) as Hid. rewrite Hid in Hdue. rewrite Hdue in Hc.
    apply due_map_key in Hc as [-> Hin]. split; [rewrite <- Hid; by eapply executionCandidates_id|]. split; [done|]. by exists e, cs.
  - destruct Hi as [Hi _]. by rewrite Hi, lookup_empty in Hc.
Qed.
Lemma row_head c : c ∈ due_rows db -> exists e candidates,
  LoadExecution None (memory_of db) (due_ExecutionID c) = Ok e /\ executionCandidates e = Ok candidates /\ c ∈ candidates.
Proof. intros (id & key & Hc)%elem_of_due_rows. by apply due_of_key in Hc as (<- & _ & ?). Qed.
Lemma head_row e id candidates c : LoadExecution None (memory_of db) id = Ok e -> executionCandidates e = Ok candidates -> c ∈ candidates ->
  c ∈ due_rows db.
Proof.
  intros Hl Hcs Hc. pose proof (Hix id) as Hi. unfold indexed in Hi. rewrite Hl in Hi. destruct Hi as (cs & Hcs' & Hnd & Hdue & _).
  assert (cs = candidates) as -> by congruence. apply elem_of_due_rows. exists (env_ExecutionID e), (candidate_key c). rewrite Hdue.
  unfold due_map. apply elem_of_list_to_map_1.
  - assert (E : (map (fun c => (candidate_key c, c)) candidates).*1 = map candidate_key candidates); [|by rewrite E].
    clear. induction candidates as [|x l IH]; [done|]. cbn. by f_equal.
  - apply list_elem_of_In, in_map_iff. exists c. split; [done|by apply list_elem_of_In].
Qed.
Lemma due_rows_key c1 c2 : c1 ∈ due_rows db -> c2 ∈ due_rows db -> due_ExecutionID c1 = due_ExecutionID c2 -> candidate_key c1 = candidate_key c2 -> c1 = c2.
Proof.
  intros (id1 & key1 & H1)%elem_of_due_rows (id2 & key2 & H2)%elem_of_due_rows He Hk.
  pose proof (due_of_key _ _ _ H1) as (E1 & K1 & _). pose proof (due_of_key _ _ _ H2) as (E2 & K2 & _). congruence.
Qed.
Lemma due_rows_NoDup : NoDup (due_rows db).
Proof.
  assert (Hof : forall kv c, kv ∈ map_to_list (db_due db) -> c ∈ map snd (map_to_list kv.2) -> exists key, due_of db kv.1 !! key = Some c /\ kv.2 !! key = Some c).
  { intros [id m] c Hm Hc. apply elem_of_map_to_list in Hm. apply list_elem_of_In, in_map_iff in Hc as ([key x] & <- & Hx).
    apply list_elem_of_In, elem_of_map_to_list in Hx. exists key. unfold due_of. cbn [fst snd]. by rewrite Hm. }
  unfold due_rows. apply NoDup_bind; [| |apply NoDup_map_to_list].
  - intros kv1 kv2 c H1 H2 Hc1 Hc2. destruct (Hof _ _ H1 Hc1) as (k1 & E1 & _), (Hof _ _ H2 Hc2) as (k2 & E2 & _).
    apply due_of_key in E1 as (E1 & _), E2 as (E2 & _). destruct kv1 as [i1 m1], kv2 as [i2 m2]. cbn in *. subst.
    apply elem_of_map_to_list in H1, H2. congruence.
  - intros kv Hkv. apply (NoDup_fmap_2_strong snd); [|apply NoDup_map_to_list]. intros [k1 c1] [k2 c2] H1 H2 E. cbn in E. subst c2.
    destruct kv as [id m]. apply elem_of_map_to_list in H1, H2, Hkv. cbn [snd] in *.
    assert (G : forall k, m !! k = Some c1 -> k = candidate_key c1).
    { intros k Hk. assert (Hd : due_of db id !! k = Some c1) by (unfold due_of; by rewrite Hkv). by apply due_of_key in Hd as (_ & ? & _). }
    by rewrite (G _ H1), (G _ H2).
Qed.

(** ** A row passes its validation *)
Lemma candidate_fields e candidates c : executionCandidates e = Ok candidates -> c ∈ candidates -> due_Revision c = env_Revision e /\
  exists p, env_RuntimeProfile e = Some p /\ due_ProfileDigest c = discoveryProfileDigest p.
Proof.
  unfold executionCandidates. intros He Hc. destruct (env_Terminal e), (env_RuntimeProfile e) as [p|]; try (injection He as <-; by apply not_elem_of_nil in Hc).
  apply bind_Ok in He as (waits & _ & He). apply bind_Ok in He as (retries & _ & He). injection He as <-.
  apply elem_of_app in Hc as [Hc|Hc]; apply list_elem_of_In, in_map_iff in Hc as (x & <- & _); (split; [done|]); by exists p.
Qed.
Lemma loaded_revision id e : LoadExecution None (memory_of db) id = Ok e -> env_Revision e <> 0%N.
Proof.
  unfold LoadExecution. cbn [check mbind res_bind]. case_bool_decide; [done|]. intros Hd.
  apply decodeAnchored_Ok in Hd as (_ & _ & Hv & _). by apply integrity_digest in Hv as (_ & -> & _).
Qed.
Lemma validate_reads c e : c ∈ due_rows db -> LoadExecution None (memory_of db) (due_ExecutionID c) = Ok e -> reads (validateDueCandidate c) e.
Proof.
  intros Hc Hl. destruct (row_head c Hc) as (e' & cs & Hl' & Hcs & Hin). assert (e' = e) as -> by congruence.
  destruct (candidate_fields _ _ _ Hcs Hin) as (Hrev & p & Hp & Hdig). pose proof (loaded_revision _ _ Hl) as Hz.
  unfold validateDueCandidate. rewrite bool_decide_eq_false_2 by congruence. cbn [negb].
  eapply reads_bind; [apply reads_query; intros now; rewrite (selectHead_load _ _ Hdb); exact Hl|].
  apply reads_lift. unfold checkCandidate. rewrite Hrev, (bool_decide_eq_true_2 (env_Revision e = env_Revision e)) by done. cbn [negb].
  rewrite Hp, Hdig, (bool_decide_eq_true_2 (discoveryProfileDigest p = discoveryProfileDigest p)) by done. cbn [negb]. rewrite Hcs.
  replace (existsb _ cs) with true; [done|]. symmetry. apply existsb_exists. exists c. split; [by apply list_elem_of_In|].
  unfold TimeEqual. by rewrite !bool_decide_eq_true_2.
Qed.

(** ** A page *)
Lemma nothing_unready : existsb (fun kv => unready kv.2) (map_to_list (db_executions db)) = false.
Proof.
  apply not_true_iff_false. intros (kv & Hkv & Hu)%existsb_exists. destruct kv as [id row]. apply list_elem_of_In, elem_of_map_to_list in Hkv.
  unfold unready in Hu. rewrite !andb_true_iff, !negb_true_iff, N.ltb_lt in Hu. destruct Hu as [[Hr _] Hp].
  assert (Hflag : exists reason, flags db id = Some (true, reason)).
  { pose proof (Hix id) as Hi. unfold indexed in Hi. destruct (LoadExecution None (memory_of db) id) as [e|err] eqn:El.
    - destruct Hi as (cs & _ & _ & _ & Hf). rewrite (loaded_id _ _ _ El) in Hf. by eexists.
    - destruct Hi as [_ Hi]. apply Hi. cbn [snd] in Hr. rewrite (memory_head _ _ _ Hkv). lia. }
  destruct Hflag as [reason Hf]. unfold flags in Hf. rewrite Hkv in Hf. injection Hf as Hf _. cbn [snd] in Hp. congruence.
Qed.

Context {A : Type} (profile : WaitCapabilityProfile) (now : Time) (limit : Z) (kind : string).
Context (visit : ExecutionEnvelope -> dueCandidate -> res A).

(** The cursor after [c]; the rows of the cycle, in order. *)
Definition cursor_after (c : dueCandidate) : DiscoveryCursor :=
  mkCursor now (due_Deadline c) (due_ExecutionID c) (due_Identity c) (discoveryProfileDigest profile) kind.
Definition first_position : DiscoveryCursor := mkCursor now time_zero "" "" (discoveryProfileDigest profile) kind.
Definition cycle_rows : list dueCandidate := merge_sort candidate_le (List.filter (selected first_position) (due_rows db)).

Lemma elem_of_cycle_rows c : c ∈ cycle_rows <-> c ∈ due_rows db /\ due_ProfileDigest c = discoveryProfileDigest profile /\ due_Kind c = kind /\
  After (due_Deadline c) (Truncate now microsecond) = false.
Proof.
  unfold cycle_rows. rewrite merge_sort_Permutation, elem_of_bool_filter. unfold selected. cbn [cur_ProfileDigest cur_Kind cur_UpperDeadline first_position].
  rewrite !andb_true_iff, !bool_decide_eq_true, negb_true_iff. tauto.
Qed.
Lemma cycle_rows_same c1 c2 : c1 ∈ cycle_rows -> c2 ∈ cycle_rows -> due_ExecutionID c1 = due_ExecutionID c2 -> due_Identity c1 = due_Identity c2 -> c1 = c2.
Proof.
  intros (H1 & _ & K1 & _)%elem_of_cycle_rows (H2 & _ & K2 & _)%elem_of_cycle_rows He Hi. apply due_rows_key; [done..|].
  unfold candidate_key. congruence.
Qed.
Lemma cycle_rows_NoDup : NoDup cycle_rows.
Proof. unfold cycle_rows. rewrite merge_sort_Permutation. apply NoDup_bool_filter, due_rows_NoDup. Qed.
Lemma cycle_rows_sorted : StronglySorted candidate_le cycle_rows.
Proof. apply StronglySorted_merge_sort; apply _. Qed.

Context (Hnow : IsZero now = false) (Hlimit : (0 < limit <= maxWaitScanHeads)%Z).
Context (Hzero : forall c, c ∈ due_rows db -> IsZero (due_Deadline c) = false /\ due_Identity c <> "").
(** Where a cursor stands, and the rows that are left. *)
Inductive stands : DiscoveryCursor -> list dueCandidate -> Prop :=
| stands_first : stands empty_cursor cycle_rows
| stands_after before c rest : cycle_rows = before ++ c :: rest -> stands (cursor_after c) rest.
Definition position_of (cursor : DiscoveryCursor) : DiscoveryCursor := if cursor == empty_cursor then first_position else cursor.

Lemma before_limit : (Truncate now microsecond : Time) = Add now (- (time_ns now mod 1000)) /\ (0 <= time_ns now mod 1000 < 1000)%Z.
Proof. split; [done|]. apply Z.mod_pos_bound. lia. Qed.
Lemma cycle_row c : c ∈ cycle_rows -> IsZero (due_Deadline c) = false /\ due_Identity c <> "" /\ due_ExecutionID c <> "" /\ After (due_Deadline c) now = false.
Proof.
  intros (Hc & _ & _ & Ha)%elem_of_cycle_rows. destruct (Hzero c Hc) as [Hz Hi]. split; [done|]. split; [done|]. split.
  - destruct (row_head c Hc) as (e & _ & Hl & _). unfold LoadExecution in Hl. cbn [check mbind res_bind] in Hl. destruct (_ == 0%N) in Hl; [done|].
    apply decodeAnchored_Ok in Hl as (_ & _ & Hv & _). intros E. rewrite E in Hv. unfold ValidateExecutionIntegrity in Hv.
    rewrite (bool_decide_eq_true_2 ("" = "")) in Hv by done. done.
  - destruct before_limit as [E Hb]. rewrite E in Ha. unfold After, Add in *. cbn [time_ns] in *. apply Z.ltb_ge in Ha. apply Z.ltb_ge. lia.
Qed.

Lemma stands_position cursor rest : stands cursor rest ->
  discoveryPosition (Some profile) now cursor limit kind = Ok (position_of cursor).
Proof.
  intros Hs. unfold discoveryPosition, position_of. rewrite Hnow. replace (limit <=? 0)%Z with false by (symmetry; apply Z.leb_gt; lia).
  replace (maxWaitScanHeads <? limit)%Z with false by (symmetry; apply Z.ltb_ge; lia). cbn [orb].
  destruct Hs as [|before c rest E]; [by rewrite bool_decide_eq_true_2|].
  assert (Hc : c ∈ cycle_rows) by (rewrite E; set_solver). destruct (cycle_row c Hc) as (Hz & Hi & He & Ha).
  rewrite (bool_decide_eq_false_2 (cursor_after c = empty_cursor)) by (intros [=]; congruence). cbv zeta.
  cbn [cursor_after cur_UpperDeadline cur_AfterDeadline cur_AfterExecutionID cur_AfterIdentity cur_ProfileDigest cur_Kind].
  unfold TimeEqual. rewrite Hz, Ha, !(bool_decide_eq_true_2 (_ = _)), !bool_decide_eq_false_2 by done. done.
Qed.
Lemma stands_rows cursor rest : stands cursor rest -> dueSelection (position_of cursor) limit db = take (Z.to_nat (limit + 1)) rest.
Proof.
  intros Hs. unfold dueSelection. f_equal. unfold position_of. destruct Hs as [|before c rest E].
  - rewrite bool_decide_eq_true_2 by done. unfold cycle_rows. f_equal. apply List.filter_ext. intros x. by rewrite andb_true_r.
  - assert (Hc : c ∈ cycle_rows) by (rewrite E; set_solver). destruct (cycle_row c Hc) as (Hz & Hi & _).
    rewrite (bool_decide_eq_false_2 (cursor_after c = empty_cursor)) by (intros [=]; congruence).
    transitivity (List.filter (candidate_lt c) cycle_rows).
    + unfold cycle_rows. rewrite <- (merge_sort_filter candidate_le).
      * f_equal. rewrite bool_filter_filter. apply List.filter_ext. intros x. cbn [cursor_after cur_AfterDeadline]. rewrite Hz. done.
      * intros x y Hx Hy H1 H2. destruct (candidate_le_key _ _ H1 H2). apply cycle_rows_same; [unfold cycle_rows; by rewrite merge_sort_Permutation..|done|done].
    + pose proof cycle_rows_sorted as Hsort. pose proof cycle_rows_NoDup as Hnd. pose proof cycle_rows_same as Hsame. rewrite E in Hsort, Hnd, Hsame |- *.
      apply (filter_after candidate_le); [done|done|done| |].
      * intros x y Hx Hy Hle Hne. apply candidate_lt_le; [done|done|by apply Hsame].
      * apply candidate_le_iff. right. split; [done|]. right. split; [done|by right].
Qed.

Lemma read_rows cursor rest : stands cursor rest -> reads (readDueCandidates (position_of cursor) limit) (take (Z.to_nat (limit + 1)) rest).
Proof.
  intros Hs. unfold readDueCandidates. eapply reads_bind; [apply reads_query; intros t; by rewrite nothing_unready|]. cbn [negb].
  apply reads_query. intros t. by rewrite (stands_rows _ _ Hs).
Qed.

(** What a cycle makes of a row. *)
Definition found (c : dueCandidate) (a : A) : Prop := exists e, LoadExecution None (memory_of db) (due_ExecutionID c) = Ok e /\ visit e c = Ok a.
Lemma scan_reads position rows items : (forall c, c ∈ rows -> c ∈ cycle_rows) -> Forall2 found rows items ->
  reads (scanLoop error_text visit position rows) (fold_left advance rows position, items, []).
Proof.
  intros Hrows Hf. revert position Hrows. induction Hf as [|c a rows items (e & Hl & Hv) _ IH]; intros position Hrows; cbn [scanLoop fold_left]; [apply reads_ret|].
  assert (Hc : c ∈ cycle_rows) by (apply Hrows; by left). pose proof Hc as (Hin & _)%elem_of_cycle_rows.
  eapply reads_bind; [apply reads_attempt, (validate_reads c e Hin Hl)|]. eapply reads_bind; [by apply reads_lift|].
  eapply reads_bind; [apply IH; intros x Hx; apply Hrows; by right|]. cbn [mbind res_bind]. rewrite Hv. apply reads_ret.
Qed.

Lemma fold_advance position rows c : fold_left advance (rows ++ [c]) position = advance (fold_left advance rows position) c.
Proof. by rewrite fold_left_app. Qed.
Lemma advance_fields position rows : cur_UpperDeadline (fold_left advance rows position) = cur_UpperDeadline position /\
  cur_ProfileDigest (fold_left advance rows position) = cur_ProfileDigest position /\ cur_Kind (fold_left advance rows position) = cur_Kind position.
Proof. revert position. induction rows as [|c rows IH]; intros position; [done|]. cbn [fold_left]. by destruct (IH (advance position c)) as (-> & -> & ->). Qed.
Lemma position_fields cursor rest : stands cursor rest -> cur_UpperDeadline (position_of cursor) = now /\
  cur_ProfileDigest (position_of cursor) = discoveryProfileDigest profile /\ cur_Kind (position_of cursor) = kind.
Proof. unfold position_of. intros [|before c rest' E]; [by rewrite bool_decide_eq_true_2|]. by case_bool_decide. Qed.
(** A page that leaves rows ends at a cursor that stands before them. *)
Lemma stands_next cursor taken c left : stands cursor (taken ++ c :: left) ->
  stands (fold_left advance (taken ++ [c]) (position_of cursor)) left.
Proof.
  intros Hs. destruct (position_fields _ _ Hs) as (F1 & F2 & F3). destruct (advance_fields (position_of cursor) taken) as (G1 & G2 & G3).
  rewrite fold_advance. unfold advance at 1. rewrite G1, G2, G3, F1, F2, F3.
  inversion Hs as [E1 E2|before x rest E E1 E2]; subst.
  - by apply (stands_after taken).
  - apply (stands_after (before ++ x :: taken)). by rewrite E, <- app_assoc.
Qed.
Lemma stands_sub cursor rest c : stands cursor rest -> c ∈ rest -> c ∈ cycle_rows.
Proof. intros [|before x rest' E] Hc; [done|]. rewrite E. set_solver. Qed.

Lemma page_reads cursor rest items : stands cursor rest -> Forall2 found rest items ->
  let rows := take (Z.to_nat limit) rest in
  reads (scanDueCandidates error_text (Some profile) now cursor limit kind visit)
    (mkPage (take (Z.to_nat limit) items) (fold_left advance rows (position_of cursor)) (limit <? len rest)%Z []).
Proof.
  intros Hs Hf rows. unfold scanDueCandidates. eapply reads_bind; [by apply reads_lift, (stands_position _ rest)|].
  eapply reads_bind; [by apply read_rows|]. cbv zeta.
  assert (Hmore : (limit <? len (take (Z.to_nat (limit + 1)) rest))%Z = (limit <? len rest)%Z).
  { unfold len. rewrite length_take. destruct (Z.ltb_spec limit (Z.of_nat (length rest))); [apply Z.ltb_lt|apply Z.ltb_ge]; lia. }
  rewrite Hmore. assert (Hrows : (if (limit <? len rest)%Z then take (Z.to_nat limit) (take (Z.to_nat (limit + 1)) rest) else take (Z.to_nat (limit + 1)) rest) = rows).
  { unfold rows. unfold len. destruct (Z.ltb_spec limit (Z.of_nat (length rest))); [rewrite take_take; f_equal; lia|]. rewrite !take_ge by lia. done. }
  rewrite Hrows. eapply reads_bind; [apply scan_reads; [|by apply Forall2_take]|apply reads_ret]. intros c Hc. apply (stands_sub cursor rest); [done|].
  rewrite <- (take_drop (Z.to_nat limit) rest). apply elem_of_app. by left.
Qed.

(** The cycle returns every row once, and no diagnostics. *)
Lemma poll_reads fuel cursor rest items : stands cursor rest -> Forall2 found rest items -> (length rest < fuel)%nat ->
  reads (poll (fun cursor => scanDueCandidates error_text (Some profile) now cursor limit kind visit) fuel cursor) (Some (items, [])).
Proof.
  revert cursor rest items. induction fuel as [|fuel IH]; intros cursor rest items Hs Hf Hlen; [lia|]. cbn [poll].
  eapply reads_bind; [by apply (page_reads _ _ _ Hs Hf)|]. cbn [pag_More pag_Cursor pag_Items pag_Diagnostics]. unfold len.
  destruct (Z.ltb_spec limit (Z.of_nat (length rest))) as [Hm|Hm].
  - pose proof (take_drop (Z.to_nat limit) rest) as Hsplit.
    destruct (take (Z.to_nat limit) rest) as [|x l _] eqn:Et using rev_ind.
    { apply (f_equal length) in Et. rewrite length_take in Et. cbn in Et. lia. }
    assert (Hn : stands (fold_left advance (l ++ [x]) (position_of cursor)) (drop (Z.to_nat limit) rest)).
    { apply stands_next. by rewrite <- app_assoc in Hsplit; rewrite <- Hsplit in Hs. }
    eapply reads_bind; [apply (IH _ _ _ Hn (Forall2_drop _ _ _ _ Hf)); rewrite length_drop; lia|]. cbn. rewrite take_drop. apply reads_ret.
  - apply Forall2_length in Hf. rewrite (take_ge items) by lia. apply reads_ret.
Qed.

(** What the whole cycle returns, when every row has something to visit. *)
Lemma cycle_found (w : postgres_world) (Hvisit : forall c, c ∈ cycle_rows -> exists a, found c a)
  (Hinj : forall c1 c2 a, c1 ∈ cycle_rows -> c2 ∈ cycle_rows -> found c1 a -> found c2 a -> c1 = c2) : still w ->
  exists w' items, poll (fun cursor => scanDueCandidates error_text (Some profile) now cursor limit kind visit) (S (length (due_rows db))) empty_cursor w
      = (w', Ok (Some (items, []))) /\
    pw_db w' = db /\ NoDup items /\ forall a, a ∈ items <-> exists c, c ∈ cycle_rows /\ found c a.
Proof.
  intros Hw. assert (Hitems : exists items, Forall2 found cycle_rows items).
  { revert Hvisit. clear. induction cycle_rows as [|c l IH]; intros Hv; [by exists []|]. destruct (Hv c) as [a Ha]; [by left|].
    destruct IH as [items Hi]; [intros x Hx; apply Hv; by right|]. exists (a :: items). by constructor. }
  destruct Hitems as [items Hi].
  assert (Hlen : (length cycle_rows <= length (due_rows db))%nat).
  { unfold cycle_rows. rewrite merge_sort_Permutation. apply List.filter_length_le. }
  destruct (poll_reads (S (length (due_rows db))) empty_cursor cycle_rows items stands_first Hi ltac:(lia) w Hw) as (w' & [Hdb' _] & E).
  exists w', items. split; [exact E|]. split; [done|].
  assert (Hmem : forall a, a ∈ items <-> exists c, c ∈ cycle_rows /\ found c a).
  { intros a. split.
    - intros (i & Ha)%list_elem_of_lookup. destruct (Forall2_lookup_r _ _ _ _ _ Hi Ha) as (c & Hc & Hf). exists c. split; [by eapply list_elem_of_lookup_2|done].
    - intros (c & (i & Hc)%list_elem_of_lookup & e & Hl & Hv). destruct (Forall2_lookup_l _ _ _ _ _ Hi Hc) as (a' & Ha & e' & Hl' & Hv').
      assert (a' = a) as -> by congruence. by eapply list_elem_of_lookup_2. }
  split; [|done]. apply (NoDup_Forall2 found cycle_rows); [done|apply cycle_rows_NoDup|]. intros c1 c2 a H1 H2. by apply Hinj.
Qed.
End Poll.
