(* ===== verification/DiscoveryDue.v ===== *)
(** * Due waits and due retries

    What the polling cycle of DiscoveryPoll.v returns for the two kinds of rows: the waits
    that the heads of one profile hold armed past their deadline, and the retries they hold
    pending past theirs. *)

From stdpp Require Import relations.
From S2P Require Import Prelude Go Sha256 Json Identity Schedule Activity Waits Contract Children Wire Migration Integrity Aggregate Store StoreInv Session StoreWorld Postgres Discovery PostgresInv PostgresOps PostgresLifecycle DiscoveryInv PostgresWorld DiscoveryPoll.

(** ** Deadlines and profiles *)
Lemma discoveryDeadline_bounds deadline : (time_ns deadline <= time_ns (discoveryDeadline deadline) < time_ns deadline + 1000)%Z
  /\ (time_ns (discoveryDeadline deadline) mod 1000 = 0)%Z.
Proof.
  unfold discoveryDeadline, Truncate, Before, Add, microsecond. cbn [time_ns time_loc]. set (n := time_ns deadline).
  pose proof (Z.mod_pos_bound n 1000 ltac:(lia)) as Hb. pose proof (Z.div_mod n 1000 ltac:(lia)) as Hd.
  assert (Hm : forall k, ((1000 * k) mod 1000 = 0)%Z) by (intros k; rewrite Z.mul_comm; apply Z.mod_mul; lia).
  destruct (Z.ltb_spec (n + - (n mod 1000)) n); cbn [time_ns time_loc]; (split; [lia|]).
  - replace (n + - (n mod 1000) + 1000)%Z with (1000 * (n / 1000 + 1))%Z by lia. apply Hm.
  - replace (n + - (n mod 1000))%Z with (1000 * (n / 1000))%Z by lia. apply Hm.
Qed.
(** The precision of the server changes nothing of what is due. *)
Lemma due_exact deadline now : After (discoveryDeadline deadline) (Truncate now microsecond) = After (discoveryDeadline deadline) now.
Proof.
  destruct (discoveryDeadline_bounds deadline) as [_ Hm]. unfold After, Truncate, Add, microsecond. cbn [time_ns].
  set (d := time_ns (discoveryDeadline deadline)) in *. set (n := time_ns now).
  pose proof (Z.mod_pos_bound n 1000 ltac:(lia)). pose proof (Z.div_mod n 1000 ltac:(lia)). pose proof (Z.div_mod d 1000 ltac:(lia)).
  destruct (Z.ltb_spec (n + - (n mod 1000)) d), (Z.ltb_spec n d); try done; nia.
Qed.
(** A deadline has passed at the last microsecond of [now]: what PostgreSQL can tell, whose
    times have that precision. Then it has passed; and a deadline that passed a microsecond
    ago has passed at that. *)
Definition passed (deadline now : Time) : Prop := (time_ns deadline <= time_ns now / 1000 * 1000)%Z.
Lemma passed_sound deadline now : passed deadline now -> (time_ns deadline <= time_ns now)%Z.
Proof. unfold passed. pose proof (Z.mul_div_le (time_ns now) 1000 ltac:(lia)). lia. Qed.
Lemma passed_complete deadline now : (time_ns deadline + 999 <= time_ns now)%Z -> passed deadline now.
Proof.
  unfold passed. pose proof (Z.div_mod (time_ns now) 1000 ltac:(lia)). pose proof (Z.mod_pos_bound (time_ns now) 1000 ltac:(lia)). lia.
Qed.
Lemma passed_iff deadline now : After (discoveryDeadline deadline) now = false <-> passed deadline now.
Proof.
  destruct (discoveryDeadline_bounds deadline) as [Hb Hm]. unfold After, passed. rewrite Z.ltb_ge.
  pose proof (Z.div_mod (time_ns now) 1000 ltac:(lia)). pose proof (Z.mod_pos_bound (time_ns now) 1000 ltac:(lia)).
  pose proof (Z.div_mod (time_ns (discoveryDeadline deadline)) 1000 ltac:(lia)). lia.
Qed.
Lemma due_passed deadline now : After (discoveryDeadline deadline) now = false -> Before now deadline = false.
Proof. destruct (discoveryDeadline_bounds deadline) as [[Hb _] _]. unfold After, Before. rewrite !Z.ltb_ge. lia. Qed.

Lemma profile_digest p q : validateProfile p = None -> validateProfile q = None -> discoveryProfileDigest p = discoveryProfileDigest q ->
  p = q \/ collision (print (profile_json p)) (print (profile_json q)).
Proof.
  intros Hp Hq E. apply (sha256_hex_collision (print (profile_json p)) (print (profile_json q))) in E as [E|E]; [left|by right].
  assert (Ht : forall x, validateProfile x = None -> json_text (profile_json x) = true).
  { intros x Hx. unfold validateProfile in Hx. destruct (validRuntimeText _) eqn:Ev in Hx; [|rewrite ?orb_true_r in Hx; done].
    unfold validRuntimeText in Ev. cbn [forallb] in Ev. rewrite !andb_true_iff in Ev. destruct_and!.
    unfold profile_json. cbn [json_text fst snd forallb]. rewrite !andb_true_iff. by repeat split. }
  apply (print_inj (profile_json p) (profile_json q) (Ht p Hp) (Ht q Hq)) in E. unfold profile_json in E. destruct p, q. simplify_eq. done.
Qed.

#[local] Opaque sha256_hex discoveryProfileDigest.

(** ** The collections of a head *)
Section Heads.
Context `{HC : Codecs} `{HL : !LawfulCodecs}.

Lemma elem_of_sortedRange {V} (m : gmap string V) kv : kv ∈ sortedRange m <-> m !! kv.1 = Some kv.2.
Proof. unfold sortedRange. rewrite merge_sort_Permutation. unfold range. destruct kv. by rewrite elem_of_map_to_list. Qed.

(** A wait that a head holds armed. *)
Record held_wait (e : ExecutionEnvelope) (record : DurableWaitRecord) : Prop := mk_held_wait {
  hw_execution : wt_ExecutionID record = env_ExecutionID e;
  hw_profile : forall p, env_RuntimeProfile e = Some p -> wt_Profile record = p;
  hw_generation : wt_Generation record <> "";
}.
Lemma digest_nonempty m : sha256_hex m <> "".
Proof. intros E. pose proof (sha256_hex_digest m) as H. by rewrite E in H. Qed.

Lemma inspected_profile e records p : InspectExecutionWaits e = Ok records -> env_RuntimeProfile e = Some p -> validateProfile p = None.
Proof.
  unfold InspectExecutionWaits. intros Hi Hp. apply bind_Ok in Hi as (u & _ & Hi). apply bind_Ok in Hi as (waits & Hw & _).
  unfold validateExecutionCollectionsWithWaits in Hw. guard_in Hw; [done|]. rewrite Hp in Hw. guard_in Hw; [done|]. by apply negb_false_iff, is_nil_true in Hg0.
Qed.
Lemma inspected_waits e records : InspectExecutionWaits e = Ok records -> records <> [] ->
  no_bytes (env_WaitsPayload e) = false /\
  (forall r, r ∈ records -> held_wait e r /\ (wt_State r = WaitArmed -> env_Terminal e = None)) /\
  (forall r1 r2, r1 ∈ records -> r2 ∈ records -> wt_State r1 = WaitArmed -> wt_State r2 = WaitArmed -> r1 = r2).
Proof.
  unfold InspectExecutionWaits. intros Hi Hne. apply bind_Ok in Hi as (u & _ & Hi). apply bind_Ok in Hi as (waits & Hw & Hi). injection Hi as <-.
  unfold validateExecutionCollectionsWithWaits in Hw. guard_in Hw; [done|]. guard_in Hw; [done|].
  apply bind_Ok in Hw as (j & _ & Hw). apply bind_Ok in Hw as (g & _ & Hw). unfold executionWaits in Hw.
  guard_in Hw. { injection Hw as <-. destruct Hne. done. }
  destruct (unmarshal (env_WaitsPayload e)) as [[ws|]|]; [|done..]. guard_in Hw; [done|]. injection Hw as <-.
  apply orb_false_iff in Hg2 as [Hall Harm]. apply negb_false_iff in Hall.
  split; [done|].
  assert (Hin : forall r, r ∈ map snd (sortedRange ws) -> exists k, ws !! k = Some r).
  { intros r Hr. apply list_elem_of_In, in_map_iff in Hr as (kv & <- & Hkv). apply list_elem_of_In, elem_of_sortedRange in Hkv. by exists kv.1. }
  split.
  - intros r Hr. destruct (Hin r Hr) as [k Hk]. pose proof (map_all_lookup _ _ _ _ Hall Hk) as Hv. apply andb_true_iff in Hv as [Hv _].
    unfold validWaitEnvelopeAddress in Hv. rewrite !andb_true_iff, !bool_decide_eq_true, is_nil_true in Hv. destruct Hv as (((((Hp & _) & Hid) & _) & Hval) & Ht).
    split; [split|].
    + done.
    + intros p Ep. rewrite Ep in Hp. by apply bool_decide_eq_true in Hp.
    + unfold validateDurableWait in Hval. guard_in Hval; [done|]. rewrite !orb_false_iff, !negb_false_iff, bool_decide_eq_true in Hg2.
      destruct Hg2 as [_ ->]. apply digest_nonempty.
    + intros Ha. rewrite Ha in Ht. rewrite (bool_decide_eq_true_2 (WaitArmed = WaitArmed)) in Ht by done. cbn [negb orb] in Ht.
      rewrite !andb_true_iff, is_nil_true in Ht. tauto.
  - intros r1 r2 H1 H2 A1 A2. destruct (Hin r1 H1) as [k1 K1], (Hin r2 H2) as [k2 K2]. unfold armedWaits, len, range in Harm. apply Z.ltb_ge in Harm.
    assert (Hmem : forall k r, ws !! k = Some r -> wt_State r = WaitArmed -> r ∈ List.filter (fun record => wt_State record == WaitArmed) (map snd (map_to_list ws))).
    { intros k r Hk Ha. apply elem_of_bool_filter. split; [|by apply bool_decide_eq_true]. apply list_elem_of_In, in_map_iff. exists (k, r). split; [done|].
      by apply list_elem_of_In, elem_of_map_to_list. }
    pose proof (Hmem _ _ K1 A1) as M1. pose proof (Hmem _ _ K2 A2) as M2.
    destruct (List.filter _ _) as [|x [|y l]]; [by apply not_elem_of_nil in M1| |cbn in Harm; lia].
    apply list_elem_of_singleton in M1, M2. congruence.
Qed.

Lemma inspected_retries e retries : InspectPendingActivityRetries e = Ok retries -> 
  (forall r, r ∈ retries -> ptr_Identity r <> "" /\ tok_ThreadID (ptr_ResumeToken r) = env_ExecutionID e) /\
  (forall r1 r2, r1 ∈ retries -> r2 ∈ retries -> ptr_Identity r1 = ptr_Identity r2 -> r1 = r2) /\
  (retries <> [] -> env_Terminal e = None).
Proof.
  unfold InspectPendingActivityRetries. intros Hi. do 4 (apply bind_Ok in Hi as (? & _ & Hi)).
  destruct (env_Terminal e).
  { injection Hi as <-. split_and!; [by intros r ?%not_elem_of_nil|by intros r r' ?%not_elem_of_nil|done]. }
  apply bind_Ok in Hi as (journal & Hj & Hi). injection Hi as <-.
  assert (Hin : forall r, r ∈ omap (fun kv => pendingRetry e kv.1 kv.2) (sortedRange journal) ->
    exists k record, journal !! k = Some record /\ pendingRetry e k record = Some r).
  { intros r ([k record] & Hkv & Hp)%list_elem_of_omap. apply elem_of_sortedRange in Hkv. by exists k, record. }
  assert (Hid : forall k record r, pendingRetry e k record = Some r -> ptr_Identity r = k /\ tok_ThreadID (ptr_ResumeToken r) = env_ExecutionID e).
  { intros k record r. unfold pendingRetry. destruct (_ || _); [done|]. by intros [= <-]. }
  split_and!.
  - intros r Hr. destruct (Hin r Hr) as (k & record & Hk & Hp). destruct (Hid _ _ _ Hp) as [-> Ht]. split; [|done].
    unfold executionActivityJournal, decodeActivityJournal in Hj. apply bind_Ok in Hj as (j & Hj & Hj'). guard_in Hj'; [done|].
    assert (j = journal) as -> by (destruct (validateActivityReferences e j); [done|by injection Hj']).
    guard_in Hj; [injection Hj as <-; by rewrite lookup_empty in Hk|]. destruct (unmarshal _) as [[ws|]|]; [|done..]. guard_in Hj; [|done]. injection Hj as ->.
    pose proof (map_all_lookup _ _ _ _ Hg1 Hk) as Hv. rewrite andb_true_iff, bool_decide_eq_true, is_nil_true in Hv. destruct Hv as [-> Hv].
    unfold validateActivityRecord in Hv. guard_in Hv; [done|]. rewrite !orb_false_iff, !negb_false_iff in Hg2.
    destruct Hg2 as (((((Ha & _) & _) & _) & _) & _). unfold validActivityAddress in Ha. rewrite !andb_true_iff, bool_decide_eq_true in Ha.
    destruct Ha as [_ ->]. apply digest_nonempty.
  - intros r1 r2 H1 H2 E. destruct (Hin r1 H1) as (k1 & c1 & K1 & P1), (Hin r2 H2) as (k2 & c2 & K2 & P2).
    destruct (Hid _ _ _ P1) as [I1 _], (Hid _ _ _ P2) as [I2 _]. congruence.
  - done.
Qed.

(** ** Candidates of a head *)
Definition wait_candidate (e : ExecutionEnvelope) (p : WaitCapabilityProfile) (record : DurableWaitRecord) : dueCandidate :=
  mkDue (env_ExecutionID e) (env_Revision e) (wt_Generation record) (discoveryProfileDigest p) "wait" (discoveryDeadline (wsp_Deadline (wt_Spec record))).
Definition retry_candidate (e : ExecutionEnvelope) (p : WaitCapabilityProfile) (retry : PendingActivityRetry) : dueCandidate :=
  mkDue (env_ExecutionID e) (env_Revision e) (ptr_Identity retry) (discoveryProfileDigest p) "retry" (discoveryDeadline (ptr_Deadline retry)).

Lemma candidates_shape e candidates : executionCandidates e = Ok candidates -> candidates <> [] \/ (env_Terminal e = None /\ is_Some (env_RuntimeProfile e)) ->
  exists p waits retries, env_RuntimeProfile e = Some p /\ env_Terminal e = None /\
    InspectExecutionWaits e = Ok waits /\ InspectPendingActivityRetries e = Ok retries /\
    candidates = map (wait_candidate e p) (List.filter (fun wait => wt_State wait == WaitArmed) waits) ++ map (retry_candidate e p) retries.
Proof.
  unfold executionCandidates. intros He Hc.
  destruct (env_Terminal e), (env_RuntimeProfile e) as [p|]; try (injection He as <-; destruct Hc as [?|[? [? ?]]]; done).
  apply bind_Ok in He as (waits & Hw & He). apply bind_Ok in He as (retries & Hr & He). injection He as <-. by exists p, waits, retries.
Qed.
Lemma elem_of_map {A B} (f : A -> B) l y : y ∈ map f l <-> exists x, y = f x /\ x ∈ l.
Proof. rewrite list_elem_of_In, in_map_iff. split; intros (x & H1 & H2); exists x; (split; [done|]); by apply list_elem_of_In. Qed.
Lemma candidate_inv e candidates c : executionCandidates e = Ok candidates -> c ∈ candidates -> exists p, env_RuntimeProfile e = Some p /\
  validateProfile p = None /\
  ((exists waits r, InspectExecutionWaits e = Ok waits /\ r ∈ waits /\ wt_State r = WaitArmed /\ c = wait_candidate e p r) \/
   (exists retries r, InspectPendingActivityRetries e = Ok retries /\ r ∈ retries /\ c = retry_candidate e p r)).
Proof.
  intros He Hc. destruct (candidates_shape e candidates He) as (p & waits & retries & Hp & _ & Hw & Hr & ->); [left; by intros ->; apply not_elem_of_nil in Hc|].
  exists p. split; [done|]. split; [by apply (inspected_profile e waits)|]. apply elem_of_app in Hc as [(r & -> & Hin)%elem_of_map|(r & -> & Hin)%elem_of_map].
  - left. apply elem_of_bool_filter in Hin as [Hin Ha]. apply bool_decide_eq_true in Ha. by exists waits, r.
  - right. by exists retries, r.
Qed.
Lemma not_nil {A} (x : A) l : x ∈ l -> l <> [].
Proof. intros Hx ->. by apply not_elem_of_nil in Hx. Qed.
Lemma candidate_identity e candidates c : executionCandidates e = Ok candidates -> c ∈ candidates -> due_Identity c <> "".
Proof.
  intros He Hc. destruct (candidate_inv e candidates c He Hc) as (p & _ & _ & [(waits & r & Hw & Hr & _ & ->)|(retries & r & Hr & Hin & ->)]).
  - destruct (inspected_waits e waits Hw (not_nil _ _ Hr)) as (_ & Hheld & _). exact (hw_generation _ _ (proj1 (Hheld r Hr))).
  - exact (proj1 (proj1 (inspected_retries e retries Hr) r Hin)).
Qed.
End Heads.

(** ** Waits *)
Section Due.
Context `{HC : Codecs} `{HL : !LawfulCodecs} `{HJ : JsonColumns} `{HLC : !LawfulColumns} `{HCol : Collation} `{HLCol : !LawfulCollation}.
Context (db : Database) (profile : WaitCapabilityProfile) (now : Time).

(** What the heads hold due: the armed waits and the pending retries of the executions that run
    under the profile, whose stored deadline has passed. *)
Definition due_wait (wait : DueWait) : Prop :=
  exists id e records, LoadExecution None (memory_of db) id = Ok e /\ env_RuntimeProfile e = Some profile /\
    InspectExecutionWaits e = Ok records /\ dwt_Wait wait ∈ records /\ wt_State (dwt_Wait wait) = WaitArmed /\
    dwt_Revision wait = env_Revision e /\ passed (wsp_Deadline (wt_Spec (dwt_Wait wait))) now.
Definition due_retry (retry : PendingActivityRetry) : Prop :=
  exists id e retries, LoadExecution None (memory_of db) id = Ok e /\ env_RuntimeProfile e = Some profile /\
    InspectPendingActivityRetries e = Ok retries /\ retry ∈ retries /\ passed (ptr_Deadline retry) now.

Context (Hdb : db_ok db) (Hix : index_ok db).
#[local] Notation rows kind := (cycle_rows db profile now kind).

Lemma wait_row c : c ∈ rows "wait" -> exists e p waits r, LoadExecution None (memory_of db) (due_ExecutionID c) = Ok e /\
  env_RuntimeProfile e = Some p /\ discoveryProfileDigest p = discoveryProfileDigest profile /\ InspectExecutionWaits e = Ok waits /\
  r ∈ waits /\ wt_State r = WaitArmed /\ c = wait_candidate e p r /\ After (discoveryDeadline (wsp_Deadline (wt_Spec r))) now = false.
Proof.
  intros (Hc & Hd & Hk & Ha)%elem_of_cycle_rows. destruct (row_head db Hix c Hc) as (e & cs & Hl & Hcs & Hin).
  destruct (candidate_inv e cs c Hcs Hin) as (p & Hp & _ & [(waits & r & Hw & Hr & Hs & ->)|(retries & r & _ & _ & ->)]); [|discriminate Hk].
  cbn [wait_candidate due_ProfileDigest due_Deadline] in Hd, Ha. rewrite due_exact in Ha. exists e, p, waits, r. exact (conj Hl (conj Hp (conj Hd (conj Hw (conj Hr (conj Hs (conj eq_refl Ha))))))).
Qed.
Lemma retry_row c : c ∈ rows "retry" -> exists e p retries r, LoadExecution None (memory_of db) (due_ExecutionID c) = Ok e /\
  env_RuntimeProfile e = Some p /\ discoveryProfileDigest p = discoveryProfileDigest profile /\ InspectPendingActivityRetries e = Ok retries /\
  r ∈ retries /\ c = retry_candidate e p r /\ After (discoveryDeadline (ptr_Deadline r)) now = false /\ validateProfile p = None.
Proof.
  intros (Hc & Hd & Hk & Ha)%elem_of_cycle_rows. destruct (row_head db Hix c Hc) as (e & cs & Hl & Hcs & Hin).
  destruct (candidate_inv e cs c Hcs Hin) as (p & Hp & Hv & [(waits & r & _ & _ & _ & ->)|(retries & r & Hw & Hr & ->)]); [discriminate Hk|].
  cbn [retry_candidate due_ProfileDigest due_Deadline] in Hd, Ha. rewrite due_exact in Ha. exists e, p, retries, r. exact (conj Hl (conj Hp (conj Hd (conj Hw (conj Hr (conj eq_refl (conj Ha Hv))))))).
Qed.

(** A row found for a candidate of a head. *)
Lemma candidate_row id e p c : LoadExecution None (memory_of db) id = Ok e -> env_RuntimeProfile e = Some p ->
  discoveryProfileDigest p = discoveryProfileDigest profile -> env_Terminal e = None ->
  (exists waits r, InspectExecutionWaits e = Ok waits /\ r ∈ waits /\ wt_State r = WaitArmed /\ c = wait_candidate e p r) \/
  (exists retries r, InspectPendingActivityRetries e = Ok retries /\ r ∈ retries /\ c = retry_candidate e p r) ->
  After (due_Deadline c) now = false -> (exists deadline, due_Deadline c = discoveryDeadline deadline) -> c ∈ rows (due_Kind c).
Proof.
  intros Hl Hp Hdig Hterm Hcase Ha [deadline Hdl]. pose proof (Hix id) as Hi. unfold indexed in Hi. rewrite Hl in Hi. destruct Hi as (cs & Hcs & _).
  destruct (candidates_shape e cs Hcs) as (p' & waits & retries & Hp' & _ & Hw & Hr & Ecs); [right; split; [done|by eexists]|].
  assert (p' = p) as -> by congruence. apply elem_of_cycle_rows. split; [|split; [|split; [done|]]].
  - apply (head_row db Hix e id cs c Hl Hcs). rewrite Ecs. apply elem_of_app. destruct Hcase as [(ws & r & Hws & Hin & Hs & ->)|(rs & r & Hrs & Hin & ->)].
    + left. apply elem_of_map. exists r. split; [done|]. apply elem_of_bool_filter. split; [congruence|by apply bool_decide_eq_true].
    + right. apply elem_of_map. exists r. split; [done|congruence].
  - by destruct Hcase as [(ws & r & _ & _ & _ & ->)|(rs & r & _ & _ & ->)].
  - rewrite Hdl in *. by rewrite due_exact.
Qed.

Lemma row_identity c : c ∈ due_rows db -> due_Identity c <> "".
Proof. intros Hc. destruct (row_head db Hix c Hc) as (e & cs & _ & Hcs & Hin). by eapply candidate_identity. Qed.

Lemma find_unique {B} (p : B -> bool) (l : list B) x : x ∈ l -> p x = true -> (forall y, y ∈ l -> p y = true -> y = x) -> List.find p l = Some x.
Proof.
  intros Hx Hp Hu. destruct (List.find p l) as [y|] eqn:E.
  - apply List.find_some in E as [Hy Hpy]. f_equal. apply Hu; [by apply list_elem_of_In|done].
  - apply list_elem_of_In in Hx. pose proof (List.find_none _ _ E x Hx). congruence.
Qed.
Lemma visit_wait e waits r : env_RuntimeProfile e = Some profile -> InspectExecutionWaits e = Ok waits -> r ∈ waits -> wt_State r = WaitArmed ->
  After (discoveryDeadline (wsp_Deadline (wt_Spec r))) now = false ->
  visitWait (Some profile) now e (wait_candidate e profile r) = Ok (mkDueWait r (env_Revision e)).
Proof.
  intros Hp Hw Hr Hs Ha. destruct (inspected_waits e waits Hw (not_nil _ _ Hr)) as (Hb & Hheld & Huniq).
  unfold visitWait, dueWaitCandidates. rewrite Hb, Hw. cbn [mbind res_bind].
  erewrite (find_unique _ _ (mkDueWait r (env_Revision e))); [done| |by apply bool_decide_eq_true|].
  - apply elem_of_map. exists r. split; [done|]. apply elem_of_bool_filter. split; [done|].
    rewrite (hw_profile _ _ (proj1 (Hheld r Hr)) _ Hp), Hs, (due_passed _ _ Ha). by rewrite !bool_decide_eq_true_2.
  - intros y (x & -> & Hx)%elem_of_map _. apply elem_of_bool_filter in Hx as [Hx Hc]. rewrite !andb_true_iff, !bool_decide_eq_true in Hc.
    f_equal. apply Huniq; tauto.
Qed.
Lemma visit_retry e p retries r : InspectPendingActivityRetries e = Ok retries -> r ∈ retries ->
  After (discoveryDeadline (ptr_Deadline r)) now = false -> visitRetry now e (retry_candidate e p r) = Ok r.
Proof.
  intros Hr Hin Ha. destruct (inspected_retries e retries Hr) as (_ & Huniq & _). unfold visitRetry. rewrite Hr. cbn [mbind res_bind].
  erewrite (find_unique _ _ r); [done|done| |].
  - cbn [due_Identity retry_candidate]. rewrite (due_passed _ _ Ha). by rewrite bool_decide_eq_true_2.
  - intros y Hy Hc. cbn [due_Identity retry_candidate] in Hc. rewrite andb_true_iff, bool_decide_eq_true in Hc. apply Huniq; tauto.
Qed.

Lemma all_or {B} (P : B -> Prop) (Q : Prop) (l : list B) : (forall x, x ∈ l -> P x \/ Q) -> (forall x, x ∈ l -> P x) \/ Q.
Proof.
  induction l as [|x l IH]; intros H; [left; by intros x ?%not_elem_of_nil|]. destruct (H x) as [Hx|?]; [by left| |by right].
  destruct IH as [Hl|?]; [intros y Hy; apply H; by right| |by right]. left. intros y [->|Hy]%elem_of_cons; [done|by apply Hl].
Qed.

(** The rows of waits are of this profile, unless two profiles have one digest. *)
Lemma wait_rows_profile : validateProfile profile = None ->
  (forall c, c ∈ rows "wait" -> forall e, LoadExecution None (memory_of db) (due_ExecutionID c) = Ok e -> env_RuntimeProfile e = Some profile)
  \/ exists q, collision (print (profile_json profile)) (print (profile_json q)).
Proof.
  intros Hv. apply all_or. intros c Hc. destruct (wait_row c Hc) as (e & p & waits & r & Hl & Hp & Hd & Hw & _).
  destruct (profile_digest profile p Hv (inspected_profile e waits p Hw Hp)) as [<-|?]; [done| |by right; exists p].
  left. intros e' Hl'. congruence.
Qed.

Lemma retry_rows_profile : validateProfile profile = None ->
  (forall c, c ∈ rows "retry" -> forall e, LoadExecution None (memory_of db) (due_ExecutionID c) = Ok e -> env_RuntimeProfile e = Some profile)
  \/ exists q, collision (print (profile_json profile)) (print (profile_json q)).
Proof.
  intros Hv. apply all_or. intros c Hc. destruct (retry_row c Hc) as (e & p & retries & r & Hl & Hp & Hd & _ & _ & _ & _ & Hvp).
  destruct (profile_digest profile p Hv Hvp) as [<-|?]; [done| |by right; exists p]. left. intros e' Hl'. congruence.
Qed.

Context (Hzero : forall c, c ∈ due_rows db -> IsZero (due_Deadline c) = false) (Hnow : IsZero now = false).
Context (error_text : error -> string) (limit : Z) (Hlimit : (0 < limit <= maxWaitScanHeads)%Z).
Context (w : postgres_world) (Hw : still db w).
#[local] Notation cycle discover := (poll discover (S (length (due_rows db))) empty_cursor w).

Lemma rows_usable c : c ∈ due_rows db -> IsZero (due_Deadline c) = false /\ due_Identity c <> "".
Proof. intros Hc. split; [by apply Hzero|by apply row_identity]. Qed.

Lemma waits_found : (forall c, c ∈ rows "wait" -> forall e, LoadExecution None (memory_of db) (due_ExecutionID c) = Ok e -> env_RuntimeProfile e = Some profile) ->
  exists w' waits, cycle (fun cursor => DiscoverDueWaits error_text (Some profile) now cursor limit) = (w', Ok (Some (waits, []))) /\ pw_db w' = db /\
    NoDup waits /\ forall wait, wait ∈ waits <-> due_wait wait.
Proof.
  intros Hprof. assert (Hrow : forall c, c ∈ rows "wait" -> exists e waits r, LoadExecution None (memory_of db) (due_ExecutionID c) = Ok e /\
    env_RuntimeProfile e = Some profile /\ InspectExecutionWaits e = Ok waits /\ r ∈ waits /\ wt_State r = WaitArmed /\ c = wait_candidate e profile r /\
    After (discoveryDeadline (wsp_Deadline (wt_Spec r))) now = false /\ found db (visitWait (Some profile) now) c (mkDueWait r (env_Revision e))).
  { intros c Hc. destruct (wait_row c Hc) as (e & p & waits & r & Hl & Hp & _ & Hi & Hr & Hs & -> & Ha). pose proof (Hprof _ Hc e Hl) as Hp'.
    assert (p = profile) as -> by congruence. exists e, waits, r. split_and!; try done. exists e. split; [done|]. by eapply visit_wait. }
  destruct (cycle_found error_text db Hdb Hix profile now limit "wait" (visitWait (Some profile) now) Hnow Hlimit rows_usable w) as (w' & waits & E & Hdb' & Hnd & Hmem).
  - intros c Hc. destruct (Hrow c Hc) as (e & ws & r & _ & _ & _ & _ & _ & _ & _ & Hf). by eexists.
  - intros c1 c2 a H1 H2 (e1 & L1 & V1) (e2 & L2 & V2).
    destruct (Hrow c1 H1) as (x1 & ws1 & r1 & M1 & _ & I1 & R1 & _ & E1 & _ & y1 & N1 & W1), (Hrow c2 H2) as (x2 & ws2 & r2 & M2 & _ & I2 & R2 & _ & E2 & _ & y2 & N2 & W2).
    assert (Er : r1 = r2 /\ env_Revision x1 = env_Revision x2) by (assert (e1 = y1) as -> by congruence; assert (e2 = y2) as -> by congruence; rewrite V1 in W1; rewrite V2 in W2; simplify_eq; done).
    destruct Er as [<- _]. apply (cycle_rows_same db Hix profile now "wait"); [done|done| |by subst].
    pose proof (hw_execution _ _ (proj1 (proj1 (proj2 (inspected_waits x1 ws1 I1 (not_nil _ _ R1))) r1 R1))).
    pose proof (hw_execution _ _ (proj1 (proj1 (proj2 (inspected_waits x2 ws2 I2 (not_nil _ _ R2))) r1 R2))). subst c1 c2. cbn. congruence.
  - done.
  - exists w', waits. split; [exact E|]. split; [done|]. split; [done|]. intros wait. rewrite Hmem. split.
    + intros (c & Hc & e & Hl & Hv). destruct (Hrow c Hc) as (x & ws & r & M & P & I & R & S & Ec & A & y & N & W).
      assert (x = e) as -> by congruence. assert (y = e) as -> by congruence. rewrite Hv in W. injection W as ->.
      apply passed_iff in A. exists (due_ExecutionID c), e, ws. exact (conj Hl (conj P (conj I (conj R (conj S (conj eq_refl A)))))).
    + intros (id & e & ws & Hl & Hp & Hi & Hin & Hs & Hrev & Ha%passed_iff). destruct (inspected_waits e ws Hi (not_nil _ _ Hin)) as (_ & Hheld & _).
      pose proof (loaded_id _ _ _ Hl) as Hid. exists (wait_candidate e profile (dwt_Wait wait)). split.
      * apply (candidate_row id e profile); [done..|exact (proj2 (Hheld _ Hin) Hs)|left; by eexists ws, _|done|by eexists].
      * exists e. cbn [due_ExecutionID wait_candidate]. rewrite Hid. split; [done|]. rewrite (visit_wait e ws (dwt_Wait wait)) by done.
        rewrite <- Hrev. by destruct wait.
Qed.

Lemma retries_found : (forall c, c ∈ rows "retry" -> forall e, LoadExecution None (memory_of db) (due_ExecutionID c) = Ok e -> env_RuntimeProfile e = Some profile) ->
  exists w' retries, cycle (fun cursor => DiscoverDueActivityRetries error_text (Some profile) now cursor limit) = (w', Ok (Some (retries, []))) /\
    pw_db w' = db /\ NoDup retries /\ forall retry, retry ∈ retries <-> due_retry retry.
Proof.
  intros Hprof.
  assert (Hrow : forall c, c ∈ rows "retry" -> exists e p rs r, LoadExecution None (memory_of db) (due_ExecutionID c) = Ok e /\
    env_RuntimeProfile e = Some p /\ discoveryProfileDigest p = discoveryProfileDigest profile /\ InspectPendingActivityRetries e = Ok rs /\ r ∈ rs /\
    c = retry_candidate e p r /\ After (discoveryDeadline (ptr_Deadline r)) now = false /\ found db (visitRetry now) c r).
  { intros c Hc. destruct (retry_row c Hc) as (e & p & rs & r & Hl & Hp & Hd & Hi & Hr & -> & Ha & _).
    exists e, p, rs, r. assert (Hf : found db (visitRetry now) (retry_candidate e p r) r) by (exists e; split; [exact Hl|by apply (visit_retry e p rs)]).
    exact (conj Hl (conj Hp (conj Hd (conj Hi (conj Hr (conj eq_refl (conj Ha Hf))))))). }
  destruct (cycle_found error_text db Hdb Hix profile now limit "retry" (visitRetry now) Hnow Hlimit rows_usable w) as (w' & retries & E & Hdb' & Hnd & Hmem).
  - intros c Hc. destruct (Hrow c Hc) as (e & p & rs & r & _ & _ & _ & _ & _ & _ & _ & Hf). by eexists.
  - intros c1 c2 a H1 H2 (e1 & L1 & V1) (e2 & L2 & V2).
    destruct (Hrow c1 H1) as (x1 & p1 & rs1 & r1 & M1 & _ & _ & I1 & R1 & E1 & _ & y1 & N1 & W1), (Hrow c2 H2) as (x2 & p2 & rs2 & r2 & M2 & _ & _ & I2 & R2 & E2 & _ & y2 & N2 & W2).
    assert (Er : r1 = r2) by (assert (e1 = y1) as -> by congruence; assert (e2 = y2) as -> by congruence; congruence). subst r2.
    apply (cycle_rows_same db Hix profile now "retry"); [done|done| |by subst].
    pose proof (proj2 (proj1 (inspected_retries x1 rs1 I1) r1 R1)). pose proof (proj2 (proj1 (inspected_retries x2 rs2 I2) r1 R2)). subst c1 c2. cbn. congruence.
  - done.
  - exists w', retries. split; [exact E|]. split; [done|]. split; [done|]. intros retry. rewrite Hmem. split.
    + intros (c & Hc & e & Hl & Hv). destruct (Hrow c Hc) as (x & p & rs & r & M & P & D & I & R & Ec & A & y & N & W).
      assert (x = e) as -> by congruence. assert (y = e) as -> by congruence. rewrite Hv in W. injection W as ->.
      apply passed_iff in A. exists (due_ExecutionID c), e, rs. exact (conj Hl (conj (Hprof c Hc e Hl) (conj I (conj R A)))).
    + intros (id & e & rs & Hl & Hp & Hi & Hin & Ha%passed_iff). pose proof (loaded_id _ _ _ Hl) as Hid. exists (retry_candidate e profile retry). split.
      * apply (candidate_row id e profile (retry_candidate e profile retry) Hl Hp eq_refl); [exact (proj2 (proj2 (inspected_retries e rs Hi)) (not_nil _ _ Hin))|right; exists rs, retry; exact (conj Hi (conj Hin eq_refl))|exact Ha|by eexists].
      * exists e. cbn [due_ExecutionID retry_candidate]. rewrite Hid. split; [done|]. by apply (visit_retry e profile rs).
Qed.
End Due.

(** C9: polling finds the due work. In a reachable state of the PostgreSQL tables that stands
    still for the length of the cycle, where every statement succeeds and no deadline is
    indexed at the zero time, the pages of one cycle, whatever the page size, end; together
    they return, without diagnostics and each once, exactly the pending retries that the heads
    of the profile hold and whose deadline has passed, and exactly the armed waits they hold
    whose deadline has passed; unless two profiles with one SHA-256 digest are exhibited. A
    deadline has passed when it lies no later than the microsecond of the polling time, the
    precision at which PostgreSQL keeps times: nothing is reported early, and nothing that is
    overdue by a microsecond is missed. *)
Theorem due_work_found `{HC : Codecs} `{HL : !LawfulCodecs} `{HJ : JsonColumns} `{HLC : !LawfulColumns} `{HCol : Collation} `{HLCol : !LawfulCollation}
  (error_text : error -> string) (w : postgres_world) (profile : WaitCapabilityProfile) (now : Time) (limit : Z)
  (Hw : postgres_reachable w) (Hfaults : forall n, pw_fault w n = None) (Hprofile : validateProfile profile = None)
  (Hnow : IsZero now = false) (Hlimit : (0 < limit <= maxWaitScanHeads)%Z)
  (Hzero : forall c, c ∈ due_rows (pw_db w) -> IsZero (due_Deadline c) = false) :
  let fuel := S (length (due_rows (pw_db w))) in
  ((exists w' retries,
      poll (fun cursor => DiscoverDueActivityRetries error_text (Some profile) now cursor limit) fuel empty_cursor w = (w', Ok (Some (retries, []))) /\
      pw_db w' = pw_db w /\ NoDup retries /\ forall retry, retry ∈ retries <-> due_retry (pw_db w) profile now retry) /\
   (exists w' waits,
      poll (fun cursor => DiscoverDueWaits error_text (Some profile) now cursor limit) fuel empty_cursor w = (w', Ok (Some (waits, []))) /\
      pw_db w' = pw_db w /\ NoDup waits /\ forall wait, wait ∈ waits <-> due_wait (pw_db w) profile now wait)) \/
  exists q, collision (print (profile_json profile)) (print (profile_json q)).
Proof.
  destruct (reachable_tables w Hw) as (Hdb & Hix & _). assert (Hs : still (pw_db w) w) by done. cbv zeta.
  destruct (retry_rows_profile (pw_db w) profile now Hix Hprofile) as [Hr|?]; [|by right].
  destruct (wait_rows_profile (pw_db w) profile now Hix Hprofile) as [Hp|?]; [left|by right].
  split; [by apply retries_found|by apply waits_found].
Qed.
