(* ===== verification/PostgresExample.v ===== *)
(** * A closed run over PostgreSQL

    The refinement of PostgresWorld.v on concrete tables: execution "x" is acquired and
    committed once, over a server whose [jsonb] keeps the text it is given. *)

From stdpp Require Import relations.
From S2P Require Import Prelude Go Sha256 Json Identity Schedule Activity Waits Contract Children Wire Migration Integrity Aggregate WireRecords Store StoreInv StoreExample Session StoreWorld Postgres PostgresInv PostgresOps PostgresLifecycle PostgresWorld.

#[local] Opaque sha256_hex.

(** A server that keeps the text. *)
Definition fork_text (p : string) : option string :=
  match unmarshal (A := ExecutionEnvelope) p with
  | Some (Some e) => env_Fork e ≫= marshal
  | _ => None
  end.
#[export] Instance text_columns : JsonColumns := {|
  to_jsonb s := if String.eqb s "" then None else Some s;
  jsonb_fork := fork_text;
  codec_lineage := wire_codec;
  codec_receipt := wire_codec;
|}.
#[export] Instance text_columns_lawful : LawfulColumns.
Proof.
  constructor.
  - intros s p. cbn. destruct (String.eqb_spec s ""); [done|by intros [= <-]].
  - intros s p. cbn. destruct (String.eqb_spec s ""); [done|by intros [= <-]].
  - intros s p. cbn. destruct (String.eqb_spec s ""); [done|by intros [= <-]].
  - intros p e He. cbn [jsonb_fork text_columns]. unfold fork_text. rewrite He. destruct (env_Fork e) as [f|]; [|done].
    change (Some f ≫= marshal) with (marshal f). destruct (marshal f) as [q|] eqn:Hq; [|done]. split.
    + injection Hq as <-. done.
    + by apply (@unmarshal_marshal _ _ wire_roundtrip f q I).
  - apply wire_roundtrip.
Defined.

Definition server_world : postgres_world :=
  mkPostgres empty_database 0 (fun n => at_second 0) (fun _ => None) (fun _ => CommitMade) (fun _ => None) (fun _ => at_second 0) (fun _ => None) (fun _ => None).
Definition acquired_world : postgres_world := (pgAcquireExecution "x" "o" 10000000000 server_world).1.
Definition committed_world : postgres_world := (pgCommitExecution 0 owner_lease envelope_example acquired_world).1.

Lemma server_commits : (pgCommitExecution 0 owner_lease envelope_example acquired_world).2 = Ok sealed_example.
Proof. vm_compute. reflexivity. Qed.

Lemma representable_commit : seals_representable 0 envelope_example.
Proof. intros e _. exact I. Qed.
Lemma committed_world_reachable : postgres_reachable committed_world.
Proof.
  exact (ex_intro _ server_world (conj eq_refl
    (rtc_l _ _ _ _ (pstep_acquire server_world "x" "o" 10000000000)
      (rtc_once _ _ (pstep_commit acquired_world 0 owner_lease envelope_example representable_commit))))).
Qed.

(** The tables after the commit stand for a reachable reference store and load as it does;
    a second client is refused there as it is in the reference store, or has no effect. *)
Lemma postgres_refines_reference_witness :
  (pgCommitExecution 0 owner_lease envelope_example acquired_world).2 = Ok sealed_example /\
  store_reachable (memory_of (pw_db committed_world)) /\
  (pgLoadExecution "x" committed_world).2 = LoadExecution None (memory_of (pw_db committed_world)) "x" /\
  simulates (pgAcquireExecution "x" "p" 10000000000) committed_world (acquire_op "x" "p" 10000000000).
Proof.
  split; [apply server_commits|].
  destruct (postgres_refines_reference committed_world committed_world_reachable) as (Hr & Hl & _ & _ & Ha & _).
  split; [exact Hr|]. split; [by apply Hl|apply Ha].
Defined.
