(* ===== verification/ActivityExample.v ===== *)
(** * A closed session

    The theorems of ActivityCallInv.v on the store of StoreExample.v: a session over
    execution "x" at revision one, in which a node calls activity "k". *)

From stdpp Require Import relations.
From S2P Require Import Prelude Go Sha256 Json Identity Schedule Activity ActivityInv Waits Contract Children Wire Migration Integrity Aggregate WireRecords Store StoreInv StoreExample Session ActivityCall ActivityCallInv StoreWorld.

#[local] Opaque sha256_hex.
#[local] Arguments validRuntimeText : simpl never.

Definition world_of (s : MemoryExecutionStore) : memory_world :=
  mkMemoryWorld s 0 (fun _ => at_second 2) (fun _ => None) (fun _ => Some 0%N) (fun _ => false).
#[export] Instance wire_contract : StoreContract memory_world := memory_contract (fun _ => I).
Definition session_of (s : MemoryExecutionStore) (e : ExecutionEnvelope) : executionCheckpointer memory_world :=
  mkCheckpointer (world_of s) owner_lease e (env_Revision e) false [].
Definition session_example : executionCheckpointer memory_world := session_of store_committed sealed_example.

Lemma store_committed_loads : LoadExecution None store_committed "x" = Ok sealed_example.
Proof.
  apply (commit_loads (at_second 1) store_acquired 0 owner_lease envelope_example).
  - apply reachable_ok, store_acquired_reachable.
  - apply commit_Ok; [intros e _; exact I|apply store_committed_ok].
Qed.

Lemma session_example_synced : synced session_example.
Proof.
  split.
  - apply store_committed_reachable.
  - cbn [store_head memory_execution_store]. change (mw_store (ckp_world session_example)) with store_committed.
    change (env_ExecutionID (ckp_envelope session_example)) with "x". by rewrite store_committed_loads.
Qed.

Lemma memory_store_keeps_contract_witness :
  exists contract : @StoreContract wire_codecs (gated memory_world) (gated_store (fun _ _ => true)),
    @store_inv wire_codecs _ (gated_store (fun _ _ => true)) contract (mkGated (world_of store_committed)).
Proof.
  destruct (memory_store_keeps_contract (HC := wire_codecs) (HL := wire_lawful)) as [_ Hg].
  destruct (Hg (fun _ _ => true)) as (contract & Hc); [intros revision e _ e' _; exact I|]. exists contract. apply Hc, store_committed_reachable.
Defined.

Definition answer (payload : string) (invocation : ActivityInvocation) : act memory_world string := ret payload.
Definition request_example (payload : string) : ActivityRequest memory_world :=
  mkActivityRequest "k" "v1" "input" (answer payload) None noRetry None.
Definition text_of (e : error) : string := "failed".

(** A dispatcher that misbehaves before the first commit of the call is never seen to. *)
Definition early (invocation : ActivityInvocation) : act memory_world string := fun c =>
  if (env_Revision (ckp_envelope c) <=? 1)%N then (c, Err ErrActivityConflict) else (c, Ok "done").
Lemma dispatch_write_ahead_witness :
  callActivity text_of None NotForked ((request_example "done") <| req_Dispatch := early |>) session_example =
  callActivity text_of None NotForked ((request_example "done") <| req_Dispatch := answer "done" |>) session_example.
Proof.
  apply (dispatch_write_ahead text_of None NotForked (request_example "done") early (answer "done") session_example);
    [apply session_example_synced|intros policy authorize lineage w Hf; discriminate|].
  intros invocation c1 [_ _ _ Hrev _]. unfold early, answer, ret. change (env_Revision (ckp_envelope session_example)) with 1%N in Hrev.
  destruct (N.leb_spec (env_Revision (ckp_envelope c1)) 1); [lia|reflexivity].
Defined.

(** The completed record of activity "k", and an envelope whose journal holds it. *)
Definition started_k : ActivityRecord :=
  startActivityAttempt (newActivityRecord (activityAddressIdentity "x" "n" 1 "k") "x" "n" 1 "k" (sha256_hex "input") "v1" noRetry) 1 (at_second 2).
Definition completed_k : ActivityRecord := completeActivity started_k "out" ActivityLive (at_second 2).
Definition journal_k : gmap string ActivityRecord := {[rec_Identity completed_k := completed_k]}.
Definition with_journal (j : gmap string ActivityRecord) : ExecutionEnvelope :=
  sealed_example <| env_JournalPayload := String "w" (put j) |>.
Definition committed_journal (j : gmap string ActivityRecord) : ExecutionEnvelope :=
  (with_journal j) <| env_Revision := 2%N |>
    <| env_Digest := sha256_hex (String "w" (put ((with_journal j) <| env_Revision := 2%N |> <| env_Digest := "" |>))) |>.

Lemma commit_journal j : exists s', CommitExecution None (at_second 2) store_committed 1 owner_lease (with_journal j) = Ok (s', committed_journal j).
Proof.
  assert (Hload : decodeAnchoredExecution store_committed (payload_of store_committed "x" 1) "x" 1 = Ok sealed_example).
  { pose proof store_committed_loads as Hl. unfold LoadExecution in Hl. cbn [check mbind res_bind] in Hl.
    change (head_of store_committed "x") with 1%N in Hl. cbv zeta in Hl. by rewrite bool_decide_eq_false_2 in Hl by done. }
  apply (commit_complete (at_second 2) store_committed owner_lease (with_journal j) (committed_journal j) (Some sealed_example));
    [done|reflexivity|reflexivity|reflexivity| |reflexivity|reflexivity|reflexivity|exact I].
  change (head_of store_committed (env_ExecutionID (with_journal j))) with 1%N. change (env_ExecutionID (with_journal j)) with "x".
  rewrite Hload. reflexivity.
Qed.

Lemma completed_k_valid : validateActivityRecord completed_k = None.
Proof.
  assert (Hr : activity_reachable completed_k).
  { eexists. split.
    - exists "x", "n", 1%N, "k", "input", "v1", noRetry. repeat split; done.
    - eapply rtc_l; [apply (StepStart _ 1 1 (at_second 2) (at_second 2)); done|]. apply rtc_once. apply StepComplete; [done|by left|done]. }
  destruct (reachable_inv _ Hr) as (Hv & _). by apply validateActivityRecord_iff.
Qed.

Lemma journal_k_reads e : env_JournalPayload e = String "w" (put journal_k) -> env_ExecutionID e = "x" -> env_Activation e = 1%N ->
  env_Fork e = None -> env_Progress e = env_Progress sealed_example -> executionActivityJournal e = Ok journal_k.
Proof.
  intros E1 E2 E3 E4 E5. apply journal_iff. split_and!.
  - rewrite E1. apply decode_marshal; [done|exact I|]. apply map_Forall_singleton. split; [done|apply completed_k_valid].
  - apply map_Forall_singleton. apply valid_record_iff. unfold executionForkMode. rewrite E4. split_and!; try done. by rewrite E3.
  - apply references_iff. split; [rewrite E5; apply map_Forall_empty|]. by apply map_Forall_singleton.
Qed.

Lemma recorded_never_redispatched_witness :
  callActivity text_of None NotForked (request_example "again") (session_of store_committed (with_journal journal_k)) =
  (session_of store_committed (with_journal journal_k), Ok (mkOutcome "out" ActivityReplayed 1 (rec_Identity completed_k))).
Proof.
  destruct (recorded_never_redispatched text_of None NotForked (request_example "again") (answer "a") (answer "b")
    (session_of store_committed (with_journal journal_k)) journal_k completed_k) as [_ Hr].
  - by apply journal_k_reads.
  - apply lookup_singleton_eq.
  - discriminate.
  - destruct (Hr (request_example "again")) as [_ Hreplay]; [reflexivity|]. apply Hreplay; [|reflexivity].
    unfold activityConflict. by rewrite !bool_decide_eq_true_2.
Defined.

Lemma returned_outcome_durable_witness : exists s' outcome,
  out_Payload outcome = "out" /\ outcome_recorded (session_of s' (committed_journal journal_k)) outcome.
Proof.
  destruct (commit_journal journal_k) as (s' & Hs'). exists s', (mkOutcome "out" ActivityReplayed 2 (rec_Identity completed_k)).
  split; [reflexivity|].
  apply (returned_outcome_durable text_of None NotForked (request_example "again") (request_example "again")
    (session_of s' (committed_journal journal_k)) (session_of s' (committed_journal journal_k))).
  - assert (Hok : store_ok store_committed) by apply reachable_ok, store_committed_reachable.
    assert (store_reachable s') as Hs'' by (eapply rtc_r; [apply store_committed_reachable|]; eapply sstep_commit, Hs'; intros e _; exact I).
    apply commit_Ok in Hs'; [|intros e _; exact I]. split; [exact Hs''|].
    pose proof (commit_loads _ _ _ _ _ _ _ Hok Hs') as Hl. cbn [store_head memory_execution_store].
    change (env_ExecutionID (with_journal journal_k)) with "x" in Hl.
    change (match LoadExecution None s' "x" with Ok e => Some e | Err _ => None end = Some (committed_journal journal_k)). by rewrite Hl.
  - reflexivity.
  - intros invocation c1 Hs. exact Hs.
  - discriminate.
  - rewrite (call_replay text_of None NotForked (request_example "again") (request_example "again") _ journal_k completed_k); [reflexivity|done|..|done].
    + by apply journal_k_reads.
    + apply lookup_singleton_eq.
    + unfold activityConflict. by rewrite !bool_decide_eq_true_2.
Defined.

Lemma persisted_journal_reads_back_witness : exists s',
  executionActivityJournal (ckp_envelope (session_of s' (committed_journal journal_k))) = Ok (<[rec_Identity completed_k := completed_k]> ∅).
Proof.
  destruct (commit_journal journal_k) as (s' & Hs'). exists s'.
  apply (persisted_journal_reads_back ∅ completed_k session_example
    (mkCheckpointer (with_store (world_of store_committed) s') owner_lease (committed_journal journal_k) 1 false [])
    (<[rec_Identity completed_k := completed_k]> ∅)).
  - apply session_example_synced.
  - reflexivity.
  - by split.
  - unfold persistActivity, bind, lift. rewrite completed_k_valid. cbn [check].
    change (of_option (marshal (<[rec_Identity completed_k := completed_k]> (∅ : gmap string ActivityRecord))) json_error) with (Ok (String "w" (put journal_k)) : res string).
    unfold wrap_error, asking, commit_target. cbn [store_commit memory_execution_store].
    change (mw_context _ _) with (@None error). change (mw_clock _ _) with (at_second 2). change (mw_store _) with store_committed.
    change (env_Revision (ckp_envelope session_example)) with 1%N. change (ckp_lease session_example) with owner_lease.
    change ((cloneExecutionEnvelope (ckp_envelope session_example)) <| env_JournalPayload := String "w" (put journal_k) |>) with (with_journal journal_k).
    rewrite Hs'. reflexivity.
  - exact I.
Defined.
