(* ===== verification/Checkpointer.v ===== *)
(** * The session as a checkpointer, its children and its waits

    execution_checkpointer.go, execution_failure.go, child_persistence.go, child_launch.go,
    child_cancel.go, child_join.go, child_budget_return.go and durable_wait_registration.go:
    the methods of [executionCheckpointer] that commit steps, child groups and armed waits.
    Each method holds the session mutex and is one step of [act]; the concurrent launch loop
    of [launchChildGroup] is modelled in Launch.v on top of these steps. *)

From S2P Require Import Prelude Go Sha256 Json Identity Schedule Activity Waits Contract Children Aggregate Runtime Session ActivityCall.

(** [StateSerializer]: the host's codec of a state or effects type. *)
Record StateSerializer (A : Type) := mkSerializer { Marshal : A -> res string; Unmarshal : string -> res A }.
Arguments Marshal {A} _ _.
Arguments Unmarshal {A} _ _.

(** [DurableWaitBackend], where the store implements it. *)
Record DurableWaitBackend (W : Type) := mkWaitBackend {
  WaitCapabilities : WaitCapabilityProfile;
  RegisterWait : DurableWaitRecord -> W -> W * option error;
}.
Arguments WaitCapabilities {W} _.
Arguments RegisterWait {W} _ _ _.

Section Checkpointer.
Context {W T E : Type} `{Codecs} `{ExecutionStore W}.
Context (error_text : error -> string) (stateCodec : StateSerializer T) (effectsCodec : StateSerializer (list E)).

(** [persistenceFailed] is set where a codec or the store fails. *)
Definition marking {A} (r : res A) : act W A := fun c =>
  match r with Ok a => (c, Ok a) | Err e => (c <| ckp_persistenceFailed := true |>, Err e) end.

Definition persistSnapshotLocked (target : ExecutionEnvelope) (snapshot : Snapshot T E) : act W N :=
  let! state := marking (Marshal stateCodec (snp_State snapshot)) in
  let! effects := marking (Marshal effectsCodec (snp_Effects snapshot)) in
  let target := target <| env_Progress := (env_Progress target) <| prg_StatePayload := state |>
                            <| prg_ExecutionPointer := snp_ExecutionPointer snapshot |> |>
                       <| env_EffectsPayload := effects |> <| env_RunMeta := snp_RunMeta snapshot |> in
  let! committed := commit_target target in
  fun c => (c <| ckp_stepRevision := env_Revision committed |>, Ok (env_Revision committed)).

Definition resolvedActivitiesLocked : act W unit := fun c => (c, check (resolvedActivities (ckp_envelope c))).

Definition saveLocked (expectedRevision : N) (snapshot : Snapshot T E) : act W N := fun c =>
  if (expectedRevision != ckp_stepRevision c) || (snp_ThreadID snapshot != lse_ExecutionID (ckp_lease c))
  then (c, Err ErrConcurrencyConflict)
  else (do! resolvedActivitiesLocked in persistSnapshotLocked (cloneExecutionEnvelope (ckp_envelope c)) snapshot) c.

Definition decode (c : executionCheckpointer W) (envelope : ExecutionEnvelope) : res (Snapshot T E * N) :=
  check (ValidateExecutionIntegrity envelope (lse_ExecutionID (ckp_lease c)) (env_Revision envelope));;
  check (checkDescriptor (env_Descriptor envelope) (env_Descriptor (ckp_envelope c)));;
  check (validateExecutionCollections envelope);;
  state ← Unmarshal stateCodec (prg_StatePayload (env_Progress envelope));
  effects ← Unmarshal effectsCodec (env_EffectsPayload envelope);
  Ok (mkSnapshot (env_ExecutionID envelope) (prg_ExecutionPointer (env_Progress envelope)) (env_Revision envelope) state
        (env_RunMeta envelope) effects, env_Revision envelope).

Definition Load (threadID : string) : act W (Snapshot T E * N) := fun c =>
  if threadID != lse_ExecutionID (ckp_lease c) then (c, Err ErrInvalidSnapshot) else (c, decode c (ckp_envelope c)).

(** The loop of [GetHistory] over [count] revisions downwards from [revision];
    [history] is [LoadCheckpoint] of the store. *)
Fixpoint historyLoop (history : N -> act W ExecutionEnvelope) (threadID : string) (revision : N) (count : nat) : act W (list (Snapshot T E)) :=
  match count with
  | O => ret []
  | S rest =>
      let! envelope := history revision in
      do! lift (check (ValidateExecutionIntegrity envelope threadID revision)) in
      let! snapshot := (fun c => (c, decode c envelope)) in
      let! older := historyLoop history threadID (revision - 1) rest in
      ret (snapshot.1 :: older)
  end.
Definition GetHistory (history : option (N -> act W ExecutionEnvelope)) (threadID : string) (limit : Z) : act W (list (Snapshot T E)) := fun c =>
  if threadID != lse_ExecutionID (ckp_lease c) then (c, Err ErrInvalidSnapshot)
  else match history with
  | None => (c, Err ErrExecutionHistoryUnsupported)
  | Some history =>
      let revision := env_Revision (ckp_envelope c) in
      let count := if (0 <? limit)%Z then N.min revision (Z.to_N limit) else revision in
      historyLoop history threadID revision (N.to_nat count) c
  end.
Definition Prune (threadID : string) (retain : Z) : act W unit := throw ErrExecutionCapability.
Definition Delete (threadID : string) : act W unit := throw ErrExecutionCapability.
Definition DeleteIfIdle (threadID : string) : act W unit := throw ErrExecutionCapability.

(** ** Steps *)
Definition commitStepLocked (step : directiveStep T E) (directive : directiveKind) (state : T) (meta : RunMetadata) (effects : list E)
  : act W N := fun c =>
  let envelope := ckp_envelope c in
  if directive == directiveWait then (c, Ok (env_Revision envelope))
  else
    (do! resolvedActivitiesLocked in
     let commit (target : ExecutionEnvelope) (pointer : ExecutionPointer) (meta : RunMetadata) : act W N :=
       let target :=
         if (directive != directiveRetry) || (pointer != prg_ExecutionPointer (env_Progress envelope))
         then target <| env_Activation := succ_u64 (env_Activation target) |>
                     <| env_Progress := (env_Progress target) <| prg_JournalReferences := ∅ |> <| prg_ChildGroupReferences := ∅ |> |>
         else target in
       persistSnapshotLocked target (mkSnapshot (lse_ExecutionID (ckp_lease c)) pointer 0 state meta effects) in
     if stp_terminal step then
       match stp_result step with
       | None => fun c => (c, match stp_err step with Some err => Err err | None => Ok (env_Revision envelope) end)
       | Some result =>
           if (rr_Status result != RunStatusCompleted) && (rr_Status result != RunStatusFailed) then ret (env_Revision envelope)
           else commit ((cloneExecutionEnvelope envelope)
                          <| env_Terminal := Some (makeExecutionTerminal error_text (rr_Status result) (rr_Reason result) (stp_err step)) |>)
                  (rr_ExecutionPointer result) (rr_RunMeta result)
       end
     else commit (cloneExecutionEnvelope envelope) (stp_nextNode step) meta) c.

(** ** Failures outside directives *)
Definition canCommitRunFailureLocked (runErr : error) (c : executionCheckpointer W) : bool :=
  is_nil (ctx_Err (ckp_world c)) && negb (ckp_persistenceFailed c) && is_nil (env_Terminal (ckp_envelope c))
  && negb (recoverableExecutionFailure runErr) && is_nil (resolvedActivities (ckp_envelope c)).

Definition commitRunFailureLocked (result : RunResult T E) (runErr : error) : act W (RunResult T E) := fun c =>
  if negb (canCommitRunFailureLocked runErr c) then (c, Ok result)
  else
    (let target := (cloneExecutionEnvelope (ckp_envelope c))
        <| env_Terminal := Some (mkTerminal RunStatusFailed (rr_Reason result) (Some (mkFailure (error_text runErr)))) |> in
     let! now := reading clock_Now in
     let meta := markSegmentFailed (rr_RunMeta result) now in
     do! persistSnapshotLocked target
           (mkSnapshot (lse_ExecutionID (ckp_lease c)) (rr_ExecutionPointer result) 0 (rr_State result) meta (rr_Effects result)) in
     ret (result <| rr_RunMeta := meta |>)) c.

(** [finalizeRunOutcome], the terminal event apart: whether it may be delivered is returned. *)
Definition finalizeRunOutcome (result : option (RunResult T E)) (runErr : option error)
  : executionCheckpointer W -> executionCheckpointer W * (option (RunResult T E) * option error * bool) := fun c =>
  let '(c, result, runErr) :=
    match result, runErr with
    | Some r, Some err =>
        if rr_Status r == RunStatusFailed then
          match commitRunFailureLocked r err c with
          | (c, Ok r) => (c, Some r, Some err)
          | (c, Err commitErr) => (c, Some r, Some (ErrJoin err commitErr))
          end
        else (c, result, runErr)
    | _, _ => (c, result, runErr)
    end in
  let envelope := ckp_envelope c in
  let result := (fun r => r <| rr_ResumeToken := mkToken (env_ExecutionID envelope) (env_Revision envelope) |>) <$> result in
  let committedFailure := match env_Terminal envelope with Some t => trm_Status t == RunStatusFailed | None => false end in
  (c, (result, runErr, is_nil runErr || committedFailure)).

(** ** Durable waits *)
Definition armWaitLocked (waitBackend : option (DurableWaitBackend W)) (waitProfile : option WaitCapabilityProfile) (expectedRevision : N)
    (snapshot : Snapshot T E) (spec : DurableWaitSpec) : act W DurableWaitRecord := fun c =>
  let envelope := ckp_envelope c in
  match waitBackend with
  | None => (c, Err ErrExecutionCapability)
  | Some backend =>
      if waitProfile != Some (WaitCapabilities backend) then (c, Err ErrExecutionCapability)
      else if (expectedRevision != ckp_stepRevision c) || (snp_ThreadID snapshot != env_ExecutionID envelope)
              || (snp_ExecutionPointer snapshot != prg_ExecutionPointer (env_Progress envelope))
      then (c, Err ErrConcurrencyConflict)
      else if env_Revision envelope == max_uint64 then (c, Err ErrWaitInvalid)
      else
        (do! resolvedActivitiesLocked in
         let! record := lift (planDurableWait (env_ExecutionID envelope) (snp_ExecutionPointer snapshot) (env_Activation envelope)
                                (succ_u64 (env_Revision envelope)) spec (WaitCapabilities backend)) in
         let! waits := lift (executionWaits envelope) in
         let identity := waitIdentity (wt_ExecutionID record) (wt_Node record) (wt_Activation record) (wsp_ID (wt_Spec record)) in
         if negb (is_nil (waits !! identity)) then throw ErrWaitConflict
         else
           let! payload := lift (of_option (marshal (<[identity := record]> waits)) json_error) in
           do! persistSnapshotLocked ((cloneExecutionEnvelope envelope) <| env_WaitsPayload := payload |>) snapshot in
           ret record) c
  end.

(** [registerDurableWait], over the world: it changes no session state. *)
Definition registerDurableWait (backend : option (DurableWaitBackend W)) (record : DurableWaitRecord) (w : W) : W * option error :=
  match backend with
  | None => (w, Some (ErrExecutionCapability : error))
  | Some backend =>
      if WaitCapabilities backend != wt_Profile record then (w, Some (ErrExecutionCapability : error))
      else match ctx_Err w with
      | Some err => (w, Some err)
      | None =>
          match RegisterWait backend record w with
          | (w, Some err) => (w, Some (ErrJoin ErrWaitRegistration err))
          | (w, None) => (w, ctx_Err w)
          end
      end
  end.

(** ** Child groups *)
Definition readGroups : act W (gmap string ChildGroupRecord) := fun c => (c, executionChildGroups (ckp_envelope c)).
Definition persistChildGroupsLocked (groups : gmap string ChildGroupRecord) : act W unit :=
  let! payload := lift (of_option (marshal groups) json_error) in
  let! envelope := asking ckp_envelope in
  do! commit_target ((cloneExecutionEnvelope envelope) <| env_ChildrenPayload := payload |>) in
  ret tt.

Definition prepareChildrenLocked (plan : ChildGroupPlan) (available : gmap string Z) : act W ChildGroupRecord :=
  let! groups := readGroups in
  let! envelope := asking ckp_envelope in
  let identity := boundChildGroupIdentity envelope (pln_Key plan) in
  match groups !! identity with
  | Some prior =>
      if grp_Capacity prior != available then throw ErrBudgetExceeded
      else if childPlanBytes (grp_Plan prior) != childPlanBytes plan then throw ErrChildInvalid
      else ret prior
  | None =>
      let! group := lift (PlanChildGroup (env_ExecutionID envelope) (prg_ExecutionPointer (env_Progress envelope)) (env_Activation envelope)
                            plan available) in
      let groups := <[identity := group]> groups in
      do! lift (check (validateChildCapacityLedger groups)) in
      do! persistChildGroupsLocked groups in
      ret group
  end.

(** The zero group, what a lookup of a missing identity returns. *)
Definition no_group : ChildGroupRecord :=
  mkGroup "" "" 0 (mkChildGroupPlan "" "" "" "" "" 0 (FailurePolicyOther "") []) [] [] "" false None ∅ ∅.
Definition group_at (groups : gmap string ChildGroupRecord) (identity : string) : ChildGroupRecord := default no_group (groups !! identity).

(** The loop of [recoverChildLaunches] rewrites the children of its group in place, so a group
    returned with [ErrChildBusy] shows the children before the busy one as recovered. *)
Fixpoint recoveredPrefix (incarnation : N) (children : list ChildRecord) : list ChildRecord :=
  match children with
  | [] => []
  | child :: rest =>
      if chd_State child == ChildRunning then
        if (chd_Revision child == max_uint64) || (chd_Incarnation child == incarnation) then children
        else child <| chd_State := ChildUnknown |> <| chd_Revision := succ_u64 (chd_Revision child) |> :: recoveredPrefix incarnation rest
      else child :: recoveredPrefix incarnation rest
  end.

(** [recoverChildLaunches]; the group is returned with the error it reports. *)
Definition recoverChildLaunches (identity : string) : act W (ChildGroupRecord * option error) :=
  let! groups := readGroups in
  let group := group_at groups identity in
  let! incarnation := asking (fun c => lse_Incarnation (ckp_lease c)) in
  match recoverGroup incarnation group with
  | Err err => if errors_Is err ErrChildBusy
               then ret (group <| grp_Children := recoveredPrefix incarnation (grp_Children group) |>, Some err) else throw err
  | Ok recovered =>
      do! (if existsb (fun child => chd_State child == ChildRunning) (grp_Children group)
           then persistChildGroupsLocked (<[identity := recovered]> groups) else ret tt) in
      ret (recovered, if recoveryPending group then Some (ErrChildrenUnresolved : error) else None)
  end.

Definition child_named (id : string) (group : ChildGroupRecord) : option ChildRecord :=
  List.find (fun child => csp_ID (chd_Spec child) == id) (grp_Children group).

Definition invocation_of (group : ChildGroupRecord) (child : ChildRecord) : ChildInvocation :=
  Children.mkInvocation (grp_ParentID group) (pln_Key (grp_Plan group)) (csp_ID (chd_Spec child)) (chd_ExecutionID child) (chd_Revision child)
    (csp_Input (chd_Spec child)) (csp_Allocation (chd_Spec child)).

(** [beginChildLocked]: intent is committed as queued, then as running, then dispatched. *)
Definition beginChildLocked (identity childID : string) : act W ChildInvocation :=
  let! groups := readGroups in
  let group := group_at groups identity in
  let! queued := lift (queueChild childID group) in
  do! (match child_named childID group with
       | Some child => if chd_State child == ChildPlanned then persistChildGroupsLocked (<[identity := queued]> groups) else ret tt
       | None => ret tt
       end) in
  let! incarnation := asking (fun c => lse_Incarnation (ckp_lease c)) in
  let! running := lift (runChild childID incarnation queued) in
  do! persistChildGroupsLocked (<[identity := running]> groups) in
  match child_named childID running with
  | Some child => ret (invocation_of running child)
  | None => throw ErrChildInvalid
  end.

Definition finishChildLocked (identity : string) (invocation : ChildInvocation) (result : ChildResult) (dispatchErr : option error)
  : act W unit :=
  let! groups := readGroups in
  let group := group_at groups identity in
  let! incarnation := asking (fun c => lse_Incarnation (ckp_lease c)) in
  let! finished := lift (Children.finishChild invocation result (error_text <$> dispatchErr) incarnation group) in
  do! persistChildGroupsLocked (<[identity := finished]> groups) in
  match child_named (inv_ChildID invocation) finished with
  | Some child => if chd_State child == ChildUnknown then throw ErrChildrenUnresolved else ret tt
  | None => ret tt
  end.

(** The exact assertion a caller makes about a group: its committed encoding. *)
Definition assertedGroup (envelope : ExecutionEnvelope) (groups : gmap string ChildGroupRecord) (expected : ChildGroupRecord)
  : option ChildGroupRecord :=
  match groups !! groupIdentity expected with
  | Some group => if currentChildGroup envelope group && (group == expected) then Some group else None
  | None => None
  end.

Record ChildCancelRequest := mkCancelIntent { cqr_ID : string; cqr_Reason : string }.
Record ChildCancelNotice := mkCancelNotice {
  ntc_ParentID : string; ntc_GroupKey : string; ntc_ChildID : string; ntc_ExecutionID : string; ntc_ChildRevision : N;
  ntc_RequestID : string; ntc_Reason : string;
}.
Definition requestChildCancellationLocked (identity : string) (expected : ChildGroupRecord) (request : ChildCancelRequest)
  : act W ChildGroupRecord :=
  let! groups := readGroups in
  let! envelope := asking ckp_envelope in
  match groups !! identity with
  | None => throw ErrChildRevision
  | Some group =>
      if negb (currentChildGroup envelope group) || (group != expected) || (len (grp_MergedIDs group) != 0%Z) then throw ErrChildRevision
      else if negb (is_nil (grp_CancelRequest group)) then
        lift (requestChildCancellation (cqr_ID request) (cqr_Reason request) 0 0 time_zero group)
      else
        let! now := reading clock_Now in
        let! incarnation := asking (fun c => lse_Incarnation (ckp_lease c)) in
        let! cancelled := lift (requestChildCancellation (cqr_ID request) (cqr_Reason request) (env_Revision envelope) incarnation now group) in
        do! persistChildGroupsLocked (<[identity := cancelled]> groups) in
        fun c => (c <| ckp_cancelled := identity :: ckp_cancelled c |>, Ok cancelled)
  end.

Definition currentGroup (identity : string) (c : executionCheckpointer W) : ChildGroupRecord :=
  match executionChildGroups (ckp_envelope c) with Ok groups => group_at groups identity | Err _ => no_group end.

(** The loop that notifies every child whose cancellation is requested and not settled. *)
Fixpoint notifyChildren (notify : ChildCancelNotice -> act W unit) (group : ChildGroupRecord) (request : ChildCancelRequest)
    (children : list ChildRecord) : act W unit :=
  match children with
  | [] => ret tt
  | child :: rest =>
      if negb (chd_CancelRequested child) || settledChild child then notifyChildren notify group request rest
      else
        do! (fun c => (c, check (ctx_Err (ckp_world c)))) in
        do! notify (mkCancelNotice (grp_ParentID group) (pln_Key (grp_Plan group)) (csp_ID (chd_Spec child)) (chd_ExecutionID child)
                      (chd_Revision child) (cqr_ID request) (cqr_Reason request)) in
        notifyChildren notify group request rest
  end.

Definition joinChildren (expected : ChildGroupRecord) (merge : list ChildRecord -> act W string) : act W string := fun c =>
  let identity := groupIdentity expected in
  match executionChildGroups (ckp_envelope c) with
  | Err err => (c, Err (ErrJoin ErrChildRevision err))
  | Ok groups =>
      match assertedGroup (ckp_envelope c) groups expected with
      | None => (c, Err ErrChildRevision)
      | Some group =>
          if joinedGroup group then (c, Ok (grp_MergedResult group))
          else if negb (forallb settledChild (grp_Children group)) then (c, Err ErrChildrenUnresolved)
          else
            let revision := env_Revision (ckp_envelope c) in
            (do! (fun c => (c, check (ctx_Err (ckp_world c)))) in
             let! result := wrap_error (ErrJoin ErrChildMergeConflict) (merge (grp_Children group)) in
             do! (fun c => (c, check (ctx_Err (ckp_world c)))) in
             let! current := asking (fun c => env_Revision (ckp_envelope c)) in
             if current != revision then throw ErrChildMergeConflict
             else
               let! joined := lift (joinGroup result group) in
               do! persistChildGroupsLocked (<[identity := joined]> groups) in
               ret result) c
      end
  end.

Definition returnChildBudgetLocked (expected : ChildGroupRecord) (claim : ChildBudgetReturn) : act W ChildGroupRecord :=
  let! groups := readGroups in
  let! envelope := asking ckp_envelope in
  match assertedGroup envelope groups expected with
  | None => throw ErrChildRevision
  | Some group =>
      if negb (is_nil (grp_BudgetReturns group !! breq_ChildID claim)) then lift (returnChildBudget claim 0 0 time_zero group)
      else
        let! incarnation := asking (fun c => lse_Incarnation (ckp_lease c)) in
        let! now := reading clock_Now in
        let! returned := lift (returnChildBudget claim (env_Revision envelope) incarnation now group) in
        do! persistChildGroupsLocked (<[groupIdentity expected := returned]> groups) in
        ret returned
  end.
End Checkpointer.
