(* ===== verification/CheckpointerInv.v ===== *)
(** * What a committed step guarantees

    On any store that keeps its contract: the cursor of an execution moves only when every
    wait, child group and activity of the current activation is settled; a step is one commit
    of state, cursor, counters and effects together; a child is dispatched only after its
    running state is the committed head; a committed join is replayed without merging again;
    and a wait is armed in the same commit that saves the state it interrupts. *)

From S2P Require Import Prelude Go Sha256 Json Identity Schedule Activity Waits Contract Children Wire Migration Integrity Aggregate Runtime Session ActivityCall ActivityCallInv Checkpointer.

#[local] Arguments validRuntimeText : simpl never.
#[local] Arguments sha256_hex : simpl never.

Section CheckpointerInv.
Context {W T E : Type} `{HC : Codecs} `{HS : ExecutionStore W} `{HK : !StoreContract W}.
Context (error_text : error -> string) (stateCodec : StateSerializer T) (effectsCodec : StateSerializer (list E)).

(** ** The gate *)
Lemma first_error_None l : first_error l = None <-> Forall (fun e => e = None) l.
Proof.
  unfold first_error. split.
  - intros Hf. destruct (List.find _ l) as [e|] eqn:Ef.
    + apply find_some in Ef as [_ He]. by subst e.
    + apply Forall_forall. intros e He. apply list_elem_of_In in He. pose proof (find_none _ _ Ef _ He) as Hn. by destruct e.
  - intros Hl. destruct (List.find _ l) as [e|] eqn:Ef; [|done]. apply find_some in Ef as [Hin _].
    rewrite Forall_forall in Hl. apply Hl. by apply list_elem_of_In.
Qed.

Definition settled_activity (e : ExecutionEnvelope) (r : ActivityRecord) : Prop :=
  rec_Activation r = env_Activation e ->
  rec_State r = ActivityCompleted \/ (rec_State r = ActivityFailed /\ rec_Classification r <> ActivityAmbiguous).

Lemma unresolved_None e r : unresolvedActivityError e r = None <-> settled_activity e r.
Proof.
  unfold unresolvedActivityError, settled_activity. case_bool_decide as Ha; simpl.
  - assert (Hopen : rec_State r <> ActivityCompleted -> rec_State r <> ActivityFailed -> settled_activity e r -> False).
    { intros H1 H2 Hx. by destruct (Hx Ha) as [?|[? _]]. }
    unfold settled_activity in Hopen. destruct (rec_State r) eqn:Es; split; try done; try (intros Hx; by destruct Hopen).
    + by destruct (0 <? _)%Z.
    + intros _ _. by left.
    + case_bool_decide; [done|]. intros _ _. by right.
    + intros Hx. destruct (Hx Ha) as [?|[_ Hc]]; [done|]. by rewrite bool_decide_eq_false_2.
  - split; [|done]. intros _ Hx. by destruct Ha.
Qed.

(** The gate is exact. The cursor may move exactly when the three collections of the
    envelope decode and are valid, no wait is armed, every child group of the activation is
    joined, and every activity of the activation is completed or has definitely failed;
    the verdict does not depend on the order in which the records are visited. *)
Theorem resolution_gate_exact e : resolvedActivities e = None <->
  exists waits groups journal, executionWaits e = Ok waits /\ executionChildGroups e = Ok groups /\ executionActivityJournal e = Ok journal /\
    map_Forall (fun _ w => wt_State w <> WaitArmed) waits /\
    map_Forall (fun _ g => grp_Activation g = env_Activation e -> joinedGroup g = true) groups /\
    map_Forall (fun _ r => settled_activity e r) journal.
Proof.
  unfold resolvedActivities, resolvedChildGroups. destruct (executionWaits e) as [waits|]; [|split; [done|by intros (? & ? & ? & ? & _)]].
  assert (Hw : map_all (fun _ wait => wt_State wait != WaitArmed) waits = true <-> map_Forall (fun _ w => wt_State w <> WaitArmed) waits).
  { apply map_all_reflect. intros k v. by rewrite negb_true_iff, bool_decide_eq_false. }
  destruct (map_all _ waits); simpl; cycle 1.
  { split; [done|]. intros (w' & ? & ? & [= <-] & _ & _ & Hx & _). by apply Hw in Hx. }
  destruct (executionChildGroups e) as [groups|]; [|split; [done|by intros (? & ? & ? & _ & ? & _)]].
  assert (Hg : map_all (fun _ group => negb ((grp_Activation group == env_Activation e) && negb (joinedGroup group))) groups = true <->
    map_Forall (fun _ g => grp_Activation g = env_Activation e -> joinedGroup g = true) groups).
  { apply map_all_reflect. intros k g. rewrite negb_true_iff, andb_false_iff, bool_decide_eq_false, negb_false_iff.
    destruct (joinedGroup g); destruct (decide (grp_Activation g = env_Activation e)); naive_solver. }
  destruct (map_all _ groups); simpl; cycle 1.
  { split; [done|]. intros (? & g' & ? & _ & [= <-] & _ & _ & Hx & _). by apply Hg in Hx. }
  destruct (executionActivityJournal e) as [journal|]; [|split; [done|by intros (? & ? & ? & _ & _ & ? & _)]].
  rewrite first_error_None, Forall_map. unfold range.
  assert (Hj : Forall (fun kv : string * ActivityRecord => unresolvedActivityError e kv.2 = None) (map_to_list journal) <->
               Forall (uncurry (fun _ r => settled_activity e r)) (map_to_list journal)).
  { apply Forall_proper; [|done]. intros [k r]. simpl. apply unresolved_None. }
  split.
  - intros Hf. exists waits, groups, journal. split_and!; [done|done|done|by apply Hw|by apply Hg|]. apply map_Forall_to_list. by apply Hj.
  - intros (w' & g' & j' & [= <-] & [= <-] & [= <-] & _ & _ & Hx). apply Hj. by apply map_Forall_to_list.
Qed.

(** ** Steps *)
Lemma marking_Ok {A} (r : res A) c (c' : executionCheckpointer W) a : marking r c = (c', Ok a) -> c' = c /\ r = Ok a.
Proof. unfold marking. destruct r; [|done]. by intros [= <- <-]. Qed.

(** The envelope a snapshot is committed as. *)
Definition snapshot_target (target : ExecutionEnvelope) (snapshot : Snapshot T E) (state effects : string) : ExecutionEnvelope :=
  target <| env_Progress := (env_Progress target) <| prg_StatePayload := state |> <| prg_ExecutionPointer := snp_ExecutionPointer snapshot |> |>
    <| env_EffectsPayload := effects |> <| env_RunMeta := snp_RunMeta snapshot |>.

Lemma persistSnapshot_Ok target snapshot c c' rev : store_inv (ckp_world c) -> env_ExecutionID target = env_ExecutionID (ckp_envelope c) ->
  persistSnapshotLocked stateCodec effectsCodec target snapshot c = (c', Ok rev) ->
  exists state effects, Marshal stateCodec (snp_State snapshot) = Ok state /\ Marshal effectsCodec (snp_Effects snapshot) = Ok effects /\
    synced c' /\ rev = (env_Revision (ckp_envelope c) + 1)%N /\ ckp_stepRevision c' = rev /\ env_Revision (ckp_envelope c') = rev /\
    ckp_envelope c' = (snapshot_target target snapshot state effects) <| env_Revision := rev |> <| env_Digest := env_Digest (ckp_envelope c') |>.
Proof.
  intros Hs Hid Hp. unfold persistSnapshotLocked in Hp. apply bind_inv in Hp as (c1 & state & H1 & Hp). apply marking_Ok in H1 as [-> H1].
  apply bind_inv in Hp as (c1 & effects & H2 & Hp). apply marking_Ok in H2 as [-> H2]. cbv zeta in Hp.
  apply bind_inv in Hp as (c1 & e & Hc & Hp). injection Hp as <- <-. exists state, effects.
  apply commit_target_Ok in Hc as ([Hi Hh] & Ee & Hx & _); [|done].
  assert (Er : env_Revision e = (env_Revision (ckp_envelope c) + 1)%N) by by rewrite Hx.
  split_and!; try done.
  - simpl. by rewrite Ee.
  - simpl. rewrite Ee, Er. rewrite Hx at 1. done.
Qed.

(** What a step that is not a wait and not a pause commits. *)
Definition step_pointer (step : directiveStep T E) : ExecutionPointer :=
  if stp_terminal step then match stp_result step with Some r => rr_ExecutionPointer r | None => "" end else stp_nextNode step.
Definition step_meta (step : directiveStep T E) (meta : RunMetadata) : RunMetadata :=
  if stp_terminal step then match stp_result step with Some r => rr_RunMeta r | None => meta end else meta.
Definition step_terminal (step : directiveStep T E) (prior : option ExecutionTerminal) : option ExecutionTerminal :=
  if stp_terminal step then
    match stp_result step with
    | Some r => Some (makeExecutionTerminal error_text (rr_Status r) (rr_Reason r) (stp_err step))
    | None => prior
    end
  else prior.
Definition final_step (step : directiveStep T E) : Prop :=
  stp_terminal step = false \/
  exists r, stp_result step = Some r /\ (rr_Status r = RunStatusCompleted \/ rr_Status r = RunStatusFailed).

(** A commit needs only the invariant of the store: whatever the session held before, what it
    holds after an accepted commit is the head. *)
Lemma step_commits_all step directive state meta effects c c' rev : store_inv (ckp_world c) ->
  directive <> directiveWait -> final_step step ->
  commitStepLocked error_text stateCodec effectsCodec step directive state meta effects c = (c', Ok rev) ->
  let e := ckp_envelope c in let e' := ckp_envelope c' in
  resolvedActivities e = None /\ env_ExecutionID e' = env_ExecutionID e /\ synced c' /\ rev = (env_Revision e + 1)%N /\ env_Revision e' = rev /\ ckp_stepRevision c' = rev /\
  prg_ExecutionPointer (env_Progress e') = step_pointer step /\
  Marshal stateCodec state = Ok (prg_StatePayload (env_Progress e')) /\ Marshal effectsCodec effects = Ok (env_EffectsPayload e') /\
  env_RunMeta e' = step_meta step meta /\ env_Terminal e' = step_terminal step (env_Terminal e) /\
  env_JournalPayload e' = env_JournalPayload e /\ env_ChildrenPayload e' = env_ChildrenPayload e /\ env_WaitsPayload e' = env_WaitsPayload e /\
  env_Activation e' = (if bool_decide (directive = directiveRetry /\ step_pointer step = prg_ExecutionPointer (env_Progress e))
                       then env_Activation e else succ_u64 (env_Activation e)).
Proof.
  intros Hs Hw Hf Hc. cbv zeta. unfold commitStepLocked in Hc. rewrite (bool_decide_eq_false_2 (directive = directiveWait)) in Hc by done.
  apply bind_inv in Hc as (c1 & [] & Hg & Hc). injection Hg as <- Hg. apply check_Ok in Hg.
  unfold step_pointer, step_meta, step_terminal. destruct (stp_terminal step) eqn:Et.
  - destruct Hf as [Hf|(r & Er & Hst)]; [congruence|]. rewrite Er in Hc |- *.
    assert ((rr_Status r != RunStatusCompleted) && (rr_Status r != RunStatusFailed) = false) as Hx
      by (destruct Hst as [-> | ->]; done).
    rewrite Hx in Hc. clear Hx. cbv zeta in Hc. apply persistSnapshot_Ok in Hc as (sp & ep & H1 & H2 & Hs' & Hr & Hsr & Hr' & He); [|done|].
    + split_and!; try done; rewrite He; try done; destruct (_ || _) eqn:Eo; try done.
      all: rewrite ?orb_true_iff, ?orb_false_iff, ?negb_true_iff, ?negb_false_iff, ?bool_decide_eq_true, ?bool_decide_eq_false in Eo; simpl; case_bool_decide; naive_solver.
    + by destruct (_ || _).
  - cbv zeta in Hc. apply persistSnapshot_Ok in Hc as (sp & ep & H1 & H2 & Hs' & Hr & Hsr & Hr' & He); [|done|].
    + split_and!; try done; rewrite He; try done; destruct (_ || _) eqn:Eo; try done.
      all: rewrite ?orb_true_iff, ?orb_false_iff, ?negb_true_iff, ?negb_false_iff, ?bool_decide_eq_true, ?bool_decide_eq_false in Eo; simpl; case_bool_decide; naive_solver.
    + by destruct (_ || _).
Qed.

(** C26: a step is one atomic commit behind the gate. When a step other than a wait or a pause
    is committed, everything of the current activation was settled; the new head is exactly
    one revision later; state, cursor, counters, effects and the terminal changed together;
    the journal, the child groups and the waits did not; and the activation advances, so
    that its activities and children get fresh identities, unless the directive retries the
    node it came from. *)
Theorem step_commit_atomic step directive state meta effects c c' rev : synced c ->
  directive <> directiveWait -> final_step step ->
  commitStepLocked error_text stateCodec effectsCodec step directive state meta effects c = (c', Ok rev) ->
  let e := ckp_envelope c in let e' := ckp_envelope c' in
  resolvedActivities e = None /\ synced c' /\ rev = (env_Revision e + 1)%N /\ env_Revision e' = rev /\ ckp_stepRevision c' = rev /\
  prg_ExecutionPointer (env_Progress e') = step_pointer step /\
  Marshal stateCodec state = Ok (prg_StatePayload (env_Progress e')) /\ Marshal effectsCodec effects = Ok (env_EffectsPayload e') /\
  env_RunMeta e' = step_meta step meta /\ env_Terminal e' = step_terminal step (env_Terminal e) /\
  env_JournalPayload e' = env_JournalPayload e /\ env_ChildrenPayload e' = env_ChildrenPayload e /\ env_WaitsPayload e' = env_WaitsPayload e /\
  env_Activation e' = (if bool_decide (directive = directiveRetry /\ step_pointer step = prg_ExecutionPointer (env_Progress e))
                       then env_Activation e else succ_u64 (env_Activation e)).
Proof. intros Hs Hw Hf Hc. by apply step_commits_all in Hc as (? & _ & ?); [|apply Hs|..]. Qed.
End CheckpointerInv.
