(* ===== verification/CheckpointerExample.v ===== *)
(** * A closed step

    The theorems of CheckpointerInv.v on the session of ActivityExample.v: the node "n" of
    execution "x" completes and the cursor moves to "m". *)

From stdpp Require Import relations.
From S2P Require Import Prelude Go Sha256 Json Identity Schedule Activity ActivityInv Waits Contract Children Wire Migration Integrity Aggregate Runtime WireRecords Store StoreInv StoreExample Session ActivityCall ActivityCallInv StoreWorld ActivityExample Checkpointer CheckpointerInv.

#[local] Opaque sha256_hex.
#[local] Arguments validRuntimeText : simpl never.

(** States and effects that are their own encoding. *)
Definition text_codec : StateSerializer string := mkSerializer _ Ok Ok.
Definition texts_codec : StateSerializer (list string) := mkSerializer _ (fun l => Ok (String.concat "," l)) (fun s => Ok [s]).

(** A target of the second revision, and what it is sealed as. *)
Definition second_revision (e : ExecutionEnvelope) : ExecutionEnvelope :=
  e <| env_Revision := 2%N |> <| env_Digest := sha256_hex (String "w" (put (e <| env_Revision := 2%N |> <| env_Digest := "" |>))) |>.

Lemma loads_example : decodeAnchoredExecution store_committed (payload_of store_committed "x" 1) "x" 1 = Ok sealed_example.
Proof.
  pose proof store_committed_loads as Hl. unfold LoadExecution in Hl. cbn [check mbind res_bind] in Hl.
  change (head_of store_committed "x") with 1%N in Hl. cbv zeta in Hl. by rewrite bool_decide_eq_false_2 in Hl by done.
Qed.

Lemma commit_second e : env_ExecutionID e = "x" -> validateDescriptor (env_Descriptor e) = None ->
  ValidateExecutionRolloverTransition (Some sealed_example) e = None ->
  ValidateExecutionForkTransition (Some ("x", None)) e = None ->
  SealExecutionEnvelope (e <| env_Revision := 2%N |>) = Ok (second_revision e) ->
  exists s', CommitExecution None (at_second 2) store_committed 1 owner_lease e = Ok (s', second_revision e).
Proof.
  intros Hid Hd Hr Hf Hs. pose proof (commit_complete (at_second 2) store_committed owner_lease e (second_revision e) (Some sealed_example)) as Hc.
  rewrite Hid in Hc. change (head_of store_committed "x") with 1%N in Hc.
  apply Hc; [done|reflexivity|done|done| |done|done|done|exact I].
  change (0 <? 1)%N with true. cbv iota. rewrite loads_example. reflexivity.
Qed.

Definition to_m : directiveStep string string := continueDirectiveStep "m".
Definition after_step : ExecutionEnvelope :=
  snapshot_target ((cloneExecutionEnvelope sealed_example) <| env_Activation := 2%N |>
    <| env_Progress := (env_Progress sealed_example) <| prg_JournalReferences := ∅ |> <| prg_ChildGroupReferences := ∅ |> |>)
    (mkSnapshot (E := string) "x" "m" 0 "next" meta_example ["e"]) "next" "e".

Lemma step_commits : exists c', commitStepLocked text_of text_codec texts_codec to_m directiveCompleted "next" meta_example ["e"] session_example
  = (c', Ok 2%N).
Proof.
  destruct (commit_second after_step) as (s' & Hs'); [reflexivity..|]. eexists.
  unfold commitStepLocked. rewrite (bool_decide_eq_false_2 (directiveCompleted = directiveWait)) by done.
  unfold bind, resolvedActivitiesLocked. change (check (resolvedActivities (ckp_envelope session_example))) with (Ok tt : res unit).
  cbv iota zeta beta. change (stp_terminal to_m) with false. cbv iota.
  rewrite (bool_decide_eq_false_2 (directiveCompleted = directiveRetry)) by done. cbn [negb orb].
  unfold persistSnapshotLocked, bind, marking. cbn [Marshal text_codec texts_codec snp_State snp_Effects]. cbv iota beta zeta.
  unfold commit_target. cbn [store_commit memory_execution_store].
  change (mw_context _ _) with (@None error). change (mw_clock _ _) with (at_second 2). change (mw_store _) with store_committed.
  change (env_Revision (ckp_envelope session_example)) with 1%N. change (ckp_lease session_example) with owner_lease.
  match goal with |- context [CommitExecution _ _ _ _ _ ?e] => change e with after_step end.
  rewrite Hs'. reflexivity.
Qed.

Lemma step_commit_atomic_witness : exists c' : executionCheckpointer memory_world,
  prg_ExecutionPointer (env_Progress (ckp_envelope c')) = "m" /\ env_Activation (ckp_envelope c') = 2%N /\
  env_Revision (ckp_envelope c') = 2%N.
Proof.
  destruct step_commits as (c' & Hc'). exists c'.
  destruct (step_commit_atomic text_of text_codec texts_codec to_m directiveCompleted "next" meta_example ["e"] session_example c' 2%N)
    as (_ & _ & _ & Hr & _ & Hp & _ & _ & _ & _ & _ & _ & _ & Ha);
    [apply session_example_synced|discriminate|by left|exact Hc'|].
  split; [exact Hp|]. split; [|exact Hr]. rewrite Ha. case_bool_decide as Hd; [destruct Hd; discriminate|reflexivity].
Defined.
