(* ===== verification/Launch.v ===== *)
(** * Launching a child group

    child_launch.go: [runChildren] prepares and recovers a group under the mutex of the
    session, then [launchChildGroup] launches its children with bounded concurrency: a loop
    that starts goroutines and receives their completions from a buffered channel, while the
    goroutines of [dispatchChild] call the host and commit what it answered.

    The context of a dispatcher carries neither the session nor its lease, so a dispatcher
    answers and changes nothing else. The launcher, each goroutine, [CancelChildren] called
    from another goroutine and the world (clock, cancellation, other owners of the store)
    interleave at the granularity of the session mutex: a step is one of [launcher] or of
    [beside]. *)

From S2P Require Import Prelude Go Sha256 Json Identity Schedule Activity Waits Contract Children Wire Aggregate Runtime Session ActivityCall Checkpointer.

(** Where the launcher is in its loop; [Returned] is what the caller got. *)
Inductive launchPhase :=
| AtTop
| Admitting
| Receiving
| Returned (group : ChildGroupRecord) (err : option error).

Record launchState (W : Type) := mkLaunch {
  lch_session : executionCheckpointer W;
  (** [ids[next:]], [active] and the contents of the channel [results] *)
  lch_next : list string;
  lch_active : Z;
  lch_results : list (option error);
  (** the goroutines that have not sent their completion, and all that were started *)
  lch_workers : list ChildInvocation;
  lch_started : list ChildInvocation;
  lch_phase : launchPhase;
}.
Arguments mkLaunch {W} _ _ _ _ _ _ _.
Arguments lch_session {W} _.
Arguments lch_next {W} _.
Arguments lch_active {W} _.
Arguments lch_results {W} _.
Arguments lch_workers {W} _.
Arguments lch_started {W} _.
Arguments lch_phase {W} _.
#[export] Instance eta_Launch {W} : Eta (launchState W) := fun s =>
  mkLaunch (lch_session s) (lch_next s) (lch_active s) (lch_results s) (lch_workers s) (lch_started s) (lch_phase s).

(** The case a [select] of the launcher takes. *)
Inductive launchChoice := TakeSignal | TakeDone | TakeResult.

Section Launch.
Context {W : Type} `{Codecs} `{ExecutionStore W}.
Context (error_text : error -> string) (forkPolicy : option (ForkExecutionPolicy W)) (forkMode : ForkActivityMode).
(** What the rest of the system may do to the world. *)
Context (moves : W -> W -> Prop).

Definition childGroupHasFailure (identity : string) (c : executionCheckpointer W) : bool :=
  existsb (fun child => chd_State child == ChildFailed) (grp_Children (currentGroup identity c)).

Definition childLaunchResult (identity : string) (c : executionCheckpointer W) : ChildGroupRecord * option error :=
  let group := currentGroup identity c in
  (group, if existsb (fun child => (chd_State child != ChildCompleted) && (chd_State child != ChildFailed) && (chd_State child != ChildCanceled))
                     (grp_Children group)
          then Some (ErrChildrenUnresolved : error) else None).

(** A signal made for a group that is cancelled already is closed. *)
Definition childCancellationSignal (identity : string) (c : executionCheckpointer W) : executionCheckpointer W :=
  if grp_CancelRequested (currentGroup identity c) then c <| ckp_cancelled := identity :: ckp_cancelled c |> else c.
Definition signalled (identity : string) (c : executionCheckpointer W) : bool := bool_decide (identity ∈ ckp_cancelled c).

(** [runChildren] up to the launch: the group to launch, or what is returned instead. *)
Definition prepareLaunch (plan : ChildGroupPlan) (available : gmap string Z) : act W (string * ChildGroupRecord * option error) :=
  if (forkMode == ForkFake) && is_nil (forkPolicy ≫= fpo_FakeChild) then throw ErrForkPolicy
  else
    let! group := prepareChildrenLocked plan available in
    let identity := groupIdentity group in
    let! recovered := recoverChildLaunches identity in
    ret (identity, recovered.1, recovered.2).

(** The dispatcher of an execution that is a fork. *)
Definition forkDispatcher (dispatch : ChildInvocation -> act W ChildResult) : ChildInvocation -> act W ChildResult :=
  if forkMode == ForkLive then fun invocation => do! authorizeForkDispatch forkPolicy forkMode in dispatch invocation
  else match (if forkMode == ForkFake then forkPolicy ≫= fpo_FakeChild else None) with
  | Some fake => fake
  | None => dispatch
  end.

Section Group.
(** The group as it was when the launch began. *)
Context (identity : string) (group : ChildGroupRecord).

Definition startLaunch (c : executionCheckpointer W) : launchState W :=
  mkLaunch (childCancellationSignal identity c) (launchableChildIDs group) 0 [] [] [] AtTop.

Definition returned (result : ChildGroupRecord * option error) (s : launchState W) : launchState W :=
  s <| lch_phase := Returned result.1 result.2 |>.
Definition returnedCurrent (err : error) (s : launchState W) : launchState W :=
  returned (currentGroup identity (lch_session s), Some err) s.

(** One iteration of the inner loop, or its exit. *)
Definition admitNext (s : launchState W) : launchState W :=
  match lch_next s with
  | childID :: rest =>
      if (lch_active s <? pln_MaxConcurrency (grp_Plan group))%Z then
        match beginChildLocked identity childID (lch_session s) with
        | (c, Err launchErr) => returnedCurrent launchErr (s <| lch_session := c |> <| lch_next := rest |>)
        | (c, Ok invocation) =>
            s <| lch_session := c |> <| lch_next := rest |> <| lch_active := (lch_active s + 1)%Z |>
              <| lch_workers := lch_workers s ++ [invocation] |> <| lch_started := lch_started s ++ [invocation] |>
        end
      else if lch_active s == 0%Z then returned (childLaunchResult identity (lch_session s)) s
      else s <| lch_phase := Receiving |>
  | [] =>
      if lch_active s == 0%Z then returned (childLaunchResult identity (lch_session s)) s
      else s <| lch_phase := Receiving |>
  end.

(** A completion received from the channel. *)
Definition receive (result : option error) (s : launchState W) : launchState W :=
  match result with
  | Some err => returnedCurrent err s
  | None =>
      if (pln_FailurePolicy (grp_Plan group) == ChildFailFast) && childGroupHasFailure identity (lch_session s)
      then returnedCurrent ErrChildrenUnresolved s
      else s <| lch_phase := AtTop |>
  end.

(** A step of the launcher; [None] where it has returned or the case of its [select] is not
    ready. *)
Definition launcher (choice : launchChoice) (s : launchState W) : option (launchState W) :=
  match lch_phase s with
  | Returned _ _ => None
  | AtTop => Some (if signalled identity (lch_session s) then returned (childLaunchResult identity (lch_session s)) s
                   else s <| lch_phase := Admitting |>)
  | Admitting => Some (admitNext s)
  | Receiving =>
      match choice with
      | TakeSignal => if signalled identity (lch_session s) then Some (returned (childLaunchResult identity (lch_session s)) s) else None
      | TakeDone => (fun cause => returnedCurrent cause s) <$> ctx_Err (ckp_world (lch_session s))
      | TakeResult =>
          match lch_results s with
          | [] => None
          | result :: rest => Some (receive result (s <| lch_results := rest |> <| lch_active := (lch_active s - 1)%Z |>))
          end
      end
  end.

(** A goroutine of [dispatchChild] whose dispatcher answered [outcome], or failed, panicked or
    was not called because its context was cancelled ([dispatchErr]): it commits the outcome
    and sends its completion. *)
Definition finishWorker (i : nat) (invocation : ChildInvocation) (outcome : ChildResult) (dispatchErr : option error) (s : launchState W)
  : launchState W :=
  let '(c, finished) := finishChildLocked error_text identity invocation outcome dispatchErr (lch_session s) in
  let finishErr := match finished with Ok _ => None | Err err => Some err end in
  s <| lch_session := c |> <| lch_workers := delete i (lch_workers s) |> <| lch_results := lch_results s ++ [finishErr] |>.

(** What happens beside the launcher. *)
Inductive beside : launchState W -> launchState W -> Prop :=
| step_worker i invocation outcome dispatchErr s : lch_workers s !! i = Some invocation ->
    beside s (finishWorker i invocation outcome dispatchErr s)
| step_cancelled expected request s :
    beside s (s <| lch_session := (requestChildCancellationLocked identity expected request (lch_session s)).1 |>)
| step_world w s : moves (ckp_world (lch_session s)) w -> beside s (s <| lch_session := (lch_session s) <| ckp_world := w |> |>).
End Group.
End Launch.
