(* ===== verification/LaunchInv.v ===== *)
(** * What a launch of children guarantees

    For every interleaving of the launcher, its goroutines, cancellation and the world: the
    number of dispatchers at work is bounded, a dispatcher runs only for a child whose running
    record was the committed head when it was started and at most once, the launcher always
    comes to an end, and a group it returns without an error is settled with nobody at work. *)

From S2P Require Import Prelude Go Sha256 Json Identity Schedule Activity Waits Contract Children ChildrenInv Wire Migration Integrity Aggregate Runtime Session ActivityCall ActivityCallInv Checkpointer Launch.

#[local] Arguments validRuntimeText : simpl never.

(** ** One child of a group *)
Lemma named_update id missing f g g' : (forall c c', f c = Ok c' -> chd_Spec c' = chd_Spec c) -> updateGroupChild id missing f g = Ok g' ->
  (exists c c', child_named id g = Some c /\ f c = Ok c' /\ child_named id g' = Some c') /\
  (forall k, k <> id -> child_named k g' = child_named k g) /\ grp_CancelRequested g' = grp_CancelRequested g.
Proof.
  intros Hf Hu. unfold updateGroupChild in Hu. inv_ok Hu. injection Hu as <-. split; [|split; [|done]].
  all: apply updateChild_Ok in Hok as (pre & c & post & c' & E & -> & Hc & Hid & Hpre); unfold child_named; cbn; rewrite E.
  - exists c, c'. specialize (Hf _ _ Hc). clear E. induction pre as [|x pre IH]; cbn.
    + by rewrite Hf, !bool_decide_eq_true_2.
    + apply Forall_cons in Hpre as [Hx Hpre]. rewrite (bool_decide_eq_false_2 (csp_ID (chd_Spec x) = id)) by done. by apply IH.
  - intros k Hk. specialize (Hf _ _ Hc). clear E. induction pre as [|x pre IH]; cbn.
    + rewrite Hf, !bool_decide_eq_false_2 by congruence. done.
    + apply Forall_cons in Hpre as [_ Hpre]. case_bool_decide; [done|]. by apply IH.
Qed.

Definition waiting_launch (c : ChildRecord) : Prop := chd_State c = ChildPlanned \/ chd_State c = ChildQueued.
(** The child was launched, or is running now. *)
Definition launched_in (g : ChildGroupRecord) (id : string) : Prop := exists c, child_named id g = Some c /\ ~ waiting_launch c.
Definition running_in (g : ChildGroupRecord) (id : string) : Prop := exists c, child_named id g = Some c /\ chd_State c = ChildRunning.

Lemma queue_named id g g' : queueChild id g = Ok g' ->
  (exists c c', child_named id g = Some c /\ waiting_launch c /\ child_named id g' = Some c' /\ waiting_launch c') /\
  (forall k, k <> id -> child_named k g' = child_named k g) /\ grp_CancelRequested g' = false.
Proof.
  intros Hq. apply named_update in Hq as ((c & c' & H1 & H2 & H3) & Hk & Hr).
  - cbv beta in H2. inv_ok H2. injection H2 as <-. apply check_Ok in Hok. unfold admitChild in Hok. guard_in Hok; [done|].
    apply orb_false_iff in Hg as [Hg _]. guard_in Hok; [done|]. split_and!; [|done|by rewrite Hr]. exists c. eexists. split; [done|].
    rewrite andb_false_iff, !negb_false_iff, !bool_decide_eq_true in Hg0. split; [done|]. split; [done|].
    case_bool_decide; unfold waiting_launch; [by right|tauto].
  - intros x y Hx. inv_ok Hx. injection Hx as <-. by case_bool_decide.
Qed.

Lemma run_named id incarnation g g' : runChild id incarnation g = Ok g' ->
  (exists c', child_named id g' = Some c' /\ chd_State c' = ChildRunning /\ chd_Incarnation c' = incarnation) /\
  (forall k, k <> id -> child_named k g' = child_named k g) /\ grp_CancelRequested g' = grp_CancelRequested g.
Proof.
  intros Hq. apply named_update in Hq as ((c & c' & H1 & H2 & H3) & Hk & Hr).
  - split_and!; [|done|done]. exists c'. split; [done|]. cbv beta in H2. inv_ok H2. by injection H2 as <-.
  - intros x y Hx. inv_ok Hx. by injection Hx as <-.
Qed.

Lemma finish_named invocation result dispatchErr incarnation g g' : finishChild invocation result dispatchErr incarnation g = Ok g' ->
  launched_in g' (inv_ChildID invocation) /\ (forall k, k <> inv_ChildID invocation -> child_named k g' = child_named k g).
Proof.
  unfold finishChild. intros Hq. apply named_update in Hq as ((c & c' & H1 & H2 & H3) & Hk & _).
  - split; [|done]. exists c'. split; [done|]. unfold finishChildRecord in H2. guard_in H2; [done|]. cbv zeta in H2. guard_in H2; [done|].
    apply checkedChild_Ok in H2 as [-> _]. apply negb_false_iff in Hg0. cbn. unfold waiting_launch.
    destruct (res_State _) eqn:E; try done; destruct (chd_CancelRequested c); cbn; rewrite ?E; naive_solver.
  - intros x y Hx. unfold finishChildRecord in Hx. guard_in Hx; [done|]. cbv zeta in Hx. guard_in Hx; [done|].
    apply checkedChild_Ok in Hx as [-> _]. by destruct (_ && _).
Qed.

Lemma cancel_named requestID reason revision incarnation now g g' k : grp_CancelRequest g = None ->
  requestChildCancellation requestID reason revision incarnation now g = Ok g' ->
  (running_in g k -> running_in g' k) /\ (launched_in g k -> launched_in g' k).
Proof.
  intros Hn Hr. unfold requestChildCancellation in Hr. rewrite Hn in Hr. inv_ok Hr. injection Hr as <-.
  assert (Hl : forall l l', cancelChildrenLoop l = Ok l' -> forall c, List.find (fun x => csp_ID (chd_Spec x) == k) l = Some c ->
    exists c', List.find (fun x => csp_ID (chd_Spec x) == k) l' = Some c' /\ (waiting_launch c \/ chd_State c' = chd_State c)).
  { clear. induction l as [|x l IH]; intros l' Hc c Hf; [done|]. cbn in Hc, Hf. inv_ok Hc. rename x0 into x', x1 into l1.
    injection Hc as <-. assert (chd_Spec x' = chd_Spec x /\ (waiting_launch x \/ chd_State x' = chd_State x)) as [Hs Hst].
    { destruct (settledChild x); [injection Hok as ->; auto|]. guard_in Hok; [done|]. injection Hok as <-.
      unfold waiting_launch. destruct (bool_decide_reflect (chd_State x = ChildPlanned)); [cbn; auto|].
      destruct (bool_decide_reflect (chd_State x = ChildQueued)); cbn; auto. }
    cbn. rewrite Hs. case_bool_decide; [|by apply IH]. injection Hf as <-. by exists x'. }
  split; intros (c & Hc & Hst); destruct (Hl _ _ Hok _ Hc) as (c' & Hc' & Hx); exists c'; (split; [exact Hc'|]).
  - destruct Hx as [[Hx|Hx]|Hx]; congruence.
  - unfold waiting_launch in *. destruct Hx as [Hx|Hx]; [done|]. by rewrite Hx.
Qed.

Lemma running_launched g k : running_in g k -> launched_in g k.
Proof. intros (c & Hc & Hs). exists c. split; [done|]. unfold waiting_launch. rewrite Hs. naive_solver. Qed.

(** ** Commits of a session *)
Section Session.
Context {W : Type} `{HC : Codecs} `{HL : !LawfulCodecs} `{HS : ExecutionStore W} `{HK : !StoreContract W}.
Context (error_text : error -> string) (identity : string).
Notation session := (executionCheckpointer W).

(** What every operation of a launch leaves alone. *)
Definition kept (c c' : session) : Prop :=
  store_inv (ckp_world c') /\ ckp_lease c' = ckp_lease c /\ env_ExecutionID (ckp_envelope c') = env_ExecutionID (ckp_envelope c).
Lemma kept_session_trans c c1 c2 : kept c c1 -> kept c1 c2 -> kept c c2.
Proof. unfold kept. intros (? & -> & ->) (? & -> & ->). done. Qed.

(** The session holds a committed head whose child groups are [groups]. *)
Definition written (groups : gmap string ChildGroupRecord) (c : session) : Prop :=
  marshal groups = Some (env_ChildrenPayload (ckp_envelope c)) /\
  store_head (ckp_world c) (env_ExecutionID (ckp_envelope c)) = Some (ckp_envelope c).

Lemma commit_target_cases target c c' r : store_inv (ckp_world c) -> env_ExecutionID target = env_ExecutionID (ckp_envelope c) ->
  commit_target target c = (c', r) ->
  kept c c' /\ match r with
               | Ok e => ckp_envelope c' = e /\ env_ChildrenPayload e = env_ChildrenPayload target /\
                         store_head (ckp_world c') (env_ExecutionID e) = Some e
               | Err _ => ckp_envelope c' = ckp_envelope c
               end.
Proof.
  intros Hi Hid Hc. pose proof (commit_inv _ (env_Revision (ckp_envelope c)) (ckp_lease c) target Hi) as Hi'. unfold commit_target in Hc.
  destruct (store_commit _ _ _ _) as [w [e|err]] eqn:E; injection Hc as <- <-; [|done].
  apply commit_accepted in E as (_ & _ & Hseal & Hh); [|done]. pose proof (seal_Ok _ _ Hseal) as (b & _ & Es & _).
  assert (Ei : env_ExecutionID e = env_ExecutionID target) by (rewrite Es; by destruct target).
  split_and!; try done; [split_and!; [done..|]; simpl; unfold cloneExecutionEnvelope; by rewrite Ei|rewrite Es; by destruct target|by rewrite Ei].
Qed.

Lemma persistGroups_cases groups c c' r : store_inv (ckp_world c) -> persistChildGroupsLocked groups c = (c', r) ->
  kept c c' /\ match r with Ok _ => written groups c' | Err _ => ckp_envelope c' = ckp_envelope c end.
Proof.
  intros Hi Hp. unfold persistChildGroupsLocked, bind, lift, asking in Hp. unfold of_option in Hp.
  destruct (marshal groups) as [p|] eqn:Em; [|by injection Hp as <- <-].
  destruct (commit_target _ c) as [c1 [e|err]] eqn:Ec; injection Hp as <- <-; apply commit_target_cases in Ec as [Hk Hx]; try done.
  destruct Hx as (He & Hpay & Hh). split; [done|]. unfold written. rewrite He, Hpay. done.
Qed.

(** Reading back what was written. *)
Definition legible (e : ExecutionEnvelope) : Prop :=
  forall groups : gmap string ChildGroupRecord, marshal groups = Some (env_ChildrenPayload e) -> representable groups.
Lemma reads_back groups e gs : marshal groups = Some (env_ChildrenPayload e) -> legible e -> executionChildGroups e = Ok gs -> gs = groups.
Proof.
  intros Hm Hr Hg. unfold executionChildGroups in Hg. pose proof (marshal_nonempty _ _ Hm) as Hne. unfold no_bytes in Hg.
  rewrite bool_decide_eq_false_2 in Hg by done. rewrite (unmarshal_marshal _ _ (Hr _ Hm) Hm) in Hg.
  repeat (guard_in Hg; [done|]). destruct (validateChildGroupReferences _ _); [done|].
  destruct (validateChildCapacityLedger _); [done|]. by injection Hg as <-.
Qed.

(** One operation changes the group by [R], or nothing; other groups stay. *)
Definition regroups (R : ChildGroupRecord -> ChildGroupRecord -> Prop) (c c' : session) : Prop :=
  ckp_envelope c' = ckp_envelope c \/
  exists groups g, executionChildGroups (ckp_envelope c) = Ok groups /\ R (group_at groups identity) g /\
    marshal (<[identity := g]> groups) = Some (env_ChildrenPayload (ckp_envelope c')).

Lemma regroups_written R c c' groups g : executionChildGroups (ckp_envelope c) = Ok groups -> R (group_at groups identity) g ->
  written (<[identity := g]> groups) c' -> regroups R c c'.
Proof. intros Hg HR [Hm _]. right. by exists groups, g. Qed.

(** The invariants of a launch speak of the group the session reads. *)
Definition of_group (P : ChildGroupRecord -> Prop) (c : session) : Prop :=
  forall groups, executionChildGroups (ckp_envelope c) = Ok groups -> P (group_at groups identity).
Lemma regroups_of_group (R : ChildGroupRecord -> ChildGroupRecord -> Prop) (P P' : ChildGroupRecord -> Prop) c c' :
  regroups R c c' -> legible (ckp_envelope c') -> (forall g, P g -> P' g) -> (forall g g', R g g' -> P g -> P' g') ->
  of_group P c -> of_group P' c'.
Proof.
  intros [He|(groups & g & Hg & HR & Hm)] Hl Hs Hx HP gs Hgs.
  - rewrite He in Hgs. by apply Hs, HP.
  - apply (reads_back _ _ _ Hm Hl) in Hgs as ->. unfold group_at. rewrite lookup_insert_eq. cbn. by eapply Hx, HP.
Qed.

(** [beginChildLocked] commits the child as queued and then as running. *)
Definition begins (id : string) (g g' : ChildGroupRecord) : Prop :=
  exists q, queueChild id g = Ok q /\ (g' = q \/ exists incarnation, runChild id incarnation q = Ok g').

Lemma beginChild_cases id c c' r : store_inv (ckp_world c) -> beginChildLocked identity id c = (c', r) ->
  kept c c' /\ regroups (begins id) c c' /\
  match r with
  | Err _ => True
  | Ok invocation => exists groups q g child, executionChildGroups (ckp_envelope c) = Ok groups /\ queueChild id (group_at groups identity) = Ok q /\
      runChild id (lse_Incarnation (ckp_lease c)) q = Ok g /\ written (<[identity := g]> groups) c' /\
      child_named id g = Some child /\ invocation = invocation_of g child
  end.
Proof.
  intros Hi Hb. unfold beginChildLocked, bind, readGroups, lift, asking in Hb.
  destruct (executionChildGroups (ckp_envelope c)) as [groups|] eqn:Eg; cycle 1. { injection Hb as <- <-. split_and!; [done|by left|done]. }
  destruct (queueChild id (group_at groups identity)) as [q|] eqn:Eq; cycle 1. { injection Hb as <- <-. split_and!; [done|by left|done]. }
  match type of Hb with (match ?m c with _ => _ end = _) => destruct (m c) as [c1 r1] eqn:E1 end.
  assert (kept c c1 /\ regroups (begins id) c c1 /\ ckp_lease c1 = ckp_lease c) as (Hk & Hr & El).
  { assert (Hsame : kept c c /\ regroups (begins id) c c /\ ckp_lease c = ckp_lease c) by (split_and!; [done|by left|done]).
    destruct (child_named id _) as [child|]; [|by injection E1 as <- <-]. destruct (bool_decide _); [|by injection E1 as <- <-].
    apply persistGroups_cases in E1 as [Hk Hx]; [|done]. pose proof Hk as (_ & El & _). split_and!; [done| |done].
    destruct r1; [|by left]. eapply regroups_written; [done| |exact Hx]. exists q. auto. }
  destruct r1 as [?|]; [|by injection Hb as <- <-]. rewrite El in Hb.
  destruct (runChild id _ q) as [g|] eqn:Er; [|by injection Hb as <- <-].
  destruct (persistChildGroupsLocked _ c1) as [c2 r2] eqn:E2. apply persistGroups_cases in E2 as [Hk2 Hx]; [|by destruct Hk].
  pose proof (kept_session_trans _ _ _ Hk Hk2) as Hk3.
  assert (Hr2 : regroups (begins id) c c2).
  { destruct r2 as [?|].
    - eapply regroups_written; [done| |exact Hx]. exists q. split; [done|]. right. by exists (lse_Incarnation (ckp_lease c)).
    - destruct Hr as [Hr|(gs & g' & ? & ? & Hm)]; [left; congruence|right]. exists gs, g'. by rewrite Hx. }
  destruct r2 as [?|]; [|by injection Hb as <- <-].
  destruct (child_named id g) as [child|] eqn:En; injection Hb as <- <-; split_and!; try done. by exists groups, q, g, child.
Qed.

Definition finishes (invocation : ChildInvocation) (g g' : ChildGroupRecord) : Prop :=
  exists result dispatchErr incarnation, finishChild invocation result dispatchErr incarnation g = Ok g'.

Lemma finishChild_cases invocation outcome dispatchErr c c' r : store_inv (ckp_world c) ->
  finishChildLocked error_text identity invocation outcome dispatchErr c = (c', r) -> kept c c' /\ regroups (finishes invocation) c c'.
Proof.
  intros Hi Hf. unfold finishChildLocked, bind, readGroups, lift, asking in Hf.
  destruct (executionChildGroups (ckp_envelope c)) as [groups|] eqn:Eg; cycle 1. { injection Hf as <- <-. split; [done|by left]. }
  destruct (finishChild _ _ _ _ _) as [g|] eqn:Er; cycle 1. { injection Hf as <- <-. split; [done|by left]. }
  destruct (persistChildGroupsLocked _ c) as [c1 r1] eqn:E1. apply persistGroups_cases in E1 as [Hk Hx]; [|done].
  assert (regroups (finishes invocation) c c1) as Hr.
  { destruct r1; [|by left]. eapply regroups_written; [done| |exact Hx]. by eexists _, _, _. }
  destruct r1; [|by injection Hf as <- <-]. destruct (child_named _ g) as [child|]; [destruct (bool_decide _)|]; by injection Hf as <- <-.
Qed.

Definition cancels (g g' : ChildGroupRecord) : Prop :=
  grp_CancelRequest g = None /\ exists requestID reason revision incarnation now,
    requestChildCancellation requestID reason revision incarnation now g = Ok g'.

Lemma cancelChild_cases expected request c c' r : store_inv (ckp_world c) ->
  requestChildCancellationLocked identity expected request c = (c', r) -> kept c c' /\ regroups cancels c c'.
Proof.
  intros Hi Hf. assert (Hsame : kept c c /\ regroups cancels c c) by (split; [done|by left]).
  unfold requestChildCancellationLocked, bind, readGroups, lift, asking, reading in Hf.
  destruct (executionChildGroups (ckp_envelope c)) as [groups|] eqn:Eg; [|by injection Hf as <- <-].
  destruct (groups !! identity) as [group|] eqn:El; [|by injection Hf as <- <-].
  destruct (_ || _); [by injection Hf as <- <-|]. destruct (grp_CancelRequest group) eqn:En; cbn [is_nil negb] in Hf; [by injection Hf as <- <-|].
  pose proof (now_frame _ Hi) as [Hn _]. destruct (clock_Now (ckp_world c)) as [w now]. cbn [fst] in Hn.
  assert (Hw : kept c (c <| ckp_world := w |>) /\ regroups cancels c (c <| ckp_world := w |>)) by (split; [done|by left]).
  destruct (requestChildCancellation _ _ _ _ _ _) as [g|] eqn:Er; [|by injection Hf as <- <-].
  destruct (persistChildGroupsLocked _ _) as [c1 r1] eqn:E1. apply persistGroups_cases in E1 as [Hk Hx]; [|done].
  assert (Hk' : kept c c1) by done. destruct r1; injection Hf as <- <-; [|split; [done|by left]]. split; [done|].
  right. exists groups, g. split; [done|]. split; [|by destruct Hx]. unfold group_at. rewrite El. split; [done|]. by eexists _, _, _, _, _.
Qed.
End Session.

(** ** Reachable states of a launch *)
Section Launches.
Context {W : Type} `{HC : Codecs} `{HL : !LawfulCodecs} `{HS : ExecutionStore W} `{HK : !StoreContract W}.
Context (error_text : error -> string) (identity : string) (group : ChildGroupRecord).

(** Other owners of the store, the clock and the contexts may do what they like, as long as
    the store works; what is written is text that JSON can carry. *)
Definition world_moves (w w' : W) : Prop := store_inv w -> store_inv w'.
(** The states of a launch after [n] steps of the launcher. *)
Inductive launched : nat -> launchState W -> Prop :=
| launched_start c : store_inv (ckp_world c) -> launched 0 (startLaunch identity group c)
| launched_on n choice s s' : launched n s -> launcher identity group choice s = Some s' ->
    legible (ckp_envelope (lch_session s')) -> launched (S n) s'
| launched_beside n s s' : launched n s -> beside error_text world_moves identity s s' ->
    legible (ckp_envelope (lch_session s')) -> launched n s'.

Notation ids l := (map inv_ChildID l).
Definition recorded (started workers : list ChildInvocation) (g : ChildGroupRecord) : Prop :=
  Forall (launched_in g) (ids started) /\ Forall (running_in g) (ids workers).
Record launch_ok (s : launchState W) : Prop := mk_launch_ok {
  lo_inv : store_inv (ckp_world (lch_session s));
  lo_active : lch_active s = (len (lch_workers s) + len (lch_results s))%Z;
  lo_total : (lch_active s <= len (lch_started s))%Z;
  lo_bound : (lch_active s <= pln_MaxConcurrency (grp_Plan group))%Z \/ lch_active s = 0%Z;
  lo_ids : sublist (ids (lch_started s) ++ lch_next s) (launchableChildIDs group);
  lo_once : NoDup (ids (lch_started s));
  lo_workers : sublist (lch_workers s) (lch_started s);
  lo_busy : lch_phase s = Receiving -> lch_active s <> 0%Z;
  lo_recorded : of_group identity (recorded (lch_started s) (lch_workers s)) (lch_session s);
}.

Lemma start_ok c : store_inv (ckp_world c) -> launch_ok (startLaunch identity group c).
Proof.
  intros Hi. unfold startLaunch, childCancellationSignal. split; simpl; try done.
  - by destruct (grp_CancelRequested _).
  - by right.
  - constructor.
Qed.

(** A change of the phase alone. *)
Lemma phase_ok s phase : launch_ok s -> (phase = Receiving -> lch_active s <> 0%Z) -> launch_ok (s <| lch_phase := phase |>).
Proof. intros [] Hp. by split. Qed.

Lemma begins_others id g g' k : begins id g g' -> launched_in g k -> k <> id /\ child_named k g' = child_named k g.
Proof.
  intros (q & Hq & Hg) (c & Hc & Hn). apply queue_named in Hq as ((c0 & _ & H0 & Hw & _) & Hk & _).
  assert (k <> id) as Hne by (intros ->; congruence). split; [done|]. rewrite <- (Hk k Hne).
  destruct Hg as [->|(inc & Hr)]; [done|]. apply run_named in Hr as (_ & Hk' & _). by apply Hk'.
Qed.
Lemma same_launched g g' k : child_named k g' = child_named k g -> launched_in g k -> launched_in g' k.
Proof. intros E (c & Hc & Hn). exists c. by rewrite E. Qed.
Lemma same_running g g' k : child_named k g' = child_named k g -> running_in g k -> running_in g' k.
Proof. intros E (c & Hc & Hn). exists c. by rewrite E. Qed.

Lemma begins_recorded id g g' started workers : begins id g g' -> recorded started workers g -> recorded started workers g'.
Proof.
  intros Hb [H1 H2]. split; (eapply Forall_impl; [eassumption|]); intros k Hk; cbv beta in *.
  - destruct (begins_others _ _ _ _ Hb Hk) as [_ E]. by eapply same_launched.
  - destruct (begins_others _ _ _ _ Hb (running_launched _ _ Hk)) as [_ E]. by eapply same_running.
Qed.

Lemma named_id id g c : child_named id g = Some c -> csp_ID (chd_Spec c) = id.
Proof. unfold child_named. intros Hf. apply find_some in Hf as [_ Hf]. by apply bool_decide_eq_true in Hf. Qed.

Lemma admitNext_ok s : launch_ok s -> lch_phase s = Admitting -> legible (ckp_envelope (lch_session (admitNext identity group s))) ->
  launch_ok (admitNext identity group s).
Proof.
  intros Hs Hp Hl. destruct Hs as [Hi Ha Ht Hb Hids Ho Hw Hbusy Hr]. unfold admitNext in *.
  assert (Hout : launch_ok (if lch_active s == 0%Z then returned (childLaunchResult identity (lch_session s)) s else s <| lch_phase := Receiving |>)).
  { case_bool_decide; (apply phase_ok; [by split|]); [by destruct (childLaunchResult _ _)|done]. }
  destruct (lch_next s) as [|id rest] eqn:En; [exact Hout|]. destruct (Z.ltb_spec (lch_active s) (pln_MaxConcurrency (grp_Plan group))) as [Hlt|]; [|exact Hout].
  destruct (beginChildLocked identity id (lch_session s)) as [c [invocation|err]] eqn:Eb.
  all: apply beginChild_cases in Eb as (Hk & Hrg & Hx); [|done]; destruct Hk as (Hi' & _ & _).
  - destruct Hx as (groups & q & g & child & Hg & Hq & Hrun & Hwr & Hn & ->). pose proof (named_id _ _ _ Hn) as Hid.
    assert (Hbegin : begins id (group_at groups identity) g) by (exists q; split; [done|]; right; by exists (lse_Incarnation (ckp_lease (lch_session s)))).
    specialize (Hr _ Hg). assert (Hnew : id ∉ ids (lch_started s)).
    { intros Hin. destruct Hr as [Hr _]. rewrite Forall_forall in Hr. by destruct (begins_others _ _ _ _ Hbegin (Hr _ Hin)). }
    simpl in Hl. split; simpl; try done.
    + rewrite Ha. unfold len. rewrite length_app. simpl. lia.
    + unfold len in *. rewrite length_app. simpl. lia.
    + left. lia.
    + rewrite map_app. simpl. rewrite Hid, <- app_assoc. done.
    + rewrite map_app. simpl. rewrite Hid. apply NoDup_app. split_and!; [done|set_solver|apply NoDup_singleton].
    + by apply sublist_app.
    + by rewrite Hp.
    + intros gs Hgs. destruct Hwr as [Hm _]. apply (reads_back _ _ _ Hm Hl) in Hgs as ->. unfold group_at. rewrite lookup_insert_eq. cbn.
      apply (begins_recorded _ _ _ _ _ Hbegin) in Hr as [H1 H2]. apply run_named in Hrun as ((c' & Hc' & Hst & _) & _).
      assert (running_in g id) by (by exists c'). split; rewrite map_app; simpl; rewrite Hid; apply Forall_app; split; try done; apply Forall_singleton; [|done].
      by apply running_launched.
  - simpl in Hl. apply phase_ok; [|done]. split; simpl; try done.
    + etrans; [|exact Hids]. apply sublist_app; [done|]. by apply sublist_cons.
    + eapply regroups_of_group; [exact Hrg|done|done| |exact Hr]. intros g g' Hgg. by apply (begins_recorded id).
Qed.

Lemma receive_ok s result rest : launch_ok s -> lch_phase s = Receiving -> lch_results s = result :: rest ->
  launch_ok (receive identity group result (s <| lch_results := rest |> <| lch_active := (lch_active s - 1)%Z |>)).
Proof.
  intros Hs Hp Er. destruct Hs as [Hi Ha Ht Hb Hids Ho Hw Hbusy Hr]. rewrite Er in Ha. unfold len in Ha. simpl in Ha.
  assert (Hout : forall phase, phase <> Receiving -> launch_ok (s <| lch_results := rest |> <| lch_active := (lch_active s - 1)%Z |> <| lch_phase := phase |>)).
  { intros phase Hne. split; simpl; try done; [unfold len; lia|lia|left; specialize (Hbusy Hp); lia]. }
  unfold receive. destruct result; [by apply Hout|]. destruct (_ && _); by apply Hout.
Qed.

Lemma launcher_ok choice s s' : launch_ok s -> launcher identity group choice s = Some s' -> legible (ckp_envelope (lch_session s')) -> launch_ok s'.
Proof.
  intros Hs Hl Hg. unfold launcher in Hl. destruct (lch_phase s) eqn:Hp; [| | |done].
  - injection Hl as <-. destruct (signalled _ _); by apply phase_ok.
  - injection Hl as <-. by apply admitNext_ok.
  - destruct choice.
    + destruct (signalled _ _); [|done]. injection Hl as <-. by apply phase_ok.
    + destruct (ctx_Err _); [|done]. injection Hl as <-. by apply phase_ok.
    + destruct (lch_results s) as [|result rest] eqn:Er; [done|]. injection Hl as <-. by apply receive_ok.
Qed.

Lemma finishes_recorded invocation g g' started workers i : finishes invocation g g' -> NoDup (ids workers) -> workers !! i = Some invocation ->
  recorded started workers g -> recorded started (delete i workers) g'.
Proof.
  intros (result & dispatchErr & incarnation & Hf) Hn Hi [H1 H2]. apply finish_named in Hf as [Hid Hk]. split.
  - eapply Forall_impl; [exact H1|]. intros k Hl. destruct (decide (k = inv_ChildID invocation)) as [->|Hne]; [done|].
    eapply same_launched; [by apply Hk|done].
  - apply Forall_forall. intros k Hin. apply list_elem_of_fmap in Hin as (v & -> & Hin). rewrite Forall_forall in H2.
    apply list_elem_of_lookup in Hin as [j Hj]. rewrite list_lookup_delete in Hj.
    assert (exists j', workers !! j' = Some v /\ j' <> i) as (j' & Hj' & Hne) by (destruct (decide (j < i)); [exists j|exists (S j)]; split; [|lia|..|lia]; by rewrite ?decide_True, ?decide_False in Hj by lia).
    assert (Hin' : inv_ChildID v ∈ ids workers) by (apply list_elem_of_fmap_2, list_elem_of_lookup; by exists j').
    eapply same_running; [apply Hk|by apply H2]. intros E. apply Hne.
    eapply (NoDup_lookup (ids workers)); [done|by rewrite list_lookup_fmap, Hj'|by rewrite list_lookup_fmap, Hi; cbn; rewrite E].
Qed.

Lemma worker_ok i invocation outcome dispatchErr s : launch_ok s -> lch_workers s !! i = Some invocation ->
  legible (ckp_envelope (lch_session (finishWorker error_text identity i invocation outcome dispatchErr s))) ->
  launch_ok (finishWorker error_text identity i invocation outcome dispatchErr s).
Proof.
  intros Hs Hi Hl. destruct Hs as [Hinv Ha Ht Hb Hids Ho Hw Hbusy Hr]. unfold finishWorker in *.
  destruct (finishChildLocked _ _ _ _ _ _) as [c r] eqn:Ef. apply finishChild_cases in Ef as [(Hk & _ & _) Hx]; [|done]. simpl in Hl.
  split; simpl; try done.
  - rewrite Ha. unfold len. rewrite length_app, length_delete by done. simpl. apply lookup_lt_Some in Hi. lia.
  - etrans; [apply sublist_delete|done].
  - eapply regroups_of_group; [exact Hx|done| | |exact Hr].
    + intros g [H1 H2]. split; [done|]. rewrite Forall_forall in H2. apply Forall_forall. intros k Hin. apply H2.
      eapply elem_of_submseteq; [exact Hin|]. apply sublist_submseteq, (fmap_sublist inv_ChildID), sublist_delete.
    + intros g g' Hf Hg. eapply finishes_recorded; [done| |done|done]. by eapply sublist_NoDup, (fmap_sublist inv_ChildID).
Qed.

Lemma cancel_ok expected request s : launch_ok s ->
  let s' := s <| lch_session := (requestChildCancellationLocked identity expected request (lch_session s)).1 |> in
  legible (ckp_envelope (lch_session s')) -> launch_ok s'.
Proof.
  intros [Hinv Ha Ht Hb Hids Ho Hw Hbusy Hr]. cbv zeta. destruct (requestChildCancellationLocked _ _ _ _) as [c r] eqn:Ef. intros Hl. simpl in Hl.
  apply cancelChild_cases in Ef as [(Hk & _ & _) Hx]; [|done]. split; simpl; try done.
  eapply regroups_of_group; [exact Hx|done|done| |exact Hr]. intros g g' (Hn & rid & reason & rev & inc & now & Hc) [H1 H2].
  split; (eapply Forall_impl; [eassumption|]); intros k; by apply (cancel_named _ _ _ _ _ _ _ _ Hn Hc).
Qed.

Lemma launched_ok n s : launched n s -> launch_ok s.
Proof.
  induction 1 as [c Hi|n choice s s' _ IH Hst Hl|n s s' _ IH Hst Hl]; [by apply start_ok|by eapply launcher_ok|]. destruct Hst.
  - by apply worker_ok.
  - by apply cancel_ok.
  - destruct IH as [Hinv ? ? ? ? ? ? ? ?]. split; simpl; try done. by apply H.
Qed.

(** ** The guarantees *)
Lemma launchable_length : length (launchableChildIDs group) <= length (grp_Children group).
Proof.
  unfold launchableChildIDs. destruct (grp_CancelRequested group); simpl; [lia|]. rewrite length_map. apply List.filter_length_le.
Qed.

(** C20: bounded concurrency, at most once. In every reachable state at most [MaxConcurrency]
    dispatchers are at work; those and the completions not yet received fit the channel, so a
    goroutine never blocks when it sends, not even after the launcher has returned. Children
    are started in the order of the plan, none of them twice, and while a dispatcher works,
    the record of its child says running. *)
Theorem child_dispatch_bounded n s : launched n s ->
  (len (lch_workers s) + len (lch_results s) <= Z.max 0 (Z.min (pln_MaxConcurrency (grp_Plan group)) (len (grp_Children group))))%Z /\
  sublist (ids (lch_started s)) (launchableChildIDs group) /\ NoDup (ids (lch_started s)) /\ sublist (lch_workers s) (lch_started s) /\
  forall groups, executionChildGroups (ckp_envelope (lch_session s)) = Ok groups ->
    Forall (running_in (group_at groups identity)) (ids (lch_workers s)).
Proof.
  intros Hl. apply launched_ok in Hl as [_ Ha Ht Hb Hids Ho Hw _ Hr]. split_and!; [|etrans; [|exact Hids]; by apply sublist_inserts_r|done..|].
  - apply sublist_length in Hids. rewrite length_app, length_map in Hids. pose proof launchable_length as Hlen. unfold len in *. lia.
  - intros groups Hg. by apply Hr.
Qed.

(** C6: launches are written ahead. Whenever the launcher starts a dispatcher, the committed
    head of the execution is the envelope of the session, and its child groups record the
    child of that dispatcher as running under the lease of the session, with the revision and
    the execution identity it is called with. *)
Theorem child_dispatch_write_ahead n choice s s' : launched n s -> launcher identity group choice s = Some s' ->
  lch_started s' = lch_started s \/
  exists child groups, let c := lch_session s' in let g := group_at groups identity in
    lch_started s' = lch_started s ++ [invocation_of g child] /\ lch_workers s' = lch_workers s ++ [invocation_of g child] /\
    store_head (ckp_world c) (env_ExecutionID (ckp_envelope c)) = Some (ckp_envelope c) /\
    marshal groups = Some (env_ChildrenPayload (ckp_envelope c)) /\ child ∈ grp_Children g /\
    chd_State child = ChildRunning /\ chd_Incarnation child = lse_Incarnation (ckp_lease c) /\ grp_CancelRequested g = false.
Proof.
  intros Hl Hs. apply launched_ok in Hl as [Hi _ _ _ _ _ _ _ _]. unfold launcher in Hs.
  destruct (lch_phase s); [injection Hs as <-; left; by destruct (signalled _ _)| | |done].
  - injection Hs as <-. unfold admitNext. destruct (lch_next s) as [|id rest]; [left; by case_bool_decide|].
    destruct (_ <? _)%Z; [|left; by case_bool_decide]. destruct (beginChildLocked identity id (lch_session s)) as [c [invocation|err]] eqn:Eb; [|by left].
    apply beginChild_cases in Eb as ((_ & El & _) & _ & groups & q & g & child & _ & Hq & Hrun & [Hm Hh] & Hn & ->); [|done]. right.
    exists child, (<[identity := g]> groups). cbv zeta. unfold group_at. rewrite lookup_insert_eq. simpl.
    apply queue_named in Hq as (_ & _ & Hcr). apply run_named in Hrun as ((c' & Hc' & Hst & Hinc) & _ & Hcr').
    rewrite Hn in Hc'. injection Hc' as <-. split_and!; [done..| |done|congruence|congruence].
    unfold child_named in Hn. apply find_some in Hn as [Hin _]. by apply list_elem_of_In.
  - left. destruct choice.
    + destruct (signalled _ _); [|done]. by injection Hs as <-.
    + destruct (ctx_Err _); [|done]. by injection Hs as <-.
    + destruct (lch_results s) as [|r rest]; [done|]. injection Hs as <-. unfold receive. destruct r; [done|]. by destruct (_ && _).
Qed.

(** Nobody works for a group whose children have all ended. *)
Lemma result_settled s g : launch_ok s -> childLaunchResult identity (lch_session s) = (g, None) -> grp_Children g <> [] ->
  exists groups, executionChildGroups (ckp_envelope (lch_session s)) = Ok groups /\ g = group_at groups identity /\
    Forall (fun child => chd_State child = ChildCompleted \/ chd_State child = ChildFailed \/ chd_State child = ChildCanceled) (grp_Children g) /\
    lch_workers s = [].
Proof.
  intros Hs Hr Hne. unfold childLaunchResult in Hr. destruct (existsb _ _) eqn:Ex; [done|]. injection Hr as Hg. unfold currentGroup in Hg, Ex.
  destruct (executionChildGroups _) as [groups|] eqn:Eg; [|by subst g]. exists groups. rewrite Hg in Ex.
  assert (Hall : Forall (fun child => chd_State child = ChildCompleted \/ chd_State child = ChildFailed \/ chd_State child = ChildCanceled) (grp_Children g)).
  { apply Forall_forall. intros child Hin. destruct (decide (chd_State child = ChildCompleted)); [auto|]. destruct (decide (chd_State child = ChildFailed)); [auto|].
    destruct (decide (chd_State child = ChildCanceled)); [auto|]. exfalso. enough (true = false) by done. rewrite <- Ex. symmetry. apply existsb_exists.
    exists child. split; [by apply list_elem_of_In|]. by rewrite !bool_decide_eq_false_2. }
  split_and!; [done|done|done|]. destruct (lch_workers s) as [|w l] eqn:Ew; [done|]. exfalso.
  destruct (lo_recorded _ Hs _ Eg) as [_ Hrun]. rewrite Ew in Hrun. apply Forall_cons in Hrun as [(child & Hc & Hst) _].
  unfold child_named in Hc. apply find_some in Hc as [Hin _]. apply list_elem_of_In in Hin. rewrite Hg in Hin.
  rewrite Forall_forall in Hall. destruct (Hall _ Hin) as [H|[H|H]]; congruence.
Qed.

(** C21: a launch that succeeds is settled. When the launcher returns a group with children and
    no error, it is the group of the last commit the session made, every child of it is
    completed, failed or canceled, and no dispatcher is at work. *)
Theorem child_launch_settled n choice s s' g : launched n s -> launcher identity group choice s = Some s' ->
  lch_phase s' = Returned g None -> grp_Children g <> [] ->
  exists groups, executionChildGroups (ckp_envelope (lch_session s')) = Ok groups /\ g = group_at groups identity /\
    Forall (fun child => chd_State child = ChildCompleted \/ chd_State child = ChildFailed \/ chd_State child = ChildCanceled) (grp_Children g) /\
    lch_workers s' = [].
Proof.
  intros Hl Hs Hp Hne. apply launched_ok in Hl. unfold launcher in Hs.
  assert (Hres : forall r, r = childLaunchResult identity (lch_session s) -> s' = returned r s -> childLaunchResult identity (lch_session s) = (g, None)).
  { intros r Hr ->. rewrite <- Hr. destruct r. simpl in Hp. by injection Hp as -> ->. }
  destruct (lch_phase s) eqn:Ep; [| | |done].
  - injection Hs as Hs. destruct (signalled _ _); [|by subst s']. specialize (Hres _ eq_refl (eq_sym Hs)). subst s'. exact (result_settled s g Hl Hres Hne).
  - injection Hs as Hs. unfold admitNext in Hs.
    assert (Hout : s' = (if lch_active s == 0%Z then returned (childLaunchResult identity (lch_session s)) s else s <| lch_phase := Receiving |>) ->
      childLaunchResult identity (lch_session s) = (g, None) /\ lch_session s' = lch_session s /\ lch_workers s' = lch_workers s).
    { intros ->. case_bool_decide; [|done]. by specialize (Hres _ eq_refl eq_refl). }
    destruct (lch_next s) as [|id rest]; [|destruct (_ <? _)%Z].
    + destruct (Hout (eq_sym Hs)) as (H1 & -> & ->). exact (result_settled s g Hl H1 Hne).
    + destruct (beginChildLocked _ _ _) as [c [invocation|err]]; subst s'; [simpl in Hp; congruence|done].
    + destruct (Hout (eq_sym Hs)) as (H1 & -> & ->). exact (result_settled s g Hl H1 Hne).
  - destruct choice.
    + destruct (signalled _ _); [|done]. injection Hs as Hs. specialize (Hres _ eq_refl (eq_sym Hs)). subst s'. exact (result_settled s g Hl Hres Hne).
    + destruct (ctx_Err _); [|done]. by injection Hs as <-.
    + destruct (lch_results s) as [|r rest]; [done|]. injection Hs as <-. unfold receive in Hp. destruct r; [done|]. by destruct (_ && _).
Qed.

(** What is left to do for the launcher. *)
Definition launch_measure (s : launchState W) : Z :=
  4 * len (lch_next s) + 3 * lch_active s +
  match lch_phase s with AtTop => 3 | Admitting => 2 | Receiving => 1 | Returned _ _ => 0 end.

Lemma launcher_decreases choice s s' : launch_ok s -> launcher identity group choice s = Some s' -> (launch_measure s' < launch_measure s)%Z.
Proof.
  intros Hs Hl. pose proof (lo_active _ Hs) as Ha. unfold launcher in Hl. unfold launch_measure, len in *. destruct (lch_phase s) eqn:Hp; [| | |done].
  - injection Hl as <-. destruct (signalled _ _); simpl; lia.
  - injection Hl as <-. unfold admitNext. destruct (lch_next s) as [|id rest] eqn:En.
    { case_bool_decide; simpl; rewrite En; simpl; lia. }
    destruct (_ <? _)%Z; [|case_bool_decide; simpl; rewrite En; simpl; lia].
    destruct (beginChildLocked _ _ _) as [c [invocation|err]]; simpl; rewrite ?Hp; lia.
  - destruct choice.
    + destruct (signalled _ _); [|done]. injection Hl as <-. simpl. lia.
    + destruct (ctx_Err _); [|done]. injection Hl as <-. simpl. lia.
    + destruct (lch_results s) as [|r rest]; [done|]. injection Hl as <-. unfold receive. destruct r; [simpl; lia|]. destruct (_ && _); simpl; lia.
Qed.

Lemma beside_measure s s' : beside error_text world_moves identity s s' -> launch_measure s' = launch_measure s.
Proof. intros Hb. destruct Hb; try done. unfold finishWorker. by destruct (finishChildLocked _ _ _ _ _ _). Qed.

(** C22: a launch ends. The launcher takes at most four steps for each child and three more,
    whatever dispatchers, cancellations and the store do; and until it has returned it can
    always take a step, or it waits for a dispatcher that is at work and whose end it will
    receive. *)
Theorem child_launch_completes n s : launched n s ->
  (Z.of_nat n + launch_measure s <= 4 * len (grp_Children group) + 3)%Z /\ (0 <= launch_measure s)%Z /\
  ((exists g err, lch_phase s = Returned g err) \/ (exists choice s', launcher identity group choice s = Some s') \/ lch_workers s <> []).
Proof.
  intros Hl. pose proof (launched_ok _ _ Hl) as Hs. split_and!.
  - clear Hs. induction Hl as [c Hi|n choice s s' Hl IH Hst _|n s s' Hl IH Hst _].
    + unfold launch_measure. simpl. pose proof launchable_length. unfold len. lia.
    + apply launched_ok in Hl. pose proof (launcher_decreases _ _ _ Hl Hst). lia.
    + by rewrite (beside_measure _ _ Hst).
  - pose proof (lo_active _ Hs). unfold launch_measure, len in *. destruct (lch_phase s); lia.
  - destruct (lch_phase s) as [| | |g err] eqn:Hp; [right; left; exists TakeDone; unfold launcher; rewrite Hp; by eexists..| |left; by exists g, err].
    right. destruct (lch_results s) as [|r rest] eqn:Er.
    + right. intros Hw. apply (lo_busy _ Hs Hp). rewrite (lo_active _ Hs), Er, Hw. done.
    + left. exists TakeResult. unfold launcher. rewrite Hp, Er. by eexists.
Qed.
End Launches.
