(* ===== verification/LaunchExample.v ===== *)
(** * A closed launch

    The group of ChildrenInv.v under a session whose store keeps one execution: child "a" is
    queued, the launcher starts it, and a group whose children have all completed is returned
    at once. The three groups that occur are the representable ones of the codec. *)

From S2P Require Import Prelude Go Sha256 Json Identity Schedule Activity Waits Contract Children ChildrenInv Wire Migration Integrity Aggregate WireRecords Session ActivityCall ActivityExample Checkpointer Launch LaunchInv.

#[local] Opaque sha256_hex.
#[local] Opaque childExecutionIdentity.
#[local] Arguments validRuntimeText : simpl never.
#[local] Arguments max_uint64 : simpl never.

(** ** The codec *)
Definition group_id : string := groupIdentity group_example.
(** Child "a" has completed; child "b" is in a state. *)
Definition b_in (state : ChildState) (revision incarnation : N) (result : string) : ChildGroupRecord :=
  group_example <| grp_Children := [completed_child; (example_child group_example 1) <| chd_State := state |> <| chd_Revision := revision |>
                                      <| chd_Incarnation := incarnation |> <| chd_Result := result |>] |>.
Definition group_done : ChildGroupRecord := b_in ChildCompleted 3 4 "out".
Notation alone g := ({[group_id := g]} : gmap string ChildGroupRecord).

Definition table_codec : JsonCodec (gmap string ChildGroupRecord) := {|
  marshal groups := if groups == alone group_queued then Some "q" else if groups == alone group_running then Some "r"
                    else if groups == alone group_done then Some "d" else None;
  unmarshal text := if text == "q" then Some (Some (alone group_queued)) else if text == "r" then Some (Some (alone group_running))
                    else if text == "d" then Some (Some (alone group_done)) else None
|}.
Definition states_of (g : ChildGroupRecord) : list ChildState := map chd_State (grp_Children g).
Lemma table_groups g g' : states_of g <> states_of g' -> alone g <> alone g'.
Proof. intros Hne He. apply Hne. apply (f_equal (lookup group_id)) in He. rewrite !lookup_singleton_eq in He. injection He as He. by rewrite He. Qed.
Lemma table_marshal : @marshal _ table_codec (alone group_queued) = Some "q" /\ @marshal _ table_codec (alone group_running) = Some "r" /\
  @marshal _ table_codec (alone group_done) = Some "d".
Proof.
  cbn [marshal table_codec].
  split_and!; [by rewrite bool_decide_eq_true_2| |]; (rewrite bool_decide_eq_false_2; [|by apply table_groups]).
  - by rewrite bool_decide_eq_true_2.
  - rewrite bool_decide_eq_false_2; [|by apply table_groups]. by rewrite bool_decide_eq_true_2.
Qed.
Lemma table_inverse groups text : @marshal _ table_codec groups = Some text -> text <> "" /\ @unmarshal _ table_codec text = Some (Some groups).
Proof.
  cbn [marshal table_codec]. destruct (bool_decide_reflect (groups = alone group_queued)) as [->|_]; [by intros [= <-]|].
  destruct (bool_decide_reflect (groups = alone group_running)) as [->|_]; [by intros [= <-]|].
  destruct (bool_decide_reflect (groups = alone group_done)) as [->|_]; by intros [= <-].
Qed.
#[local] Instance table_codecs : Codecs := Build_Codecs wire_codec wire_codec table_codec wire_codec wire_codec wire_codec.
#[local] Instance table_lawful : LawfulCodecs.
Proof.
  constructor; [apply wire_roundtrip|apply wire_roundtrip| |apply wire_roundtrip].
  refine {| representable groups := exists text, marshal groups = Some text |}; [exact (fun _ H => H)| |];
    intros groups text; [|intros _]; intros Hm; by apply table_inverse in Hm as [? ?].
Defined.

(** ** A store of one execution *)
Definition one_execution : Type := option ExecutionEnvelope.
Definition execution_head (w : one_execution) (id : string) : option ExecutionEnvelope :=
  match w with Some e => if env_ExecutionID e == id then Some e else None | None => None end.
#[local] Instance one_store : ExecutionStore one_execution := {|
  store_load w id := (w, of_option (execution_head w id) ErrThreadNotFound);
  store_commit w revision lease e :=
    if (env_ExecutionID e == lse_ExecutionID lease) && (default 0%N (env_Revision <$> execution_head w (env_ExecutionID e)) == revision) then
      match SealExecutionEnvelope (e <| env_Revision := (revision + 1)%N |>) with
      | Ok committed => (Some committed, Ok committed)
      | Err err => (w, Err err)
      end
    else (w, Err ErrConcurrencyConflict);
  store_acquire w id owner ttl := (w, Err ErrLeaseHeld);
  store_release w lease := (w, None);
  store_head := execution_head;
  clock_Now w := (w, time_zero);
  ctx_Err w := None;
  retry_random w := (w, None);
|}.
#[local] Instance one_contract : StoreContract one_execution.
Proof.
  refine {| store_inv w := True |}; try done.
  - intros w w' revision lease e committed _ Hc. cbn [store_commit one_store] in Hc. destruct (_ && _) eqn:Eg; [|done].
    apply andb_true_iff in Eg as [H1%bool_decide_eq_true H2%bool_decide_eq_true]. destruct (SealExecutionEnvelope _) as [x|] eqn:Es; [|done].
    injection Hc as <- <-. split_and!; [done|done|done|]. pose proof (seal_Ok _ _ Es) as (b & _ & Ex & _).
    cbn [store_head one_store execution_head]. rewrite bool_decide_eq_true_2; [done|]. rewrite Ex. by destruct e.
  - intros w w' revision lease e err _ Hc. left. cbn [store_commit one_store] in Hc. destruct (_ && _); [|by injection Hc as <- <-].
    destruct (SealExecutionEnvelope _); [done|]. by injection Hc as <- <-.
  - intros w w' id e _ Hl. cbn [store_load one_store] in Hl. injection Hl as <- Hl. unfold of_option in Hl.
    destruct (execution_head w id) eqn:Eh; [|done]. injection Hl as <-. done.
Defined.

(** ** The sessions *)
Definition lease_four : ExecutionLease := mkLease "x" "o" 4 (mkTime 9 UTC).
Definition holding (payload : string) : executionCheckpointer one_execution :=
  let e := envelope_example <| env_Revision := 9%N |> <| env_ChildrenPayload := payload |> in
  mkCheckpointer (Some e) lease_four e 9 false [].

Lemma ran_valid r g : group_run (1%N, group_example) (r, g) -> (r <= 9)%N -> validChildGroupProvenance g 9 = true.
Proof.
  intros Hrun Hr. destruct (group_plan_valid _ _ _ _ _ _ group_example_planned) as [Hv Hp].
  destruct (run_invariant _ _ Hrun Hv (Hp 1%N)) as [_ Hp']. by apply (prov_mono _ r).
Qed.
Lemma ran_checks r g : group_run (1%N, group_example) (r, g) -> validateChildGroup g = None.
Proof.
  intros Hrun. destruct (group_plan_valid _ _ _ _ _ _ group_example_planned) as [Hv Hp].
  destruct (run_invariant _ _ Hrun Hv (Hp 1%N)) as [Hv' _]. by apply validateChildGroup_iff in Hv' as [? _].
Qed.

Lemma holding_reads text r g : @unmarshal _ (@codec_groups table_codecs) text = Some (Some (alone g)) -> text <> "" -> ValidString text = true ->
  group_run (1%N, group_example) (r, g) -> (r <= 9)%N -> groupIdentity g = group_id -> grp_ParentID g = "x" -> grp_Activation g = 1%N ->
  pln_Key (grp_Plan g) = "k" -> recordedOutcomes (alone g) = [] -> is_nil (ledgerGroups ∅ [g]) = false ->
  executionChildGroups (ckp_envelope (holding text)) = Ok (alone g).
Proof.
  intros Hu Hne Hv Hrun Hr Hid Hp Ha Hk Ho Hl. unfold executionChildGroups. change (env_ChildrenPayload (ckp_envelope (holding text))) with text.
  unfold no_bytes. rewrite bool_decide_eq_false_2 by exact Hne. rewrite Hv. cbn [negb]. rewrite Hu. unfold validChildOutcomeDecisionIDs. rewrite Ho.
  cbn [map noDuplicates negb]. pose proof (ran_checks _ _ Hrun) as Hc.
  assert (map_all (validGroupEntry (ckp_envelope (holding text))) (alone g) = true) as ->.
  { apply map_all_true, map_Forall_singleton. unfold validGroupEntry. change (env_Revision _) with 9%N.
    rewrite (ran_valid _ _ Hrun Hr), Hid, Hp, Ha, Hc, (bool_decide_eq_true_2 (group_id = group_id)) by reflexivity. reflexivity. }
  assert (validateChildGroupReferences (ckp_envelope (holding text)) (alone g) = None) as ->.
  { unfold validateChildGroupReferences. change (prg_ChildGroupReferences _) with (∅ : gmap string string). rewrite map_all_empty. cbn [negb].
    assert (map_all (fun _ g => negb (negb (joinedGroup g) && negb (currentChildGroup (ckp_envelope (holding text)) g))) (alone g) = true) as ->; [|reflexivity].
    apply map_all_true, map_Forall_singleton. unfold currentChildGroup. rewrite Hp, Ha, Hid, Hk.
    rewrite (bool_decide_eq_true_2 (boundChildGroupIdentity _ _ = _)) by reflexivity. destruct (joinedGroup g); reflexivity. }
  unfold validateChildCapacityLedger, range. rewrite map_to_list_singleton. cbn [map snd]. rewrite Hl. reflexivity.
Qed.

Lemma queued_reads : executionChildGroups (ckp_envelope (holding "q")) = Ok (alone group_queued).
Proof.
  apply (holding_reads _ 2); try reflexivity; try done.
  apply (run_step _ 1 group_example); [constructor|lia|]. by apply (step_queue _ _ _ "a").
Qed.
Lemma done_reads : executionChildGroups (ckp_envelope (holding "d")) = Ok (alone group_done).
Proof.
  apply (holding_reads _ 7); try reflexivity; try done.
  apply (run_step _ 6 (b_in ChildRunning 2 4 "")); [|lia|].
  - apply (run_step _ 5 (b_in ChildQueued 1 0 "")); [|lia|].
    + apply (run_step _ 4 group_completed); [apply group_example_run|lia|]. by apply (step_queue _ _ _ "b").
    + by apply (step_run _ group_completed _ _ "b" 4).
  - by apply (step_finish _ _ _ (mkInvocation "x" "k" "b" "" 2 "" ∅) (mkChildResult ChildCompleted "out" "" "") None 4).
Qed.

(** ** The launch *)
Definition launching : launchState one_execution := startLaunch group_id group_queued (holding "q").
Definition invocation_a : ChildInvocation := invocation_of group_running (example_child group_running 0).
Definition running_envelope : ExecutionEnvelope :=
  let e := envelope_example <| env_Revision := 10%N |> <| env_ChildrenPayload := "r" |> in
  e <| env_Digest := sha256_hex (String "w" (put (e <| env_Digest := "" |>))) |>.
Definition session_running : executionCheckpointer one_execution :=
  mkCheckpointer (Some running_envelope) lease_four running_envelope 9 false [].

Lemma group_alone g : group_at (alone g) group_id = g.
Proof. unfold group_at. by rewrite lookup_singleton_eq. Qed.

Lemma begins_a : beginChildLocked group_id "a" (holding "q") = (session_running, Ok invocation_a).
Proof.
  unfold beginChildLocked, bind, readGroups, lift, asking. rewrite queued_reads, group_alone.
  change (queueChild "a" group_queued) with (Ok group_queued : res ChildGroupRecord). cbv iota beta.
  change (child_named "a" group_queued) with (Some (example_child group_queued 0)). cbv iota beta.
  change (chd_State (example_child group_queued 0) == ChildPlanned) with false. cbv iota. unfold ret. cbv iota beta.
  change (runChild "a" (lse_Incarnation (ckp_lease (holding "q"))) group_queued) with (Ok group_running : res ChildGroupRecord). cbv iota beta.
  rewrite insert_singleton_eq. unfold persistChildGroupsLocked, bind, lift, asking.
  pose proof table_marshal as (_ & Hm & _). change table_codec with (@codec_groups table_codecs) in Hm. rewrite Hm. reflexivity.
Qed.

Lemma any_legible e : legible e.
Proof. intros groups Hm. by eexists. Qed.
Definition admitting : launchState one_execution := launching <| lch_phase := Admitting |>.
Definition dispatching : launchState one_execution :=
  mkLaunch session_running ["b"] 1 [] [invocation_a] [invocation_a] Admitting.

Lemma not_signalled : childCancellationSignal group_id (holding "q") = holding "q".
Proof. unfold childCancellationSignal, currentGroup. by rewrite queued_reads, group_alone. Qed.
Lemma launching_step : launcher group_id group_queued TakeDone launching = Some admitting.
Proof.
  unfold launcher. change (lch_phase launching) with AtTop. cbv iota.
  assert (signalled group_id (lch_session launching) = false) as ->; [|reflexivity].
  unfold launching, startLaunch. cbn [lch_session]. rewrite not_signalled. reflexivity.
Qed.
Lemma admitting_step : launcher group_id group_queued TakeDone admitting = Some dispatching.
Proof.
  unfold launcher, admitting, launching, startLaunch. rewrite not_signalled. change (launchableChildIDs group_queued) with ["a"; "b"].
  unfold admitNext. cbn [lch_phase lch_next lch_active upd].
  change (0 <? pln_MaxConcurrency (grp_Plan group_queued))%Z with true. cbn [lch_session]. rewrite begins_a. reflexivity.
Qed.
Lemma admitting_launched : launched text_of group_id group_queued 1 admitting.
Proof. eapply launched_on; [by apply launched_start|apply launching_step|apply any_legible]. Qed.
Lemma dispatching_launched : launched text_of group_id group_queued 2 dispatching.
Proof. eapply launched_on; [apply admitting_launched|apply admitting_step|apply any_legible]. Qed.

Lemma child_dispatch_bounded_witness : (len (lch_workers dispatching) + len (lch_results dispatching) <= 1)%Z /\ NoDup (map inv_ChildID (lch_started dispatching)).
Proof.
  destruct (child_dispatch_bounded text_of group_id group_queued 2 dispatching) as (H1 & _ & H2 & _); [apply dispatching_launched|].
  split; [exact H1|exact H2].
Defined.

Lemma child_dispatch_write_ahead_witness : exists child groups,
  lch_started dispatching = [] ++ [invocation_of (group_at groups group_id) child] /\ chd_State child = ChildRunning /\
  store_head (ckp_world (lch_session dispatching)) "x" = Some (ckp_envelope (lch_session dispatching)).
Proof.
  destruct (child_dispatch_write_ahead text_of group_id group_queued 1 TakeDone admitting dispatching) as [H|(child & groups & H1 & _ & H2 & _ & _ & H3 & _)];
    [apply admitting_launched|apply admitting_step|discriminate H|].
  exists child, groups. split; [exact H1|]. split; [exact H3|exact H2].
Defined.

Lemma child_launch_completes_witness : (2 + launch_measure dispatching <= 11)%Z /\ (0 <= launch_measure dispatching)%Z.
Proof.
  destruct (child_launch_completes text_of group_id group_queued 2 dispatching) as (H1 & H2 & _); [apply dispatching_launched|].
  split; [exact H1|exact H2].
Defined.

(** A group that is settled already. *)
Definition settled_start : launchState one_execution := startLaunch group_id group_done (holding "d").
Definition settled_admitting : launchState one_execution := settled_start <| lch_phase := Admitting |>.
Lemma settled_session : lch_session settled_start = holding "d".
Proof. unfold settled_start, startLaunch, childCancellationSignal, currentGroup. cbn [lch_session]. by rewrite done_reads, group_alone. Qed.
Lemma settled_launched : launched text_of group_id group_done 1 settled_admitting.
Proof.
  eapply (launched_on _ _ _ 0 TakeDone); [by apply (launched_start _ _ _ (holding "d"))| |apply any_legible].
  unfold launcher. change (lch_phase (startLaunch group_id group_done (holding "d"))) with AtTop. cbv iota.
  assert (signalled group_id (lch_session (startLaunch group_id group_done (holding "d"))) = false) as ->; [|reflexivity].
  change (startLaunch group_id group_done (holding "d")) with settled_start. rewrite settled_session. reflexivity.
Qed.
Lemma settled_result : childLaunchResult group_id (lch_session settled_admitting) = (group_done, None).
Proof.
  change (lch_session settled_admitting) with (lch_session settled_start). rewrite settled_session.
  unfold childLaunchResult, currentGroup. rewrite done_reads, group_alone. reflexivity.
Qed.
Lemma settled_step : launcher group_id group_done TakeDone settled_admitting = Some (returned (group_done, None) settled_admitting).
Proof.
  unfold launcher. change (lch_phase settled_admitting) with Admitting. cbv iota. unfold admitNext.
  change (lch_next settled_admitting) with (@nil string). cbv iota. change (lch_active settled_admitting == 0%Z) with true. cbv iota.
  by rewrite settled_result.
Qed.
Lemma child_launch_settled_witness : lch_workers (returned (group_done, None) settled_admitting) = [].
Proof.
  destruct (child_launch_settled text_of group_id group_done 1 TakeDone settled_admitting (returned (group_done, None) settled_admitting) group_done)
    as (groups & _ & _ & _ & Hw); [apply settled_launched|apply settled_step|reflexivity|discriminate|exact Hw].
Defined.
