(* ===== verification/Graph.v ===== *)
(** * The graph builder and the compiled graph

    builder.go, options.go, middleware.go and the routing functions of runner_execution.go
    ([resolveEdge], [validateExecutionPointer]). Handlers and routers are host code: they run
    in a state [X] (the runner's session and the world around it) and return a result. The
    budget counters of a run are a map that the handler shares with the runner through its
    context, so a handler takes them and returns them.

    [Compile] joins all the errors it finds, sorted by text; here they are values of
    [compileError] in the order they are found. *)

From S2P Require Import Prelude Go Sha256 Json Identity Schedule Activity Waits Contract Children Aggregate Runtime.

Definition EndNode : string := "__end__".

Definition Node (X T E : Type) : Type := T -> gmap string Z -> X -> X * (gmap string Z * res (T * Directive E)).
Definition NodeMiddleware (X T E : Type) : Type := Node X T E -> Node X T E.
Definition EdgeRouter (X T : Type) : Type := T -> X -> X * res string.
Definition Reducer (T : Type) : Type := T -> T -> T.

Record conditionalEdgeDef (X T : Type) := mkConditional { ced_router : option (EdgeRouter X T); ced_allowed : gset string }.
Arguments mkConditional {X T} _ _.
Arguments ced_router {X T} _.
Arguments ced_allowed {X T} _.

(** ** Options *)
Record runConfig := mkRunConfig {
  rcf_maxSteps : Z; rcf_deleteOnSuccess : bool; rcf_retentionLimit : Z; rcf_budgetLimits : gmap string Z;
}.
#[export] Instance eta_runConfig : Eta runConfig := fun c =>
  mkRunConfig (rcf_maxSteps c) (rcf_deleteOnSuccess c) (rcf_retentionLimit c) (rcf_budgetLimits c).
Definition defaultMaxSteps : Z := 1000.
Definition BuildOption : Type := runConfig -> runConfig.
Definition WithMaxSteps (limit : Z) : BuildOption := fun o => o <| rcf_maxSteps := limit |>.
Definition WithNamedBudget (name : string) (limit : Z) : BuildOption := fun o =>
  o <| rcf_budgetLimits := <[name := limit]> (rcf_budgetLimits o) |>.
Definition WithDeleteOnSuccess (enabled : bool) : BuildOption := fun o => o <| rcf_deleteOnSuccess := enabled |>.
Definition WithRetentionLimit (limit : Z) : BuildOption := fun o => o <| rcf_retentionLimit := limit |>.
Definition applyBuildOptions (opts : list BuildOption) : runConfig :=
  let o := fold_left (fun o opt => opt o) opts (mkRunConfig defaultMaxSteps false 0 ∅) in
  if (rcf_maxSteps o <=? 0)%Z then o <| rcf_maxSteps := defaultMaxSteps |> else o.

(** ** The builder *)
Record GraphBuilder (X T E : Type) := mkBuilder {
  bld_reducer : option (Reducer T);
  bld_nodes : gmap string (option (Node X T E));
  bld_edges : gmap string string;
  bld_conditionalEdges : gmap string (conditionalEdgeDef X T);
  bld_retryRoutes : gmap string string;
  bld_middlewares : list (option (NodeMiddleware X T E));
  bld_entryPoint : string;
  bld_overwrittenNodes : gset string;
  bld_overwrittenEdgeFrom : gset string;
  bld_overwrittenRouterFrom : gset string;
  bld_overwrittenRetryFrom : gset string;
  bld_noOutgoingRoute : gset string;
}.
Arguments mkBuilder {X T E} _ _ _ _ _ _ _ _ _ _ _ _.
Arguments bld_reducer {X T E} _.
Arguments bld_nodes {X T E} _.
Arguments bld_edges {X T E} _.
Arguments bld_conditionalEdges {X T E} _.
Arguments bld_retryRoutes {X T E} _.
Arguments bld_middlewares {X T E} _.
Arguments bld_entryPoint {X T E} _.
Arguments bld_overwrittenNodes {X T E} _.
Arguments bld_overwrittenEdgeFrom {X T E} _.
Arguments bld_overwrittenRouterFrom {X T E} _.
Arguments bld_overwrittenRetryFrom {X T E} _.
Arguments bld_noOutgoingRoute {X T E} _.
#[export] Instance eta_GraphBuilder {X T E} : Eta (GraphBuilder X T E) := fun b =>
  mkBuilder (bld_reducer b) (bld_nodes b) (bld_edges b) (bld_conditionalEdges b) (bld_retryRoutes b) (bld_middlewares b)
    (bld_entryPoint b) (bld_overwrittenNodes b) (bld_overwrittenEdgeFrom b) (bld_overwrittenRouterFrom b)
    (bld_overwrittenRetryFrom b) (bld_noOutgoingRoute b).

Record Graph (X T E : Type) := mkGraph {
  gph_nodes : gmap string (Node X T E);
  gph_edges : gmap string string;
  gph_conditionalEdges : gmap string (EdgeRouter X T);
  gph_conditionalAllowed : gmap string (gset string);
  gph_retryRoutes : gmap string string;
  gph_entryPoint : string;
  gph_reducer : Reducer T;
  gph_defaults : runConfig;
}.
Arguments mkGraph {X T E} _ _ _ _ _ _ _ _.
Arguments gph_nodes {X T E} _.
Arguments gph_edges {X T E} _.
Arguments gph_conditionalEdges {X T E} _.
Arguments gph_conditionalAllowed {X T E} _.
Arguments gph_retryRoutes {X T E} _.
Arguments gph_entryPoint {X T E} _.
Arguments gph_reducer {X T E} _.
Arguments gph_defaults {X T E} _.

Inductive compileError :=
| NodeRegisteredTwice (name : string) | EdgeRegisteredTwice (from : string) | ConditionalRegisteredTwice (from : string)
| RetryRegisteredTwice (from : string) | NilReducer | EntryPointNotSet | EntryPointUnknown (name : string)
| EmptyNodeName | NodeNotRegistered (name : string) | ReservedNode (name : string) | NilHandler (name : string) | NilRouter (from : string)
| AllowedTargetsRequired (from : string) | UnknownAllowedTarget (from target : string)
| RetrySourceUnknown (from : string) | EmptyFallback (from : string) | UnknownFallback (from fallback : string)
| EdgeAndConditional (from : string) | NoOutgoingRoute (name : string)
| ExemptWithEdge (name : string) | ExemptWithConditional (name : string) | ExemptUnknown (name : string) | RetryNotExempt (from : string).

(** The error lists of [for k, v := range m] and [for k := range set]. *)
Definition map_errors {V} (f : string -> V -> list compileError) (m : gmap string V) : list compileError :=
  flat_map (fun kv => f kv.1 kv.2) (range m).
Definition set_errors (f : string -> list compileError) (s : gset string) : list compileError := flat_map f (base.elements s).
Definition when (b : bool) (e : compileError) : list compileError := if b then [e] else [].
Definition present {V} (m : gmap string V) (k : string) : bool := negb (is_nil (m !! k)).

Section Builder.
Context {X T E : Type}.
Implicit Types (b : GraphBuilder X T E).

Definition NewGraph (reducer : option (Reducer T)) : GraphBuilder X T E := mkBuilder reducer ∅ ∅ ∅ ∅ [] "" ∅ ∅ ∅ ∅ ∅.
Definition AllowNoOutgoingRoute b (name : string) : GraphBuilder X T E := b <| bld_noOutgoingRoute := {[name]} ∪ bld_noOutgoingRoute b |>.
Definition AddNode b (name : string) (fn : option (Node X T E)) : GraphBuilder X T E :=
  let b := if present (bld_nodes b) name then b <| bld_overwrittenNodes := {[name]} ∪ bld_overwrittenNodes b |> else b in
  b <| bld_nodes := <[name := fn]> (bld_nodes b) |>.
Definition AddEdge b (from to : string) : GraphBuilder X T E :=
  let b := if present (bld_edges b) from then b <| bld_overwrittenEdgeFrom := {[from]} ∪ bld_overwrittenEdgeFrom b |> else b in
  b <| bld_edges := <[from := to]> (bld_edges b) |>.
Definition AddConditionalEdge b (from : string) (router : option (EdgeRouter X T)) (allowedTargets : list string) : GraphBuilder X T E :=
  let b := if present (bld_conditionalEdges b) from
           then b <| bld_overwrittenRouterFrom := {[from]} ∪ bld_overwrittenRouterFrom b |> else b in
  b <| bld_conditionalEdges := <[from := mkConditional router (list_to_set allowedTargets)]> (bld_conditionalEdges b) |>.
Definition AddRetryRoute b (fromNode fallbackNode : string) : GraphBuilder X T E :=
  let b := if present (bld_retryRoutes b) fromNode
           then b <| bld_overwrittenRetryFrom := {[fromNode]} ∪ bld_overwrittenRetryFrom b |> else b in
  b <| bld_retryRoutes := <[fromNode := fallbackNode]> (bld_retryRoutes b) |>.
Definition Use b (middlewares : list (option (NodeMiddleware X T E))) : GraphBuilder X T E :=
  b <| bld_middlewares := bld_middlewares b ++ middlewares |>.
Definition SetEntryPoint b (name : string) : GraphBuilder X T E := b <| bld_entryPoint := name |>.

(** ** Validation *)
Definition validateOverwriteConflicts b : list compileError :=
  set_errors (fun name => [NodeRegisteredTwice name]) (bld_overwrittenNodes b) ++
  set_errors (fun from => [EdgeRegisteredTwice from]) (bld_overwrittenEdgeFrom b) ++
  set_errors (fun from => [ConditionalRegisteredTwice from]) (bld_overwrittenRouterFrom b) ++
  set_errors (fun from => [RetryRegisteredTwice from]) (bld_overwrittenRetryFrom b).

Definition validateTopology b : list compileError :=
  when (is_nil (bld_reducer b)) NilReducer ++
  (if bld_entryPoint b == "" then [EntryPointNotSet]
   else when (negb (present (bld_nodes b) (bld_entryPoint b))) (EntryPointUnknown (bld_entryPoint b))).

Definition referenced b : gset string :=
  dom (bld_edges b) ∪ (list_to_set (filter (fun to => to <> EndNode) (snd <$> range (bld_edges b))))
  ∪ dom (bld_conditionalEdges b) ∪ dom (bld_nodes b).
Definition validateReferences b : list compileError :=
  set_errors (fun name =>
    if name == "" then [EmptyNodeName]
    else if name == EndNode then []
    else when (negb (present (bld_nodes b) name)) (NodeNotRegistered name)) (referenced b).

Definition validateHandlers b : list compileError :=
  map_errors (fun name handler => when (name == EndNode) (ReservedNode name) ++ when (is_nil handler) (NilHandler name)) (bld_nodes b) ++
  map_errors (fun from def => when (is_nil (ced_router def)) (NilRouter from)) (bld_conditionalEdges b).

Definition validateConditionalAllowedTargets b : list compileError :=
  map_errors (fun from def =>
    if size (ced_allowed def) == 0 then [AllowedTargetsRequired from]
    else set_errors (fun target => if target == EndNode then []
                                   else when (negb (present (bld_nodes b) target)) (UnknownAllowedTarget from target)) (ced_allowed def))
    (bld_conditionalEdges b).

Definition validateRetryRoutes b : list compileError :=
  map_errors (fun from fallback =>
    when (negb (present (bld_nodes b) from)) (RetrySourceUnknown from) ++
    (if fallback == "" then [EmptyFallback from] else when (negb (present (bld_nodes b) fallback)) (UnknownFallback from fallback)))
    (bld_retryRoutes b).

Definition validateRoutingConflicts b : list compileError :=
  map_errors (fun from _ => when (present (bld_conditionalEdges b) from) (EdgeAndConditional from)) (bld_edges b).

Definition exempt b (name : string) : bool := bool_decide (name ∈ bld_noOutgoingRoute b).
Definition validateOutgoingRoutes b : list compileError :=
  map_errors (fun name _ =>
    if exempt b name then []
    else when (negb (present (bld_edges b) name) && negb (present (bld_conditionalEdges b) name)) (NoOutgoingRoute name)) (bld_nodes b).
Definition validateNoOutgoingRouteMisuse b : list compileError :=
  set_errors (fun name => when (present (bld_edges b) name) (ExemptWithEdge name) ++
                          when (present (bld_conditionalEdges b) name) (ExemptWithConditional name)) (bld_noOutgoingRoute b).
Definition validateNoOutgoingRouteReferences b : list compileError :=
  set_errors (fun name => when (negb (present (bld_nodes b) name)) (ExemptUnknown name)) (bld_noOutgoingRoute b).
Definition validateRetryRouteExemptions b : list compileError :=
  map_errors (fun from _ => when (negb (exempt b from)) (RetryNotExempt from)) (bld_retryRoutes b).

Definition collectCompileErrors b : list compileError :=
  validateOverwriteConflicts b ++ validateTopology b ++ validateReferences b ++ validateHandlers b ++ validateRoutingConflicts b ++
  validateOutgoingRoutes b ++ validateConditionalAllowedTargets b ++ validateRetryRoutes b ++ validateNoOutgoingRouteMisuse b ++
  validateNoOutgoingRouteReferences b ++ validateRetryRouteExemptions b.

(** ** Compilation *)
Definition wrapNodeWithMiddlewares (node : Node X T E) (middlewares : list (option (NodeMiddleware X T E))) : Node X T E :=
  fold_left (fun wrapped mw => match mw with Some mw => mw wrapped | None => wrapped end) (rev middlewares) node.

(** After validation every handler and router is there; [omap] keeps exactly those. *)
Definition copyNodeDefs (m : gmap string (option (Node X T E))) (middlewares : list (option (NodeMiddleware X T E)))
  : gmap string (Node X T E) := omap (fun handler => (fun node => wrapNodeWithMiddlewares node middlewares) <$> handler) m.

Definition buildGraph b (o : runConfig) : Graph X T E :=
  mkGraph (copyNodeDefs (bld_nodes b) (bld_middlewares b)) (bld_edges b) (omap ced_router (bld_conditionalEdges b))
    (omap (fun def => if (0 <? size (ced_allowed def))%nat then Some (ced_allowed def) else None) (bld_conditionalEdges b))
    (bld_retryRoutes b) (bld_entryPoint b) (default (fun current _ => current) (bld_reducer b)) o.

Definition Compile b (opts : list BuildOption) : list compileError + Graph X T E :=
  match collectCompileErrors b with
  | [] => inr (buildGraph b (applyBuildOptions opts))
  | errs => inl errs
  end.

(** ** Routing *)
Definition resolveEdge (g : Graph X T E) (current : string) (state : T) : X -> X * res string := fun x =>
  match gph_edges g !! current with
  | Some next => (x, Ok next)
  | None =>
      match gph_conditionalEdges g !! current with
      | None => (x, Err (ErrFmt "flowy: node %q returned Completed but has no outgoing edge" [current]))
      | Some router =>
          let '(x, routed) := router state x in
          (x, match routed with
              | Err err => Err (ErrWrap "flowy: conditional edge from %q: %w" [current] err)
              | Ok next =>
                  if next == "" then Err (ErrFmt "flowy: conditional edge from %q returned empty target" [current])
                  else if match gph_conditionalAllowed g !! current with
                          | Some allowed => bool_decide (next ∉ allowed)
                          | None => false
                          end
                  then Err (ErrFmt "flowy: conditional edge from %q returned undeclared target %q" [current; next])
                  else if next == EndNode then Ok next
                  else if negb (present (gph_nodes g) next)
                  then Err (ErrFmt "flowy: conditional edge from %q returned unknown node %q" [current; next])
                  else Ok next
              end)
      end
  end.

Definition invalidResumePointerError (node : string) : error :=
  ErrJoin ErrInvalidSnapshot (ErrWrap "%w: %q" [node] ErrResumeStartNodeNotFound).
Definition validateExecutionPointer (g : Graph X T E) (ptr : ExecutionPointer) : option error :=
  if ptr == "" then Some (ErrInvalidSnapshot : error)
  else if negb (present (gph_nodes g) ptr) then Some (invalidResumePointerError ptr) else None.
End Builder.

(** ** What compilation promises *)
Lemma flat_map_nil {A B} (f : A -> list B) l : flat_map f l = [] <-> Forall (fun a => f a = []) l.
Proof.
  induction l as [|a l IH]; simpl; [done|]. rewrite Forall_cons, <- IH. split; [apply app_eq_nil|by intros [-> ->]].
Qed.
Lemma map_errors_nil {V} f (m : gmap string V) : map_errors f m = [] <-> forall k v, m !! k = Some v -> f k v = [].
Proof.
  unfold map_errors, range. rewrite flat_map_nil, Forall_forall. split.
  - intros Hf k v Hk. apply (Hf (k, v)). by apply elem_of_map_to_list.
  - intros Hf [k v] Hk. apply Hf. by apply elem_of_map_to_list.
Qed.
Lemma set_errors_nil f s : set_errors f s = [] <-> forall k, k ∈ s -> f k = [].
Proof. unfold set_errors. rewrite flat_map_nil, Forall_forall. by setoid_rewrite elem_of_elements. Qed.
Lemma when_nil b e : when b e = [] <-> b = false.
Proof. by destruct b. Qed.
Lemma app_nil_iff {A} (l k : list A) : l ++ k = [] <-> l = [] /\ k = [].
Proof. split; [apply app_eq_nil|by intros [-> ->]]. Qed.
Lemma present_dom {V} (m : gmap string V) k : present m k = true <-> k ∈ dom m.
Proof. unfold present. rewrite elem_of_dom. destruct (m !! k); simpl; split; done || by intros [? ?]. Qed.
Lemma not_present {V} (m : gmap string V) k : present m k = false <-> k ∉ dom m.
Proof. by rewrite <- present_dom, not_true_iff_false. Qed.
Lemma absent_present {V} (m : gmap string V) k : negb (present m k) = false <-> k ∈ dom m.
Proof. by rewrite negb_false_iff, present_dom. Qed.

Section Compile.
Context {X T E : Type}.
Implicit Types (b : GraphBuilder X T E) (g : Graph X T E).

(** A target of routing: a registered node or the end of the run. *)
Definition target_of (nodes : gset string) (name : string) : Prop := name = EndNode \/ name ∈ nodes.

(** The graphs the builder accepts, stated without reference to the order of its checks. *)
Record valid_builder b : Prop := {
  vb_once : bld_overwrittenNodes b = ∅ /\ bld_overwrittenEdgeFrom b = ∅ /\ bld_overwrittenRouterFrom b = ∅ /\ bld_overwrittenRetryFrom b = ∅;
  vb_reducer : bld_reducer b <> None;
  vb_entry : bld_entryPoint b ∈ dom (bld_nodes b);
  vb_node : forall name handler, bld_nodes b !! name = Some handler -> name <> "" /\ name <> EndNode /\ handler <> None;
  vb_edge : forall from to, bld_edges b !! from = Some to ->
    target_of (dom (bld_nodes b)) from /\ target_of (dom (bld_nodes b)) to /\ from ∉ dom (bld_conditionalEdges b);
  vb_conditional : forall from def, bld_conditionalEdges b !! from = Some def ->
    target_of (dom (bld_nodes b)) from /\ ced_router def <> None /\ ced_allowed def <> ∅ /\
    forall target, target ∈ ced_allowed def -> target_of (dom (bld_nodes b)) target;
  vb_retry : forall from fallback, bld_retryRoutes b !! from = Some fallback ->
    from ∈ dom (bld_nodes b) /\ fallback ∈ dom (bld_nodes b) /\ from ∈ bld_noOutgoingRoute b;
  vb_routed : forall name, name ∈ dom (bld_nodes b) ->
    (name ∉ bld_noOutgoingRoute b <-> name ∈ dom (bld_edges b) \/ name ∈ dom (bld_conditionalEdges b));
  vb_exempt : forall name, name ∈ bld_noOutgoingRoute b ->
    name ∈ dom (bld_nodes b) /\ name ∉ dom (bld_edges b) /\ name ∉ dom (bld_conditionalEdges b);
}.

Lemma set_errors_one f s : (forall k, f k <> []) -> set_errors f s = [] <-> s = ∅.
Proof. intros Hf. rewrite set_errors_nil. split; [|by intros ->]. intros H. apply set_eq. intros k. split; [|done]. intros Hk. by destruct (Hf k (H k Hk)). Qed.

Lemma overwrite_iff b : validateOverwriteConflicts b = [] <->
  bld_overwrittenNodes b = ∅ /\ bld_overwrittenEdgeFrom b = ∅ /\ bld_overwrittenRouterFrom b = ∅ /\ bld_overwrittenRetryFrom b = ∅.
Proof. unfold validateOverwriteConflicts. by rewrite !app_nil_iff, !set_errors_one. Qed.

Lemma graph_references_iff b : validateReferences b = [] <-> forall name, name ∈ referenced b -> name <> "" /\ target_of (dom (bld_nodes b)) name.
Proof.
  unfold validateReferences, target_of. rewrite set_errors_nil. split; intros Hr name Hn; specialize (Hr name Hn).
  - repeat case_bool_decide; try done; [by auto|]. apply when_nil, absent_present in Hr. by auto.
  - destruct Hr as [He Ht]. rewrite bool_decide_eq_false_2 by done. case_bool_decide; [done|]. apply when_nil, absent_present. naive_solver.
Qed.

Lemma elem_of_referenced b name : name ∈ referenced b <->
  name ∈ dom (bld_edges b) \/ (name <> EndNode /\ exists from, bld_edges b !! from = Some name) \/ name ∈ dom (bld_conditionalEdges b) \/
  name ∈ dom (bld_nodes b).
Proof.
  unfold referenced, range. rewrite !elem_of_union, elem_of_list_to_set, list_elem_of_filter, list_elem_of_fmap. split.
  - intros [[[?|[? ((f & t) & ? & Hf)]]|?]|?]; [by auto| |by auto..]. apply elem_of_map_to_list in Hf. simpl in *. naive_solver.
  - intros [?|[[? (from & Hf)]|[?|?]]]; [by auto 10| |by auto 10..]. left. left. right. split; [done|]. exists (from, name).
    split; [done|]. by apply elem_of_map_to_list.
Qed.

(** The compile errors, each list of them read as what it rules out. *)
Ltac open_validators :=
  unfold collectCompileErrors; rewrite !app_nil_iff, overwrite_iff, graph_references_iff;
  unfold validateTopology, validateHandlers, validateRoutingConflicts, validateOutgoingRoutes, validateConditionalAllowedTargets,
    validateRetryRoutes, validateNoOutgoingRouteMisuse, validateNoOutgoingRouteReferences, validateRetryRouteExemptions, exempt;
  rewrite !app_nil_iff, !map_errors_nil, !set_errors_nil, !when_nil.

Lemma compile_valid b : collectCompileErrors b = [] -> valid_builder b.
Proof.
  open_validators.
  intros (H1 & (H2 & H3) & H4 & (H5 & H6) & H7 & H8 & H9 & H10 & H11 & H12 & H13).
  assert (Hnode : forall name h, bld_nodes b !! name = Some h -> name <> "" /\ name <> EndNode /\ h <> None).
  { intros name h Hn. pose proof (H5 _ _ Hn) as Hh. rewrite app_nil_iff, !when_nil in Hh. destruct Hh as [Hh1 Hh2].
    apply bool_decide_eq_false in Hh1. split_and!; [|done|by intros ->].
    apply H4. rewrite elem_of_referenced. right. right. right. by eapply elem_of_dom_2. }
  split; [done|by destruct (bld_reducer b)|..].
  + case_bool_decide; [done|]. by apply when_nil, absent_present in H3.
  + done.
  + intros from to Hf. split_and!.
    * apply H4. rewrite elem_of_referenced. left. by eapply elem_of_dom_2.
    * unfold target_of. destruct (decide (to = EndNode)); [by left|]. apply H4. rewrite elem_of_referenced. right. left. by eauto.
    * apply not_present. by apply (proj1 (when_nil _ _) (H7 _ _ Hf)).
  + intros from def Hf. pose proof (H6 _ _ Hf) as Hr. apply when_nil in Hr. pose proof (H9 _ _ Hf) as Ha. split_and!.
    * apply H4. rewrite elem_of_referenced. right. right. left. by eapply elem_of_dom_2.
    * by intros E0; rewrite E0 in Hr.
    * intros E0. rewrite E0 in Ha. by rewrite bool_decide_eq_true_2 in Ha by done.
    * intros target Ht. case_bool_decide; [done|]. rewrite set_errors_nil in Ha. specialize (Ha _ Ht). unfold target_of.
      case_bool_decide; [by left|]. right. by apply when_nil, absent_present in Ha.
  + intros from fallback Hf. pose proof (H10 _ _ Hf) as Hr. rewrite app_nil_iff, when_nil, absent_present in Hr. destruct Hr as [Hr1 Hr2].
    split_and!; [done| |].
    * case_bool_decide; [done|]. by apply when_nil, absent_present in Hr2.
    * specialize (H13 _ _ Hf). by rewrite when_nil, negb_false_iff, bool_decide_eq_true in H13.
  + intros name Hn. split.
    * intros Hx. apply elem_of_dom in Hn as [h Hh]. specialize (H8 _ _ Hh). rewrite bool_decide_eq_false_2 in H8 by done.
      rewrite when_nil, andb_false_iff, !absent_present in H8. done.
    * intros Hx He. specialize (H11 _ He). rewrite app_nil_iff, !when_nil, !not_present in H11. naive_solver.
  + intros name Hn. specialize (H11 _ Hn). rewrite app_nil_iff, !when_nil, !not_present in H11. specialize (H12 _ Hn).
    rewrite when_nil, absent_present in H12. naive_solver.
Qed.

Lemma valid_compiles b : valid_builder b -> collectCompileErrors b = [].
Proof.
  open_validators.
  intros [H1 H2 H3 H4 H5 H6 H7 H8 H9].
  assert (Hne : forall name, name ∈ dom (bld_nodes b) -> name <> "").
  { intros name [h Hh]%elem_of_dom. by apply H4 in Hh as [? _]. }
  assert (Ht : forall name, target_of (dom (bld_nodes b)) name -> name <> "") by (intros name [-> |?]; [done|by apply Hne]).
  split_and!; try apply H1.
  + destruct (bld_reducer b) eqn:Er; simpl; congruence.
  + rewrite bool_decide_eq_false_2 by by apply Hne. by apply when_nil, absent_present.
  + intros name. rewrite elem_of_referenced. intros [[to Hd]%elem_of_dom|[[_ (from & Hf)]|[[def Hd]%elem_of_dom|Hd]]].
    * apply H5 in Hd as (? & _). split; [by apply Ht|done].
    * apply H5 in Hf as (_ & ? & _). split; [by apply Ht|done].
    * apply H6 in Hd as (? & _). split; [by apply Ht|done].
    * split; [by apply Hne|by right].
  + intros name h Hh. apply H4 in Hh as (_ & ? & ?). rewrite app_nil_iff, !when_nil. by rewrite bool_decide_eq_false_2; destruct h.
  + intros from def Hd. apply H6 in Hd as (_ & ? & _). apply when_nil. by destruct (ced_router def).
  + intros from to Hd. apply H5 in Hd as (_ & _ & ?). by apply when_nil, not_present.
  + intros name h Hh. case_bool_decide as Hx; [done|]. apply when_nil, andb_false_iff. rewrite !absent_present. apply H8; [|done].
    by eapply elem_of_dom_2.
  + intros from def Hd. apply H6 in Hd as (_ & _ & Hn & Ha). rewrite bool_decide_eq_false_2; [|by intros ?%size_empty_inv%leibniz_equiv].
    apply set_errors_nil. intros target Hx. case_bool_decide; [done|]. apply when_nil, absent_present. by destruct (Ha _ Hx).
  + intros from fallback Hd. apply H7 in Hd as (? & ? & _). rewrite app_nil_iff, when_nil, absent_present. split; [done|].
    rewrite bool_decide_eq_false_2 by by apply Hne. by apply when_nil, absent_present.
  + intros name Hn. apply H9 in Hn as (_ & ? & ?). by rewrite app_nil_iff, !when_nil, !not_present.
  + intros name Hn. apply H9 in Hn as (? & _). by apply when_nil, absent_present.
  + intros from fallback Hd. apply H7 in Hd as (_ & _ & ?). apply when_nil. by rewrite negb_false_iff, bool_decide_eq_true.
Qed.

(** C35: compilation is exact. [Compile] returns the built graph exactly for the builders that
    satisfy the declarative condition [valid_builder]: everything registered once, entry point,
    routes and fallbacks registered, handlers and routers present, and every node either
    routed or exempt but not both. *)
Theorem compile_exact b opts g : Compile b opts = inr g <-> valid_builder b /\ g = buildGraph b (applyBuildOptions opts).
Proof.
  unfold Compile. split.
  - destruct (collectCompileErrors b) eqn:Ec; [|done]. intros [= <-]. split; [by apply compile_valid|done].
  - intros [Hv ->]. by rewrite valid_compiles.
Qed.

(** ** Routing stays in a compiled graph *)
Record closed_graph g : Prop := {
  cg_entry : gph_entryPoint g ∈ dom (gph_nodes g);
  cg_edge : forall from to, gph_edges g !! from = Some to -> target_of (dom (gph_nodes g)) to;
  cg_retry : forall from to, gph_retryRoutes g !! from = Some to -> to ∈ dom (gph_nodes g);
  cg_end : EndNode ∉ dom (gph_nodes g);
  cg_empty : "" ∉ dom (gph_nodes g);
  cg_steps : (0 < rcf_maxSteps (gph_defaults g))%Z;
}.

Lemma options_steps opts : (0 < rcf_maxSteps (applyBuildOptions opts))%Z.
Proof.
  unfold applyBuildOptions. destruct (_ <=? 0)%Z eqn:El; [done|]. by apply Z.leb_gt in El.
Qed.

Lemma compiled_closed b opts g : Compile b opts = inr g -> closed_graph g.
Proof.
  unfold Compile. destruct (collectCompileErrors b) eqn:Ec; [|done]. intros [= <-]. apply compile_valid in Ec as [_ _ H3 H4 H5 _ H7 _ _].
  assert (Hd : dom (copyNodeDefs (bld_nodes b) (bld_middlewares b)) = dom (bld_nodes b)).
  { apply set_eq. intros name. unfold copyNodeDefs. rewrite !elem_of_dom. rewrite lookup_omap. split; intros [h Hh].
    - destruct (bld_nodes b !! name); [by eexists|done].
    - rewrite Hh. simpl. apply H4 in Hh as (_ & _ & Hh). destruct h; [by eexists|done]. }
  split; simpl; rewrite ?Hd.
  - done.
  - intros from to Hf. by apply H5 in Hf as (_ & ? & _).
  - intros from to Hf. by apply H7 in Hf as (_ & ? & _).
  - intros [h Hh]%elem_of_dom. by apply H4 in Hh as (_ & ? & _).
  - intros [h Hh]%elem_of_dom. by apply H4 in Hh as (? & _).
  - apply options_steps.
Qed.

Lemma resolveEdge_target g current state x x' next : closed_graph g -> resolveEdge g current state x = (x', Ok next) ->
  target_of (dom (gph_nodes g)) next.
Proof.
  intros Hg. unfold resolveEdge. destruct (gph_edges g !! current) as [to|] eqn:Ee.
  { intros [= _ <-]. by apply (cg_edge _ Hg current). }
  destruct (gph_conditionalEdges g !! current) as [router|]; [|done]. destruct (router state x) as [x1 [to|err]]; [|done].
  intros [= _ Hr]. guard_in Hr; [done|]. guard_in Hr; [done|]. guard_in Hr.
  - injection Hr as <-. left. by apply bool_decide_eq_true in Hg2.
  - guard_in Hr; [done|]. injection Hr as <-. right. by apply absent_present.
Qed.

Lemma validateExecutionPointer_None g ptr : validateExecutionPointer g ptr = None -> ptr ∈ dom (gph_nodes g).
Proof. unfold validateExecutionPointer. guard_goal; [done|]. guard_goal; [done|]. intros _. by apply absent_present. Qed.
End Compile.
