(* ===== verification/Handoff.v ===== *)
(** * Checkpoints and handoffs of a runner

    runner_checkpoint.go, runner_publication.go and handoff_outbox.go: how the runner saves a
    snapshot, hands a run over through an outbox, and recovers a handoff whose intent was not
    enqueued. The runner works in a state [X], the session and the world around it; contexts,
    clock, event sink and telemetry are operations of that state ([RunnerHost]), and the
    checkpointer and the outbox are records of operations, as the host supplies them.

    Metrics and log lines are not modelled. *)

From S2P Require Import Prelude Go Sha256 Json Identity Schedule Activity Waits Contract Children Aggregate Runtime Graph.

(** ** The state monad of the runner *)
Definition st (X A : Type) : Type := X -> X * A.
Definition st_ret {X A} (a : A) : st X A := fun x => (x, a).
Definition st_bind {X A B} (m : st X A) (k : A -> st X B) : st X B := fun x => let '(x, a) := m x in k a x.
Declare Scope st_scope.
Notation "'let*' x ':=' m 'in' k" := (st_bind m (fun x => k)) (at level 200, x name, m at level 100, k at level 200) : st_scope.
Notation "'do*' m 'in' k" := (st_bind m (fun _ => k)) (at level 200, m at level 100, k at level 200) : st_scope.
Open Scope st_scope.

(** What surrounds a run. Each reading may find the context cancelled meanwhile. *)
Class RunnerHost (X T E : Type) := {
  ctx_Cause : st X (option error);      (* context.Cause(runCtx) *)
  ctx_Done : st X (option error);       (* runCtx.Err() *)
  stream_closed : st X bool;            (* streamConsumerClosed(runCtx) *)
  time_Now : st X Time;
  telemetry : st X (gmap string string);   (* extractTelemetryContext(runCtx) *)
  sink_emit : RunEvent T E -> st X bool;   (* true where there is no sink *)
}.

(** ** What the host supplies *)
Record CheckpointerOps (X T E : Type) := mkCheckpointerOps {
  cp_Save : N -> Snapshot T E -> st X (res N);
  cp_Load : string -> st X (res (Snapshot T E * N));
  cp_Prune : string -> Z -> st X (option error);
  cp_DeleteIfIdle : string -> st X (option error);
  (** [TransactionalCheckpointer]: the callback runs inside the transaction, in the state
      extended with the variable it captures. *)
  cp_SaveWithOutbox : option (N -> Snapshot T E -> (N -> st (X * N) (option error)) -> st (X * N) (res N));
}.
Arguments mkCheckpointerOps {X T E} _ _ _ _ _.
Arguments cp_Save {X T E} _ _ _.
Arguments cp_Load {X T E} _ _.
Arguments cp_Prune {X T E} _ _ _.
Arguments cp_DeleteIfIdle {X T E} _ _.
Arguments cp_SaveWithOutbox {X T E} _.

Record HandoffOutbox (X : Type) := mkOutbox {
  EnqueueIntent : HandoffIntent -> st X (option error);
  EnqueueIntentTx : option (HandoffIntent -> st X (option error));
}.
Arguments mkOutbox {X} _ _.
Arguments EnqueueIntent {X} _ _.
Arguments EnqueueIntentTx {X} _.

Record StateInterceptor (X T : Type) := mkInterceptor { BeforeSave : T -> st X (res T); AfterLoad : T -> st X (res T) }.
Arguments BeforeSave {X T} _ _.
Arguments AfterLoad {X T} _ _.

(** What a durable session adds to a runner: the locked operations of Checkpointer.v. *)
Record DurableOps (X T E : Type) := mkDurableOps {
  drb_commitStep : directiveStep T E -> directiveKind -> T -> RunMetadata -> list E -> st X (res N);
  drb_Load : string -> st X (res (Snapshot T E * N));
  drb_waitBackend : bool;
  drb_armWait : N -> Snapshot T E -> DurableWaitSpec -> st X (res DurableWaitRecord);
  drb_registerWait : DurableWaitRecord -> st X (option error);
}.
Arguments mkDurableOps {X T E} _ _ _ _ _.
Arguments drb_commitStep {X T E} _ _ _ _ _ _.
Arguments drb_Load {X T E} _ _.
Arguments drb_waitBackend {X T E} _.
Arguments drb_armWait {X T E} _ _ _ _.
Arguments drb_registerWait {X T E} _ _.

Record graphRunner (X T E : Type) := mkRunner {
  rnr_graph : Graph X T E;
  rnr_checkpointer : option (CheckpointerOps X T E);
  rnr_interceptors : list (StateInterceptor X T);
  rnr_handoffOutbox : option (HandoffOutbox X);
  rnr_handoffStaleAfter : Z;
  rnr_durable : option (DurableOps X T E);
}.
Arguments mkRunner {X T E} _ _ _ _ _ _.
Arguments rnr_graph {X T E} _.
Arguments rnr_checkpointer {X T E} _.
Arguments rnr_interceptors {X T E} _.
Arguments rnr_handoffOutbox {X T E} _.
Arguments rnr_handoffStaleAfter {X T E} _.
Arguments rnr_durable {X T E} _.

Inductive CheckpointFailurePolicy := CheckpointPolicyUnset | CheckpointPolicyHardFail | CheckpointPolicySkipOnSaveError | CheckpointPolicyOther (s : string).
#[export] Instance CheckpointFailurePolicy_eq_dec : EqDecision CheckpointFailurePolicy.
Proof. solve_decision. Defined.

Record RunMetadataInput := mkMetaInput { rmi_BudgetCounts : gmap string Z; rmi_TelemetryContext : gmap string string }.
Record runInvocationOptions (X T : Type) := mkInvocationOptions {
  inv_overlay : option T;
  inv_overlayMerger : option (T -> T -> T);
  inv_resumeTargetPolicy : option (T -> ExecutionPointer -> st X (res (T * ResumePlan)));
  inv_invariantValidator : option (T -> option error);
  inv_runMetadata : RunMetadataInput;
  inv_leaseOwner : string;
  inv_leaseTTL : Z;
  inv_lease : ExecutionLease;
  inv_handoffOutbox : option (HandoffOutbox X);
  inv_atomicHandoff : bool;
  inv_checkpointPolicy : CheckpointFailurePolicy;
}.
Arguments mkInvocationOptions {X T} _ _ _ _ _ _ _ _ _ _ _.
Arguments inv_overlay {X T} _.
Arguments inv_overlayMerger {X T} _.
Arguments inv_resumeTargetPolicy {X T} _.
Arguments inv_invariantValidator {X T} _.
Arguments inv_runMetadata {X T} _.
Arguments inv_leaseOwner {X T} _.
Arguments inv_leaseTTL {X T} _.
Arguments inv_lease {X T} _.
Arguments inv_handoffOutbox {X T} _.
Arguments inv_atomicHandoff {X T} _.
Arguments inv_checkpointPolicy {X T} _.

Definition ReasonSuspendedCheckpointSkipped : string := "suspended_checkpoint_skipped".
Definition ReasonHandoffCheckpointSkipped : string := "handoff_checkpoint_skipped".
Definition ReasonContextCanceledCheckpointSkipped : string := "context_canceled_checkpoint_skipped".
Definition ReasonContextCanceledSaveFailed : string := "context_canceled_save_failed".
Definition ReasonHandoffResumeTargetInvalid : string := "handoff_resume_target_invalid".
Definition ReasonSuspendResumeTargetInvalid : string := "suspend_resume_target_invalid".
Definition ReasonHandoffSaveFailed : string := "handoff_save_failed".
Definition ReasonHandoffOrphaned : string := "handoff_orphaned".
Definition ReasonSuspendSaveFailed : string := "suspend_save_failed".

Definition clearHandoffRunMeta (meta : RunMetadata) : RunMetadata :=
  meta <| met_HandoffStatus := HandoffStatusNone |> <| met_HandoffPendingAt := time_zero |>.
Definition retentionFailedReason (reason : string) : string :=
  if reason == "" then "retention_failed" else String.append reason "_retention_failed".
Definition persistedHandoffPendingAt (status : HandoffStatus) (pendingAt : Time) : Time :=
  if status == HandoffStatusPending then pendingAt else time_zero.
Definition deriveHandoffTerminalReason (directiveReason : string) (status : HandoffStatus) : string :=
  if status == HandoffStatusOrphaned then ReasonHandoffOrphaned else directiveReason.
Definition checkpointContractError (err : error) : bool :=
  existsb (errors_Is err)
    [ErrConcurrencyConflict; ErrInvalidSnapshot; ErrLeaseLost; ErrThreadLeaseBusy; ErrExecutionCapability; ErrInvalidHandoffIntent;
     ErrTransactionalOutboxUnsupported].
Definition wrapHandoffPatchFailed (err : option error) : option error := (fun e => ErrJoin ErrHandoffPatchFailed e) <$> err.
Definition wrapHandoffPatchRecoveryErr (err : error) : error :=
  if errors_Is err ErrConcurrencyConflict
  then ErrWrap "%w: recovery patch concurrency conflict: %w" [] (ErrJoin ErrHandoffPatchFailed err) else err.

Record handoffOutboxFSMResult := mkFSMResult {
  fsm_ResumeToken : ResumeToken;
  fsm_EnqueueErr : option error;
  fsm_PatchErr : option error;
  fsm_PersistedStatus : HandoffStatus;
  fsm_PersistedPendingAt : Time;
}.
#[export] Instance eta_FSMResult : Eta handoffOutboxFSMResult := fun f =>
  mkFSMResult (fsm_ResumeToken f) (fsm_EnqueueErr f) (fsm_PatchErr f) (fsm_PersistedStatus f) (fsm_PersistedPendingAt f).

Section Handoff.
Context {X T E : Type} `{RunnerHost X T E} (r : graphRunner X T E) (error_text : error -> string).
Implicit Types (inv : runInvocationOptions X T) (snapshot : Snapshot T E) (meta : RunMetadata) (state : T) (effects : list E).

Definition emitTerminalEvent (event : RunEvent T E) : st X bool := sink_emit event.
Definition failedResultWithReason state effects meta (pointer reason : string) : st X (RunResult T E) :=
  let* now := time_Now in st_ret (newRunResultFailed now state effects meta pointer reason).

(** ** Saving snapshots *)
Definition validateInvariant state inv : option error :=
  match inv_invariantValidator inv with
  | None => None
  | Some validate => (fun err => ErrWrap "flowy: invariant violated: %w" [] err) <$> validate state
  end.

Fixpoint beforeSave (interceptors : list (StateInterceptor X T)) state : st X (res T) :=
  match interceptors with
  | [] => st_ret (Ok state)
  | i :: rest =>
      let* saved := BeforeSave i state in
      match saved with
      | Ok state => beforeSave rest state
      | Err err => st_ret (Err (ErrWrap "flowy: before_save interceptor: %w" [] err))
      end
  end.

Definition prepareSnapshot (cp : CheckpointerOps X T E) snapshot inv : st X (res (Snapshot T E)) :=
  match validateInvariant (snp_State snapshot) inv with
  | Some err => st_ret (Err err)
  | None =>
      let* state := beforeSave (rnr_interceptors r) (snp_State snapshot) in
      st_ret (state ← state; Ok (snapshot <| snp_State := state |>))
  end.

Definition emitCheckpointFailed (current : string) state (saveErr : error) : st X unit :=
  do* emitTerminalEvent (newRunEvent EventCheckpointFailed current state (Some saveErr) "") in st_ret tt.

(** [(Snapshot, revision, persisted, err)]: the revision is there exactly where it persisted. *)
Definition persistSnapshotPrepared (expectedRevision : N) snapshot (current : string) state inv : st X (Snapshot T E * res (option N)) :=
  match rnr_checkpointer r with
  | None => st_ret (snapshot, Err (ErrHost "flowy: checkpointer is required"))
  | Some cp =>
      let* prepared := prepareSnapshot cp snapshot inv in
      match prepared with
      | Err err => st_ret (snapshot, Err err)
      | Ok prepared =>
          let* saved := cp_Save cp expectedRevision prepared in
          match saved with
          | Ok newRevision => st_ret (prepared, Ok (Some newRevision))
          | Err saveErr =>
              if (inv_checkpointPolicy inv != CheckpointPolicySkipOnSaveError) || checkpointContractError saveErr
              then st_ret (prepared, Err saveErr)
              else
                let eventPointer := if snp_ExecutionPointer snapshot == "" then current else snp_ExecutionPointer snapshot in
                do* emitCheckpointFailed eventPointer state saveErr in
                st_ret (prepared, Ok None)
          end
      end
  end.
Definition persistSnapshot (expectedRevision : N) snapshot (current : string) state inv : st X (res (option N)) :=
  let* outcome := persistSnapshotPrepared expectedRevision snapshot current state inv in st_ret outcome.2.

Definition applyRetentionPolicy (threadID : string) : st X (option error) :=
  match rnr_checkpointer r with
  | None => st_ret None
  | Some cp =>
      let limit := rcf_retentionLimit (gph_defaults (rnr_graph r)) in
      if (limit <=? 0)%Z then st_ret None else cp_Prune cp threadID limit
  end.

(** ** The outbox *)
Definition resolveHandoffOutbox inv : option (HandoffOutbox X) :=
  match inv_handoffOutbox inv with Some outbox => Some outbox | None => rnr_handoffOutbox r end.

Definition enqueueHandoffIntent (outbox : HandoffOutbox X) (intent : HandoffIntent) : st X (option error) :=
  match validateHandoffIntent intent with
  | Some err => st_ret (Some err)
  | None =>
      let* failure := EnqueueIntent outbox intent in
      st_ret ((fun err => ErrJoin ErrHandoffEnqueueFailed err) <$> failure)
  end.

Definition patchHandoffStatus (cp : CheckpointerOps X T E) (expectedRevision : N) snapshot meta (status : HandoffStatus) : st X (res N) :=
  let* now := time_Now in
  let meta := meta <| met_HandoffStatus := status |>
                   <| met_HandoffPendingAt := if status == HandoffStatusPending then toUTC now else time_zero |> in
  cp_Save cp expectedRevision (snapshot <| snp_RunMeta := meta |>).

(** The three phases after the pending save: patch to enqueued, enqueue, and on failure patch
    to orphaned. *)
Definition runHandoffOutboxFSM (cp : CheckpointerOps X T E) (threadID : string) (pendingRev : N) snapshot meta (outbox : HandoffOutbox X)
    (resumePtr : ExecutionPointer) (reason : string) : st X handoffOutboxFSMResult :=
  let* patched := patchHandoffStatus cp pendingRev snapshot meta HandoffStatusEnqueued in
  match patched with
  | Err patchErr =>
      st_ret (mkFSMResult (mkToken threadID pendingRev) None (wrapHandoffPatchFailed (Some patchErr)) HandoffStatusPending
                (persistedHandoffPendingAt HandoffStatusPending (met_HandoffPendingAt meta)))
  | Ok enqueuedRev =>
      let intent := buildHandoffIntent threadID resumePtr reason HandoffStatusEnqueued pendingRev enqueuedRev in
      let* enqueueErr := enqueueHandoffIntent outbox intent in
      match enqueueErr with
      | Some enqueueErr =>
          let* orphaned := patchHandoffStatus cp enqueuedRev snapshot meta HandoffStatusOrphaned in
          st_ret (match orphaned with
                  | Ok orphanRev =>
                      mkFSMResult (mkToken threadID orphanRev) (Some enqueueErr) None HandoffStatusOrphaned
                        (persistedHandoffPendingAt HandoffStatusOrphaned (met_HandoffPendingAt meta))
                  | Err patchErr =>
                      mkFSMResult (mkToken threadID enqueuedRev) (Some enqueueErr) (wrapHandoffPatchFailed (Some patchErr)) HandoffStatusEnqueued
                        (persistedHandoffPendingAt HandoffStatusEnqueued (met_HandoffPendingAt meta))
                  end)
      | None => st_ret (mkFSMResult (mkToken threadID enqueuedRev) None None HandoffStatusEnqueued time_zero)
      end
  end.

Definition applyFSMPersistedHandoffMeta (result : RunResult T E) (fsm : handoffOutboxFSMResult) : RunResult T E :=
  result <| rr_RunMeta := (rr_RunMeta result) <| met_HandoffStatus := fsm_PersistedStatus fsm |>
                                              <| met_HandoffPendingAt := fsm_PersistedPendingAt fsm |> |>.

Definition emitHandoffTerminalEvent (savedPointer : string) state (reason : string) : st X unit :=
  do* emitTerminalEvent (newRunEvent EventHandoff savedPointer state None reason) in st_ret tt.

Definition handoffAfterEnqueueFailure (threadID savedPointer : string) state (result : RunResult T E) (enqueueErr : error)
  : st X (RunResult T E * option error) :=
  let* policyErr := applyRetentionPolicy threadID in
  let finalReason := match policyErr with Some _ => retentionFailedReason (rr_Reason result) | None => rr_Reason result end in
  let result := result <| rr_Reason := finalReason |> in
  do* emitHandoffTerminalEvent savedPointer state finalReason in
  st_ret (result, Some (match policyErr with
                        | Some policyErr => ErrJoin enqueueErr (ErrWrap "flowy: handoff retention failed: %w" [] policyErr)
                        | None => enqueueErr
                        end)).

(** [inr]: the run ends here with that result; [inl]: the updated result goes on. *)
Definition dispatchPersistedHandoffOutbox (cp : CheckpointerOps X T E) (threadID : string) (pendingRev : N) snapshot meta
    (outbox : HandoffOutbox X) (resumePtr : ExecutionPointer) (savedPointer : string) state (result : RunResult T E)
  : st X (RunResult T E + RunResult T E * option error) :=
  let* fsm := runHandoffOutboxFSM cp threadID pendingRev snapshot meta outbox resumePtr (rr_Reason result) in
  match errors_Join (fsm_EnqueueErr fsm) (fsm_PatchErr fsm) with
  | Some handoffErr =>
      let token := if tok_ThreadID (fsm_ResumeToken fsm) == "" then mkToken threadID pendingRev else fsm_ResumeToken fsm in
      let result := applyFSMPersistedHandoffMeta (result <| rr_ResumeToken := token |>) fsm in
      let result := result <| rr_Reason := deriveHandoffTerminalReason (rr_Reason result) (fsm_PersistedStatus fsm) |> in
      let* outcome := handoffAfterEnqueueFailure threadID savedPointer state result handoffErr in
      st_ret (inr outcome)
  | None => st_ret (inl (applyFSMPersistedHandoffMeta (result <| rr_ResumeToken := fsm_ResumeToken fsm |>) fsm))
  end.

(** ** The transactional path *)
Definition lift_tx {A} (m : st X A) : st (X * N) A := fun '(x, captured) => let '(x, a) := m x in ((x, captured), a).

Definition enqueueTransactionalHandoffIntent (enqueue : HandoffIntent -> st X (option error)) (intent : HandoffIntent) : st X (option error) :=
  match validateHandoffIntent intent with
  | Some err => st_ret (Some err)
  | None =>
      let* failure := enqueue intent in
      st_ret ((fun err => ErrJoin ErrHandoffEnqueueFailed err) <$> failure)
  end.

(** The callback given to [SaveWithOutbox]; [validatedTxRevision] is the captured variable. *)
Definition outboxCallback (threadID : string) (pointer : ExecutionPointer) (reason : string) (expectedRevision : N)
    (enqueue : HandoffIntent -> st X (option error)) (savedRevision : N) : st (X * N) (option error) :=
  let expectedSavedRevision := succ_u64 expectedRevision in
  if savedRevision != expectedSavedRevision
  then st_ret (Some (ErrWrap "%w: transactional saved revision %d != expected %d" [] ErrInvalidHandoffIntent))
  else match NewHandoffIntent threadID pointer reason HandoffStatusEnqueued savedRevision savedRevision with
  | Err intentErr => st_ret (Some intentErr)
  | Ok intent =>
      let* failure := lift_tx (enqueueTransactionalHandoffIntent enqueue intent) in
      match failure with
      | Some err => st_ret (Some err)
      | None => fun '(x, _) => ((x, savedRevision), None)
      end
  end.

(** [None]: the capabilities are missing and the three-phase path is taken. *)
Definition tryTransactionalHandoffSave (threadID : string) (expectedRevision : N) snapshot meta inv (outbox : HandoffOutbox X)
    (result : RunResult T E) : st X (option (RunResult T E * res N)) :=
  match rnr_checkpointer r with
  | None => st_ret None
  | Some cp =>
      match cp_SaveWithOutbox cp, EnqueueIntentTx outbox with
      | Some saveWithOutbox, Some enqueue =>
          let meta := meta <| met_HandoffStatus := HandoffStatusEnqueued |> <| met_HandoffPendingAt := time_zero |> in
          let snapshot := snapshot <| snp_RunMeta := meta |> in
          let* prepared := prepareSnapshot cp snapshot inv in
          match prepared with
          | Err prepErr => st_ret (Some (result, Err prepErr))
          | Ok prepared =>
              let* outcome := (fun x =>
                let '((x, validated), saved) :=
                  saveWithOutbox expectedRevision prepared
                    (outboxCallback threadID (snp_ExecutionPointer snapshot) (rr_Reason result) expectedRevision enqueue) (x, 0%N) in
                (x, (validated, saved))) in
              st_ret (Some (match outcome with
                | (_, Err err) => (result, Err err)
                | (validatedTxRevision, Ok newRev) =>
                    if validatedTxRevision == 0%N
                    then (result, Err (ErrWrap "%w: transactional outbox callback was not called" [] ErrInvalidHandoffIntent))
                    else if newRev != validatedTxRevision
                    then (result, Err (ErrWrap "%w: transactional returned revision %d != callback revision %d" [] ErrInvalidHandoffIntent))
                    else (result <| rr_ResumeToken := mkToken threadID newRev |>
                                 <| rr_RunMeta := (rr_RunMeta result) <| met_HandoffStatus := HandoffStatusEnqueued |>
                                                                      <| met_HandoffPendingAt := time_zero |> |>, Ok newRev)
                end))
          end
      | _, _ => st_ret None
      end
  end.

(** ** The terminal handoff *)
Definition completeHandoffSession (result : RunResult T E) (policyErr : option error) (persisted signalSession : bool)
  : RunResult T E * option error :=
  match policyErr with
  | Some err => (result, Some (ErrWrap "flowy: handoff retention failed: %w" [] err))
  | None => (result, if negb persisted && signalSession then Some (ErrCheckpointSkipped : error) else None)
  end.

Definition finalizeHandoffTerminal (threadID savedPointer : string) state (reason : string) (result : RunResult T E)
    (signalSession persisted : bool) : st X (RunResult T E * option error) :=
  let* policyErr := (if persisted then applyRetentionPolicy threadID else st_ret None) in
  let finalReason := match policyErr with Some _ => retentionFailedReason reason | None => reason end in
  let result := match policyErr with Some _ => result <| rr_Reason := finalReason |> | None => result end in
  do* emitHandoffTerminalEvent savedPointer state finalReason in
  st_ret (completeHandoffSession result policyErr persisted signalSession).

Definition failHandoffSave state effects meta (savedPointer : string) (err : error) (context : string)
  : st X (RunResult T E * option error) :=
  do* emitTerminalEvent (newRunEvent EventFailed savedPointer state (Some err) ReasonHandoffSaveFailed) in
  let* failed := failedResultWithReason state effects meta savedPointer ReasonHandoffSaveFailed in
  st_ret (failed <| rr_RunMeta := clearHandoffRunMeta (rr_RunMeta failed) |>, Some (ErrWrap context [] err)).

Definition completeHandoffTerminal (threadID current : string) state meta effects (revision : N) (reason : string)
    (resumeAt : ExecutionPointer) inv (signalSession : bool) : st X (RunResult T E * option error) :=
  let* telemetryContext := telemetry in
  let* now := time_Now in
  let meta := endSegment (meta <| met_TelemetryContext := telemetryContext |>) now SegmentEndHandoff in
  let resumePtr := if resumeAt == "" then current else resumeAt in
  match validateExecutionPointer (rnr_graph r) resumePtr with
  | Some ptrErr =>
      do* emitTerminalEvent (newRunEvent EventFailed current state (Some ptrErr) ReasonHandoffResumeTargetInvalid) in
      let* failed := failedResultWithReason state effects meta current ReasonHandoffResumeTargetInvalid in
      st_ret (failed, Some (ErrWrap "flowy: handoff resume target invalid: %w" [] ptrErr))
  | None =>
      let outbox := resolveHandoffOutbox inv in
      let* now := time_Now in
      let meta := match outbox with
                  | Some _ => meta <| met_HandoffStatus := HandoffStatusPending |> <| met_HandoffPendingAt := toUTC now |>
                  | None => clearHandoffRunMeta meta
                  end in
      let result := newRunResultHandoff state effects meta resumePtr reason in
      let snapshot := mkSnapshot threadID resumePtr 0 state meta effects in
      let* transactional := (match outbox with
                             | Some outbox => tryTransactionalHandoffSave threadID revision snapshot meta inv outbox result
                             | None => st_ret None
                             end) in
      match transactional with
      | Some (_, Err txErr) => failHandoffSave state effects meta resumePtr txErr "flowy: transactional handoff failed: %w"
      | Some (result, Ok txRev) =>
          let result := result <| rr_ResumeToken := mkToken threadID txRev |> in
          finalizeHandoffTerminal threadID resumePtr state (rr_Reason result) result signalSession true
      | None =>
          let* outcome := persistSnapshotPrepared revision snapshot current state inv in
          match outcome with
          | (_, Err saveErr) => failHandoffSave state effects meta resumePtr saveErr "flowy: handoff save failed: %w"
          | (_, Ok None) =>
              let result := if inv_checkpointPolicy inv == CheckpointPolicySkipOnSaveError then
                              let result := result <| rr_Reason := ReasonHandoffCheckpointSkipped |> in
                              match outbox with
                              | Some _ => result <| rr_RunMeta := clearHandoffRunMeta (rr_RunMeta result) |>
                              | None => result
                              end
                            else result in
              finalizeHandoffTerminal threadID resumePtr state (rr_Reason result) result signalSession false
          | (snapshot, Ok (Some newRev)) =>
              let result := result <| rr_ResumeToken := mkToken threadID newRev |> in
              let* dispatched := (match outbox, rnr_checkpointer r with
                                  | Some outbox, Some cp => dispatchPersistedHandoffOutbox cp threadID newRev snapshot meta outbox resumePtr
                                                              resumePtr state result
                                  | _, _ => st_ret (inl result)
                                  end) in
              match dispatched with
              | inr early => st_ret early
              | inl result => finalizeHandoffTerminal threadID resumePtr state (rr_Reason result) result signalSession true
              end
          end
      end
  end.
End Handoff.
