(* ===== verification/Runner.v ===== *)
(** * The execution loop

    runner_execution.go, durable_interruption.go, the wait directive of
    durable_wait_registration.go and the budgets of run_options.go: one run of a graph, from
    its start node to a terminal result. The loop is [executeLoop] with fuel; RunnerInv.v
    shows that the step limit bounds it, so that it always returns.

    Registration of the run with its runner and the lease heartbeat surround the loop and are
    not part of it; the heartbeat acts on it only by cancelling the context. *)

From S2P Require Import Prelude Go Sha256 Json Identity Schedule Activity Waits Contract Children Aggregate Runtime Graph Handoff.

(** ** Budgets *)
Definition UseBudget (counts : gmap string Z) (name : string) (amount : Z) : gmap string Z * option error :=
  if (name == "") || negb (validRuntimeText [name]) || (amount <? 0)%Z then (counts, Some (ErrBudgetInvalid : error))
  else
    let used := default 0%Z (counts !! name) in
    if (used <? 0)%Z || (max_int64 - used <? amount)%Z then (counts, Some (ErrBudgetInvalid : error))
    else if amount == 0%Z then (counts, None)
    else (<[name := (used + amount)%Z]> counts, None).

Record nodeStepOutcome (T E : Type) := mkNodeStep {
  nso_state : T; nso_meta : RunMetadata; nso_effects : list E; nso_base : Directive E; nso_emitCanceled : bool;
}.
Arguments mkNodeStep {T E} _ _ _ _ _.
Arguments nso_state {T E} _.
Arguments nso_meta {T E} _.
Arguments nso_effects {T E} _.
Arguments nso_base {T E} _.
Arguments nso_emitCanceled {T E} _.
#[export] Instance eta_nodeStepOutcome {T E} : Eta (nodeStepOutcome T E) := fun s =>
  mkNodeStep (nso_state s) (nso_meta s) (nso_effects s) (nso_base s) (nso_emitCanceled s).

Definition durableWaitReason : string := "durable_wait".

(** [errors.Is(err, target)] where [err] may be nil. *)
Definition cause_is (err : option error) (s : sentinel) : bool := match err with Some e => errors_Is e s | None => false end.

Section Runner.
Context {X T E : Type} `{RunnerHost X T E} (r : graphRunner X T E) (error_text : error -> string).
Implicit Types (inv : runInvocationOptions X T) (snapshot : Snapshot T E) (meta : RunMetadata) (state : T) (effects : list E).
Notation outcome := (RunResult T E * option error)%type.

Definition blankNodeStepOutcome state meta effects : nodeStepOutcome T E := mkNodeStep state meta effects (directiveWithKind directiveZero) false.
Definition canceledNodeStepOutcome state meta effects : nodeStepOutcome T E :=
  (blankNodeStepOutcome state meta effects) <| nso_emitCanceled := true |>.

(** The text of an error with the prefix the runner adds removed. *)
Definition failReasonForStepErr (err : error) : string :=
  match err with
  | ErrWrap _ _ u => if String.prefix "flowy: node " (error_text err) then error_text u else error_text err
  | _ => error_text err
  end.

Definition emitFailed (pointer : string) state (err : error) (reason : string) : st X bool :=
  emitTerminalEvent (newRunEvent EventFailed pointer state (Some err) reason).

(** A failure of the runner itself: the segment is closed, the event emitted, the result built. *)
Definition failRun (current : string) state meta effects (err : error) : st X outcome :=
  let* now := time_Now in
  let meta := markSegmentFailed meta now in
  do* emitFailed current state err (error_text err) in
  let* failed := failedResultWithReason state effects meta current (error_text err) in
  st_ret (failed, Some err).

(** ** One node *)
(** The completion events of a node: one, or one per effect; [false] as soon as one is refused. *)
Fixpoint emitEffects (current : string) state (nodeEffects : list E) : st X bool :=
  match nodeEffects with
  | [] => st_ret true
  | effect :: rest =>
      let* delivered := sink_emit (mkEvent EventNodeCompleted current state (Some effect) None "") in
      if (delivered : bool) then emitEffects current state rest else st_ret false
  end.

Definition runNodeStep (current : string) state meta effects inv : st X (nodeStepOutcome T E * option error) :=
  match gph_nodes (rnr_graph r) !! current with
  | None =>
      let err := ErrFmt "flowy: node %q not found" [current] in
      do* emitFailed current state err (error_text err) in
      st_ret (blankNodeStepOutcome state meta effects, Some err)
  | Some handler =>
      let* started := sink_emit (newRunEvent EventNodeStarted current state None "") in
      if negb started then st_ret (canceledNodeStepOutcome state meta effects, None)
      else
        let meta := meta <| met_StepCount := (met_StepCount meta + 1)%Z |> in
        let* handled := handler state (met_BudgetCounts meta) in
        let meta := meta <| met_BudgetCounts := handled.1 |> in
        match handled.2 with
        | Err err =>
            do* emitFailed current state err (error_text err) in
            st_ret (blankNodeStepOutcome state meta effects, Some (ErrWrap "flowy: node %q: %w" [current] err))
        | Ok (update, directive) =>
            let state := gph_reducer (rnr_graph r) state update in
            match inv_invariantValidator inv ≫= (fun validate => validate state) with
            | Some invErr =>
                do* emitFailed current state invErr (error_text invErr) in
                st_ret (blankNodeStepOutcome state meta effects, Some invErr)
            | None =>
                match UnwrapDirective directive with
                | Err err =>
                    do* emitFailed current state err (error_text err) in
                    st_ret (blankNodeStepOutcome state meta effects, Some err)
                | Ok (base, nodeEffects) =>
                    let effects := effects ++ nodeEffects in
                    let* delivered := (if len nodeEffects == 0%Z then sink_emit (newRunEvent EventNodeCompleted current state None "")
                                       else emitEffects current state nodeEffects) in
                    if negb delivered then st_ret (canceledNodeStepOutcome state meta effects, None)
                    else st_ret ((blankNodeStepOutcome state meta effects) <| nso_base := base |>, None)
                end
            end
        end
  end.

(** ** Directives *)
Definition terminalFailDirectiveStep (current : string) state meta effects (err : error) : st X (directiveStep T E) :=
  do* emitFailed current state err (error_text err) in
  let* failed := failedResultWithReason state effects meta current (error_text err) in
  st_ret (terminalDirectiveStep (Some failed) (Some err)).

Definition applyDirectiveFail (current : string) state meta effects (base : Directive E) : st X (directiveStep T E) :=
  let* now := time_Now in
  let meta := endSegment meta now SegmentEndFail in
  let* now := time_Now in
  let result := newRunResultFailed now state effects meta current (dir_reason base) in
  do* emitFailed current state (ErrHost (dir_reason base)) (dir_reason base) in
  st_ret (terminalDirectiveStep (Some result) (Some (ErrHost (dir_reason base)))).

Definition finishCompleted (current : string) state meta effects (endReason : SegmentEndReason) : st X (directiveStep T E) :=
  let* now := time_Now in
  let result := newRunResultCompleted state effects (endSegment meta now endReason) current in
  do* emitTerminalEvent (newRunEvent EventCompleted current state None "") in
  st_ret (terminalDirectiveStep (Some result) None).

Definition applyDirectiveCompleted (current : string) state meta effects : st X (directiveStep T E) :=
  let* next := resolveEdge (rnr_graph r) current state in
  match next with
  | Err err => terminalFailDirectiveStep current state meta effects err
  | Ok nextNode =>
      if nextNode == EndNode then finishCompleted current state meta effects SegmentEndComplete
      else st_ret (continueDirectiveStep nextNode)
  end.

Definition applyDirectiveSuspend (threadID current : string) state meta effects (revision : N) (base : Directive E) inv
  : st X (directiveStep T E) :=
  let* telemetryContext := telemetry in
  let* now := time_Now in
  let meta := endSegment (meta <| met_TelemetryContext := telemetryContext |>) now SegmentEndSuspend in
  let resumePtr := directiveResumePointer current base in
  match validateExecutionPointer (rnr_graph r) resumePtr with
  | Some validateErr =>
      do* emitFailed current state validateErr ReasonSuspendResumeTargetInvalid in
      let* failed := failedResultWithReason state effects meta current ReasonSuspendResumeTargetInvalid in
      st_ret (terminalDirectiveStep (Some failed) (Some (ErrWrap "flowy: suspend resume target invalid: %w" [] validateErr)))
  | None =>
      let* saved := persistSnapshot r revision (mkSnapshot threadID resumePtr 0 state meta effects) current state inv in
      match saved with
      | Err saveErr =>
          do* emitFailed resumePtr state saveErr ReasonSuspendSaveFailed in
          let* failed := failedResultWithReason state effects meta resumePtr ReasonSuspendSaveFailed in
          st_ret (terminalDirectiveStep (Some failed) (Some (ErrWrap "flowy: suspend save failed: %w" [] saveErr)))
      | Ok persisted =>
          let reason := if dir_reason base == "" then "suspended" else dir_reason base in
          let reason := if is_nil persisted && (inv_checkpointPolicy inv == CheckpointPolicySkipOnSaveError)
                        then ReasonSuspendedCheckpointSkipped else reason in
          let* policyErr := (if is_nil persisted then st_ret None else applyRetentionPolicy r threadID) in
          let reason := match policyErr with Some _ => retentionFailedReason reason | None => reason end in
          let result := newRunResultSuspended state effects meta resumePtr reason in
          let result := match persisted with Some newRev => result <| rr_ResumeToken := mkToken threadID newRev |> | None => result end in
          do* emitTerminalEvent (newRunEvent EventSuspended resumePtr state None reason) in
          st_ret (terminalDirectiveStep (Some result) ((fun err => ErrWrap "flowy: suspend retention failed: %w" [] err) <$> policyErr))
      end
  end.

Definition applyDirectiveHandoff (threadID current : string) state meta effects (revision : N) (base : Directive E) inv
  : st X (directiveStep T E) :=
  let reason := if dir_reason base == "" then "handoff" else dir_reason base in
  let* outcome := completeHandoffTerminal r threadID current state meta effects revision reason (directiveResumePointer current base) inv false in
  st_ret (terminalDirectiveStep (Some outcome.1) outcome.2).

(** The retry counters are a map shared with the loop, so they are returned with the step. *)
Definition applyDirectiveRetry (current : string) state meta effects (base : Directive E)
  : st X (gmap string Z * directiveStep T E) :=
  if (dir_maxAttempts base <=? 0)%Z then
    let* step := terminalFailDirectiveStep current state meta effects (ErrHost "flowy: Retry directive requires maxAttempts > 0") in
    st_ret (met_RetryCounts meta, step)
  else
    let count := (default 0 (met_RetryCounts meta !! current) + 1)%Z in
    let counts := <[current := count]> (met_RetryCounts meta) in
    let meta := meta <| met_RetryCounts := counts |> in
    if (dir_maxAttempts base <? count)%Z then
      let* failed := failRun current state meta effects ErrRetryBudgetExceeded in
      st_ret (counts, terminalDirectiveStep (Some failed.1) failed.2)
    else match gph_retryRoutes (rnr_graph r) !! current with
    | None =>
        let* step := terminalFailDirectiveStep current state meta effects
                       (ErrFmt "flowy: node %q returned Retry without AddRetryRoute" [current]) in
        st_ret (counts, step)
    | Some fallback => st_ret (counts, continueDirectiveStep fallback)
    end.

Definition applyDirectiveWait (threadID current : string) state meta effects (revision : N) (directive : Directive E)
  : st X (directiveStep T E) :=
  let fail meta (err : error) : st X (directiveStep T E) :=
    let* failed := failedResultWithReason state effects meta current durableWaitReason in
    st_ret (terminalDirectiveStep (Some failed) (Some err)) in
  match rnr_durable r with
  | None => fail meta ErrExecutionCapability
  | Some durable =>
      if negb (drb_waitBackend durable) then fail meta ErrExecutionCapability
      else match dir_wait directive with
      | None => fail meta ErrWaitInvalid
      | Some spec =>
          if negb (is_nil (validateWaitSpec spec)) || negb (is_nil (validateExecutionPointer (rnr_graph r) (wsp_EventPointer spec)))
             || negb (is_nil (validateExecutionPointer (rnr_graph r) (wsp_TimeoutPointer spec)))
          then fail meta ErrWaitInvalid
          else
            let* telemetryContext := telemetry in
            let* now := time_Now in
            let meta := endSegment (meta <| met_TelemetryContext := telemetryContext |>) now SegmentEndSuspend in
            let* armed := drb_armWait durable revision (mkSnapshot threadID current 0 state meta effects) spec in
            match armed with
            | Err err => fail meta err
            | Ok record =>
                let result := newRunResultSuspended state effects meta current durableWaitReason in
                let* registrationErr := drb_registerWait durable record in
                match registrationErr with
                | Some err => st_ret (terminalDirectiveStep (Some result) (Some err))
                | None =>
                    do* emitTerminalEvent (newRunEvent EventSuspended current state None durableWaitReason) in
                    st_ret (terminalDirectiveStep (Some result) None)
                end
            end
      end
  end.

Definition applyDirective (threadID current : string) state meta effects (revision : N) (base : Directive E) inv
  : st X (gmap string Z * directiveStep T E) :=
  let same (m : st X (directiveStep T E)) := let* step := m in st_ret (met_RetryCounts meta, step) in
  match dir_kind base with
  | directiveWait => same (applyDirectiveWait threadID current state meta effects revision base)
  | directiveCompleted => same (applyDirectiveCompleted current state meta effects)
  | directiveNext => same (terminalFailDirectiveStep current state meta effects ErrRemovedNext)
  | directiveEnd => same (finishCompleted current state meta effects SegmentEndComplete)
  | directiveSuspend => same (applyDirectiveSuspend threadID current state meta effects revision base inv)
  | directiveHandoff => same (applyDirectiveHandoff threadID current state meta effects revision base inv)
  | directiveRetry => applyDirectiveRetry current state meta effects base
  | directiveFail => same (applyDirectiveFail current state meta effects base)
  | directiveEffect | directiveZero =>
      same (terminalFailDirectiveStep current state meta effects (ErrHost "flowy: node returned unsupported directive"))
  end.

(** ** Interruptions *)
Definition interruptionSnapshot (threadID current : string) state meta effects : st X (res (Snapshot T E)) :=
  match rnr_durable r with
  | Some durable => let* loaded := drb_Load durable threadID in st_ret (p ← loaded; Ok p.1)
  | None => st_ret (Ok (mkSnapshot threadID current 0 state meta effects))
  end.

Definition failedDiagnosticResult state effects meta (current : string) (cause : option error) (restoreErr : error) : st X outcome :=
  let err := match errors_Join cause (Some restoreErr) with
             | Some e => ErrJoin ErrDurableStateUnavailable e
             | None => ErrDurableStateUnavailable
             end in
  let* failed := failedResultWithReason state effects meta current (String.append "diagnostic local state: " (error_text err)) in
  st_ret (failed, Some err).

Definition failedDurableStep (threadID current : string) state meta effects (commitErr : error) : st X outcome :=
  let* restored := interruptionSnapshot threadID current state meta effects in
  match restored with
  | Err err => failedDiagnosticResult state effects meta current (Some commitErr) err
  | Ok snapshot =>
      let* failed := failedResultWithReason (snp_State snapshot) (snp_Effects snapshot) (snp_RunMeta snapshot)
                       (snp_ExecutionPointer snapshot) (error_text commitErr) in
      st_ret (failed, Some commitErr)
  end.

Definition handleHandoff (threadID current : string) state meta effects (revision : N) inv : st X outcome :=
  let* restored := interruptionSnapshot threadID current state meta effects in
  let* cause := ctx_Cause in
  match restored with
  | Err restoreErr => failedDiagnosticResult state effects meta current cause restoreErr
  | Ok snapshot =>
      let reason := match cause with
                    | Some err => if errors_Is err ErrHandoffRequested then "background_handoff" else error_text err
                    | None => "background_handoff"
                    end in
      completeHandoffTerminal r threadID (snp_ExecutionPointer snapshot) (snp_State snapshot) (snp_RunMeta snapshot) (snp_Effects snapshot)
        revision reason "" inv true
  end.

Definition handleContextCancellation (threadID current : string) state meta effects (revision : N) (ctxErr : error) inv (consumerClose : bool)
  : st X outcome :=
  let* restored := interruptionSnapshot threadID current state meta effects in
  match restored with
  | Err restoreErr =>
      let* cause := ctx_Cause in
      failedDiagnosticResult state effects meta current (errors_Join (Some ctxErr) cause) restoreErr
  | Ok snapshot =>
      let state := snp_State snapshot in
      let effects := snp_Effects snapshot in
      let current := snp_ExecutionPointer snapshot in
      let* telemetryContext := telemetry in
      let* now := time_Now in
      let meta := endSegment ((snp_RunMeta snapshot) <| met_TelemetryContext := telemetryContext |>) now SegmentEndContextCanceled in
      let result := newRunResultContextCanceled state effects meta current in
      let* saved := persistSnapshot r revision (mkSnapshot threadID current 0 state meta effects) current state inv in
      match saved with
      | Err saveErr =>
          let result := result <| rr_Reason := ReasonContextCanceledSaveFailed |> in
          do* emitTerminalEvent (newRunEvent EventContextCanceled current state None (rr_Reason result)) in
          st_ret (result, Some (ErrWrap "flowy: context canceled and save failed: %w" [] saveErr))
      | Ok persisted =>
          let skipped := is_nil persisted && (inv_checkpointPolicy inv == CheckpointPolicySkipOnSaveError) in
          let result := if skipped then result <| rr_Reason := ReasonContextCanceledCheckpointSkipped |> else result in
          let result := match persisted with Some newRev => result <| rr_ResumeToken := mkToken threadID newRev |> | None => result end in
          let* policyErr := (if is_nil persisted then st_ret None else applyRetentionPolicy r threadID) in
          let result := match policyErr with Some _ => result <| rr_Reason := retentionFailedReason (rr_Reason result) |> | None => result end in
          do* emitTerminalEvent (newRunEvent EventContextCanceled current state None (rr_Reason result)) in
          match policyErr with
          | Some err => st_ret (result, Some (ErrWrap "flowy: context canceled, retention failed: %w" [] err))
          | None =>
              if skipped then
                let* done := ctx_Done in
                st_ret (result, Some (if consumerClose || is_nil done then (ErrCheckpointSkipped : error) else ErrWrap "flowy: %w" [] ctxErr))
              else st_ret (result, Some (ErrWrap "flowy: %w" [] ctxErr))
          end
      end
  end.

(** ** The loop *)
(** What an iteration finds out: the run is over, or it goes on. *)
Record loopState := mkLoop { lp_current : string; lp_state : T; lp_meta : RunMetadata; lp_effects : list E; lp_revision : N }.

Definition stepLimit : Z :=
  let limit := rcf_maxSteps (gph_defaults (rnr_graph r)) in if (limit <=? 0)%Z then defaultMaxSteps else limit.

(** The checks on the context before a node is entered and after it returned: handoff, lost
    lease, cancellation, in this order. [None]: the context is live. *)
Definition checkContext (threadID : string) (l : loopState) inv : st X (option outcome) :=
  let '(mkLoop current state meta effects revision) := l in
  let* cause := ctx_Cause in
  if cause_is cause ErrHandoffRequested then
    let* o := handleHandoff threadID current state meta effects revision inv in st_ret (Some o)
  else
    let* cause := ctx_Cause in
    if cause_is cause ErrLeaseLost then let* o := failRun current state meta effects ErrLeaseLost in st_ret (Some o)
    else
      let* done := ctx_Done in
      match done with
      | None => st_ret None
      | Some ctxErr =>
          let* closed := stream_closed in
          let* o := handleContextCancellation threadID current state meta effects revision ctxErr inv closed in st_ret (Some o)
      end.

(** A node step that returned an error. *)
Definition failedStep (threadID : string) (l : loopState) (stepErr : error) inv : st X outcome :=
  let '(mkLoop current state meta effects revision) := l in
  let* cause := ctx_Cause in
  if cause_is cause ErrLeaseLost then failRun current state meta effects ErrLeaseLost
  else
    let* done := ctx_Done in
    if negb (is_nil done) && (errors_Is stepErr ContextCanceled || errors_Is stepErr ContextDeadlineExceeded) then
      let* cause := ctx_Cause in
      if cause_is cause ErrHandoffRequested then handleHandoff threadID current state meta effects revision inv
      else
        let* done := ctx_Done in
        let* closed := stream_closed in
        handleContextCancellation threadID current state meta effects revision (default (ContextCanceled : error) done) inv closed
    else
      let* failed := failedResultWithReason state effects meta current (failReasonForStepErr stepErr) in
      st_ret (failed, Some stepErr).

(** A node step whose events the consumer refused. *)
Definition canceledStep (threadID : string) (l : loopState) inv : st X outcome :=
  let '(mkLoop current state meta effects revision) := l in
  let* cause := ctx_Cause in
  if cause_is cause ErrHandoffRequested then handleHandoff threadID current state meta effects revision inv
  else
    let* cause := ctx_Cause in
    if cause_is cause ErrLeaseLost then failRun current state meta effects ErrLeaseLost
    else handleContextCancellation threadID current state meta effects revision ContextCanceled inv true.

(** The durable commit of an applied directive. *)
Definition commitDirective (threadID : string) (l : loopState) (kind : directiveKind) (step : directiveStep T E)
  : st X (res (N * directiveStep T E)) :=
  let '(mkLoop current state meta effects revision) := l in
  match rnr_durable r with
  | None => st_ret (Ok (revision, step))
  | Some durable =>
      let* committed := drb_commitStep durable step kind state meta effects in
      st_ret (revision ← committed;
              Ok (revision, step <| stp_result := (fun result => result <| rr_ResumeToken := mkToken threadID revision |>) <$> stp_result step |>))
  end.

(** From a completed node step to the next iteration: [inl] goes on, [inr] is the result. *)
Definition directiveIteration (threadID : string) (l : loopState) (base : Directive E) inv
  : st X (loopState + option (RunResult T E) * option error) :=
  let '(mkLoop current state meta effects revision) := l in
  match checkBudgetLimits meta (rcf_budgetLimits (gph_defaults (rnr_graph r))) with
  | Some err => let* o := failRun current state meta effects err in st_ret (inr (Some o.1, o.2))
  | None =>
      let* cause := ctx_Cause in
      if cause_is cause ErrLeaseLost then let* o := failRun current state meta effects ErrLeaseLost in st_ret (inr (Some o.1, o.2))
      else
        let* applied := applyDirective threadID current state meta effects revision base inv in
        let meta := meta <| met_RetryCounts := applied.1 |> in
        let* committed := commitDirective threadID (mkLoop current state meta effects revision) (dir_kind base) applied.2 in
        match committed with
        | Err commitErr => let* o := failedDurableStep threadID current state meta effects commitErr in st_ret (inr (Some o.1, o.2))
        | Ok (revision, step) =>
            if stp_terminal step then st_ret (inr (stp_result step, stp_err step))
            else st_ret (inl (mkLoop (stp_nextNode step) state meta effects revision))
        end
  end.

Definition iteration (threadID : string) (l : loopState) inv : st X (loopState + option (RunResult T E) * option error) :=
  let stop (m : st X outcome) := let* o := m in st_ret (inr (Some o.1, o.2)) in
  let* interrupted := checkContext threadID l inv in
  match interrupted with
  | Some o => st_ret (inr (Some o.1, o.2))
  | None =>
      let '(mkLoop current state meta effects revision) := l in
      if (stepLimit <=? met_StepCount meta)%Z then stop (failRun current state meta effects ErrMaxStepsExceeded)
      else
        let* ran := runNodeStep current state meta effects inv in
        let '(step, stepErr) := ran in
        let next := mkLoop current (nso_state step) (nso_meta step) (nso_effects step) revision in
        match stepErr with
        | Some err => stop (failedStep threadID next err inv)
        | None =>
            if nso_emitCanceled step then stop (canceledStep threadID next inv)
            else
              let* interrupted := checkContext threadID next inv in
              match interrupted with
              | Some o => st_ret (inr (Some o.1, o.2))
              | None => directiveIteration threadID next (nso_base step) inv
              end
        end
  end.

(** [None]: out of fuel. *)
Fixpoint executeLoop (fuel : nat) (threadID : string) (l : loopState) inv : st X (option (option (RunResult T E) * option error)) :=
  match fuel with
  | O => st_ret None
  | S fuel =>
      let* outcome := iteration threadID l inv in
      match outcome with
      | inr result => st_ret (Some result)
      | inl l => executeLoop fuel threadID l inv
      end
  end.

(** The fuel an execution needs: one turn per step that is left, and one to refuse the next. *)
Definition executionFuel (meta : RunMetadata) : nat := S (Z.to_nat (stepLimit - met_StepCount meta)).
Definition execute (threadID startNode : string) state meta effects (revision : N) inv
  : st X (option (option (RunResult T E) * option error)) :=
  executeLoop (executionFuel meta) threadID (mkLoop startNode state meta effects revision) inv.
End Runner.
Arguments mkLoop {T E} _ _ _ _ _.
Arguments lp_current {T E} _.
Arguments lp_state {T E} _.
Arguments lp_meta {T E} _.
Arguments lp_effects {T E} _.
Arguments lp_revision {T E} _.
