(* ===== verification/RunnerInv.v ===== *)
(** * What a run guarantees

    Termination within the step limit, for any host; the cursor never leaves a compiled
    graph. *)

From stdpp Require Import relations.
From S2P Require Import Prelude Go Sha256 Json Identity Schedule Activity Waits Contract Children Aggregate Runtime Graph Handoff Runner.

(** ** Reasoning about the state monad *)
Section Computations.
Context {X : Type}.

Lemma st_bind_inv {A B} (m : st X A) (k : A -> st X B) x x' b : st_bind m k x = (x', b) <->
  exists x1 a, m x = (x1, a) /\ k a x1 = (x', b).
Proof.
  unfold st_bind. destruct (m x) as [x1 a]. split; [by eauto|]. by intros (? & ? & [= <- <-] & ?).
Qed.

(** What holds of every result of a computation, whatever state it starts in. *)
Definition always {A} (P : A -> Prop) (m : st X A) : Prop := forall x, P (m x).2.
Lemma always_ret {A} (P : A -> Prop) a : P a -> always P (st_ret a).
Proof. intros Ha x. exact Ha. Qed.
Lemma always_bind {A B} (P : B -> Prop) (m : st X A) (k : A -> st X B) : (forall a, always P (k a)) -> always P (st_bind m k).
Proof. intros Hk x. unfold st_bind. destruct (m x) as [x1 a]. apply Hk. Qed.
Lemma always_bind_with {A B} (Q : A -> Prop) (P : B -> Prop) (m : st X A) (k : A -> st X B) :
  always Q m -> (forall a, Q a -> always P (k a)) -> always P (st_bind m k).
Proof. intros Hm Hk x. unfold st_bind. specialize (Hm x). destruct (m x) as [x1 a]. by apply Hk. Qed.
Lemma always_run {A} (P : A -> Prop) (m : st X A) x x' a : always P m -> m x = (x', a) -> P a.
Proof. intros Hm E0. specialize (Hm x). by rewrite E0 in Hm. Qed.

End Computations.

(** Splits a run of [let*] into its parts. *)
Ltac st_inv H :=
  repeat (apply st_bind_inv in H; let x := fresh "x" in let a := fresh "a" in let Hm := fresh "Hm" in destruct H as (x & a & Hm & H)).

(** Reads [always] off the text of a computation. *)
Ltac always_auto :=
  repeat match goal with
  | |- always _ (st_ret _) => apply always_ret
  | |- always _ (st_bind _ _) => apply always_bind; intros ?
  | |- always _ (match ?m with _ => _ end) => destruct m
  | |- always _ (let '_ := ?m in _) => destruct m
  end; try done.

Section RunnerInv.
Context {X T E : Type} `{HH : RunnerHost X T E} (r : graphRunner X T E) (error_text : error -> string).
Implicit Types (inv : runInvocationOptions X T) (l : loopState (T := T) (E := E)).

Lemma node_step_count current state meta effects inv x x' step : runNodeStep r error_text current state meta effects inv x = (x', (step, None)) ->
  nso_emitCanceled step = false ->
  met_StepCount (nso_meta step) = (met_StepCount meta + 1)%Z /\ current ∈ dom (gph_nodes (rnr_graph r)) /\ plain (nso_base step).
Proof.
  unfold runNodeStep. destruct (gph_nodes (rnr_graph r) !! current) as [handler|] eqn:En; cycle 1.
  { intros Hr. st_inv Hr. done. }
  intros Hr Hc. apply elem_of_dom_2 in En. st_inv Hr. destruct a; cycle 1.
  { injection Hr as _ <-. done. }
  simpl in Hr. st_inv Hr. destruct a as [counts [[update directive]|err]]; simpl in Hr; cycle 1.
  { st_inv Hr. done. }
  destruct (_ ≫= _); [st_inv Hr; done|].
  destruct (UnwrapDirective directive) as [[base es]|] eqn:Eu; [|st_inv Hr; done].
  apply st_bind_inv in Hr as (x3 & [] & Hm1 & Hr); injection Hr as _ <-; [|done]. split_and!; try done. simpl.
  apply (unwrap_plain directive [] _ _ Eu).
Qed.

Lemma commitDirective_Ok threadID l kind step x x' revision step' :
  commitDirective r threadID l kind step x = (x', Ok (revision, step')) ->
  stp_terminal step' = stp_terminal step /\ stp_nextNode step' = stp_nextNode step /\ stp_err step' = stp_err step.
Proof.
  unfold commitDirective. destruct l. destruct (rnr_durable r); [|by intros [= _ _ <-]].
  intros Hc. st_inv Hc. destruct a as [n|]; [|done]. by injection Hc as _ _ <-.
Qed.

(** Readings of the host relate the states before and after by [quiet]; nothing else is
    assumed of them. *)
Record quiet_host (quiet : X -> X -> Prop) : Prop := {
  qh_order : PreOrder quiet;
  qh_cause : forall x, quiet x (ctx_Cause x).1;
  qh_done : forall x, quiet x (ctx_Done x).1;
  qh_now : forall x, quiet x (time_Now x).1;
  qh_telemetry : forall x, quiet x (telemetry x).1;
  qh_emit : forall event x, quiet x (sink_emit event x).1;
}.

Lemma checkContext_None quiet threadID l inv x x' : quiet_host quiet -> checkContext r error_text threadID l inv x = (x', None) -> quiet x x'.
Proof.
  intros Hq Hc. pose proof (qh_order _ Hq). unfold checkContext in Hc. destruct l. st_inv Hc. pose proof (qh_cause _ Hq x) as Q1. rewrite Hm in Q1.
  destruct (cause_is a _); [st_inv Hc; done|]. st_inv Hc. pose proof (qh_cause _ Hq x0) as Q2. rewrite Hm0 in Q2.
  destruct (cause_is a0 _); [st_inv Hc; done|]. st_inv Hc. pose proof (qh_done _ Hq x1) as Q3. rewrite Hm1 in Q3.
  destruct a1; [st_inv Hc; done|]. injection Hc as <-. simpl in *. by transitivity x0; [|transitivity x1].
Qed.

(** The parts of an iteration that goes on. *)
Record goes_on (quiet : X -> X -> Prop) threadID l inv (x x' : X) l' : Prop := {
  go_limit : (met_StepCount (lp_meta l) < stepLimit r)%Z;
  go_parts : exists x1 x2 x3 x4 step counts out out' revision,
    quiet x x1 /\
    runNodeStep r error_text (lp_current l) (lp_state l) (lp_meta l) (lp_effects l) inv x1 = (x2, (step, None)) /\
    nso_emitCanceled step = false /\ quiet x2 x3 /\
    applyDirective r error_text threadID (lp_current l) (nso_state step) (nso_meta step) (nso_effects step) (lp_revision l) (nso_base step) inv x3
      = (x4, (counts, out)) /\
    commitDirective r threadID (mkLoop (lp_current l) (nso_state step) ((nso_meta step) <| met_RetryCounts := counts |>) (nso_effects step) (lp_revision l))
      (dir_kind (nso_base step)) out x4 = (x', Ok (revision, out')) /\ stp_terminal out' = false /\
    l' = mkLoop (stp_nextNode out') (nso_state step) ((nso_meta step) <| met_RetryCounts := counts |>) (nso_effects step) revision;
}.

Lemma iteration_next quiet threadID l inv x x' l' : quiet_host quiet -> iteration r error_text threadID l inv x = (x', inl l') ->
  goes_on quiet threadID l inv x x' l'.
Proof.
  intros Hq Hi. pose proof (qh_order _ Hq). unfold iteration in Hi. apply st_bind_inv in Hi as (x1 & [o|] & Hc1 & Hi); [done|].
  apply (checkContext_None quiet) in Hc1; [|done]. destruct l as [current state meta effects revision].
  destruct (stepLimit r <=? met_StepCount meta)%Z eqn:El; [st_inv Hi; done|]. apply Z.leb_gt in El.
  apply st_bind_inv in Hi as (x2 & [step [err|]] & Hrun & Hi); [st_inv Hi; done|]. destruct (nso_emitCanceled step) eqn:Ec; [st_inv Hi; done|].
  apply st_bind_inv in Hi as (x2' & [o|] & Hc2 & Hi); [done|]. apply (checkContext_None quiet) in Hc2; [|done].
  unfold directiveIteration in Hi. destruct (checkBudgetLimits _ _); [st_inv Hi; done|]. apply st_bind_inv in Hi as (x3 & cause & Hm & Hi).
  pose proof (qh_cause _ Hq x2') as Q3. rewrite Hm in Q3. destruct (cause_is cause _); [st_inv Hi; done|].
  apply st_bind_inv in Hi as (x4 & [counts out] & Happ & Hi). apply st_bind_inv in Hi as (x5 & [[rev out']|err] & Hcom & Hi); [|st_inv Hi; done].
  destruct (stp_terminal out') eqn:Et; [done|]. injection Hi as <- <-. split; [done|]. simpl in *.
  eexists x1, x2, x3, x4, step, counts, out, out', rev. split_and!; try done. by transitivity x2'.
Qed.

Lemma any_quiet : quiet_host (fun _ _ => True).
Proof. split; try done. Qed.

Lemma iteration_counts threadID l inv x x' l' : iteration r error_text threadID l inv x = (x', inl l') ->
  (met_StepCount (lp_meta l) < stepLimit r)%Z /\ met_StepCount (lp_meta l') = (met_StepCount (lp_meta l) + 1)%Z.
Proof.
  intros [Hlim (x1 & x2 & x3 & x4 & step & counts & out & out' & rev & _ & Hrun & Hc & _ & _ & _ & _ & ->)]%(iteration_next _ _ _ _ _ _ _ any_quiet).
  split; [done|]. apply node_step_count in Hrun as (Hn & _ & _); [exact Hn|done].
Qed.

(** ** Termination *)
Lemma executeLoop_enough n threadID inv l x : (Z.to_nat (stepLimit r - met_StepCount (lp_meta l)) < n)%nat ->
  exists x' result, forall k, (n <= k)%nat -> executeLoop r error_text k threadID l inv x = (x', Some result).
Proof.
  revert l x. induction n as [|n IH]; intros l x Hn; [lia|]. destruct (iteration r error_text threadID l inv x) as [x1 [l1|result]] eqn:Ei.
  - apply iteration_counts in Ei as Hc. destruct Hc as [Hc1 Hc2]. destruct (IH l1 x1) as (x' & result & Hr); [lia|]. exists x', result.
    intros [|k] Hk; [lia|]. simpl. unfold st_bind. rewrite Ei. apply Hr. lia.
  - exists x1, result. intros [|k] Hk; [lia|]. simpl. unfold st_bind. by rewrite Ei.
Qed.

(** C19: every run terminates within its step limit. Whatever the handlers, routers, sinks and
    stores of the host do, [execute] returns, and it returns the same result with any larger
    amount of fuel, so the loop of the source makes at most one turn per step that the limit
    leaves and one more. *)
Theorem execution_terminates threadID startNode state meta effects revision inv x :
  exists x' result, execute r error_text threadID startNode state meta effects revision inv x = (x', Some result) /\
    forall fuel, (executionFuel r meta <= fuel)%nat ->
      executeLoop r error_text fuel threadID (mkLoop startNode state meta effects revision) inv x = (x', Some result).
Proof.
  destruct (executeLoop_enough (executionFuel r meta) threadID inv (mkLoop startNode state meta effects revision) x) as (x' & result & Hr).
  - unfold executionFuel. simpl. lia.
  - exists x', result. split; [by apply Hr|done].
Qed.

(** ** The cursor *)
Inductive run_step threadID inv : X * loopState (T := T) (E := E) -> X * loopState (T := T) (E := E) -> Prop :=
| RunStep x l x' l' : iteration r error_text threadID l inv x = (x', inl l') -> run_step threadID inv (x, l) (x', l').

Definition terminal_step (out : directiveStep T E) : Prop := stp_terminal out = true.

Lemma terminalFail_terminal current state meta effects err : always terminal_step (terminalFailDirectiveStep error_text current state meta effects err).
Proof. unfold terminalFailDirectiveStep. always_auto. Qed.
Lemma fail_terminal current state meta effects base : always terminal_step (applyDirectiveFail current state meta effects base).
Proof. unfold applyDirectiveFail. always_auto. Qed.
Lemma finish_terminal current state meta effects reason : always terminal_step (finishCompleted current state meta effects reason).
Proof. unfold finishCompleted. always_auto. Qed.
Lemma suspend_terminal threadID current state meta effects revision base inv :
  always terminal_step (applyDirectiveSuspend r threadID current state meta effects revision base inv).
Proof. unfold applyDirectiveSuspend. always_auto. Qed.
Lemma handoff_terminal threadID current state meta effects revision base inv :
  always terminal_step (applyDirectiveHandoff r threadID current state meta effects revision base inv).
Proof. unfold applyDirectiveHandoff. always_auto. Qed.
Lemma wait_terminal threadID current state meta effects revision base :
  always terminal_step (applyDirectiveWait r threadID current state meta effects revision base).
Proof. unfold applyDirectiveWait. always_auto. Qed.

(** A step that goes on goes to a node of a compiled graph. *)
Definition in_graph (out : directiveStep T E) : Prop := stp_terminal out = false -> stp_nextNode out ∈ dom (gph_nodes (rnr_graph r)).
Lemma terminal_in_graph (m : st X (directiveStep T E)) : always terminal_step m -> always in_graph m.
Proof. intros Hm x Ht. by rewrite (Hm x) in Ht. Qed.

Lemma retry_in_graph current state meta effects base : closed_graph (rnr_graph r) ->
  always (fun p => in_graph p.2) (applyDirectiveRetry r error_text current state meta effects base).
Proof.
  intros Hg. unfold applyDirectiveRetry. destruct (_ <=? _)%Z.
  { eapply always_bind_with; [apply terminal_in_graph, terminalFail_terminal|]. intros out Hout. by apply always_ret. }
  cbv zeta. destruct (_ <? _)%Z; [by always_auto|]. destruct (gph_retryRoutes (rnr_graph r) !! current) as [fallback|] eqn:Er.
  - apply always_ret. intros _. apply (cg_retry _ Hg _ _ Er).
  - eapply always_bind_with; [apply terminal_in_graph, terminalFail_terminal|]. intros out Hout. by apply always_ret.
Qed.

Lemma completed_in_graph current state meta effects : closed_graph (rnr_graph r) ->
  always in_graph (applyDirectiveCompleted r error_text current state meta effects).
Proof.
  intros Hg. unfold applyDirectiveCompleted.
  apply (always_bind_with (fun next => forall n, next = Ok n -> target_of (dom (gph_nodes (rnr_graph r))) n)).
  { intros x n Hn. destruct (resolveEdge (rnr_graph r) current state x) as [x1 next] eqn:Er. simpl in Hn. subst next. by eapply resolveEdge_target. }
  intros [next|err] Hnext; [|apply terminal_in_graph, terminalFail_terminal].
  case_bool_decide as He; [apply terminal_in_graph, finish_terminal|]. apply always_ret. intros _. by destruct (Hnext next).
Qed.

Lemma directive_in_graph threadID current state meta effects revision base inv : closed_graph (rnr_graph r) ->
  always (fun p => in_graph p.2) (applyDirective r error_text threadID current state meta effects revision base inv).
Proof.
  intros Hg. unfold applyDirective. destruct (dir_kind base); try (by apply retry_in_graph);
    (eapply (always_bind_with in_graph); [|intros out Hout; by apply always_ret]); try (by apply completed_in_graph); apply terminal_in_graph.
  - apply terminalFail_terminal.
  - apply finish_terminal.
  - apply suspend_terminal.
  - apply terminalFail_terminal.
  - apply fail_terminal.
  - apply handoff_terminal.
  - apply wait_terminal.
  - apply terminalFail_terminal.
Qed.

Lemma iteration_cursor threadID l inv x x' l' : closed_graph (rnr_graph r) -> iteration r error_text threadID l inv x = (x', inl l') ->
  lp_current l' ∈ dom (gph_nodes (rnr_graph r)).
Proof.
  intros Hg [_ (x1 & x2 & x3 & x4 & step & counts & out & out' & rev & _ & _ & _ & _ & Happ & Hcom & Ht & ->)]%(iteration_next _ _ _ _ _ _ _ any_quiet).
  apply commitDirective_Ok in Hcom as (E1 & E2 & _). simpl. rewrite E2. rewrite E1 in Ht.
  by apply (always_run _ _ _ _ _ (directive_in_graph threadID _ _ _ _ _ _ inv Hg) Happ).
Qed.

(** The cursor never leaves the graph. In a compiled graph, a run that starts at a node is
    at a node at every later turn, whatever the routers return and the store does, after at
    most as many turns as the step counter has advanced; so the lookup of the current node
    never fails. *)
Theorem cursor_stays_in_graph b opts threadID inv x l x' l' : Compile b opts = inr (rnr_graph r) ->
  lp_current l ∈ dom (gph_nodes (rnr_graph r)) -> rtc (run_step threadID inv) (x, l) (x', l') ->
  lp_current l' ∈ dom (gph_nodes (rnr_graph r)) /\ (met_StepCount (lp_meta l) <= met_StepCount (lp_meta l'))%Z.
Proof.
  intros Hb%compiled_closed Hl Hrun. remember (x, l) as p eqn:Ep. remember (x', l') as p' eqn:Ep'. revert x l x' l' Ep Ep' Hl.
  induction Hrun as [p|p q p' Hs Hrun IH]; intros x l x' l' -> Ep' Hl.
  - by injection Ep' as -> ->.
  - inversion Hs as [x0 l0 x1 l1 Hi]; subst. destruct (IH x1 l1 x' l' eq_refl eq_refl) as [H1 H2].
    + by eapply iteration_cursor.
    + apply iteration_counts in Hi as [_ Hc]. split; [done|lia].
Qed.
End RunnerInv.
