(* ===== verification/RunnerExample.v ===== *)
(** * A closed run

    A compiled graph of two nodes run by a host whose context is live and whose sink delivers
    every event: the first node completes and the cursor moves along the edge. *)

From stdpp Require Import relations.
From S2P Require Import Prelude Go Sha256 Json Identity Schedule Activity Waits Contract Children Aggregate Runtime Graph Handoff Runner RunnerInv.

#[local] Instance calm_host : RunnerHost unit Z Z := {|
  ctx_Cause x := (x, None); ctx_Done x := (x, None); stream_closed x := (x, false); time_Now x := (x, time_zero);
  telemetry x := (x, ∅); sink_emit _ x := (x, true);
|}.

Definition increment : Node unit Z Z := fun state counts x => (x, (counts, Ok (1%Z, Effect Completed state))).
Definition finish : Node unit Z Z := fun state counts x => (x, (counts, Ok (0%Z, End))).
Definition builder_example : GraphBuilder unit Z Z :=
  SetEntryPoint (AddEdge (AddEdge (AddNode (AddNode (NewGraph (Some Z.add)) "a" (Some increment)) "b" (Some finish)) "a" "b") "b" EndNode) "a".
Definition graph_example : Graph unit Z Z := buildGraph builder_example (applyBuildOptions [WithMaxSteps 5]).

Lemma graph_example_compiles : Compile builder_example [WithMaxSteps 5] = inr graph_example.
Proof. reflexivity. Qed.

Definition runner_example : graphRunner unit Z Z := mkRunner graph_example None [] None 0 None.
Definition options_example : runInvocationOptions unit Z :=
  mkInvocationOptions None None None None (mkMetaInput ∅ ∅) "" 0 (mkLease "" "" 0 time_zero) None false CheckpointPolicyUnset.
Definition fresh_meta : RunMetadata := mkRunMeta (mkSegment "" time_zero time_zero SegmentOpen) time_zero ∅ ∅ 0 ∅ HandoffStatusNone time_zero.
Definition at_a : loopState := mkLoop (T := Z) (E := Z) "a" 7%Z fresh_meta [] 0.
Definition at_b : loopState := mkLoop (T := Z) (E := Z) "b" 8%Z (fresh_meta <| met_StepCount := 1%Z |>) [7%Z] 0.
Definition silent (e : error) : string := "".

Lemma run_example : run_step runner_example silent "t" options_example (tt, at_a) (tt, at_b).
Proof. constructor. vm_compute. reflexivity. Qed.

Lemma cursor_stays_in_graph_witness : lp_current at_b ∈ dom (gph_nodes graph_example) /\ (0 <= 1)%Z.
Proof.
  apply (cursor_stays_in_graph runner_example silent builder_example [WithMaxSteps 5] "t" options_example tt at_a tt at_b).
  - apply graph_example_compiles.
  - vm_compute. by eexists.
  - apply rtc_once, run_example.
Defined.

(** The whole run: two nodes, the state incremented once, one effect, completed. *)
Lemma execute_example : exists meta, execute runner_example silent "t" "a" 7%Z fresh_meta [] 0 options_example tt =
  (tt, Some (Some (mkResult 8%Z RunStatusCompleted [7%Z] meta "b" "" no_token), None)).
Proof. eexists. vm_compute. reflexivity. Qed.
