(* ===== verification/DurableSession.v ===== *)
(** * A session as the storage of a run

    The part of durable_runner.go that binds the execution loop of Runner.v to a session: the
    checkpointer of the run is the session (Checkpointer.v), and so are its step commits, its
    restores and its armed waits. The runner state is the session. *)

From S2P Require Import Prelude Go Sha256 Json Identity Schedule Activity Waits Contract Children Wire Migration Integrity Aggregate Runtime Session ActivityCall ActivityCallInv Checkpointer CheckpointerInv Graph Handoff Runner RunnerInv.

(** What surrounds a run, as operations of the world. *)
Class WorldHost (W T E : Type) := {
  world_Cause : W -> W * option error;
  world_Done : W -> W * option error;
  world_closed : W -> W * bool;
  world_now : W -> W * Time;
  world_telemetry : W -> W * gmap string string;
  world_emit : RunEvent T E -> W -> W * bool;
}.
Arguments world_Cause {W} T E {_} _.
Arguments world_Done {W} T E {_} _.
Arguments world_closed {W} T E {_} _.
Arguments world_now {W} T E {_} _.
Arguments world_telemetry {W} T E {_} _.

Section Session.
Context {W T E : Type} `{HC : Codecs} `{HS : ExecutionStore W} `{HW : WorldHost W T E}.
Context (error_text : error -> string) (stateCodec : StateSerializer T) (effectsCodec : StateSerializer (list E)).
Context (history : option (N -> act W ExecutionEnvelope)).
Context (waitBackend : option (DurableWaitBackend W)) (waitProfile : option WaitCapabilityProfile).
Notation X := (executionCheckpointer W).

Definition in_world {A} (f : W -> W * A) : st X A := fun c => let '(w, a) := f (ckp_world c) in (c <| ckp_world := w |>, a).

#[export] Instance session_host : RunnerHost X T E := {|
  ctx_Cause := in_world (world_Cause T E);
  ctx_Done := in_world (world_Done T E);
  stream_closed := in_world (world_closed T E);
  time_Now := in_world (world_now T E);
  telemetry := in_world (world_telemetry T E);
  sink_emit event := in_world (world_emit event);
|}.

Definition error_only {A} (m : act W A) : st X (option error) := fun c => let '(c, r) := m c in (c, err_of r).

(** [graph.NewRunner(cp)] with [base.durable = cp]. *)
Definition session_checkpointer : CheckpointerOps X T E :=
  mkCheckpointerOps (saveLocked stateCodec effectsCodec) (Load stateCodec effectsCodec) (fun threadID retain => error_only (Prune threadID retain))
    (fun threadID => error_only (DeleteIfIdle threadID)) None.

Definition session_durable : DurableOps X T E :=
  mkDurableOps (commitStepLocked error_text stateCodec effectsCodec) (Load stateCodec effectsCodec) (negb (is_nil waitBackend))
    (armWaitLocked stateCodec effectsCodec waitBackend waitProfile)
    (fun record c => let '(w, err) := registerDurableWait waitBackend record (ckp_world c) in (c <| ckp_world := w |>, err)).

Definition session_runner (graph : Graph X T E) (staleAfter : Z) : graphRunner X T E :=
  mkRunner graph (Some session_checkpointer) [] None staleAfter (Some session_durable).
End Session.

(** ** What is committed at the boundaries of steps *)
Section Boundaries.
Context {W T E : Type} `{HC : Codecs} `{HS : ExecutionStore W} `{HK : !StoreContract W} `{HW : WorldHost W T E}.
Context (error_text : error -> string) (stateCodec : StateSerializer T) (effectsCodec : StateSerializer (list E)).
Context (waitBackend : option (DurableWaitBackend W)) (waitProfile : option WaitCapabilityProfile).
Context (graph : Graph (executionCheckpointer W) T E) (staleAfter : Z).
Notation X := (executionCheckpointer W).
Notation r := (session_runner error_text stateCodec effectsCodec waitBackend waitProfile graph staleAfter).
Implicit Types (c : X) (l : loopState (T := T) (E := E)).

(** The surroundings of a run do not move the heads of executions. *)
Definition framed {A} (f : W -> W * A) : Prop :=
  forall w, store_inv w -> store_inv (f w).1 /\ forall k, store_head (f w).1 k = store_head w k.
Class HostFrame : Prop := {
  hf_cause : framed (world_Cause T E);
  hf_done : framed (world_Done T E);
  hf_now : framed (world_now T E);
  hf_telemetry : framed (world_telemetry T E);
  hf_emit : forall event, framed (world_emit (T := T) (E := E) event);
}.
Context `{HF : HostFrame}.

(** A session of the execution [id] over a store that is intact. Nothing is said of how its
    envelope and the head compare: after a commit whose acknowledgement was lost they differ. *)
Context (id : string).
Definition hosted c : Prop := store_inv (ckp_world c) /\ env_ExecutionID (ckp_envelope c) = id.
Definition keeps {A} (m : st X A) : Prop := forall c, hosted c -> hosted (m c).1.

(** Handlers and routers work in the session of their execution, over the store it has: they
    may call activities and children, commit, fail to commit and lose acknowledgements
    ([callActivity_keeps] and its companions in SessionNodes.v). *)
Record graph_in_session : Prop := {
  gs_node : forall name node state counts, gph_nodes graph !! name = Some node -> keeps (node state counts);
  gs_router : forall name router state, gph_conditionalEdges graph !! name = Some router -> keeps (router state);
}.
Context (HG : graph_in_session).

Lemma keeps_ret {A} (a : A) : keeps (st_ret a).
Proof. intros c Hc. exact Hc. Qed.
Lemma keeps_bind {A B} (m : st X A) (k : A -> st X B) : keeps m -> (forall a, keeps (k a)) -> keeps (st_bind m k).
Proof. intros Hm Hk c Hc. unfold st_bind. specialize (Hm c Hc). destruct (m c) as [c1 a]. by apply Hk. Qed.
Lemma keeps_world {A} (f : W -> W * A) : framed f -> keeps (in_world f).
Proof.
  intros Hf c [Hi Hid]. unfold in_world. destruct (Hf _ Hi) as [Hi' _]. by destruct (f (ckp_world c)) as [w a].
Qed.
Lemma keeps_run {A} (m : st X A) c c' a : keeps m -> m c = (c', a) -> hosted c -> hosted c'.
Proof. intros Hm E0 Hc. specialize (Hm c Hc). by rewrite E0 in Hm. Qed.

Lemma hosted_quiet : quiet_host (X := X) (T := T) (E := E) (fun c c' => hosted c -> hosted c').
Proof.
  split.
  - split; [intros c; done|intros c1 c2 c3; by auto].
  - intros c. apply (keeps_world _ hf_cause).
  - intros c. apply (keeps_world _ hf_done).
  - intros c. apply (keeps_world _ hf_now).
  - intros c. apply (keeps_world _ hf_telemetry).
  - intros event c. apply (keeps_world _ (hf_emit event)).
Qed.

Ltac keeps_auto :=
  repeat match goal with
  | |- keeps (st_ret _) => apply keeps_ret
  | |- keeps (st_bind _ _) => apply keeps_bind; [|intros ?]
  | |- keeps (sink_emit _) => apply keeps_world, hf_emit
  | |- keeps (emitTerminalEvent _) => apply keeps_world, hf_emit
  | |- keeps (emitFailed _ _ _ _) => apply keeps_world, hf_emit
  | |- keeps time_Now => apply keeps_world, hf_now
  | |- keeps telemetry => apply keeps_world, hf_telemetry
  | |- keeps (match ?m with _ => _ end) => destruct m eqn:?
  end.

Lemma keeps_failed state effects meta pointer reason : keeps (failedResultWithReason (X := X) (E := E) state effects meta pointer reason).
Proof. unfold failedResultWithReason. keeps_auto. Qed.
Lemma keeps_failRun current state meta effects err : keeps (failRun (E := E) error_text current state meta effects err).
Proof. unfold failRun. keeps_auto. apply keeps_failed. Qed.
Lemma keeps_terminalFail current state meta effects err : keeps (terminalFailDirectiveStep (E := E) error_text current state meta effects err).
Proof. unfold terminalFailDirectiveStep. keeps_auto. apply keeps_failed. Qed.
Lemma keeps_finish current state meta effects reason : keeps (finishCompleted (E := E) current state meta effects reason).
Proof. unfold finishCompleted. keeps_auto. Qed.
Lemma keeps_fail current state meta effects base : keeps (applyDirectiveFail (X := X) (E := E) current state meta effects base).
Proof. unfold applyDirectiveFail. keeps_auto. Qed.
Lemma keeps_emitEffects current state es : keeps (emitEffects (E := E) current state es).
Proof. induction es as [|e es IH]; cbn [emitEffects]; keeps_auto. exact IH. Qed.

Lemma keeps_resolveEdge current state : keeps (resolveEdge graph current state).
Proof.
  intros c Hc. unfold resolveEdge. destruct (gph_edges graph !! current); [done|].
  destruct (gph_conditionalEdges graph !! current) as [router|] eqn:Er; [|done]. pose proof (gs_router HG _ _ state Er c Hc) as Hr.
  by destruct (router state c).
Qed.

Lemma keeps_runNodeStep current state meta effects inv : keeps (runNodeStep r error_text current state meta effects inv).
Proof.
  unfold runNodeStep. destruct (gph_nodes (rnr_graph r) !! current) as [handler|] eqn:En; keeps_auto.
  - apply (gs_node HG _ _ _ _ En).
  - apply keeps_emitEffects.
Qed.

Lemma keeps_completed current state meta effects : keeps (applyDirectiveCompleted r error_text current state meta effects).
Proof.
  unfold applyDirectiveCompleted. apply keeps_bind; [apply keeps_resolveEdge|]. intros [next|err]; [|apply keeps_terminalFail].
  destruct (_ == _); [apply keeps_finish|apply keeps_ret].
Qed.
Lemma keeps_retry current state meta effects base : keeps (applyDirectiveRetry r error_text current state meta effects base).
Proof.
  unfold applyDirectiveRetry. keeps_auto; apply keeps_terminalFail || apply keeps_failRun.
Qed.

(** The kinds of directives whose application only routes or fails. *)
Definition routing (kind : directiveKind) : bool :=
  match kind with directiveWait | directiveSuspend | directiveHandoff => false | _ => true end.
Lemma keeps_directive threadID current state meta effects revision base inv : routing (dir_kind base) = true ->
  keeps (applyDirective r error_text threadID current state meta effects revision base inv).
Proof.
  intros Hk. unfold applyDirective. destruct (dir_kind base); try done; try apply keeps_retry; (apply keeps_bind; [|intros ?; apply keeps_ret]).
  all: first [apply keeps_completed|apply keeps_finish|apply keeps_terminalFail|apply keeps_fail].
Qed.
Lemma stops_unless_routing threadID current state meta effects revision base inv x x' counts out :
  applyDirective r error_text threadID current state meta effects revision base inv x = (x', (counts, out)) -> stp_terminal out = false ->
  routing (dir_kind base) = true.
Proof.
  intros Ha Ht. unfold applyDirective in Ha. destruct (dir_kind base); try done; exfalso;
    apply st_bind_inv in Ha as (x1 & out1 & Hm & Ha); injection Ha as _ _ ->.
  - by rewrite (always_run _ _ _ _ _ (suspend_terminal r threadID current state meta effects revision base inv) Hm) in Ht.
  - by rewrite (always_run _ _ _ _ _ (handoff_terminal r threadID current state meta effects revision base inv) Hm) in Ht.
  - by rewrite (always_run _ _ _ _ _ (wait_terminal r threadID current state meta effects revision base) Hm) in Ht.
Qed.

(** The committed head holds exactly the state of the loop. *)
Record committed l c : Prop := {
  cmt_synced : synced c;
  cmt_id : env_ExecutionID (ckp_envelope c) = id;
  cmt_revision : env_Revision (ckp_envelope c) = lp_revision l /\ ckp_stepRevision c = lp_revision l;
  cmt_pointer : prg_ExecutionPointer (env_Progress (ckp_envelope c)) = lp_current l;
  cmt_state : Marshal stateCodec (lp_state l) = Ok (prg_StatePayload (env_Progress (ckp_envelope c)));
  cmt_effects : Marshal effectsCodec (lp_effects l) = Ok (env_EffectsPayload (ckp_envelope c));
  cmt_meta : env_RunMeta (ckp_envelope c) = lp_meta l;
}.

Lemma iteration_committed threadID l inv c c' l' : hosted c ->
  iteration r error_text threadID l inv c = (c', inl l') -> committed l' c'.
Proof.
  intros Hs Hi. apply (iteration_next _ _ _ _ _ _ _ _ _ hosted_quiet) in Hi
    as [_ (x1 & x2 & x3 & x4 & step & counts & out & out' & rev & Q1 & Hrun & Hcan & Q2 & Happ & Hcom & Ht & ->)].
  apply (keeps_run _ _ _ _ (keeps_runNodeStep _ _ _ _ _)) in Hrun; [|by apply Q1]. apply Q2 in Hrun.
  pose proof (commitDirective_Ok _ _ _ _ _ _ _ _ _ Hcom) as (E1 & E2 & _). rewrite Ht in E1. symmetry in E1.
  pose proof (stops_unless_routing _ _ _ _ _ _ _ _ _ _ _ _ Happ E1) as Hk.
  apply (keeps_run _ _ _ _ (keeps_directive _ _ _ _ _ _ _ _ Hk)) in Happ; [|done].
  unfold commitDirective in Hcom. cbn [rnr_durable session_runner] in Hcom. apply st_bind_inv in Hcom as (c5 & [n|] & Hc & Hcom); [|done].
  injection Hcom as <- <- <-. cbn [drb_commitStep session_durable] in Hc.
  destruct Happ as [Happ Hid].
  apply step_commits_all in Hc as (_ & H0 & H1 & H2 & H3 & H4 & H5 & H6 & H7 & H8 & _); [|done|by intros E0; rewrite E0 in Hk|by left].
  unfold step_pointer, step_meta in *. rewrite E1 in H5, H8. split; try done. by rewrite H0.
Qed.

Lemma tc_last {A} (R : relation A) x z : tc R x z -> exists y, rtc R x y /\ R y z.
Proof. induction 1 as [x z|x y z Hxy _ (y' & Hy & Hz)]; [by exists x|]. exists y'. split; [by eapply rtc_l|done]. Qed.
Lemma turns_hosted threadID inv p q : rtc (run_step r error_text threadID inv) p q -> hosted p.1 -> hosted q.1.
Proof.
  induction 1 as [p|p q p' Hst _ IH]; intros Hs; [done|]. apply IH. destruct Hst as [c l c' l' Hi].
  by apply iteration_committed in Hi as [[? _] ? _ _ _ _ _].
Qed.

(** C2: after each completed turn of a durable run the committed head is the state of the run.
    However many turns were made, at least one, the head of the execution is the envelope of
    the session, and it holds exactly the cursor, state, effects and counters with which the
    loop goes on, at the revision the loop carries: a crash between two turns loses nothing,
    and resuming from the head resumes that turn. The handlers may commit activities and
    children, and lose their acknowledgements; asked of them is that they work in the session
    of the execution, over a store that stays intact, and of the context, the clock, the
    telemetry and the event sink that they move no head. *)
Theorem step_boundary_durable threadID inv c l c' l' : hosted c ->
  tc (run_step r error_text threadID inv) (c, l) (c', l') -> committed l' c'.
Proof.
  intros Hs ([c1 l1] & Hrun & Hlast)%tc_last. apply turns_hosted in Hrun; [|done].
  inversion Hlast as [? ? ? ? Hi]; subst. by apply iteration_committed in Hi.
Qed.

(** ** Completed runs *)
Definition not_completed (o : RunResult T E * option error) : Prop := rr_Status o.1 <> RunStatusCompleted.
Lemma failed_status state effects meta pointer reason :
  always (X := X) (fun f => rr_Status f = RunStatusFailed) (failedResultWithReason (E := E) state effects meta pointer reason).
Proof. unfold failedResultWithReason. always_auto. Qed.
Lemma failRun_status current state meta effects err : always not_completed (failRun (X := X) (E := E) error_text current state meta effects err).
Proof.
  unfold failRun. do 2 (apply always_bind; intros ?). eapply always_bind_with; [apply failed_status|]. intros f Hf. apply always_ret.
  unfold not_completed. simpl. by rewrite Hf.
Qed.
Lemma diagnostic_status state effects meta current cause err :
  always not_completed (failedDiagnosticResult (X := X) (E := E) error_text state effects meta current cause err).
Proof.
  unfold failedDiagnosticResult. eapply always_bind_with; [apply failed_status|]. intros f Hf. apply always_ret.
  unfold not_completed. simpl. by rewrite Hf.
Qed.

Lemma failHandoff_status state effects meta pointer err context : always not_completed (failHandoffSave (X := X) (E := E) state effects meta pointer err context).
Proof.
  unfold failHandoffSave. apply always_bind; intros ?. eapply always_bind_with; [apply failed_status|]. intros f Hf. apply always_ret.
  unfold not_completed. simpl. by rewrite Hf.
Qed.
Lemma finalizeHandoff_status threadID pointer state reason (result : RunResult T E) signal persisted : rr_Status result <> RunStatusCompleted ->
  always not_completed (finalizeHandoffTerminal r threadID pointer state reason result signal persisted).
Proof.
  intros Hr. unfold finalizeHandoffTerminal, completeHandoffSession. always_auto; unfold not_completed; by repeat case_match.
Qed.
Lemma afterFailure_status threadID pointer state (result : RunResult T E) err : rr_Status result <> RunStatusCompleted ->
  always not_completed (handoffAfterEnqueueFailure r threadID pointer state result err).
Proof. intros Hr. unfold handoffAfterEnqueueFailure. always_auto; unfold not_completed; by repeat case_match. Qed.
Lemma dispatch_status cp threadID rev snapshot meta outbox ptr pointer state (result : RunResult T E) : rr_Status result <> RunStatusCompleted ->
  always (fun d => match d with inl result => rr_Status result <> RunStatusCompleted | inr o => not_completed o end)
    (dispatchPersistedHandoffOutbox r cp threadID rev snapshot meta outbox ptr pointer state result).
Proof.
  intros Hr. unfold dispatchPersistedHandoffOutbox. apply always_bind; intros fsm. destruct (errors_Join _ _); [|by always_auto].
  eapply always_bind_with; [by apply afterFailure_status|]. intros o Ho. by apply always_ret.
Qed.
Lemma completeHandoff_status threadID current state meta effects revision reason resumeAt inv signal :
  always not_completed (completeHandoffTerminal r threadID current state meta effects revision reason resumeAt inv signal).
Proof.
  unfold completeHandoffTerminal. do 2 (apply always_bind; intros ?). destruct (validateExecutionPointer _ _).
  { apply always_bind; intros ?. eapply always_bind_with; [apply failed_status|]. intros f Hf. apply always_ret. unfold not_completed. simpl. by rewrite Hf. }
  apply always_bind; intros now. apply (always_bind_with (fun t => t = None)).
  { destruct (resolveHandoffOutbox r inv); by unfold tryTransactionalHandoffSave. }
  intros ? ->. apply always_bind; intros [snapshot [[newRev|]|err]]; [| |apply failHandoff_status].
  - eapply (always_bind_with (fun d => match d with inl result => rr_Status result <> RunStatusCompleted | inr o => not_completed o end)).
    { destruct (resolveHandoffOutbox r inv); [by apply dispatch_status|by apply always_ret]. }
    intros [result|o] Hd; [by apply finalizeHandoff_status|by apply always_ret].
  - apply finalizeHandoff_status. destruct (_ == _); [|done]. by destruct (resolveHandoffOutbox r inv).
Qed.
Lemma handleHandoff_status threadID current state meta effects revision inv :
  always not_completed (handleHandoff r error_text threadID current state meta effects revision inv).
Proof. unfold handleHandoff. do 2 (apply always_bind; intros ?). destruct a; [apply completeHandoff_status|apply diagnostic_status]. Qed.
Lemma cancellation_status threadID current state meta effects revision err inv closed :
  always not_completed (handleContextCancellation r error_text threadID current state meta effects revision err inv closed).
Proof.
  unfold handleContextCancellation. apply always_bind; intros [snapshot|restoreErr]; [|apply always_bind; intros ?; apply diagnostic_status].
  do 3 (apply always_bind; intros ?). destruct a1 as [persisted|err']; [|by always_auto].
  apply always_bind; intros policyErr. apply always_bind; intros ?.
  always_auto; unfold not_completed; by repeat case_match.
Qed.
Lemma durableStep_status threadID current state meta effects err :
  always not_completed (failedDurableStep r error_text threadID current state meta effects err).
Proof.
  unfold failedDurableStep. apply always_bind; intros [snapshot|restoreErr]; [|apply diagnostic_status].
  eapply always_bind_with; [apply failed_status|]. intros f Hf. apply always_ret. unfold not_completed. simpl. by rewrite Hf.
Qed.

Lemma checkContext_status threadID l inv :
  always (fun o => match o with Some o => not_completed o | None => True end) (checkContext r error_text threadID l inv).
Proof.
  unfold checkContext. destruct l. apply always_bind; intros cause. destruct (cause_is cause _).
  { eapply always_bind_with; [apply handleHandoff_status|]. intros o Ho. by apply always_ret. }
  apply always_bind; intros cause'. destruct (cause_is cause' _).
  { eapply always_bind_with; [apply failRun_status|]. intros o Ho. by apply always_ret. }
  apply always_bind; intros [err|]; [|by apply always_ret]. apply always_bind; intros closed.
  eapply always_bind_with; [apply cancellation_status|]. intros o Ho. by apply always_ret.
Qed.
Lemma failedStep_status threadID l err inv : always not_completed (failedStep r error_text threadID l err inv).
Proof.
  unfold failedStep. destruct l. apply always_bind; intros cause. destruct (cause_is cause _); [apply failRun_status|].
  apply always_bind; intros done. destruct (_ && _).
  - apply always_bind; intros cause'. destruct (cause_is cause' _); [apply handleHandoff_status|].
    do 2 (apply always_bind; intros ?). apply cancellation_status.
  - eapply always_bind_with; [apply failed_status|]. intros f Hf. apply always_ret. unfold not_completed. simpl. by rewrite Hf.
Qed.
Lemma canceledStep_status threadID l inv : always not_completed (canceledStep r error_text threadID l inv).
Proof.
  unfold canceledStep. destruct l. apply always_bind; intros cause. destruct (cause_is cause _); [apply handleHandoff_status|].
  apply always_bind; intros cause'. destruct (cause_is cause' _); [apply failRun_status|apply cancellation_status].
Qed.

(** What a directive reports as completed is the state and effects it was given, at its node. *)
Definition completed_here (current : string) (state : T) (effects : list E) (out : directiveStep T E) : Prop :=
  forall result, stp_result out = Some result -> rr_Status result = RunStatusCompleted ->
    stp_terminal out = true /\ rr_State result = state /\ rr_Effects result = effects /\ rr_ExecutionPointer result = current /\ rr_Reason result = "".
Lemma not_completed_here current state effects (m : st X (directiveStep T E)) :
  always (fun out => forall result, stp_result out = Some result -> rr_Status result <> RunStatusCompleted) m -> always (completed_here current state effects) m.
Proof. intros Hm x result Hr Hc. by destruct (Hm x result Hr). Qed.
Lemma terminalFail_here current state meta effects err cur s es : always (completed_here cur s es) (terminalFailDirectiveStep (X := X) (E := E) error_text current state meta effects err).
Proof.
  apply not_completed_here. unfold terminalFailDirectiveStep. apply always_bind; intros ?. eapply always_bind_with; [apply failed_status|].
  intros f Hf. apply always_ret. intros result [= <-]. by rewrite Hf.
Qed.
Lemma finish_here current state meta effects reason : always (completed_here current state effects) (finishCompleted (X := X) (E := E) current state meta effects reason).
Proof. unfold finishCompleted. do 2 (apply always_bind; intros ?). apply always_ret. by intros result [= <-] _. Qed.

Lemma directive_here threadID current state meta effects revision base inv : routing (dir_kind base) = true ->
  always (fun p => completed_here current state effects p.2) (applyDirective r error_text threadID current state meta effects revision base inv).
Proof.
  intros Hk. unfold applyDirective. destruct (dir_kind base); try done.
  all: try (eapply (always_bind_with (completed_here current state effects)); [|intros out Hout; by apply always_ret]).
  all: try apply terminalFail_here; try apply finish_here.
  - unfold applyDirectiveCompleted. apply always_bind; intros [next|err]; [|apply terminalFail_here].
    destruct (_ == _); [apply finish_here|by apply always_ret].
  - unfold applyDirectiveRetry. destruct (_ <=? _)%Z; [eapply always_bind_with; [apply terminalFail_here|]; intros out Hout; by apply always_ret|].
    destruct (_ <? _)%Z.
    { eapply always_bind_with; [apply failRun_status|]. intros o Ho. apply always_ret. intros result [= <-] Hc. by destruct Ho. }
    destruct (_ !! _); [by apply always_ret|]. eapply always_bind_with; [apply terminalFail_here|]. intros out Hout. by apply always_ret.
  - apply not_completed_here. unfold applyDirectiveFail. do 3 (apply always_bind; intros ?). apply always_ret. by intros result [= <-].
Qed.
(** As [always_auto], remembering that a failed result is failed. *)
Ltac status_auto :=
  repeat match goal with
  | |- always _ (st_ret _) => apply always_ret
  | |- always _ (st_bind (failedResultWithReason _ _ _ _ _) _) => eapply always_bind_with; [apply failed_status|intros ? ?]
  | |- always _ (st_bind _ _) => apply always_bind; intros ?
  | |- always _ (match ?m with _ => _ end) => destruct m
  end.
Lemma directive_unfinished threadID current state meta effects revision base inv : routing (dir_kind base) = false ->
  always (fun p => forall result, stp_result p.2 = Some result -> rr_Status result <> RunStatusCompleted)
    (applyDirective r error_text threadID current state meta effects revision base inv).
Proof.
  intros Hk. unfold applyDirective.
  destruct (dir_kind base); try done;
    (eapply (always_bind_with (fun out => forall result, stp_result out = Some result -> rr_Status result <> RunStatusCompleted));
     [|intros out Hout; by apply always_ret]).
  - unfold applyDirectiveSuspend. status_auto; intros result [= <-]; repeat case_match; simpl; congruence.
  - unfold applyDirectiveHandoff. eapply always_bind_with; [apply completeHandoff_status|]. intros o Ho. apply always_ret. by intros result [= <-].
  - unfold applyDirectiveWait. status_auto; intros result [= <-]; simpl; congruence.
Qed.

(** A completed run is the committed head: its result, its terminal and its token. *)
Definition durably_completed threadID (result : RunResult T E) c : Prop :=
  committed (mkLoop (rr_ExecutionPointer result) (rr_State result) (rr_RunMeta result) (rr_Effects result) (env_Revision (ckp_envelope c))) c /\
  env_Terminal (ckp_envelope c) = Some (mkTerminal RunStatusCompleted "" None) /\
  rr_ResumeToken result = mkToken threadID (env_Revision (ckp_envelope c)).

(** The branch ends with a result that is not completed. *)
Tactic Notation "not_the_run" hyp(Hi) uconstr(status) :=
  apply st_bind_inv in Hi as (?x & ?o & ?Hm & Hi);
  match goal with Hm : _ = (_, ?o) |- _ => pose proof (always_run _ _ _ _ _ status Hm) as ?Hx end; by injection Hi as _ <- _.

Lemma directive_completes threadID l base inv c c' result : hosted c ->
  directiveIteration r error_text threadID l base inv c = (c', inr (Some result, None)) -> rr_Status result = RunStatusCompleted ->
  durably_completed threadID result c'.
Proof.
  intros Hs Hi Hc. unfold directiveIteration in Hi. destruct l as [current state meta effects revision].
  destruct (checkBudgetLimits _ _). { not_the_run Hi (failRun_status current state meta effects e). }
  apply st_bind_inv in Hi as (x3 & cause & Hm & Hi). apply (keeps_run _ _ _ _ (keeps_world _ hf_cause)) in Hm; [|done].
  destruct (cause_is cause _). { not_the_run Hi (failRun_status current state meta effects ErrLeaseLost). }
  apply st_bind_inv in Hi as (x4 & [counts out] & Happ & Hi). apply st_bind_inv in Hi as (x5 & [[rev out']|err] & Hcom & Hi); cycle 1.
  { not_the_run Hi (durableStep_status threadID current state (meta <| met_RetryCounts := counts |>) effects err). }
  unfold commitDirective in Hcom. cbn [rnr_durable session_runner] in Hcom. apply st_bind_inv in Hcom as (c5 & [n|] & Hcs & Hcom); [|done].
  injection Hcom as <- <- <-. cbn [stp_terminal eta_directiveStep upd] in Hi. destruct (stp_terminal out) eqn:Et; [|done].
  injection Hi as <- Hres Herr. cbn in Hres, Herr. destruct (stp_result out) as [res|] eqn:Er; [|done]. injection Hres as <-. cbn in Hc.
  destruct (routing (dir_kind base)) eqn:Hk; cycle 1.
  { by destruct (always_run _ _ _ _ _ (directive_unfinished threadID current state meta effects revision base inv Hk) Happ res Er). }
  pose proof (always_run _ _ _ _ _ (directive_here threadID current state meta effects revision base inv Hk) Happ res Er Hc) as (_ & E1 & E2 & E3 & E4).
  apply (keeps_run _ _ _ _ (keeps_directive _ _ _ _ _ _ _ _ Hk)) in Happ; [|done]. cbn [drb_commitStep session_durable snd] in Hcs.
  destruct Happ as [Happ Hid].
  apply step_commits_all in Hcs as (_ & H0 & H1 & H2 & H3 & H4 & H5 & H6 & H7 & H8 & H9 & _);
    [|done|by intros E0; rewrite E0 in Hk|right; exists res; by auto].
  unfold step_pointer, step_meta, step_terminal, makeExecutionTerminal in *. rewrite Et, Er in *. rewrite Hc, E4 in H9.
  split; [|split; [done|]]; cbn; rewrite ?H3; [|done]. split; cbn; rewrite ?E1, ?E2; try done. by rewrite H0.
Qed.

Lemma iteration_completes threadID l inv c c' result : hosted c ->
  iteration r error_text threadID l inv c = (c', inr (Some result, None)) -> rr_Status result = RunStatusCompleted ->
  durably_completed threadID result c'.
Proof.
  intros Hs Hi Hc. unfold iteration in Hi. apply st_bind_inv in Hi as (x1 & o & Hc1 & Hi).
  pose proof (always_run _ _ _ _ _ (checkContext_status threadID l inv) Hc1) as Ho. destruct o as [o|]; [by injection Hi as _ <- _|].
  apply (checkContext_None _ _ _ _ _ _ _ _ hosted_quiet) in Hc1; [|done]. destruct l as [current state meta effects revision].
  destruct (stepLimit r <=? met_StepCount meta)%Z. { not_the_run Hi (failRun_status current state meta effects ErrMaxStepsExceeded). }
  apply st_bind_inv in Hi as (x2 & [step [err|]] & Hrun & Hi). { not_the_run Hi (failedStep_status threadID _ err inv). }
  destruct (nso_emitCanceled step). { not_the_run Hi (canceledStep_status threadID _ inv). }
  apply (keeps_run _ _ _ _ (keeps_runNodeStep _ _ _ _ _)) in Hrun; [|done].
  apply st_bind_inv in Hi as (x2' & o & Hc2 & Hi). pose proof (always_run _ _ _ _ _ (checkContext_status _ _ _) Hc2) as Ho'.
  destruct o as [o|]; [by injection Hi as _ <- _|].
  apply (checkContext_None _ _ _ _ _ _ _ _ hosted_quiet) in Hc2; [|done]. by apply directive_completes in Hi.
Qed.

Lemma execute_completes threadID start state meta effects revision inv c c' result : hosted c ->
  execute r error_text threadID start state meta effects revision inv c = (c', Some (Some result, None)) ->
  rr_Status result = RunStatusCompleted -> durably_completed threadID result c'.
Proof.
  unfold execute. generalize (mkLoop start state meta effects revision) as l. revert c.
  induction (executionFuel r meta) as [|fuel IH]; intros c l Hs He Hc; [done|]. simpl in He.
  apply st_bind_inv in He as (c1 & [l1|o] & Hi & He).
  - apply (IH c1 l1); [|done..]. by apply iteration_committed in Hi as [[? _] ? _ _ _ _ _].
  - injection He as <- ->. by apply iteration_completes in Hi.
Qed.
End Boundaries.
