(* ===== verification/SessionNodes.v ===== *)
(** * What a handler may do in its session

    The condition that DurableSession.v puts on handlers and routers, [keeps], holds of the
    whole interface of a session: activity calls and the operations on child groups, on every
    path, with every acknowledgement that the store loses. Host callbacks keep it where they
    themselves do. *)

From S2P Require Import Prelude Go Sha256 Json Identity Schedule Activity Waits Contract Children Wire Migration Integrity Aggregate Runtime Session ActivityCall ActivityCallInv Checkpointer CheckpointerInv Graph Handoff Runner RunnerInv DurableSession.

#[local] Arguments validRuntimeText : simpl never.
#[local] Arguments sha256_hex : simpl never.

Section Nodes.
Context {W : Type} `{HC : Codecs} `{HS : ExecutionStore W} `{HK : !StoreContract W}.
Context (id : string).
Notation X := (executionCheckpointer W).
Notation keeps := (keeps id).

(** ** The monad of the session *)
Lemma keeps_ok {A} (a : A) : keeps (ret (W := W) a).
Proof. by intros c Hc. Qed.
Lemma keeps_throw {A} e : keeps (throw (W := W) (A := A) e).
Proof. by intros c Hc. Qed.
Lemma keeps_lift {A} (o : res A) : keeps (lift (W := W) o).
Proof. by intros c Hc. Qed.
Lemma keeps_act {A B} (m : act W A) (k : A -> act W B) : keeps m -> (forall a, keeps (k a)) -> keeps (bind m k).
Proof. intros Hm Hk c Hc. unfold bind. specialize (Hm c Hc). destruct (m c) as [c1 [a|e]]; [|done]. by apply Hk. Qed.
Lemma keeps_asking {A B} (f : X -> A) (k : A -> act W B) : (forall c, hosted id c -> keeps (k (f c))) -> keeps (bind (asking f) k).
Proof. intros Hk c Hc. by apply Hk. Qed.
Lemma keeps_wrap {A} f (m : act W A) : keeps m -> keeps (wrap_error f m).
Proof. intros Hm c Hc. unfold wrap_error. specialize (Hm c Hc). by destruct (m c) as [c1 [a|e]]. Qed.
Lemma keeps_reading {A} (f : W -> W * A) : framed f -> keeps (reading f).
Proof. intros Hf c [Hi Hid]. unfold reading. destruct (Hf _ Hi) as [Hi' _]. by destruct (f (ckp_world c)). Qed.
Lemma keeps_now : keeps (reading clock_Now).
Proof. apply keeps_reading. intros w Hw. by apply now_frame. Qed.
Lemma keeps_random : keeps (reading retry_random).
Proof. apply keeps_reading. intros w Hw. by apply random_frame. Qed.
Lemma keeps_live : keeps (fun c : X => (c, check (ctx_Err (ckp_world c)))).
Proof. by intros c Hc. Qed.
Lemma keeps_attempt {A} (m : act W A) : keeps m -> keeps (attempt_result m).
Proof. intros Hm c Hc. unfold attempt_result. specialize (Hm c Hc). by destruct (m c). Qed.

(** A commit keeps the session in its execution, refused, made or made without an answer. *)
Lemma keeps_commit target : env_ExecutionID target = id -> keeps (commit_target target).
Proof.
  intros Ht c [Hi Hid]. unfold commit_target. pose proof (commit_inv _ (env_Revision (ckp_envelope c)) (ckp_lease c) target Hi) as Hi'.
  destruct (store_commit _ _ _ _) as [w [e|err]] eqn:Ec; [|done]. apply commit_accepted in Ec as (_ & _ & Hs & _); [|done].
  apply seal_Ok in Hs as (b & _ & Es & _). split; [done|]. cbn. unfold cloneExecutionEnvelope. rewrite Es. by destruct target.
Qed.

Ltac keeps_auto :=
  repeat first
    [ match goal with |- DurableSession.keeps _ (bind (asking _) _) => apply keeps_asking; intros ? [_ ?] end
    | match goal with |- DurableSession.keeps _ (bind _ _) => apply keeps_act; [|intros ?] end
    | apply keeps_ok | apply keeps_throw | apply keeps_lift | apply keeps_now | apply keeps_random | apply keeps_live
    | apply keeps_wrap | apply keeps_attempt | (apply keeps_commit; done)
    | match goal with |- DurableSession.keeps _ (match ?m with _ => _ end) => destruct m end
    | done ].

(** ** Activities *)
Section Activities.
Context (error_text : error -> string) (forkPolicy : option (ForkExecutionPolicy W)) (forkMode : ForkActivityMode).

Lemma keeps_journal : keeps (readJournal (W := W)).
Proof. by intros c Hc. Qed.
Lemma keeps_persist journal record : keeps (persistActivity journal record).
Proof. unfold persistActivity. keeps_auto. Qed.
Lemma keeps_start request journal record : keeps (startAttempt (W := W) request journal record).
Proof. unfold startAttempt. keeps_auto. apply keeps_persist. Qed.
Lemma keeps_recover request journal record : keeps (recoverActivityLocked (W := W) request journal record).
Proof.
  intros c Hc. unfold recoverActivityLocked. destruct (_ && _); [done|]. destruct (_ && _); [done|].
  refine (keeps_act _ _ _ _ c Hc); [destruct (_ == _); [apply keeps_persist|apply keeps_ok]|intros journal'; keeps_auto].
Qed.
Lemma keeps_begin request : keeps (beginActivity (W := W) request).
Proof.
  unfold beginActivity. keeps_auto; first [apply keeps_journal|apply keeps_recover|apply keeps_persist|apply keeps_start].
Qed.
Lemma keeps_finishActivity identity result origin classification : keeps (finishActivityLocked error_text identity result origin classification).
Proof. unfold finishActivityLocked. keeps_auto; first [apply keeps_journal|apply keeps_persist]. Qed.

(** The callbacks of a call: its dispatcher and reconciler, the gate of a live fork, the
    activity of a fake one. *)
Record keeps_callbacks (request : ActivityRequest W) : Prop := {
  kc_dispatch : forall invocation, keeps (req_Dispatch request invocation);
  kc_reconcile : forall reconcile record, req_Reconcile request = Some reconcile -> keeps (reconcile record);
  kc_authorize : forall policy authorize lineage, forkPolicy = Some policy -> fpo_Authorize policy = Some authorize -> framed (authorize lineage);
  kc_fake : forall policy fake invocation, forkPolicy = Some policy -> fpo_FakeActivity policy = Some fake -> keeps (fake invocation);
}.
Lemma keeps_authorize request : keeps_callbacks request -> keeps (authorizeForkDispatch forkPolicy forkMode).
Proof.
  intros Hk. unfold authorizeForkDispatch. case_match; [apply keeps_ok|]. apply keeps_asking. intros c Hc.
  destruct (env_Fork (ckp_envelope c)) as [lineage|], forkPolicy as [policy|] eqn:Ep; try apply keeps_throw.
  destruct (fpo_Authorize policy) as [authorize|] eqn:Ea; [|apply keeps_throw]. case_match; [apply keeps_throw|].
  apply keeps_act; [apply keeps_live|intros _]. apply keeps_act; [|intros _; apply keeps_live]. apply keeps_wrap, keeps_act; [|intros ?; apply keeps_lift].
  apply keeps_reading. by apply (kc_authorize _ Hk _ _ lineage Ep Ea).
Qed.
Lemma keeps_forked request effective : keeps_callbacks request -> forkActivityRequest forkPolicy forkMode request = Ok effective ->
  (forall invocation, keeps (req_Dispatch effective invocation)) /\
  (forall reconcile record, req_Reconcile effective = Some reconcile -> keeps (reconcile record)).
Proof.
  intros Hk. unfold forkActivityRequest. case_match.
  { intros [= <-]. split; cbn.
    - intros invocation. apply keeps_act; [by eapply keeps_authorize|intros _; apply (kc_dispatch _ Hk)].
    - intros reconcile record. destruct (req_Reconcile request) as [rec|] eqn:Er; [|done]. intros [= <-].
      apply keeps_act; [by eapply keeps_authorize|intros _; by apply (kc_reconcile _ Hk)]. }
  case_match; [intros [= <-]; split; apply Hk|]. destruct forkPolicy as [policy|] eqn:Ep; [|done]. cbn.
  destruct (fpo_FakeActivity policy) as [fake|] eqn:Ef; [|done]. intros [= <-]. split; cbn; [|done].
  intros invocation. by apply (kc_fake _ Hk _ _ invocation Ep Ef).
Qed.

(** A call of an activity, whatever it commits and whatever is lost of it. *)
Lemma callActivity_keeps request : keeps_callbacks request -> keeps (callActivity error_text forkPolicy forkMode request).
Proof.
  intros Hk. unfold callActivity. destruct (forkActivityRequest _ _ _) as [effective|err] eqn:Ef; [|by intros c Hc].
  destruct (keeps_forked _ _ Hk Ef) as [Hd Hr]. intros c Hc. unfold bind at 1, lift at 1.
  refine (keeps_act _ _ (keeps_begin effective) _ c Hc). intros [outcome|invocation|record]; [apply keeps_ok| |].
  - apply keeps_act; [apply keeps_attempt, Hd|intros result; apply keeps_finishActivity].
  - destruct (req_Reconcile effective) as [reconcile|] eqn:Er; [|apply keeps_throw].
    apply keeps_act; [apply keeps_wrap; by apply Hr|intros payload; apply keeps_finishActivity].
Qed.
End Activities.

(** ** Child groups *)
Lemma keeps_groups : keeps (readGroups (W := W)).
Proof. by intros c Hc. Qed.
Lemma keeps_persistGroups groups : keeps (persistChildGroupsLocked (W := W) groups).
Proof. unfold persistChildGroupsLocked. keeps_auto. Qed.

Lemma prepareChildren_keeps plan available : keeps (prepareChildrenLocked (W := W) plan available).
Proof. unfold prepareChildrenLocked. keeps_auto; first [apply keeps_groups|apply keeps_persistGroups]. Qed.
Lemma recoverChildren_keeps identity : keeps (recoverChildLaunches (W := W) identity).
Proof. unfold recoverChildLaunches. keeps_auto; first [apply keeps_groups|apply keeps_persistGroups]. Qed.
Lemma beginChild_keeps identity childID : keeps (beginChildLocked (W := W) identity childID).
Proof. unfold beginChildLocked. keeps_auto; first [apply keeps_groups|apply keeps_persistGroups]. Qed.
Lemma finishChild_keeps error_text identity invocation result err : keeps (finishChildLocked (W := W) error_text identity invocation result err).
Proof. unfold finishChildLocked. keeps_auto; first [apply keeps_groups|apply keeps_persistGroups]. Qed.
Lemma returnBudget_keeps expected claim : keeps (returnChildBudgetLocked (W := W) expected claim).
Proof. unfold returnChildBudgetLocked. keeps_auto; first [apply keeps_groups|apply keeps_persistGroups]. Qed.
Lemma requestCancellation_keeps identity expected request : keeps (requestChildCancellationLocked (W := W) identity expected request).
Proof.
  unfold requestChildCancellationLocked. keeps_auto; first [apply keeps_groups|apply keeps_persistGroups|by intros c Hc].
Qed.
Lemma joinChildren_keeps expected merge : (forall children, keeps (merge children)) -> keeps (joinChildren expected merge).
Proof.
  intros Hm c Hc. unfold joinChildren. destruct (executionChildGroups _) as [groups|]; [|done]. destruct (assertedGroup _ _ _) as [group|]; [|done].
  destruct (joinedGroup group); [done|]. destruct (negb _); [done|]. refine (keeps_act _ _ keeps_live _ c Hc). intros _.
  apply keeps_act; [apply keeps_wrap, Hm|intros result]. keeps_auto. apply keeps_persistGroups.
Qed.
End Nodes.
