(* ===== verification/DurableExample.v ===== *)
(** * A closed durable run

    The session of ActivityExample.v runs a graph whose node "n" completes to "m": the step
    of CheckpointerExample.v is the turn of the loop, and node "m" ends the run. *)

From stdpp Require Import relations.
From S2P Require Import Prelude Go Sha256 Json Identity Schedule Activity ActivityInv Waits Contract Children Wire Migration Integrity Aggregate Runtime WireRecords Store StoreInv StoreExample Session ActivityCall ActivityCallInv StoreWorld ActivityExample Checkpointer CheckpointerInv CheckpointerExample Graph Handoff Runner RunnerInv DurableSession SessionNodes.

#[local] Opaque sha256_hex.
#[local] Arguments validRuntimeText : simpl never.

(** A host whose context is live and whose clock stands still. *)
#[export] Instance calm_world : WorldHost memory_world string string := {|
  world_Cause w := (w, None); world_Done w := (w, None); world_closed w := (w, false); world_now w := (w, at_second 2);
  world_telemetry w := (w, ∅); world_emit _ w := (w, true);
|}.
#[export] Instance calm_frame : HostFrame (W := memory_world) (T := string) (E := string).
Proof. split; repeat intro; by split. Qed.

(** A node that calls activity "k" and goes on with what it returns. *)
Definition calling_node : Node (executionCheckpointer memory_world) string string := fun state counts c =>
  let '(c, r) := callActivity text_of None NotForked (request_example "again") c in
  (c, (counts, match r with Ok o => Ok (out_Payload o, Effect Completed "e") | Err e => Err e end)).
Definition session_node (payload : string) (directive : Directive string) : Node (executionCheckpointer memory_world) string string :=
  fun state counts c => (c, (counts, Ok (payload, directive))).
Definition graph_of (node : Node (executionCheckpointer memory_world) string string) : Graph (executionCheckpointer memory_world) string string :=
  mkGraph (<["n" := node]> {["m" := session_node "last" End]}) {["n" := "m"]} ∅ ∅ ∅ "n" (fun _ update => update)
    (mkRunConfig 5 false 0 ∅).

Lemma calling_in_session id : graph_in_session (graph_of calling_node) id.
Proof.
  split; [|intros name router state Hr; simpl in Hr; by rewrite lookup_empty in Hr]. intros name node state counts Hn. simpl in Hn.
  apply lookup_insert_Some in Hn as [[_ <-]|[_ Hn]]; [|apply lookup_singleton_Some in Hn as [_ <-]; by intros c Hc].
  intros c Hc. unfold calling_node. assert (keeps_callbacks (W := memory_world) id None (request_example "again")) as Hk
    by (split; [intros invocation c1 Hc1; exact Hc1|discriminate..]).
  pose proof (callActivity_keeps id text_of None NotForked _ Hk c Hc) as Hx. by destruct (callActivity _ _ _ _ c) as [c1 [o|e]].
Qed.
Definition session_options : runInvocationOptions (executionCheckpointer memory_world) string :=
  mkInvocationOptions None None None None (mkMetaInput ∅ ∅) "" 0 (mkLease "" "" 0 time_zero) None false CheckpointPolicyUnset.
Definition before_step : RunMetadata := meta_example <| met_StepCount := 0%Z |>.

(** The store with the journal of "k" committed, and the session that resumes from it. *)
Definition store_journal : MemoryExecutionStore := put_checkpoint store_committed "x" 2 (String "w" (put (committed_journal journal_k))).
Lemma store_journal_ok : CommitExecution None (at_second 2) store_committed 1 owner_lease (with_journal journal_k) = Ok (store_journal, committed_journal journal_k).
Proof.
  destruct (commit_journal journal_k) as (s' & Hs'). rewrite Hs'. apply commit_Ok in Hs'; [|intros e _; exact I].
  destruct Hs' as [_ _ _ _ _ _ (b & Hb & _ & _ & ->)]. by injection Hb as <-.
Qed.
Definition session_journal : executionCheckpointer memory_world := session_of store_journal (committed_journal journal_k).
Definition at_n_journal : loopState := mkLoop (T := string) (E := string) "n" "p" before_step [] 2.
Lemma calls_k counts : calling_node "p" counts session_journal = (session_journal, (counts, Ok ("out", Effect Completed "e"))).
Proof.
  unfold calling_node. rewrite (call_replay text_of None NotForked (request_example "again") (request_example "again") _ journal_k completed_k); [reflexivity|done|..|done].
  - by apply journal_k_reads.
  - apply lookup_singleton_eq.
  - unfold activityConflict. by rewrite !bool_decide_eq_true_2.
Qed.
Lemma st_bind_run {X A B} (m : st X A) (k : A -> st X B) x x1 a : m x = (x1, a) -> st_bind m k x = k a x1.
Proof. intros Hm. unfold st_bind. by rewrite Hm. Qed.
Definition calling_run : graphRunner (executionCheckpointer memory_world) string string :=
  session_runner text_of text_codec texts_codec None None (graph_of calling_node) 0.
Lemma node_calls : runNodeStep calling_run text_of "n" "p" before_step [] session_options session_journal =
  (session_journal, ((blankNodeStepOutcome "out" meta_example ["e"]) <| nso_base := Completed |>, None)).
Proof.
  unfold runNodeStep. change (gph_nodes (rnr_graph calling_run) !! "n") with (Some calling_node). cbv iota.
  erewrite st_bind_run; [|reflexivity]. cbn [negb]. cbv zeta. erewrite st_bind_run; [|apply calls_k]. reflexivity.
Qed.
Lemma turn_journal : iteration calling_run text_of "x" at_n_journal session_options session_journal =
  (let '(c, committed) := commitStepLocked text_of text_codec texts_codec to_m directiveCompleted "out" meta_example ["e"] session_journal in
   match committed with
   | Err err => let '(c, o) := failedDurableStep calling_run text_of "x" "n" "out" meta_example ["e"] err c in (c, inr (Some o.1, o.2))
   | Ok revision => (c, inl (mkLoop "m" "out" meta_example ["e"] revision))
   end).
Proof.
  unfold iteration. cbv zeta. erewrite st_bind_run; [|reflexivity]. cbv iota beta.
  unfold at_n_journal. cbv iota beta. change (stepLimit calling_run <=? met_StepCount before_step)%Z with false. cbv iota.
  erewrite st_bind_run; [|apply node_calls]. cbv iota beta. reflexivity.
Qed.

(** The commit of that turn. *)
Definition after_call : ExecutionEnvelope :=
  snapshot_target ((cloneExecutionEnvelope (committed_journal journal_k)) <| env_Activation := 2%N |>
    <| env_Progress := (env_Progress sealed_example) <| prg_JournalReferences := ∅ |> <| prg_ChildGroupReferences := ∅ |> |>)
    (mkSnapshot (E := string) "x" "m" 0 "out" meta_example ["e"]) "out" "e".
Definition third_revision (e : ExecutionEnvelope) : ExecutionEnvelope :=
  e <| env_Revision := 3%N |> <| env_Digest := sha256_hex (String "w" (put (e <| env_Revision := 3%N |> <| env_Digest := "" |>))) |>.
Lemma store_journal_reachable : store_reachable store_journal.
Proof. eapply rtc_r; [apply store_committed_reachable|]. eapply sstep_commit, store_journal_ok. intros e _. exact I. Qed.
Lemma journal_loads : LoadExecution None store_journal "x" = Ok (committed_journal journal_k).
Proof.
  refine (commit_loads (at_second 2) store_committed 1 owner_lease (with_journal journal_k) store_journal _ _ _).
  - apply reachable_ok, store_committed_reachable.
  - apply commit_Ok; [intros e _; exact I|apply store_journal_ok].
Qed.
Lemma commit_third : exists s', CommitExecution None (at_second 2) store_journal 2 owner_lease after_call = Ok (s', third_revision after_call).
Proof.
  refine (commit_complete (at_second 2) store_journal owner_lease after_call (third_revision after_call) (Some (committed_journal journal_k)) _ _ _ _ _ _ _ _ _);
    [done|reflexivity..| |reflexivity|reflexivity|reflexivity|exact I].
  change (env_ExecutionID after_call) with "x". change (head_of store_journal "x") with 2%N. cbv iota.
  pose proof journal_loads as Hl. unfold LoadExecution in Hl. cbn [check mbind res_bind] in Hl. change (head_of store_journal "x") with 2%N in Hl. cbv zeta in Hl.
  rewrite bool_decide_eq_false_2 in Hl by done. change (0 <? 2)%N with true. cbv iota. by rewrite Hl.
Qed.
Lemma journal_resolved : resolvedActivities (committed_journal journal_k) = None.
Proof.
  apply resolution_gate_exact. exists ∅, ∅, journal_k. split_and!; [reflexivity|reflexivity|by apply journal_k_reads|apply map_Forall_empty..|].
  apply map_Forall_singleton. intros _. by left.
Qed.
Lemma journal_commits : exists c', commitStepLocked text_of text_codec texts_codec to_m directiveCompleted "out" meta_example ["e"] session_journal
  = (c', Ok 3%N).
Proof.
  destruct commit_third as (s' & Hs'). eexists.
  unfold commitStepLocked. rewrite (bool_decide_eq_false_2 (directiveCompleted = directiveWait)) by done.
  unfold bind, resolvedActivitiesLocked. change (ckp_envelope session_journal) with (committed_journal journal_k). rewrite journal_resolved.
  cbv iota zeta beta. change (stp_terminal to_m) with false. cbv iota.
  rewrite (bool_decide_eq_false_2 (directiveCompleted = directiveRetry)) by done. cbn [negb orb check].
  unfold persistSnapshotLocked, bind, marking. cbn [Marshal text_codec texts_codec snp_State snp_Effects]. cbv iota beta zeta.
  unfold commit_target. cbn [store_commit memory_execution_store].
  change (mw_context _ _) with (@None error). change (mw_clock _ _) with (at_second 2). change (mw_store _) with store_journal.
  change (env_Revision (ckp_envelope session_journal)) with 2%N. change (ckp_lease session_journal) with owner_lease.
  match goal with |- context [CommitExecution _ _ _ _ _ ?e] => change e with after_call end.
  rewrite Hs'. reflexivity.
Qed.

(** A turn whose node calls an activity. *)
Lemma step_boundary_durable_witness : exists (c' : executionCheckpointer memory_world) (l' : loopState),
  lp_current l' = "m" /\ lp_state l' = "out" /\ committed text_codec texts_codec "x" l' c'.
Proof.
  destruct journal_commits as (c' & Hc'). pose proof turn_journal as Hi. rewrite Hc' in Hi.
  exists c', (mkLoop "m" "out" meta_example ["e"] 3%N). split; [reflexivity|]. split; [reflexivity|].
  apply (step_boundary_durable text_of text_codec texts_codec None None (graph_of calling_node) 0 "x"
    (calling_in_session _) "x" session_options session_journal at_n_journal).
  - split; [exact store_journal_reachable|reflexivity].
  - apply tc_once. constructor. exact Hi.
Defined.

