(* ===== verification/MemoryCheckpointer.v ===== *)
(** * Ordinary checkpointers

    The contract of [Checkpointer] in flowy.go as a class, and the in-memory checkpointer of
    testutil/memory_checkpointer.go, which keeps it. Snapshots are values, so the copies the
    source makes are the snapshots themselves.

    A save that fails changed nothing, or took effect although its acknowledgement was lost, as
    a commit of a database may. *)

From S2P Require Import Prelude Go Sha256 Json Identity Schedule Activity Waits Contract Children Aggregate Runtime Graph Handoff.

(** [stored x threadID] is the latest snapshot of a thread with its revision. *)
Class CheckpointerContract {X T E : Type} (cp : CheckpointerOps X T E) := {
  stored : X -> string -> option (Snapshot T E * N);
  save_accepted : forall n s x x' m, cp_Save cp n s x = (x', Ok m) ->
    default 0%N (snd <$> stored x (snp_ThreadID s)) = n /\ m = (n + 1)%N /\
    stored x' (snp_ThreadID s) = Some (s <| snp_Revision := m |>, m) /\
    forall t, t <> snp_ThreadID s -> stored x' t = stored x t;
  save_refused : forall n s x x' err, cp_Save cp n s x = (x', Err err) -> (forall t, stored x' t = stored x t) \/
    (default 0%N (snd <$> stored x (snp_ThreadID s)) = n /\
     stored x' (snp_ThreadID s) = Some (s <| snp_Revision := (n + 1)%N |>, (n + 1)%N) /\
     forall t, t <> snp_ThreadID s -> stored x' t = stored x t);
  load_latest : forall x x' t s n, cp_Load cp t x = (x', Ok (s, n)) -> stored x t = Some (s, n);
  load_keeps : forall x t k, stored (cp_Load cp t x).1 k = stored x k;
}.

(** ** The in-memory checkpointer *)
Definition ValidateSnapshotHeader (threadID : string) (revision : N) (pointer : ExecutionPointer) : option error :=
  if (threadID == "") || (pointer == "") || (revision == 0%N) || negb (validRuntimeText [threadID; pointer])
  then Some (ErrWrap "%w: nonempty UTF-8 identity, pointer and positive revision required" [] ErrSnapshotEnvelopeInvalid) else None.

Section Memory.
Context {T E : Type}.
Definition MemoryCheckpointer : Type := gmap string (list (Snapshot T E)).
Definition NewMemoryCheckpointer : MemoryCheckpointer := ∅.
Definition memory_items (m : MemoryCheckpointer) (threadID : string) : list (Snapshot T E) := default [] (m !! threadID).

Definition memorySave (expectedRevision : N) (snapshot : Snapshot T E) : st MemoryCheckpointer (res N) := fun m =>
  if expectedRevision == max_uint64 then (m, Err ErrExecutionCapability)
  else match ValidateSnapshotHeader (snp_ThreadID snapshot) (expectedRevision + 1) (snp_ExecutionPointer snapshot) with
  | Some err => (m, Err err)
  | None =>
      let items := memory_items m (snp_ThreadID snapshot) in
      let current := match last items with Some latest => snp_Revision latest | None => 0%N end in
      if current != expectedRevision then (m, Err ErrConcurrencyConflict)
      else
        let newRevision := (expectedRevision + 1)%N in
        (<[snp_ThreadID snapshot := items ++ [snapshot <| snp_Revision := newRevision |>]]> m, Ok newRevision)
  end.

Definition memoryLoad (threadID : string) : st MemoryCheckpointer (res (Snapshot T E * N)) := fun m =>
  match last (memory_items m threadID) with
  | None => (m, Err ErrThreadNotFound)
  | Some latest => (m, Ok (latest, snp_Revision latest))
  end.

Definition memoryGetHistory (threadID : string) (limit : Z) : st MemoryCheckpointer (list (Snapshot T E)) := fun m =>
  let items := memory_items m threadID in
  let limit := if (limit <=? 0)%Z || (len items <? limit)%Z then len items else limit in
  (m, take (Z.to_nat limit) (rev items)).

Definition memoryPrune (threadID : string) (retainCount : Z) : st MemoryCheckpointer (option error) := fun m =>
  let items := memory_items m threadID in
  if len items == 0%Z then (m, None)
  else if (retainCount <=? 0)%Z then (delete threadID m, None)
  else if (len items <=? retainCount)%Z then (m, None)
  else (<[threadID := drop (length items - Z.to_nat retainCount) items]> m, None).

Definition memoryDelete (threadID : string) : st MemoryCheckpointer (option error) := fun m => (delete threadID m, None).

Definition memory_checkpointer : CheckpointerOps MemoryCheckpointer T E :=
  mkCheckpointerOps memorySave memoryLoad memoryPrune memoryDelete None.

Lemma memory_items_insert (m : gmap string (list (Snapshot T E))) t l k :
  memory_items (<[t := l]> m) k = if decide (t = k) then l else memory_items m k.
Proof.
  unfold memory_items. destruct (decide (t = k)) as [->|Hk]; [by rewrite (lookup_insert_eq m)|by rewrite (lookup_insert_ne m)].
Qed.

#[export] Instance memory_checkpointer_contract : CheckpointerContract memory_checkpointer.
Proof.
  refine {| stored := fun m t => (fun s => (s, snp_Revision s)) <$> last (memory_items m t) |}.
  - intros n s x x' m. cbn [cp_Save memory_checkpointer]. unfold memorySave. guard_goal; [done|]. destruct (ValidateSnapshotHeader _ _ _); [done|].
    guard_goal; [done|]. intros [= <- <-]. apply negb_false_iff, bool_decide_eq_true in Hg0.
    split_and!; [by destruct (last _)|done| |].
    + by rewrite memory_items_insert, decide_True, last_snoc.
    + intros t Ht. by rewrite memory_items_insert, decide_False.
  - intros n s x x' err. cbn [cp_Save memory_checkpointer]. unfold memorySave. guard_goal; [intros [= <-]; by left|].
    destruct (ValidateSnapshotHeader _ _ _); [intros [= <-]; by left|]. guard_goal; [intros [= <-]; by left|done].
  - intros x x' t s n. cbn [cp_Load memory_checkpointer]. unfold memoryLoad. destruct (last (memory_items x t)) eqn:El; [|done].
    by intros [= _ <- <-].
  - intros x t k. cbn [cp_Load memory_checkpointer]. unfold memoryLoad. by destruct (last (memory_items x t)).
Defined.
End Memory.
Arguments MemoryCheckpointer : clear implicits.
