(* ===== verification/HandoffInv.v ===== *)
(** * What a handoff reports is what is stored

    On any checkpointer that keeps its contract: whichever of the three phases of a handoff
    fails, the status, the pending time and the token reported are those that its last
    acknowledged save stored; only a failed save that took effect all the same can leave
    another snapshot, and then an error is reported. A run is reported as enqueued without an
    error only when the outbox accepted the intent that names the stored revision. *)

From S2P Require Import Prelude Go Sha256 Json Identity Schedule Activity Waits Contract Children Aggregate Runtime Graph Handoff Runner RunnerInv MemoryCheckpointer.

Section HandoffInv.
Context {X T E : Type} `{HH : RunnerHost X T E} (cp : CheckpointerOps X T E) `{HC : !CheckpointerContract cp}.
Implicit Types (snapshot : Snapshot T E) (meta : RunMetadata) (outbox : HandoffOutbox X).

(** An operation that leaves the stored snapshots alone. *)
Definition storage_free {A} (m : st X A) : Prop := forall x t, stored (m x).1 t = stored x t.
Context (now_free : storage_free time_Now).

(** What is stored under a thread and what a handoff reports about it agree. *)
Record reported (x : X) (threadID : string) (fsm : handoffOutboxFSMResult) : Prop := {
  rpt_token : tok_ThreadID (fsm_ResumeToken fsm) = threadID;
  rpt_stored : exists s, stored x threadID = Some (s, tok_SnapshotRevision (fsm_ResumeToken fsm)) /\
    met_HandoffStatus (snp_RunMeta s) = fsm_PersistedStatus fsm /\ met_HandoffPendingAt (snp_RunMeta s) = fsm_PersistedPendingAt fsm;
}.

Definition patched meta (status : HandoffStatus) (now : Time) : RunMetadata :=
  meta <| met_HandoffStatus := status |> <| met_HandoffPendingAt := if status == HandoffStatusPending then toUTC now else time_zero |>.

Lemma patch_Ok rev snapshot meta status x x' rev' :
  patchHandoffStatus cp rev snapshot meta status x = (x', Ok rev') ->
  rev' = (rev + 1)%N /\ exists now, stored x' (snp_ThreadID snapshot) =
    Some (snapshot <| snp_RunMeta := patched meta status now |> <| snp_Revision := rev' |>, rev').
Proof.
  unfold patchHandoffStatus. intros Hp. apply st_bind_inv in Hp as (x1 & now & Hn & Hp). apply save_accepted in Hp as (_ & -> & Hs & _).
  split; [done|]. by exists now.
Qed.
Lemma patch_saved rev snapshot meta status x x' rev' : patchHandoffStatus cp rev snapshot meta status x = (x', Ok rev') ->
  exists s n x0, cp_Save cp n s x0 = (x', Ok rev').
Proof. unfold patchHandoffStatus. intros Hp. apply st_bind_inv in Hp as (x1 & now & _ & Hp). by eexists _, _, x1. Qed.
Lemma patch_Err rev snapshot meta status x x' err :
  patchHandoffStatus cp rev snapshot meta status x = (x', Err err) -> (forall t, stored x' t = stored x t) \/
    exists now, stored x' (snp_ThreadID snapshot) = Some (snapshot <| snp_RunMeta := patched meta status now |> <| snp_Revision := (rev + 1)%N |>, (rev + 1)%N).
Proof.
  unfold patchHandoffStatus. intros Hp. apply st_bind_inv in Hp as (x1 & now & Hn & Hp).
  apply save_refused in Hp as [Hp|(_ & Hp & _)]; [left; intros t|right; by exists now]. rewrite Hp.
  pose proof (now_free x t) as Hf. by rewrite Hn in Hf.
Qed.
Lemma enqueue_free outbox intent x x' e : (forall i, storage_free (EnqueueIntent outbox i)) ->
  enqueueHandoffIntent outbox intent x = (x', e) -> forall t, stored x' t = stored x t.
Proof.
  intros Ho He t. unfold enqueueHandoffIntent in He. destruct (validateHandoffIntent intent); [by injection He as <- _|].
  apply st_bind_inv in He as (x1 & failure & Hm & He). injection He as <- _. pose proof (Ho intent x t) as Hf. by rewrite Hm in Hf.
Qed.
Lemma enqueue_accepted outbox intent x x' : enqueueHandoffIntent outbox intent x = (x', None) ->
  validateHandoffIntent intent = None /\ EnqueueIntent outbox intent x = (x', None).
Proof.
  unfold enqueueHandoffIntent. destruct (validateHandoffIntent intent); [done|]. intros He. apply st_bind_inv in He as (x1 & [failure|] & Hm & He).
  - done.
  - by injection He as <-.
Qed.

(** The outbox accepted, in a state in which the snapshot of [token] is stored as enqueued, the
    intent that names it. *)
Definition enqueued outbox (threadID : string) (pendingRev : N) (ptr : ExecutionPointer) (reason : string) (token : ResumeToken) : Prop :=
  exists intent x1 x2 s, EnqueueIntent outbox intent x1 = (x2, None) /\ validateHandoffIntent intent = None /\ int_ThreadID intent = threadID /\
    int_ExecutionPointer intent = ptr /\ int_Reason intent = reason /\ int_ResumeToken intent = token /\ int_PendingSnapshotRevision intent = pendingRev /\
    stored x1 threadID = Some (s, tok_SnapshotRevision token) /\ met_HandoffStatus (snp_RunMeta s) = HandoffStatusEnqueued.

(** The last save took effect and its acknowledgement was lost: the snapshot is one revision
    further than reported, with the status that was to be stored, enqueued after pending and
    orphaned after enqueued. *)
Definition further (x : X) (threadID : string) (revision : N) (status : HandoffStatus) : Prop :=
  exists s, stored x threadID = Some (s, (revision + 1)%N) /\ met_HandoffStatus (snp_RunMeta s) = status.
Definition overtaken (x : X) (threadID : string) (fsm : handoffOutboxFSMResult) : Prop :=
  fsm_PatchErr fsm <> None /\ further x threadID (tok_SnapshotRevision (fsm_ResumeToken fsm))
    (if fsm_PersistedStatus fsm == HandoffStatusPending then HandoffStatusEnqueued else HandoffStatusOrphaned).
Definition saved (x : X) (revision : N) : Prop := exists s n x0, cp_Save cp n s x0 = (x, Ok revision).

(** The two ways the protocol ends: the first save failed, or some save was acknowledged. *)
Record first_failed (threadID : string) (rev : N) meta (x x' : X) (fsm : handoffOutboxFSMResult) : Prop := {
  ff_error : exists e, fsm = mkFSMResult (mkToken threadID rev) None (wrapHandoffPatchFailed (Some e)) HandoffStatusPending
    (persistedHandoffPendingAt HandoffStatusPending (met_HandoffPendingAt meta));
  ff_stored : (forall t, stored x' t = stored x t) \/ further x' threadID rev HandoffStatusEnqueued;
}.
Record acknowledged outbox (threadID : string) (rev : N) ptr reason (x' : X) (fsm : handoffOutboxFSMResult) : Prop := {
  ack_status : fsm_PersistedStatus fsm = HandoffStatusEnqueued \/ fsm_PersistedStatus fsm = HandoffStatusOrphaned;
  ack_revision : tok_SnapshotRevision (fsm_ResumeToken fsm) <> 0%N;
  ack_saved : exists xs, reported xs threadID fsm /\ saved xs (tok_SnapshotRevision (fsm_ResumeToken fsm));
  ack_stored : (forall i, storage_free (EnqueueIntent outbox i)) -> reported x' threadID fsm \/
    overtaken x' threadID fsm /\ fsm_EnqueueErr fsm <> None;
  ack_enqueued : errors_Join (fsm_EnqueueErr fsm) (fsm_PatchErr fsm) = None ->
    fsm_PersistedStatus fsm = HandoffStatusEnqueued /\ enqueued outbox threadID rev ptr reason (fsm_ResumeToken fsm);
}.

Lemma fsm_cases threadID rev snapshot meta outbox ptr reason x x' fsm : snp_ThreadID snapshot = threadID ->
  runHandoffOutboxFSM cp threadID rev snapshot meta outbox ptr reason x = (x', fsm) ->
  first_failed threadID rev meta x x' fsm \/ acknowledged outbox threadID rev ptr reason x' fsm.
Proof.
  intros Hid Hf. unfold runHandoffOutboxFSM in Hf. apply st_bind_inv in Hf as (x1 & [rev1|patchErr] & Hpatch & Hf); cycle 1.
  { injection Hf as <- <-. left. split; [by eexists|]. destruct (patch_Err _ _ _ _ _ _ _ Hpatch) as [Hsame|(now & Hlast)]; [by left|right].
    rewrite Hid in Hlast. by eexists. }
  right. pose proof (patch_saved _ _ _ _ _ _ _ Hpatch) as Hsaved. apply patch_Ok in Hpatch as (-> & now & Hst). rewrite Hid in Hst.
  apply st_bind_inv in Hf as (x2 & [enqueueErr|] & Hen & Hf).
  - apply st_bind_inv in Hf as (x3 & [rev2|patchErr] & Hpatch & Hf); injection Hf as <- <-.
    + pose proof (patch_saved _ _ _ _ _ _ _ Hpatch) as Hsaved2. apply patch_Ok in Hpatch as (-> & now2 & Hst2). rewrite Hid in Hst2.
      match goal with |- acknowledged _ _ _ _ _ _ ?f => assert (Hrep : reported x3 threadID f) by (split; [done|by eexists]) end.
      split; [by right|simpl; lia|by exists x3|by left|done].
    + match goal with |- acknowledged _ _ _ _ _ _ ?f => assert (Hrep : forall y, stored y threadID = stored x1 threadID -> reported y threadID f)
        by (intros y Hy; split; [done|]; rewrite Hy; by eexists) end.
      split; [by left|simpl; lia|exists x1; split; [by apply Hrep|done]| |done].
      intros Ho. pose proof (enqueue_free _ _ _ _ _ Ho Hen) as Hfree.
      destruct (patch_Err _ _ _ _ _ _ _ Hpatch) as [Hsame|(now2 & Hlast)]; [left; apply Hrep; by rewrite Hsame, Hfree|right].
      rewrite Hid in Hlast. split; [split; [done|]|done]. by eexists.
  - injection Hf as <- <-.
    match goal with |- acknowledged _ _ _ _ _ _ ?f => assert (Hrep : forall y, stored y threadID = stored x1 threadID -> reported y threadID f)
      by (intros y Hy; split; [done|]; rewrite Hy; by eexists) end.
    split; [by left|simpl; lia|exists x1; split; [by apply Hrep|done]| |].
    + intros Ho. left. by apply Hrep, (enqueue_free _ _ _ _ _ Ho Hen).
    + intros _. split; [done|]. apply enqueue_accepted in Hen as [Hv He]. eexists _, x1, x2, _. split_and!; [exact He|exact Hv|done..|exact Hst|done].
Qed.

(** C30: the report of a handoff is true. From a stored pending snapshot the three-phase protocol
    reports, in each of its four outcomes, the status, pending time and revision that its last
    acknowledged save stored. Where the outbox does not itself write to the checkpointer, they
    are those of the snapshot stored at the end, unless the report carries an error of the
    last save, which took effect although it failed; then the snapshot is one revision
    further, with the status that was to be stored. It reports no error only when it has
    patched the snapshot to enqueued and the outbox accepted, over that snapshot, a valid
    intent for its revision. *)
Theorem handoff_report_true threadID pendingRev snapshot s0 meta outbox ptr reason x x' fsm :
  snp_ThreadID snapshot = threadID ->
  stored x threadID = Some (s0, pendingRev) -> met_HandoffStatus (snp_RunMeta s0) = HandoffStatusPending ->
  met_HandoffPendingAt (snp_RunMeta s0) = met_HandoffPendingAt meta ->
  runHandoffOutboxFSM cp threadID pendingRev snapshot meta outbox ptr reason x = (x', fsm) ->
  (exists xs, reported xs threadID fsm /\ (xs = x \/ saved xs (tok_SnapshotRevision (fsm_ResumeToken fsm)))) /\
  ((forall i, storage_free (EnqueueIntent outbox i)) -> reported x' threadID fsm \/ overtaken x' threadID fsm) /\
  (errors_Join (fsm_EnqueueErr fsm) (fsm_PatchErr fsm) = None ->
     fsm_PersistedStatus fsm = HandoffStatusEnqueued /\ enqueued outbox threadID pendingRev ptr reason (fsm_ResumeToken fsm)).
Proof.
  intros Hid Hs Hp Ha Hf. destruct (fsm_cases _ _ _ _ _ _ _ _ _ _ Hid Hf) as [[(e & ->) Hff]|[_ _ (xs & Hrep & Hsv) Hst Hen]].
  - assert (Hrep : forall y, stored y threadID = Some (s0, pendingRev) -> reported y threadID (mkFSMResult (mkToken threadID pendingRev) None
      (wrapHandoffPatchFailed (Some e)) HandoffStatusPending (persistedHandoffPendingAt HandoffStatusPending (met_HandoffPendingAt meta))))
      by (intros y Hy; split; [done|]; by exists s0).
    split_and!; [exists x; split; [by apply Hrep|by left]| |done]. intros _.
    destruct Hff as [Hsame|Hlast]; [left; apply Hrep; by rewrite Hsame|by right].
  - split_and!; [exists xs; split; [done|by right]| |done]. intros Ho. destruct (Hst Ho) as [?|[? _]]; [by left|by right].
Qed.
End HandoffInv.
