(* ===== verification/Resume.v ===== *)
(** * Resuming a run and recovering a handoff

    runner_recovery.go, the entry points of runner.go, the invocation options of
    run_options.go, the leases of runner_sessions.go and the recovery half of
    handoff_outbox.go. A decision is computed from the stored snapshot before anything runs;
    where loading failed it carries no snapshot. *)

From stdpp Require Import pretty.
From S2P Require Import Prelude Go Sha256 Json Identity Schedule Activity Waits Contract Children Aggregate Runtime Graph Handoff Runner.

Inductive ResumeDecisionStatus :=
| ResumeDecisionReady | ResumeDecisionInvalidToken | ResumeDecisionThreadNotFound | ResumeDecisionStaleToken | ResumeDecisionInvalidSnapshot
| ResumeDecisionLoadFailed | ResumeDecisionHandoffPending | ResumeDecisionHandoffRecoverable | ResumeDecisionHandoffAlreadyScheduled
| ResumeDecisionHandoffNotRecoverable.
#[export] Instance ResumeDecisionStatus_eq_dec : EqDecision ResumeDecisionStatus.
Proof. solve_decision. Defined.

Record ResumeDecision (T E : Type) := mkDecision {
  dec_Status : ResumeDecisionStatus;
  dec_ThreadID : string;
  dec_ResumeToken : ResumeToken;
  dec_Snapshot : option (Snapshot T E);
  dec_SnapshotRevision : N;
  dec_ExecutionPointer : ExecutionPointer;
  dec_HandoffStatus : HandoffStatus;
  dec_Reason : string;
  dec_Err : option error;
  dec_State : option T;
  dec_RunMeta : option RunMetadata;
  dec_Effects : list E;
}.
Arguments mkDecision {T E} _ _ _ _ _ _ _ _ _ _ _ _.
Arguments dec_Status {T E} _.
Arguments dec_ThreadID {T E} _.
Arguments dec_ResumeToken {T E} _.
Arguments dec_Snapshot {T E} _.
Arguments dec_SnapshotRevision {T E} _.
Arguments dec_ExecutionPointer {T E} _.
Arguments dec_HandoffStatus {T E} _.
Arguments dec_Reason {T E} _.
Arguments dec_Err {T E} _.
Arguments dec_State {T E} _.
Arguments dec_RunMeta {T E} _.
Arguments dec_Effects {T E} _.
#[export] Instance eta_ResumeDecision {T E} : Eta (ResumeDecision T E) := fun d =>
  mkDecision (dec_Status d) (dec_ThreadID d) (dec_ResumeToken d) (dec_Snapshot d) (dec_SnapshotRevision d) (dec_ExecutionPointer d)
    (dec_HandoffStatus d) (dec_Reason d) (dec_Err d) (dec_State d) (dec_RunMeta d) (dec_Effects d).

Definition Ready {T E} (d : ResumeDecision T E) : bool := (dec_Status d == ResumeDecisionReady) && is_nil (dec_Err d).

Definition newResumeDecision {T E} (status : ResumeDecisionStatus) (token : ResumeToken) (snapshot : Snapshot T E) (revision : N)
    (pointer : ExecutionPointer) (reason : string) (err : option error) : ResumeDecision T E :=
  mkDecision status (snp_ThreadID snapshot) token (Some snapshot) revision pointer (met_HandoffStatus (snp_RunMeta snapshot)) reason err
    (Some (snp_State snapshot)) (Some (snp_RunMeta snapshot)) (snp_Effects snapshot).
(** The decision where there is no snapshot. *)
Definition noSnapshotDecision {T E} (status : ResumeDecisionStatus) (token : ResumeToken) (threadID reason : string) (err : error) : ResumeDecision T E :=
  mkDecision status threadID token None 0 "" HandoffStatusNone reason (Some err) None None [].

Definition resumeDecisionStatusForError (err : error) : ResumeDecisionStatus :=
  if errors_Is err ErrThreadNotFound then ResumeDecisionThreadNotFound
  else if errors_Is err ErrInvalidSnapshot || errors_Is err ErrSnapshotEnvelopeInvalid then ResumeDecisionInvalidSnapshot
  else ResumeDecisionLoadFailed.
Definition resumeDecisionReasonForError (err : error) : string :=
  if errors_Is err ErrThreadNotFound then "thread_not_found"
  else if errors_Is err ErrInvalidSnapshot || errors_Is err ErrSnapshotEnvelopeInvalid then "invalid_snapshot"
  else "load_failed".
Definition ensureSnapshotEnvelopeInvalid (err : error) : error :=
  if errors_Is err ErrSnapshotEnvelopeInvalid then err else ErrJoin ErrSnapshotEnvelopeInvalid err.

(** [time.Since]: the difference of two instants, saturated to a [time.Duration]. *)
Definition time_Sub (t u : Time) : Z := Z.max (- max_int64 - 1) (Z.min max_int64 (time_ns t - time_ns u)).
Definition isHandoffPendingStale (now pendingAt : Time) (staleAfter : Z) : bool :=
  IsZero pendingAt || (staleAfter <? time_Sub now pendingAt)%Z.
Definition DefaultHandoffStaleAfter : Z := 5 * 60 * 1000000000.

(** [UnixNano] of an instant counted from year 1. *)
Definition UnixNano (t : Time) : Z := wrap_int64 (time_ns t - 62135596800 * 1000000000).
Definition newSegmentInfo (now : Time) : SegmentInfo :=
  mkSegment (String.append "seg-" (pretty (UnixNano now))) (toUTC now) time_zero SegmentOpen.
Definition resetSegmentCounters (meta : RunMetadata) (now now' : Time) : RunMetadata :=
  meta <| met_Segment := newSegmentInfo now |> <| met_SegmentStartTime := toUTC now' |> <| met_StepCount := 0%Z |>.
Definition newRunMetadata (now now' : Time) : RunMetadata :=
  mkRunMeta (newSegmentInfo now') (toUTC now) ∅ ∅ 0 ∅ HandoffStatusNone time_zero.
(** [maps.Copy(dst, src)]: the entries of the input win. *)
Definition mergeRunMetadataInput (meta : RunMetadata) (input : RunMetadataInput) : RunMetadata :=
  meta <| met_BudgetCounts := rmi_BudgetCounts input ∪ met_BudgetCounts meta |>
       <| met_TelemetryContext := rmi_TelemetryContext input ∪ met_TelemetryContext meta |>.

Definition normalizeLoadedSnapshot {T E} (threadID : string) (snapshot : Snapshot T E) (revision : N) : Snapshot T E * option error :=
  if threadID == "" then (snapshot, Some (ErrWrap "%w: empty thread ID" [] ErrInvalidSnapshot))
  else
    let named := if snp_ThreadID snapshot == "" then snapshot <| snp_ThreadID := threadID |> else snapshot in
    if snp_ThreadID named != threadID
    then (snapshot, Some (ErrWrap "%w: snapshot thread %q != requested thread %q" [snp_ThreadID snapshot; threadID] ErrInvalidSnapshot))
    else if revision == 0%N then (named, Some (ErrWrap "%w: zero snapshot revision" [] ErrInvalidSnapshot))
    else
      let numbered := if snp_Revision named == 0%N then named <| snp_Revision := revision |> else named in
      if snp_Revision numbered != revision
      then (named, Some (ErrWrap "%w: snapshot revision %d != storage revision %d" [] ErrInvalidSnapshot))
      else if snp_ExecutionPointer numbered == "" then (numbered, Some (ErrWrap "%w: empty execution pointer" [] ErrInvalidSnapshot))
      else (numbered, None).

Record recoverStaleHandoffOpts (X : Type) := mkRecoverOpts { rso_staleAfter : Z; rso_outbox : option (HandoffOutbox X); rso_forceReenqueue : bool }.
Arguments mkRecoverOpts {X} _ _ _.
Arguments rso_staleAfter {X} _.
Arguments rso_outbox {X} _.
Arguments rso_forceReenqueue {X} _.

Record HandoffRecoveryResult (T E : Type) := mkRecovery {
  hrr_Decision : ResumeDecision T E; hrr_ResumeToken : ResumeToken; hrr_SnapshotRevision : N; hrr_HandoffStatus : HandoffStatus; hrr_Recovered : bool;
}.
Arguments mkRecovery {T E} _ _ _ _ _.
Arguments hrr_Decision {T E} _.
Arguments hrr_ResumeToken {T E} _.
Arguments hrr_SnapshotRevision {T E} _.
Arguments hrr_HandoffStatus {T E} _.
Arguments hrr_Recovered {T E} _.
#[export] Instance eta_HandoffRecoveryResult {T E} : Eta (HandoffRecoveryResult T E) := fun h =>
  mkRecovery (hrr_Decision h) (hrr_ResumeToken h) (hrr_SnapshotRevision h) (hrr_HandoffStatus h) (hrr_Recovered h).

Definition recoveryResultFromDecision {T E} (decision : ResumeDecision T E) : HandoffRecoveryResult T E :=
  mkRecovery decision (dec_ResumeToken decision) (dec_SnapshotRevision decision) (dec_HandoffStatus decision) false.

Definition normalizeRecoveryFSMResult (initial : RunMetadata) (fsm : handoffOutboxFSMResult) : handoffOutboxFSMResult :=
  if negb (is_nil (fsm_PatchErr fsm)) && (fsm_PersistedStatus fsm == HandoffStatusPending) && (met_HandoffStatus initial != HandoffStatusPending)
  then fsm <| fsm_PersistedStatus := met_HandoffStatus initial |> <| fsm_PersistedPendingAt := met_HandoffPendingAt initial |> else fsm.

Definition applyFSMHandoffRecoveryResult {T E} (result : HandoffRecoveryResult T E) (fsm : handoffOutboxFSMResult) : HandoffRecoveryResult T E :=
  let token := fsm_ResumeToken fsm in
  let result := if tok_ThreadID token != "" then
      result <| hrr_ResumeToken := token |> <| hrr_Decision := (hrr_Decision result) <| dec_ResumeToken := token |> |> else result in
  let result := if tok_SnapshotRevision token != 0%N then
      let revision := tok_SnapshotRevision token in
      result <| hrr_SnapshotRevision := revision |>
             <| hrr_Decision := (hrr_Decision result) <| dec_SnapshotRevision := revision |>
                  <| dec_Snapshot := (fun s => s <| snp_Revision := revision |>) <$> dec_Snapshot (hrr_Decision result) |> |> else result in
  if fsm_PersistedStatus fsm != HandoffStatusNone then
    let status := fsm_PersistedStatus fsm in
    let mark (meta : RunMetadata) := meta <| met_HandoffStatus := status |> <| met_HandoffPendingAt := fsm_PersistedPendingAt fsm |> in
    result <| hrr_HandoffStatus := status |>
           <| hrr_Decision := (hrr_Decision result) <| dec_HandoffStatus := status |>
                <| dec_RunMeta := mark <$> dec_RunMeta (hrr_Decision result) |>
                <| dec_Snapshot := (fun s => s <| snp_RunMeta := mark (snp_RunMeta s) |>) <$> dec_Snapshot (hrr_Decision result) |> |>
  else result.

(** ** Leases *)
Record LeaseManagerOps (X : Type) := mkLeaseManager {
  lmg_Acquire : string -> string -> Z -> st X (res ExecutionLease);
  lmg_Release : ExecutionLease -> st X (option error);
  lmg_native : bool;
}.
Arguments lmg_Acquire {X} _ _ _ _.
Arguments lmg_Release {X} _ _.
Arguments lmg_native {X} _.
Definition defaultLeaseTTL : Z := 30 * 1000000000.

Section Resume.
Context {X T E : Type} `{RunnerHost X T E} (r : graphRunner X T E) (error_text : error -> string).
Context (leaseManager : option (LeaseManagerOps X)) (nativeCheckpointer : bool).
Implicit Types (inv : runInvocationOptions X T) (token : ResumeToken).

Definition loadNormalizedSnapshot (cp : CheckpointerOps X T E) (threadID : string) : st X (option (Snapshot T E) * N * option error) :=
  let* loaded := cp_Load cp threadID in
  st_ret (match loaded with
          | Err err =>
              if errors_Is err ErrThreadNotFound then (None, 0%N, Some err)
              else if errors_Is err ErrSnapshotEnvelopeInvalid || errors_Is err ErrInvalidSnapshot
              then (None, 0%N, Some (ensureSnapshotEnvelopeInvalid err))
              else (None, 0%N, Some err)
          | Ok (snapshot, revision) =>
              let '(normalized, normErr) := normalizeLoadedSnapshot threadID snapshot revision in
              (Some normalized, revision, ensureSnapshotEnvelopeInvalid <$> normErr)
          end).

Fixpoint afterLoad (interceptors : list (StateInterceptor X T)) (state : T) : st X (res T) :=
  match interceptors with
  | [] => st_ret (Ok state)
  | i :: rest =>
      let* loaded := AfterLoad i state in
      match loaded with
      | Ok state => afterLoad rest state
      | Err err => st_ret (Err (ErrWrap "flowy: after_load interceptor: %w" [] err))
      end
  end.

(** [(state, pointer, err)]: on failure the state given and no pointer. *)
Definition applyResumeTargetPolicy (state : T) (currentPtr : ExecutionPointer) inv : st X (T * ExecutionPointer * option error) :=
  match inv_resumeTargetPolicy inv with
  | None => st_ret (state, currentPtr, None)
  | Some policy =>
      let* planned := policy state currentPtr in
      st_ret (match planned with
              | Err err => (state, "", Some (ErrJoin ErrResumeTargetPolicyFailed err))
              | Ok (nextState, plan) =>
                  match resolve plan currentPtr with
                  | Err err => (state, "", Some (ErrJoin ErrResumeTargetPolicyFailed err))
                  | Ok newPtr => (nextState, newPtr, None)
                  end
              end)
  end.

(** What the handoff status of a stored snapshot says about resuming: [None] is allowed. *)
Definition handoffGate (now : Time) (meta : RunMetadata) : option (ResumeDecisionStatus * string * error) :=
  match met_HandoffStatus meta with
  | HandoffStatusNone | HandoffStatusEnqueued => None
  | HandoffStatusPending =>
      Some (if isHandoffPendingStale now (met_HandoffPendingAt meta) (rnr_handoffStaleAfter r)
            then (ResumeDecisionHandoffRecoverable, "handoff_pending_stale", ErrHandoffPending : error)
            else (ResumeDecisionHandoffPending, "handoff_pending", ErrHandoffPending : error))
  | HandoffStatusOrphaned => Some (ResumeDecisionHandoffRecoverable, ReasonHandoffOrphaned, ErrHandoffOrphaned : error)
  | HandoffStatusOther s => Some (ResumeDecisionInvalidSnapshot, "invalid_handoff_status", ErrWrap "%w: handoff status %q" [s] ErrInvalidSnapshot)
  end.

(** The part of [evaluateResume] after the snapshot was accepted: interceptors, overlay,
    counters, target. *)
Definition resumeAdmitted token (snapshot : Snapshot T E) (revision : N) inv : st X (ResumeDecision T E) :=
  let refuse pointer reason err := newResumeDecision ResumeDecisionInvalidSnapshot token snapshot revision pointer reason (Some err) in
  let* loaded := afterLoad (rnr_interceptors r) (snp_State snapshot) in
  match loaded with
  | Err err => st_ret (refuse (snp_ExecutionPointer snapshot) "after_load_failed" err)
  | Ok state =>
      match (match inv_overlay inv with
             | None => Ok state
             | Some overlay => match inv_overlayMerger inv with None => Err ErrOverlayMergerRequired | Some merge => Ok (merge state overlay) end
             end) with
      | Err err => st_ret (refuse (snp_ExecutionPointer snapshot) "overlay_merger_required" err)
      | Ok state =>
          let meta := snp_RunMeta snapshot in
          let meta := if met_HandoffStatus meta == HandoffStatusEnqueued then clearHandoffRunMeta meta else meta in
          let* now := time_Now in
          let* now' := time_Now in
          let meta := mergeRunMetadataInput (resetSegmentCounters meta now now') (inv_runMetadata inv) in
          let* targeted := applyResumeTargetPolicy state (snp_ExecutionPointer snapshot) inv in
          let '(state, activePointer, policyErr) := targeted in
          let decide (d : ResumeDecision T E) := d <| dec_State := Some state |> <| dec_RunMeta := Some meta |> in
          st_ret (match policyErr with
                  | Some err => decide (refuse activePointer "resume_target_policy_failed" err)
                  | None =>
                      if activePointer == "" then decide (refuse activePointer "invalid_snapshot" ErrInvalidSnapshot)
                      else if negb (present (gph_nodes (rnr_graph r)) activePointer)
                      then decide (refuse activePointer "invalid_pointer" (invalidResumePointerError activePointer))
                      else decide (newResumeDecision ResumeDecisionReady token snapshot revision activePointer "ready" None)
                  end)
      end
  end.

Definition evaluateResume (cp : CheckpointerOps X T E) token inv : st X (ResumeDecision T E) :=
  if tok_ThreadID token == "" then
    st_ret (noSnapshotDecision ResumeDecisionInvalidToken token "" "empty_token" (ErrWrap "%w: empty thread ID" [] ErrInvalidResumeToken))
  else
    let* loaded := loadNormalizedSnapshot cp (tok_ThreadID token) in
    match loaded with
    | (snapshot, revision, Some err) =>
        let status := resumeDecisionStatusForError err in
        let reason := resumeDecisionReasonForError err in
        st_ret (match snapshot with
                | None => noSnapshotDecision status token (tok_ThreadID token) reason err
                | Some snapshot => (newResumeDecision status token snapshot revision (snp_ExecutionPointer snapshot) reason (Some err))
                                     <| dec_ThreadID := tok_ThreadID token |>
                end)
    | (None, _, None) => st_ret (noSnapshotDecision ResumeDecisionLoadFailed token (tok_ThreadID token) "load_failed" ErrInvalidSnapshot)
    | (Some snapshot, revision, None) =>
        let pointer := snp_ExecutionPointer snapshot in
        if tok_SnapshotRevision token == 0%N then
          st_ret (newResumeDecision ResumeDecisionInvalidToken token snapshot revision pointer "zero_revision" (Some (ErrConcurrencyConflict : error)))
        else if tok_SnapshotRevision token != revision then
          st_ret (newResumeDecision ResumeDecisionStaleToken (mkToken (tok_ThreadID token) revision) snapshot revision pointer "stale_token"
                    (Some (ErrWrap "%w: resume token snapshot revision %d, snapshot revision %d" [] ErrConcurrencyConflict)))
        else
          let* now := time_Now in
          match handoffGate now (snp_RunMeta snapshot) with
          | Some (status, reason, err) => st_ret (newResumeDecision status token snapshot revision pointer reason (Some err))
          | None => resumeAdmitted token snapshot revision inv
          end
    end.

(** ** Recovery of handoffs *)
Definition recoverStaleHandoffConfig (opts : list (recoverStaleHandoffOpts X -> recoverStaleHandoffOpts X)) : recoverStaleHandoffOpts X :=
  fold_left (fun cfg opt => opt cfg) opts (mkRecoverOpts (rnr_handoffStaleAfter r) (rnr_handoffOutbox r) false).

Definition recoveryGate (now : Time) (meta : RunMetadata) (cfg : recoverStaleHandoffOpts X) : ResumeDecisionStatus * string * option error :=
  let staleAfter := if (rso_staleAfter cfg <=? 0)%Z then DefaultHandoffStaleAfter else rso_staleAfter cfg in
  match met_HandoffStatus meta with
  | HandoffStatusOrphaned => (ResumeDecisionHandoffRecoverable, ReasonHandoffOrphaned, Some (ErrHandoffOrphaned : error))
  | HandoffStatusPending =>
      if isHandoffPendingStale now (met_HandoffPendingAt meta) staleAfter
      then (ResumeDecisionHandoffRecoverable, "handoff_pending_stale", Some (ErrHandoffPending : error))
      else (ResumeDecisionHandoffPending, "handoff_pending", Some (ErrHandoffPending : error))
  | HandoffStatusEnqueued =>
      if rso_forceReenqueue cfg then (ResumeDecisionHandoffRecoverable, "handoff_force_reenqueue", None)
      else (ResumeDecisionHandoffAlreadyScheduled, "handoff_already_enqueued", Some (ErrHandoffAlreadyEnqueued : error))
  | HandoffStatusNone => (ResumeDecisionHandoffNotRecoverable, "handoff_status_none", Some (ErrHandoffNotRecoverable : error))
  | HandoffStatusOther s =>
      (ResumeDecisionHandoffNotRecoverable, "invalid_handoff_status",
       Some (ErrJoin ErrHandoffNotRecoverable (ErrWrap "%w: handoff status %q" [s] ErrInvalidSnapshot)))
  end.

Definition EvaluateHandoffRecovery (cp : CheckpointerOps X T E) (threadID : string) (cfg : recoverStaleHandoffOpts X) : st X (ResumeDecision T E) :=
  if threadID == "" then
    st_ret (noSnapshotDecision ResumeDecisionInvalidToken (mkToken "" 0) "" "empty_thread_id" ErrInvalidResumeToken)
  else
    let* loaded := loadNormalizedSnapshot cp threadID in
    match loaded with
    | (snapshot, revision, Some err) =>
        let status := resumeDecisionStatusForError err in
        let reason := resumeDecisionReasonForError err in
        st_ret (match snapshot with
                | None => noSnapshotDecision status (mkToken threadID revision) threadID reason err
                | Some snapshot => (newResumeDecision status (mkToken threadID revision) snapshot revision (snp_ExecutionPointer snapshot) reason (Some err))
                                     <| dec_ThreadID := threadID |>
                end)
    | (None, _, None) => st_ret (noSnapshotDecision ResumeDecisionLoadFailed (mkToken threadID 0) threadID "load_failed" ErrInvalidSnapshot)
    | (Some snapshot, revision, None) =>
        let pointer := snp_ExecutionPointer snapshot in
        match validateExecutionPointer (rnr_graph r) pointer with
        | Some ptrErr =>
            st_ret (newResumeDecision ResumeDecisionInvalidSnapshot (mkToken threadID revision) snapshot revision pointer
                      (if pointer == "" then "invalid_snapshot" else "invalid_pointer") (Some ptrErr))
        | None =>
            let* now := time_Now in
            let '(status, reason, err) := recoveryGate now (snp_RunMeta snapshot) cfg in
            st_ret (newResumeDecision status (mkToken threadID revision) snapshot revision pointer reason err)
        end
    end.

Definition recoverHandoffEnqueue (cp : CheckpointerOps X T E) (threadID : string) (snapshot : Snapshot T E) (expectedRevision : N)
    (outbox : HandoffOutbox X) : st X (handoffOutboxFSMResult * option error) :=
  let* fsm := runHandoffOutboxFSM cp threadID expectedRevision snapshot (snp_RunMeta snapshot) outbox (snp_ExecutionPointer snapshot)
                "handoff_recovery" in
  let fsm := normalizeRecoveryFSMResult (snp_RunMeta snapshot) fsm in
  st_ret (fsm, match fsm_EnqueueErr fsm with
               | Some _ => errors_Join (fsm_EnqueueErr fsm) (fsm_PatchErr fsm)
               | None => wrapHandoffPatchRecoveryErr <$> fsm_PatchErr fsm
               end).

Definition RecoverStaleHandoff (cp : CheckpointerOps X T E) (threadID : string) (cfg : recoverStaleHandoffOpts X)
  : st X (HandoffRecoveryResult T E * option error) :=
  let* decision := EvaluateHandoffRecovery cp threadID cfg in
  let result := recoveryResultFromDecision decision in
  if dec_Status decision != ResumeDecisionHandoffRecoverable then st_ret (result, dec_Err decision)
  else match rso_outbox cfg, dec_Snapshot decision with
  | Some outbox, Some snapshot =>
      let* recovered := recoverHandoffEnqueue cp threadID snapshot (dec_SnapshotRevision decision) outbox in
      let '(fsm, err) := recovered in
      let result := applyFSMHandoffRecoveryResult result fsm in
      st_ret (match err with Some _ => result | None => result <| hrr_Recovered := true |> end, err)
  | _, _ =>
      st_ret (result <| hrr_Decision := decision <| dec_Reason := "handoff_outbox_required" |> <| dec_Err := Some (ErrHandoffOutboxRequired : error) |> |>,
              Some (ErrHandoffOutboxRequired : error))
  end.

(** ** Entry points *)
Definition resolveRunOptions inv : res (runInvocationOptions X T) :=
  match inv_checkpointPolicy inv with
  | CheckpointPolicyOther s => Err (ErrWrap "%w: %q" [s] ErrInvalidCheckpointPolicy)
  | _ =>
      if negb (inv_atomicHandoff inv) then Ok inv
      else
        let transactional := match rnr_checkpointer r with Some cp => negb (is_nil (cp_SaveWithOutbox cp)) | None => false end in
        let transactionalOutbox := match resolveHandoffOutbox r inv with Some outbox => negb (is_nil (EnqueueIntentTx outbox)) | None => false end in
        if negb transactional || negb transactionalOutbox then Err ErrTransactionalOutboxUnsupported else Ok inv
  end.

Definition acquireLease (threadID : string) inv : st X (res (runInvocationOptions X T)) :=
  match leaseManager with
  | None => st_ret (if inv_leaseOwner inv != "" then Err ErrExecutionCapability else Ok inv)
  | Some manager =>
      if nativeCheckpointer && negb (lmg_native manager)
      then st_ret (Err (ErrHost "flowy: native DeleteIfIdle checkpointer requires paired native adapters/lease manager"))
      else if inv_leaseOwner inv == "" then st_ret (Err ErrLeaseOwnerRequired)
      else
        let ttl := if (inv_leaseTTL inv <=? 0)%Z then defaultLeaseTTL else inv_leaseTTL inv in
        let* acquired := lmg_Acquire manager threadID (inv_leaseOwner inv) ttl in
        st_ret (lease ← acquired;
                if (lse_ExecutionID lease != threadID) || (lse_Owner lease != inv_leaseOwner inv) || (lse_Incarnation lease == 0%N)
                then Err ErrExecutionCapability
                else Ok (mkInvocationOptions (inv_overlay inv) (inv_overlayMerger inv) (inv_resumeTargetPolicy inv) (inv_invariantValidator inv)
                           (inv_runMetadata inv) (inv_leaseOwner inv) (inv_leaseTTL inv) lease (inv_handoffOutbox inv) (inv_atomicHandoff inv)
                           (inv_checkpointPolicy inv)))
  end.

Definition releaseLease (threadID : string) inv : st X (option error) :=
  match leaseManager with
  | None => st_ret None
  | Some manager =>
      if inv_leaseOwner inv == "" then st_ret None
      else if lse_ExecutionID (inv_lease inv) != threadID then st_ret (Some (ErrLeaseLost : error))
      else lmg_Release manager (inv_lease inv)
  end.

Definition appliesTerminalPolicies (status : RunStatus) : bool := (status == RunStatusCompleted) || (status == RunStatusFailed).
Definition applyTerminalPolicies (threadID : string) (status : RunStatus) : st X (option error) :=
  match rnr_checkpointer r with
  | None => st_ret None
  | Some cp =>
      if (status == RunStatusCompleted) && rcf_deleteOnSuccess (gph_defaults (rnr_graph r)) then cp_DeleteIfIdle cp threadID
      else applyRetentionPolicy r threadID
  end.

Definition postRunCleanup (threadID : string) inv (result : option (RunResult T E)) : st X (option error) :=
  let* releaseErr := releaseLease threadID inv in
  let* policyErr := (match result with
                     | Some result => if (threadID != "") && appliesTerminalPolicies (rr_Status result)
                                      then applyTerminalPolicies threadID (rr_Status result) else st_ret None
                     | None => st_ret None
                     end) in
  st_ret ((fun err => ErrJoin ErrRunCleanup err) <$> errors_Join releaseErr policyErr).

(** [None] stands for a run that is out of fuel, which [execution_terminates] excludes. *)
Definition Start (threadID : string) (initialState : T) inv : st X (option (option (RunResult T E) * option error)) :=
  if threadID == "" then st_ret (Some (None, Some (ErrWrap "%w: empty thread ID" [] ErrInvalidResumeToken)))
  else match resolveRunOptions inv with
  | Err err => st_ret (Some (None, Some err))
  | Ok inv =>
      let* leased := acquireLease threadID inv in
      match leased with
      | Err err => st_ret (Some (None, Some err))
      | Ok inv =>
          let* now := time_Now in
          let* now' := time_Now in
          let meta := mergeRunMetadataInput (newRunMetadata now now') (inv_runMetadata inv) in
          let* ran := execute r error_text threadID (gph_entryPoint (rnr_graph r)) initialState meta [] 0 inv in
          match ran with
          | None => st_ret None
          | Some (result, err) => let* cleanupErr := postRunCleanup threadID inv result in st_ret (Some (result, errors_Join err cleanupErr))
          end
      end
  end.

Definition Resume token inv : st X (option (option (RunResult T E) * option error)) :=
  match rnr_checkpointer r with
  | None => st_ret (Some (None, Some (ErrHost "flowy: checkpointer is required for Resume")))
  | Some cp =>
      if tok_ThreadID token == "" then st_ret (Some (None, Some (ErrWrap "%w: empty thread ID" [] ErrInvalidResumeToken)))
      else match resolveRunOptions inv with
      | Err err => st_ret (Some (None, Some err))
      | Ok inv =>
          let* leased := acquireLease (tok_ThreadID token) inv in
          match leased with
          | Err err => st_ret (Some (None, Some err))
          | Ok inv =>
              let* decision := evaluateResume cp token inv in
              match dec_Err decision, dec_State decision, dec_RunMeta decision with
              | None, Some state, Some meta =>
                  let* ran := execute r error_text (tok_ThreadID token) (dec_ExecutionPointer decision) state meta (dec_Effects decision)
                                (dec_SnapshotRevision decision) inv in
                  match ran with
                  | None => st_ret None
                  | Some (result, err) =>
                      let* cleanupErr := postRunCleanup (tok_ThreadID token) inv result in st_ret (Some (result, errors_Join err cleanupErr))
                  end
              | err, _, _ => let* cleanupErr := postRunCleanup (tok_ThreadID token) inv None in st_ret (Some (None, errors_Join err cleanupErr))
              end
          end
      end
  end.
End Resume.
