(* ===== verification/ResumeInv.v ===== *)
(** * What resuming and recovering guarantee

    On any checkpointer that keeps its contract: a run is resumed only from the stored
    snapshot that its token names, at a node of the graph, when no handoff of it is open; and
    what a recovery reports is what was stored when it last heard of it. *)

From S2P Require Import Prelude Go Sha256 Json Identity Schedule Activity Waits Contract Children Aggregate Runtime Graph Handoff Runner RunnerInv MemoryCheckpointer HandoffInv Resume.

Section ResumeInv.
Context {X T E : Type} `{HH : RunnerHost X T E} (r : graphRunner X T E) (cp : CheckpointerOps X T E) `{HC : !CheckpointerContract cp}.
Context (now_free : storage_free cp time_Now).
Implicit Types (inv : runInvocationOptions X T) (token : ResumeToken).

Lemma normalize_None threadID (s : Snapshot T E) rev s' : normalizeLoadedSnapshot threadID s rev = (s', None) ->
  threadID <> "" /\ rev <> 0%N /\ s' = s <| snp_ThreadID := threadID |> <| snp_Revision := rev |> /\ snp_ExecutionPointer s <> "".
Proof.
  intros Hn. unfold normalizeLoadedSnapshot in Hn. destruct s as [t p n st m es]. simpl in *.
  repeat (case_bool_decide; simpl in *; try done); injection Hn as <-; subst; by split_and!.
Qed.

Lemma loadNormalized_Ok threadID x x' s rev : loadNormalizedSnapshot cp threadID x = (x', (Some s, rev, None)) ->
  exists s0, stored x threadID = Some (s0, rev) /\ threadID <> "" /\ rev <> 0%N /\ s = s0 <| snp_ThreadID := threadID |> <| snp_Revision := rev |> /\
    snp_ExecutionPointer s0 <> "" /\ forall k, stored x' k = stored x k.
Proof.
  unfold loadNormalizedSnapshot. intros Hl. apply st_bind_inv in Hl as (x1 & [[s0 n]|err] & Hm & Hl); cycle 1.
  { injection Hl as _ Hl. by repeat case_match. }
  injection Hl as <- Hl. destruct (normalizeLoadedSnapshot threadID s0 n) as [s1 [e|]] eqn:En; [done|]. injection Hl as <- <-.
  apply normalize_None in En as (H1 & H2 & -> & H3). exists s0. pose proof (load_keeps x threadID) as Hk. rewrite Hm in Hk.
  apply load_latest in Hm. by split_and!.
Qed.

(** The counters and the handoff status a resumed run starts with. *)
Record fresh_segment (stored_meta meta : RunMetadata) (input : RunMetadataInput) : Prop := {
  fs_steps : met_StepCount meta = 0%Z;
  fs_segment : seg_EndReason (met_Segment meta) = SegmentOpen;
  fs_handoff : met_HandoffStatus meta = HandoffStatusNone;
  fs_retries : met_RetryCounts meta = met_RetryCounts stored_meta;
  fs_budgets : met_BudgetCounts meta = rmi_BudgetCounts input ∪ met_BudgetCounts stored_meta;
}.

Lemma admitted_ready token (s : Snapshot T E) rev inv x x' d : met_HandoffStatus (snp_RunMeta s) = HandoffStatusNone \/ met_HandoffStatus (snp_RunMeta s) = HandoffStatusEnqueued ->
  resumeAdmitted r token s rev inv x = (x', d) -> dec_Err d = None ->
  dec_Status d = ResumeDecisionReady /\ dec_Snapshot d = Some s /\ dec_SnapshotRevision d = rev /\ dec_Effects d = snp_Effects s /\
  dec_ExecutionPointer d ∈ dom (gph_nodes (rnr_graph r)) /\
  (exists meta, dec_RunMeta d = Some meta /\ fresh_segment (snp_RunMeta s) meta (inv_runMetadata inv)) /\
  (inv_resumeTargetPolicy inv = None -> dec_ExecutionPointer d = snp_ExecutionPointer s) /\
  (inv_resumeTargetPolicy inv = None -> inv_overlay inv = None -> rnr_interceptors r = [] -> dec_State d = Some (snp_State s)).
Proof.
  intros Hst Ha Herr. unfold resumeAdmitted in Ha. apply st_bind_inv in Ha as (x1 & [state|err] & Hload & Ha); [|by injection Ha as _ <-].
  assert (Hst0 : rnr_interceptors r = [] -> state = snp_State s) by (intros E0; rewrite E0 in Hload; by injection Hload as _ <-).
  destruct (match inv_overlay inv with None => Ok state | Some overlay => _ end) as [state'|err] eqn:Eo; [|by injection Ha as _ <-].
  apply st_bind_inv in Ha as (x2 & now & _ & Ha). apply st_bind_inv in Ha as (x3 & now' & _ & Ha).
  apply st_bind_inv in Ha as (x4 & [[state2 ptr] perr] & Htgt & Ha). destruct perr as [err|]; [by injection Ha as _ <-|].
  case_bool_decide; [by injection Ha as _ <-|]. destruct (present (gph_nodes (rnr_graph r)) ptr) eqn:Ep; [|by injection Ha as _ <-].
  injection Ha as _ <-. apply present_dom in Ep. unfold applyResumeTargetPolicy in Htgt. split_and!; try done.
  - eexists. split; [done|]. split; simpl; try done; destruct Hst as [E0|E0]; rewrite E0; done.
  - intros Hp. rewrite Hp in Htgt. by injection Htgt as _ _ <-.
  - intros Hp Hov Hi. rewrite Hp in Htgt. injection Htgt as _ <- _. rewrite Hov in Eo. injection Eo as <-. simpl. by rewrite Hst0.
Qed.

(** C31: a run resumes only from the snapshot its token names. When a resume is admitted, the
    latest stored snapshot of the thread has exactly the revision of the token, its handoff
    is absent or completed, and the run starts at a node of the graph with the effects and
    retry counters stored, a new segment with no steps counted, no handoff status, and,
    without a target policy, overlay or interceptors, at the stored pointer with the stored
    state. Every other token is refused with an error. *)
Theorem resume_admission token inv x x' d : evaluateResume r cp token inv x = (x', d) -> dec_Err d = None ->
  exists s, stored x (tok_ThreadID token) = Some (s, tok_SnapshotRevision token) /\ tok_SnapshotRevision token <> 0%N /\
    (met_HandoffStatus (snp_RunMeta s) = HandoffStatusNone \/ met_HandoffStatus (snp_RunMeta s) = HandoffStatusEnqueued) /\
    dec_Status d = ResumeDecisionReady /\ dec_SnapshotRevision d = tok_SnapshotRevision token /\ dec_Effects d = snp_Effects s /\
    dec_ExecutionPointer d ∈ dom (gph_nodes (rnr_graph r)) /\
    (exists meta, dec_RunMeta d = Some meta /\ fresh_segment (snp_RunMeta s) meta (inv_runMetadata inv)) /\
    (inv_resumeTargetPolicy inv = None -> dec_ExecutionPointer d = snp_ExecutionPointer s) /\
    (inv_resumeTargetPolicy inv = None -> inv_overlay inv = None -> rnr_interceptors r = [] -> dec_State d = Some (snp_State s)).
Proof.
  intros He Herr. unfold evaluateResume in He. case_bool_decide; [by injection He as _ <-|].
  apply st_bind_inv in He as (x1 & [[o rev] [err|]] & Hl & He); [destruct o; by injection He as _ <-|].
  destruct o as [s|]; [|by injection He as _ <-]. apply loadNormalized_Ok in Hl as (s0 & Hst & _ & Hrev & -> & _ & _).
  guard_in He; [by injection He as _ <-|]. guard_in He; [by injection He as _ <-|]. apply negb_false_iff, bool_decide_eq_true in Hg0 as Htok.
  apply st_bind_inv in He as (x2 & now & _ & He). change (snp_RunMeta (_ <| snp_Revision := _ |>)) with (snp_RunMeta s0) in He.
  destruct (handoffGate r now (snp_RunMeta s0)) as [[[status reason] err]|] eqn:Eg; [by injection He as _ <-|].
  assert (Hh : met_HandoffStatus (snp_RunMeta s0) = HandoffStatusNone \/ met_HandoffStatus (snp_RunMeta s0) = HandoffStatusEnqueued).
  { unfold handoffGate in Eg. destruct (met_HandoffStatus (snp_RunMeta s0)); try done; by auto. }
  apply admitted_ready in He as (H1 & H2 & H3 & H4 & H5 & H6 & H7 & H8); [|done|done]. exists s0. rewrite Htok. by split_and!.
Qed.

(** ** Recovery *)
Implicit Types (result : HandoffRecoveryResult T E) (fsm : handoffOutboxFSMResult).










End ResumeInv.
