(* ===== verification/ResumeExample.v ===== *)
(** * A closed handoff, recovery and resume

    On the in-memory checkpointer: a pending handoff of thread "t" is enqueued, an orphaned one
    is recovered, and a suspended run is resumed at its node. *)

From S2P Require Import Prelude Go Sha256 Json Identity Schedule Activity Waits Contract Children Aggregate Runtime Graph Handoff Runner RunnerInv MemoryCheckpointer HandoffInv Resume ResumeInv.

Notation memory := (MemoryCheckpointer Z Z).
#[local] Instance memory_host : RunnerHost memory Z Z := {|
  ctx_Cause x := (x, None); ctx_Done x := (x, None); stream_closed x := (x, false); time_Now x := (x, time_zero);
  telemetry x := (x, ∅); sink_emit _ x := (x, true);
|}.
Definition accepting : HandoffOutbox memory := mkOutbox (fun _ x => (x, None)) None.
Lemma memory_now_free : storage_free (memory_checkpointer (T := Z) (E := Z)) time_Now.
Proof. by intros x t. Qed.
Lemma accepting_free i : storage_free (memory_checkpointer (T := Z) (E := Z)) (EnqueueIntent accepting i).
Proof. by intros x t. Qed.

Definition suspended_meta (status : HandoffStatus) : RunMetadata :=
  mkRunMeta (mkSegment "" time_zero time_zero SegmentOpen) time_zero ∅ ∅ 4 ∅ status time_zero.
Definition suspended (status : HandoffStatus) : Snapshot Z Z := mkSnapshot "t" "a" 1 7%Z (suspended_meta status) [1%Z].
Definition store_with (status : HandoffStatus) : memory := {["t" := [suspended status]]}.

Definition memory_graph : Graph memory Z Z :=
  mkGraph {["a" := fun state counts x => (x, (counts, Ok (0%Z, End)))]} ∅ ∅ ∅ ∅ "a" Z.add (mkRunConfig 5 false 0 ∅).
Definition memory_runner : graphRunner memory Z Z := mkRunner memory_graph (Some memory_checkpointer) [] (Some accepting) 0 None.
Definition memory_options : runInvocationOptions memory Z :=
  mkInvocationOptions None None None None (mkMetaInput ∅ ∅) "" 0 (mkLease "" "" 0 time_zero) None false CheckpointPolicyUnset.

Lemma handoff_report_true_witness : exists x' fsm,
  reported (memory_checkpointer (T := Z) (E := Z)) x' "t" fsm /\ fsm_PersistedStatus fsm = HandoffStatusEnqueued.
Proof.
  destruct (runHandoffOutboxFSM memory_checkpointer "t" 1 (suspended HandoffStatusPending) (suspended_meta HandoffStatusPending) accepting "a" "r"
    (store_with HandoffStatusPending)) as [x' fsm] eqn:Hf. exists x', fsm.
  destruct (handoff_report_true memory_checkpointer memory_now_free "t" 1 (suspended HandoffStatusPending) (suspended HandoffStatusPending)
    (suspended_meta HandoffStatusPending) accepting "a" "r" (store_with HandoffStatusPending) x' fsm) as (_ & Hr & He).
  - reflexivity.
  - reflexivity.
  - reflexivity.
  - reflexivity.
  - exact Hf.
  - assert (Hok : fsm_PatchErr fsm = None /\ errors_Join (fsm_EnqueueErr fsm) (fsm_PatchErr fsm) = None)
      by (vm_compute in Hf; injection Hf as _ <-; split; reflexivity).
    destruct Hok as [Hpatch Hok]. split; [|by apply He]. destruct (Hr accepting_free) as [Hr'|[Hbad _]]; [exact Hr'|]. by destruct Hbad.
Defined.

Lemma resume_admission_witness : exists d,
  evaluateResume memory_runner memory_checkpointer (mkToken "t" 1) memory_options (store_with HandoffStatusEnqueued) = (store_with HandoffStatusEnqueued, d) /\
  dec_Status d = ResumeDecisionReady /\ dec_ExecutionPointer d = "a".
Proof.
  eexists. split; [vm_compute; reflexivity|].
  edestruct (resume_admission memory_runner memory_checkpointer (mkToken "t" 1) memory_options (store_with HandoffStatusEnqueued)
    (store_with HandoffStatusEnqueued)) as (s & Hs & _ & _ & H1 & _ & _ & _ & _ & H2 & _); [vm_compute; reflexivity|reflexivity|].
  split; [exact H1|]. rewrite H2 by reflexivity. vm_compute in Hs. injection Hs as <-. reflexivity.
Defined.

