(* ===== verification/Compose.v ===== *)
(** * Inline subgraphs

    compose.go and compose_capture.go: a compiled graph run as one node of another. Each
    invocation runs the inner graph with a checkpointer of its own, which lives as long as
    the invocation; what survives a pause is the slot the node stores in the parent state.

    The inner run works in the state of the parent paired with that checkpointer. It reads
    the same context and clock, and has no event sink. The mappings between the two states
    are pure host functions; the zero value of the inner state is a parameter. *)

From S2P Require Import Prelude Go Sha256 Json Identity Schedule Activity Waits Contract Children Aggregate Runtime Graph Handoff Runner Resume.

Definition InlineSlotContract : string := "flowy.inline-slot.v1".

Record SubgraphSlot (Sub E : Type) := mkSlot {
  slt_Contract : string;
  slt_ExecutionPointer : ExecutionPointer;
  slt_Revision : N;
  slt_State : Sub;
  slt_RunMeta : RunMetadata;
  slt_Effects : list E;
  slt_ExportedEffects : Z;
}.
Arguments mkSlot {Sub E} _ _ _ _ _ _ _.
Arguments slt_Contract {Sub E} _.
Arguments slt_ExecutionPointer {Sub E} _.
Arguments slt_Revision {Sub E} _.
Arguments slt_State {Sub E} _.
Arguments slt_RunMeta {Sub E} _.
Arguments slt_Effects {Sub E} _.
Arguments slt_ExportedEffects {Sub E} _.

Definition zeroRunMetadata : RunMetadata :=
  mkRunMeta (mkSegment "" time_zero time_zero SegmentOpen) time_zero ∅ ∅ 0 ∅ HandoffStatusNone time_zero.
Definition emptySlot {Sub E} (zero : Sub) : SubgraphSlot Sub E := mkSlot "" "" 0 zero zeroRunMetadata [] 0.

(** ** The capture checkpointer *)
Section Capture.
Context {T E : Type}.
Definition captureCheckpointer : Type := list (Snapshot T E).
Definition newCaptureCheckpointer : captureCheckpointer := [].
Definition captureRevision (n : captureCheckpointer) : N := match last n with Some s => snp_Revision s | None => 0%N end.

Definition captureSave (expectedRevision : N) (s : Snapshot T E) : st captureCheckpointer (res N) := fun n =>
  if captureRevision n != expectedRevision then (n, Err ErrConcurrencyConflict)
  else
    let newRev := succ_u64 expectedRevision in
    (n ++ [s <| snp_Revision := newRev |>], Ok newRev).

Definition captureLoad (threadID : string) : st captureCheckpointer (res (Snapshot T E * N)) := fun n =>
  match last n with
  | None => (n, Err ErrThreadNotFound)
  | Some s => (n, Ok (s, snp_Revision s))
  end.

Definition captureGetHistory (threadID : string) (limit : Z) : st captureCheckpointer (list (Snapshot T E)) := fun n =>
  let limit := if (limit <=? 0)%Z || (len n <? limit)%Z then len n else limit in
  (n, take (Z.to_nat limit) (rev n)).

Definition capturePrune (threadID : string) (retainCount : Z) : st captureCheckpointer (option error) := fun n =>
  if (retainCount <=? 0)%Z then ([], None)
  else if (len n <=? retainCount)%Z then (n, None)
  else (drop (length n - Z.to_nat retainCount) n, None).

Definition captureDelete (threadID : string) : st captureCheckpointer (option error) := fun n => ([], None).
Definition captureDeleteIfIdle (threadID : string) : st captureCheckpointer (option error) := fun n => ([], None).
End Capture.
Arguments captureCheckpointer : clear implicits.

(** ** The inner run *)
Section Lifting.
Context {X H : Type}.
Definition outside {A} (m : st X A) : st (X * H) A := fun '(x, h) => let '(x, a) := m x in ((x, h), a).
Definition inside {A} (m : st H A) : st (X * H) A := fun '(x, h) => let '(h, a) := m h in ((x, h), a).
Definition inner_node {T E} (node : Node X T E) : Node (X * H) T E := fun state counts => outside (node state counts).
Definition inner_router {T} (router : EdgeRouter X T) : EdgeRouter (X * H) T := fun state => outside (router state).
Definition inner_graph {T E} (g : Graph X T E) : Graph (X * H) T E :=
  mkGraph (inner_node <$> gph_nodes g) (gph_edges g) (inner_router <$> gph_conditionalEdges g) (gph_conditionalAllowed g)
    (gph_retryRoutes g) (gph_entryPoint g) (gph_reducer g) (gph_defaults g).

(** The inner runner reads the context of the parent; it is started without an event sink. *)
Definition inner_host {P T E} `{RunnerHost X P E} : RunnerHost (X * H) T E := {|
  ctx_Cause := outside ctx_Cause; ctx_Done := outside ctx_Done; stream_closed := outside stream_closed;
  time_Now := outside time_Now; telemetry := outside telemetry; sink_emit _ := st_ret true;
|}.
End Lifting.

Definition capture_checkpointer {X T E} : CheckpointerOps (X * captureCheckpointer T E) T E :=
  mkCheckpointerOps (fun n s => inside (captureSave n s)) (fun t => inside (captureLoad t)) (fun t n => inside (capturePrune t n))
    (fun t => inside (captureDeleteIfIdle t)) None.

(** [g.NewRunner(cp)] and the options of an invocation without any. *)
Definition NewRunner {X T E} (g : Graph X T E) (cp : CheckpointerOps X T E) (interceptors : list (StateInterceptor X T)) : graphRunner X T E :=
  mkRunner g (Some cp) interceptors None DefaultHandoffStaleAfter None.
Definition noRunOptions {X T} : runInvocationOptions X T :=
  mkInvocationOptions None None None None (mkMetaInput ∅ ∅) "" 0 (mkLease "" "" 0 time_zero) None false CheckpointPolicyUnset.

Definition subgraphThreadID (parentThread nodeName : string) : string :=
  let parentThread := if parentThread == "" then "__subgraph_parent__" else parentThread in
  let nodeName := if nodeName == "" then "subgraph" else nodeName in
  String.append parentThread (String.append "::" nodeName).

Section Subgraph.
Context {X H Parent Sub E : Type} `{RunnerHost X Parent E} (error_text : error -> string).
Context (sub : Graph X Sub E) (mapIn : Parent -> Sub) (loadSlot : Parent -> SubgraphSlot Sub E * bool)
  (storeSlot : Parent -> SubgraphSlot Sub E -> Parent) (mapOut : Parent -> Sub -> Parent) (zero : Sub).
(** What the context carries: a durable session, the thread and the node of the parent. *)
Context (durable : bool) (parentThread nodeName : string).
Context (cp : CheckpointerOps (X * H) Sub E).
#[local] Existing Instance inner_host.
Notation inner := (NewRunner (inner_graph sub) cp []).

Definition slotInvalid (slot : SubgraphSlot Sub E) : bool :=
  (slt_Contract slot != InlineSlotContract) || (slt_ExportedEffects slot <? 0)%Z || (len (slt_Effects slot) <? slt_ExportedEffects slot)%Z.

(** The inner run from the slot or from the entry point, with the number of effects already
    published. *)
Definition runInner (threadID : string) (parentState : Parent)
  : st (X * H) (res (Z * option (option (RunResult Sub E) * option error))) :=
  let '(slot, ok) := loadSlot parentState in
  if (ok : bool) && (slt_ExecutionPointer slot != "") then
    if slotInvalid slot then st_ret (Err ErrInvalidSnapshot)
    else
      let* seeded := cp_Save cp 0 (mkSnapshot threadID (slt_ExecutionPointer slot) 0 (slt_State slot) (slt_RunMeta slot) (slt_Effects slot)) in
      match seeded with
      | Err seedErr => st_ret (Err seedErr)
      | Ok newRev =>
          let* ran := Resume inner error_text None false (mkToken threadID newRev) noRunOptions in
          st_ret (Ok (slt_ExportedEffects slot, ran))
      end
  else
    let* ran := Start inner error_text None false threadID (mapIn parentState) noRunOptions in
    st_ret (Ok (0%Z, ran)).

(** What the parent state keeps of the inner run. *)
Definition keepSlot (threadID : string) (parentState : Parent) (status : RunStatus) : st (X * H) (res Parent) :=
  match status with
  | RunStatusSuspended | RunStatusHandoff | RunStatusContextCanceled =>
      let* loaded := cp_Load cp threadID in
      st_ret (match loaded with
              | Err loadErr => Err loadErr
              | Ok (snap, _) =>
                  Ok (storeSlot parentState
                        (mkSlot InlineSlotContract (snp_ExecutionPointer snap) (snp_Revision snap) (snp_State snap) (snp_RunMeta snap)
                           (snp_Effects snap) (len (snp_Effects snap))))
              end)
  | RunStatusCompleted => st_ret (Ok (storeSlot parentState (emptySlot zero)))
  | _ => st_ret (Ok parentState)
  end.

(** The directive the parent sees. *)
Definition boundaryDirective (result : RunResult Sub E) (newEffects : list E) : Directive E :=
  match rr_Status result with
  | RunStatusSuspended => WithEffects (Suspend (rr_Reason result) []) newEffects
  | RunStatusContextCanceled => WithEffects Completed newEffects
  | RunStatusHandoff => WithEffects (Runtime.Handoff (rr_Reason result) []) newEffects
  | RunStatusCompleted => WithEffects Completed newEffects
  | RunStatusFailed => WithEffects (Fail (if rr_Reason result == "" then "subgraph failed" else rr_Reason result)) newEffects
  | _ => Fail "subgraph failed"
  end.

Definition subgraphBody (threadID : string) (parentState : Parent) : st (X * H) (res (Parent * Directive E)) :=
  let* ran := runInner threadID parentState in
  match ran with
  | Err err => st_ret (Err err)
  | Ok (_, None) => st_ret (Err ErrInvalidSnapshot)
  | Ok (_, Some (None, err)) => st_ret (Err (default (ErrInvalidSnapshot : error) err))
  | Ok (exported, Some (Some result, err)) =>
      match (if rr_Status result == RunStatusContextCanceled then None else err) with
      | Some err => st_ret (Err err)
      | None =>
          if (len (rr_Effects result) <? exported)%Z then st_ret (Err ErrInvalidSnapshot)
          else
            let newEffects := drop (Z.to_nat exported) (rr_Effects result) in
            let* kept := keepSlot threadID (mapOut parentState (rr_State result)) (rr_Status result) in
            st_ret (parentState ← kept; Ok (parentState, boundaryDirective result newEffects))
      end
  end.

(** The checkpointer is created per invocation: [fresh] is its initial state. *)
Definition subgraphNodeWithCheckpointer (fresh : H) : Node X Parent E := fun parentState counts x =>
  if durable then (x, (counts, Err ErrExecutionCapability))
  else
    let '((x, _), outcome) := subgraphBody (subgraphThreadID parentThread nodeName) parentState (x, fresh) in
    (x, (counts, outcome)).
End Subgraph.

Section Constructors.
Context {X Parent Sub E : Type} `{RunnerHost X Parent E} (error_text : error -> string).
Context (sub : Graph X Sub E) (mapIn : Parent -> Sub) (mapOut : Parent -> Sub -> Parent) (zero : Sub).
Context (durable : bool) (parentThread nodeName : string).

Definition SubgraphNodeWithSlot (loadSlot : Parent -> SubgraphSlot Sub E * bool) (storeSlot : Parent -> SubgraphSlot Sub E -> Parent)
  : Node X Parent E :=
  subgraphNodeWithCheckpointer error_text sub mapIn loadSlot storeSlot mapOut zero durable parentThread nodeName capture_checkpointer
    newCaptureCheckpointer.

Definition StatelessSubgraphNode : Node X Parent E :=
  SubgraphNodeWithSlot (fun _ => (emptySlot zero, false)) (fun parent _ => parent).
End Constructors.

Definition AsStatelessNode {X T E} `{RunnerHost X T E} (error_text : error -> string) (g : Graph X T E) (zero : T) (durable : bool)
    (parentThread nodeName : string) : Node X T E :=
  StatelessSubgraphNode error_text g (fun state => state) (fun _ updated => updated) zero durable parentThread nodeName.
