(* ===== verification/ComposeInv.v ===== *)
(** * What an inline subgraph guarantees

    The inner run is reasoned about by its effect on the capture checkpointer: everything the
    inner loop does before its last save leaves the checkpointer alone ([frames]), and the
    last save of a paused run records exactly the result the loop reports ([final]). *)

From S2P Require Import Prelude Go Sha256 Json Identity Schedule Activity Waits Contract Children Aggregate Runtime Graph Handoff Runner RunnerInv MemoryCheckpointer HandoffInv Resume ResumeInv Compose.

(** ** Reasoning about the capture *)
Section Triples.
Context {X H : Type}.
Notation Y := (X * H)%type.

Definition frames {A} (m : st Y A) : Prop := forall x h, (m (x, h)).1.2 = h.
Definition from (h : H) {A} (m : st Y A) (Q : H -> A -> Prop) : Prop := forall x, Q (m (x, h)).1.2 (m (x, h)).2.

Lemma frames_ret {A} (a : A) : frames (st_ret a).
Proof. done. Qed.
Lemma frames_outside {A} (m : st X A) : frames (outside m).
Proof. intros x h. simpl. by destruct (m x). Qed.
Lemma frames_bind {A B} (m : st Y A) (k : A -> st Y B) : frames m -> (forall a, frames (k a)) -> frames (st_bind m k).
Proof.
  intros Hm Hk x h. unfold st_bind. specialize (Hm x h). destruct (m (x, h)) as [[x1 h1] a]. simpl in Hm. subst h1. apply Hk.
Qed.

Lemma from_ret h {A} (a : A) Q : Q h a -> from h (st_ret a) Q.
Proof. by intros Hq x. Qed.
Lemma from_bind h {A B} (m : st Y A) (k : A -> st Y B) R Q : from h m R -> (forall h' a, R h' a -> from h' (k a) Q) -> from h (st_bind m k) Q.
Proof.
  intros Hm Hk x. unfold st_bind. specialize (Hm x). destruct (m (x, h)) as [[x1 h1] a]. by apply Hk.
Qed.
Lemma from_frame h {A B} (m : st Y A) (k : A -> st Y B) Q : frames m -> (forall a, from h (k a) Q) -> from h (st_bind m k) Q.
Proof.
  intros Hm Hk. apply (from_bind h m k (fun h' _ => h' = h)).
  - intros x. apply Hm.
  - intros h' a ->. apply Hk.
Qed.
Lemma from_ret_bind h {A B} (a : A) (k : A -> st Y B) Q : from h (k a) Q -> from h (st_bind (st_ret a) k) Q.
Proof. done. Qed.
Lemma from_inside h {A} (m : st H A) (Q : H -> A -> Prop) : Q (m h).1 (m h).2 -> from h (inside m) Q.
Proof. intros Hq x. simpl. by destruct (m h). Qed.
Lemma from_run h {A} (m : st Y A) Q x x' h' a : from h m Q -> m (x, h) = ((x', h'), a) -> Q h' a.
Proof. intros Hm E0. specialize (Hm x). by rewrite E0 in Hm. Qed.
End Triples.
Create HintDb frames_db.
#[export] Hint Resolve frames_ret frames_outside : frames_db.

Section Inner.
Context {X Parent Sub E : Type} `{HH : RunnerHost X Parent E} (error_text : error -> string) (sub : Graph X Sub E).
Notation H := (captureCheckpointer Sub E).
Notation Y := (X * H)%type.
#[local] Existing Instance inner_host.
#[local] Set Typeclasses Depth 5.
Notation inner := (NewRunner (inner_graph sub) capture_checkpointer []).
Implicit Types (h : H) (l : loopState (T := Sub) (E := E)) (meta : RunMetadata).

Definition paused (status : RunStatus) : Prop := status = RunStatusSuspended \/ status = RunStatusHandoff \/ status = RunStatusContextCanceled.

Lemma frames_cause : frames (ctx_Cause (X := Y) (T := Sub) (E := E)). Proof. apply frames_outside. Qed.
Lemma frames_done : frames (ctx_Done (X := Y) (T := Sub) (E := E)). Proof. apply frames_outside. Qed.
Lemma frames_closed : frames (stream_closed (X := Y) (T := Sub) (E := E)). Proof. apply frames_outside. Qed.
Lemma frames_now : frames (time_Now (X := Y) (T := Sub) (E := E)). Proof. apply frames_outside. Qed.
Lemma frames_telemetry : frames (telemetry (X := Y) (T := Sub) (E := E)). Proof. apply frames_outside. Qed.
Lemma frames_emit e : frames (sink_emit (X := Y) (T := Sub) (E := E) e). Proof. done. Qed.
#[local] Hint Resolve frames_cause frames_done frames_closed frames_now frames_telemetry frames_emit : frames_db.
(** What a terminal result says about the capture. *)
Record captured threadID (rev : N) h' (result : RunResult Sub E) : Prop := {
  cap_snapshot : exists snap, last h' = Some snap /\ snp_ThreadID snap = threadID /\ snp_Effects snap = rr_Effects result /\
    snp_State snap = rr_State result /\ snp_ExecutionPointer snap = rr_ExecutionPointer result /\
    snp_ExecutionPointer snap ∈ dom (gph_nodes sub) /\ snp_Revision snap = succ_u64 rev /\
    met_HandoffStatus (snp_RunMeta snap) = HandoffStatusNone;
}.
(** A run ends completed, failed with an error, or paused with what it reports captured. *)
Definition closing threadID rev h' (result : RunResult Sub E) (err : option error) : Prop :=
  rr_Status result = RunStatusCompleted \/ (rr_Status result = RunStatusFailed /\ err <> None) \/
  (paused (rr_Status result) /\ captured threadID rev h' result).
Definition final threadID rev effects h' (o : RunResult Sub E * option error) : Prop :=
  rr_Effects o.1 = effects /\ closing threadID rev h' o.1 o.2.

Lemma nodes_dom : dom (gph_nodes (inner_graph (H := H) sub)) = dom (gph_nodes sub).
Proof. unfold inner_graph. cbn [gph_nodes]. exact (dom_fmap_L _ (gph_nodes sub)). Qed.

(** ** Saving *)
Lemma prune_last threadID (n : Z) h : (0 < n)%Z -> last (capturePrune threadID n h).1 = last h /\ (capturePrune threadID n h).2 = None.
Proof.
  intros Hn. unfold capturePrune. destruct (n <=? 0)%Z eqn:E0; [lia|]. destruct (len h <=? n)%Z eqn:El; [done|]. simpl. split; [|done].
  unfold len in El. apply Z.leb_gt in El. rewrite !last_lookup, length_drop, lookup_drop. f_equal. lia.
Qed.

Lemma retention_from threadID h {B} (k : option error -> st Y B) Q : (forall h', last h' = last h -> from h' (k None) Q) ->
  from h (st_bind (applyRetentionPolicy inner threadID) k) Q.
Proof.
  intros Hq. apply (from_bind h _ _ (fun h' o => last h' = last h /\ o = None)); [|intros h' o [E0 ->]; by apply Hq].
  unfold applyRetentionPolicy. cbn. destruct (_ <=? 0)%Z eqn:El; [by apply from_ret|]. apply Z.leb_gt in El.
  apply from_inside. by apply prune_last.
Qed.

Lemma prepared_from h rev (s : Snapshot Sub E) current state {B} (k : _ -> st Y B) Q : captureRevision h = rev ->
  from (h ++ [s <| snp_Revision := succ_u64 rev |>]) (k (s, Ok (Some (succ_u64 rev)))) Q ->
  from h (st_bind (persistSnapshotPrepared inner rev s current state noRunOptions) k) Q.
Proof.
  intros Hr Hq x. unfold persistSnapshotPrepared. cbn. unfold st_bind, st_ret. cbn. unfold captureSave. rewrite Hr.
  rewrite bool_decide_eq_true_2 by done. specialize (Hq x). by destruct s.
Qed.
Lemma save_from h rev (s : Snapshot Sub E) current state {B} (k : _ -> st Y B) Q : captureRevision h = rev ->
  from (h ++ [s <| snp_Revision := succ_u64 rev |>]) (k (Ok (Some (succ_u64 rev)))) Q ->
  from h (st_bind (persistSnapshot inner rev s current state noRunOptions) k) Q.
Proof.
  intros Hr Hq. unfold persistSnapshot.
  apply (from_bind h _ _ (fun h' o => h' = h ++ [s <| snp_Revision := succ_u64 rev |>] /\ o = Ok (Some (succ_u64 rev)))); [|by intros h' o [-> ->]].
  apply prepared_from; [done|]. by apply from_ret.
Qed.

Lemma failed_from h state effects meta pointer reason {B} (k : RunResult Sub E -> st Y B) Q :
  (forall now, from h (k (newRunResultFailed now state effects meta pointer reason)) Q) ->
  from h (st_bind (failedResultWithReason state effects meta pointer reason) k) Q.
Proof.
  intros Hk. unfold failedResultWithReason. apply (from_bind h _ _ (fun h' a => h' = h /\ exists now, a = newRunResultFailed now state effects meta pointer reason)).
  - apply from_frame; [auto with frames_db|]. intros now. apply from_ret. eauto.
  - intros h' a (-> & now & ->). apply Hk.
Qed.

(** Walks over the steps that leave the capture alone. *)
Ltac from_auto :=
  repeat match goal with
  | |- from _ (st_bind (failedResultWithReason _ _ _ _ _) _) _ => apply failed_from; intros ?
  | |- from _ (st_bind (st_ret _) _) _ => apply from_ret_bind
  | |- from _ (st_bind _ _) _ => apply from_frame; [by auto with frames_db|intros ?]
  | |- from _ (st_ret _) _ => apply from_ret
  end.

Lemma final_failed threadID rev effects h' (o : RunResult Sub E * option error) : rr_Effects o.1 = effects -> rr_Status o.1 = RunStatusFailed ->
  o.2 <> None -> final threadID rev effects h' o.
Proof. split; [done|]. right. by left. Qed.
Lemma final_completed threadID rev effects h' (o : RunResult Sub E * option error) : rr_Effects o.1 = effects -> rr_Status o.1 = RunStatusCompleted ->
  final threadID rev effects h' o.
Proof. split; [done|]. by left. Qed.
Lemma final_paused threadID rev effects h' (o : RunResult Sub E * option error) : rr_Effects o.1 = effects -> paused (rr_Status o.1) ->
  captured threadID rev h' o.1 -> final threadID rev effects h' o.
Proof. split; [done|]. right. by right. Qed.
Ltac final_over := first [by apply final_failed | by apply final_completed].

(** ** The ways a run ends *)
Lemma failRun_from threadID rev h current state meta effects err : from h (failRun error_text current state meta effects err) (final threadID rev effects).
Proof. unfold failRun, emitFailed, emitTerminalEvent. from_auto. final_over. Qed.

Lemma captured_snoc threadID rev h h' state meta effects pointer (result : RunResult Sub E) :
  last h' = last (h ++ [(mkSnapshot threadID pointer 0 state meta effects) <| snp_Revision := succ_u64 rev |>]) ->
  rr_Effects result = effects -> rr_State result = state -> rr_ExecutionPointer result = pointer -> pointer ∈ dom (gph_nodes sub) ->
  met_HandoffStatus meta = HandoffStatusNone -> captured threadID rev h' result.
Proof. intros E0 <- <- <- Hp Hm. split. eexists. rewrite E0, last_snoc. by split_and!. Qed.

Lemma valid_pointer ptr : validateExecutionPointer (inner_graph (H := H) sub) ptr = None -> ptr ∈ dom (gph_nodes sub).
Proof. intros Hv%validateExecutionPointer_None. by rewrite nodes_dom in Hv. Qed.

Lemma handoff_from threadID rev h current state meta effects reason resumeAt signal : captureRevision h = rev ->
  from h (completeHandoffTerminal inner threadID current state meta effects rev reason resumeAt noRunOptions signal) (final threadID rev effects).
Proof.
  intros Hr. unfold completeHandoffTerminal, emitTerminalEvent. do 2 (apply from_frame; [auto with frames_db|intros ?]).
  change (rnr_graph inner) with (inner_graph (H := H) sub).
  destruct (validateExecutionPointer _ _) eqn:Ev.
  { from_auto. final_over. }
  apply valid_pointer in Ev. change (resolveHandoffOutbox inner noRunOptions) with (None (A := HandoffOutbox Y)). cbv iota zeta.
  apply from_frame; [auto with frames_db|intros now]. apply from_ret_bind.
  set (m := clearHandoffRunMeta _). assert (Hm : met_HandoffStatus m = HandoffStatusNone) by done. clearbody m.
  set (ptr := if resumeAt == "" then current else resumeAt) in *. clearbody ptr.
  apply prepared_from; [done|]. cbv beta iota. apply from_ret_bind. cbv beta iota.
  unfold finalizeHandoffTerminal, emitHandoffTerminalEvent, emitTerminalEvent. apply retention_from. intros h' E0. cbv iota zeta.
  apply from_frame; [apply frames_bind; auto with frames_db|]. intros _. apply from_ret. apply final_paused; [done|unfold paused; by auto|].
  by eapply captured_snoc.
Qed.

Lemma cancel_from threadID rev h current state meta effects ctxErr close : captureRevision h = rev -> current ∈ dom (gph_nodes sub) ->
  met_HandoffStatus meta = HandoffStatusNone ->
  from h (handleContextCancellation inner error_text threadID current state meta effects rev ctxErr noRunOptions close) (final threadID rev effects).
Proof.
  intros Hr Hc Hm. unfold handleContextCancellation, interruptionSnapshot, emitTerminalEvent. cbv [rnr_durable NewRunner]. apply from_ret_bind. cbv beta iota.
  do 2 (apply from_frame; [auto with frames_db|intros ?]). cbv zeta. apply save_from; [done|]. cbv beta iota. cbn [is_nil andb].
  cbv iota. apply retention_from. intros h' E0. cbv iota. apply from_frame; [auto with frames_db|intros _]. apply from_ret. apply final_paused; [done|unfold paused; by auto|].
  by eapply captured_snoc.
Qed.

Lemma interrupt_from threadID rev h current state meta effects : captureRevision h = rev -> current ∈ dom (gph_nodes sub) ->
  met_HandoffStatus meta = HandoffStatusNone ->
  from h (handleHandoff inner error_text threadID current state meta effects rev noRunOptions) (final threadID rev effects).
Proof.
  intros Hr Hc Hm. unfold handleHandoff, interruptionSnapshot. cbv [rnr_durable NewRunner]. apply from_ret_bind. cbv beta iota.
  apply from_frame; [auto with frames_db|intros ?]. by apply handoff_from.
Qed.

(** ** One turn of the loop *)
Lemma checkContext_from threadID h l : captureRevision h = lp_revision l -> lp_current l ∈ dom (gph_nodes sub) ->
  met_HandoffStatus (lp_meta l) = HandoffStatusNone ->
  from h (checkContext inner error_text threadID l noRunOptions)
    (fun h' o => match o with None => h' = h | Some o => final threadID (lp_revision l) (lp_effects l) h' o end).
Proof.
  destruct l as [current state meta effects rev]. cbn [lp_revision lp_current lp_meta lp_effects]. intros Hr Hc Hm. unfold checkContext.
  apply from_frame; [auto with frames_db|intros cause]. destruct (cause_is cause _).
  { eapply from_bind; [by apply interrupt_from|]. intros h' o Ho. by apply from_ret. }
  apply from_frame; [auto with frames_db|intros cause']. destruct (cause_is cause' _).
  { eapply from_bind; [by apply failRun_from|]. intros h' o Ho. by apply from_ret. }
  apply from_frame; [auto with frames_db|intros [err|]]; [|by apply from_ret]. apply from_frame; [auto with frames_db|intros closed].
  eapply from_bind; [by apply cancel_from|]. intros h' o Ho. by apply from_ret.
Qed.

Lemma failedStep_from threadID h l err : captureRevision h = lp_revision l -> lp_current l ∈ dom (gph_nodes sub) ->
  met_HandoffStatus (lp_meta l) = HandoffStatusNone ->
  from h (failedStep inner error_text threadID l err noRunOptions) (final threadID (lp_revision l) (lp_effects l)).
Proof.
  destruct l as [current state meta effects rev]. cbn [lp_revision lp_current lp_meta lp_effects]. intros Hr Hc Hm. unfold failedStep.
  apply from_frame; [auto with frames_db|intros cause]. destruct (cause_is cause _); [apply failRun_from|].
  apply from_frame; [auto with frames_db|intros done0]. destruct (_ && _).
  - apply from_frame; [auto with frames_db|intros cause']. destruct (cause_is cause' _); [by apply interrupt_from|].
    do 2 (apply from_frame; [auto with frames_db|intros ?]). by apply cancel_from.
  - from_auto. final_over.
Qed.

Lemma canceledStep_from threadID h l : captureRevision h = lp_revision l -> lp_current l ∈ dom (gph_nodes sub) ->
  met_HandoffStatus (lp_meta l) = HandoffStatusNone ->
  from h (canceledStep inner error_text threadID l noRunOptions) (final threadID (lp_revision l) (lp_effects l)).
Proof.
  destruct l as [current state meta effects rev]. cbn [lp_revision lp_current lp_meta lp_effects]. intros Hr Hc Hm. unfold canceledStep.
  apply from_frame; [auto with frames_db|intros cause]. destruct (cause_is cause _); [by apply interrupt_from|].
  apply from_frame; [auto with frames_db|intros cause']. destruct (cause_is cause' _); [apply failRun_from|by apply cancel_from].
Qed.

(** The directives: a terminal one ends the run, another leaves the capture alone. *)
Definition stepped threadID rev effects h h' (out : directiveStep Sub E) : Prop :=
  if stp_terminal out then exists result, stp_result out = Some result /\ final threadID rev effects h' (result, stp_err out) else h' = h.

Lemma terminalFail_from threadID rev h current state meta effects err :
  from h (terminalFailDirectiveStep error_text current state meta effects err) (stepped threadID rev effects h).
Proof. unfold terminalFailDirectiveStep, emitFailed, emitTerminalEvent. from_auto. eexists. split; [done|]. final_over. Qed.

Lemma finish_from threadID rev h current state meta effects reason :
  from h (finishCompleted current state meta effects reason) (stepped threadID rev effects h).
Proof. unfold finishCompleted, emitTerminalEvent. from_auto. eexists. split; [done|]. final_over. Qed.

Lemma fail_from threadID rev h current state meta effects base :
  from h (applyDirectiveFail current state meta effects base) (stepped threadID rev effects h).
Proof. unfold applyDirectiveFail, emitFailed, emitTerminalEvent. from_auto. eexists. split; [done|]. final_over. Qed.

Lemma frames_edge current state : frames (resolveEdge (inner_graph (H := H) sub) current state).
Proof.
  intros x h. unfold resolveEdge. cbn. destruct (gph_edges sub !! current); [done|]. rewrite lookup_fmap.
  destruct (gph_conditionalEdges sub !! current) as [router|]; [|done]. cbn. by destruct (router state x).
Qed.

Lemma completed_from threadID rev h current state meta effects :
  from h (applyDirectiveCompleted inner error_text current state meta effects) (stepped threadID rev effects h).
Proof.
  unfold applyDirectiveCompleted. apply from_frame; [apply frames_edge|]. intros [next|err]; [|apply terminalFail_from].
  destruct (next == EndNode); [apply finish_from|by apply from_ret].
Qed.

Lemma retry_from threadID rev h current state meta effects base :
  from h (applyDirectiveRetry inner error_text current state meta effects base) (fun h' p => stepped threadID rev effects h h' p.2).
Proof.
  unfold applyDirectiveRetry. destruct (_ <=? 0)%Z.
  { eapply from_bind; [apply terminalFail_from|]. intros h' out Ho. by apply from_ret. }
  cbv zeta. destruct (_ <? _)%Z.
  { eapply from_bind; [apply (failRun_from threadID rev)|]. intros h' [result err] Ho. apply from_ret. by exists result. }
  destruct (gph_retryRoutes _ !! current); [by apply from_ret|].
  eapply from_bind; [apply terminalFail_from|]. intros h' out Ho. by apply from_ret.
Qed.

Lemma suspend_from threadID rev h current state meta effects base : captureRevision h = rev -> met_HandoffStatus meta = HandoffStatusNone ->
  from h (applyDirectiveSuspend inner threadID current state meta effects rev base noRunOptions) (stepped threadID rev effects h).
Proof.
  intros Hr Hm. unfold applyDirectiveSuspend, emitFailed, emitTerminalEvent. do 2 (apply from_frame; [auto with frames_db|intros ?]). cbv zeta.
  change (rnr_graph inner) with (inner_graph (H := H) sub). destruct (validateExecutionPointer _ _) eqn:Ev.
  { from_auto. eexists. split; [done|]. final_over. }
  apply valid_pointer in Ev. apply save_from; [done|]. cbn [is_nil andb]. cbv iota. apply retention_from. intros h' E0. cbv iota.
  apply from_frame; [auto with frames_db|intros _]. apply from_ret. eexists. split; [done|]. apply final_paused; [done|unfold paused; by auto|]. by eapply captured_snoc.
Qed.

Lemma wait_from threadID rev h current state meta effects base :
  from h (applyDirectiveWait inner threadID current state meta effects rev base) (stepped threadID rev effects h).
Proof. unfold applyDirectiveWait. cbv [rnr_durable NewRunner]. from_auto. eexists. split; [done|]. final_over. Qed.

Lemma directive_from threadID rev h current state meta effects base : captureRevision h = rev -> met_HandoffStatus meta = HandoffStatusNone ->
  from h (applyDirective inner error_text threadID current state meta effects rev base noRunOptions)
    (fun h' p => stepped threadID rev effects h h' p.2).
Proof.
  intros Hr Hm. unfold applyDirective.
  assert (Hsame : forall m : st Y (directiveStep Sub E), from h m (stepped threadID rev effects h) ->
    from h (let* step := m in st_ret (met_RetryCounts meta, step)) (fun h' p => stepped threadID rev effects h h' p.2)).
  { intros m Hf. eapply from_bind; [apply Hf|]. intros h' out Ho. by apply from_ret. }
  destruct (dir_kind base);
    eauto using retry_from, terminalFail_from, finish_from, fail_from, completed_from, suspend_from, wait_from.
  apply Hsame. unfold applyDirectiveHandoff. eapply from_bind; [by apply handoff_from|]. intros h' [result err] Ho. apply from_ret. by exists result.
Qed.

(** ** A node of the inner graph *)
Definition grown (effects : list E) meta (step : nodeStepOutcome Sub E) : Prop :=
  (exists more, nso_effects step = effects ++ more) /\ met_HandoffStatus (nso_meta step) = met_HandoffStatus meta.

Lemma emitEffects_true current state (es : list E) : emitEffects (X := Y) (T := Sub) current state es = st_ret true.
Proof. induction es as [|e es IH]; [done|]. cbn. exact IH. Qed.

Lemma node_from h current state meta effects :
  from h (runNodeStep inner error_text current state meta effects noRunOptions) (fun h' p => h' = h /\ grown effects meta p.1).
Proof.
  assert (Hsame : grown effects meta (blankNodeStepOutcome state meta effects)) by (split; [exists []; by rewrite app_nil_r|done]).
  unfold runNodeStep, emitFailed, emitTerminalEvent.
  match goal with |- from _ (match ?m with _ => _ end) _ => replace m with (inner_node (H := H) <$> (gph_nodes sub !! current)) end;
    [|symmetry; exact (lookup_fmap _ (gph_nodes sub) _)].
  destruct (gph_nodes sub !! current) as [node|]; cbn [fmap option_fmap option_map]; [|by from_auto].
  apply from_ret_bind. cbn [negb]. cbv iota zeta. apply from_frame; [apply frames_outside|]. intros [counts [[update directive]|err]]; cbn [fst snd].
  2: { from_auto. split; [done|]. cbn. split; [exists []; by rewrite app_nil_r|done]. }
  cbn [noRunOptions inv_invariantValidator mbind option_bind]. destruct (UnwrapDirective directive) as [[base es]|err].
  2: { from_auto. split; [done|]. cbn. split; [exists []; by rewrite app_nil_r|done]. }
  cbv zeta. rewrite emitEffects_true. destruct (len es == 0%Z); apply from_ret_bind, from_ret; (split; [done|]; split; [by exists es|done]).
Qed.

(** ** The loop *)
Record going (rev : N) (effects : list E) l : Prop := {
  gng_rev : lp_revision l = rev;
  gng_effects : exists new, lp_effects l = effects ++ new;
  gng_status : met_HandoffStatus (lp_meta l) = HandoffStatusNone;
  gng_current : lp_current l ∈ dom (gph_nodes sub);
}.
Definition ended threadID rev (effects : list E) h' (o : option (RunResult Sub E) * option error) : Prop :=
  exists result new, o.1 = Some result /\ rr_Effects result = effects ++ new /\ closing threadID rev h' result o.2.

Lemma final_ended threadID rev effects new h' o : final threadID rev (effects ++ new) h' o -> ended threadID rev effects h' (Some o.1, o.2).
Proof. intros [H1 H2]. exists o.1, new. by split_and!. Qed.

Context (closed : closed_graph (inner_graph (H := H) sub)).

Lemma directiveIteration_from threadID rev effects h l base : captureRevision h = rev -> going rev effects l ->
  from h (directiveIteration inner error_text threadID l base noRunOptions)
    (fun h' o => match o with inl l' => h' = h /\ going rev effects l' | inr o => ended threadID rev effects h' o end).
Proof.
  intros Hr [H1 [new H2] H3 H4]. destruct l as [current state meta es revision]. simpl in *. subst revision es.
  unfold directiveIteration. destruct (checkBudgetLimits _ _).
  { eapply from_bind; [apply (failRun_from threadID rev)|]. intros h' o Ho. by eapply from_ret, final_ended. }
  apply from_frame; [auto with frames_db|intros cause]. destruct (cause_is cause _).
  { eapply from_bind; [apply (failRun_from threadID rev)|]. intros h' o Ho. by eapply from_ret, final_ended. }
  apply (from_bind _ _ _ (fun h' p => stepped threadID rev (effects ++ new) h h' p.2 /\ in_graph inner p.2)).
  { intros x. split; [by apply directive_from|]. by apply directive_in_graph. }
  intros h' [counts out] [Ho Hg]. cbv zeta. cbn [fst snd] in *. apply from_ret_bind. cbv beta iota. unfold stepped in Ho. unfold in_graph in Hg.
  destruct (stp_terminal out).
  - destruct Ho as (result & -> & Ho). apply from_ret. by apply (final_ended _ _ _ _ _ (result, stp_err out)) in Ho.
  - subst h'. apply from_ret. split; [done|]. split; try done; [by exists new|]. rewrite <- nodes_dom. by apply Hg.
Qed.

Lemma iteration_from threadID rev effects h l : captureRevision h = rev -> going rev effects l ->
  from h (iteration inner error_text threadID l noRunOptions)
    (fun h' o => match o with inl l' => h' = h /\ going rev effects l' | inr o => ended threadID rev effects h' o end).
Proof.
  intros Hr Hl. destruct Hl as [H1 [new H2] H3 H4] eqn:El. clear El. unfold iteration.
  eapply from_bind; [apply checkContext_from; [by rewrite H1|done..]|]. intros h' [o|] Ho.
  { apply from_ret. rewrite H1, H2 in Ho. by apply final_ended in Ho. }
  subst h'. destruct l as [current state meta es revision]. simpl in *. subst revision es.
  destruct (_ <=? _)%Z.
  { eapply from_bind; [apply (failRun_from threadID rev)|]. intros h' o Ho. by eapply from_ret, final_ended. }
  eapply from_bind; [apply node_from|]. intros h' [step err] [-> [[more Hm] Hs]]. cbv beta iota zeta. cbn [fst] in *.
  set (next := mkLoop current (nso_state step) (nso_meta step) (nso_effects step) rev).
  assert (Hn : going rev effects next) by (split; try done; [exists (new ++ more); simpl; by rewrite Hm, app_assoc|simpl; congruence]).
  destruct Hn as [N1 [new' N2] N3 N4] eqn:En. clear En. destruct err as [err|].
  { eapply from_bind; [by apply (failedStep_from threadID h next err)|]. intros h' o Ho. rewrite N2 in Ho. by eapply from_ret, final_ended. }
  destruct (nso_emitCanceled step).
  { eapply from_bind; [by apply (canceledStep_from threadID h next)|]. intros h' o Ho. rewrite N2 in Ho. by eapply from_ret, final_ended. }
  eapply from_bind; [by apply (checkContext_from threadID h next)|]. intros h' [o|] Ho.
  { apply from_ret. rewrite N2 in Ho. by apply final_ended in Ho. }
  subst h'. by apply (directiveIteration_from threadID rev effects h next).
Qed.

Lemma loop_from fuel threadID rev effects h l : captureRevision h = rev -> going rev effects l ->
  from h (executeLoop inner error_text fuel threadID l noRunOptions)
    (fun h' o => match o with None => True | Some o => ended threadID rev effects h' o end).
Proof.
  intros Hr. revert l. induction fuel as [|fuel IH]; intros l Hl; [done|]. cbn [executeLoop].
  eapply from_bind; [by apply iteration_from|]. intros h' [l'|o] Ho.
  - destruct Ho as [-> Ho]. by apply IH.
  - by apply from_ret.
Qed.

Lemma execute_ended threadID ptr state meta effects rev x h : captureRevision h = rev -> ptr ∈ dom (gph_nodes sub) ->
  met_HandoffStatus meta = HandoffStatusNone ->
  exists x' h' o, execute inner error_text threadID ptr state meta effects rev noRunOptions (x, h) = ((x', h'), Some o) /\ ended threadID rev effects h' o.
Proof.
  intros Hr Hp Hm. destruct (executeLoop_enough inner error_text (executionFuel inner meta) threadID noRunOptions (mkLoop ptr state meta effects rev) (x, h))
    as ([x' h'] & o & He); [unfold executionFuel; simpl; lia|].
  specialize (He _ (le_n _)). exists x', h', o. split; [exact He|].
  eapply (from_run h _ _ x) in He; [|apply (loop_from _ threadID rev effects); [done|]; split; [done|exists []; by rewrite app_nil_r|done..]]. done.
Qed.

(** ** The whole inner run *)
(** The run [o] is that of the inner loop from the given place. *)
Definition ran_from threadID ptr state effects rev h h' (o : option (option (RunResult Sub E) * option error)) : Prop :=
  exists x0 x1 h1 meta result err new,
    execute inner error_text threadID ptr state meta effects rev noRunOptions (x0, h) = ((x1, h1), Some (Some result, err)) /\
    met_StepCount meta = 0%Z /\ o = Some (Some result, err) /\ rr_Effects result = effects ++ new /\ closing threadID rev h' result err.

Lemma cleanup_from threadID h (result : RunResult Sub E) Q :
  (forall h', ~ (rr_Status result = RunStatusCompleted \/ rr_Status result = RunStatusFailed) -> h' = h -> Q h' None) ->
  (forall h', rr_Status result = RunStatusCompleted \/ rr_Status result = RunStatusFailed -> Q h' None) ->
  from h (postRunCleanup inner None threadID noRunOptions (Some result)) Q.
Proof.
  intros Hp Hq. unfold postRunCleanup, releaseLease. apply from_ret_bind.
  destruct ((threadID != "") && _) eqn:Ea.
  - apply andb_true_iff in Ea as [_ Ea]. unfold appliesTerminalPolicies in Ea.
    assert (Hs : rr_Status result = RunStatusCompleted \/ rr_Status result = RunStatusFailed).
    { apply orb_true_iff in Ea as [Ea|Ea]; apply bool_decide_eq_true in Ea; auto. }
    unfold applyTerminalPolicies. cbv [rnr_checkpointer NewRunner]. destruct (_ && _).
    + eapply (from_bind _ _ _ (fun _ o => o = None)); [by apply from_inside|]. intros h' o ->. by apply from_ret, Hq.
    + apply retention_from. intros h' _. by apply from_ret, Hq.
  - apply from_ret_bind, from_ret. cbn. destruct (decide (rr_Status result = RunStatusCompleted \/ rr_Status result = RunStatusFailed)); auto.
Qed.

Lemma closing_after threadID rev h h' (result : RunResult Sub E) err : closing threadID rev h result err ->
  (~ (rr_Status result = RunStatusCompleted \/ rr_Status result = RunStatusFailed) -> h' = h) -> closing threadID rev h' result err.
Proof.
  intros [H1|[H2|[H3 H4]]] Hh; [by left|right; by left|]. right. right. split; [done|]. rewrite Hh; [done|].
  intros [Hs|Hs]; rewrite Hs in H3; by destruct H3 as [?|[?|?]].
Qed.

(** [execute] followed by the cleanup, as both entry points end. *)
Lemma executed_from threadID ptr state meta effects rev h : captureRevision h = rev -> ptr ∈ dom (gph_nodes sub) ->
  met_HandoffStatus meta = HandoffStatusNone -> met_StepCount meta = 0%Z ->
  from h (let* ran := execute inner error_text threadID ptr state meta effects rev noRunOptions in
          match ran with
          | None => st_ret None
          | Some (result, err) => let* cleanupErr := postRunCleanup inner None threadID noRunOptions result in
                                  st_ret (Some (result, errors_Join err cleanupErr))
          end) (ran_from threadID ptr state effects rev h).
Proof.
  intros Hr Hp Hm Hz.
  apply (from_bind _ _ _ (fun h1 o => exists x0 x1, execute inner error_text threadID ptr state meta effects rev noRunOptions (x0, h) = ((x1, h1), o) /\
    exists p, o = Some p /\ ended threadID rev effects h1 p)).
  { intros x0. destruct (execute_ended threadID ptr state meta effects rev x0 h Hr Hp Hm) as (x1 & h1 & p & He & Hend). rewrite He.
    exists x0, x1. split; [done|]. by exists p. }
  intros h1 o (x0 & x1 & He & [o' err] & -> & result & new & Ho & Hnew & Hclose). cbn [fst snd] in *. subst o'.
  apply (from_bind _ _ _ (fun h' e => e = None /\ closing threadID rev h' result err)).
  - apply cleanup_from; intros h' Hs; [intros ->; done|]. split; [done|]. apply (closing_after _ _ h1); [done|]. by intros [].
  - intros h' e [-> Hc]. apply from_ret. exists x0, x1, h1, meta, result, err, new. split_and!; try done. by destruct err.
Qed.

Lemma start_from threadID state h : captureRevision h = 0%N -> threadID <> "" ->
  from h (Start inner error_text None false threadID state noRunOptions) (ran_from threadID (gph_entryPoint sub) state [] 0 h).
Proof.
  intros Hr Ht. unfold Start. rewrite bool_decide_eq_false_2 by done. cbn [resolveRunOptions noRunOptions inv_checkpointPolicy inv_atomicHandoff negb].
  cbv iota. unfold acquireLease. cbn [inv_leaseOwner noRunOptions]. rewrite bool_decide_eq_true_2 by done. apply from_ret_bind. cbv iota.
  do 2 (apply from_frame; [auto with frames_db|intros ?]). cbv zeta. apply executed_from; try done. rewrite <- nodes_dom. apply (cg_entry _ closed).
Qed.

(** A slot the node itself stored: its effects are all published and it can be resumed. *)
Record slot_ok (slot : SubgraphSlot Sub E) : Prop := {
  sok_contract : slt_Contract slot = InlineSlotContract;
  sok_exported : slt_ExportedEffects slot = len (slt_Effects slot);
  sok_pointer : slt_ExecutionPointer slot ∈ dom (gph_nodes sub);
  sok_status : met_HandoffStatus (slt_RunMeta slot) = HandoffStatusNone;
}.
Definition seed threadID (slot : SubgraphSlot Sub E) : Snapshot Sub E :=
  mkSnapshot threadID (slt_ExecutionPointer slot) 1 (slt_State slot) (slt_RunMeta slot) (slt_Effects slot).

Lemma inner_pointer ptr : ptr ∈ dom (gph_nodes sub) -> (ptr == "") = false /\ present (gph_nodes (rnr_graph inner)) ptr = true.
Proof.
  intros Hp. assert (Hd : ptr ∈ dom (gph_nodes (rnr_graph inner))) by (unfold NewRunner, rnr_graph; by rewrite nodes_dom).
  split; [|by apply present_dom]. apply bool_decide_eq_false_2. intros ->. by apply (cg_empty _ closed).
Qed.

Lemma normalize_named threadID (s : Snapshot Sub E) rev : threadID <> "" -> snp_ThreadID s = threadID -> snp_Revision s = rev -> rev <> 0%N ->
  snp_ExecutionPointer s <> "" -> normalizeLoadedSnapshot threadID s rev = (s, None).
Proof.
  destruct s. cbn. intros Ht -> -> Hr Hp. unfold normalizeLoadedSnapshot. cbn. by repeat (case_bool_decide; cbn; try done).
Qed.

Lemma decision_from threadID slot : slot_ok slot -> threadID <> "" ->
  from [seed threadID slot] (evaluateResume inner capture_checkpointer (mkToken threadID 1) noRunOptions)
    (fun h' d => h' = [seed threadID slot] /\ dec_Err d = None /\ dec_State d = Some (slt_State slot) /\ dec_Effects d = slt_Effects slot /\
       dec_ExecutionPointer d = slt_ExecutionPointer slot /\ dec_SnapshotRevision d = 1%N /\
       exists meta, dec_RunMeta d = Some meta /\ met_StepCount meta = 0%Z /\ met_HandoffStatus meta = HandoffStatusNone).
Proof.
  intros [_ _ Hp Hs] Ht. apply inner_pointer in Hp as [He Hpres].
  unfold evaluateResume. cbn [tok_ThreadID tok_SnapshotRevision]. rewrite bool_decide_eq_false_2 by done.
  apply (from_bind _ _ _ (fun h' o => h' = [seed threadID slot] /\ o = (Some (seed threadID slot), 1%N, None))).
  { unfold loadNormalizedSnapshot. apply (from_bind _ _ _ (fun h' o => h' = [seed threadID slot] /\ o = Ok (seed threadID slot, 1%N)));
      [by apply from_inside|]. intros h' o [-> ->]. apply from_ret. split; [done|].
    rewrite normalize_named; try done. by apply bool_decide_eq_false in He. }
  intros h' o [-> ->]. cbv beta iota zeta. cbn [N.eqb]. rewrite bool_decide_eq_false_2 by done. rewrite bool_decide_eq_true_2 by done. cbn [negb].
  cbv iota. apply from_frame; [auto with frames_db|intros now]. unfold handoffGate, seed. cbn [snp_RunMeta]. rewrite Hs.
  unfold resumeAdmitted. cbn [snp_State snp_RunMeta snp_ExecutionPointer]. apply from_ret_bind. cbn [noRunOptions inv_overlay inv_runMetadata]. cbv zeta iota.
  rewrite Hs. cbn [bool_decide]. rewrite bool_decide_eq_false_2 by done. do 2 (apply from_frame; [auto with frames_db|intros ?]).
  unfold applyResumeTargetPolicy. cbn [inv_resumeTargetPolicy]. apply from_ret_bind. cbv beta iota. rewrite He, Hpres. cbn [negb]. cbv iota.
  apply from_ret. split_and!; try done. by eexists.
Qed.

Lemma resume_from threadID slot : slot_ok slot -> threadID <> "" ->
  from [seed threadID slot] (Resume inner error_text None false (mkToken threadID 1) noRunOptions)
    (ran_from threadID (slt_ExecutionPointer slot) (slt_State slot) (slt_Effects slot) 1 [seed threadID slot]).
Proof.
  intros Hok Ht. unfold Resume. change (rnr_checkpointer inner) with (Some (capture_checkpointer (X := X) (T := Sub) (E := E))). cbv iota.
  cbn [tok_ThreadID]. rewrite bool_decide_eq_false_2 by done.
  cbn [resolveRunOptions noRunOptions inv_checkpointPolicy inv_atomicHandoff negb]. cbv iota.
  unfold acquireLease. cbn [inv_leaseOwner]. rewrite bool_decide_eq_true_2 by done. apply from_ret_bind. cbv iota.
  eapply from_bind; [by apply decision_from|]. intros h' d (-> & -> & -> & -> & -> & -> & meta & -> & Hz & Hm). cbv beta iota.
  apply executed_from; try done. by destruct Hok.
Qed.
End Inner.

(** ** The node *)
Lemma subgraphThreadID_nonempty parentThread nodeName : subgraphThreadID parentThread nodeName <> "".
Proof. unfold subgraphThreadID. cbv zeta. by case_bool_decide; [|destruct parentThread]. Qed.

Lemma inner_closed {X H Sub E} (sub : Graph X Sub E) : closed_graph sub -> closed_graph (inner_graph (H := H) sub).
Proof.
  intros [H1 H2 H3 H4 H5 H6]. assert (Hd : dom (gph_nodes (inner_graph (H := H) sub)) = dom (gph_nodes sub)) by exact (dom_fmap_L _ (gph_nodes sub)).
  split; rewrite ?Hd; done.
Qed.

Section Continuation.
Context {X Parent Sub E : Type} `{HH : RunnerHost X Parent E} (error_text : error -> string) (sub : Graph X Sub E).
Context (mapIn : Parent -> Sub) (loadSlot : Parent -> SubgraphSlot Sub E * bool) (storeSlot : Parent -> SubgraphSlot Sub E -> Parent)
  (mapOut : Parent -> Sub -> Parent) (zero : Sub) (parentThread nodeName : string).
Notation H := (captureCheckpointer Sub E).
Notation Y := (X * H)%type.
#[local] Existing Instance inner_host.
Notation inner := (NewRunner (inner_graph sub) capture_checkpointer []).
Notation node := (SubgraphNodeWithSlot error_text sub mapIn mapOut zero false parentThread nodeName loadSlot storeSlot).
Notation threadID := (subgraphThreadID parentThread nodeName).

(** The slot a parent state continues from, if any. *)
Definition slot_of (p : Parent) : option (SubgraphSlot Sub E) :=
  let '(slot, ok) := loadSlot p in if ok && (slt_ExecutionPointer slot != "") then Some slot else None.
Definition slot_node (slot : option (SubgraphSlot Sub E)) : string := match slot with Some s => slt_ExecutionPointer s | None => gph_entryPoint sub end.
Definition slot_state (p : Parent) : Sub := match slot_of p with Some s => slt_State s | None => mapIn p end.
Definition published (p : Parent) : list E := match slot_of p with Some s => slt_Effects s | None => [] end.
Definition slot_history (p : Parent) : H := match slot_of p with Some s => [seed threadID s] | None => [] end.
Definition slot_revision (p : Parent) : N := match slot_of p with Some _ => 1 | None => 0 end.

Lemma runInner_from p : closed_graph sub -> (forall slot, slot_of p = Some slot -> slot_ok sub slot) ->
  from [] (runInner error_text sub mapIn loadSlot capture_checkpointer threadID p)
    (fun h' o => exists ran, o = Ok (len (published p), ran) /\
       ran_from error_text sub threadID (slot_node (slot_of p)) (slot_state p) (published p) (slot_revision p) (slot_history p) h' ran).
Proof.
  intros Hg Hok. pose proof (inner_closed (H := H) _ Hg) as Hc. pose proof (subgraphThreadID_nonempty parentThread nodeName) as Ht.
  unfold runInner, published, slot_state, slot_revision, slot_history, slot_node. unfold slot_of in *.
  destruct (loadSlot p) as [slot ok]. destruct (ok && _); cbv beta iota.
  - specialize (Hok slot eq_refl). unfold slotInvalid. rewrite (sok_contract _ _ Hok), (sok_exported _ _ Hok).
    assert (Hinv : (InlineSlotContract != InlineSlotContract) || (len (slt_Effects slot) <? 0)%Z || (len (slt_Effects slot) <? len (slt_Effects slot))%Z = false).
    { rewrite bool_decide_eq_true_2 by done. cbn. apply orb_false_iff. split; apply Z.ltb_ge; [apply len_nonneg|lia]. }
    rewrite Hinv. apply (from_bind _ _ _ (fun h' o => h' = [seed threadID slot] /\ o = Ok 1%N)); [by apply from_inside|].
    intros h' o [-> ->]. cbv beta iota. eapply from_bind; [by apply resume_from|]. intros h' ran Hran. apply from_ret. by exists ran.
  - eapply from_bind; [by apply start_from|]. intros h' ran Hran. apply from_ret. by exists ran.
Qed.

(** What the parent state keeps of a paused or completed run. *)
Definition kept (p p' : Parent) (result : RunResult Sub E) : Prop :=
  match rr_Status result with
  | RunStatusCompleted => p' = storeSlot (mapOut p (rr_State result)) (emptySlot zero)
  | _ => exists slot, p' = storeSlot (mapOut p (rr_State result)) slot /\ slot_ok sub slot /\ slt_Effects slot = rr_Effects result /\
           slt_State slot = rr_State result /\ slt_ExecutionPointer slot = rr_ExecutionPointer result
  end.

Lemma keepSlot_from h p result rev err : closing sub threadID rev h result err -> rr_Status result <> RunStatusFailed ->
  from h (keepSlot (X := X) storeSlot zero capture_checkpointer threadID (mapOut p (rr_State result)) (rr_Status result))
    (fun _ o => exists p', o = Ok p' /\ kept p p' result).
Proof.
  intros Hc Hf. unfold kept. destruct Hc as [Hc|[[Hc _]|[Hp Hc]]]; [rewrite Hc; apply from_ret; by eexists|done|].
  assert (Hk : from h (keepSlot (X := X) storeSlot zero capture_checkpointer threadID (mapOut p (rr_State result)) RunStatusSuspended)
    (fun _ o => exists p', o = Ok p' /\ exists slot, p' = storeSlot (mapOut p (rr_State result)) slot /\ slot_ok sub slot /\
       slt_Effects slot = rr_Effects result /\ slt_State slot = rr_State result /\ slt_ExecutionPointer slot = rr_ExecutionPointer result)).
  { destruct Hc as [(snap & Hl & H1 & H2 & H3 & H4 & H5 & H6 & H7)]. unfold keepSlot.
    apply (from_bind _ _ _ (fun _ o => o = Ok (snap, snp_Revision snap))).
    - apply from_inside. unfold captureLoad. by rewrite Hl.
    - intros h' o ->. apply from_ret. eexists. split; [done|]. eexists. split; [done|]. by split_and!. }
  by destruct Hp as [->|[->| ->]].
Qed.

Lemma boundary_unwraps (result : RunResult Sub E) new : rr_Status result = RunStatusCompleted \/ paused (rr_Status result) ->
  exists base, UnwrapDirective (boundaryDirective result new) = Ok (base, new).
Proof.
  assert (Hw : forall base : Directive E, plain base -> exists b, UnwrapDirective (WithEffects base new) = Ok (b, new)).
  { intros base Hb. exists base. unfold UnwrapDirective, WithEffects. rewrite unwrap_effects by done. by rewrite app_nil_r. }
  unfold boundaryDirective. intros [->|[->|[->| ->]]]; by apply Hw.
Qed.

Lemma node_spec b opts p counts x x' counts' outcome : Compile b opts = inr sub -> (forall slot, slot_of p = Some slot -> slot_ok sub slot) ->
  node p counts x = (x', (counts', outcome)) ->
  exists x0 x1 h1 meta result err new,
    execute inner error_text threadID (slot_node (slot_of p)) (slot_state p) meta (published p) (slot_revision p) noRunOptions (x0, slot_history p)
      = ((x1, h1), Some (Some result, err)) /\
    met_StepCount meta = 0%Z /\ counts' = counts /\ rr_Effects result = published p ++ new /\
    match outcome with
    | Err e => err = Some e /\ rr_Status result <> RunStatusContextCanceled
    | Ok (p', d) => (rr_Status result = RunStatusCompleted \/ paused (rr_Status result)) /\ d = boundaryDirective result new /\ kept p p' result
    end.
Proof.
  intros Hb%compiled_closed Hok Hn. unfold SubgraphNodeWithSlot, subgraphNodeWithCheckpointer in Hn.
  destruct (subgraphBody error_text sub mapIn loadSlot storeSlot mapOut zero capture_checkpointer threadID p (x, newCaptureCheckpointer))
    as [[x2 h2] o] eqn:Eb.
  injection Hn as <- <- <-. unfold subgraphBody in Eb. apply st_bind_inv in Eb as ([x3 h3] & o3 & Hr & Eb).
  pose proof (from_run _ _ _ _ _ _ _ (runInner_from p Hb Hok) Hr) as (ran & -> & x0 & x1 & h1 & meta & result & err & new & He & Hz & -> & Heff & Hc).
  cbv beta iota in Eb. exists x0, x1, h1, meta, result, err, new. do 4 (split; [done|]). destruct (if rr_Status result == RunStatusContextCanceled then None else err) as [e|] eqn:Eerr.
  { injection Eb as _ _ <-. case_bool_decide; [done|]. by split. }
  assert (Hf : rr_Status result <> RunStatusFailed).
  { intros Hf. destruct Hc as [Hc|[[_ Hc]|[Hc _]]]; [congruence| |rewrite Hf in Hc; by destruct Hc as [?|[?|?]]].
    rewrite Hf in Eerr. by rewrite bool_decide_eq_false_2 in Eerr by done. }
  assert (Hl : (len (rr_Effects result) <? len (published p))%Z = false).
  { apply Z.ltb_ge. rewrite Heff, len_app. pose proof (len_nonneg new). lia. }
  rewrite Hl in Eb. apply st_bind_inv in Eb as ([x4 h4] & o4 & Hk & Eb). pose proof (from_run _ _ _ _ _ _ _ (keepSlot_from _ p _ _ _ Hc Hf) Hk) as (p' & -> & Hkept).
  injection Eb as _ _ <-. split; [destruct Hc as [?|[[? _]|[? _]]]; [by left|done|by right]|]. split; [|exact Hkept].
  f_equal. rewrite Heff. unfold len. by rewrite Nat2Z.id, drop_app_length.
Qed.

(** A sequence of invocations that each pause, whatever the host does between them as long as
    the parent state keeps the slot; the list is what they published. *)
Inductive pauses : Parent -> list E -> Parent -> Prop :=
| PauseNone p : slot_of p = None -> pauses p [] p
| PauseMore p es p1 counts x x' counts' p' d base new p2 : pauses p es p1 -> node p1 counts x = (x', (counts', Ok (p', d))) ->
    UnwrapDirective d = Ok (base, new) -> loadSlot p2 = loadSlot p' -> slot_of p2 <> None -> pauses p (es ++ new) p2.

Lemma pauses_published b opts p es p' : Compile b opts = inr sub -> (forall q s, loadSlot (storeSlot q s) = (s, true)) -> pauses p es p' ->
  published p' = es /\ forall slot, slot_of p' = Some slot -> slot_ok sub slot.
Proof.
  intros Hb Hload Hp. induction Hp as [p Hp|p es p1 counts x x' counts' p' d base new p2 Hp [IH1 IH2] Hn Hu Hl Hs].
  { unfold published. by rewrite Hp. }
  apply (node_spec _ _ _ _ _ _ _ _ Hb IH2) in Hn as (_ & _ & _ & _ & result & _ & new' & _ & _ & _ & Heff & Hst & -> & Hk).
  destruct (boundary_unwraps result new' Hst) as [base' Hu']. rewrite Hu' in Hu. injection Hu as _ <-. rewrite IH1 in Heff.
  assert (Hsame : slot_of p2 = slot_of p') by (unfold slot_of; by rewrite Hl).
  assert (Hslot : exists slot, slot_of p' = Some slot /\ slot_ok sub slot /\ slt_Effects slot = es ++ new').
  { rewrite Hsame in Hs. rewrite <- Heff. clear -Hk Hs Hload Hst. unfold kept in Hk. destruct Hst as [E0|E0].
    - rewrite E0 in Hk. subst p'. unfold slot_of in Hs. by rewrite Hload in Hs.
    - assert (Hk' : exists slot, p' = storeSlot (mapOut p1 (rr_State result)) slot /\ slot_ok sub slot /\ slt_Effects slot = rr_Effects result).
      { destruct E0 as [E0|[E0|E0]]; rewrite E0 in Hk; destruct Hk as (slot & ? & ? & ? & _); by exists slot. }
      destruct Hk' as (slot & -> & H1 & H2). exists slot. split; [|done]. unfold slot_of in *. rewrite Hload in *. by destruct (_ && _). }
  destruct Hslot as (slot & H1 & H2 & H3). unfold published. rewrite Hsame, H1. split; [done|]. by intros ? [= <-].
Qed.

(** C23: a paused subgraph continues where it paused and publishes each effect once. After any
    sequence of paused invocations that together published [es], the next invocation runs
    the inner graph from the pointer, state and effects of the slot, with a fresh segment, and
    when it returns it publishes [new], where the inner run has produced exactly [es ++ new]:
    no effect is lost at a pause and none is published twice. A further pause leaves a slot
    with all these effects, the reported state and pointer; completion clears the slot. *)
Theorem subgraph_effects_once b opts p es p1 counts x x' counts' p' d base new :
  Compile b opts = inr sub -> (forall q s, loadSlot (storeSlot q s) = (s, true)) -> pauses p es p1 ->
  node p1 counts x = (x', (counts', Ok (p', d))) -> UnwrapDirective d = Ok (base, new) ->
  exists x0 x1 h1 meta result err,
    execute inner error_text threadID (slot_node (slot_of p1)) (slot_state p1) meta es (slot_revision p1) noRunOptions (x0, slot_history p1)
      = ((x1, h1), Some (Some result, err)) /\ met_StepCount meta = 0%Z /\
    rr_Effects result = es ++ new /\ d = boundaryDirective result new /\ kept p1 p' result.
Proof.
  intros Hb Hload Hp Hn Hu. destruct (pauses_published _ _ _ _ _ Hb Hload Hp) as [Hes Hok].
  apply (node_spec _ _ _ _ _ _ _ _ Hb Hok) in Hn as (x0 & x1 & h1 & meta & result & err & new' & He & Hz & _ & Heff & Hst & -> & Hk).
  destruct (boundary_unwraps result new' Hst) as [base' Hu']. rewrite Hu' in Hu. injection Hu as _ <-. rewrite Hes in *.
  by exists x0, x1, h1, meta, result, err.
Qed.
End Continuation.
