(* ===== verification/ComposeExample.v ===== *)
(** * A subgraph that pauses

    An inner graph of two nodes: the first emits an effect and suspends, to continue at the
    second, which emits another and ends. The parent state is a number and the slot. *)

From S2P Require Import Prelude Go Sha256 Json Identity Schedule Activity Waits Contract Children Aggregate Runtime Graph Handoff Runner RunnerInv Resume Compose ComposeInv.

Definition slot_x : Type := SubgraphSlot Z Z * bool.
Definition parent_x : Type := Z * slot_x.

#[local] Instance calm_parent : RunnerHost unit parent_x Z := {|
  ctx_Cause x := (x, None); ctx_Done x := (x, None); stream_closed x := (x, false); time_Now x := (x, time_zero);
  telemetry x := (x, ∅); sink_emit _ x := (x, true);
|}.

Definition ask : Node unit Z Z := fun state counts x => (x, (counts, Ok (1%Z, Effect (Suspend "waiting" ["answer"]) 10%Z))).
Definition answer : Node unit Z Z := fun state counts x => (x, (counts, Ok (state, Effect End 20%Z))).
Definition builder_sub : GraphBuilder unit Z Z :=
  SetEntryPoint (AddEdge (AddEdge (AddNode (AddNode (NewGraph (Some Z.add)) "ask" (Some ask)) "answer" (Some answer)) "ask" "answer") "answer" EndNode) "ask".
Definition sub_x : Graph unit Z Z := buildGraph builder_sub (applyBuildOptions [WithRetentionLimit 1]).
Definition mute (e : error) : string := "".

Definition node_x : Node unit parent_x Z :=
  SubgraphNodeWithSlot mute sub_x fst (fun p s => (s, p.2)) 0%Z false "run" "inline" snd (fun p slot => (p.1, (slot, true))).
Definition asking : parent_x := (5%Z, (emptySlot 0%Z, false)).

Definition parent_after (p : parent_x) : parent_x := match (node_x p ∅ tt).2.2 with Ok (p', _) => p' | Err _ => p end.
Definition directive_after (p : parent_x) : Directive Z := match (node_x p ∅ tt).2.2 with Ok (_, d) => d | Err _ => Completed end.

Lemma first_call : node_x asking ∅ tt = (tt, (∅, Ok (parent_after asking, directive_after asking))).
Proof. vm_compute. reflexivity. Qed.
Lemma second_call : node_x (parent_after asking) ∅ tt = (tt, (∅, Ok (parent_after (parent_after asking), directive_after (parent_after asking)))).
Proof. vm_compute. reflexivity. Qed.
(** The pause stores a slot at the second node, the second call completes and clears it. *)
Lemma pause_example : (parent_after asking).1 = 6%Z /\ slt_ExecutionPointer (parent_after asking).2.1 = "answer" /\
  slt_Effects (parent_after asking).2.1 = [10%Z] /\ (parent_after (parent_after asking)).2.1 = emptySlot 0%Z /\
  (parent_after (parent_after asking)).1 = 12%Z.
Proof. vm_compute. done. Qed.

Lemma paused_once : pauses mute sub_x fst snd (fun p slot => (p.1, (slot, true))) (fun p s => (s, p.2)) 0%Z "run" "inline" asking [10%Z] (parent_after asking).
Proof.
  apply (PauseMore _ _ _ _ _ _ _ _ _ asking [] asking ∅ tt tt ∅ (parent_after asking) (directive_after asking) (Suspend "waiting" []) [10%Z]).
  - apply PauseNone. vm_compute. reflexivity.
  - vm_compute. reflexivity.
  - vm_compute. reflexivity.
  - vm_compute. reflexivity.
  - vm_compute. discriminate.
Qed.

(** The second invocation publishes its own effect only. *)
Lemma subgraph_effects_once_witness : exists result : RunResult Z Z, rr_Effects result = [10%Z] ++ [20%Z].
Proof.
  destruct (subgraph_effects_once mute sub_x fst snd (fun p slot => (p.1, (slot, true))) (fun p s => (s, p.2)) 0%Z "run" "inline"
    builder_sub [WithRetentionLimit 1] asking [10%Z] (parent_after asking) ∅ tt tt ∅ (parent_after (parent_after asking))
    (directive_after (parent_after asking)) Completed [20%Z]) as (x0 & x1 & h1 & meta & result & err & _ & _ & Heff & _).
  - vm_compute. reflexivity.
  - vm_compute. reflexivity.
  - apply paused_once.
  - vm_compute. reflexivity.
  - vm_compute. reflexivity.
  - exists result. exact Heff.
Defined.
