(* ===== verification/Patterns.v ===== *)
(** * Graph patterns

    patterns/patterns.go: three graphs assembled from host nodes. All of them replace the
    state by the update, and rewrite the directive of a node that completed; any other
    directive passes as the node returned it. *)

From S2P Require Import Prelude Go Sha256 Json Identity Schedule Activity Waits Contract Children Aggregate Runtime Graph.

Definition RouteMap : Type := gmap string string.
(** [ErrConfiguration] of the package. *)
Definition ErrConfiguration : error := ErrHost "flowy/patterns: invalid configuration".

Section Patterns.
Context {X T E : Type}.

(** The body the node wrappers share. *)
Definition onCompleted (node : Node X T E) (directiveFor : T -> Directive E) : Node X T E := fun state counts x =>
  let '(x, (counts, outcome)) := node state counts x in
  (x, (counts, match outcome with
               | Err err => Err err
               | Ok (update, directive) =>
                   match UnwrapDirective directive with
                   | Err unwrapErr => Err unwrapErr
                   | Ok (base, effects) =>
                       if negb (IsCompleted base) then Ok (update, directive) else Ok (update, WithEffects (directiveFor update) effects)
                   end
               end)).

Definition replaceState : Reducer T := fun _ update => update.

Definition BuildReAct (reasonNode actionNode : option (Node X T E)) (hasPendingActions : option (T -> bool)) (maxActionRetries : Z)
  : res (GraphBuilder X T E) :=
  match reasonNode, actionNode, hasPendingActions with
  | Some reasonNode, Some actionNode, Some hasPendingActions =>
      if (maxActionRetries <=? 0)%Z then Err ErrConfiguration
      else
        let builder := NewGraph (Some replaceState) in
        let builder := AddNode builder "react_reason" (Some (onCompleted reasonNode (fun _ => Completed))) in
        let builder := AddNode builder "react_action" (Some (onCompleted actionNode (fun _ => Retry maxActionRetries))) in
        let builder := AllowNoOutgoingRoute builder "react_action" in
        let builder := AddConditionalEdge builder "react_reason"
                         (Some (fun state x => (x, Ok (if hasPendingActions state then "react_action" else EndNode)))) ["react_action"; EndNode] in
        let builder := AddRetryRoute builder "react_action" "react_reason" in
        Ok (SetEntryPoint builder "react_reason")
  | _, _, _ => Err ErrConfiguration
  end.

Definition addWorker (builder : GraphBuilder X T E) (worker : string * option (Node X T E)) : GraphBuilder X T E :=
  let builder := AddNode builder worker.1 ((fun node => onCompleted node (fun _ => End)) <$> worker.2) in
  AllowNoOutgoingRoute builder worker.1.
Definition dispatchRouter (routeAccessor : T -> string) (routes : RouteMap) : EdgeRouter X T := fun state x =>
  let intent := routeAccessor state in
  (x, match routes !! intent with
      | None => Err (ErrFmt "flowy/patterns: unknown dispatch intent %q" [intent])
      | Some routeNode => Ok routeNode
      end).
Definition addTarget (targets : list string) (routeNode : string) : list string :=
  if bool_decide (routeNode ∈ targets) then targets else targets ++ [routeNode].
Definition dispatchTargets (routes : RouteMap) : list string := fold_left addTarget (range routes).*2 [] ++ [EndNode].

Definition BuildDispatchGraph (dispatchNode : option (Node X T E)) (workerNodes : gmap string (option (Node X T E)))
    (routeAccessor : option (T -> string)) (routes : RouteMap) : res (GraphBuilder X T E) :=
  match dispatchNode, routeAccessor with
  | Some dispatchNode, Some routeAccessor =>
      if map_all (fun id worker => negb ((id == "dispatch") || (id == EndNode) || is_nil worker)) workerNodes then
        let builder := NewGraph (Some replaceState) in
        let builder := AddNode builder "dispatch" (Some (onCompleted dispatchNode (fun _ => Completed))) in
        let builder := fold_left addWorker (range workerNodes) builder in
        let builder := AddConditionalEdge builder "dispatch" (Some (dispatchRouter routeAccessor routes)) (dispatchTargets routes) in
        Ok (SetEntryPoint builder "dispatch")
      else Err ErrConfiguration
  | _, _ => Err ErrConfiguration
  end.

Definition BuildEvaluatorOptimizer (generatorNode evaluatorNode : option (Node X T E)) (isValid : option (T -> bool)) (maxCorrectionRetries : Z)
  : res (GraphBuilder X T E) :=
  match generatorNode, evaluatorNode, isValid with
  | Some generatorNode, Some evaluatorNode, Some isValid =>
      if (maxCorrectionRetries <=? 0)%Z then Err ErrConfiguration
      else
        let builder := NewGraph (Some replaceState) in
        let builder := AddNode builder "generator" (Some (onCompleted generatorNode (fun _ => Completed))) in
        let builder := AddNode builder "evaluator"
                         (Some (onCompleted evaluatorNode (fun update => if isValid update then End else Retry maxCorrectionRetries))) in
        let builder := AllowNoOutgoingRoute builder "evaluator" in
        let builder := AddRetryRoute builder "evaluator" "generator" in
        let builder := AddEdge builder "generator" "evaluator" in
        Ok (SetEntryPoint builder "generator")
  | _, _, _ => Err ErrConfiguration
  end.
End Patterns.
