(* ===== verification/PatternsInv.v ===== *)
(** * What the patterns guarantee

    The graphs they build compile, and the retries of their looping node are bounded by the
    number given to the constructor, for a host node that does not return its own retries. *)

From S2P Require Import Prelude Go Sha256 Json Identity Schedule Activity Waits Contract Children Aggregate Runtime Graph Handoff Runner RunnerInv Patterns.

Section Compiles.
Context {X T E : Type}.
Implicit Types (b : GraphBuilder X T E).

Lemma compiles_iff b opts : (exists g, Compile b opts = inr g) <-> valid_builder b.
Proof.
  unfold Compile. split.
  - destruct (collectCompileErrors b) eqn:Ec; [intros _; by apply compile_valid|by intros [g ?]].
  - intros Hv. rewrite valid_compiles by done. by eexists.
Qed.

(** ** The workers of a dispatch graph *)
Notation workers := (list (string * option (Node X T E))).
Record unrouted b : Prop := {
  unr_once : bld_overwrittenNodes b = ∅ /\ bld_overwrittenEdgeFrom b = ∅ /\ bld_overwrittenRouterFrom b = ∅ /\ bld_overwrittenRetryFrom b = ∅;
  unr_routes : bld_edges b = ∅ /\ bld_conditionalEdges b = ∅ /\ bld_retryRoutes b = ∅;
  unr_reducer : bld_reducer b <> None;
}.

Lemma workers_added (ws : workers) b : NoDup ws.*1 -> (forall id, id ∈ ws.*1 -> id ∉ dom (bld_nodes b)) -> unrouted b ->
  let b' := fold_left addWorker ws b in
  unrouted b' /\ bld_noOutgoingRoute b' = list_to_set ws.*1 ∪ bld_noOutgoingRoute b /\
  forall name, bld_nodes b' !! name = match list_find (fun w => w.1 = name) ws with
                                      | Some (_, w) => Some ((fun node => onCompleted node (fun _ => End)) <$> w.2)
                                      | None => bld_nodes b !! name
                                      end.
Proof.
  revert b. induction ws as [|[id w] ws IH]; intros b Hnd Hfresh Hb; [split_and!; [done|cbn; set_solver|done]|].
  cbn in Hnd. apply NoDup_cons in Hnd as [Hid Hnd]. cbn [fold_left].
  assert (Hn : id ∉ dom (bld_nodes b)) by (apply Hfresh; cbn; set_solver).
  assert (Hw : addWorker b (id, w) = b <| bld_nodes := <[id := (fun node => onCompleted node (fun _ => End)) <$> w]> (bld_nodes b) |>
                                       <| bld_noOutgoingRoute := {[id]} ∪ bld_noOutgoingRoute b |>).
  { unfold addWorker, AddNode, AllowNoOutgoingRoute. cbn [fst snd]. by rewrite (proj2 (not_present (bld_nodes b) id)). }
  destruct (IH (addWorker b (id, w))) as (H1 & H2 & H3).
  - done.
  - intros k Hk. rewrite Hw. cbn. rewrite (dom_insert_L (bld_nodes b)). assert (k <> id) by (intros ->; done).
    specialize (Hfresh k). cbn in Hfresh. set_solver.
  - rewrite Hw. destruct Hb as [[? [? [? ?]]] [? [? ?]] ?]. by split.
  - cbv zeta. split_and!; [done|rewrite H2, Hw; cbn; set_solver|]. intros name. rewrite H3, Hw. cbn. destruct (decide (id = name)) as [->|Hne].
    + rewrite (proj2 (list_find_None _ _)); [by rewrite (lookup_insert_eq (bld_nodes b))|]. apply Forall_forall. intros [k u] Hk Heq. cbn in Heq. subst k.
      apply Hid, list_elem_of_fmap. by exists (name, u).
    + destruct (list_find _ ws) as [[i u]|]; cbn; [done|]. by rewrite (lookup_insert_ne (bld_nodes b)).
Qed.

Lemma targets_elem (routes : RouteMap) target : target ∈ dispatchTargets routes <-> target = EndNode \/ exists intent, routes !! intent = Some target.
Proof.
  assert (Hfold : forall l acc, target ∈ fold_left addTarget l acc <-> target ∈ acc \/ target ∈ l).
  { induction l as [|t l IH]; intros acc; cbn; [set_solver|]. rewrite IH. unfold addTarget. case_bool_decide; set_solver. }
  unfold dispatchTargets. rewrite elem_of_app, Hfold, list_elem_of_fmap. unfold range. split.
  - intros [[?|([k v] & -> & Hk)]|?]; [set_solver| |set_solver]. right. exists k. by apply elem_of_map_to_list in Hk.
  - intros [->|[k Hk]]; [set_solver|]. left. right. exists (k, target). split; [done|]. by apply elem_of_map_to_list.
Qed.

Lemma find_worker (workers : gmap string (option (Node X T E))) name :
  match list_find (fun w => w.1 = name) (range workers) with Some (_, w) => Some w.2 | None => None end = workers !! name.
Proof.
  destruct (list_find _ _) as [[i [k w]]|] eqn:Ef.
  - apply list_find_Some in Ef as (Hl & Heq & _). cbn in Heq. subst k. symmetry. by apply elem_of_map_to_list, list_elem_of_lookup_2 with i.
  - symmetry. apply not_elem_of_dom. intros [w Hw]%elem_of_dom. apply list_find_None in Ef. rewrite Forall_forall in Ef.
    by apply (Ef (name, w)); [apply elem_of_map_to_list|].
Qed.

Lemma range_ids (workers : gmap string (option (Node X T E))) : list_to_set (range workers).*1 = dom workers.
Proof.
  apply leibniz_equiv. symmetry. apply (dom_alt workers).
Qed.

(** ** The three graphs *)
Lemma react_compiles reason action pending max b opts :
  BuildReAct (X := X) (T := T) (E := E) reason action pending max = Ok b -> exists g, Compile b opts = inr g.
Proof.
  unfold BuildReAct. destruct reason as [reason|], action as [action|], pending as [pending|]; try done. destruct (max <=? 0)%Z; [done|].
  intros [= <-]. eexists. unfold Compile. reflexivity.
Qed.
Lemma evaluator_compiles generator evaluator valid max b opts :
  BuildEvaluatorOptimizer (X := X) (T := T) (E := E) generator evaluator valid max = Ok b -> exists g, Compile b opts = inr g.
Proof.
  unfold BuildEvaluatorOptimizer. destruct generator as [generator|], evaluator as [evaluator|], valid as [valid|]; try done.
  destruct (max <=? 0)%Z; [done|]. intros [= <-]. eexists. unfold Compile. reflexivity.
Qed.

Definition routable (workers : gmap string (option (Node X T E))) (routes : RouteMap) : Prop :=
  "" ∉ dom workers /\ forall intent target, routes !! intent = Some target -> target = EndNode \/ target = "dispatch" \/ target ∈ dom workers.

Lemma dispatch_valid dispatch workers router routes b :
  bld_overwrittenNodes b = ∅ /\ bld_overwrittenEdgeFrom b = ∅ /\ bld_overwrittenRouterFrom b = ∅ /\ bld_overwrittenRetryFrom b = ∅ ->
  bld_edges b = ∅ -> bld_retryRoutes b = ∅ -> bld_reducer b <> None -> bld_noOutgoingRoute b = dom workers ->
  (forall name, bld_nodes b !! name = match workers !! name with
                                      | Some w => Some ((fun node => onCompleted node (fun _ => End)) <$> w)
                                      | None => ({["dispatch" := Some dispatch]} : gmap string (option (Node X T E))) !! name end) ->
  (forall id w, workers !! id = Some w -> id <> "dispatch" /\ id <> EndNode /\ w <> None) ->
  valid_builder (b <| bld_conditionalEdges := {["dispatch" := mkConditional (Some router) (list_to_set (dispatchTargets routes))]} |>
                   <| bld_entryPoint := "dispatch" |>) <-> routable workers routes.
Proof.
  intros Hover Re Rr Hred Hexempt Hn Hids.
  assert (Hdom : dom (bld_nodes b) = {["dispatch"]} ∪ dom workers).
  { apply set_eq. intros name. rewrite elem_of_union, elem_of_singleton, !elem_of_dom, Hn. unfold is_Some.
    destruct (workers !! name); [naive_solver|]. destruct (decide (name = "dispatch")) as [->|Hne].
    - rewrite lookup_singleton_eq. naive_solver.
    - rewrite lookup_singleton_ne by done. naive_solver. }
  split.
  - intros [_ _ _ Hnode _ Hcond _ _ _]. cbn in *. split.
    + intros [w Hw]%elem_of_dom. specialize (Hn ""). rewrite Hw in Hn. by apply Hnode in Hn as [? _].
    + intros intent target Hr. destruct (Hcond "dispatch" _ (lookup_singleton_eq _ _)) as (_ & _ & _ & Ht).
      destruct (Ht target) as [?|Hd]; [apply elem_of_list_to_set, targets_elem; by eauto|by left|]. rewrite Hdom in Hd. set_solver.
  - intros [Hempty Hroutes]. split; cbn; rewrite ?Re, ?Rr, ?Hdom, ?Hexempt, ?dom_singleton_L, ?dom_empty_L; try done.
    + set_solver.
    + intros name h Hh. rewrite Hn in Hh. destruct (workers !! name) as [w|] eqn:Ew.
      * injection Hh as <-. apply Hids in Ew as Hw. destruct Hw as (_ & ? & ?). split_and!; [|done|by destruct w].
        intros ->. by apply elem_of_dom_2 in Ew.
      * apply lookup_singleton_Some in Hh as [<- <-]. done.
    + intros from def [<- <-]%lookup_singleton_Some. cbn. split_and!; [right; set_solver|done|unfold dispatchTargets; set_solver|].
      intros target Ht%elem_of_list_to_set%targets_elem. unfold target_of. destruct Ht as [?|[intent Hi]]; [by left|].
      apply Hroutes in Hi. set_solver.
    + intros name. rewrite !elem_of_union, !elem_of_singleton. intros Hname. split; [intros; right; tauto|].
      intros [?|Heq]; [set_solver|]. subst name. intros [w Hw]%elem_of_dom. by apply Hids in Hw as [? _].
    + intros name Hw. split_and!; [set_solver..|]. intros Heq%elem_of_singleton. subst name. apply elem_of_dom in Hw as [w Hw]. by apply Hids in Hw as [? _].
Qed.

Lemma dispatch_compiles dispatch workers accessor routes b opts :
  BuildDispatchGraph dispatch workers accessor routes = Ok b -> (exists g, Compile b opts = inr g) <-> routable workers routes.
Proof.
  unfold BuildDispatchGraph. destruct dispatch as [dispatch|], accessor as [accessor|]; try done. destruct (map_all _ workers) eqn:Ea; [|done].
  set (b0 := AddNode (NewGraph (Some replaceState)) "dispatch" (Some (onCompleted dispatch (fun _ => Completed)))).
  assert (Hids : forall id w, workers !! id = Some w -> id <> "dispatch" /\ id <> EndNode /\ w <> None).
  { intros id w Hw. apply (map_all_lookup _ _ _ _ Ea) in Hw. apply negb_true_iff in Hw.
    rewrite !orb_false_iff, !bool_decide_eq_false in Hw. destruct Hw as [[? ?] Hnil]. split_and!; [done..|]. by intros ->. }
  destruct (workers_added (range workers) b0) as ([Hover (Re & Rc & Rr) Hred] & Hexempt & Hnodes).
  - apply NoDup_fst_map_to_list.
  - intros id ([k w] & -> & Hk)%list_elem_of_fmap. apply elem_of_map_to_list in Hk. apply Hids in Hk as (? & _). cbn. set_solver.
  - by split.
  - set (b1 := fold_left addWorker (range workers) b0) in *. intros [= <-]. rewrite compiles_iff.
    rewrite range_ids in Hexempt. change (bld_noOutgoingRoute b0) with (∅ : gset string) in Hexempt. rewrite (right_id_L ∅ (∪)) in Hexempt.
    assert (Hn : forall name, bld_nodes b1 !! name = match workers !! name with
                                                     | Some w => Some ((fun node => onCompleted node (fun _ => End)) <$> w)
                                                     | None => bld_nodes b0 !! name end).
    { intros name. rewrite Hnodes. pose proof (find_worker workers name) as Hf. by destruct (list_find _ _) as [[? ?]|]; rewrite <- Hf. }
    clear Hnodes. set (b' := SetEntryPoint _ _).
    assert (Hb' : b' = b1 <| bld_conditionalEdges := {["dispatch" := mkConditional (Some (dispatchRouter accessor routes))
                                                                       (list_to_set (dispatchTargets routes))]} |>
                          <| bld_entryPoint := "dispatch" |>).
    { unfold b', AddConditionalEdge, SetEntryPoint. rewrite Rc. change (present ∅ "dispatch") with false. cbv iota zeta. by rewrite Rc. }
    rewrite Hb'. clear b' Hb'. clearbody b1.
    by apply (dispatch_valid (onCompleted dispatch (fun _ => Completed))).
Qed.
End Compiles.

(** ** The bound on retries *)
Section Retries.
Context {X T E : Type} `{HH : RunnerHost X T E} (r : graphRunner X T E) (error_text : error -> string).
Implicit Types (inv : runInvocationOptions X T) (l : loopState (T := T) (E := E)).

Lemma node_step_directive current state meta effects inv x x' step : runNodeStep r error_text current state meta effects inv x = (x', (step, None)) ->
  nso_emitCanceled step = false ->
  met_RetryCounts (nso_meta step) = met_RetryCounts meta /\
  exists handler s counts y y' counts' update directive es, gph_nodes (rnr_graph r) !! current = Some handler /\
    handler s counts y = (y', (counts', Ok (update, directive))) /\ UnwrapDirective directive = Ok (nso_base step, es).
Proof.
  unfold runNodeStep. destruct (gph_nodes (rnr_graph r) !! current) as [handler|]; cycle 1.
  { intros Hr. st_inv Hr. done. }
  intros Hr Hc. st_inv Hr. destruct a; cycle 1.
  { injection Hr as _ <-. done. }
  simpl in Hr. apply st_bind_inv in Hr as (x1 & [counts [[update directive]|err]] & Hh & Hr); simpl in Hr; cycle 1.
  { st_inv Hr. done. }
  destruct (_ ≫= _); [st_inv Hr; done|].
  destruct (UnwrapDirective directive) as [[base es]|] eqn:Eu; [|st_inv Hr; done].
  apply st_bind_inv in Hr as (x3 & [] & Hm1 & Hr); injection Hr as _ <-; [|done]. split; [done|]. simpl.
  by eexists handler, _, _, _, _, _, _, directive, es.
Qed.

(** A node that only a retry can leave: its own counter goes up by one, within the limit of
    the directive, and no other node touches it. *)
Definition looping (n : string) : Prop := gph_edges (rnr_graph r) !! n = None /\ gph_conditionalEdges (rnr_graph r) !! n = None.
Definition retries (n : string) (counts : gmap string Z) : Z := default 0%Z (counts !! n).

Lemma same_step (m : st X (directiveStep T E)) (counts counts' : gmap string Z) x x' out : always terminal_step m ->
  st_bind m (fun step => st_ret (counts, step)) x = (x', (counts', out)) -> stp_terminal out = false -> False.
Proof. intros Hm Hs Ht. apply st_bind_inv in Hs as (x1 & a & Ha & Hs). injection Hs as _ _ <-. apply (always_run _ _ _ _ _ Hm) in Ha. unfold terminal_step in Ha. congruence. Qed.

Lemma unrouted_edge n state x x' next : looping n -> resolveEdge (rnr_graph r) n state x = (x', next) -> exists err, next = Err err.
Proof.
  intros [He Hcond]. unfold resolveEdge. destruct (gph_edges _ !! n); [done|]. destruct (gph_conditionalEdges _ !! n); [done|].
  intros [= _ <-]. by eexists.
Qed.

Lemma step_retries n threadID current state meta effects revision base inv x x' counts out : looping n ->
  applyDirective r error_text threadID current state meta effects revision base inv x = (x', (counts, out)) -> stp_terminal out = false ->
  if decide (current = n) then dir_kind base = directiveRetry /\ retries n counts = (retries n (met_RetryCounts meta) + 1)%Z /\
                               (retries n counts <= dir_maxAttempts base)%Z
  else retries n counts = retries n (met_RetryCounts meta).
Proof.
  intros [He Hcond] Ha Ht. unfold applyDirective in Ha. destruct (dir_kind base) eqn:Ek;
    try (by (exfalso; revert Ha Ht; apply same_step;
             auto using terminalFail_terminal, finish_terminal, suspend_terminal, fail_terminal, handoff_terminal, wait_terminal)).
  - apply st_bind_inv in Ha as (x1 & step & Hc & Ha). injection Ha as _ <- <-. destruct (decide (current = n)) as [->|]; [|done]. exfalso.
    unfold applyDirectiveCompleted in Hc. apply st_bind_inv in Hc as (x2 & next & Hnext & Hc). apply unrouted_edge in Hnext as [err ->]; [|done].
    apply (always_run _ _ _ _ _ (terminalFail_terminal error_text _ _ _ _ _)) in Hc. unfold terminal_step in Hc. congruence.
  - unfold applyDirectiveRetry in Ha. destruct (_ <=? 0)%Z; [exfalso; revert Ha Ht; apply same_step, terminalFail_terminal|].
    cbv zeta in Ha. destruct (_ <? _)%Z eqn:El.
    { st_inv Ha. injection Ha as _ _ <-. done. }
    destruct (gph_retryRoutes _ !! current); [|exfalso; revert Ha Ht; apply same_step, terminalFail_terminal].
    injection Ha as _ <- <-. apply Z.ltb_ge in El. unfold retries. destruct (decide (current = n)) as [->|Hne].
    + by rewrite (lookup_insert_eq (met_RetryCounts meta)).
    + by rewrite (lookup_insert_ne (met_RetryCounts meta)).
Qed.

(** The turns of a run, with the number of them taken at [n]. *)
Inductive visits (n : string) threadID inv : nat -> X * loopState (T := T) (E := E) -> X * loopState (T := T) (E := E) -> Prop :=
| VisitNone p : visits n threadID inv 0 p p
| VisitStep p q k x l : visits n threadID inv k p (x, l) -> run_step r error_text threadID inv (x, l) q ->
    visits n threadID inv (if decide (lp_current l = n) then S k else k) p q.

Lemma visits_bound n m threadID inv k x l x' l' : looping n ->
  (forall handler s counts y y' counts' update directive base es, gph_nodes (rnr_graph r) !! n = Some handler ->
     handler s counts y = (y', (counts', Ok (update, directive))) -> UnwrapDirective directive = Ok (base, es) ->
     dir_kind base = directiveRetry -> dir_maxAttempts base = m) ->
  (0 <= m)%Z -> retries n (met_RetryCounts (lp_meta l)) = 0%Z -> visits n threadID inv k (x, l) (x', l') ->
  (Z.of_nat k <= m)%Z /\ retries n (met_RetryCounts (lp_meta l')) = Z.of_nat k.
Proof.
  intros Hn Hm H0 Hz Hv. remember (x, l) as p eqn:Ep. remember (x', l') as q eqn:Eq. revert x' l' Eq.
  induction Hv as [p|p q k x1 l1 Hv IH Hs]; intros x' l' ->.
  { injection Ep as -> ->. split; [lia|done]. }
  specialize (IH Ep _ _ eq_refl) as [IH1 IH2]. inversion Hs as [x2 l2 x3 l3 Hi]; subst.
  apply (iteration_next _ _ (fun _ _ => True)) in Hi as [_ (y1 & y2 & y3 & y4 & step & counts & out & out' & rev & _ & Hrun & Hc & _ & Happ & Hcom & Ht & ->)];
    [|apply any_quiet].
  apply node_step_directive in Hrun as (Hret & handler & s & c & y & y' & c' & update & directive & es & Hh & Hho & Hu); [|done].
  apply commitDirective_Ok in Hcom as (E1 & _). rewrite E1 in Ht. apply (step_retries n) in Happ; [|done..]. cbn [lp_meta met_RetryCounts].
  change (met_RetryCounts _) with counts. rewrite Hret in Happ. rewrite IH2 in Happ. case_decide as Hcur; [|by rewrite Happ].
  destruct Happ as (Hk & Hcount & Hle). rewrite Hcur in Hh. rewrite (Hm _ _ _ _ _ _ _ _ _ _ Hh Hho Hu Hk) in Hle. lia.
Qed.
End Retries.

(** The node itself never asks for a retry. *)
Definition never_retries {X T E} (node : Node X T E) : Prop := forall s counts y y' counts' update directive base es,
  node s counts y = (y', (counts', Ok (update, directive))) -> UnwrapDirective directive = Ok (base, es) -> dir_kind base <> directiveRetry.

Lemma onCompleted_retry {X T E} (node : Node X T E) directiveFor s counts y y' counts' update directive base es : never_retries node ->
  (forall u, plain (directiveFor u)) ->
  onCompleted node directiveFor s counts y = (y', (counts', Ok (update, directive))) -> UnwrapDirective directive = Ok (base, es) ->
  dir_kind base = directiveRetry -> base = directiveFor update.
Proof.
  intros Hn Hp Ho Hu Hk. unfold onCompleted in Ho. destruct (node s counts y) as [y1 [c1 [[u d]|err]]] eqn:En; [|done].
  destruct (UnwrapDirective d) as [[b' es']|err] eqn:Ed; [|done]. destruct (negb (IsCompleted b')).
  - injection Ho as <- <- <- <-. rewrite Ed in Hu. injection Hu as <- <-. by destruct (Hn _ _ _ _ _ _ _ _ _ En Ed).
  - injection Ho as <- <- <- <-. unfold UnwrapDirective, WithEffects in Hu. rewrite unwrap_effects in Hu by apply Hp. by injection Hu as <- _.
Qed.

(** The looping patterns: the graph, its node that retries, and the host node inside. *)
Inductive looping_pattern {X T E} : GraphBuilder X T E -> string -> Node X T E -> Z -> Prop :=
| ReActPattern reason action pending max b : BuildReAct (Some reason) (Some action) (Some pending) max = Ok b ->
    looping_pattern b "react_action" action max
| EvaluatorPattern generator evaluator valid max b : BuildEvaluatorOptimizer (Some generator) (Some evaluator) (Some valid) max = Ok b ->
    looping_pattern b "evaluator" evaluator max.

Lemma looping_built {X T E} b n (node : Node X T E) max opts g : looping_pattern b n node max -> Compile b opts = inr g -> (0 < max)%Z /\
  gph_edges g !! n = None /\ gph_conditionalEdges g !! n = None /\
  exists directiveFor, gph_nodes g !! n = Some (onCompleted node directiveFor) /\
    forall u, plain (directiveFor u) /\ (dir_kind (directiveFor u) = directiveRetry -> dir_maxAttempts (directiveFor u) = max).
Proof.
  intros Hp Hc. unfold Compile in Hc. destruct (collectCompileErrors b); [|done]. injection Hc as <-.
  destruct Hp as [reason action pending max b Hb|generator evaluator valid max b Hb]; [unfold BuildReAct in Hb|unfold BuildEvaluatorOptimizer in Hb];
    destruct (max <=? 0)%Z eqn:Em; try done; apply Z.leb_gt in Em; injection Hb as <-; (split_and!; [done|reflexivity..|]); eexists;
    (split; [reflexivity|]); intros u.
  - split; [by split|done].
  - cbv beta. destruct (valid u); (split; [by split|done]).
Qed.

(** C27: the looping patterns keep their bound. In the ReAct and the evaluator-optimizer graph,
    as compiled, a run whose counter starts fresh goes on from at most [max] turns of the
    looping node, the number given to the constructor, so its callback runs at most [max + 1]
    times, provided the host node never returns a retry of its own. *)
Theorem pattern_retries_bounded {X T E} `{RunnerHost X T E} (r : graphRunner X T E) (error_text : error -> string) b n node max opts
    threadID inv k x l x' l' :
  looping_pattern b n node max -> Compile b opts = inr (rnr_graph r) -> never_retries node ->
  retries n (met_RetryCounts (lp_meta l)) = 0%Z -> visits r error_text n threadID inv k (x, l) (x', l') ->
  (Z.of_nat k <= max)%Z /\ retries n (met_RetryCounts (lp_meta l')) = Z.of_nat k.
Proof.
  intros Hp Hc Hnode Hz Hv. destruct (looping_built _ _ _ _ _ _ Hp Hc) as (Hm & He & Hcond & directiveFor & Hh & Hd).
  refine (visits_bound r error_text n max threadID inv k x l x' l' (conj He Hcond) _ _ Hz Hv); [|lia].
  intros handler s counts y y' counts' update directive base es Hh' Ho Hu Hk. pose proof (eq_trans (eq_sym Hh) Hh') as Heq. injection Heq as <-.
  apply (onCompleted_retry node directiveFor s counts y y' counts' update directive base es Hnode) in Ho as ->; [|intros u; apply Hd|done..].
  by apply Hd.
Qed.

(** What the patterns build compiles. The ReAct and evaluator-optimizer graphs compile with
    any options; a dispatch graph compiles exactly when every route leads to a worker, back
    to the dispatcher or to the end, and no worker has the empty name. *)
Theorem pattern_graphs_compile {X T E} (reason action dispatch : option (Node X T E)) pending max workers accessor routes b opts :
  (BuildReAct reason action pending max = Ok b \/ BuildEvaluatorOptimizer reason action pending max = Ok b -> exists g, Compile b opts = inr g) /\
  (BuildDispatchGraph dispatch workers accessor routes = Ok b -> (exists g, Compile b opts = inr g) <-> routable workers routes).
Proof.
  split; [intros [Hb|Hb]|].
  - by eapply react_compiles.
  - by eapply evaluator_compiles.
  - by apply dispatch_compiles.
Qed.
