(* ===== verification/PatternsExample.v ===== *)
(** * A ReAct run

    The action node counts its calls in the state. *)

From stdpp Require Import relations.
From S2P Require Import Prelude Go Sha256 Json Identity Schedule Activity Waits Contract Children Aggregate Runtime Graph Handoff Runner RunnerInv Resume Compose Patterns PatternsInv.

#[local] Instance calm_react : RunnerHost unit Z Z := {|
  ctx_Cause x := (x, None); ctx_Done x := (x, None); stream_closed x := (x, false); time_Now x := (x, time_zero);
  telemetry x := (x, ∅); sink_emit _ x := (x, true);
|}.

Definition think : Node unit Z Z := fun state counts x => (x, (counts, Ok (state, Completed))).
Definition act_once : Node unit Z Z := fun state counts x => (x, (counts, Ok ((state + 1)%Z, Completed))).
(** An action that asks for more retries than the pattern was given. *)
Definition act_again : Node unit Z Z := fun state counts x => (x, (counts, Ok ((state + 1)%Z, Retry 5))).
Definition react_with (action : Node unit Z Z) : GraphBuilder unit Z Z :=
  match BuildReAct (Some think) (Some action) (Some (fun _ => true)) 1 with Ok b => b | Err _ => NewGraph None end.
Definition react_graph (action : Node unit Z Z) : Graph unit Z Z := buildGraph (react_with action) (applyBuildOptions []).
Definition react_runner (action : Node unit Z Z) : graphRunner unit Z Z := mkRunner (react_graph action) None [] None 0 None.
Definition mum (e : error) : string := "".

Definition at_reason : loopState := mkLoop (T := Z) (E := Z) "react_reason" 0%Z zeroRunMetadata [] 0.
Definition at_action : loopState := mkLoop (T := Z) (E := Z) "react_action" 0%Z (zeroRunMetadata <| met_StepCount := 1%Z |>) [] 0.
Definition back_at_reason : loopState :=
  mkLoop (T := Z) (E := Z) "react_reason" 1%Z
    (zeroRunMetadata <| met_StepCount := 2%Z |> <| met_RetryCounts := {["react_action" := 1%Z]} |>) [] 0.

Lemma act_once_plain : never_retries act_once.
Proof. intros s counts y y' counts' update directive base es [= _ _ _ <-] [= <- _]. discriminate. Qed.

Lemma pattern_retries_bounded_witness : (Z.of_nat 1 <= 1)%Z /\ retries "react_action" (met_RetryCounts (lp_meta back_at_reason)) = Z.of_nat 1.
Proof.
  apply (pattern_retries_bounded (react_runner act_once) mum (react_with act_once) "react_action" act_once 1 [] "t" noRunOptions 1 tt at_reason tt back_at_reason).
  - apply (ReActPattern think act_once (fun _ => true)). reflexivity.
  - reflexivity.
  - exact act_once_plain.
  - reflexivity.
  - change 1%nat with (if decide (lp_current at_action = "react_action") then 1%nat else 0%nat).
    apply (VisitStep _ _ _ _ _ (tt, at_reason) (tt, back_at_reason) 0 tt at_action); [|constructor; vm_compute; reflexivity].
    change 0%nat with (if decide (lp_current at_reason = "react_action") then 1%nat else 0%nat).
    apply (VisitStep _ _ _ _ _ (tt, at_reason) (tt, at_action) 0 tt at_reason); constructor. vm_compute. reflexivity.
Defined.

(** The bound is the constructor's only for nodes without retries of their own: such a
    directive passes unchanged, and this action runs six times where the constructor was
    given one retry. *)
Lemma own_retries_pass : (execute (react_runner act_again) mum "t" "react_reason" 0%Z zeroRunMetadata [] 0 noRunOptions tt).2 =
  Some (Some (mkResult 6%Z RunStatusFailed [] (default zeroRunMetadata
    (o ← (execute (react_runner act_again) mum "t" "react_reason" 0%Z zeroRunMetadata [] 0 noRunOptions tt).2; rr_RunMeta <$> o.1))
    "react_action" "" no_token), Some (ErrRetryBudgetExceeded : error)).
Proof. vm_compute. reflexivity. Qed.

(** A dispatch graph whose route leads nowhere does not compile. *)
Lemma pattern_graphs_compile_witness : (exists g, Compile (react_with act_once) [] = inr g) /\
  ((exists g, Compile (match BuildDispatchGraph (Some think) {["worker" := Some act_once]} (Some (fun _ => "a")) {["a" := "lost"]} with
                       | Ok b => b | Err _ => NewGraph None end) [] = inr g) <-> routable (X := unit) (T := Z) (E := Z) {["worker" := Some act_once]} {["a" := "lost"]}).
Proof.
  split.
  - refine (proj1 (pattern_graphs_compile (Some think) (Some act_once) None (Some (fun _ => true)) 1 ∅ None ∅ (react_with act_once) []) _). by left.
  - refine (proj2 (pattern_graphs_compile None None (Some think) None 1 {["worker" := Some act_once]} (Some (fun _ => "a")) {["a" := "lost"]} _ []) _). reflexivity.
Defined.
