(* ===== verification/Mermaid.v ===== *)
(** * Graph export

    mermaid.go: the identifiers and the text of a Mermaid flowchart. Identifiers are built on
    bytes: the bytes of a rune outside ASCII, valid or not, are all dropped.

    Two names get the same identifier only where one name sanitizes to the identifier another
    name is given with its counter; that happens, as the last lemma shows. *)

From Stdlib Require Import Numbers.HexadecimalString Numbers.HexadecimalN.
From S2P Require Import Prelude Go Sha256 Json Identity Schedule Activity Waits Contract Children Aggregate Runtime Graph.

Definition newline : string := String "010" "".
Definition mermaidEmptyIDHashMul : N := 31.

(** The rune kept for a byte, if any. *)
Definition mermaidRune (c : ascii) : option ascii :=
  let r := ord c in
  if byte_in 97 122 c || byte_in 65 90 c || byte_in 48 57 c || (r == 95%N) then Some c
  else if (r == 32%N) || (r == 45%N) then Some "_"%char
  else None.
Fixpoint mermaidSanitize (name : string) : string :=
  match name with
  | "" => ""
  | String c rest => match mermaidRune c with Some r => String r (mermaidSanitize rest) | None => mermaidSanitize rest end
  end.

Fixpoint mermaidHash (h : N) (name : string) : N :=
  match name with
  | "" => h
  | String c rest => mermaidHash ((h * mermaidEmptyIDHashMul + ord c) mod 2 ^ 64) rest
  end.
(** [strconv.FormatUint(h, 16)] *)
Definition FormatHex (h : N) : string := HexadecimalString.NilEmpty.string_of_uint (N.to_hex_uint h).
Definition mermaidBase (name : string) : string :=
  let base := mermaidSanitize name in
  if base == "" then "_n" +:+ FormatHex (mermaidHash 0 name) else base.

(** One turn of the loop over the sorted names: the counters of the bases and the map. *)
Definition mermaidID (base : string) (n : N) : string := if n == 0%N then base else base +:+ "_" +:+ print_uint (n - 1).
Definition assignID (m : gmap string N * gmap string string) (name : string) : gmap string N * gmap string string :=
  let base := mermaidBase name in
  let n := default 0%N (m.1 !! base) in
  (<[base := (n + 1)%N]> m.1, <[name := mermaidID base n]> m.2).

Definition name_le (a b : string) : Prop := String.leb a b = true.
#[export] Instance name_le_dec : RelDecision name_le.
Proof. intros a b. unfold name_le. apply _. Defined.

Section Flowchart.
Context {X T E : Type}.
Implicit Types (g : Graph X T E).

Definition mermaidNames g : gset string :=
  dom (gph_nodes g) ∪ dom (gph_edges g) ∪ list_to_set (snd <$> range (gph_edges g)) ∪ dom (gph_conditionalEdges g) ∪ {[EndNode]}.
Definition buildMermaidIDMap g : gmap string string := (fold_left assignID (merge_sort name_le (base.elements (mermaidNames g))) (∅, ∅)).2.

Definition mermaidEdges (idMap : gmap string string) g : string :=
  let id name := default "" (idMap !! name) in
  fold_left (fun b edge => b +:+ "  " +:+ id edge.1 +:+ " --> " +:+ id edge.2 +:+ newline) (sortedRange (gph_edges g)) "".
Definition mermaidRouters (idMap : gmap string string) g : string :=
  let id name := default "" (idMap !! name) in
  fold_left (fun b router =>
    let choiceNode := "__route_" +:+ id router.1 in
    b +:+ "  " +:+ id router.1 +:+ " --> " +:+ choiceNode +:+ newline +:+
    "  " +:+ choiceNode +:+ " -->|conditional| " +:+ id EndNode +:+ newline) (sortedRange (gph_conditionalEdges g)) "".
(** [strings.TrimSuffix(s, newline)] *)
Fixpoint trimNewline (s : string) : string :=
  match s with
  | "" => ""
  | String c rest => if (rest == "") && (String c "" == newline) then "" else String c (trimNewline rest)
  end.
Definition ExportMermaid g : string :=
  let idMap := buildMermaidIDMap g in
  trimNewline ("flowchart TD" +:+ newline +:+ mermaidEdges idMap g +:+ mermaidRouters idMap g).
End Flowchart.

(** ** Identifiers *)
Fixpoint all_bytes (p : ascii -> bool) (s : string) : bool := match s with "" => true | String c s => p c && all_bytes p s end.
Definition digit (c : ascii) : bool := byte_in 48 57 c.
(** The bytes of a Mermaid identifier. *)
Definition mermaid_safe (c : ascii) : bool := byte_in 97 122 c || byte_in 65 90 c || byte_in 48 57 c || (ord c == 95%N).

Lemma all_bytes_app p s t : all_bytes p (s +:+ t) = all_bytes p s && all_bytes p t.
Proof. induction s as [|c s IH]; [done|]. rewrite str_app_cons. simpl. by rewrite IH, andb_assoc. Qed.
Lemma all_bytes_mono (p q : ascii -> bool) s : (forall c, p c = true -> q c = true) -> all_bytes p s = true -> all_bytes q s = true.
Proof. intros Hpq. induction s as [|c s IH]; [done|]. simpl. rewrite !andb_true_iff. intros [H1 H2]. by auto. Qed.

Lemma print_uint_digits n : all_bytes digit (print_uint n) = true.
Proof. unfold print_uint. generalize (N.to_uint n). intros d. induction d; simpl; by rewrite ?IHd. Qed.
Lemma FormatHex_safe n : all_bytes mermaid_safe (FormatHex n) = true.
Proof. unfold FormatHex. generalize (N.to_hex_uint n). intros d. induction d; simpl; by rewrite ?IHd. Qed.
Lemma digit_safe c : digit c = true -> mermaid_safe c = true.
Proof. unfold mermaid_safe, digit. intros ->. by rewrite orb_true_r. Qed.

Lemma mermaidSanitize_safe name : all_bytes mermaid_safe (mermaidSanitize name) = true.
Proof.
  induction name as [|c name IH]; [done|]. simpl. unfold mermaidRune. destruct (_ || _ || _ || _) eqn:Es; simpl.
  - rewrite IH, andb_true_r. exact Es.
  - destruct ((ord c == 32%N) || (ord c == 45%N)); [|exact IH]. cbn [all_bytes]. by rewrite IH.
Qed.
Lemma mermaidBase_safe name : all_bytes mermaid_safe (mermaidBase name) = true /\ mermaidBase name <> "".
Proof.
  unfold mermaidBase. case_bool_decide; [|split; [apply mermaidSanitize_safe|done]]. rewrite all_bytes_app, FormatHex_safe. done.
Qed.
Lemma mermaidID_safe name n : all_bytes mermaid_safe (mermaidID (mermaidBase name) n) = true /\ mermaidID (mermaidBase name) n <> "".
Proof.
  destruct (mermaidBase_safe name) as [Hs Hne]. unfold mermaidID. case_bool_decide; [done|]. rewrite !all_bytes_app, Hs. split.
  - simpl. apply (all_bytes_mono digit); [apply digit_safe|apply print_uint_digits].
  - by destruct (mermaidBase name).
Qed.

(** A base followed by a counter is read back from the right. *)
Lemma underscore_digits s t : all_bytes digit (s +:+ "_" +:+ t) = false.
Proof. rewrite !all_bytes_app. simpl. by rewrite andb_false_r. Qed.
Lemma counter_split s t d e : all_bytes digit d = true -> all_bytes digit e = true -> s +:+ "_" +:+ d = t +:+ "_" +:+ e -> s = t /\ d = e.
Proof.
  intros Hd He. revert t. induction s as [|c s IH]; intros [|c' t] Heq.
  - by apply str_tail_inj in Heq as ->.
  - exfalso. change (String "_" d = String c' (t +:+ "_" +:+ e)) in Heq. injection Heq as _ Heq. rewrite Heq, underscore_digits in Hd. done.
  - exfalso. change (String c (s +:+ "_" +:+ d) = String "_" e) in Heq. injection Heq as _ Heq. rewrite <- Heq, underscore_digits in He. done.
  - rewrite !str_app_cons in Heq. injection Heq as -> Heq. by apply IH in Heq as [-> ->].
Qed.

Lemma mermaidID_same base base' n n' : mermaidID base n = mermaidID base' n' ->
  (base = base' /\ n = n') \/ (exists k, base = base' +:+ "_" +:+ print_uint k) \/ (exists k, base' = base +:+ "_" +:+ print_uint k).
Proof.
  unfold mermaidID. case_bool_decide as H1; case_bool_decide as H2; intros Heq.
  - left. split; [done|congruence].
  - right. left. eexists. exact Heq.
  - right. right. eexists. symmetry. exact Heq.
  - left. apply counter_split in Heq as [-> Hp]; [|apply print_uint_digits..]. split; [done|].
    assert (Hinj : forall a b, print_uint a = print_uint b -> a = b).
    { intros a b E0. destruct (print_int_inj (Z.of_N a) (Z.of_N b) "" "") as [? _]; [done..| |lia]. unfold print_int.
      rewrite (proj2 (Z.ltb_ge _ _)) by lia. rewrite (proj2 (Z.ltb_ge _ _)) by lia. by rewrite !N2Z.id, E0. }
    apply Hinj in Hp. lia.
Qed.

(** ** The loop *)
(** After the names [done]: every one has the identifier of its base and of a rank below the
    counter of the base, and ranks of one base differ. *)
Record assigned (names : list string) (m : gmap string N * gmap string string) : Prop := {
  asg_rank : exists rank : string -> N, (forall x, x ∈ names -> m.2 !! x = Some (mermaidID (mermaidBase x) (rank x)) /\
                                                              (rank x < default 0 (m.1 !! mermaidBase x))%N) /\
    (forall x y, x ∈ names -> y ∈ names -> mermaidBase x = mermaidBase y -> rank x = rank y -> x = y);
  asg_dom : dom m.2 = list_to_set names;
}.

Lemma assignID_keeps names m name : name ∉ names -> assigned names m -> assigned (names ++ [name]) (assignID m name).
Proof.
  intros Hn [(rank & Hr & Hinj) Hd]. set (base := mermaidBase name). set (n := default 0%N (m.1 !! base)).
  assert (Hm : assignID m name = (<[base := (n + 1)%N]> m.1, <[name := mermaidID base n]> m.2)) by done. rewrite Hm. split; cbn [fst snd].
  2: { rewrite (dom_insert_L m.2), Hd, list_to_set_app_L. cbn. set_solver. }
  exists (fun x => if decide (x = name) then n else rank x).
  assert (Hold : forall x, x ∈ names -> x <> name) by (intros x Hx ->; done).
  assert (Hcount : forall x, x ∈ names -> mermaidBase x = base -> (rank x < n)%N) by (intros x Hx Hb; destruct (Hr x Hx) as [_ Hlt]; by rewrite Hb in Hlt).
  split.
  - intros x [Hx|Hx]%elem_of_app.
    + rewrite decide_False by auto. rewrite (lookup_insert_ne m.2) by (intros ->; by apply (Hold x)). destruct (Hr x Hx) as [H1 H2]. split; [done|].
      destruct (decide (base = mermaidBase x)) as [Hb|Hb].
      * rewrite <- Hb, (lookup_insert_eq m.1). cbn. specialize (Hcount x Hx (eq_sym Hb)). lia.
      * by rewrite (lookup_insert_ne m.1).
    + apply list_elem_of_singleton in Hx as ->. rewrite decide_True by done. rewrite (lookup_insert_eq m.2), (lookup_insert_eq m.1). cbn. split; [done|lia].
  - intros x y Hx Hy Hb. apply elem_of_app in Hx, Hy. rewrite !list_elem_of_singleton in Hx, Hy.
    destruct Hx as [Hx|Hx], Hy as [Hy|Hy]; subst; rewrite ?(decide_True (P := name = name)) by done; rewrite ?(decide_False (P := _ = name)) by auto.
    + by apply Hinj.
    + intros He. exfalso. specialize (Hcount _ Hx Hb). lia.
    + intros He. exfalso. specialize (Hcount _ Hy (eq_sym Hb)). lia.
    + done.
Qed.

Lemma assign_all names : NoDup names -> assigned names (fold_left assignID names (∅, ∅)).
Proof.
  induction names as [|name names IH] using rev_ind; intros Hnd.
  - split; [exists (fun _ => 0%N); set_solver|done].
  - rewrite fold_left_app. cbn. apply NoDup_app in Hnd as (H1 & H2 & _). apply assignID_keeps; [|by apply IH]. intros Hn. apply (H2 _ Hn). set_solver.
Qed.

Section FlowchartInv.
Context {X T E : Type}.
Implicit Types (g : Graph X T E).

(** The exported identifiers name the nodes. Every node, edge end, router and the end node
    of a graph has an identifier, nonempty and made of letters, digits and underscores only;
    and two different names have the same identifier only where the base of one is the base
    of the other followed by an underscore and a number. *)
Theorem mermaid_ids_separate g x y : x ∈ mermaidNames g -> y ∈ mermaidNames g ->
  exists i j, buildMermaidIDMap g !! x = Some i /\ buildMermaidIDMap g !! y = Some j /\
    all_bytes mermaid_safe i = true /\ i <> "" /\
    (i = j -> x = y \/ (exists k, mermaidBase x = mermaidBase y +:+ "_" +:+ print_uint k) \/
                      (exists k, mermaidBase y = mermaidBase x +:+ "_" +:+ print_uint k)).
Proof.
  intros Hx Hy. unfold buildMermaidIDMap. set (names := merge_sort name_le (base.elements (mermaidNames g))).
  assert (Hmem : forall z, z ∈ mermaidNames g -> z ∈ names).
  { intros z Hz. unfold names. rewrite (merge_sort_Permutation name_le). by apply elem_of_elements. }
  destruct (assign_all names) as [(rank & Hr & Hinj) _].
  { unfold names. rewrite (merge_sort_Permutation name_le). apply NoDup_elements. }
  destruct (Hr x (Hmem x Hx)) as [Hix _], (Hr y (Hmem y Hy)) as [Hiy _]. eexists _, _. split; [exact Hix|]. split; [exact Hiy|].
  destruct (mermaidID_safe x (rank x)) as [Hs Hne]. split; [exact Hs|]. split; [exact Hne|]. intros Heq.
  apply mermaidID_same in Heq as [[Hb Hk]|?]; [|by right]. left. by apply Hinj; auto.
Qed.
End FlowchartInv.

(** Three names of which the last sanitizes to the identifier of the second: the identifiers
    are not unique, although the source calls them so. *)
Definition colliding {X T E} (node : Node X T E) : Graph X T E :=
  mkGraph {["a b" := node; "a-b" := node; "a_b_0" := node]} ∅ ∅ ∅ ∅ "a b" (fun _ u => u) (applyBuildOptions []).
Lemma mermaid_ids_collide {X T E} (node : Node X T E) :
  buildMermaidIDMap (colliding node) !! "a-b" = Some "a_b_0" /\ buildMermaidIDMap (colliding node) !! "a_b_0" = Some "a_b_0".
Proof. by split. Qed.

Definition collision_example : Graph unit Z Z := colliding (fun s counts x => (x, (counts, Ok (s, End)))).
Lemma mermaid_ids_separate_witness : exists i j, buildMermaidIDMap collision_example !! "a b" = Some i /\
  buildMermaidIDMap collision_example !! "a-b" = Some j /\ i <> "".
Proof.
  destruct (mermaid_ids_separate collision_example "a b" "a-b") as (i & j & H1 & H2 & _ & H3 & _).
  - vm_compute. by eexists.
  - vm_compute. by eexists.
  - exists i, j. exact (conj H1 (conj H2 H3)).
Defined.
