(* ===== verification/CheckpointRecord.v ===== *)
(** * Checkpoint records

    checkpoint/checkpoint.go and checkpointer_lease_guard.go: the storage-facing envelope of a
    snapshot, the sanitizing serializer, and the advisory lease guard around a checkpointer.
    [json.Valid] is a parameter; the encodings of run metadata and effects are those of the
    class [JsonCodec]. *)

From S2P Require Import Prelude Go Sha256 Json Identity Schedule Activity Waits Contract Children Aggregate Runtime Session ActivityCall Checkpointer Graph Handoff MemoryCheckpointer Compose.

(** [ErrInvalidRecord] of the package. *)
Definition ErrInvalidRecord : error := ErrHost "checkpoint: invalid record".
(** The reason is the formatted text. *)
Definition invalidRecordError (reason : error) : error := ErrJoin ErrSnapshotEnvelopeInvalid (ErrJoin ErrInvalidRecord reason).
Definition invalidRecordCauseError (reason : string) (err : error) : error := ErrJoin ErrSnapshotEnvelopeInvalid (ErrWrap "checkpoint: %s: %w" [reason] err).
Definition nilSerializer : error := ErrWrap "%w: nil state serializer" [] ErrExecutionCapability.

(** ** Sanitizing *)
Section Sanitizer.
Context {T : Type}.

Definition sanitizeMarshal (base : StateSerializer T) (sanitize : option (T -> T)) (state : T) : res string :=
  match sanitize with
  | None => Marshal base state
  | Some sanitize =>
      encoded ← Marshal base state;
      detached ← Unmarshal base encoded;
      Marshal base (sanitize detached)
  end.
Definition sanitizeUnmarshal (base : StateSerializer T) (sanitize : option (T -> T)) (data : string) : res T :=
  state ← Unmarshal base data;
  Ok (match sanitize with Some sanitize => sanitize state | None => state end).
Definition WithSanitizer (base : option (StateSerializer T)) (sanitize : option (T -> T)) : res (StateSerializer T) :=
  match base with
  | None => Err nilSerializer
  | Some base => Ok (mkSerializer T (sanitizeMarshal base sanitize) (sanitizeUnmarshal base sanitize))
  end.
End Sanitizer.

(** ** Records *)
Record Record := mkRecord {
  rcd_ThreadID : string;
  rcd_Revision : N;
  rcd_NodeID : string;
  rcd_StatePayload : string;
  rcd_RunMeta : string;
  rcd_Effects : string;
  rcd_UpdatedAt : Time;
}.
Record DecodeRecordOptions := mkDecodeOptions {
  dro_ExpectedThreadID : string;
  dro_ExpectedRevision : N;
  dro_ExpectedExecutionPointer : ExecutionPointer;
}.

Section Records.
Context {T E : Type} `{JsonCodec RunMetadata} `{JsonCodec (list E)} (json_Valid : string -> bool).
Implicit Types (snapshot : Snapshot T E) (record : Record) (opts : DecodeRecordOptions).

Definition headerError (err : option error) : option error := (fun e => ErrJoin ErrInvalidRecord e) <$> err.
Definition marshalError (what : string) (encoded : option string) : res string :=
  match encoded with Some b => Ok b | None => Err (ErrFmt what []) end.

(** [now] is the reading of the clock. *)
Definition EncodeRecord (now : Time) snapshot (serializer : option (StateSerializer T)) : res Record :=
  check (headerError (ValidateSnapshotHeader (snp_ThreadID snapshot) (snp_Revision snapshot) (snp_ExecutionPointer snapshot)));;
  match serializer with
  | None => Err nilSerializer
  | Some serializer =>
      match Marshal serializer (snp_State snapshot) with
      | Err err => Err (ErrWrap "checkpoint: marshal state: %w" [] err)
      | Ok statePayload =>
          if negb (json_Valid statePayload) then Err (invalidRecordError (ErrHost "state serializer must produce valid JSON"))
          else
            metaPayload ← marshalError "checkpoint: marshal run meta: %w" (marshal (snp_RunMeta snapshot));
            effectsPayload ← marshalError "checkpoint: marshal effects: %w" (marshal (snp_Effects snapshot));
            Ok (mkRecord (snp_ThreadID snapshot) (snp_Revision snapshot) (snp_ExecutionPointer snapshot) statePayload metaPayload effectsPayload
                  (toUTC now))
      end
  end.

(** [json.Unmarshal] into a variable that holds [zero]: the text [null] leaves it. *)
Definition decodeInto {A} `{JsonCodec A} (zero : A) (what payload : string) : res A :=
  match unmarshal payload with
  | None => Err (invalidRecordCauseError what (ErrHost what))
  | Some None => Ok zero
  | Some (Some a) => Ok a
  end.

Definition DecodeRecord record (serializer : option (StateSerializer T)) opts : res (Snapshot T E) :=
  check (headerError (ValidateSnapshotHeader (rcd_ThreadID record) (rcd_Revision record) (rcd_NodeID record)));;
  match serializer with
  | None => Err nilSerializer
  | Some serializer =>
      if (dro_ExpectedThreadID opts != "") && (rcd_ThreadID record != dro_ExpectedThreadID opts)
      then Err (invalidRecordError (ErrFmt "thread_id mismatch: record=%q expected=%q" [rcd_ThreadID record; dro_ExpectedThreadID opts]))
      else if (dro_ExpectedRevision opts != 0%N) && (rcd_Revision record != dro_ExpectedRevision opts)
      then Err (invalidRecordError (ErrFmt "revision mismatch: record=%d expected=%d" []))
      else if (dro_ExpectedExecutionPointer opts != "") && (rcd_NodeID record != dro_ExpectedExecutionPointer opts)
      then Err (invalidRecordError (ErrFmt "execution pointer mismatch: record=%q expected=%q" [rcd_NodeID record; dro_ExpectedExecutionPointer opts]))
      else
        match Unmarshal serializer (rcd_StatePayload record) with
        | Err err => Err (invalidRecordCauseError "unmarshal state" err)
        | Ok state =>
            meta ← decodeInto zeroRunMetadata "unmarshal run meta" (rcd_RunMeta record);
            effects ← (if rcd_Effects record == "" then Ok [] else decodeInto [] "unmarshal effects" (rcd_Effects record));
            Ok (mkSnapshot (rcd_ThreadID record) (rcd_NodeID record) (rcd_Revision record) state meta effects)
        end
  end.
End Records.

(** ** The advisory lease guard *)
Section LeaseGuard.
Context {X T E : Type}.

(** [Holder threadID]: the owner and whether the lease is held. *)
Definition guardDeleteIfIdle (inner : CheckpointerOps X T E) (Holder : string -> st X (res (string * bool))) (threadID : string) : st X (option error) :=
  let* holder := Holder threadID in
  match holder with
  | Err err => st_ret (Some err)
  | Ok (_, held) => if (held : bool) then st_ret (Some (ErrThreadLeaseBusy : error)) else cp_DeleteIfIdle inner threadID
  end.

(** An inner checkpointer without transactions answers that they are unsupported. *)
Definition guardSaveWithOutbox (inner : CheckpointerOps X T E) (expectedRevision : N) (snapshot : Snapshot T E)
    (enqueueFn : N -> st (X * N) (option error)) : st (X * N) (res N) :=
  match cp_SaveWithOutbox inner with
  | None => st_ret (Err ErrTransactionalOutboxUnsupported)
  | Some saveWithOutbox => saveWithOutbox expectedRevision snapshot enqueueFn
  end.

Definition NewAdvisoryLeaseGuardCheckpointer (inner : CheckpointerOps X T E) (Holder : string -> st X (res (string * bool))) : CheckpointerOps X T E :=
  mkCheckpointerOps (cp_Save inner) (cp_Load inner) (cp_Prune inner) (guardDeleteIfIdle inner Holder) (Some (guardSaveWithOutbox inner)).

(** The guard of a checkpointer that keeps the contract keeps it. *)
#[export] Instance guard_contract inner Holder `{HC : !CheckpointerContract inner} : CheckpointerContract (NewAdvisoryLeaseGuardCheckpointer inner Holder).
Proof.
  refine {| stored := stored (cp := inner) |}.
  - exact (save_accepted (cp := inner)).
  - exact (save_refused (cp := inner)).
  - exact (load_latest (cp := inner)).
  - exact (load_keeps (cp := inner)).
Defined.

(** While the lease is held, or cannot be read, nothing is deleted; otherwise the guard does
    what the checkpointer does. *)
Lemma guard_deletes_idle (inner : CheckpointerOps X T E) Holder threadID x x' holder : Holder threadID x = (x', holder) ->
  guardDeleteIfIdle inner Holder threadID x =
    match holder with
    | Ok (_, false) => cp_DeleteIfIdle inner threadID x'
    | Ok (_, true) => (x', Some (ErrThreadLeaseBusy : error))
    | Err err => (x', Some err)
    end.
Proof. intros Hh. unfold guardDeleteIfIdle, st_bind. rewrite Hh. by destruct holder as [[? []]|]. Qed.
End LeaseGuard.

(** ** What records promise *)
Section RecordInv.
Context {T E : Type} `{HM : JsonRoundTrip RunMetadata} `{HE : JsonRoundTrip (list E)} (json_Valid : string -> bool).

Definition expected (opts : DecodeRecordOptions) (threadID : string) (revision : N) (pointer : ExecutionPointer) : Prop :=
  (dro_ExpectedThreadID opts = "" \/ dro_ExpectedThreadID opts = threadID) /\
  (dro_ExpectedRevision opts = 0%N \/ dro_ExpectedRevision opts = revision) /\
  (dro_ExpectedExecutionPointer opts = "" \/ dro_ExpectedExecutionPointer opts = pointer).

(** A field is accepted where nothing is expected of it or it is as expected. *)
Lemma field_ok {A} `{EqDecision A} (want zero got : A) : (want != zero) && (got != want) = false <-> want = zero \/ want = got.
Proof.
  rewrite andb_false_iff, !negb_false_iff, !bool_decide_eq_true. split; intros [?|?]; by auto.
Qed.
Lemma expected_iff opts (record : Record) :
  ((dro_ExpectedThreadID opts != "") && (rcd_ThreadID record != dro_ExpectedThreadID opts) = false /\
   (dro_ExpectedRevision opts != 0%N) && (rcd_Revision record != dro_ExpectedRevision opts) = false /\
   (dro_ExpectedExecutionPointer opts != "") && (rcd_NodeID record != dro_ExpectedExecutionPointer opts) = false) <->
  expected opts (rcd_ThreadID record) (rcd_Revision record) (rcd_NodeID record).
Proof. unfold expected. by rewrite !field_ok. Qed.

Lemma header_Ok {A} (err : option error) (k : res A) a : (check (headerError err);; k) = Ok a <-> err = None /\ k = Ok a.
Proof. destruct err; cbn; [split; [done|by intros [? _]]|split; [by auto|by intros [_ ?]]]. Qed.

(** What a record carries. *)
Lemma encoded_fields now (snapshot : Snapshot T E) serializer record : EncodeRecord json_Valid now snapshot (Some serializer) = Ok record ->
  json_Valid (rcd_StatePayload record) = true /\
  ValidateSnapshotHeader (snp_ThreadID snapshot) (snp_Revision snapshot) (snp_ExecutionPointer snapshot) = None /\
  rcd_ThreadID record = snp_ThreadID snapshot /\ rcd_Revision record = snp_Revision snapshot /\ rcd_NodeID record = snp_ExecutionPointer snapshot /\
  Marshal serializer (snp_State snapshot) = Ok (rcd_StatePayload record) /\
  marshal (snp_RunMeta snapshot) = Some (rcd_RunMeta record) /\ marshal (snp_Effects snapshot) = Some (rcd_Effects record).
Proof.
  unfold EncodeRecord. intros [Hh Henc]%header_Ok.
  destruct (Marshal serializer (snp_State snapshot)) as [payload|]; [|done]. destruct (json_Valid payload) eqn:Ev; [|done]. cbn in Henc.
  destruct (marshal (snp_RunMeta snapshot)) as [meta|] eqn:Em; [|done]. cbn in Henc.
  destruct (marshal (snp_Effects snapshot)) as [effects|] eqn:Ee; [|done]. cbn in Henc. by injection Henc as <-.
Qed.

(** A record with the header of an encoded one and payloads that read as its payloads do, as
    a storage that keeps JSON values returns, decodes to the snapshot. *)
Lemma record_reads now (snapshot : Snapshot T E) serializer record stored opts :
  EncodeRecord json_Valid now snapshot (Some serializer) = Ok record ->
  (forall b, Marshal serializer (snp_State snapshot) = Ok b -> Unmarshal serializer b = Ok (snp_State snapshot)) ->
  representable (snp_RunMeta snapshot) -> representable (snp_Effects snapshot) ->
  rcd_ThreadID stored = rcd_ThreadID record -> rcd_Revision stored = rcd_Revision record -> rcd_NodeID stored = rcd_NodeID record ->
  Unmarshal serializer (rcd_StatePayload stored) = Unmarshal serializer (rcd_StatePayload record) ->
  unmarshal (A := RunMetadata) (rcd_RunMeta stored) = unmarshal (rcd_RunMeta record) ->
  unmarshal (A := list E) (rcd_Effects stored) = unmarshal (rcd_Effects record) -> rcd_Effects stored <> "" ->
  expected opts (snp_ThreadID snapshot) (snp_Revision snapshot) (snp_ExecutionPointer snapshot) ->
  DecodeRecord stored (Some serializer) opts = Ok snapshot.
Proof.
  intros Henc Hser Hm He S1 S2 S3 Hs Hmeta Heff Hne Hexp.
  destruct (encoded_fields _ _ _ _ Henc) as (_ & Hh & E1 & E2 & E3 & Est & Em & Ee).
  rewrite <- E1, <- E2, <- E3, <- S1, <- S2, <- S3 in Hexp. apply expected_iff in Hexp as (H1 & H2 & H3).
  unfold DecodeRecord. rewrite S1, S2, S3, E1, E2, E3 in *. apply header_Ok. split; [done|].
  rewrite H1, H2, H3, Hs, (Hser _ Est). unfold decodeInto. rewrite Hmeta, (unmarshal_marshal _ _ Hm Em). cbn.
  rewrite (bool_decide_eq_false_2 (rcd_Effects stored = "")) by done. rewrite Heff, (unmarshal_marshal _ _ He Ee). by destruct snapshot.
Qed.

(** C38: a snapshot survives its storage record. A record made from a snapshot carries its
    identity, revision and pointer and a state payload that is valid JSON, and decodes, under
    any expectations it meets, to exactly that snapshot; and a record decodes only where its
    header is valid and nothing expected of it is contradicted. *)
Theorem checkpoint_record_roundtrip now (snapshot : Snapshot T E) serializer record opts :
  EncodeRecord json_Valid now snapshot (Some serializer) = Ok record ->
  (forall b, Marshal serializer (snp_State snapshot) = Ok b -> Unmarshal serializer b = Ok (snp_State snapshot)) ->
  representable (snp_RunMeta snapshot) -> representable (snp_Effects snapshot) ->
  json_Valid (rcd_StatePayload record) = true /\
  (expected opts (snp_ThreadID snapshot) (snp_Revision snapshot) (snp_ExecutionPointer snapshot) ->
   DecodeRecord record (Some serializer) opts = Ok snapshot) /\
  (forall decoded : Snapshot T E, DecodeRecord record (Some serializer) opts = Ok decoded ->
   decoded = snapshot /\ expected opts (snp_ThreadID snapshot) (snp_Revision snapshot) (snp_ExecutionPointer snapshot)).
Proof.
  intros Henc Hser Hm He. destruct (encoded_fields _ _ _ _ Henc) as (Hv & _ & E1 & E2 & E3 & _ & _ & Ee). split; [done|].
  assert (Hdec : expected opts (snp_ThreadID snapshot) (snp_Revision snapshot) (snp_ExecutionPointer snapshot) ->
                 DecodeRecord (E := E) record (Some serializer) opts = Ok snapshot).
  { intros Hexp. apply (record_reads now _ _ record record); try done. by apply (marshal_nonempty _ _ Ee). }
  split; [exact Hdec|]. intros decoded Hd.
  assert (Hexp : expected opts (snp_ThreadID snapshot) (snp_Revision snapshot) (snp_ExecutionPointer snapshot)).
  { rewrite <- E1, <- E2, <- E3. apply expected_iff. unfold DecodeRecord in Hd. apply header_Ok in Hd as [_ Hd].
    destruct (_ && _) in Hd |- *; [done|]. destruct (_ && _) in Hd |- *; [done|]. destruct (_ && _) in Hd |- *; done. }
  split; [|done]. rewrite (Hdec Hexp) in Hd. by injection Hd.
Qed.

(** What a sanitizing serializer writes and reads is sanitized, for a base codec that round
    trips. *)
Lemma sanitized_roundtrip (base ser : StateSerializer T) sanitize state b :
  (forall s c, Marshal base s = Ok c -> Unmarshal base c = Ok s) -> WithSanitizer (Some base) (Some sanitize) = Ok ser ->
  Marshal ser state = Ok b -> Marshal base (sanitize state) = Ok b /\ Unmarshal ser b = Ok (sanitize (sanitize state)).
Proof.
  intros Hb [= <-]. cbn. unfold sanitizeMarshal, sanitizeUnmarshal. destruct (Marshal base state) as [e|] eqn:E0; [|done]. cbn.
  rewrite (Hb _ _ E0). cbn. intros Hm. split; [done|]. by rewrite (Hb _ _ Hm).
Qed.
End RecordInv.
