(* ===== verification/PostgresThreads.v ===== *)
(** * Threads in PostgreSQL

    The checkpointer of adapters/checkpointer/postgres (checkpointer.go, transactional.go,
    lease_fencing.go) and the lease manager of adapters/lease/postgres (lease.go), with the
    statements of their SQL files, over the tables of Postgres.v.

    Saves, leases and [DeleteIfIdle] take the advisory lock of the thread first, so one such
    transaction is one step; [Prune] and [Delete] take no lock, and are steps between
    transactions. The lease a context carries is an argument. The callback of
    [SaveWithOutbox] runs on the world inside the transaction, with the variable it
    captures, which a rollback does not restore. *)

From S2P Require Import Prelude Go Sha256 Json Identity Schedule Activity Waits Contract Children Aggregate Runtime Session ActivityCall Checkpointer Graph Handoff MemoryCheckpointer Compose CheckpointRecord Store Postgres Resume.

Open Scope pg_scope.

Definition checkpoints_of (db : Database) (threadID : string) : list checkpoint_row := default [] (tbl_checkpoints (db_threads db) !! threadID).
Definition put_checkpoints (threadID : string) (rows : list checkpoint_row) (db : Database) : Database :=
  db <| db_threads := (db_threads db) <| tbl_checkpoints := <[threadID := rows]> (tbl_checkpoints (db_threads db)) |> |>.
Definition lease_row_of (db : Database) (threadID : string) : option lease_row := tbl_leases (db_threads db) !! threadID.
Definition set_leases (f : gmap string lease_row -> gmap string lease_row) (db : Database) : Database :=
  db <| db_threads := (db_threads db) <| tbl_leases := f (tbl_leases (db_threads db)) |> |>.
Definition thread_fence (db : Database) (threadID : string) : N := default 0%N (tbl_fences (db_threads db) !! threadID).
Definition put_fence (threadID : string) (fence : N) (db : Database) : Database :=
  db <| db_threads := (db_threads db) <| tbl_fences := <[threadID := fence]> (tbl_fences (db_threads db)) |> |>.

(** [expires_at > clock_timestamp()] on the lease of a thread. *)
Definition live_lease (now : Time) (db : Database) (threadID : string) : option lease_row :=
  match lease_row_of db threadID with
  | Some row => if After (lsr_expires_at row) now then Some row else None
  | None => None
  end.
(** [owner = @owner AND incarnation = @incarnation]. *)
Definition handle_of (owner : string) (incarnation : N) (row : lease_row) : bool := (lsr_owner row == owner) && (lsr_incarnation row == incarnation).

Definition no_rows : error := ErrHost "no rows in result set".
Definition host_now : pg Time := fun w => (next_tick w, Ok (pw_host_clock w (pw_tick w))).

(** The end of a transaction whose commit error is reported as [wrap] makes it. *)
Definition commit_as {A} (wrap : error -> error) (before : Database) (a : A) : pg A := fun w =>
  let t := pw_tick w in
  let w := next_tick w in
  match pw_commit w t with
  | CommitMade => (w, Ok a)
  | CommitRefused err => (with_db before w, Err (wrap err))
  | CommitUnacknowledged err => (w, Err (wrap err))
  end.

(** ** Fenced writes (lease_fencing.go) *)
Definition lockCheckpointThread (threadID : string) : pg unit := query (fun _ _ => Ok tt).

Definition lease_handle (lease : ExecutionLease) (threadID : string) : bool :=
  negb ((lse_ExecutionID lease != threadID) || (lse_Owner lease == "") || (lse_Incarnation lease == 0%N) || (max_bigint <? lse_Incarnation lease)%N).
(** The statement of [validateLeaseWriteSQL]. *)
Definition write_allowed (supplied : option ExecutionLease) (threadID : string) (now : Time) (db : Database) : bool :=
  match supplied, live_lease now db threadID with
  | Some lease, Some row => handle_of (lse_Owner lease) (lse_Incarnation lease) row
  | Some _, None => false
  | None, live => is_nil live
  end.
Definition validateLeaseWrite (supplied : option ExecutionLease) (threadID : string) : pg unit :=
  guard* match supplied with Some lease => lease_handle lease threadID | None => true end else ErrLeaseLost in
  let* allowed := query (fun now db => Ok (write_allowed supplied threadID now db)) in
  guard* (allowed : bool) else ErrLeaseLost in pg_ret tt.

(** ** The checkpointer *)
Section Checkpointer.
Context {T E : Type} `{JsonCodec RunMetadata} `{JsonCodec (list E)} `{JsonColumns} (json_Valid : string -> bool) (serializer : StateSerializer T).

Definition max_revision (rows : list checkpoint_row) : N := foldr (fun row top => N.max (ckr_revision row) top) 0%N rows.
(** [save_occ.sql]: the revision inserted, if one was. *)
Definition saveOccSQL (stored : Record) (expected_revision : N) (db : Database) : res (Database * option N) :=
  expected ← bigint expected_revision;
  state_payload ← jsonb (rcd_StatePayload stored);
  run_meta ← jsonb (rcd_RunMeta stored);
  effects ← jsonb (rcd_Effects stored);
  let rows := checkpoints_of db (rcd_ThreadID stored) in
  if max_revision rows == expected then
    if (expected == max_bigint) then Err numeric_out_of_range
    else if existsb (fun row => ckr_revision row == (expected + 1)%N) rows then Err unique_violation
    else
      let row := mkCheckpointRow (expected + 1) (rcd_NodeID stored) state_payload run_meta effects (Truncate (rcd_UpdatedAt stored) microsecond) in
      Ok (put_checkpoints (rcd_ThreadID stored) (rows ++ [row]) db, Some (expected + 1)%N)
  else Ok (db, None).

Definition saveCheckpointInTx (expectedRevision : N) (snapshot : Snapshot T E) : pg N :=
  let newRevision := (expectedRevision + 1)%N in
  let snapshot := snapshot <| snp_Revision := newRevision |> in
  let* now := host_now in
  let* stored := pg_lift (EncodeRecord json_Valid now snapshot (Some serializer)) in
  let* inserted := statement (fun _ => saveOccSQL stored expectedRevision) in
  pg_lift (of_option inserted ErrConcurrencyConflict).

Definition pgSaveWithOutbox (supplied : option ExecutionLease) (expectedRevision : N) (snapshot : Snapshot T E)
    (enqueueFn : option (N -> st (postgres_world * N) (option error))) : st (postgres_world * N) (res N) := fun '(w, captured) =>
  let threadID := snp_ThreadID snapshot in
  if (max_bigint <=? expectedRevision)%N then ((w, captured), Err ErrExecutionCapability)
  else match ValidateSnapshotHeader threadID (expectedRevision + 1) (snp_ExecutionPointer snapshot) with
  | Some headerErr => ((w, captured), Err headerErr)
  | None =>
      match begin w with
      | (w, Err err) => ((w, captured), Err (ErrWrap "postgres: begin tx: %w" [] err))
      | (w, Ok _) =>
          let before := pw_db w in
          match (do* lockCheckpointThread threadID in
                 do* validateLeaseWrite supplied threadID in
                 saveCheckpointInTx expectedRevision snapshot) w with
          | (w, Err err) => ((with_db before w, captured), Err err)
          | (w, Ok inserted) =>
              match (match enqueueFn with Some enqueue => enqueue inserted (w, captured) | None => ((w, captured), None) end) with
              | ((w, captured), Some err) => ((with_db before w, captured), Err err)
              | ((w, captured), None) =>
                  match validateLeaseWrite supplied threadID w with
                  | (w, Err err) => ((with_db before w, captured), Err err)
                  | (w, Ok _) =>
                      let '(w, saved) := commit_as (fun err => ErrJoin ErrTransactionalHandoffCommitFailed err) before inserted w in
                      ((w, captured), saved)
                  end
              end
          end
      end
  end.

Definition pgSave (supplied : option ExecutionLease) (expectedRevision : N) (snapshot : Snapshot T E) : pg N := fun w =>
  let '((w, _), saved) := pgSaveWithOutbox supplied expectedRevision snapshot None (w, 0%N) in (w, saved).

(** [ORDER BY revision DESC]. *)
Definition newer (a b : checkpoint_row) : Prop := (ckr_revision b <= ckr_revision a)%N.
#[export] Instance newer_dec : RelDecision newer := fun a b => decide (ckr_revision b <= ckr_revision a)%N.
Definition descending (rows : list checkpoint_row) : list checkpoint_row := merge_sort newer rows.

Definition scanRecord (threadID : string) (row : checkpoint_row) : Record :=
  mkRecord threadID (ckr_revision row) (ckr_node_id row) (ckr_state_payload row) (ckr_run_meta row) (ckr_effects row) (ckr_updated_at row).
Definition decodeRow (threadID : string) (row : checkpoint_row) : res (Snapshot T E) :=
  DecodeRecord (scanRecord threadID row) (Some serializer) (mkDecodeOptions threadID 0 "").

(** A failure of the statement surfaces when its row is scanned. *)
Definition scanned {A} (m : pg A) : pg A := fun w =>
  match m w with (w, Err err) => (w, Err (ErrWrap "postgres checkpoint scan: %w" [] err)) | out => out end.
Definition pgLoad (threadID : string) : pg (Snapshot T E * N) :=
  let* latest := scanned (query (fun _ db => Ok (head (descending (checkpoints_of db threadID))))) in
  let* row := pg_lift (of_option latest (ErrJoin ErrThreadNotFound (ErrHost "checkpoint: no snapshot"))) in
  let* snapshot := pg_lift (decodeRow threadID row) in
  pg_ret (snapshot, snp_Revision snapshot).

(** [get_history.sql]; the driver sends the limit as it is. *)
Definition history_limit (limit : Z) : nat := if (limit <=? 0)%Z then Z.to_nat 2147483647 else Z.to_nat limit.
Definition pgGetHistory (threadID : string) (limit : Z) : pg (list (Snapshot T E)) :=
  let* rows := query (fun _ db => Ok (take (history_limit limit) (descending (checkpoints_of db threadID)))) in
  pg_lift (mapM (decodeRow threadID) rows).

Definition delete_checkpoints (threadID : string) (db : Database) : Database :=
  db <| db_threads := (db_threads db) <| tbl_checkpoints := delete threadID (tbl_checkpoints (db_threads db)) |> |>.
(** [prune.sql]: a comparison with no boundary holds of no row. *)
Definition pruneSQL (threadID : string) (retain_count : nat) (db : Database) : Database :=
  let rows := checkpoints_of db threadID in
  match descending rows !! retain_count with
  | None => db
  | Some boundary => put_checkpoints threadID (List.filter (fun row => negb (ckr_revision row <=? ckr_revision boundary)%N) rows) db
  end.
Definition pgDelete (threadID : string) : pg unit := autocommit (exec (fun db => Ok (delete_checkpoints threadID db))).
Definition pgPrune (threadID : string) (retainCount : Z) : pg unit :=
  if (retainCount <=? 0)%Z then pgDelete threadID
  else autocommit (exec (fun db => Ok (pruneSQL threadID (Z.to_nat retainCount) db))).

(** [delete_if_idle.sql], with the rows affected. *)
Definition deleteIfIdleSQL (threadID : string) (now : Time) (db : Database) : Database * nat :=
  if is_nil (live_lease now db threadID) then (delete_checkpoints threadID db, length (checkpoints_of db threadID)) else (db, 0).
Definition pgDeleteIfIdle (threadID : string) : pg unit :=
  transaction (
    do* lockCheckpointThread threadID in
    let* affected := statement (fun now db => Ok (deleteIfIdleSQL threadID now db)) in
    if affected == 0 then
      let* held := query (fun now db => Ok (negb (is_nil (live_lease now db threadID)))) in
      guard* negb held else ErrThreadLeaseBusy in pg_ret tt
    else pg_ret tt).

(** The operations a runner calls, under the lease its context carries. *)
Definition as_error {A} (m : pg A) : st postgres_world (option error) := fun w =>
  match m w with (w, Ok _) => (w, None) | (w, Err err) => (w, Some err) end.
Definition postgres_checkpointer (supplied : option ExecutionLease) : CheckpointerOps postgres_world T E :=
  mkCheckpointerOps (pgSave supplied) pgLoad (fun threadID n => as_error (pgPrune threadID n)) (fun threadID => as_error (pgDeleteIfIdle threadID))
    (Some (fun n s enqueue => pgSaveWithOutbox supplied n s (Some enqueue))).
End Checkpointer.

(** ** The lease manager (adapters/lease/postgres) *)
Section Leases.
(** What the server makes of [@ttl_seconds * INTERVAL '1 second'], where the argument, a
    [float64], is that number of microseconds over a million. *)
Context (interval : Z -> Z).

Definition lockedTx {A} (threadID : string) (body : pg A) : pg A := transaction (do* lockCheckpointThread threadID in body).

Definition expiry_after (now : Time) (ttl : Z) : Time := Add now (interval (leaseTTLSeconds ttl / microsecond)).

(** [upsert_lease.sql], with the rows affected; the caller reports 22003 as a capability. *)
Definition upsertLeaseSQL (threadID owner : string) (ttl : Z) (now : Time) (db : Database) : res (Database * N) :=
  match live_lease now db threadID with
  | Some _ => Ok (db, 0%N)
  | None =>
      if thread_fence db threadID == max_bigint then Err (ErrJoin ErrExecutionCapability numeric_out_of_range)
      else
        let incarnation := (thread_fence db threadID + 1)%N in
        Ok (set_leases (insert threadID (mkLeaseRow owner (expiry_after now ttl) incarnation)) (put_fence threadID incarnation db), 1%N)
  end.

Definition acquiredLease (threadID owner : string) : pg ExecutionLease :=
  let* row := query (fun _ db => of_option (lease_row_of db threadID) no_rows) in
  let lease := mkLease threadID owner (lsr_incarnation row) (lsr_expires_at row) in
  guard* lse_Incarnation lease != 0%N else ErrExecutionCapability in pg_ret lease.

Definition AcquireLease (threadID owner : string) (ttl : Z) : pg ExecutionLease :=
  guard* negb ((threadID == "") || (owner == "")) else ErrHost "flowy: lease acquire requires threadID and owner" in
  guard* negb (ttl <=? 0)%Z else ErrHost "flowy: lease ttl must be positive" in
  lockedTx threadID (
    let* affected := statement (fun now db => upsertLeaseSQL threadID owner ttl now db) in
    if affected == 0%N then
      let* row := query (fun _ db => of_option (lease_row_of db threadID) no_rows) in
      let holder := lsr_owner row in
      pg_lift (Err (ErrJoin (if holder != owner then ErrLeaseHeld else ErrThreadLeaseBusy) (ErrHost holder)))
    else acquiredLease threadID owner).

(** The arguments of a handle; [Renew] and [Release] of lease.go. *)
Definition handle_arguments (lease : ExecutionLease) : bool :=
  negb ((lse_ExecutionID lease == "") || (lse_Owner lease == "") || (lse_Incarnation lease == 0%N) || (max_bigint <? lse_Incarnation lease)%N).

Definition renewLeaseSQL (lease : ExecutionLease) (ttl : Z) (now : Time) (db : Database) : Database * N :=
  match live_lease now db (lse_ExecutionID lease) with
  | Some row =>
      if handle_of (lse_Owner lease) (lse_Incarnation lease) row then
        (set_leases (insert (lse_ExecutionID lease) (mkLeaseRow (lsr_owner row) (expiry_after now ttl) (lsr_incarnation row))) db, 1%N)
      else (db, 0%N)
  | None => (db, 0%N)
  end.
Definition RenewLease (lease : ExecutionLease) (ttl : Z) : pg ExecutionLease :=
  guard* handle_arguments lease && negb (ttl <=? 0)%Z else ErrLeaseLost in
  lockedTx (lse_ExecutionID lease) (
    let* affected := statement (fun now db => Ok (renewLeaseSQL lease ttl now db)) in
    guard* affected != 0%N else ErrLeaseLost in
    acquiredLease (lse_ExecutionID lease) (lse_Owner lease)).

Definition releaseLeaseSQL (lease : ExecutionLease) (db : Database) : Database * N :=
  match lease_row_of db (lse_ExecutionID lease) with
  | Some row => if handle_of (lse_Owner lease) (lse_Incarnation lease) row then (set_leases (delete (lse_ExecutionID lease)) db, 1%N) else (db, 0%N)
  | None => (db, 0%N)
  end.
Definition ReleaseLease (lease : ExecutionLease) : pg unit :=
  guard* handle_arguments lease else ErrLeaseLost in
  lockedTx (lse_ExecutionID lease) (
    let* affected := statement (fun _ db => Ok (releaseLeaseSQL lease db)) in
    if affected == 0%N then
      let* exists_ := query (fun _ db => Ok (negb (is_nil (lease_row_of db (lse_ExecutionID lease))))) in
      guard* negb exists_ else ErrLeaseLost in pg_ret tt
    else pg_ret tt).

(** The clock of the host decides whether the lease read is live. *)
Definition LeaseHolder (threadID : string) : pg (string * bool) :=
  let* row := query (fun _ db => Ok (lease_row_of db threadID)) in
  match row with
  | None => pg_ret ("", false)
  | Some row =>
      let* now := host_now in
      if negb (After (lsr_expires_at row) now) then pg_ret ("", false) else pg_ret (lsr_owner row, true)
  end.
Definition LeaseIsHeld (threadID : string) : pg bool := let* holder := LeaseHolder threadID in pg_ret holder.2.
Definition postgres_lease_manager : LeaseManagerOps postgres_world :=
  mkLeaseManager postgres_world (fun threadID owner ttl => AcquireLease threadID owner ttl) (fun lease => as_error (ReleaseLease lease)) true.
End Leases.
