(* ===== verification/PostgresThreadsInv.v ===== *)
(** * Threads in PostgreSQL stand for the reference stores

    [stands_for]: the rows of every thread decode to the history that the in-memory
    checkpointer of MemoryCheckpointer.v holds; [memory_leases]: the rows of the leases as the
    in-process lease manager of Store.v. Every operation that takes effect is the operation
    of the same name there. *)

From stdpp Require Import relations sorting.
From S2P Require Import Prelude Go Sha256 Json Identity Schedule Activity Waits Contract Children Aggregate Runtime Session ActivityCall Checkpointer Graph Handoff MemoryCheckpointer Compose CheckpointRecord Store Postgres PostgresInv PostgresThreads.

(** ** Rows in order *)
Definition ascending (rows : list checkpoint_row) : Prop := StronglySorted N.lt (ckr_revision <$> rows).

Lemma ascending_cons row rows : ascending (row :: rows) <-> (forall r, r ∈ rows -> (ckr_revision row < ckr_revision r)%N) /\ ascending rows.
Proof.
  unfold ascending. rewrite fmap_cons. split.
  - intros [Hs Hf]%StronglySorted_inv. split; [|done]. intros r Hr. rewrite Forall_forall in Hf. by apply Hf, list_elem_of_fmap_2.
  - intros [Hf Hs]. constructor; [done|]. apply Forall_forall. intros n (r & -> & Hr)%list_elem_of_fmap. by apply Hf.
Qed.
Lemma ascending_snoc rows row : ascending rows -> (forall r, r ∈ rows -> (ckr_revision r < ckr_revision row)%N) -> ascending (rows ++ [row]).
Proof.
  induction rows as [|r rows IH]; intros Hs Hlt; cbn; [constructor; [constructor|by constructor]|].
  apply ascending_cons in Hs as [H1 H2]. apply ascending_cons. split.
  - intros x [Hx|Hx%list_elem_of_singleton]%elem_of_app; [by apply H1|subst; apply Hlt; left].
  - apply IH; [done|]. intros x Hx. apply Hlt. by right.
Qed.
Lemma ascending_drop rows n : ascending rows -> ascending (drop n rows).
Proof.
  revert n. induction rows as [|r rows IH]; intros [|n] Hs; try done. apply ascending_cons in Hs as [_ Hs]. by apply IH.
Qed.

Lemma ascending_key rows a b : ascending rows -> a ∈ rows -> b ∈ rows -> ckr_revision a = ckr_revision b -> a = b.
Proof.
  induction rows as [|r rows IH]; [by intros _ ?%elem_of_nil|]. intros [H1 H2]%ascending_cons Ha Hb E.
  apply elem_of_cons in Ha as [->|Ha], Hb as [->|Hb]; [done|specialize (H1 _ Hb); lia|specialize (H1 _ Ha); lia|by apply IH].
Qed.
#[export] Instance newer_total : Total newer.
Proof. intros a b. unfold newer. lia. Qed.
#[export] Instance newer_trans : Transitive newer.
Proof. intros a b c. unfold newer. lia. Qed.

Lemma rev_newest rows : ascending rows -> StronglySorted newer (rev rows).
Proof.
  induction rows as [|r rows IH]; [by constructor|]. intros [H1 H2]%ascending_cons. cbn. apply StronglySorted_app. split; [|split].
  - intros x y Hx ->%list_elem_of_singleton. rewrite <- (Permutation_rev rows) in Hx. specialize (H1 _ Hx). unfold newer. lia.
  - by apply IH.
  - by repeat constructor.
Qed.
(** [ORDER BY revision DESC] of rows in ascending order. *)
Lemma descending_rev rows : ascending rows -> descending rows = rev rows.
Proof.
  intros Hs. assert (Hp : descending rows ≡ₚ rows) by apply merge_sort_Permutation.
  assert (Hr : rev rows ≡ₚ rows) by (symmetry; apply Permutation_rev).
  apply (StronglySorted_unique_strong newer).
  - intros x y Hx Hy H1 H2. rewrite Hp in Hx. rewrite Hr in Hy. apply (ascending_key rows); [done..|]. unfold newer in *. lia.
  - apply (StronglySorted_merge_sort newer); apply _.
  - by apply rev_newest.
  - by rewrite Hp, Hr.
Qed.
Lemma max_revision_last rows : ascending rows -> max_revision rows = match last rows with Some row => ckr_revision row | None => 0%N end.
Proof.
  induction rows as [|r [|r' rows] IH]; [done|cbn; lia|]. intros [H1 H2]%ascending_cons. rewrite last_cons_cons, <- IH by done.
  cbn [max_revision foldr]. specialize (H1 r' ltac:(left)). cbn. lia.
Qed.
Lemma max_revision_bound rows r : r ∈ rows -> (ckr_revision r <= max_revision rows)%N.
Proof. induction rows as [|x rows IH]; [by intros ?%elem_of_nil|]. intros [->|Hr]%elem_of_cons; cbn; [lia|]. specialize (IH Hr). unfold max_revision in IH. lia. Qed.

(** The rows past a boundary are the latest. *)
Lemma filter_past rows n boundary : ascending rows -> rows !! n = Some boundary ->
  List.filter (fun row => negb (ckr_revision row <=? ckr_revision boundary)%N) rows = drop (S n) rows.
Proof.
  revert n. induction rows as [|r rows IH]; intros n Hs Hn; [done|]. apply ascending_cons in Hs as [H1 H2]. destruct n as [|n].
  - injection Hn as ->. cbn. rewrite N.leb_refl. cbn.
    clear IH. induction rows as [|x rows IH]; [done|]. apply ascending_cons in H2 as [H2 H3]. cbn.
    destruct (N.leb_spec (ckr_revision x) (ckr_revision boundary)); [specialize (H1 x ltac:(left)); lia|]. cbn. f_equal.
    apply IH; [|done]. intros y Hy. apply H1. by right.
  - cbn in Hn |- *. specialize (H1 boundary (list_elem_of_lookup_2 _ _ _ Hn)).
    destruct (N.leb_spec (ckr_revision r) (ckr_revision boundary)); [|lia]. cbn. by apply IH.
Qed.

(** ** Saves *)
Definition keeps_threads {K} (enqueue : N -> st (postgres_world * K) (option error)) : Prop :=
  forall n x, db_threads (pw_db (enqueue n x).1.1) = db_threads (pw_db x.1).
(** The fence admitted the write against these tables. *)
Definition admitted (supplied : option ExecutionLease) (threadID : string) (db : Database) : Prop :=
  match supplied with Some lease => lease_handle lease threadID = true | None => True end /\
  exists now, write_allowed supplied threadID now db = true.

Lemma validate_runs supplied threadID db db' u : runs (validateLeaseWrite supplied threadID) db db' u -> db' = db /\ admitted supplied threadID db.
Proof.
  intros Hr. unfold validateLeaseWrite in Hr. run_in Hr. injection Hr0 as E. split; [done|]. split; [by destruct supplied|exists now; by rewrite E].
Qed.
Lemma admitted_threads supplied threadID db db' : tbl_leases (db_threads db') = tbl_leases (db_threads db) ->
  admitted supplied threadID db -> admitted supplied threadID db'.
Proof.
  intros E [Hl [now Ha]]. split; [done|]. exists now. unfold write_allowed, live_lease, lease_row_of in *. by rewrite E.
Qed.

(** A transaction's end is a commit, a refusal that restores the tables, or a commit whose
    acknowledgement is lost. *)
Lemma commit_as_cases {A} wrap before (a : A) w : match commit_as wrap before a w with
  | (w', Ok b) => b = a /\ pw_db w' = pw_db w
  | (w', Err e) => pw_db w' = before \/ (exists e0, e = wrap e0) /\ pw_db w' = pw_db w
  end.
Proof.
  unfold commit_as. cbv zeta. change (pw_commit (next_tick w)) with (pw_commit w).
  destruct (pw_commit w (pw_tick w)); [done|by left|right; split; [by eexists|done]].
Qed.
Lemma begin_db w w1 u : begin w = (w1, Ok u) -> pw_db w1 = pw_db w.
Proof. intros Eb. destruct (runs_query (fun _ _ => Ok tt) (pw_db w) (pw_db w1) u) as [? _]; [by exists w, w1|done]. Qed.
Lemma begin_failed w w1 e : begin w = (w1, Err e) -> pw_db w1 = pw_db w.
Proof. unfold begin, query. rewrite statement_eq. destruct (pw_fault w _); [by intros [= <- _]|done]. Qed.

Lemma runs_host_now db db' now : runs host_now db db' now -> db' = db.
Proof. intros (w & w' & [= <- _] & <- & <-). done. Qed.

Section ThreadsInv.
Context {T E : Type} `{HM : JsonRoundTrip RunMetadata} `{HE : JsonRoundTrip (list E)} `{HJ : JsonColumns} (json_Valid : string -> bool)
  (serializer : StateSerializer T).
Implicit Types (s : Snapshot T E) (m : MemoryCheckpointer T E).

Record committed_save (supplied : option ExecutionLease) (n : N) s (db db' : Database) (r : N) : Prop := mk_committed_save {
  cs_bound : (n < max_bigint)%N;
  cs_stored : exists now stored db1, EncodeRecord json_Valid now (s <| snp_Revision := (n + 1)%N |>) (Some serializer) = Ok stored /\
    saveOccSQL stored n db = Ok (db1, Some r) /\ db_threads db' = db_threads db1;
  cs_admitted : admitted supplied (snp_ThreadID s) db';
}.

Lemma lock_runs threadID db db' u : runs (lockCheckpointThread threadID) db db' u -> db' = db.
Proof. by intros [-> _]%runs_query. Qed.
Lemma save_in_tx_runs n s db db' r : runs (saveCheckpointInTx json_Valid serializer n s) db db' r ->
  exists now stored, EncodeRecord json_Valid now (s <| snp_Revision := (n + 1)%N |>) (Some serializer) = Ok stored /\
    saveOccSQL stored n db = Ok (db', Some r).
Proof.
  intros Hr. unfold saveCheckpointInTx in Hr. apply runs_bind in Hr as (db1 & now & ->%runs_host_now & Hr).
  apply runs_bind in Hr as (db2 & stored & [-> He]%runs_lift & Hr). apply runs_bind in Hr as (db3 & inserted & [now' Hs]%runs_statement & Hr).
  apply runs_lift in Hr as [-> Hi]. destruct inserted; [|done]. injection Hi as ->. by exists now, stored.
Qed.

Lemma saveOcc_inserted stored n db db1 r : (n < max_bigint)%N -> saveOccSQL stored n db = Ok (db1, Some r) ->
  r = (n + 1)%N /\ max_revision (checkpoints_of db (rcd_ThreadID stored)) = n /\
  exists p q e, to_jsonb (rcd_StatePayload stored) = Some p /\ to_jsonb (rcd_RunMeta stored) = Some q /\ to_jsonb (rcd_Effects stored) = Some e /\
  db1 = put_checkpoints (rcd_ThreadID stored) (checkpoints_of db (rcd_ThreadID stored) ++
          [mkCheckpointRow (n + 1) (rcd_NodeID stored) p q e (Truncate (rcd_UpdatedAt stored) microsecond)]) db.
Proof.
  intros Hn. unfold saveOccSQL, bigint, jsonb. replace (n <=? max_bigint)%N with true by (symmetry; apply N.leb_le; lia). cbn [mbind res_bind].
  destruct (to_jsonb (rcd_StatePayload stored)) as [p|]; [|done]. destruct (to_jsonb (rcd_RunMeta stored)) as [q|]; [|done].
  destruct (to_jsonb (rcd_Effects stored)) as [e|]; [|done]. cbn [of_option mbind res_bind]. cbv zeta.
  case_bool_decide as Hm; [|done]. case_bool_decide; [lia|]. destruct (existsb _ _); [done|]. intros [= <- <-].
  split; [done|]. split; [done|]. by exists p, q, e.
Qed.

(** What a save did: nothing, or one checkpoint inserted under the fence. *)
Lemma save_cases supplied n s enqueueFn w k : match enqueueFn with Some enqueue => keeps_threads enqueue | None => True end ->
  match pgSaveWithOutbox json_Valid serializer supplied n s enqueueFn (w, k) with
  | ((w', _), Ok r) => committed_save supplied n s (pw_db w) (pw_db w') r
  | ((w', _), Err e) => pw_db w' = pw_db w \/
      errors_Is e ErrTransactionalHandoffCommitFailed = true /\ exists r, committed_save supplied n s (pw_db w) (pw_db w') r
  end.
Proof.
  intros Hk. unfold pgSaveWithOutbox. destruct (N.leb_spec max_bigint n) as [Hn|Hn]; [by left|].
  destruct (ValidateSnapshotHeader _ _ _) eqn:Eh; [by left|].
  destruct (begin w) as [w1 [u|e]] eqn:Eb; [|left; by eapply begin_failed]. apply begin_db in Eb.
  destruct (pg_bind (lockCheckpointThread (snp_ThreadID s)) _ w1) as [w2 [r|e]] eqn:Es; [|left; by rewrite <- Eb]. rewrite <- Eb.
  assert (Hr : runs (do* lockCheckpointThread (snp_ThreadID s) in do* validateLeaseWrite supplied (snp_ThreadID s) in
                     saveCheckpointInTx json_Valid serializer n s) (pw_db w1) (pw_db w2) r) by by exists w1, w2.
  clear Es Eb. revert Hr. generalize (pw_db w1) as db. intros db Hr.
  destruct (match enqueueFn with Some enqueue => enqueue r (w2, k) | None => ((w2, k), None) end) as [[w3 k'] [e|]] eqn:Ee; [by left|].
  assert (E3 : db_threads (pw_db w3) = db_threads (pw_db w2)).
  { destruct enqueueFn as [enqueue|]; [|by injection Ee as <- _]. pose proof (Hk r (w2, k)) as Hq. by rewrite Ee in Hq. }
  destruct (validateLeaseWrite supplied (snp_ThreadID s) w3) as [w4 [u'|e]] eqn:Ev; [|by left].
  assert (Hv : runs (validateLeaseWrite supplied (snp_ThreadID s)) (pw_db w3) (pw_db w4) u') by by exists w3, w4.
  apply validate_runs in Hv as [E4 Ha].
  assert (Hc : forall db', pw_db w4 = db' -> committed_save supplied n s db db' r).
  { intros db' <-. split; [done| |by rewrite E4]. apply runs_bind in Hr as (db1 & v1 & ->%lock_runs & Hr). apply runs_bind in Hr as (db2 & v2 & [-> _]%validate_runs & Hr).
    apply save_in_tx_runs in Hr as (now & stored & He & Hs). exists now, stored, (pw_db w2). by rewrite E4, E3. }
  pose proof (commit_as_cases (fun err => ErrJoin ErrTransactionalHandoffCommitFailed err) db r w4) as Hcm.
  destruct (commit_as _ db r w4) as [w5 [r'|e]].
  - destruct Hcm as [-> E5]. by apply Hc.
  - destruct Hcm as [->|[[e0 ->] E5]]; [by left|]. right. split; [done|]. exists r. by apply Hc.
Qed.

(** ** The history that rows stand for *)

(** The server keeps the JSON value of a text it accepts, and the codec of the state reads
    that value. *)
Class LawfulThreadColumns := {
  text_nonempty : forall t p, to_jsonb t = Some p -> p <> "";
  jsonb_meta : forall t p, to_jsonb t = Some p -> unmarshal (A := RunMetadata) p = unmarshal t;
  jsonb_effects : forall t p, to_jsonb t = Some p -> unmarshal (A := list E) p = unmarshal t;
  jsonb_state : forall t p, to_jsonb t = Some p -> Unmarshal serializer p = Unmarshal serializer t;
  state_roundtrip : forall (state : T) b, Marshal serializer state = Ok b -> Unmarshal serializer b = Ok state;
}.
Context `{HT : LawfulThreadColumns}.

Definition row_stands (threadID : string) (row : checkpoint_row) s : Prop := decodeRow serializer threadID row = Ok s.
Definition thread_stands (threadID : string) (rows : list checkpoint_row) (items : list (Snapshot T E)) : Prop :=
  Forall2 (row_stands threadID) rows items /\ ascending rows.
Definition stands_for (db : Database) m : Prop := forall threadID, thread_stands threadID (checkpoints_of db threadID) (memory_items m threadID).

Lemma row_stands_fields threadID row s : row_stands threadID row s -> snp_ThreadID s = threadID /\ snp_Revision s = ckr_revision row /\ ckr_revision row <> 0%N.
Proof.
  unfold row_stands, decodeRow, DecodeRecord. intros [Hh Hd]%header_Ok. cbn [scanRecord rcd_ThreadID rcd_Revision rcd_NodeID] in Hh, Hd.
  cbn [dro_ExpectedThreadID dro_ExpectedRevision dro_ExpectedExecutionPointer] in Hd.
  repeat (destruct (_ && _) in Hd; [done|]). destruct (Unmarshal serializer _); [|done].
  apply bind_Ok in Hd as (meta & _ & Hd). apply bind_Ok in Hd as (effects & _ & Hd). injection Hd as <-. split; [done|]. split; [done|].
  cbn. intros E0. unfold ValidateSnapshotHeader in Hh. rewrite E0 in Hh. by rewrite !orb_true_r in Hh.
Qed.

Lemma stands_empty db : db_threads db = mkThreadTables ∅ ∅ ∅ -> stands_for db NewMemoryCheckpointer.
Proof. intros Hd t. unfold checkpoints_of, memory_items. rewrite Hd. split; constructor. Qed.
Lemma stands_threads db db' m : tbl_checkpoints (db_threads db') = tbl_checkpoints (db_threads db) -> stands_for db m -> stands_for db' m.
Proof. intros Hd Hs t. unfold checkpoints_of. rewrite Hd. apply Hs. Qed.

Lemma thread_last threadID rows items : thread_stands threadID rows items -> match last rows, last items with
  | Some row, Some s => row_stands threadID row s
  | None, None => True
  | _, _ => False
  end.
Proof.
  intros [Hf _]. rewrite !last_lookup. pose proof (Forall2_length _ _ _ Hf) as Hl. rewrite Hl.
  destruct (rows !! _) as [row|] eqn:Er; destruct (items !! _) as [s|] eqn:Es; try done.
  - by eapply (Forall2_lookup_lr _ rows items).
  - apply lookup_lt_Some in Er. apply lookup_ge_None in Es. lia.
  - apply lookup_lt_Some in Es. apply lookup_ge_None in Er. lia.
Qed.
Lemma thread_current threadID rows items : thread_stands threadID rows items ->
  max_revision rows = match last items with Some latest => snp_Revision latest | None => 0%N end.
Proof.
  intros Ht. rewrite max_revision_last by apply Ht. apply thread_last in Ht. destruct (last rows), (last items); try done.
  by apply row_stands_fields in Ht as (_ & -> & _).
Qed.

Lemma thread_items_insert m threadID items k : memory_items (<[threadID := items]> m) k = if decide (threadID = k) then items else memory_items m k.
Proof. exact (memory_items_insert m threadID items k). Qed.
Lemma put_stands db m threadID rows items : stands_for db m -> thread_stands threadID rows items ->
  stands_for (put_checkpoints threadID rows db) (<[threadID := items]> m).
Proof.
  intros Hs Ht k. rewrite thread_items_insert. unfold checkpoints_of. change (tbl_checkpoints (db_threads (put_checkpoints threadID rows db))) with (<[threadID := rows]> (tbl_checkpoints (db_threads db))).
  destruct (decide (threadID = k)) as [<-|Hn]; [by rewrite lookup_insert_eq|]. rewrite lookup_insert_ne by done. apply Hs.
Qed.

(** A checkpoint is inserted exactly as the in-memory checkpointer appends its snapshot. *)
Lemma save_stands supplied n s db db' r m : stands_for db m -> committed_save supplied n s db db' r ->
  representable (snp_RunMeta s) -> representable (snp_Effects s) ->
  exists m', memorySave n s m = (m', Ok r) /\ stands_for db' m' /\
    tbl_leases (db_threads db') = tbl_leases (db_threads db) /\ tbl_fences (db_threads db') = tbl_fences (db_threads db).
Proof.
  intros Hs [Hn (now & stored & db1 & He & Ho & E1) Ha] Hm Heff.
  destruct (encoded_fields _ _ _ _ _ He) as (_ & Hh & Et & Erev & _). change (snp_ThreadID (s <| snp_Revision := (n + 1)%N |>)) with (snp_ThreadID s) in *.
  destruct (saveOcc_inserted _ _ _ _ _ Hn Ho) as (-> & Hmax & p & q & e & Hp & Hq & He' & ->). rewrite Et in *.
  rewrite (thread_current _ _ _ (Hs _)) in Hmax.
  exists (<[snp_ThreadID s := memory_items m (snp_ThreadID s) ++ [s <| snp_Revision := (n + 1)%N |>]]> m). split; [|split; [|by rewrite E1]].
  - unfold memorySave. rewrite bool_decide_eq_false_2 by (unfold max_uint64, max_bigint in *; lia).
    change (ValidateSnapshotHeader (snp_ThreadID s) (n + 1) (snp_ExecutionPointer s) = None) in Hh. rewrite Hh, Hmax. by rewrite bool_decide_eq_true_2.
  - apply (stands_threads (put_checkpoints (snp_ThreadID s) (checkpoints_of db (snp_ThreadID s) ++ [mkCheckpointRow (n + 1) (rcd_NodeID stored) p q e (Truncate (rcd_UpdatedAt stored) microsecond)]) db)); [by rewrite E1|].
    apply put_stands; [done|]. destruct (Hs (snp_ThreadID s)) as [Hf Hasc]. split.
    + apply Forall2_app; [done|]. constructor; [|constructor]. unfold row_stands, decodeRow.
      apply (record_reads json_Valid now _ _ stored); try done.
      * apply state_roundtrip.
      * by apply jsonb_state.
      * by apply jsonb_meta.
      * by apply jsonb_effects.
      * by apply (text_nonempty _ _ He').
      * split; [by right|]. split; by left.
    + apply ascending_snoc; [done|]. intros x Hx%max_revision_bound. rewrite (thread_current _ _ _ (Hs _)), Hmax in Hx. cbn. lia.
Qed.

(** ** Reads *)
Lemma decode_rows threadID rows items : Forall2 (row_stands threadID) rows items -> mapM (decodeRow serializer threadID) rows = Ok items.
Proof. induction 1 as [|row s rows items Hr _ IH]; [done|]. cbn [mapM]. unfold row_stands in Hr. rewrite Hr. cbn. rewrite IH. done. Qed.
Lemma latest_rows threadID rows items n : thread_stands threadID rows items ->
  Forall2 (row_stands threadID) (take n (descending rows)) (take n (rev items)).
Proof. intros [Hf Ha]. rewrite descending_rev by done. rewrite !rev_alt. by apply Forall2_take, Forall2_reverse. Qed.

Lemma head_rev {A} (l : list A) : head (rev l) = last l.
Proof. induction l as [|x l _] using rev_ind; [done|]. by rewrite rev_unit, last_snoc. Qed.

(** What the in-memory checkpointer loads is loaded, unless the statement fails. *)
Lemma load_exact threadID w m : stands_for (pw_db w) m ->
  pgLoad serializer threadID w = (next_tick w, match pw_fault w (pw_tick w) with
    | Some f => Err (ErrWrap "postgres checkpoint scan: %w" [] (fault_error f))
    | None => match (memoryLoad threadID m).2 with Ok a => Ok a | Err err => Err (ErrJoin err (ErrHost "checkpoint: no snapshot")) end
    end).
Proof.
  intros Hs. specialize (Hs threadID). unfold pgLoad, pg_bind, scanned, query. rewrite statement_eq.
  destruct (pw_fault w (pw_tick w)) as [f|]; [done|]. cbn [mbind res_bind]. rewrite descending_rev, head_rev by apply Hs.
  pose proof (thread_last _ _ _ Hs) as Hl. unfold memoryLoad. destruct (last (checkpoints_of _ _)), (last (memory_items _ _)); try done.
  cbn. unfold row_stands in Hl. by rewrite Hl.
Qed.
Lemma history_exact threadID limit w m : stands_for (pw_db w) m -> (len (memory_items m threadID) <= 2147483647)%Z ->
  pgGetHistory serializer threadID limit w = (next_tick w, match pw_fault w (pw_tick w) with
    | Some f => Err (fault_error f)
    | None => Ok (memoryGetHistory threadID limit m).2
    end).
Proof.
  intros Hs Hlen. specialize (Hs threadID). unfold pgGetHistory, pg_bind, query. rewrite statement_eq.
  destruct (pw_fault w (pw_tick w)) as [f|]; [done|]. cbn [mbind res_bind].
  rewrite (decode_rows threadID _ (memoryGetHistory threadID limit m).2); [done|].
  replace (memoryGetHistory threadID limit m).2 with (take (history_limit limit) (rev (memory_items m threadID))); [by apply latest_rows|].
  unfold memoryGetHistory, history_limit, len in *. cbn [snd]. destruct (Z.leb_spec limit 0); cbn [orb].
  - rewrite !take_ge; rewrite ?length_rev; [done|lia|lia].
  - destruct (Z.ltb_spec (Z.of_nat (length (memory_items m threadID))) limit); [|done]. rewrite !take_ge; rewrite ?length_rev; [done|lia|lia].
Qed.

(** ** Maintenance *)
Lemma delete_stands db m threadID : stands_for db m -> stands_for (delete_checkpoints threadID db) (delete threadID m).
Proof.
  intros Hs k. unfold checkpoints_of. change (tbl_checkpoints (db_threads (delete_checkpoints threadID db))) with (delete threadID (tbl_checkpoints (db_threads db))).
  unfold memory_items. destruct (decide (threadID = k)) as [<-|Hn].
  - rewrite lookup_delete_eq. unfold MemoryCheckpointer. rewrite lookup_delete_eq. split; constructor.
  - rewrite lookup_delete_ne by done. unfold MemoryCheckpointer. rewrite lookup_delete_ne by done. apply Hs.
Qed.

Definition keeps_leases (db db' : Database) : Prop :=
  tbl_leases (db_threads db') = tbl_leases (db_threads db) /\ tbl_fences (db_threads db') = tbl_fences (db_threads db).
Definition pruned_as (threadID : string) (n : Z) m (db db' : Database) : Prop := stands_for db' (memoryPrune threadID n m).1 /\ keeps_leases db db'.

Lemma pruneSQL_stands db m threadID n : stands_for db m -> (0 < n)%Z -> pruned_as threadID n m db (pruneSQL threadID (Z.to_nat n) db).
Proof.
  intros Hs Hn. pose proof (Hs threadID) as Ht. unfold pruneSQL. rewrite descending_rev by apply Ht. unfold pruned_as, memoryPrune, len.
  pose proof (Forall2_length _ _ _ (proj1 Ht)) as Hl. replace (n <=? 0)%Z with false by (symmetry; apply Z.leb_gt; lia).
  destruct (rev _ !! _) as [boundary|] eqn:Eb.
  - assert (Hlt : (Z.to_nat n < length (checkpoints_of db threadID))%nat) by (apply lookup_lt_Some in Eb; by rewrite length_rev in Eb).
    rewrite bool_decide_eq_false_2 by (cbn; lia). replace (_ <=? n)%Z with false by (symmetry; apply Z.leb_gt; lia). split; [|done].
    cbn [fst]. apply put_stands; [done|]. rewrite rev_alt in Eb. apply (reverse_lookup_Some (checkpoints_of db threadID)) in Eb as [Eb _]. rewrite (filter_past _ _ _ (proj2 Ht) Eb).
    replace (S _) with (length (memory_items m threadID) - Z.to_nat n) by lia. destruct Ht as [Hf Ha].
    split; [by apply Forall2_drop|by apply ascending_drop].
  - apply lookup_ge_None in Eb. rewrite length_rev in Eb. split; [|done].
    destruct (bool_decide _); [done|]. replace (_ <=? n)%Z with true by (symmetry; apply Z.leb_le; lia). done.
Qed.
Lemma prune_effects threadID n w m : stands_for (pw_db w) m -> effects (pgPrune threadID n) w (fun db' _ => pruned_as threadID n m (pw_db w) db').
Proof.
  intros Hs. unfold pgPrune, pgDelete. destruct (Z.leb_spec n 0).
  - apply effects_autocommit. intros db' [] Hr%runs_exec. injection Hr as <-. unfold pruned_as, memoryPrune.
    replace (n <=? 0)%Z with true by (symmetry; apply Z.leb_le; lia). split; [|done].
    case_bool_decide as Hz; [|by apply delete_stands]. cbn [fst].
    intros k. destruct (decide (threadID = k)) as [<-|Hk].
    + assert (Hi : memory_items m threadID = []) by (destruct (memory_items m threadID); [done|unfold len in Hz; cbn in Hz; lia]).
      rewrite Hi. unfold checkpoints_of. cbn. rewrite lookup_delete_eq. split; constructor.
    + unfold checkpoints_of. cbn. rewrite lookup_delete_ne by done. apply Hs.
  - apply effects_autocommit. intros db' [] Hr%runs_exec. injection Hr as <-. by apply pruneSQL_stands.
Qed.
End ThreadsInv.
