(* ===== verification/PostgresFences.v ===== *)
(** * Leases and fenced writes in PostgreSQL

    [lease_managed]: an operation of the lease manager that takes effect is the operation of
    the in-process manager of Store.v, at the clock of the server. Over every schedule of
    checkpoint and lease operations, a lease that another acquisition followed writes
    nothing more. *)

From stdpp Require Import relations.
From S2P Require Import Prelude Go Sha256 Json Identity Schedule Activity Waits Contract Children Aggregate Runtime Session ActivityCall Checkpointer Graph Handoff MemoryCheckpointer Compose CheckpointRecord Store Postgres PostgresInv PostgresThreads PostgresThreadsInv.

Lemma Ok_eq {A} (a b : A) : Ok a = Ok b -> a = b.
Proof. by intros [= ->]. Qed.
Lemma Ok_pair {A B} (a a' : A) (b b' : B) : Ok (a, b) = Ok (a', b') -> a = a' /\ b = b'.
Proof. by intros [= -> ->]. Qed.

(** ** The lease manager *)
Definition lease_record (row : lease_row) : leaseRecord := mkLeaseRecord (lsr_owner row) (lsr_expires_at row) (lsr_incarnation row).
Definition memory_leases (db : Database) : MemoryLeaseManager := mkLeaseManager (lease_record <$> tbl_leases (db_threads db)) (tbl_fences (db_threads db)).

(** A stored lease carries the fence of its thread. *)
Definition fenced (db : Database) : Prop := forall threadID,
  (thread_fence db threadID <= max_bigint)%N /\
  forall row, lease_row_of db threadID = Some row -> lsr_incarnation row = thread_fence db threadID /\ lsr_incarnation row <> 0%N.
Definition keeps_checkpoints (db db' : Database) : Prop := tbl_checkpoints (db_threads db') = tbl_checkpoints (db_threads db).

Lemma fenced_leases db db' : keeps_leases db db' -> fenced db -> fenced db'.
Proof. intros [E1 E2] Hf threadID. unfold thread_fence, lease_row_of. rewrite E1, E2. apply Hf. Qed.
Lemma fenced_empty db : db_threads db = mkThreadTables ∅ ∅ ∅ -> fenced db.
Proof. intros Hd threadID. unfold thread_fence, lease_row_of. rewrite Hd. done. Qed.

Lemma memory_leases_lookup db threadID : mlm_leases (memory_leases db) !! threadID = lease_record <$> lease_row_of db threadID.
Proof. apply lookup_fmap. Qed.
Lemma live_None now db threadID : live_lease now db threadID = None <->
  match lease_row_of db threadID with Some row => After (lsr_expires_at row) now = false | None => True end.
Proof. unfold live_lease. destruct (lease_row_of db threadID) as [row|]; [|done]. by destruct (After _ now). Qed.
Lemma live_Some now db threadID row : live_lease now db threadID = Some row <->
  lease_row_of db threadID = Some row /\ After (lsr_expires_at row) now = true.
Proof.
  unfold live_lease. destruct (lease_row_of db threadID) as [r|]; [|by split; [|intros [? _]]].
  destruct (After (lsr_expires_at r) now) eqn:Ea; split; [by intros [= <-]|by intros [? _]|done|by intros [[= <-] ?]; congruence].
Qed.

Section Leases.
(** What the server makes of a positive number of microseconds is positive. *)
Context (interval : Z -> Z) (interval_positive : forall d, (0 < d)%Z -> (0 < interval d)%Z).

Definition ttl_on_server (ttl : Z) : Z := interval (leaseTTLSeconds ttl / microsecond).
Lemma leaseTTL_positive ttl : (0 < ttl)%Z -> (0 < leaseTTLSeconds ttl / microsecond)%Z /\ (ttl <= leaseTTLSeconds ttl < ttl + microsecond)%Z.
Proof.
  intros Ht. unfold leaseTTLSeconds, microsecond. cbv zeta. rewrite Z.div_mul by done.
  pose proof (Z.div_mod ttl 1000 ltac:(lia)). pose proof (Z.mod_pos_bound ttl 1000 ltac:(lia)).
  destruct (Z.eqb_spec (ttl mod 1000) 0); cbn [negb]; lia.
Qed.
Lemma ttl_on_server_positive ttl : (0 < ttl)%Z -> (0 < ttl_on_server ttl)%Z.
Proof. intros Ht. by apply interval_positive, leaseTTL_positive. Qed.

Definition acquired_as (threadID owner : string) (ttl : Z) (db db' : Database) (lease : ExecutionLease) : Prop :=
  exists now, Acquire now (memory_leases db) threadID owner (ttl_on_server ttl) = Ok (memory_leases db', lease) /\
    live_lease now db threadID = None /\ keeps_checkpoints db db' /\ fenced db'.
Definition renewed_as (lease : ExecutionLease) (ttl : Z) (db db' : Database) (lease' : ExecutionLease) : Prop :=
  exists now, Store.Renew now (memory_leases db) lease (ttl_on_server ttl) = Ok (memory_leases db', lease') /\
    keeps_checkpoints db db' /\ fenced db'.
Definition released_as (lease : ExecutionLease) (db db' : Database) : Prop :=
  Store.Release (memory_leases db) lease = Ok (memory_leases db') /\ keeps_checkpoints db db' /\ fenced db'.

Lemma acquiredLease_runs threadID owner db db' lease : runs (acquiredLease threadID owner) db db' lease ->
  db' = db /\ exists row, lease_row_of db threadID = Some row /\ lease = mkLease threadID owner (lsr_incarnation row) (lsr_expires_at row).
Proof.
  intros Hr. unfold acquiredLease in Hr. run_in Hr. split; [done|]. exists a. split; [|done]. destruct (lease_row_of db threadID); [by injection Hr0 as ->|done].
Qed.
Lemma put_lease_row threadID row db : lease_row_of (set_leases (insert threadID row) db) threadID = Some row.
Proof. apply lookup_insert_eq. Qed.
Lemma acquire_lease_effects threadID owner ttl w : fenced (pw_db w) ->
  effects (AcquireLease interval threadID owner ttl) w (acquired_as threadID owner ttl (pw_db w)).
Proof.
  intros Hf. unfold AcquireLease. apply effects_guard. intros G1. apply effects_guard. intros G2. apply effects_transaction.
  intros db' lease Hr. apply runs_bind in Hr as (db1 & v & ->%lock_runs & Hr). apply runs_bind in Hr as (db2 & affected & [now Hu]%runs_statement & Hr).
  unfold upsertLeaseSQL in Hu. destruct (live_lease now (pw_db w) threadID) eqn:Elive.
  { injection Hu as <- <-. rewrite bool_decide_eq_true_2 in Hr by done. by run_in Hr. }
  guard_in Hu; [done|]. rename Hg into Hmax. apply bool_decide_eq_false in Hmax. injection Hu as <- <-. rewrite bool_decide_eq_false_2 in Hr by done.
  apply acquiredLease_runs in Hr as (-> & row & Hrow & ->). rewrite put_lease_row in Hrow. injection Hrow as <-.
  apply negb_true_iff in G1, G2. destruct (Hf threadID) as [Hb _]. exists now. split; [|split; [done|split; [done|]]].
  - unfold Acquire. rewrite G1. replace (ttl_on_server ttl <=? 0)%Z with false by (symmetry; apply Z.leb_gt, ttl_on_server_positive; apply Z.leb_gt in G2; lia).
    rewrite memory_leases_lookup. apply live_None in Elive.
    assert (Hgo : match lease_record <$> lease_row_of (pw_db w) threadID with
      | Some rec => if After (lr_expiresAt rec) now
                    then Err (ErrJoin (if lr_owner rec != owner then ErrLeaseHeld else ErrThreadLeaseBusy) (ErrHost (lr_owner rec))) else Ok tt
      | None => Ok tt end = (Ok tt : res unit)).
    { destruct (lease_row_of (pw_db w) threadID) as [r|]; [|done]. cbn. by rewrite Elive. }
    rewrite Hgo. cbn [mbind res_bind]. change (lm_fence (memory_leases (pw_db w)) threadID) with (thread_fence (pw_db w) threadID).
    rewrite bool_decide_eq_false_2 by (unfold max_uint64, max_bigint in *; lia). rewrite succ_u64_lt by (unfold max_uint64, max_bigint in *; lia).
    cbv zeta. f_equal. f_equal. unfold memory_leases, set_leases, put_fence. cbn. by rewrite fmap_insert.
  - intros k. destruct (decide (threadID = k)) as [<-|Hk].
    + assert (E1 : thread_fence (set_leases (insert threadID (mkLeaseRow owner (expiry_after interval now ttl) (thread_fence (pw_db w) threadID + 1)))
                                   (put_fence threadID (thread_fence (pw_db w) threadID + 1) (pw_db w))) threadID = (thread_fence (pw_db w) threadID + 1)%N).
      { unfold thread_fence at 1, set_leases, put_fence. cbn. by rewrite lookup_insert_eq. }
      rewrite E1. split; [lia|]. intros row. rewrite put_lease_row. intros [= <-]. cbn [lsr_incarnation]. lia.
    + unfold thread_fence, lease_row_of. cbn. rewrite !lookup_insert_ne by done. apply Hf.
Qed.

Lemma renew_lease_effects lease ttl w : fenced (pw_db w) ->
  effects (RenewLease interval lease ttl) w (renewed_as lease ttl (pw_db w)).
Proof.
  intros Hf. unfold RenewLease. apply effects_guard. intros [G1 G2]%andb_true_iff. apply effects_transaction.
  intros db' lease' Hr. apply runs_bind in Hr as (db1 & v & ->%lock_runs & Hr). apply runs_bind in Hr as (db2 & affected & [now Hu]%runs_statement & Hr).
  unfold renewLeaseSQL in Hu. destruct (live_lease now (pw_db w) _) as [row|] eqn:Elive; [|injection Hu as <- <-; by run_in Hr].
  destruct (handle_of _ _ row) eqn:Eh; [|injection Hu as <- <-; by run_in Hr]. injection Hu as <- <-. cbn in Hr.
  apply acquiredLease_runs in Hr as (-> & row' & Hrow & ->). rewrite put_lease_row in Hrow. injection Hrow as <-.
  apply live_Some in Elive as [Er Ha]. unfold handle_of in Eh. apply andb_true_iff in Eh as [Eo%bool_decide_eq_true Ei%bool_decide_eq_true].
  apply negb_true_iff in G1, G2. apply orb_false_iff in G1 as [G1 _]. exists now. split; [|split; [done|]].
  - unfold Renew. rewrite G1. replace (ttl_on_server ttl <=? 0)%Z with false by (symmetry; apply Z.leb_gt, ttl_on_server_positive; apply Z.leb_gt in G2; lia).
    cbn [orb]. rewrite memory_leases_lookup, Er. cbn [fmap option_fmap option_map lease_record lr_expiresAt lr_owner lr_incarnation]. rewrite Ha, Eo, Ei.
    rewrite !bool_decide_eq_true_2 by done. cbn. f_equal. f_equal.
    unfold memory_leases, set_leases. cbn. by rewrite fmap_insert.
  - intros k. destruct (Hf k) as [Hb Hrows]. split; [done|]. destruct (decide (lse_ExecutionID lease = k)) as [<-|Hk].
    + intros row'. rewrite put_lease_row. intros [= <-]. by apply (Hrows row).
    + intros row'. unfold lease_row_of. cbn. rewrite lookup_insert_ne by done. apply Hrows.
Qed.

Lemma release_lease_effects lease w : fenced (pw_db w) -> effects (ReleaseLease lease) w (fun db' _ => released_as lease (pw_db w) db').
Proof.
  intros Hf. unfold ReleaseLease. apply effects_guard. intros G. apply effects_transaction.
  intros db' [] Hr. apply runs_bind in Hr as (db1 & v & ->%lock_runs & Hr). apply runs_bind in Hr as (db2 & affected & [now Hu]%runs_statement & Hr).
  apply negb_true_iff, orb_false_iff in G as [G _]. unfold released_as, Release. rewrite G, memory_leases_lookup.
  unfold releaseLeaseSQL in Hu. destruct (lease_row_of (pw_db w) _) as [row|] eqn:Er.
  - cbn. unfold handle_of in Hu. destruct (bool_decide (lsr_owner row = _)), (bool_decide (lsr_incarnation row = _)); cbn in Hu |- *; injection Hu as <- <-.
    all: try (by rewrite bool_decide_eq_true_2 in Hr by done; run_in Hr; injection Hr0 as <-; rewrite Er in Hguard).
    rewrite bool_decide_eq_false_2 in Hr by done. apply runs_ret in Hr as [-> _]. split; [|split; [done|]].
    + f_equal. unfold memory_leases, set_leases. cbn. by rewrite fmap_delete.
    + intros k. destruct (Hf k) as [Hb Hrows]. split; [done|]. intros row'. unfold lease_row_of. cbn. intros [_ Hl]%lookup_delete_Some. by apply Hrows.
  - injection Hu as <- <-. rewrite bool_decide_eq_true_2 in Hr by done. run_in Hr. done.
Qed.
End Leases.

(** ** Deleting an idle thread *)
(** Nothing is deleted while the lease is live; an answer without an error says that the
    checkpoints are gone, or that the lease lapsed after the deletion had skipped them. *)
Definition idle_deleted (threadID : string) (db db' : Database) : Prop :=
  (db' = delete_checkpoints threadID db /\ exists now, live_lease now db threadID = None) \/
  (db' = db /\ exists now row now', live_lease now db threadID = Some row /\ live_lease now' db threadID = None).
Lemma delete_if_idle_effects threadID w : effects (pgDeleteIfIdle threadID) w (fun db' _ => idle_deleted threadID (pw_db w) db').
Proof.
  unfold pgDeleteIfIdle. apply effects_transaction. intros db' [] Hr. apply runs_bind in Hr as (db1 & v & ->%lock_runs & Hr).
  apply runs_bind in Hr as (db2 & affected & [now Hd]%runs_statement & Hr). unfold deleteIfIdleSQL in Hd.
  assert (E2 : db' = db2 /\ (affected = 0%nat -> exists now', live_lease now' db2 threadID = None)).
  { guard_in Hr; [|apply runs_ret in Hr as [-> _]; split; [done|]; intros ->; by rewrite bool_decide_eq_false in Hg].
    run_in Hr. subst. split; [done|]. intros _. exists now0. injection Hr0 as E. by destruct (live_lease now0 db2 threadID); cbn in E; subst. }
  destruct E2 as [-> E2]. destruct (live_lease now (pw_db w) threadID) as [row|] eqn:El; cbn in Hd; injection Hd as <- <-.
  - right. split; [done|]. destruct (E2 eq_refl) as [now' E']. by exists now, row, now'.
  - left. split; [done|]. by exists now.
Qed.

Section Fencing.
Context {T E : Type} `{HM : JsonRoundTrip RunMetadata} `{HE : JsonRoundTrip (list E)} `{HJ : JsonColumns} (json_Valid : string -> bool)
  (serializer : StateSerializer T) `{HT : !LawfulThreadColumns (E := E) serializer}
  (interval : Z -> Z) (interval_positive : forall d, (0 < d)%Z -> (0 < interval d)%Z).
Implicit Types (s : Snapshot T E).

(** ** Steps *)
Definition callback_keeps (enqueueFn : option (N -> st (postgres_world * N) (option error))) : Prop :=
  match enqueueFn with Some enqueue => keeps_threads enqueue | None => True end.
Definition snapshot_representable s : Prop := representable (snp_RunMeta s) /\ representable (snp_Effects s).

(** One operation of one client on threads, whatever its statements met; or anything that
    leaves the tables of threads alone. *)
Inductive thread_step : postgres_world -> postgres_world -> Prop :=
| tstep_save w k supplied n s enqueueFn : callback_keeps enqueueFn -> snapshot_representable s ->
    thread_step w (pgSaveWithOutbox json_Valid serializer supplied n s enqueueFn (w, k)).1.1
| tstep_prune w threadID n : thread_step w (pgPrune threadID n w).1
| tstep_delete_if_idle w threadID : thread_step w (pgDeleteIfIdle threadID w).1
| tstep_acquire w threadID owner ttl : thread_step w (AcquireLease interval threadID owner ttl w).1
| tstep_renew w lease ttl : thread_step w (RenewLease interval lease ttl w).1
| tstep_release w lease : thread_step w (ReleaseLease lease w).1
| tstep_other w w' : db_threads (pw_db w') = db_threads (pw_db w) -> thread_step w w'.
Definition thread_reachable (w : postgres_world) : Prop := exists w0, pw_db w0 = empty_database /\ rtc thread_step w0 w.

(** What a step keeps of the tables before it. *)
Record thread_ok (db : Database) : Prop := mk_thread_ok { to_fenced : fenced db; to_stands : exists m, stands_for (E := E) serializer db m }.
Definition fences_grow (db db' : Database) : Prop := forall threadID, (thread_fence db threadID <= thread_fence db' threadID)%N.
Definition thread_next (db db' : Database) : Prop := thread_ok db' /\ fences_grow db db'.

Lemma fences_same db db' : tbl_fences (db_threads db') = tbl_fences (db_threads db) -> fences_grow db db'.
Proof. intros E1 t. unfold thread_fence. by rewrite E1. Qed.
Lemma thread_next_refl db db' : db_threads db' = db_threads db -> thread_ok db -> thread_next db db'.
Proof.
  intros E1 [Hf [m Hm]]. split; [|by apply fences_same; rewrite E1]. split; [eapply fenced_leases; [|done]; by split; rewrite E1|].
  exists m. eapply stands_threads; [|done]. by rewrite E1.
Qed.

Lemma acquired_fence threadID owner ttl db db' lease : fenced db -> acquired_as interval threadID owner ttl db db' lease ->
  lse_ExecutionID lease = threadID /\ lse_Incarnation lease = thread_fence db' threadID /\ thread_fence db' threadID = (thread_fence db threadID + 1)%N /\
  fences_grow db db'.
Proof.
  intros Hf (now & Ha & _ & _ & Hf'). unfold Acquire in Ha. guard_in Ha; [done|]. guard_in Ha; [done|].
  apply bind_Ok in Ha as (u & _ & Ha). guard_in Ha; [done|]. cbv zeta in Ha. apply Ok_pair in Ha as [Elm <-].
  assert (Efs : tbl_fences (db_threads db') = <[threadID := succ_u64 (thread_fence db threadID)]> (tbl_fences (db_threads db))).
  { change (tbl_fences (db_threads db')) with (mlm_fences (memory_leases db')). by rewrite <- Elm. }
  assert (Es : succ_u64 (thread_fence db threadID) = (thread_fence db threadID + 1)%N).
  { apply succ_u64_lt. destruct (Hf threadID) as [Hb _]. unfold max_uint64, max_bigint in *. lia. }
  assert (E1 : forall k, thread_fence db' k = if decide (threadID = k) then (thread_fence db threadID + 1)%N else thread_fence db k).
  { intros k. unfold thread_fence at 1. rewrite Efs, Es. destruct (decide (threadID = k)) as [<-|Hk]; [by rewrite lookup_insert_eq|by rewrite lookup_insert_ne]. }
  split; [done|]. rewrite E1, decide_True by done. split; [exact Es|]. split; [done|].
  intros k. rewrite E1. destruct (decide (threadID = k)) as [<-|]; lia.
Qed.
Lemma renewed_fences lease ttl db db' lease' : renewed_as interval lease ttl db db' lease' -> tbl_fences (db_threads db') = tbl_fences (db_threads db).
Proof.
  intros (now & Ha & _). unfold Renew in Ha. guard_in Ha; [done|]. destruct (mlm_leases _ !! _); [|done]. guard_in Ha; [done|].
  apply Ok_pair in Ha as [Elm _]. change (tbl_fences (db_threads db')) with (mlm_fences (memory_leases db')). by rewrite <- Elm.
Qed.
Lemma released_fences lease db db' : released_as lease db db' -> tbl_fences (db_threads db') = tbl_fences (db_threads db).
Proof.
  intros (Ha & _). change (mlm_fences (memory_leases db') = mlm_fences (memory_leases db)). unfold Release in Ha. guard_in Ha; [done|].
  destruct (mlm_leases _ !! _); [|by apply Ok_eq in Ha as <-]. guard_in Ha; [done|]. by apply Ok_eq in Ha as <-.
Qed.

(** What a save did, as an effect on the tables. *)
Definition saved_as (supplied : option ExecutionLease) (n : N) s (db db' : Database) (r : N) : Prop :=
  committed_save json_Valid serializer supplied n s db db' r.
Lemma save_next supplied n s db db' r : snapshot_representable s -> thread_ok db -> saved_as supplied n s db db' r -> thread_next db db'.
Proof.
  intros [Hm He] [Hf [m Hs]] Hc. destruct (save_stands json_Valid serializer _ _ _ _ _ _ m Hs Hc Hm He) as (m' & _ & Hs' & Hk).
  split; [|by apply fences_same, Hk]. split; [by apply (fenced_leases db)|by exists m'].
Qed.
Lemma save_db supplied n s enqueueFn w k : callback_keeps enqueueFn ->
  let '((w', _), out) := pgSaveWithOutbox json_Valid serializer supplied n s enqueueFn (w, k) in
  (pw_db w' = pw_db w /\ exists e, out = Err e) \/
  exists r, saved_as supplied n s (pw_db w) (pw_db w') r /\
    (out = Ok r \/ exists e, out = Err e /\ errors_Is e ErrTransactionalHandoffCommitFailed = true).
Proof.
  intros Hk. pose proof (save_cases json_Valid serializer supplied n s enqueueFn w k Hk) as Hc.
  destruct (pgSaveWithOutbox _ _ _ _ _ _ _) as [[w' k'] [r|e]]; [right; exists r; by split; [|left]|].
  destruct Hc as [Hc|[He [r Hc]]]; [left; split; [done|by exists e]|right]. exists r. split; [done|]. right. by exists e.
Qed.

Lemma thread_step_next w w' : thread_step w w' -> thread_ok (pw_db w) -> thread_next (pw_db w) (pw_db w').
Proof.
  intros Hstep Hok. pose proof (thread_next_refl (pw_db w) (pw_db w) eq_refl Hok) as Hrefl. pose proof Hok as [Hf [m Hs]].
  destruct Hstep as [w k supplied n s enqueueFn Hk Hr|w threadID n|w threadID|w threadID owner ttl|w lease ttl|w lease|w w' E1].
  - pose proof (save_db supplied n s enqueueFn w k Hk) as Hd. destruct (pgSaveWithOutbox _ _ _ _ _ _ _) as [[w' k'] out]. cbn [fst].
    destruct Hd as [[-> _]|(r & Hd & _)]; [done|]. by eapply save_next.
  - apply (effects_step _ _ _ (thread_next (pw_db w)) (prune_effects serializer threadID n w m Hs) Hrefl). intros db' [] [Hp Hl].
    split; [|by apply fences_same, Hl]. split; [by apply (fenced_leases (pw_db w))|by eexists].
  - apply (effects_step _ _ _ (thread_next (pw_db w)) (delete_if_idle_effects threadID w) Hrefl). intros db' [] [[-> _]|[-> _]]; [|done].
    split; [|by apply fences_same]. split; [by apply (fenced_leases (pw_db w))|exists (delete threadID m); by apply delete_stands].
  - apply (effects_step _ _ _ (thread_next (pw_db w)) (acquire_lease_effects interval interval_positive threadID owner ttl w Hf) Hrefl).
    intros db' lease Ha. destruct (acquired_fence _ _ _ _ _ _ Hf Ha) as (_ & _ & _ & Hg). destruct Ha as (now & _ & _ & Hc & Hf').
    split; [|done]. split; [done|]. exists m. by eapply stands_threads.
  - apply (effects_step _ _ _ (thread_next (pw_db w)) (renew_lease_effects interval interval_positive lease ttl w Hf) Hrefl).
    intros db' lease' Ha. pose proof (renewed_fences _ _ _ _ _ Ha) as Hg. destruct Ha as (now & _ & Hc & Hf').
    split; [|by apply fences_same]. split; [done|]. exists m. by eapply stands_threads.
  - apply (effects_step _ _ _ (thread_next (pw_db w)) (release_lease_effects lease w Hf) Hrefl).
    intros db' [] Ha. pose proof (released_fences _ _ _ Ha) as Hg. destruct Ha as (_ & Hc & Hf').
    split; [|by apply fences_same]. split; [done|]. exists m. by eapply stands_threads.
  - by apply thread_next_refl.
Qed.
Lemma thread_steps_next w w' : rtc thread_step w w' -> thread_ok (pw_db w) -> thread_next (pw_db w) (pw_db w').
Proof.
  intros Hs. induction Hs as [w|w1 w2 w3 H1 _ IH]; intros Hok; [by apply thread_next_refl|].
  destruct (thread_step_next _ _ H1 Hok) as [Hok2 Hg2]. destruct (IH Hok2) as [Hok3 Hg3]. split; [done|]. intros t. specialize (Hg2 t). specialize (Hg3 t). lia.
Qed.
Lemma reachable_thread_ok w : thread_reachable w -> thread_ok (pw_db w).
Proof.
  intros (w0 & E0 & Hs). apply (thread_steps_next _ _ Hs). rewrite E0. split; [by apply fenced_empty|]. eexists. by apply stands_empty.
Qed.

Lemma acquired_ok threadID owner ttl w w' lease : thread_ok (pw_db w) -> AcquireLease interval threadID owner ttl w = (w', Ok lease) ->
  thread_next (pw_db w) (pw_db w') /\ lse_ExecutionID lease = threadID /\ lse_Incarnation lease = thread_fence (pw_db w') threadID /\
  thread_fence (pw_db w') threadID = (thread_fence (pw_db w) threadID + 1)%N.
Proof.
  intros Hok Ha. pose proof (thread_step_next _ _ (tstep_acquire w threadID owner ttl) Hok) as Hn.
  pose proof (acquire_lease_effects interval interval_positive threadID owner ttl w (to_fenced _ Hok)) as Hd. unfold effects in Hd. rewrite Ha in Hd, Hn.
  destruct (acquired_fence _ _ _ _ _ _ (to_fenced _ Hok) Hd) as (H1 & H2 & H3 & _). done.
Qed.

(** ** Superseded leases *)
Definition superseded (lease : ExecutionLease) (db : Database) : Prop := (lse_Incarnation lease < thread_fence db (lse_ExecutionID lease))%N.

Lemma superseded_row lease db row : fenced db -> superseded lease db -> lease_row_of db (lse_ExecutionID lease) = Some row ->
  lsr_incarnation row <> lse_Incarnation lease.
Proof. intros Hf Hs Hr. destruct (Hf (lse_ExecutionID lease)) as [_ Hrow]. destruct (Hrow _ Hr) as [-> _]. unfold superseded in Hs. lia. Qed.
Lemma superseded_write lease threadID db : fenced db -> superseded lease db -> ~ admitted (Some lease) threadID db.
Proof.
  intros Hf Hs [Hl [now Ha]]. unfold lease_handle in Hl. apply negb_true_iff in Hl. repeat apply orb_false_iff in Hl as [Hl _].
  apply negb_false_iff, bool_decide_eq_true in Hl as <-. unfold write_allowed in Ha. destruct (live_lease now db _) as [row|] eqn:El; [|done].
  apply live_Some in El as [El _]. unfold handle_of in Ha. apply andb_true_iff in Ha as [_ Ha%bool_decide_eq_true]. by apply (superseded_row _ _ _ Hf Hs El).
Qed.
Lemma superseded_save lease n s enqueueFn w k : fenced (pw_db w) -> superseded lease (pw_db w) -> callback_keeps enqueueFn ->
  exists w' k' e, pgSaveWithOutbox json_Valid serializer (Some lease) n s enqueueFn (w, k) = ((w', k'), Err e) /\ pw_db w' = pw_db w.
Proof.
  intros Hf Hs Hk. pose proof (save_db (Some lease) n s enqueueFn w k Hk) as Hd. destruct (pgSaveWithOutbox _ _ _ _ _ _ _) as [[w' k'] out].
  destruct Hd as [[Hd [e ->]]|(r & [Hn (now & stored & db1 & _ & Ho & E1) Ha] & _)]; [by exists w', k', e|].
  destruct (superseded_write lease (snp_ThreadID s) (pw_db w)); [done..|]. eapply admitted_threads; [|exact Ha].
  destruct (saveOcc_inserted _ _ _ _ _ Hn Ho) as (_ & _ & p & q & e & _ & _ & _ & ->). by rewrite E1.
Qed.
Lemma superseded_renew lease ttl w : fenced (pw_db w) -> superseded lease (pw_db w) ->
  exists w' e, RenewLease interval lease ttl w = (w', Err e) /\ pw_db w' = pw_db w.
Proof.
  intros Hf Hs. pose proof (renew_lease_effects interval interval_positive lease ttl w Hf) as Hd. unfold effects in Hd.
  assert (Hn : forall db' lease', ~ renewed_as interval lease ttl (pw_db w) db' lease').
  { intros db' lease' (now & Ha & _). unfold Renew in Ha. guard_in Ha; [done|]. rewrite memory_leases_lookup in Ha.
    destruct (lease_row_of (pw_db w) (lse_ExecutionID lease)) as [row|] eqn:Er; [|done]. cbn [fmap option_fmap option_map] in Ha.
    rewrite (bool_decide_eq_false_2 (lr_incarnation _ = _)) in Ha by exact (superseded_row _ _ _ Hf Hs Er). by rewrite orb_true_r in Ha. }
  destruct (RenewLease _ _ _ w) as [w' [lease'|e]]; [by destruct (Hn _ _ Hd)|]. exists w', e. split; [done|].
  destruct Hd as [?|[lease' Hd]]; [done|by destruct (Hn _ _ Hd)].
Qed.
Lemma superseded_release lease w : fenced (pw_db w) -> superseded lease (pw_db w) ->
  tbl_leases (db_threads (pw_db (ReleaseLease lease w).1)) = tbl_leases (db_threads (pw_db w)).
Proof.
  intros Hf Hs. apply (effects_step _ _ _ (fun db' => tbl_leases (db_threads db') = tbl_leases (db_threads (pw_db w))) (release_lease_effects lease w Hf)); [done|].
  intros db' [] (Ha & _). unfold Release in Ha. guard_in Ha; [done|]. rewrite memory_leases_lookup in Ha.
  destruct (lease_row_of (pw_db w) (lse_ExecutionID lease)) as [row|] eqn:Er; cbn [fmap option_fmap option_map] in Ha.
  - rewrite (bool_decide_eq_false_2 (lr_incarnation _ = _)) in Ha by exact (superseded_row _ _ _ Hf Hs Er). by rewrite orb_true_r in Ha.
  - apply Ok_eq in Ha. apply (f_equal mlm_leases) in Ha. cbn in Ha. apply map_eq. intros k. apply (f_equal (lookup k)) in Ha. rewrite !lookup_fmap in Ha.
    destruct (tbl_leases (db_threads (pw_db w)) !! k) as [[]|], (tbl_leases (db_threads db') !! k) as [[]|]; cbn in Ha; by simplify_eq.
Qed.

(** C10: a lease that a later acquisition followed is fenced out. Over every schedule of
    saves, retention, deletions and lease operations of any clients, with failing statements
    and lost acknowledgements, a successful acquisition carries a greater incarnation than
    every earlier one of its thread, and from then on the earlier handle saves no checkpoint
    of any thread and runs no outbox transaction to a commit (the tables, the writes of the
    callback among them, are as they were), renews nothing, and releases no lease. *)
Theorem superseded_lease_fenced w0 w1 w2 w3 w4 threadID owner1 owner2 ttl1 ttl2 lease1 lease2 :
  thread_reachable w0 -> AcquireLease interval threadID owner1 ttl1 w0 = (w1, Ok lease1) ->
  rtc thread_step w1 w2 -> AcquireLease interval threadID owner2 ttl2 w2 = (w3, Ok lease2) -> rtc thread_step w3 w4 ->
  (lse_Incarnation lease1 < lse_Incarnation lease2)%N /\
  (forall n s enqueueFn k, callback_keeps enqueueFn ->
     exists w' k' e, pgSaveWithOutbox json_Valid serializer (Some lease1) n s enqueueFn (w4, k) = ((w', k'), Err e) /\ pw_db w' = pw_db w4) /\
  (forall ttl, exists w' e, RenewLease interval lease1 ttl w4 = (w', Err e) /\ pw_db w' = pw_db w4) /\
  tbl_leases (db_threads (pw_db (ReleaseLease lease1 w4).1)) = tbl_leases (db_threads (pw_db w4)).
Proof.
  intros Hr0%reachable_thread_ok Ha1 H12 Ha2 H34.
  destruct (acquired_ok _ _ _ _ _ _ Hr0 Ha1) as ([Hr1 _] & Ed1 & Ef1 & _). destruct (thread_steps_next _ _ H12 Hr1) as [Hr2 Hg2].
  destruct (acquired_ok _ _ _ _ _ _ Hr2 Ha2) as ([Hr3 _] & _ & Ef2 & E2). destruct (thread_steps_next _ _ H34 Hr3) as [Hr4 Hg4].
  specialize (Hg2 threadID). specialize (Hg4 threadID). assert (Hlt : (lse_Incarnation lease1 < lse_Incarnation lease2)%N) by lia.
  assert (Hs : superseded lease1 (pw_db w4)) by (unfold superseded; rewrite Ed1; lia). pose proof (to_fenced _ Hr4) as Hf. split; [done|].
  split; [intros n s enqueueFn k Hk; by apply superseded_save|]. split; [intros ttl; by apply superseded_renew|by apply superseded_release].
Qed.

(** C11: the PostgreSQL checkpointer and lease manager refine the in-memory ones, but for the
    deletion of an idle thread. In every reachable database the fences bound the leases and the
    rows stand for a history of the in-memory checkpointer [m]; what that checkpointer loads or
    lists is loaded and listed, unless the statement fails; a save of a representable snapshot
    that succeeds is accepted there with the same answer, is admitted by the fence at the end of
    its transaction and leaves the rows standing for the history after it, and one that fails
    changed nothing at all, the writes of its callback included, unless the commit itself
    failed; pruning removes what it removes there; and acquiring, renewing and releasing a lease
    do what the in-process manager does at the clock of the server. [DeleteIfIdle] deletes only
    a thread without a live lease; it also answers success with nothing deleted when the lease
    it found live lapses before its second statement, which the in-memory guard never does. *)
Theorem postgres_threads_refine w : thread_reachable w -> let db := pw_db w in
  fenced db /\ exists m, stands_for (E := E) serializer db m /\
  (forall threadID, pgLoad serializer threadID w = (next_tick w, match pw_fault w (pw_tick w) with
     | Some f => Err (ErrWrap "postgres checkpoint scan: %w" [] (fault_error f))
     | None => match (memoryLoad threadID m).2 with Ok a => Ok a | Err err => Err (ErrJoin err (ErrHost "checkpoint: no snapshot")) end end)) /\
  (forall threadID limit, (len (memory_items m threadID) <= 2147483647)%Z ->
     pgGetHistory serializer threadID limit w = (next_tick w, match pw_fault w (pw_tick w) with
     | Some f => Err (fault_error f) | None => Ok (memoryGetHistory threadID limit m).2 end)) /\
  (forall supplied n s enqueueFn k, callback_keeps enqueueFn -> snapshot_representable s ->
     let '((w', _), out) := pgSaveWithOutbox json_Valid serializer supplied n s enqueueFn (w, k) in
     (pw_db w' = db /\ exists e, out = Err e) \/
     exists m' r, memorySave n s m = (m', Ok r) /\ stands_for (E := E) serializer (pw_db w') m' /\ keeps_leases db (pw_db w') /\
       admitted supplied (snp_ThreadID s) (pw_db w') /\ (out = Ok r \/ exists e, out = Err e /\ errors_Is e ErrTransactionalHandoffCommitFailed = true)) /\
  (forall threadID n, effects (pgPrune threadID n) w (fun db' _ => pruned_as serializer threadID n m db db')) /\
  (forall threadID, effects (pgDeleteIfIdle threadID) w (fun db' _ => idle_deleted threadID db db' /\
     (stands_for (E := E) serializer db' m \/ stands_for (E := E) serializer db' (memoryDelete threadID m).1))) /\
  (forall threadID owner ttl, effects (AcquireLease interval threadID owner ttl) w (acquired_as interval threadID owner ttl db)) /\
  (forall lease ttl, effects (RenewLease interval lease ttl) w (renewed_as interval lease ttl db)) /\
  (forall lease, effects (ReleaseLease lease) w (fun db' _ => released_as lease db db')).
Proof.
  intros [Hf [m Hs]]%reachable_thread_ok. split; [done|]. exists m. split; [done|]. split; [intros; by apply load_exact|].
  split; [intros; by apply history_exact|]. split; [|split; [intros; by apply prune_effects|split; [|split; [intros; by apply acquire_lease_effects|
    split; [intros; by apply renew_lease_effects|intros; by apply release_lease_effects]]]]].
  - intros supplied n s enqueueFn k Hk [Hm He]. pose proof (save_db supplied n s enqueueFn w k Hk) as Hd. destruct (pgSaveWithOutbox _ _ _ _ _ _ _) as [[w' k'] out].
    destruct Hd as [Hd|(r & Hc & Ho)]; [by left|right]. destruct (save_stands json_Valid serializer _ _ _ _ _ _ m Hs Hc Hm He) as (m' & Hsv & Hs' & Hk').
    exists m', r. split; [done|]. split; [done|]. split; [done|]. split; [by apply Hc|done].
  - intros threadID. eapply effects_mono; [apply delete_if_idle_effects|]. intros db' [] Hd. split; [done|].
    destruct Hd as [[-> _]|[-> _]]; [right; by apply delete_stands|by left].
Qed.
End Fencing.
