(* ===== verification/RecordExample.v ===== *)
(** * A record and a plan

    A snapshot stored and read with the codec of Wire.v, and a child plan projected from a
    number. *)

From S2P Require Import Prelude Go Sha256 Json Identity Schedule Activity Waits Contract Wire WireRecords Children Aggregate Runtime Session ActivityCall Checkpointer Graph Handoff MemoryCheckpointer Compose CheckpointRecord.

Definition numbers : StateSerializer N := mkSerializer N (fun n => Ok (put n)) (fun s => match get s with Some (n, "") => Ok n | _ => Err (ErrHost "number") end).
Definition snapshot_x : Snapshot N N := mkSnapshot "thread" "node" 3 7%N zeroRunMetadata [1%N; 2%N].
Definition record_x : Record := match EncodeRecord (fun _ => true) time_zero snapshot_x (Some numbers) with Ok r => r | Err _ => mkRecord "" 0 "" "" "" "" time_zero end.

Lemma checkpoint_record_roundtrip_witness : DecodeRecord record_x (Some numbers) (mkDecodeOptions "thread" 3 "") = Ok snapshot_x.
Proof.
  destruct (checkpoint_record_roundtrip (fun _ => true) time_zero snapshot_x numbers record_x (mkDecodeOptions "thread" 3 "")) as (_ & Hd & _).
  - vm_compute. reflexivity.
  - intros b [= <-]. vm_compute. reflexivity.
  - exact I.
  - exact I.
  - apply Hd. split; [by right|]. split; [by right|by left].
Defined.
