(* ===== verification/PostgresThreadsExample.v ===== *)
(** * Threads over a closed server

    The refinement and the fencing of PostgresFences.v on concrete tables, over the server of
    PostgresExample.v that keeps the text it is given; and a deletion that reports success
    and deletes nothing. *)

From stdpp Require Import relations.
From S2P Require Import Prelude Go Sha256 Json Identity Schedule Activity Waits Contract Children Wire WireRecords Aggregate Runtime Session ActivityCall Checkpointer Graph Handoff MemoryCheckpointer Compose CheckpointRecord RecordExample Store StoreExample Postgres PostgresInv PostgresExample PostgresThreads PostgresThreadsInv PostgresFences.

#[local] Opaque sha256_hex.

Definition exact_interval (micros : Z) : Z := (micros * microsecond)%Z.
Lemma exact_interval_positive d : (0 < d)%Z -> (0 < exact_interval d)%Z.
Proof. unfold exact_interval, microsecond. lia. Qed.
Definition any_text (s : string) : bool := true.

Lemma numbers_read (n : N) b : Marshal numbers n = Ok b -> Unmarshal numbers b = Ok n.
Proof. intros [= <-]. pose proof (get_put n "") as Hg. rewrite app_str_nil in Hg. unfold numbers. cbn [Unmarshal]. cbn [put wire_N] in Hg. by rewrite Hg. Qed.
#[export] Instance text_threads : LawfulThreadColumns (E := N) numbers.
Proof.
  constructor.
  - intros t p. cbn. destruct (String.eqb_spec t ""); [done|by intros [= <-]].
  - intros t p. cbn [to_jsonb text_columns]. destruct (String.eqb_spec t ""); [done|by intros [= <-]].
  - intros t p. cbn [to_jsonb text_columns]. destruct (String.eqb_spec t ""); [done|by intros [= <-]].
  - intros t p. cbn [to_jsonb text_columns]. destruct (String.eqb_spec t ""); [done|by intros [= <-]].
  - exact numbers_read.
Defined.

(** The clock of the server gains a second at each statement. *)
Definition ticking (w : postgres_world) : postgres_world := w <| pw_clock := fun n => at_second (Z.of_nat n) |>.
Definition thread_world : postgres_world := ticking server_world.
Definition first_snapshot : Snapshot N N := mkSnapshot "thread" "node" 0 7%N zeroRunMetadata [].
Notation save_in supplied n s w := (pgSaveWithOutbox any_text numbers supplied n s None (w, 0%N)).
Definition saved_world : postgres_world := (save_in None 0%N first_snapshot thread_world).1.1.
Definition stored_snapshot : Snapshot N N := first_snapshot <| snp_Revision := 1%N |>.
Definition at_tick (n : nat) (w : postgres_world) : postgres_world := w <| pw_tick := n |>.

(** Owner "a" takes the thread for three seconds; twenty statements later "b" takes it. *)
Notation acquire owner ttl := (AcquireLease exact_interval "thread" owner ttl).
Definition held_world : postgres_world := (acquire "a" 3000000000%Z saved_world).1.
Definition lapsed_world : postgres_world := at_tick 20 held_world.
Definition taken_world : postgres_world := (acquire "b" 5000000000%Z lapsed_world).1.
Definition lease_a : ExecutionLease := mkLease "thread" "a" 1 (at_second 12).
Definition lease_b : ExecutionLease := mkLease "thread" "b" 2 (at_second 27).

Lemma first_saved : (save_in None 0%N first_snapshot thread_world).2 = Ok 1%N.
Proof. vm_compute. reflexivity. Qed.
Lemma returned {A} (out : postgres_world * res A) r : out.2 = r -> out = (out.1, r).
Proof. destruct out. by intros <-. Qed.
Lemma a_acquires : acquire "a" 3000000000%Z saved_world = (held_world, Ok lease_a).
Proof. unfold held_world. apply returned. vm_compute. reflexivity. Qed.
Lemma b_acquires : acquire "b" 5000000000%Z lapsed_world = (taken_world, Ok lease_b).
Proof. unfold taken_world. apply returned. vm_compute. reflexivity. Qed.

Notation steps := (thread_step (E := N) any_text numbers exact_interval).
Lemma saved_world_reachable : thread_reachable (E := N) any_text numbers exact_interval saved_world.
Proof.
  exact (ex_intro _ thread_world (conj eq_refl (rtc_once _ _ (tstep_save any_text numbers exact_interval thread_world 0 None 0 first_snapshot None I (conj I I))))).
Qed.
Lemma time_passes : rtc steps held_world lapsed_world.
Proof. apply rtc_once. by apply tstep_other. Qed.

(** After "b" took the thread, the handle of "a" saves nothing. *)
Lemma superseded_lease_fenced_witness : (lse_Incarnation lease_a < lse_Incarnation lease_b)%N /\
  exists w' k' e, save_in (Some lease_a) 1%N first_snapshot taken_world = ((w', k'), Err e) /\ pw_db w' = pw_db taken_world.
Proof.
  destruct (superseded_lease_fenced (E := N) any_text numbers exact_interval exact_interval_positive saved_world held_world lapsed_world taken_world taken_world
    "thread" "a" "b" 3000000000 5000000000 lease_a lease_b saved_world_reachable a_acquires time_passes b_acquires (rtc_refl _ _)) as (Hlt & Hsave & _).
  split; [exact Hlt|]. exact (Hsave 1%N first_snapshot None 0%N I).
Defined.

(** The rows after one save stand for a history whose latest snapshot is the one saved. *)
Lemma postgres_threads_refine_witness : (pgLoad numbers "thread" saved_world).2 = Ok (stored_snapshot, 1%N) /\
  exists m, stands_for (E := N) numbers (pw_db saved_world) m /\ (memoryLoad "thread" m).2 = Ok (stored_snapshot, 1%N).
Proof.
  assert (Hl : (pgLoad numbers "thread" saved_world).2 = Ok (stored_snapshot, 1%N)) by (vm_compute; reflexivity).
  split; [exact Hl|]. destruct (postgres_threads_refine (E := N) any_text numbers exact_interval exact_interval_positive saved_world saved_world_reachable)
    as (_ & m & Hs & Hload & _).
  exists m. split; [exact Hs|]. rewrite (Hload "thread") in Hl. cbn [snd] in Hl. change (pw_fault saved_world (pw_tick saved_world)) with (@None fault) in Hl.
  cbv iota in Hl. destruct ((memoryLoad "thread" m).2) as [a|e]; [exact Hl|discriminate Hl].
Defined.

(** The lease of "a" lapses after the deletion has skipped its thread and before the question
    whether it is held: the answer is success, and the checkpoint is still there. *)
Lemma idle_thread_kept : (pgDeleteIfIdle "thread" (at_tick 9 held_world)).2 = Ok tt /\
  (pgLoad (E := N) numbers "thread" (pgDeleteIfIdle "thread" (at_tick 9 held_world)).1).2 = Ok (stored_snapshot, 1%N).
Proof. vm_compute. split; reflexivity. Qed.
