(* ===== verification/TypedChildren.v ===== *)
(** * Typed children

    child_typed.go and the entry point of child_join.go: child plans projected from a typed
    parent, dispatchers, outcomes and joins with host codecs. Host functions run in the
    session; the copies the source makes of byte slices are the values themselves. Codecs and
    host functions are there: the source refuses nil ones with [ErrChildInvalid]. *)

From S2P Require Import Prelude Go Sha256 Json Identity Schedule Activity Waits Contract Children Aggregate Runtime Session ActivityCall Checkpointer.

(** [ErrChildCodec] *)
Definition ErrChildCodec : error := ErrHost "flowy: child codec failure".
Definition codecError {A} (r : res A) : res A := match r with Ok a => Ok a | Err err => Err (ErrJoin ErrChildCodec err) end.

Record ChildProjectionSpec := mkProjection { prj_ID : string; prj_Allocation : gmap string Z }.

Fixpoint projectionLoop (seen : gset string) (specs : list ChildProjectionSpec) : option error :=
  match specs with
  | [] => None
  | spec :: rest =>
      if (prj_ID spec == "") || negb (validRuntimeText [prj_ID spec]) || negb (validChildCapacity (prj_Allocation spec)) then Some (ErrChildInvalid : error)
      else if bool_decide (prj_ID spec ∈ seen) then Some (ErrChildDuplicate : error)
      else projectionLoop ({[prj_ID spec]} ∪ seen) rest
  end.
Definition validateChildProjectionSpecs (specs : list ChildProjectionSpec) : option error := projectionLoop ∅ specs.

Record TypedChildInvocation (I : Type) := mkTypedInvocation { tin_Runtime : ChildInvocation; tin_Input : I }.
Arguments mkTypedInvocation {I} _ _.
Arguments tin_Runtime {I} _.
Arguments tin_Input {I} _.
Record TypedChildResult (O : Type) := mkTypedResult { trs_State : ChildState; trs_Result : O; trs_Error : string; trs_WaitID : string }.
Arguments mkTypedResult {O} _ _ _ _.
Arguments trs_State {O} _.
Arguments trs_Result {O} _.
Arguments trs_Error {O} _.
Arguments trs_WaitID {O} _.
(** [HasResult] is [Result] being there; without it the field holds the zero value. *)
Record TypedChildOutcome (O : Type) := mkTypedOutcome {
  toc_ID : string;
  toc_ExecutionID : string;
  toc_Revision : N;
  toc_State : ChildState;
  toc_Result : option O;
  toc_Error : string;
  toc_WaitID : string;
  toc_CancelRequested : bool;
  toc_CancelConfirmed : bool;
}.
Arguments mkTypedOutcome {O} _ _ _ _ _ _ _ _ _.
Arguments toc_ID {O} _.
Arguments toc_ExecutionID {O} _.
Arguments toc_Revision {O} _.
Arguments toc_State {O} _.
Arguments toc_Result {O} _.
Arguments toc_Error {O} _.
Arguments toc_WaitID {O} _.

Section Typed.
Context {W : Type} `{Codecs} `{ExecutionStore W}.
Notation checkCtx := (fun c : executionCheckpointer W => (c, check (ctx_Err (ckp_world c)))).

Section Projection.
Context {P I : Type} (parentCodec : StateSerializer P) (inputCodec : StateSerializer I) (project : P -> string -> act W I).

Fixpoint projectLoop (encoded : string) (specs : list ChildProjectionSpec) (result : list ChildSpec) : act W (list ChildSpec) :=
  match specs with
  | [] => do! checkCtx in ret result
  | spec :: rest =>
      do! checkCtx in
      let! copyParent := lift (codecError (Unmarshal parentCodec encoded)) in
      let! input := project copyParent (prj_ID spec) in
      let! payload := lift (codecError (Marshal inputCodec input)) in
      projectLoop encoded rest (result ++ [mkChildSpec (prj_ID spec) payload (prj_Allocation spec)])
  end.
Definition ProjectChildSpecs (parent : P) (specs : list ChildProjectionSpec) : act W (list ChildSpec) :=
  if len specs == 0%Z then throw ErrChildInvalid
  else
    do! lift (check (validateChildProjectionSpecs specs)) in
    let! encoded := lift (codecError (Marshal parentCodec parent)) in
    projectLoop encoded specs [].
End Projection.

Definition TypedChildDispatcher {I O} (inputCodec : StateSerializer I) (resultCodec : StateSerializer O)
    (worker : TypedChildInvocation I -> act W (TypedChildResult O)) (invocation : ChildInvocation) : act W ChildResult :=
  let! input := lift (codecError (Unmarshal inputCodec (inv_Input invocation))) in
  do! checkCtx in
  let! outcome := worker (mkTypedInvocation invocation input) in
  if negb (validChildResultState (trs_State outcome)) then throw ErrChildInvalid
  else
    let! payload := lift (codecError (Marshal resultCodec (trs_Result outcome))) in
    ret (mkChildResult (trs_State outcome) payload (trs_Error outcome) (trs_WaitID outcome)).

Definition decodeTypedChild {O} (codec : StateSerializer O) (child : ChildRecord) : res (TypedChildOutcome O) :=
  result ← (if (chd_State child == ChildCompleted) || (chd_Result child != "")
            then decoded ← codecError (Unmarshal codec (chd_Result child)); Ok (Some decoded)
            else Ok None);
  Ok (mkTypedOutcome (csp_ID (chd_Spec child)) (chd_ExecutionID child) (chd_Revision child) (chd_State child) result (chd_Error child)
        (chd_WaitID child) (chd_CancelRequested child) (chd_CancelConfirmed child)).
Fixpoint decodeTypedChildRecords {O} (children : list ChildRecord) (codec : StateSerializer O) : res (list (TypedChildOutcome O)) :=
  match children with
  | [] => Ok []
  | child :: rest => outcome ← decodeTypedChild codec child; outcomes ← decodeTypedChildRecords rest codec; Ok (outcome :: outcomes)
  end.
Definition DecodeChildOutcomes {O} (group : ChildGroupRecord) (codec : StateSerializer O) : res (list (TypedChildOutcome O)) :=
  if negb (is_nil (validateChildGroup group)) then Err ErrChildInvalid else decodeTypedChildRecords (grp_Children group) codec.

(** [JoinChildren] within a session, which is its child backend. *)
Definition JoinChildren (group : ChildGroupRecord) (merge : list ChildRecord -> act W string) : act W string :=
  if negb (validChildGroupText group) then throw ErrChildInvalid else joinChildren group merge.

Definition typedMerge {O R} (outcomeCodec : StateSerializer O) (mergedCodec : StateSerializer R) (merge : list (TypedChildOutcome O) -> act W R)
    (children : list ChildRecord) : act W string :=
  let! outcomes := lift (decodeTypedChildRecords children outcomeCodec) in
  let! result := merge outcomes in
  lift (codecError (Marshal mergedCodec result)).
Definition JoinTypedChildren {O R} (group : ChildGroupRecord) (outcomeCodec : StateSerializer O) (mergedCodec : StateSerializer R)
    (merge : list (TypedChildOutcome O) -> act W R) : act W R :=
  let! payload := JoinChildren group (typedMerge outcomeCodec mergedCodec merge) in
  lift (codecError (Unmarshal mergedCodec payload)).

(** ** Projections *)
Lemma projectLoop_Ok {P I} (parentCodec : StateSerializer P) (inputCodec : StateSerializer I) (f : P -> string -> I) encoded parent specs acc c c' result :
  Unmarshal parentCodec encoded = Ok parent ->
  projectLoop parentCodec inputCodec (fun p id => ret (f p id)) encoded specs acc c = (c', Ok result) ->
  c' = c /\ exists new, result = acc ++ new /\
    Forall2 (fun spec child => csp_ID child = prj_ID spec /\ csp_Allocation child = prj_Allocation spec /\
                               Marshal inputCodec (f parent (prj_ID spec)) = Ok (csp_Input child)) specs new.
Proof.
  intros Hp. revert acc. induction specs as [|spec specs IH]; intros acc; cbn [projectLoop]; unfold bind, lift, ret.
  - destruct (ctx_Err (ckp_world c)); [done|]. intros [= <- <-]. split; [done|]. exists []. by rewrite app_nil_r.
  - destruct (ctx_Err (ckp_world c)); [done|]. cbn. rewrite Hp. cbn. destruct (Marshal inputCodec _) as [payload|] eqn:Em; [|done]. cbn.
    intros Hl. apply IH in Hl as (-> & new & -> & Hf). split; [done|]. eexists. rewrite <- app_assoc. split; [done|]. by constructor.
Qed.

Lemma projection_ids seen specs : projectionLoop seen specs = None -> NoDup (map prj_ID specs) /\ forall s, s ∈ specs -> prj_ID s ∉ seen /\ prj_ID s <> "".
Proof.
  revert seen. induction specs as [|spec specs IH]; intros seen; cbn; [split; [constructor|set_solver]|].
  destruct (_ || _ || _) eqn:Ev; [done|]. destruct (bool_decide (prj_ID spec ∈ seen)) eqn:Hs; [done|]. apply bool_decide_eq_false in Hs. intros Hl. apply IH in Hl as [H1 H2].
  rewrite !orb_false_iff, bool_decide_eq_false in Ev. destruct Ev as [[Hne _] _]. split.
  - constructor; [|done]. intros Hin. apply list_elem_of_fmap in Hin as (s & Heq & Hin). destruct (H2 _ Hin) as [Hn _]. apply Hn. rewrite Heq. set_solver.
  - intros s [->|Hin]%elem_of_cons; [done|]. destruct (H2 _ Hin) as [Hn ?]. split; [set_solver|done].
Qed.

(** A child plan is the projection of one parent. For a pure projection and a parent codec
    that round trips, the children planned are those of the specifications in their order,
    with distinct nonempty identities and the allocations given, and the input of each is the
    encoding of the projection of the very same parent; planning changes nothing. *)
Theorem projected_children {P I} (parentCodec : StateSerializer P) (inputCodec : StateSerializer I) (f : P -> string -> I) parent specs c c' result :
  (forall b, Marshal parentCodec parent = Ok b -> Unmarshal parentCodec b = Ok parent) ->
  ProjectChildSpecs parentCodec inputCodec (fun p id => ret (f p id)) parent specs c = (c', Ok result) ->
  c' = c /\ result <> [] /\ NoDup (map csp_ID result) /\
  Forall2 (fun spec child => csp_ID child = prj_ID spec /\ csp_ID child <> "" /\ csp_Allocation child = prj_Allocation spec /\
                             Marshal inputCodec (f parent (prj_ID spec)) = Ok (csp_Input child)) specs result.
Proof.
  intros Hcodec Hp. unfold ProjectChildSpecs in Hp. destruct specs as [|spec0 specs0] eqn:Es; [done|]. change (len (spec0 :: specs0) == 0%Z) with false in Hp.
  cbv iota in Hp.  rewrite <- Es in *. assert (Hne : specs <> []) by by subst. clear Es spec0 specs0. unfold bind, lift in Hp.
  destruct (validateChildProjectionSpecs specs) as [|] eqn:Ev; [done|]. cbn in Hp. destruct (Marshal parentCodec parent) as [b|] eqn:Em; [|done].
  cbn in Hp. eapply projectLoop_Ok in Hp as (-> & new & -> & Hf); [|by apply Hcodec]. rewrite app_nil_l. apply projection_ids in Ev as [Hnd Hids].
  assert (Hsame : map csp_ID new = map prj_ID specs) by (clear -Hf; induction Hf as [|? ? ? ? (? & ? & ?)]; [done|]; cbn; congruence).
  split; [done|]. split; [intros ->; by inversion Hf; subst|]. split; [by rewrite Hsame|].
  apply Forall2_same_length_lookup in Hf as [Hlen Hf]. apply Forall2_same_length_lookup. split; [done|].
  intros i spec child Hs Hc. destruct (Hf i _ _ Hs Hc) as (H1 & H2 & H3). split_and!; try done. rewrite H1.
  apply Hids. by apply list_elem_of_lookup_2 with i.
Qed.

(** ** Joins *)
Lemma decode_aligned {O} (codec : StateSerializer O) children outcomes : decodeTypedChildRecords children codec = Ok outcomes ->
  Forall2 (fun child outcome => toc_ID outcome = csp_ID (chd_Spec child) /\ toc_ExecutionID outcome = chd_ExecutionID child /\
                                toc_Revision outcome = chd_Revision child /\ toc_State outcome = chd_State child /\
                                (chd_State child = ChildCompleted -> is_Some (toc_Result outcome)) /\
                                (forall r, toc_Result outcome = Some r -> Unmarshal codec (chd_Result child) = Ok r)) children outcomes.
Proof.
  revert outcomes. induction children as [|child children IH]; intros outcomes; cbn; [intros [= <-]; constructor|].
  unfold decodeTypedChild. destruct (_ || _) eqn:Er; cbn.
  - destruct (Unmarshal codec (chd_Result child)) as [r|] eqn:Eu; [|done]. cbn. destruct (decodeTypedChildRecords children codec); [|done].
    intros [= <-]. constructor; [|by apply IH]. split_and!; try done. intros r' [= <-]. done.
  - destruct (decodeTypedChildRecords children codec); [|done]. intros [= <-]. constructor; [|by apply IH]. split_and!; try done.
    intros Hc. by rewrite Hc in Er.
Qed.

(** A join that was committed is read back: neither the merge nor the store is used. *)
Lemma joined_is_replayed {O R} (outcomeCodec : StateSerializer O) (mergedCodec : StateSerializer R) merge group groups stored c :
  validChildGroupText group = true -> executionChildGroups (ckp_envelope c) = Ok groups ->
  assertedGroup (ckp_envelope c) groups group = Some stored -> joinedGroup stored = true ->
  JoinTypedChildren group outcomeCodec mergedCodec merge c = (c, codecError (Unmarshal mergedCodec (grp_MergedResult stored))).
Proof.
  intros Ht Hg Ha Hj. unfold JoinTypedChildren, JoinChildren, bind. rewrite Ht. cbn [negb]. unfold joinChildren. rewrite Hg, Ha, Hj. done.
Qed.
End Typed.
