(* ===== verification/DurableRunner.v ===== *)
(** * The durable runner

    durable_runner.go, durable_start.go, execution_session.go and the armed-wait checks of
    durable_wait_registration.go: a compiled graph bound to a store. An operation acquires the
    execution, works under the lease, and releases it; what the release reports is joined to
    what the operation returns.

    Operations work in the world [W] of Session.v. The heartbeat of a session renews the lease
    beside the operation and cancels its context when renewal fails: here that is the context
    of the world, which may be found cancelled at every reading. Telemetry contexts and
    lifecycle observations are not modelled. *)

From S2P Require Import Prelude Go Sha256 Json Identity Schedule Activity Waits Contract Children Wire Migration Integrity Aggregate Runtime Session ActivityCall Checkpointer Graph Handoff Runner Resume DurableSession.

(** ** The error monad over the world *)
Definition io (W A : Type) : Type := W -> W * res A.
Definition io_ret {W A} (a : A) : io W A := fun w => (w, Ok a).
Definition io_lift {W A} (r : res A) : io W A := fun w => (w, r).
Definition io_bind {W A B} (m : io W A) (k : A -> io W B) : io W B := fun w =>
  match m w with (w, Ok a) => k a w | (w, Err e) => (w, Err e) end.
Definition io_read {W A} (f : W -> W * A) : io W A := fun w => let '(w, a) := f w in (w, Ok a).
Definition io_wrap {W A} (f : error -> error) (m : io W A) : io W A := fun w =>
  match m w with (w, Err e) => (w, Err (f e)) | out => out end.
Declare Scope io_scope.
Notation "'let%' x ':=' m 'in' k" := (io_bind m (fun x => k)) (at level 200, x name, m at level 100, k at level 200) : io_scope.
Notation "'do%' m 'in' k" := (io_bind m (fun _ => k)) (at level 200, m at level 100, k at level 200) : io_scope.
Notation "'guard%' b 'else' e 'in' k" := (if (b : bool) then k else io_lift (Err e)) (at level 200, b at level 100, e at level 100, k at level 200) : io_scope.
Open Scope io_scope.

(** What an exported operation returns: its result, [None] for the zero value, and its error. *)
Definition outcome (A : Type) : Type := option A * option error.
Definition outcome_of {A} (r : res A) : outcome A := match r with Ok a => (Some a, None) | Err e => (None, Some e) end.
Definition before {W A B} (m : io W A) (k : A -> st W (outcome B)) : st W (outcome B) := fun w =>
  match m w with (w, Ok a) => k a w | (w, Err e) => (w, (None, Some e)) end.

(** ** The events of a run

    [runWithSink] holds the terminal event of a run until the aggregate has committed: the
    world of a running session carries the event that is held. *)
Record buffered (W T E : Type) := mkBuffered { buf_world : W; buf_terminal : option (RunEvent T E) }.
Arguments mkBuffered {W T E} _ _.
Arguments buf_world {W T E} _.
Arguments buf_terminal {W T E} _.

Definition isTerminalEventType (t : EventType) : bool :=
  match t with
  | EventCompleted | EventSuspended | EventFailed | EventHandoff | EventContextCanceled => true
  | EventNodeStarted | EventNodeCompleted | EventCheckpointFailed => false
  end.

Section Buffered.
Context {W T E : Type} `{HS : ExecutionStore W} `{HW : WorldHost W T E}.
Definition beneath {A} (f : W -> W * A) : buffered W T E -> buffered W T E * A := fun b =>
  let '(w, a) := f (buf_world b) in (mkBuffered w (buf_terminal b), a).
#[export] Instance buffered_store : ExecutionStore (buffered W T E) := {|
  store_load b id := beneath (fun w => store_load w id) b;
  store_commit b revision lease envelope := beneath (fun w => store_commit w revision lease envelope) b;
  store_acquire b id owner ttl := beneath (fun w => store_acquire w id owner ttl) b;
  store_release b lease := beneath (fun w => store_release w lease) b;
  store_head b id := store_head (buf_world b) id;
  clock_Now := beneath clock_Now;
  ctx_Err b := ctx_Err (buf_world b);
  retry_random := beneath retry_random;
|}.
#[export] Instance buffered_host : WorldHost (buffered W T E) T E := {|
  world_Cause := beneath (world_Cause T E);
  world_Done := beneath (world_Done T E);
  world_closed := beneath (world_closed T E);
  world_now := beneath (world_now T E);
  world_telemetry := beneath (world_telemetry T E);
  world_emit event := fun b =>
    if isTerminalEventType (evt_Type event) then (mkBuffered (buf_world b) (Some event), true) else beneath (world_emit event) b;
|}.
Definition beneath_backend (backend : DurableWaitBackend W) : DurableWaitBackend (buffered W T E) :=
  mkWaitBackend _ (WaitCapabilities backend) (fun record => beneath (RegisterWait backend record)).
End Buffered.

(** ** The runner *)
Record DurableOptions (W : Type) := mkDurableOptions {
  dop_Owner : string;
  dop_LeaseTTL : Z;
  dop_Migrations : list ExecutionMigration;
  dop_WaitProfile : option WaitCapabilityProfile;
  dop_ForkPolicy : option (ForkExecutionPolicy W);
}.
Arguments mkDurableOptions {W} _ _ _ _ _.
Arguments dop_Owner {W} _.
Arguments dop_LeaseTTL {W} _.
Arguments dop_Migrations {W} _.
Arguments dop_WaitProfile {W} _.
Arguments dop_ForkPolicy {W} _.

(** [ExecutionRolloverStore], where the store implements it. *)
Record ExecutionRolloverStore (W : Type) := mkRolloverStore {
  rst_LoadRollover : string -> W -> W * res (option RolloverReceipt);
  rst_CommitRollover : ExecutionLease -> HistoricalCheckpointReference -> ExecutionEnvelope -> W -> W * res RolloverReceipt;
}.
Arguments rst_LoadRollover {W} _ _ _.
Arguments rst_CommitRollover {W} _ _ _ _ _.

(** What the store implements besides [ExecutionStore]. *)
Record storeCapabilities (W : Type) := mkCapabilities {
  cap_waits : option (DurableWaitBackend W);
  cap_history : option (string -> N -> W -> W * res ExecutionEnvelope);
  cap_rollover : option (ExecutionRolloverStore W);
}.
Arguments mkCapabilities {W} _ _ _.
Arguments cap_waits {W} _.
Arguments cap_history {W} _.
Arguments cap_rollover {W} _.

Record DurableRunner (W T E : Type) := mkDurableRunner {
  drn_graph : Graph (executionCheckpointer (buffered W T E)) T E;
  drn_store : storeCapabilities W;
  drn_descriptor : ExecutionDescriptor;
  drn_stateCodec : StateSerializer T;
  drn_effectsCodec : StateSerializer (list E);
  drn_options : DurableOptions W;
  drn_waitBackend : option (DurableWaitBackend W);
}.
Arguments mkDurableRunner {W T E} _ _ _ _ _ _ _.
Arguments drn_graph {W T E} _.
Arguments drn_store {W T E} _.
Arguments drn_descriptor {W T E} _.
Arguments drn_stateCodec {W T E} _.
Arguments drn_effectsCodec {W T E} _.
Arguments drn_options {W T E} _.
Arguments drn_waitBackend {W T E} _.

Definition configuredWaitBackend {W} (store : storeCapabilities W) (waitProfile : option WaitCapabilityProfile)
  : res (DurableWaitBackend W) :=
  match waitProfile with
  | None => Err ErrExecutionCapability
  | Some profile =>
      check (validateProfile profile);;
      match cap_waits store with
      | None => Err ErrExecutionCapability
      | Some backend => if WaitCapabilities backend != profile then Err ErrExecutionCapability else Ok backend
      end
  end.

(** [None] is a nil argument. *)
Definition NewDurableRunner {W T E} (graph : option (Graph (executionCheckpointer (buffered W T E)) T E)) (store : option (storeCapabilities W))
    (descriptor : ExecutionDescriptor) (stateCodec : option (StateSerializer T)) (effectsCodec : option (StateSerializer (list E)))
    (options : DurableOptions W) : res (DurableRunner W T E) :=
  match graph, store, stateCodec, effectsCodec with
  | Some graph, Some store, Some stateCodec, Some effectsCodec =>
      if (dop_Owner options == "") || (dop_LeaseTTL options <=? 0)%Z then Err ErrExecutionCapability
      else
        check (validateDescriptor descriptor);;
        if negb (validRuntimeText [dop_Owner options]) then Err ErrExecutionCapability
        else if negb (map_all (fun node _ => validRuntimeText [node]) (gph_nodes graph)) then Err ErrExecutionCapability
        else if rcf_deleteOnSuccess (gph_defaults graph) || (rcf_retentionLimit (gph_defaults graph) != 0%Z)
        then Err (ErrWrap "%w: durable retention must preserve lineage" [] ErrExecutionCapability)
        else
          backend ← match dop_WaitProfile options with
                    | None => Ok None
                    | Some _ => backend ← configuredWaitBackend store (dop_WaitProfile options); Ok (Some backend)
                    end;
          Ok (mkDurableRunner graph store descriptor stateCodec effectsCodec options backend)
  | _, _, _, _ => Err ErrExecutionCapability
  end.

Section Durable.
Context {W T E : Type} `{HC : Codecs} `{HS : ExecutionStore W} `{HW : WorldHost W T E}.
Context (error_text : error -> string) (r : DurableRunner W T E).
Notation X := (executionCheckpointer (buffered W T E)).

(** [if ctx.Err() != nil { return context.Cause(ctx) }]. *)
Definition live : io W unit := fun w => (w, check (ctx_Err w)).

(** ** Sessions *)
Definition acquireSession (id : string) : io W ExecutionLease :=
  guard% validRuntimeText [id] else ErrExecutionCapability in
  do% live in
  (fun w => store_acquire w id (dop_Owner (drn_options r)) (dop_LeaseTTL (drn_options r))).

Definition release (lease : ExecutionLease) : W -> W * option error := fun w => store_release w lease.
(** [session.finish]. *)
Definition finish (lease : ExecutionLease) : W -> W * option error := fun w =>
  let '(w, releaseErr) := release lease w in (w, (fun err => ErrJoin ErrRunCleanup err) <$> releaseErr).

(** [session, err := r.acquireSession(ctx, id); defer func() { retErr = errors.Join(retErr, session.finish()) }()]. *)
Definition underSession {B} (refused : error -> B) (join : B -> option error -> B) (id : string) (body : ExecutionLease -> st W B) : st W B := fun w =>
  match acquireSession id w with
  | (w, Err err) => (w, refused err)
  | (w, Ok lease) =>
      let '(w, out) := body lease w in
      let '(w, cleanupErr) := finish lease w in
      (w, join out cleanupErr)
  end.
Definition joined {A} (out : outcome A) (err : option error) : outcome A := (out.1, errors_Join out.2 err).
Definition withSession {A} (id : string) (body : ExecutionLease -> io W A) : st W (outcome A) :=
  underSession (fun err => (None, Some err)) joined id (fun lease w => let '(w, out) := body lease w in (w, outcome_of out)).

Definition commitExecution (revision : N) (lease : ExecutionLease) (target : ExecutionEnvelope) : io W ExecutionEnvelope :=
  fun w => store_commit w revision lease target.

(** ** Compatibility of a runner and a stored execution *)
Definition validatePointer (pointer : ExecutionPointer) : option error :=
  if present (gph_nodes (drn_graph r)) pointer then None else Some (ErrResumeStartNodeNotFound : error).

Definition checkRuntimeProfile (profile : option WaitCapabilityProfile) : option error :=
  match profile with
  | None => None
  | Some profile =>
      match drn_waitBackend r with
      | None => Some (ErrExecutionCapability : error)
      | Some backend =>
          if (dop_WaitProfile (drn_options r) != Some profile) || (WaitCapabilities backend != profile)
          then Some (ErrExecutionCapability : error) else None
      end
  end.

(** One armed wait against the runner; where several are refused, Go reports any of them. *)
Definition armedWaitError (record : DurableWaitRecord) : option error :=
  if wt_State record != WaitArmed then None
  else if negb (is_nil (checkRuntimeProfile (Some (wt_Profile record)))) then Some (ErrExecutionCapability : error)
  else if negb (is_nil (validatePointer (wsp_EventPointer (wt_Spec record)))) || negb (is_nil (validatePointer (wsp_TimeoutPointer (wt_Spec record))))
  then Some (ErrExecutionIncompatible : error) else None.
Definition checkArmedWaitCompatibility (envelope : ExecutionEnvelope) : option error :=
  match checkRuntimeProfile (env_RuntimeProfile envelope) with
  | Some err => Some err
  | None =>
      match executionWaits envelope with
      | Err err => Some err
      | Ok waits => first_error (map (fun kv => armedWaitError kv.2) (range waits))
      end
  end.

Definition checkForkPolicy (lineage : option ForkLineage) : io W unit :=
  match lineage with
  | None => io_ret tt
  | Some lineage =>
      do% io_lift (check (validateForkLineage lineage)) in
      match dop_ForkPolicy (drn_options r) with
      | None => io_lift (Err ErrForkPolicy)
      | Some policy =>
          if (fpo_Label policy != frk_PolicyLabel lineage) || (fpo_Mode policy != frk_Mode lineage) then io_lift (Err ErrForkPolicy)
          else if frk_Mode lineage == ForkFake then
            if is_nil (fpo_FakeActivity policy) then io_lift (Err ErrForkPolicy) else io_ret tt
          else match fpo_Authorize policy with
          | None => io_lift (Err ErrForkPolicy)
          | Some authorize => do% io_wrap (ErrJoin ErrForkPolicy) (authorize lineage) in live
          end
      end
  end.

Definition validateTargetCodecs (envelope : ExecutionEnvelope) : option error :=
  match Unmarshal (drn_stateCodec r) (prg_StatePayload (env_Progress envelope)) with
  | Err err => Some (ErrWrap "target state: %w" [] err)
  | Ok _ =>
      match Unmarshal (drn_effectsCodec r) (env_EffectsPayload envelope) with
      | Err err => Some (ErrWrap "target effects: %w" [] err)
      | Ok _ => None
      end
  end.

(** ** Starting and resuming *)
Definition newMeta : io W RunMetadata :=
  let% now := io_read (world_now T E) in
  let% now' := io_read (world_now T E) in
  io_ret (newRunMetadata now now').

Definition first_envelope (id : string) (progress : ExecutionProgress) (effects : string) (meta : RunMetadata) : ExecutionEnvelope :=
  mkEnvelope id 0 "" (drn_descriptor r) (dop_WaitProfile (drn_options r)) progress effects "" "" "" meta 1 None None None None None None.

Definition prepareStart (lease : ExecutionLease) (initial : T) : io W ExecutionEnvelope := fun w =>
  match store_load w (lse_ExecutionID lease) with
  | (w, Ok _) => (w, Err ErrConcurrencyConflict)
  | (w, Err loadErr) =>
      if negb (errors_Is loadErr ErrThreadNotFound) then (w, Err loadErr)
      else
        (let% state := io_lift (Marshal (drn_stateCodec r) initial) in
         let% effects := io_lift (Marshal (drn_effectsCodec r) []) in
         do% live in
         let% meta := newMeta in
         let% context := io_read (world_telemetry T E) in
         commitExecution 0 lease
           (first_envelope (lse_ExecutionID lease) (mkProgress state (gph_entryPoint (drn_graph r)) ∅ ∅ ∅) effects
              (meta <| met_TelemetryContext := context |>))) w
  end.

(** [PrepareExecutionMigration] is total ([migration_chain_correct]): [None] is not reached. *)
Definition prepareMigratedTarget (lease : ExecutionLease) (source : ExecutionEnvelope) : io W ExecutionEnvelope :=
  match PrepareExecutionMigration source (drn_descriptor r) (dop_Migrations (drn_options r)) (Some validatePointer) with
  | None => io_lift (Err ErrMigrationInvalid)
  | Some (Err migrationErr) => io_lift (Err (ErrJoin ErrExecutionIncompatible migrationErr))
  | Some (Ok target) =>
      match validateExecutionCollections target with
      | Some err => io_lift (Err (ErrJoin ErrMigrationInvalid err))
      | None =>
          match validateTargetCodecs target with
          | Some err => io_lift (Err (ErrJoin ErrMigrationInvalid err))
          | None => do% live in commitExecution (env_Revision source) lease target
          end
      end
  end.

Definition prepareResume (lease : ExecutionLease) (token : ResumeToken) : io W ExecutionEnvelope :=
  let% source := (fun w => store_load w (tok_ThreadID token)) in
  do% live in
  do% io_lift (check (ValidateExecutionIntegrity source (tok_ThreadID token) (env_Revision source))) in
  guard% negb ((tok_SnapshotRevision token == 0%N) || (env_Revision source != tok_SnapshotRevision token)) else ErrConcurrencyConflict in
  do% io_lift (check (validateExecutionCollections source)) in
  do% io_lift (check (checkArmedWaitCompatibility source)) in
  do% io_lift (check (validateExecutionSourceMetadata source)) in
  do% checkForkPolicy (env_Fork source) in
  match checkDescriptor (env_Descriptor source) (drn_descriptor r) with
  | Some err =>
      if negb (is_nil (validateDescriptor (env_Descriptor source))) then io_lift (Err err) else prepareMigratedTarget lease source
  | None =>
      do% io_lift (check (validatePointer (prg_ExecutionPointer (env_Progress source)))) in
      io_ret source
  end.

(** ** Running *)
Implicit Types (inv : runInvocationOptions X T).
Definition applyRunOptions inv : res (runInvocationOptions X T) :=
  match inv_checkpointPolicy inv with
  | CheckpointPolicyOther s => Err (ErrWrap "%w: %q" [s] ErrInvalidCheckpointPolicy)
  | _ => Ok inv
  end.
Definition validateRunOptions inv : option error :=
  match applyRunOptions inv with
  | Err err => Some err
  | Ok inv =>
      if inv_atomicHandoff inv then Some (ErrTransactionalOutboxUnsupported : error)
      else if (inv_checkpointPolicy inv == CheckpointPolicySkipOnSaveError) || (inv_leaseOwner inv != "")
      then Some (ErrExecutionCapability : error) else None
  end.

(** [cachedDurableResult] and the event it emits. *)
Definition cachedDurableResult (envelope : ExecutionEnvelope) (terminal : ExecutionTerminal) (snapshot : Snapshot T E)
  : st W (outcome (RunResult T E)) := fun w =>
  let result := mkResult (snp_State snapshot) (trm_Status terminal) (snp_Effects snapshot) (snp_RunMeta snapshot)
                  (snp_ExecutionPointer snapshot) (trm_Reason terminal) (mkToken (env_ExecutionID envelope) (env_Revision envelope)) in
  let failure := terminalFailureError (Some terminal) in
  let event := if trm_Status terminal == RunStatusCompleted
               then newRunEvent EventCompleted (snp_ExecutionPointer snapshot) (snp_State snapshot) None ""
               else newRunEvent EventFailed (snp_ExecutionPointer snapshot) (snp_State snapshot) failure (trm_Reason terminal) in
  let '(w, _) := world_emit event w in
  (w, (Some result, failure)).

(** The first armed wait, registered again; [None] where there is none. *)
Definition recoverArmedWait (envelope : ExecutionEnvelope) (snapshot : Snapshot T E) : W -> W * option (outcome (RunResult T E)) := fun w =>
  match executionWaits envelope with
  | Err err => (w, Some (None, Some err))
  | Ok waits =>
      match armedWaits waits with
      | [] => (w, None)
      | record :: _ =>
          let result := (newRunResultSuspended (snp_State snapshot) (snp_Effects snapshot) (snp_RunMeta snapshot) (snp_ExecutionPointer snapshot)
                           durableWaitReason) <| rr_ResumeToken := mkToken (env_ExecutionID envelope) (env_Revision envelope) |> in
          match registerDurableWait (drn_waitBackend r) record w with
          | (w, Some err) => (w, Some (Some result, Some err))
          | (w, None) =>
              let '(w, _) := world_emit (newRunEvent EventSuspended (snp_ExecutionPointer snapshot) (snp_State snapshot) None durableWaitReason) w in
              (w, Some (Some result, None))
          end
      end
  end.

(** The session of a run: what [runWithSink] allocates, and the runner of its graph. *)
Definition newSession (lease : ExecutionLease) (envelope : ExecutionEnvelope) (w : W) : X :=
  mkCheckpointer (mkBuffered w None) lease (cloneExecutionEnvelope envelope) (env_Revision envelope) false [].
Definition base : graphRunner X T E :=
  session_runner error_text (drn_stateCodec r) (drn_effectsCodec r) (beneath_backend <$> drn_waitBackend r) (dop_WaitProfile (drn_options r))
    (drn_graph r) DefaultHandoffStaleAfter.
Definition base_checkpointer : CheckpointerOps X T E := session_checkpointer (drn_stateCodec r) (drn_effectsCodec r).
Definition leave (c : X) : W := buf_world (ckp_world c).

(** [finalizeRunOutcome] and the delivery of the terminal event that was held. *)
Definition settleRun (ran : option (RunResult T E) * option error) (c : X) : W * outcome (RunResult T E) :=
  let '(c, (result, runErr, deliver)) := finalizeRunOutcome error_text (drn_stateCodec r) (drn_effectsCodec r) ran.1 ran.2 c in
  match buf_terminal (ckp_world c) with
  | Some event => if deliver then let '(w, _) := world_emit event (leave c) in (w, (result, runErr)) else (leave c, (result, runErr))
  | None => (leave c, (result, runErr))
  end.

(** The loop of a live session; [None] is a loop out of fuel, which [execution_terminates]
    excludes. *)
Definition runSession (token : ResumeToken) inv (c : X) : W * option (outcome (RunResult T E)) :=
  let '(c, decision) := evaluateResume base base_checkpointer token inv c in
  match dec_Err decision, dec_State decision, dec_RunMeta decision with
  | None, Some state, Some meta =>
      let '(c, ran) := execute base error_text (tok_ThreadID token) (dec_ExecutionPointer decision) state meta (dec_Effects decision)
                         (dec_SnapshotRevision decision) inv c in
      match ran with
      | None => (leave c, None)
      | Some ran => let '(w, out) := settleRun ran c in (w, Some out)
      end
  | err, _, _ => (leave c, Some (None, err))
  end.

Definition runWithSink (lease : ExecutionLease) (envelope : ExecutionEnvelope) inv : st W (option (outcome (RunResult T E))) := fun w =>
  let refuse w (err : error) : W * option (outcome (RunResult T E)) := (w, Some (None, Some err)) in
  match applyRunOptions inv with
  | Err err => refuse w err
  | Ok inv =>
      if (inv_checkpointPolicy inv == CheckpointPolicySkipOnSaveError) || (inv_leaseOwner inv != "") then refuse w ErrExecutionCapability
      else match ctx_Err w with
      | Some err => refuse w err
      | None =>
          match checkArmedWaitCompatibility envelope with
          | Some err => refuse w err
          | None =>
              match Load (drn_stateCodec r) (drn_effectsCodec r) (env_ExecutionID envelope) (newSession lease envelope w) with
              | (c, Err err) => refuse (leave c) err
              | (c, Ok (snapshot, _)) =>
                  match ctx_Err (leave c) with
                  | Some err => refuse (leave c) err
                  | None =>
                      match env_Terminal envelope with
                      | Some terminal => let '(w, out) := cachedDurableResult envelope terminal snapshot (leave c) in (w, Some out)
                      | None =>
                          match recoverArmedWait envelope snapshot (leave c) with
                          | (w, Some waiting) => (w, Some waiting)
                          | (w, None) =>
                              runSession (mkToken (env_ExecutionID envelope) (env_Revision envelope)) inv
                                (c <| ckp_world := mkBuffered w None |>)
                          end
                      end
                  end
              end
          end
      end
  end.

(** ** Entry points *)
Definition ranUnderSession (id : string) (prepare : ExecutionLease -> io W ExecutionEnvelope) inv : st W (option (outcome (RunResult T E))) :=
  underSession (fun err => Some (None, Some err)) (fun out err => (fun o => joined o err) <$> out) id
    (fun lease w =>
       match prepare lease w with
       | (w, Err err) => (w, Some (None, Some err))
       | (w, Ok envelope) => runWithSink lease envelope inv w
       end).

(** [DurableRunner.Start]. *)
Definition StartDurable (id : string) (initial : T) inv : st W (option (outcome (RunResult T E))) := fun w =>
  match validateRunOptions inv with
  | Some err => (w, Some (None, Some err))
  | None =>
      match checkRuntimeProfile (dop_WaitProfile (drn_options r)) with
      | Some err => (w, Some (None, Some err))
      | None => ranUnderSession id (fun lease => prepareStart lease initial) inv w
      end
  end.

(** [DurableRunner.Resume]. *)
Definition ResumeDurable (token : ResumeToken) inv : st W (option (outcome (RunResult T E))) := fun w =>
  match validateRunOptions inv with
  | Some err => (w, Some (None, Some err))
  | None => ranUnderSession (tok_ThreadID token) (fun lease => prepareResume lease token) inv w
  end.
End Durable.
