(* ===== verification/Sessions.v ===== *)
(** * Local runs of a runner

    runner_sessions.go and handoff.go: the registry of the runs of one runner in this process,
    local handoff requests, and the cadence of the lease heartbeat. Runs, requests and
    cancellations act concurrently; every operation of the [sync.Map], every cancellation and
    every receive is one step, so a registration is two steps, and so is its removal.

    What a run does between its registration and its end is the loop of Runner.v; here it is
    the error the run ends with. *)

From stdpp Require Import relations.
From S2P Require Import Prelude Go Sha256 Json Identity Schedule Activity Waits Contract Children Aggregate Runtime Graph Handoff Resume.

(** ** Heartbeat *)
Definition leaseHeartbeatDivisor : Z := 3.
Definition millisecond : Z := 1000000.
Definition effectiveTTL (ttl : Z) : Z := if (ttl <=? 0)%Z then defaultLeaseTTL else ttl.
(** Durations are positive here, so the quotients of Go are those of [Z.div]. *)
Definition leaseHeartbeatInterval (ttl : Z) : Z :=
  let ttl := effectiveTTL ttl in
  let interval := (ttl / leaseHeartbeatDivisor)%Z in
  let maxInterval := (ttl / 2)%Z in
  let interval := if (maxInterval <? interval)%Z then maxInterval else interval in
  let interval := if (interval <=? 0)%Z then maxInterval else interval in
  if (interval <=? 0)%Z then millisecond else interval.

(** The cadence fits within the lease, except for a lease of one nanosecond. *)
Lemma heartbeat_fits ttl : effectiveTTL ttl <> 1%Z ->
  (0 < leaseHeartbeatInterval ttl /\ 2 * leaseHeartbeatInterval ttl <= effectiveTTL ttl)%Z.
Proof.
  intros H1. assert (Hp : (0 < effectiveTTL ttl)%Z) by (unfold effectiveTTL, defaultLeaseTTL; destruct (ttl <=? 0)%Z eqn:E0; lia).
  unfold leaseHeartbeatInterval, leaseHeartbeatDivisor. set (t := effectiveTTL ttl) in *. clearbody t. cbv zeta.
  pose proof (Z.div_mod t 3 ltac:(lia)). pose proof (Z.mod_pos_bound t 3 ltac:(lia)).
  pose proof (Z.div_mod t 2 ltac:(lia)). pose proof (Z.mod_pos_bound t 2 ltac:(lia)).
  destruct (t / 2 <? t / 3)%Z eqn:E1, (t / 3 <=? 0)%Z eqn:E2, (t / 2 <=? 0)%Z eqn:E3; rewrite ?E2, ?E3; lia.
Qed.
Lemma heartbeat_too_slow : leaseHeartbeatInterval 1 = 1000000%Z.
Proof. reflexivity. Qed.

(** ** Sessions *)
Record localRunSession := mkRunSession { ses_thread : string; ses_cause : option error; ses_done : bool; ses_err : option error }.
#[export] Instance eta_localRunSession : Eta localRunSession := fun s => mkRunSession (ses_thread s) (ses_cause s) (ses_done s) (ses_err s).
Definition newRunSession (threadID : string) : localRunSession := mkRunSession threadID None false None.

(** The first cause stays. *)
Definition cancelSession (cause : error) (s : localRunSession) : localRunSession :=
  match ses_cause s with None => s <| ses_cause := Some cause |> | Some _ => s end.
Definition finishSession (err : option error) (s : localRunSession) : localRunSession :=
  if ses_done s then s else s <| ses_done := true |> <| ses_err := err |>.
Definition completionError (s : localRunSession) : option error := ses_err s.

(** Where a run of [execute] is with respect to the registry. *)
Inductive runPhase :=
| RunEntered (threadID : string)       (* before the first look at the map *)
| RunAbsent (threadID : string)        (* which found nothing *)
| RunRefused (err : error)
| RunOwns (session : nat)
| RunFinished (session : nat)          (* [session.finish] was called *)
| RunSame (session : nat)              (* the map still holds the session *)
| RunReturned (session : nat).
(** Where a call of [RequestLocalHandoff] is. *)
Inductive requestPhase :=
| RequestEntered (threadID : string)
| RequestFound (session : nat)
| RequestWaiting (session : nat)
| RequestCompleted (session : nat) (err : option error)
| RequestFailed (err : error).

Record registry := mkRegistry {
  reg_sessions : gmap string nat;      (* the map of the runner *)
  reg_heap : list localRunSession;          (* the sessions allocated *)
  reg_runs : list runPhase;
  reg_requests : list requestPhase;
}.
#[export] Instance eta_registry : Eta registry := fun g => mkRegistry (reg_sessions g) (reg_heap g) (reg_runs g) (reg_requests g).
Definition newRegistry : registry := mkRegistry ∅ [] [] [].

Definition alreadyRunning (threadID : string) : error := ErrWrap "%w: thread %q" [threadID] ErrThreadAlreadyRunning.
Definition noActive (threadID : string) : error := ErrWrap "%w: thread %q" [threadID] ErrNoActiveExecution.

(** [registerRunSession]: [Load], then [LoadOrStore]. *)
Definition registerLoad (threadID : string) (g : registry) : runPhase :=
  if present (reg_sessions g) threadID then RunRefused (alreadyRunning threadID) else RunAbsent threadID.
Definition registerStore (threadID : string) (g : registry) : registry * runPhase :=
  if present (reg_sessions g) threadID then (g, RunRefused (alreadyRunning threadID))
  else
    let session := length (reg_heap g) in
    (g <| reg_sessions := <[threadID := session]> (reg_sessions g) |> <| reg_heap := reg_heap g ++ [newRunSession threadID] |>, RunOwns session).

Definition session_thread (g : registry) (session : nat) : string := match reg_heap g !! session with Some s => ses_thread s | None => "" end.
(** [unregisterRunSessionIfSame]: [Load], then [Delete] where the session is the same. *)
Definition unregisterLoad (session : nat) (g : registry) : runPhase :=
  match reg_sessions g !! session_thread g session with
  | Some value => if value == session then RunSame session else RunReturned session
  | None => RunReturned session
  end.
Definition unregisterDelete (session : nat) (g : registry) : registry * runPhase :=
  (g <| reg_sessions := delete (session_thread g session) (reg_sessions g) |>, RunReturned session).

(** The next step of a run; [err] is what its loop ends with. *)
Definition advanceRun (err : option error) (p : runPhase) (g : registry) : registry * runPhase :=
  match p with
  | RunEntered threadID => (g, registerLoad threadID g)
  | RunAbsent threadID => registerStore threadID g
  | RunOwns session => (g <| reg_heap := alter (finishSession err) session (reg_heap g) |>, RunFinished session)
  | RunFinished session => (g, unregisterLoad session g)
  | RunSame session => unregisterDelete session g
  | RunRefused _ | RunReturned _ => (g, p)
  end.

(** The next step of a request; [ctxDone] is its own deadline or cancellation, if observed. *)
Definition advanceRequest (ctxDone : option error) (p : requestPhase) (g : registry) : option (registry * requestPhase) :=
  let notCompleted err := RequestFailed (ErrJoin ErrHandoffNotCompleted err) in
  match p with
  | RequestEntered threadID =>
      Some (g, if threadID == "" then RequestFailed (ErrWrap "%w: handoff requires threadID" [] ErrInvalidResumeToken)
               else match reg_sessions g !! threadID with
                    | None => RequestFailed (noActive threadID)
                    | Some session => RequestFound session
                    end)
  | RequestFound session => Some (g <| reg_heap := alter (cancelSession ErrHandoffRequested) session (reg_heap g) |>, RequestWaiting session)
  | RequestWaiting session =>
      match ctxDone, reg_heap g !! session with
      | Some err, _ => Some (g, notCompleted err)
      | None, Some s => if ses_done s then Some (g, RequestCompleted session (completionError s)) else None
      | None, None => None
      end
  | RequestCompleted _ _ | RequestFailed _ => None
  end.

Inductive registry_step : registry -> registry -> Prop :=
| ExecuteCalled threadID g : registry_step g (g <| reg_runs := reg_runs g ++ [RunEntered threadID] |>)
| RunAdvanced i p err g g' p' : reg_runs g !! i = Some p -> advanceRun err p g = (g', p') ->
    registry_step g (g' <| reg_runs := <[i := p']> (reg_runs g') |>)
| HandoffRequested threadID g : registry_step g (g <| reg_requests := reg_requests g ++ [RequestEntered threadID] |>)
| RequestAdvanced k p ctxDone g g' p' : reg_requests g !! k = Some p -> advanceRequest ctxDone p g = Some (g', p') ->
    registry_step g (g' <| reg_requests := <[k := p']> (reg_requests g') |>)
| Cancelled session cause g : registry_step g (g <| reg_heap := alter (cancelSession cause) session (reg_heap g) |>).

(** The session a run holds in the map. *)
Definition holds (p : runPhase) : option nat :=
  match p with RunOwns s | RunFinished s | RunSame s => Some s | _ => None end.
Definition owner (g : registry) (i session : nat) : Prop := exists p, reg_runs g !! i = Some p /\ holds p = Some session.

(** ** Invariant *)
Definition requestOk (heap : list localRunSession) (p : requestPhase) : Prop :=
  match p with
  | RequestFound s => is_Some (heap !! s)
  | RequestWaiting s => exists ses, heap !! s = Some ses /\ is_Some (ses_cause ses)
  | RequestCompleted s err => exists ses, heap !! s = Some ses /\ is_Some (ses_cause ses) /\ ses_done ses = true /\ ses_err ses = err
  | RequestEntered _ | RequestFailed _ => True
  end.
Record registry_ok (g : registry) : Prop := {
  ok_bound i s : owner g i s -> is_Some (reg_heap g !! s);
  ok_map t s : reg_sessions g !! t = Some s <-> exists i, owner g i s /\ session_thread g s = t;
  ok_unique i j s : owner g i s -> owner g j s -> i = j;
  ok_requests k p : reg_requests g !! k = Some p -> requestOk (reg_heap g) p;
}.

(** A session keeps its thread, its first cause, and what it finished with. *)
Definition session_le (s s' : localRunSession) : Prop :=
  ses_thread s' = ses_thread s /\ (is_Some (ses_cause s) -> is_Some (ses_cause s'))
  /\ (ses_done s = true -> ses_done s' = true /\ ses_err s' = ses_err s).
Definition heap_le (h h' : list localRunSession) : Prop := forall s ses, h !! s = Some ses -> exists ses', h' !! s = Some ses' /\ session_le ses ses'.

Lemma session_le_refl s : session_le s s.
Proof. unfold session_le. naive_solver. Qed.
Lemma session_le_cancel c s : session_le s (cancelSession c s).
Proof. unfold session_le, cancelSession. destruct s as [t [c'|] d e]; cbn; naive_solver. Qed.
Lemma session_le_finish err s : session_le s (finishSession err s).
Proof. unfold session_le, finishSession. destruct s as [t c [] e]; cbn; naive_solver. Qed.
Lemma heap_le_refl h : heap_le h h.
Proof. intros s ses Hs. eauto using session_le_refl. Qed.
Lemma heap_le_app h l : heap_le h (h ++ l).
Proof. intros s ses Hs. exists ses. split; [by apply lookup_app_l_Some | apply session_le_refl]. Qed.
Lemma heap_le_alter f k h : (forall s, session_le s (f s)) -> heap_le h (alter f k h).
Proof.
  intros Hf s ses Hs. destruct (decide (k = s)) as [->|Hn].
  - exists (f ses). split; [by rewrite list_lookup_alter_eq, Hs | apply Hf].
  - exists ses. split; [by rewrite list_lookup_alter_ne | apply session_le_refl].
Qed.
#[local] Hint Resolve session_le_refl session_le_cancel session_le_finish heap_le_refl heap_le_app heap_le_alter : core.

Lemma requestOk_le h h' p : heap_le h h' -> requestOk h p -> requestOk h' p.
Proof.
  intros Hle. unfold session_le, heap_le in Hle. destruct p; cbn; [done| | | |done].
  - intros [ses Hs]. destruct (Hle _ _ Hs) as (ses' & ? & _). eauto.
  - intros (ses & Hs & Hc). destruct (Hle _ _ Hs) as (ses' & ? & ? & ? & ?). eauto.
  - intros (ses & Hs & Hc & Hd & He). destruct (Hle _ _ Hs) as (ses' & ? & ? & ? & Hf). destruct (Hf Hd). eauto 6 with congruence.
Qed.
Lemma session_thread_le g g' s : heap_le (reg_heap g) (reg_heap g') -> is_Some (reg_heap g !! s) -> session_thread g' s = session_thread g s.
Proof. intros Hle [ses Hs]. destruct (Hle _ _ Hs) as (ses' & Hs' & Ht & _). unfold session_thread. by rewrite Hs, Hs'. Qed.

(** A step that neither adds nor removes a holder. *)
Lemma registry_ok_frame g g' : registry_ok g -> reg_sessions g' = reg_sessions g -> (forall i s, owner g' i s <-> owner g i s) ->
  heap_le (reg_heap g) (reg_heap g') -> (forall k p, reg_requests g' !! k = Some p -> requestOk (reg_heap g') p) -> registry_ok g'.
Proof.
  intros Hg Hm Ho Hle Hr. split; [| | |done].
  - intros i s [ses Hs]%Ho%(ok_bound g Hg). destruct (Hle _ _ Hs) as (? & ? & _). eauto.
  - intros t s. rewrite Hm, (ok_map g Hg). apply exist_proper. intros i. rewrite Ho. split; intros [Ho' <-]; (split; [done|]);
      [|symmetry]; apply session_thread_le; eauto using ok_bound.
  - intros i j s ?%Ho ?%Ho. eauto using ok_unique.
Qed.
Lemma owner_insert g g' i p p' : reg_runs g !! i = Some p -> reg_runs g' = <[i := p']> (reg_runs g) -> forall j s,
  owner g' j s <-> (j = i /\ holds p' = Some s) \/ (j <> i /\ owner g j s).
Proof.
  intros Hi Hr j s. unfold owner. rewrite Hr. destruct (decide (j = i)) as [->|Hn].
  - rewrite list_lookup_insert_eq by (apply lookup_lt_is_Some; eauto). naive_solver.
  - rewrite list_lookup_insert_ne by done. naive_solver.
Qed.
Lemma owner_phase g g' i p p' : reg_runs g !! i = Some p -> reg_runs g' = <[i := p']> (reg_runs g) -> holds p' = holds p ->
  forall j s, owner g' j s <-> owner g j s.
Proof.
  intros Hi Hr Hh j s. rewrite (owner_insert g g' i p p' Hi Hr), Hh. destruct (decide (j = i)) as [->|]; [|naive_solver].
  split; [intros [[_ ?]|[]]; [by exists p | done] | intros (q & Hq & ?); left; split; [done|congruence]].
Qed.
Lemma requests_le g h : registry_ok g -> heap_le (reg_heap g) h -> forall k p, reg_requests g !! k = Some p -> requestOk h p.
Proof. intros Hg Hle k p Hk. eapply requestOk_le; eauto using ok_requests. Qed.

Lemma present_lookup {A} (m : gmap string A) k : present m k = false -> m !! k = None.
Proof. unfold present. by destruct (m !! k). Qed.

Lemma register_ok g i t g' p' : registry_ok g -> reg_runs g !! i = Some (RunAbsent t) -> registerStore t g = (g', p') ->
  registry_ok (g' <| reg_runs := <[i := p']> (reg_runs g') |>).
Proof.
  intros Hg Hi. unfold registerStore. destruct (present (reg_sessions g) t) eqn:Ep; intros [= <- <-].
  - apply (registry_ok_frame g); [done|done|by eapply owner_phase; [exact Hi|..]|apply heap_le_refl|exact (ok_requests g Hg)].
  - apply present_lookup in Ep. set (n := length (reg_heap g)). set (g' := _ <| reg_runs := _ |>).
    pose proof (owner_insert g g' i _ (RunOwns n) Hi eq_refl) as Ho. cbn [holds] in Ho.
    assert (Hle : heap_le (reg_heap g) (reg_heap g')) by apply heap_le_app.
    assert (Hn : reg_heap g' !! n = Some (newRunSession t)) by (cbn; by rewrite list_lookup_middle).
    assert (Hfresh : forall j, ~ owner g j n).
    { intros j Hj. pose proof (lookup_lt_is_Some_1 _ _ (ok_bound g Hg _ _ Hj)). unfold n in *. lia. }
    split.
    + intros j s [[_ [= <-]]|[_ Hj]]%Ho; [by eexists|]. destruct (ok_bound g Hg _ _ Hj) as [ses Hs]. destruct (Hle _ _ Hs) as (? & ? & _). by eexists.
    + intros t' s. change (reg_sessions g') with (<[t := n]> (reg_sessions g)). destruct (decide (t = t')) as [<-|Hne].
      * rewrite lookup_insert_eq. split.
        { intros [= <-]. exists i. rewrite Ho. split; [by left | unfold session_thread; by rewrite Hn]. }
        intros (j & [[_ ?]|[_ Hj]]%Ho & Ht); [done|]. exfalso.
        rewrite (session_thread_le g g' s Hle) in Ht by eauto using ok_bound.
        assert (reg_sessions g !! t = Some s) by (apply (ok_map g Hg); eauto). congruence.
      * rewrite lookup_insert_ne, (ok_map g Hg) by done. split.
        { intros (j & Hj & Ht). exists j. rewrite Ho, (session_thread_le g g' s Hle) by eauto using ok_bound. split; [|done]. right. split; [|done].
          intros ->. destruct Hj as (q & Hq & Hh). rewrite Hi in Hq. by injection Hq as <-. }
        intros (j & [[_ [= <-]]|[_ Hj]]%Ho & Ht).
        { unfold session_thread in Ht. rewrite Hn in Ht. done. }
        exists j. split; [done|]. by rewrite <-(session_thread_le g g' s Hle) by eauto using ok_bound.
    + intros j k s [[-> [= <-]]|[_ Hj]]%Ho [[-> Hs]|[_ Hk]]%Ho; [done|by edestruct Hfresh| |eauto using ok_unique].
      injection Hs as <-. by edestruct Hfresh.
    + exact (requests_le g _ Hg Hle).
Qed.

Lemma unregister_ok g i s : registry_ok g -> reg_runs g !! i = Some (RunSame s) ->
  registry_ok (g <| reg_sessions := delete (session_thread g s) (reg_sessions g) |> <| reg_runs := <[i := RunReturned s]> (reg_runs g) |>).
Proof.
  intros Hg Hi. set (g' := _ <| reg_runs := _ |>). pose proof (owner_insert g g' i _ _ Hi eq_refl) as Ho. cbn [holds] in Ho.
  assert (Hown : owner g i s) by (by exists (RunSame s)).
  assert (Hin : reg_sessions g !! session_thread g s = Some s) by (apply (ok_map g Hg); eauto).
  split.
  - intros j s' [[_ ?]|[_ Hj]]%Ho; [done|]. exact (ok_bound g Hg _ _ Hj).
  - intros t s'. change (reg_sessions g') with (delete (session_thread g s) (reg_sessions g)). change (session_thread g' s') with (session_thread g s').
    rewrite lookup_delete_Some, (ok_map g Hg). split.
    + intros (Hne & j & Hj & Ht). exists j. rewrite Ho. split; [|done]. right. split; [|done]. intros ->.
      destruct Hj as (q & Hq & Hh), Hown as (q' & Hq' & Hh'). congruence.
    + intros (j & [[_ ?]|[Hne Hj]]%Ho & Ht); [done|]. split; [|eauto]. intros Heq. apply Hne.
      assert (Hin' : reg_sessions g !! session_thread g s = Some s') by (apply (ok_map g Hg); exists j; split; [done|congruence]).
      rewrite Hin in Hin'. injection Hin' as <-. eauto using ok_unique.
  - intros j k s' [[_ ?]|[_ Hj]]%Ho [[_ ?]|[_ Hk]]%Ho; [done..|]. eauto using ok_unique.
  - exact (ok_requests g Hg).
Qed.

Lemma advanceRun_ok g i p err g' p' : registry_ok g -> reg_runs g !! i = Some p -> advanceRun err p g = (g', p') ->
  registry_ok (g' <| reg_runs := <[i := p']> (reg_runs g') |>).
Proof.
  intros Hg Hi. pose proof (requests_le g) as Hr. destruct p as [t|t|e|s|s|s|s]; cbn [advanceRun].
  2: by apply register_ok.
  5: { intros [= <- <-]. by apply (unregister_ok g). }
  all: intros [= <- <-]; apply (registry_ok_frame g); [done|done|eapply owner_phase; [exact Hi|done|]|cbn; auto|cbn; eauto]; try done.
  - unfold registerLoad. by destruct (present _ _).
  - unfold unregisterLoad. rewrite (proj2 (ok_map g Hg (session_thread g s) s)); [by rewrite bool_decide_true|]. exists i. split; [by exists (RunFinished s)|done].
Qed.

Lemma advanceRequest_ok g k p ctxDone g' p' : registry_ok g -> reg_requests g !! k = Some p -> advanceRequest ctxDone p g = Some (g', p') ->
  registry_ok (g' <| reg_requests := <[k := p']> (reg_requests g') |>).
Proof.
  intros Hg Hk Ha. assert (Hstep : reg_sessions g' = reg_sessions g /\ reg_runs g' = reg_runs g /\ reg_requests g' = reg_requests g
    /\ heap_le (reg_heap g) (reg_heap g') /\ requestOk (reg_heap g') p').
  { pose proof (ok_requests g Hg _ _ Hk) as Hp. destruct p as [t|s|s|s e|e]; cbn in Ha; [| | |done..].
    - injection Ha as <- <-. repeat split; auto. destruct (t == ""); [done|]. destruct (reg_sessions g !! t) as [s|] eqn:Es; [|done].
      apply (ok_map g Hg) in Es as (i & Ho & _). exact (ok_bound g Hg _ _ Ho).
    - injection Ha as <- <-. repeat split; cbn; auto. destruct Hp as [ses Hs]. rewrite list_lookup_alter_eq, Hs. eexists. split; [done|].
      unfold cancelSession. destruct ses as [? [] ? ?]; by eexists.
    - cbn in Hp. destruct Hp as (ses & Hs & Hc). rewrite Hs in Ha. destruct ctxDone as [e|].
      { injection Ha as <- <-. repeat split; auto. }
      destruct (ses_done ses) eqn:Ed; [|done]. injection Ha as <- <-. repeat split; auto. cbn. eauto 6. }
  destruct Hstep as (Hm & Hu & Hq & Hle & Hp). apply (registry_ok_frame g); [done|done| |done|].
  - intros i s. unfold owner. cbn. by rewrite Hu.
  - cbn. intros k' q Hk'. rewrite Hq in Hk'. apply list_lookup_insert_Some in Hk' as [(_ & <- & _)|[_ Hk']]; [done|]. by eapply requests_le.
Qed.

Lemma registry_step_ok g g' : registry_step g g' -> registry_ok g -> registry_ok g'.
Proof.
  intros Hs Hg. destruct Hs as [t g|i p err g g' p' Hi Ha|t g|k p c g g' p' Hk Ha|s c g].
  - apply (registry_ok_frame g); [done|done| |apply heap_le_refl|exact (ok_requests g Hg)].
    intros i s. unfold owner. cbn. split; intros (p & Hp & Hh); exists p; (split; [|done]).
    + apply lookup_app_Some in Hp as [?|[_ Hp]]; [done|]. apply list_lookup_singleton_Some in Hp as [_ <-]. done.
    + by apply lookup_app_l_Some.
  - by eapply advanceRun_ok.
  - apply (registry_ok_frame g); [done|done|done|apply heap_le_refl|]. cbn. intros k p Hp.
    apply lookup_app_Some in Hp as [Hp|[_ Hp]]; [exact (ok_requests g Hg _ _ Hp)|]. apply list_lookup_singleton_Some in Hp as [_ <-]. done.
  - by eapply advanceRequest_ok.
  - apply (registry_ok_frame g); [done|done|done|cbn; auto|]. cbn. apply requests_le; auto.
Qed.
Lemma newRegistry_ok : registry_ok newRegistry.
Proof.
  assert (Hn : forall i s, ~ owner newRegistry i s) by (intros i s (p & Hp & _); cbn in Hp; by rewrite lookup_nil in Hp).
  split; [intros i s []%Hn| |intros i j s []%Hn|by intros k p].
  intros t s. cbn. rewrite lookup_empty. split; [done|intros (i & []%Hn & _)].
Qed.
Lemma reachable_registry_ok g : rtc registry_step newRegistry g -> registry_ok g.
Proof. intros Hg. eapply (rtc_ind_r registry_ok) in Hg; [exact Hg|apply newRegistry_ok|intros; by eapply registry_step_ok]. Qed.

(** C25: The local session registry keeps one active run per thread, under every interleaving of
    the steps of executions, handoff requests and cancellations: the map holds a session exactly
    while a run that registered it has not removed it, so a thread is refused or found active
    only because of such a run; two runs that hold sessions of one thread are the same run; and
    a local handoff request reports completion only of a session that was cancelled and is
    finished, with the error that run ended with. *)
Theorem one_active_run (g : registry) (Hg : rtc registry_step newRegistry g) :
  (forall threadID s, reg_sessions g !! threadID = Some s <->
     exists i p, reg_runs g !! i = Some p /\ holds p = Some s /\ session_thread g s = threadID)
  /\ (forall i j p q s s', reg_runs g !! i = Some p -> reg_runs g !! j = Some q -> holds p = Some s -> holds q = Some s' ->
        session_thread g s = session_thread g s' -> i = j)
  /\ (forall k s err, reg_requests g !! k = Some (RequestCompleted s err) ->
        exists ses, reg_heap g !! s = Some ses /\ is_Some (ses_cause ses) /\ ses_done ses = true /\ completionError ses = err).
Proof.
  apply reachable_registry_ok in Hg. split; [|split].
  - intros t s. rewrite (ok_map g Hg). unfold owner. naive_solver.
  - intros i j p q s s' Hi Hj Hs Hs' Ht.
    assert (H1 : owner g i s) by (by exists p). assert (H2 : owner g j s') by (by exists q).
    assert (M1 : reg_sessions g !! session_thread g s = Some s) by (apply (ok_map g Hg); eauto).
    assert (M2 : reg_sessions g !! session_thread g s = Some s') by (apply (ok_map g Hg); eauto).
    rewrite M1 in M2. injection M2 as <-. eauto using ok_unique.
  - intros k s err Hk. exact (ok_requests g Hg _ _ Hk).
Qed.

(** An executable reading of the steps, for concrete schedules. *)
Inductive registryAction := CallRun (threadID : string) | AdvanceRun (i : nat) (err : option error) | CallRequest (threadID : string) | AdvanceRequest (k : nat).
Definition perform (g : registry) (a : registryAction) : registry :=
  match a with
  | CallRun t => g <| reg_runs := reg_runs g ++ [RunEntered t] |>
  | AdvanceRun i err =>
      match reg_runs g !! i with
      | Some p => let out := advanceRun err p g in (fst out) <| reg_runs := <[i := snd out]> (reg_runs (fst out)) |>
      | None => g
      end
  | CallRequest t => g <| reg_requests := reg_requests g ++ [RequestEntered t] |>
  | AdvanceRequest k =>
      match reg_requests g !! k with
      | Some p => match advanceRequest None p g with
                  | Some out => (fst out) <| reg_requests := <[k := snd out]> (reg_requests (fst out)) |>
                  | None => g
                  end
      | None => g
      end
  end.
Lemma perform_sound g a : rtc registry_step g (perform g a).
Proof.
  destruct a as [t|i err|t|k]; cbn [perform].
  - apply rtc_once, ExecuteCalled.
  - destruct (reg_runs g !! i) as [p|] eqn:Ep; [|apply rtc_refl]. eapply rtc_once, RunAdvanced; [exact Ep|apply surjective_pairing].
  - apply rtc_once, HandoffRequested.
  - destruct (reg_requests g !! k) as [p|] eqn:Ep; [|apply rtc_refl]. destruct (advanceRequest None p g) as [[g' p']|] eqn:Ea; [|apply rtc_refl].
    eapply rtc_once, RequestAdvanced; [exact Ep|exact Ea].
Qed.
Lemma performs_sound actions g : rtc registry_step g (fold_left perform actions g).
Proof. revert g. induction actions as [|a l IH]; intros g; [apply rtc_refl|]. cbn. etrans; [apply perform_sound|apply IH]. Qed.

(** Two executions of one thread: the second looks before the first has stored its session, and is refused when it stores
    its own; a request hands the first off. *)
Definition sessions_last : registry :=
  fold_left perform
    [CallRun "t"; CallRun "t"; AdvanceRun 0 None; AdvanceRun 1 None; AdvanceRun 0 None; AdvanceRun 1 None; CallRequest "t"; AdvanceRequest 0;
     AdvanceRequest 0; AdvanceRun 0 (Some (ErrHandoffRequested : error)); AdvanceRequest 0] newRegistry.

Lemma one_active_run_witness :
  rtc registry_step newRegistry sessions_last
  /\ reg_runs sessions_last = [RunFinished 0; RunRefused (alreadyRunning "t")]
  /\ reg_requests sessions_last = [RequestCompleted 0 (Some (ErrHandoffRequested : error))]
  /\ reg_sessions sessions_last !! "t" = Some 0
  /\ exists ses, reg_heap sessions_last !! 0 = Some ses /\ is_Some (ses_cause ses) /\ ses_done ses = true
       /\ completionError ses = Some (ErrHandoffRequested : error).
Proof.
  assert (Hg : rtc registry_step newRegistry sessions_last) by apply performs_sound.
  destruct (one_active_run sessions_last Hg) as (Hm & _ & Hr).
  split; [exact Hg|]. split; [vm_compute; reflexivity|]. split; [vm_compute; reflexivity|].
  split; [apply Hm; exists 0, (RunFinished 0); split; [|split]; vm_compute; reflexivity | apply (Hr 0); vm_compute; reflexivity].
Defined.
