(* ===== verification/Stream.v ===== *)
(** * Streams of events

    runner_stream.go and the collection functions of stream_helpers.go. One goroutine runs the
    graph and publishes events into a buffered channel; consumers receive from it and may ask
    the run to stop. The three act concurrently: every atomic action of the source (a
    receive on the stop channel, a read of the length of the buffer, a send) is one step, and
    the run itself may do anything between two publications.

    Each call of the sink is given a context: it may be done already, may end at any point of
    the call, and stays done for the rest of it. *)

From stdpp Require Import relations.
From S2P Require Import Prelude Go Sha256 Json Identity Schedule Activity Waits Contract Children Wire Migration Integrity Aggregate Runtime Session ActivityCall Checkpointer Graph Handoff Runner Resume DurableSession DurableRunner.

Definition streamEventBufferSize : Z := 32.

Section Stream.
Context {T E : Type} (cloneState : option (T -> T)) (cloneEffect : option (E -> E)).
Notation event := (RunEvent T E).
Notation result := (option (RunResult T E)).

Definition cloneEvent (e : event) : event :=
  let '(mkEvent type pointer state effect err reason) := e in
  mkEvent type pointer (match cloneState with Some clone => clone state | None => state end)
    (match cloneEffect with Some clone => clone <$> effect | None => effect end) err reason.

(** Where a call of [publishEvent] is: entered; found no cancellation; found room and cloned;
    found no cancellation again; about to return. *)
Inductive publication := PubEntered (e : event) | PubAdmitted (e : event) | PubDetached (e : event) | PubReady (e : event) | PubReturned (delivered : bool).
(** The goroutine of the stream: running the graph, publishing, or ending in the order of the
    deferred calls. *)
Inductive producer := Running | Publishing (p : publication) | ResultSet | DoneClosed | EventsClosed.

Record streamHandle := mkStream {
  str_events : list event;
  str_stop : bool;
  str_onStop : bool;
  str_done : bool;
  str_closed : bool;
  str_result : result;
  str_err : option error;
  str_producer : producer;
  (** the context of the publication in progress is done *)
  str_ctxDone : bool;
  (** the event given to the sink, what consumers received and what was sent, for reasoning *)
  str_given : option event;
  str_received : list event;
  str_sent : list event;
}.
#[export] Instance eta_streamHandle : Eta streamHandle := fun s =>
  mkStream (str_events s) (str_stop s) (str_onStop s) (str_done s) (str_closed s) (str_result s) (str_err s) (str_producer s)
    (str_ctxDone s) (str_given s) (str_received s) (str_sent s).

(** The handle [startStream] returns. *)
Definition newStream : streamHandle := mkStream [] false false false false None None Running false None [] [].

Definition stopped (s : streamHandle) : bool := str_stop s.
Definition streamEventCanceled (s : streamHandle) : bool := str_stop s || str_ctxDone s.
Definition RequestStop (s : streamHandle) : streamHandle := if str_stop s then s else s <| str_stop := true |> <| str_onStop := true |>.

(** The steps of [publishEvent] up to its last [select]. *)
Definition publishEnter (e : event) (s : streamHandle) : publication :=
  if streamEventCanceled s then PubReturned false else PubAdmitted e.
Definition publishRoom (e : event) (s : streamHandle) : publication :=
  if (len (str_events s) == streamEventBufferSize)%Z then PubReturned true else PubDetached (cloneEvent e).
Definition publishRecheck (e : event) (s : streamHandle) : publication :=
  if streamEventCanceled s then PubReturned false else PubReady e.

Definition at_publication (p : publication) (s : streamHandle) : streamHandle := s <| str_producer := Publishing p |>.

Inductive publish_step : streamHandle -> streamHandle -> Prop :=
| PublishEnter e s : str_producer s = Publishing (PubEntered e) -> publish_step s (at_publication (publishEnter e s) s)
| PublishRoom e s : str_producer s = Publishing (PubAdmitted e) -> publish_step s (at_publication (publishRoom e s) s)
| PublishRecheck e s : str_producer s = Publishing (PubDetached e) -> publish_step s (at_publication (publishRecheck e s) s)
| SelectCanceled e s : str_producer s = Publishing (PubReady e) -> streamEventCanceled s = true ->
    publish_step s (at_publication (PubReturned false) s)
| SelectSend e s : str_producer s = Publishing (PubReady e) -> (len (str_events s) < streamEventBufferSize)%Z ->
    publish_step s (at_publication (PubReturned true) (s <| str_events := str_events s ++ [e] |> <| str_sent := str_sent s ++ [e] |>))
| SelectDefault e s : str_producer s = Publishing (PubReady e) -> streamEventCanceled s = false -> (streamEventBufferSize <= len (str_events s))%Z ->
    publish_step s (at_publication (PubReturned true) s)
| PublishReturn delivered s : str_producer s = Publishing (PubReturned delivered) -> publish_step s (s <| str_producer := Running |>).

(** [err] of the run as the stream reports it: a cancellation that the consumer asked for, and
    that left nothing unsaved, is no error. *)
Definition streamError (s : streamHandle) (ctxErr : option error) (err : option error) : option error :=
  match err with
  | Some e =>
      if errors_Is e ContextCanceled && stopped s && is_nil ctxErr && negb (errors_Is e ErrCheckpointSkipped) && negb (errors_Is e ErrRunCleanup)
      then None else Some e
  | None => None
  end.

Inductive stream_step : streamHandle -> streamHandle -> Prop :=
| StreamPublish s s' : publish_step s s' -> stream_step s s'
| SinkCalled ctxDone e s : str_producer s = Running ->
    stream_step s (at_publication (PubEntered e) (s <| str_ctxDone := ctxDone |> <| str_given := Some e |>))
| ContextDone s : stream_step s (s <| str_ctxDone := true |>)
| RunReturned r err ctxErr s : str_producer s = Running ->
    stream_step s (s <| str_result := r |> <| str_err := streamError s ctxErr err |> <| str_producer := ResultSet |>)
| CloseDone s : str_producer s = ResultSet -> stream_step s (s <| str_done := true |> <| str_producer := DoneClosed |>)
| CloseEvents s : str_producer s = DoneClosed -> stream_step s (s <| str_closed := true |> <| str_producer := EventsClosed |>)
| Receive e rest s : str_events s = e :: rest -> stream_step s (s <| str_events := rest |> <| str_received := str_received s ++ [e] |>)
| StopRequested s : stream_step s (RequestStop s).

(** [Wait] and [WaitResult]: defined once the stream is done. *)
Definition Wait (s : streamHandle) : option (option error) := if str_done s then Some (str_err s) else None.
Definition WaitResult (s : streamHandle) : option (result * option error) := if str_done s then Some (str_result s, str_err s) else None.

(** ** Collecting *)
Fixpoint terminalEventFromEvents (events : list event) : option event :=
  match events with
  | [] => None
  | e :: rest =>
      match terminalEventFromEvents rest with
      | Some last => Some last
      | None => if isTerminalEventType (evt_Type e) then Some e else None
      end
  end.

(** The drain loop of [ConsumeEventsAndWait]: the state of the callback, and whether a stop
    was requested. *)
Definition drainEvent {S} (onEvent : event -> S -> S * bool) (acc : S * bool) (e : event) : S * bool :=
  if acc.2 then acc else let '(st, more) := onEvent e acc.1 in (st, negb more).
Definition drainEvents {S} (onEvent : event -> S -> S * bool) (events : list event) (st : S) : S * bool :=
  fold_left (drainEvent onEvent) events (st, false).
(** [CollectEventsAndWait] keeps every event. *)
Definition collectEvent (e : event) (events : list event) : list event * bool := (events ++ [e], true).

(** What [ConsumeEventsAndWait] returns: the wait error, or the context error, joined with the
    wait error when the drain finishes before the second look at the context. *)
Definition consumeResult (ctxErr : option error) (waitErr : option (option error)) : option error :=
  match ctxErr, waitErr with
  | None, Some waitErr => waitErr
  | Some err, Some waitErr => errors_Join (Some err) waitErr
  | ctxErr, None => ctxErr
  end.

(** ** Invariants *)
Record stream_ok (s : streamHandle) : Prop := {
  sok_order : str_received s ++ str_events s = str_sent s;
  sok_room : (len (str_events s) <= streamEventBufferSize)%Z;
  sok_reserved : forall e, str_producer s = Publishing (PubDetached e) \/ str_producer s = Publishing (PubReady e) ->
    (len (str_events s) < streamEventBufferSize)%Z;
  sok_done : str_done s = true <-> str_producer s = DoneClosed \/ str_producer s = EventsClosed;
  sok_closed : str_closed s = true <-> str_producer s = EventsClosed;
  sok_stop : str_onStop s = str_stop s;
  sok_entered : forall e, str_producer s = Publishing (PubEntered e) \/ str_producer s = Publishing (PubAdmitted e) -> str_given s = Some e;
  sok_detached : forall e, str_producer s = Publishing (PubDetached e) \/ str_producer s = Publishing (PubReady e) ->
    exists given, str_given s = Some given /\ e = cloneEvent given;
}.

Lemma new_ok : stream_ok newStream.
Proof. split; cbn; try done; try by intros e [|]. split; [done|by intros [|]]. Qed.

Lemma length_cons_lt (e : event) rest : (len rest < len (e :: rest))%Z.
Proof. unfold len. cbn [length]. lia. Qed.

Lemma publish_keeps s s' : stream_ok s -> publish_step s s' -> stream_ok s'.
Proof.
  intros [H1 H2 H3 H4 H5 H6 H7 H8] Hs.
  destruct Hs as [e s Hp|e s Hp|e s Hp|e s Hp Hc|e s Hp Hl|e s Hp Hst Hl|delivered s Hp];
    split; cbn; try done; try (rewrite H4, Hp; naive_solver); try (rewrite H5, Hp; naive_solver); try (by intros e' [|]).
  - intros e' [He|He]; unfold publishEnter in He; by destruct (streamEventCanceled _).
  - intros e' He. unfold publishEnter in He. destruct (streamEventCanceled s); [by destruct He|]. destruct He as [|[= <-]]; [done|]. apply H7. by left.
  - intros e' He. unfold publishEnter in He. destruct (streamEventCanceled s); by destruct He.
  - intros e' He. unfold publishRoom in He. case_bool_decide as Hl; [by destruct He|]. lia.
  - intros e' He. unfold publishRoom in He. case_bool_decide; by destruct He.
  - intros e' He. unfold publishRoom in He. case_bool_decide; [by destruct He|]. destruct He as [[= <-]|]; [|done]. exists e. split; [|done]. apply H7. by right.
  - intros e' _. apply (H3 e). by left.
  - intros e' He. unfold publishRecheck in He. destruct (streamEventCanceled s); by destruct He.
  - intros e' He. unfold publishRecheck in He. destruct (streamEventCanceled s); [by destruct He|]. destruct He as [|[= <-]]; [done|]. apply H8. by left.
  - by rewrite app_assoc, H1.
  - rewrite len_app. change (len [e]) with 1%Z. lia.
Qed.

Lemma stream_keeps s s' : stream_ok s -> stream_step s s' -> stream_ok s'.
Proof.
  intros Hok Hs. destruct Hs as [s s' Hs|done e s Hp|s|r err ctxErr s Hp|s Hp|s Hp|e rest s He|s]; [by eapply publish_keeps|..];
    destruct Hok as [H1 H2 H3 H4 H5 H6 H7 H8].
  1,3-5: split; cbn; try done; try (by intros e' [|]); try (rewrite H4, Hp; naive_solver); try (rewrite H5, Hp; naive_solver); naive_solver.
  - by split.
  - pose proof (length_cons_lt e rest) as Hl. rewrite He in *. split; cbn; try done.
    + by rewrite <- app_assoc.
    + lia.
    + intros e' Hp. specialize (H3 e' Hp). lia.
  - unfold RequestStop. destruct (str_stop s) eqn:Es; split; cbn; try done; congruence.
Qed.

Lemma stream_reachable s : rtc stream_step newStream s -> stream_ok s.
Proof. intros Hr. apply (rtc_ind_r (R := stream_step) (fun s => stream_ok s) newStream); [apply new_ok| |done]. intros x y _ Hs Hx. by eapply stream_keeps. Qed.

(** C24: a stream delivers in order, never over its capacity, and never blocks the run. In every
    state it can reach, what consumers received followed by what is buffered is exactly what
    was sent, in order; at most [streamEventBufferSize] events are buffered. A publication
    whose next step ends it sends the event it was given, detached by the clone functions of
    the host, or drops it; it drops it as delivered only where the buffer is full at that
    step, and as undelivered only where a stop was requested or the context of the call is
    done; and until its end it sends nothing. Whatever consumers do, a publication can take
    its next step by itself; and the events close only after the result is set for good. *)
Theorem stream_delivery s : rtc stream_step newStream s ->
  str_received s ++ str_events s = str_sent s /\
  (len (str_events s) <= streamEventBufferSize)%Z /\
  (forall s', publish_step s s' ->
     match str_producer s' with
     | Publishing (PubReturned true) =>
         (exists given, str_given s = Some given /\ str_sent s' = str_sent s ++ [cloneEvent given]) \/
         (len (str_events s) = streamEventBufferSize /\ str_sent s' = str_sent s)
     | Publishing (PubReturned false) => (str_stop s = true \/ str_ctxDone s = true) /\ str_sent s' = str_sent s
     | _ => str_sent s' = str_sent s
     end) /\
  (forall p, str_producer s = Publishing p -> exists s', publish_step s s') /\
  (str_closed s = true -> str_done s = true) /\
  (str_done s = true -> forall s', stream_step s s' -> WaitResult s' = WaitResult s /\ str_sent s' = str_sent s).
Proof.
  intros Hr. apply stream_reachable in Hr as [H1 H2 H3 H4 H5 H6 H7 H8]. split; [done|]. split; [done|]. split; [|split; [|split]].
  - assert (Hcan : streamEventCanceled s = true -> str_stop s = true \/ str_ctxDone s = true) by by intros ?%orb_true_iff.
    intros s' Hs. destruct Hs as [e s Hp|e s Hp|e s Hp|e s Hp Hc|e s Hp Hl|e s Hp Hst Hl|delivered s Hp]; cbn.
    + unfold publishEnter. destruct (streamEventCanceled s); [|done]. split; [by apply Hcan|done].
    + unfold publishRoom. case_bool_decide; [|done]. by right.
    + unfold publishRecheck. destruct (streamEventCanceled s); [|done]. split; [by apply Hcan|done].
    + split; [by apply Hcan|done].
    + left. destruct (H8 e (or_intror Hp)) as (given & Hg & ->). by exists given.
    + specialize (H3 e (or_intror Hp)). lia.
    + done.
  - intros [e|e|e|e|delivered] Hp; eexists.
    + by apply (PublishEnter e).
    + by apply (PublishRoom e).
    + by apply (PublishRecheck e).
    + apply (SelectSend e); [done|]. apply (H3 e). by right.
    + by apply (PublishReturn delivered).
  - rewrite H4, H5. by right.
  - intros Hd s' Hs. apply H4 in Hd as Hp. unfold WaitResult.
    destruct Hs as [s s' Hs|? ? s Hp'|s|? ? ? s Hp'|s Hp'|s Hp'|? ? s He|s]; try (rewrite Hp' in Hp; by destruct Hp); try (split; reflexivity).
    + destruct Hs as [? s Hp'|? s Hp'|? s Hp'|? s Hp' ?|? s Hp' ?|? s Hp' ? ?|? s Hp']; rewrite Hp' in Hp; by destruct Hp.
    + unfold RequestStop. destruct (str_stop s); split; reflexivity.
Qed.

(** The drain loop calls the callback on the events up to the first it refuses and on no
    other. *)
Lemma drain_refused {S} (onEvent : event -> S -> S * bool) events st : fold_left (drainEvent onEvent) events (st, true) = (st, true).
Proof. induction events as [|e events IH]; [done|]. cbn. exact IH. Qed.
Lemma drain_prefix {S} (onEvent : event -> S -> S * bool) events st : exists before after, events = before ++ after /\
  drainEvents onEvent events st = (fold_left (fun st e => (onEvent e st).1) before st, (drainEvents onEvent before st).2) /\
  ((drainEvents onEvent events st).2 = false -> after = []).
Proof.
  unfold drainEvents. revert st. induction events as [|e events IH]; intros st; [by exists [], []|]. cbn. destruct (onEvent e st) as [st1 []] eqn:Eo; cbn.
  - destruct (IH st1) as (before & after & -> & H1 & H2). exists (e :: before), after. cbn. rewrite Eo. cbn. by split_and!.
  - exists [e], events. cbn. rewrite Eo. cbn. rewrite drain_refused. by split_and!.
Qed.

(** Collecting keeps every event that was received, in order. *)
Lemma collect_all events acc : drainEvents collectEvent events acc = (acc ++ events, false).
Proof.
  unfold drainEvents. revert acc. induction events as [|e events IH]; intros acc; cbn; [by rewrite app_nil_r|]. rewrite IH. by rewrite <- app_assoc.
Qed.
End Stream.

(** ** One event through a stream *)
Definition event_x : RunEvent Z Z := mkEvent EventNodeStarted "a" 7%Z None None "".
Definition given_x (p : publication) : streamHandle (T := Z) (E := Z) := newStream <| str_given := Some event_x |> <| str_producer := Publishing p |>.
Definition sent_x : streamHandle (T := Z) (E := Z) :=
  (given_x (PubReturned true)) <| str_events := [event_x] |> <| str_sent := [event_x] |>.

Lemma event_sent : rtc (stream_step (T := Z) (E := Z) None None) newStream sent_x.
Proof.
  apply (rtc_l _ _ (given_x (PubEntered event_x))); [by apply (SinkCalled _ _ false event_x newStream)|].
  apply (rtc_l _ _ (given_x (PubAdmitted event_x))); [apply StreamPublish; by apply (PublishEnter _ _ event_x (given_x (PubEntered event_x)))|].
  apply (rtc_l _ _ (given_x (PubDetached event_x))); [apply StreamPublish; by apply (PublishRoom None None event_x (given_x (PubAdmitted event_x)))|].
  apply (rtc_l _ _ (given_x (PubReady event_x))); [apply StreamPublish; by apply (PublishRecheck _ _ event_x (given_x (PubDetached event_x)))|].
  apply rtc_once, StreamPublish. by apply (SelectSend _ _ event_x (given_x (PubReady event_x))).
Qed.

Lemma stream_delivery_witness : [] ++ [event_x] = str_sent sent_x /\ (len (str_events sent_x) <= streamEventBufferSize)%Z.
Proof.
  destruct (stream_delivery (T := Z) (E := Z) None None sent_x event_sent) as (H1 & H2 & _). split; [exact H1|exact H2].
Defined.
