(* ===== verification/Lifecycle.v ===== *)
(** * Forks, imports and rollovers

    execution_fork.go, execution_import.go and execution_rollover.go: operations that create a
    saved boundary without running a node. The source of a fork is read from history and never
    changed; an import and a fork refuse an identity that exists; a rollover is one publication
    of the store, and an identical request is answered from its receipt. *)

From S2P Require Import Prelude Go Sha256 Json Identity Schedule Activity Waits Contract Children Wire Migration Integrity Aggregate Runtime Session ActivityCall Checkpointer Graph Handoff Runner Resume DurableSession DurableRunner.

(** A nil function is [None]. *)
Record ForkTransform := mkForkTransform {
  ftr_Label : string; ftr_Source : ExecutionDescriptor; ftr_Transform : option (ExecutionProgress -> res ExecutionProgress);
}.
Record ForkProjection := mkForkProjection { fpj_Label : string; fpj_Project : option (ExecutionProgress -> res ExecutionProgress) }.
Record ForkRequest := mkForkRequest {
  frq_Source : HistoricalCheckpointReference;
  frq_TargetID : string;
  frq_Mode : ForkActivityMode;
  frq_PolicyLabel : string;
  frq_Transform : ForkTransform;
  frq_Projection : option ForkProjection;
}.
Definition defaultForkPolicy : string := "fake".

Record ImportedExecutionState := mkImported { ims_Progress : ExecutionProgress; ims_EffectsPayload : string; ims_RunMeta : RunMetadata }.
Record ExecutionImporter := mkImporter {
  imr_ID : string; imr_Format : string; imr_Transform : option (string -> res ImportedExecutionState);
}.

Record RolloverPayload := mkRolloverPayload { rpa_Progress : ExecutionProgress; rpa_EffectsPayload : string }.
Record RolloverRequest := mkRolloverRequest {
  rrq_TargetID : string;
  rrq_DecisionID : string;
  rrq_ProjectionLabel : string;
  rrq_SourceDescriptor : ExecutionDescriptor;
  rrq_Policy : RolloverPolicy;
  rrq_Project : option (RolloverPayload -> res RolloverPayload);
}.

Section Lifecycle.
Context {W T E : Type} `{HC : Codecs} `{HS : ExecutionStore W} `{HW : WorldHost W T E}.
Context (r : DurableRunner W T E).

(** ** Forks *)
Definition inspectCheckpoint (source : HistoricalCheckpointReference) : io W ExecutionEnvelope := fun w =>
  match validateReference source, cap_history (drn_store r) with
  | None, Some loadCheckpoint =>
      let '(w, loaded) := loadCheckpoint (ref_ExecutionID source) (ref_Revision source) w in
      (w, InspectExecutionCheckpoint (Some (fun _ _ => loaded)) source)
  | _, _ => (w, InspectExecutionCheckpoint None source)
  end.

Definition prepareForkLineage (source : ExecutionEnvelope) (request : ForkRequest) : io W ForkLineage :=
  let mode := if frq_Mode request == NotForked then ForkFake else frq_Mode request in
  let label := if (frq_PolicyLabel request == "") && (mode == ForkFake) then defaultForkPolicy else frq_PolicyLabel request in
  let% projectionLabel := io_lift (match frq_Projection request with
                                   | None => Ok ""
                                   | Some projection =>
                                       if (fpj_Label projection == "") || is_nil (fpj_Project projection) then Err ErrForkPolicy
                                       else Ok (fpj_Label projection)
                                   end) in
  let% now := io_read clock_Now in
  let lineage := mkForkLineage (frq_Source request) (env_Descriptor source) (drn_descriptor r) (frq_TargetID request) mode label
                   (ftr_Label (frq_Transform request)) projectionLabel (toUTC now) in
  do% io_lift (check (validateForkLineage lineage)) in
  guard% negb (is_nil (ftr_Transform (frq_Transform request))
               || negb (is_nil (checkDescriptor (ftr_Source (frq_Transform request)) (env_Descriptor source)))) else ErrExecutionIncompatible in
  do% io_lift (check (forkSourceSettled source)) in
  do% (if (mode == ForkLive) || negb (is_nil (dop_ForkPolicy (drn_options r))) then checkForkPolicy r (Some lineage) else io_ret tt) in
  io_ret lineage.

Definition forkTargetAbsent (id : string) : io W unit := fun w =>
  match store_load w id with
  | (w, Err err) => (w, if errors_Is err ErrThreadNotFound then Ok tt else Err err)
  | (w, Ok _) => (w, Err ErrForkTargetConflict)
  end.

Definition forked (f : option (ExecutionProgress -> res ExecutionProgress)) (progress : ExecutionProgress) : res ExecutionProgress :=
  match f with
  | None => Ok progress
  | Some f => match f progress with Ok progress => Ok progress | Err err => Err (ErrJoin ErrForkTransform err) end
  end.
Definition transformForkProgress (source : ExecutionEnvelope) (request : ForkRequest) : io W ExecutionProgress :=
  do% live in
  let% progress := io_lift (forked (ftr_Transform (frq_Transform request)) (env_Progress source)) in
  let% progress := io_lift (forked (frq_Projection request ≫= fpj_Project) progress) in
  let progress := progress <| prg_ChildCursors := ∅ |> <| prg_JournalReferences := ∅ |> <| prg_ChildGroupReferences := ∅ |> in
  do% io_lift (match validatePointer r (prg_ExecutionPointer progress) with
               | Some err => Err (ErrJoin ErrExecutionIncompatible err)
               | None => Ok tt
               end) in
  do% live in
  io_lift (match Unmarshal (drn_stateCodec r) (prg_StatePayload progress) with
           | Err err => Err (ErrJoin ErrExecutionIncompatible err)
           | Ok _ => Ok progress
           end).

Definition Fork (request : ForkRequest) : st W (outcome ResumeToken) :=
  before (inspectCheckpoint (frq_Source request)) (fun source =>
  before (let% lineage := prepareForkLineage source request in
          do% io_lift (check (checkRuntimeProfile r (dop_WaitProfile (drn_options r)))) in
          do% forkTargetAbsent (frq_TargetID request) in
          io_ret lineage) (fun lineage =>
  withSession r (frq_TargetID request) (fun lease =>
    do% forkTargetAbsent (frq_TargetID request) in
    let% progress := transformForkProgress source request in
    let% effects := io_lift (match Marshal (drn_effectsCodec r) [] with
                             | Err err => Err (ErrJoin ErrExecutionIncompatible err)
                             | Ok effects => Ok effects
                             end) in
    do% live in
    let% meta := newMeta (T := T) (E := E) in
    let% context := io_read (world_telemetry T E) in
    let% committed := commitExecution 0 lease
      ((first_envelope r (frq_TargetID request) progress effects (meta <| met_TelemetryContext := context |>)) <| env_Fork := Some lineage |>) in
    io_ret (mkToken (frq_TargetID request) (env_Revision committed))))).

(** ** Imports *)
Definition wrapped {A} (e : sentinel) (out : res A) : res A := match out with Ok a => Ok a | Err err => Err (ErrJoin e err) end.
Definition importedEnvelope (id : string) (source : LegacyExecutionSource) (importerID : string) (state : ImportedExecutionState)
  : ExecutionEnvelope :=
  (first_envelope r id (ims_Progress state) (ims_EffectsPayload state) (ims_RunMeta state))
    <| env_Import := Some (mkImport source importerID) |>.

Definition Import (id : string) (source : LegacyExecutionSource) (importer : ExecutionImporter) : st W (outcome ResumeToken) :=
  match imr_Transform importer with
  | None => fun w => (w, (None, Some (ErrExecutionImportInvalid : error)))
  | Some transform =>
      before (io_lift (
        if (imr_ID importer == "") || (imr_Format importer != leg_Format source) || negb (validRuntimeText [imr_ID importer])
        then Err ErrExecutionImportInvalid
        else check (validateLegacySource source);; check (checkRuntimeProfile r (dop_WaitProfile (drn_options r))))) (fun _ =>
      withSession r id (fun lease =>
        do% (fun w => match store_load w id with
                      | (w, Ok _) => (w, Err ErrConcurrencyConflict)
                      | (w, Err err) => (w, if errors_Is err ErrThreadNotFound then Ok tt else Err err)
                      end) in
        do% live in
        let% state := io_lift (wrapped ErrExecutionImportInvalid (transform (leg_Payload source))) in
        do% live in
        do% io_lift (wrapped ErrExecutionImportInvalid (check (validatePointer r (prg_ExecutionPointer (ims_Progress state))))) in
        do% io_lift (wrapped ErrExecutionImportInvalid (Unmarshal (drn_stateCodec r) (prg_StatePayload (ims_Progress state)))) in
        do% io_lift (wrapped ErrExecutionImportInvalid (Unmarshal (drn_effectsCodec r) (ims_EffectsPayload state))) in
        do% live in
        let envelope := importedEnvelope id source (imr_ID importer) state in
        do% io_lift (wrapped ErrExecutionImportInvalid (check (validateExecutionCollections envelope))) in
        do% io_lift (wrapped ErrExecutionImportInvalid (check (validateExecutionSourceMetadata envelope))) in
        let% committed := commitExecution 0 lease envelope in
        io_ret (mkToken id (env_Revision committed))))
  end.

(** ** Rollovers *)
Definition replayRollover (token : ResumeToken) (request : RolloverRequest) (prior : RolloverReceipt) : res ResumeToken :=
  if negb (is_nil (validateReceipt prior)) then Err ErrExecutionCorrupt
  else
    let source := rol_Source (rcp_Lineage prior) in
    let digest := rolloverRequestDigest source (rrq_SourceDescriptor request) (drn_descriptor r) (rrq_TargetID request)
                    (rrq_DecisionID request) (rrq_Policy request) (rrq_ProjectionLabel request) in
    if (ref_Revision source != tok_SnapshotRevision token) || (digest != rol_RequestDigest (rcp_Lineage prior))
    then Err ErrExecutionRolloverConflict
    else Ok (mkToken (ref_ExecutionID (rcp_Target prior)) (ref_Revision (rcp_Target prior))).

Definition rolloverTarget (source : ExecutionEnvelope) (request : RolloverRequest) (payload : RolloverPayload)
    (reference : HistoricalCheckpointReference) : io W ExecutionEnvelope :=
  let% now := io_read clock_Now in
  let digest := rolloverRequestDigest reference (env_Descriptor source) (drn_descriptor r) (rrq_TargetID request)
                  (rrq_DecisionID request) (rrq_Policy request) (rrq_ProjectionLabel request) in
  let lineage := mkRolloverLineage reference (env_Descriptor source) (drn_descriptor r) (rrq_TargetID request) (rrq_DecisionID request)
                   (rrq_Policy request) (rrq_ProjectionLabel request) digest (toUTC now) in
  let% meta := newMeta (T := T) (E := E) in
  let meta := meta <| met_StepCount := 0%Z |> <| met_RetryCounts := met_RetryCounts (env_RunMeta source) |>
                   <| met_BudgetCounts := met_BudgetCounts (env_RunMeta source) |>
                   <| met_TelemetryContext := met_TelemetryContext (env_RunMeta source) |> in
  io_ret ((first_envelope r (rrq_TargetID request) (rpa_Progress payload) (rpa_EffectsPayload payload) meta)
            <| env_Rollover := Some lineage |>).

Definition prepareRolloverTarget (source : ExecutionEnvelope) (request : RolloverRequest) (project : RolloverPayload -> res RolloverPayload)
  : io W (HistoricalCheckpointReference * ExecutionEnvelope) :=
  let% payload := io_lift (wrapped ErrExecutionLifecycleUnsafe (project (mkRolloverPayload (env_Progress source) (env_EffectsPayload source)))) in
  let progress := rpa_Progress payload in
  guard% bool_decide (prg_ChildCursors progress = ∅ /\ prg_JournalReferences progress = ∅ /\ prg_ChildGroupReferences progress = ∅)
    else ErrExecutionLifecycleUnsafe in
  do% io_lift (check (validatePointer r (prg_ExecutionPointer progress))) in
  let reference := mkReference (env_ExecutionID source) (env_Revision source) (env_Digest source) in
  let% target := rolloverTarget source request payload reference in
  do% io_lift (wrapped ErrExecutionIncompatible (check (validateTargetCodecs r target))) in
  io_ret (reference, target).

Definition validRolloverRequest (token : ResumeToken) (request : RolloverRequest) : bool :=
  negb ((tok_ThreadID token == "") || (tok_SnapshotRevision token == 0%N) || (rrq_TargetID request == "")
        || (rrq_TargetID request == tok_ThreadID token) || (rrq_DecisionID request == "") || (rrq_ProjectionLabel request == "")
        || is_nil (rrq_Project request)
        || negb (validRuntimeText [tok_ThreadID token; rrq_TargetID request; rrq_DecisionID request; rrq_ProjectionLabel request])
        || negb (is_nil (validateRolloverPolicy (rrq_Policy request))) || negb (is_nil (validateDescriptor (rrq_SourceDescriptor request)))).

Definition Rollover (token : ResumeToken) (request : RolloverRequest) : st W (outcome ResumeToken) :=
  match cap_rollover (drn_store r), rrq_Project request with
  | None, _ => fun w => (w, (None, Some (ErrExecutionLifecycleUnsupported : error)))
  | Some _, None => fun w => (w, (None, Some (ErrExecutionRolloverConflict : error)))
  | Some store, Some project =>
      before (io_lift (if validRolloverRequest token request then Ok tt else Err ErrExecutionRolloverConflict)) (fun _ =>
      withSession r (tok_ThreadID token) (fun lease =>
        let% prior := rst_LoadRollover store (tok_ThreadID token) in
        match prior with
        | Some prior => io_lift (replayRollover token request prior)
        | None =>
            let% source := (fun w => store_load w (tok_ThreadID token)) in
            guard% negb (env_Revision source != tok_SnapshotRevision token) else ErrConcurrencyConflict in
            do% io_lift (check (ValidateExecutionIntegrity source (tok_ThreadID token) (tok_SnapshotRevision token))) in
            do% io_lift (check (checkDescriptor (env_Descriptor source) (rrq_SourceDescriptor request))) in
            do% io_lift (check (validateRolloverSource source)) in
            do% io_lift (check (validateRolloverRecordLimit source (rrq_Policy request))) in
            let% prepared := prepareRolloverTarget source request project in
            do% live in
            let% receipt := rst_CommitRollover store lease prepared.1 prepared.2 in
            do% io_lift (check (validateReceipt receipt)) in
            io_ret (mkToken (ref_ExecutionID (rcp_Target receipt)) (ref_Revision (rcp_Target receipt)))
        end))
  end.
End Lifecycle.
