(* ===== verification/Operators.v ===== *)
(** * Operator decisions

    The exported operations of the durable runner that settle what a run left open:
    [ResolveActivity] (activity_resolution.go), [DeliverWait] (durable_wait_delivery.go),
    [CancelWait] (durable_wait_cancellation.go), [ConfirmChildCancellation]
    (child_cancel_confirmation.go), [ResolveChildWait] (child_wait.go) and
    [ResolveChildOutcome] (child_outcome_resolution.go). Each loads the head under a lease,
    checks it, changes one record and commits once; none runs a node. *)

From S2P Require Import Prelude Go Sha256 Json Identity Schedule Activity Waits Contract Children Wire Migration Integrity Aggregate Runtime Session ActivityCall Checkpointer Graph Handoff Runner Resume DurableSession DurableRunner.

(** [Match] and [Apply] are host functions of the context; nil is [None]. *)
Record WaitDeliveryContract (W T : Type) := mkDeliveryContract {
  wdl_MatcherLabel : string;
  wdl_PayloadCodec : string;
  wdl_ContinuationLabel : string;
  wdl_Match : option (string -> W -> W * res bool);
  wdl_Apply : option (T -> WaitDelivery -> W -> W * res T);
}.
Arguments mkDeliveryContract {W T} _ _ _ _ _.
Arguments wdl_MatcherLabel {W T} _.
Arguments wdl_PayloadCodec {W T} _.
Arguments wdl_ContinuationLabel {W T} _.
Arguments wdl_Match {W T} _.
Arguments wdl_Apply {W T} _.
Record WaitDeliveryResult := mkDeliveryResult { wdr_Decision : WaitDecision; wdr_ResumeToken : ResumeToken; wdr_Replay : bool }.

Definition findWaitGeneration (waits : gmap string DurableWaitRecord) (generation : string) : res (string * DurableWaitRecord) :=
  if bool_decide (waits = ∅) then Err ErrWaitNotArmed
  else of_option (List.find (fun kv => wt_Generation kv.2 == generation) (range waits)) ErrWaitUnknown.

Section Operators.
Context {W T E : Type} `{HC : Codecs} `{HS : ExecutionStore W} `{HW : WorldHost W T E}.
Context (r : DurableRunner W T E).
Notation load id := (fun w => store_load w id).

(** The commit that ends an operation, and the token it returns. *)
Definition commitDecision (id : string) (source : ExecutionEnvelope) (lease : ExecutionLease) (target : ExecutionEnvelope) : io W ResumeToken :=
  do% live in
  let% committed := commitExecution (env_Revision source) lease target in
  io_ret (mkToken id (env_Revision committed)).

Definition invalidImport (envelope : ExecutionEnvelope) : bool :=
  match env_Import envelope with
  | Some i => (imp_ImporterID i == "") || negb (is_nil (validateLegacySource (imp_Source i)))
  | None => false
  end.

(** [childMutationSource], and the same checks in [ResolveActivity]; [terminalErr] is what a
    finished execution is refused with. *)
Definition mutationSource (terminalErr : sentinel) (token : ResumeToken) : io W ExecutionEnvelope :=
  let% source := load (tok_ThreadID token) in
  do% io_lift (check (ValidateExecutionIntegrity source (tok_ThreadID token) (env_Revision source))) in
  guard% negb ((tok_SnapshotRevision token == 0%N) || (tok_SnapshotRevision token != env_Revision source)) else ErrConcurrencyConflict in
  do% io_lift (check (validateExecutionCollections source)) in
  do% io_lift (check (checkDescriptor (env_Descriptor source) (drn_descriptor r))) in
  guard% is_nil (env_Terminal source) else terminalErr in
  do% io_lift (check (validatePointer r (prg_ExecutionPointer (env_Progress source)))) in
  guard% negb (invalidImport source) else ErrExecutionImportInvalid in
  io_ret source.
Definition childMutationSource (token : ResumeToken) : io W ExecutionEnvelope := mutationSource ErrChildRevision token.

(** ** Activities *)
Definition resolutionActivityRecord (source : ExecutionEnvelope) (resolution : ActivityResolution)
  : res (gmap string ActivityRecord * ActivityRecord) :=
  journal ← executionActivityJournal source;
  record ← of_option (journal !! rq_Identity resolution) ErrActivityConflict;
  check (resolutionRecordError record (boundActivityIdentity source (rec_Key record)) resolution);;
  Ok (journal, record).

Definition prepareActivityResolutionTarget (source : ExecutionEnvelope) (lease : ExecutionLease) (journal : gmap string ActivityRecord)
    (record : ActivityRecord) (resolution : ActivityResolution) : io W ExecutionEnvelope :=
  let% now := io_read clock_Now in
  let% random := io_read retry_random in
  let% record := io_lift (resolveActivityRecord record resolution (env_Revision source) (lse_Incarnation lease) (toUTC now) random) in
  let% payload := io_lift (of_option (marshal (<[rec_Identity record := record]> journal)) json_error) in
  io_ret ((cloneExecutionEnvelope source) <| env_JournalPayload := payload |>).

Definition ResolveActivity (token : ResumeToken) (resolution : ActivityResolution) : st W (outcome ResumeToken) :=
  before (io_lift (if validActivityResolutionRequest resolution then Ok tt else Err ErrActivityConflict)) (fun _ =>
  withSession r (tok_ThreadID token) (fun lease =>
    let% source := mutationSource ErrActivityConflict token in
    let% found := io_lift (resolutionActivityRecord source resolution) in
    let% target := prepareActivityResolutionTarget source lease found.1 found.2 resolution in
    commitDecision (tok_ThreadID token) source lease target)).

(** ** Waits *)
Definition checkDeliveryContract (contract : WaitDeliveryContract W T) (spec : DurableWaitSpec) : option error :=
  if (wdl_MatcherLabel contract != wsp_MatcherLabel spec) || (wdl_PayloadCodec contract != wsp_PayloadCodec spec)
     || (wdl_ContinuationLabel contract != wsp_ContinuationLabel spec)
  then Some (ErrExecutionIncompatible : error) else None.

Definition waitDeliverySource (id generation : string) : io W (ExecutionEnvelope * gmap string DurableWaitRecord) := fun w =>
  match store_load w id with
  | (w, Err err) => (w, Err (if errors_Is err ErrThreadNotFound then ErrWaitNotArmed : error else err))
  | (w, Ok source) =>
      (w, check (ValidateExecutionIntegrity source id (env_Revision source));;
          waits ← validateExecutionCollectionsWithWaits source;
          check (validateExecutionSourceMetadata source);;
          check (checkRuntimeProfile r (env_RuntimeProfile source));;
          found ← findWaitGeneration waits generation;
          let spec := wt_Spec found.2 in
          check (checkRuntimeProfile r (Some (wt_Profile found.2)));;
          check (checkDescriptor (env_Descriptor source) (drn_descriptor r));;
          if negb (is_nil (validatePointer r (prg_ExecutionPointer (env_Progress source)))) then Err ErrExecutionIncompatible
          else if negb (is_nil (validatePointer r (wsp_EventPointer spec))) || negb (is_nil (validatePointer r (wsp_TimeoutPointer spec)))
          then Err ErrExecutionIncompatible
          else Ok (source, waits))
  end.

Definition prepareWaitDelivery (lease : ExecutionLease) (source : ExecutionEnvelope) (record : DurableWaitRecord) (delivery : WaitDelivery)
    (contract : WaitDeliveryContract W T) : io W (DurableWaitRecord * WaitDecision * bool) :=
  let% now := io_read clock_Now in
  let now := toUTC now in
  let prepare := prepareWaitDecision record delivery (env_Revision source) (lse_Incarnation lease) now in
  let% prepared := io_lift (prepare false) in
  if prepared.2 || (wt_State record != WaitArmed) || (dlv_Kind delivery != WaitEvent) then io_ret prepared
  else match wdl_Match contract with
  | None => io_lift (Err ErrWaitInvalid)
  | Some matches =>
      do% live in
      let% matched := matches (dlv_Payload delivery) in
      do% live in
      io_lift (prepare matched)
  end.

Definition continuationPointer (spec : DurableWaitSpec) (delivery : WaitDelivery) : ExecutionPointer :=
  if dlv_Kind delivery == WaitTimer then wsp_TimeoutPointer spec else wsp_EventPointer spec.
Definition applyWaitContinuation (target : ExecutionEnvelope) (spec : DurableWaitSpec) (delivery : WaitDelivery)
    (contract : WaitDeliveryContract W T) : io W ExecutionEnvelope :=
  match wdl_Apply contract with
  | None => io_lift (Err ErrWaitInvalid)
  | Some apply =>
      guard% negb (env_Activation target == max_uint64) else ErrWaitInvalid in
      do% live in
      let% state := io_lift (Unmarshal (drn_stateCodec r) (prg_StatePayload (env_Progress target))) in
      do% live in
      let% state := apply state delivery in
      do% live in
      let% encoded := io_lift (Marshal (drn_stateCodec r) state) in
      io_ret (target <| env_Activation := succ_u64 (env_Activation target) |>
                <| env_Progress := (env_Progress target) <| prg_StatePayload := encoded |>
                     <| prg_ExecutionPointer := continuationPointer spec delivery |>
                     <| prg_JournalReferences := ∅ |> <| prg_ChildGroupReferences := ∅ |> |>)
  end.

Definition validDeliveryText (executionID : string) (delivery : WaitDelivery) : bool :=
  negb ((executionID == "") || (dlv_Generation delivery == "") || (dlv_ID delivery == "")
        || negb (validRuntimeText [executionID; dlv_Generation delivery; dlv_ID delivery; dlv_CorrelationID delivery])).

Definition deliverUnder (executionID : string) (delivery : WaitDelivery) (contract : WaitDeliveryContract W T) (lease : ExecutionLease)
  : io W WaitDeliveryResult :=
  let% found := waitDeliverySource executionID (dlv_Generation delivery) in
  let '(source, waits) := found in
  let% addressed := io_lift (findWaitGeneration waits (dlv_Generation delivery)) in
  let '(identity, record) := addressed in
  do% io_lift (check (checkDeliveryContract contract (wt_Spec record))) in
  let% prepared := prepareWaitDelivery lease source record delivery contract in
  let '(targetRecord, decision, replay) := prepared in
  if replay then io_ret (mkDeliveryResult decision (mkToken executionID (env_Revision source)) true)
  else
    let% target := (if wdc_Status decision == WaitAccepted
                    then applyWaitContinuation (cloneExecutionEnvelope source) (wt_Spec record) delivery contract
                    else io_ret (cloneExecutionEnvelope source)) in
    let% payload := io_lift (of_option (marshal (<[identity := targetRecord]> waits)) json_error) in
    do% live in
    let% committed := commitExecution (env_Revision source) lease (target <| env_WaitsPayload := payload |>) in
    io_ret (mkDeliveryResult decision (mkToken executionID (env_Revision committed)) false).

Definition DeliverWait (executionID : string) (delivery : WaitDelivery) (contract : WaitDeliveryContract W T)
  : st W (outcome WaitDeliveryResult) :=
  before (do% io_lift (if validDeliveryText executionID delivery then Ok tt else Err ErrWaitInvalid) in
          waitDeliverySource executionID (dlv_Generation delivery)) (fun _ =>
  withSession r executionID (deliverUnder executionID delivery contract)).

Definition cancelUnder (token : ResumeToken) (request : WaitCancellation) (lease : ExecutionLease) : io W ResumeToken :=
  let% found := waitDeliverySource (tok_ThreadID token) (wcr_Generation request) in
  let '(source, waits) := found in
  let% addressed := io_lift (findWaitGeneration waits (wcr_Generation request)) in
  let '(identity, record) := addressed in
  do% io_lift (check (validateWaitCancellationRequest (env_Revision source) (negb (is_nil (env_Terminal source))) record
                        (tok_SnapshotRevision token) request)) in
  if wt_State record == WaitCanceled then io_ret (mkToken (tok_ThreadID token) (env_Revision source))
  else
    let% now := io_read clock_Now in
    guard% negb (IsZero (toUTC now)) else ErrWaitInvalid in
    let canceled := cancelWaitRecord record request (env_Revision source) (lse_Incarnation lease) (toUTC now) in
    let% payload := io_lift (of_option (marshal (<[identity := canceled]> waits)) json_error) in
    let% ended := io_read (world_now T E) in
    commitDecision (tok_ThreadID token) source lease
      ((cloneExecutionEnvelope source) <| env_WaitsPayload := payload |>
         <| env_Terminal := Some (mkTerminal RunStatusFailed durableWaitCanceledReason
                                    (Some (mkFailure (durableWaitCanceledReason +:+ ": " +:+ wcr_Reason request)))) |>
         <| env_RunMeta := markSegmentFailed (env_RunMeta source) ended |>).

Definition CancelWait (token : ResumeToken) (request : WaitCancellation) : st W (outcome ResumeToken) :=
  before (do% io_lift (if validWaitCancellationText (tok_ThreadID token) (tok_SnapshotRevision token) request then Ok tt else Err ErrWaitInvalid) in
          waitDeliverySource (tok_ThreadID token) (wcr_Generation request)) (fun _ =>
  withSession r (tok_ThreadID token) (cancelUnder token request)).

(** ** Children *)
(** The group addressed by a decision, where the runner may change it. *)
Definition openGroup (source : ExecutionEnvelope) (groups : gmap string ChildGroupRecord) (node : ExecutionPointer) (activation : N)
    (key : string) : res (string * ChildGroupRecord) :=
  let identity := childExecutionIdentity (env_ExecutionID source) node activation key "" in
  match groups !! identity with
  | None => Err ErrChildRevision
  | Some group =>
      if negb (currentChildGroup source group) || (len (grp_MergedIDs group) != 0%Z) then Err ErrChildRevision else Ok (identity, group)
  end.
Definition commitGroup (id : string) (source : ExecutionEnvelope) (lease : ExecutionLease) (groups : gmap string ChildGroupRecord) (identity : string)
    (group : ChildGroupRecord) : io W ResumeToken :=
  let% payload := io_lift (of_option (marshal (<[identity := group]> groups)) json_error) in
  commitDecision id source lease ((cloneExecutionEnvelope source) <| env_ChildrenPayload := payload |>).

Definition validConfirmationText (d : ChildCancelConfirmation) : bool :=
  negb ((creq_Node d == "") || (creq_Activation d == 0%N) || (creq_GroupKey d == "") || (creq_ChildID d == "")
        || negb (validRuntimeText [creq_Node d; creq_GroupKey d; creq_ChildID d; creq_ExecutionID d; creq_RequestID d; creq_DecisionID d;
                                   creq_Reason d; creq_Evidence d])
        || (creq_ExecutionID d == "") || (creq_ChildRevision d == 0%N) || (creq_RequestID d == "") || (creq_DecisionID d == "")
        || (creq_Reason d == "") || (creq_Evidence d == "")).

Definition ConfirmChildCancellation (token : ResumeToken) (decision : ChildCancelConfirmation) : st W (outcome ResumeToken) :=
  before (io_lift (if validConfirmationText decision then Ok tt else Err ErrChildInvalid)) (fun _ =>
  withSession r (tok_ThreadID token) (fun lease =>
    let% source := childMutationSource token in
    guard% negb (env_Activation source != creq_Activation decision) else ErrChildRevision in
    let% groups := io_lift (executionChildGroups source) in
    let% found := io_lift (openGroup source groups (creq_Node decision) (creq_Activation decision) (creq_GroupKey decision)) in
    guard% (match grp_CancelRequest found.2 with Some q => ccr_ID q == creq_RequestID decision | None => false end) else ErrChildRevision in
    let% now := io_read clock_Now in
    let% group := io_lift (applyChildCancelConfirmation decision (env_Revision source) (lse_Incarnation lease) (toUTC now) found.2) in
    commitGroup (tok_ThreadID token) source lease groups found.1 group)).

Definition validChildWaitText (q : ChildWaitResolution) : bool :=
  let result := wreq_Result q in
  negb ((wreq_Node q == "") || (wreq_Activation q == 0%N) || (wreq_GroupKey q == "") || (wreq_ChildID q == "")
        || negb (validRuntimeText [wreq_Node q; wreq_GroupKey q; wreq_ChildID q; wreq_ExecutionID q; wreq_WaitID q; wreq_DecisionID q;
                                   res_Error result])
        || (wreq_ExecutionID q == "") || (wreq_ChildRevision q == 0%N) || (wreq_WaitID q == "") || (wreq_DecisionID q == "")
        || ((res_State result != ChildCompleted) && (res_State result != ChildFailed)) || (res_WaitID result != "")).

Definition ResolveChildWait (token : ResumeToken) (resolution : ChildWaitResolution) : st W (outcome ResumeToken) :=
  before (io_lift (if validChildWaitText resolution then Ok tt else Err ErrChildInvalid)) (fun _ =>
  withSession r (tok_ThreadID token) (fun lease =>
    let% source := childMutationSource token in
    guard% negb (env_Activation source != wreq_Activation resolution) else ErrChildRevision in
    let% groups := io_lift (executionChildGroups source) in
    let% found := io_lift (openGroup source groups (wreq_Node resolution) (wreq_Activation resolution) (wreq_GroupKey resolution)) in
    let% now := io_read clock_Now in
    let% group := io_lift (applyChildWaitResolution resolution (env_Revision source) (lse_Incarnation lease) (toUTC now) found.2) in
    commitGroup (tok_ThreadID token) source lease groups found.1 group)).

Definition ResolveChildOutcome (token : ResumeToken) (resolution : ChildOutcomeResolution) : st W (outcome ResumeToken) :=
  before (io_lift (if validChildOutcomeRequest resolution then Ok tt else Err ErrChildInvalid)) (fun _ =>
  withSession r (tok_ThreadID token) (fun lease =>
    let% source := childMutationSource token in
    let% groups := io_lift (executionChildGroups source) in
    let% found := io_lift (openGroup source groups (oreq_Node resolution) (oreq_Activation resolution) (oreq_GroupKey resolution)) in
    guard% (pln_Label (grp_Plan found.2) == oreq_GroupLabel resolution) else ErrChildRevision in
    let% now := io_read clock_Now in
    let% applied := io_lift (applyChildOutcomeResolution resolution groups (env_Revision source) (lse_Incarnation lease) (toUTC now) found.2) in
    do% live in
    if applied.2 then io_ret token
    else commitGroup (tok_ThreadID token) source lease groups found.1 applied.1)).
End Operators.
