(* ===== verification/OperatorsInv.v ===== *)
(** * What an operator decision commits

    On any store that keeps its contract: an operation of Operators.v either leaves the head of
    its execution as it was, or replaces it by one successor, which differs from it only in the
    collection the operation decides on and what that decision implies. The token returned is
    that of the head. What [DeliverWait] reports is in the committed waits. *)

From S2P Require Import Prelude Go Sha256 Json Identity Schedule Activity Waits Contract Children Wire Migration Integrity Aggregate Runtime Session ActivityCall ActivityCallInv Checkpointer Graph Handoff Runner Resume DurableSession DurableRunner Operators.

#[local] Arguments validRuntimeText : simpl never.
#[local] Arguments sha256_hex : simpl never.

Lemma io_bind_inv {W A B} (m : io W A) (k : A -> io W B) w w' out : io_bind m k w = (w', out) ->
  (exists w1 a, m w = (w1, Ok a) /\ k a w1 = (w', out)) \/ (exists e, m w = (w', Err e) /\ out = Err e).
Proof. unfold io_bind. destruct (m w) as [w1 [a|e]]; intros Hm; [left; by exists w1, a|right]. injection Hm as <- <-. by exists e. Qed.
Lemma io_bind_Ok {W A B} (m : io W A) (k : A -> io W B) w w' b : io_bind m k w = (w', Ok b) ->
  exists w1 a, m w = (w1, Ok a) /\ k a w1 = (w', Ok b).
Proof. intros Hm. by apply io_bind_inv in Hm as [?|(? & _ & ?)]. Qed.

Section Quiet.
Context {W T E : Type} `{HC : Codecs} `{HS : ExecutionStore W} `{HK : !StoreContract W} `{HW : WorldHost W T E}.
Context (r : DurableRunner W T E).

(** ** Steps that move no head *)
Lemma framed_lift {A} (o : res A) : framed (io_lift (W := W) o).
Proof. by intros w Hw. Qed.
Lemma framed_bind {A B} (m : io W A) (k : A -> io W B) : framed m -> (forall a, framed (k a)) -> framed (io_bind m k).
Proof.
  intros Hm Hk w Hw. unfold io_bind. destruct (Hm w Hw) as [H1 H2]. destruct (m w) as [w1 [a|e]]; [|done]. simpl in *.
  destruct (Hk a w1 H1) as [H3 H4]. split; [done|]. intros k'. by rewrite H4.
Qed.
Lemma framed_read {A} (f : W -> W * A) : framed f -> framed (io_read f).
Proof. intros Hf w Hw. specialize (Hf w Hw). unfold io_read. by destruct (f w). Qed.
Lemma framed_live : framed live.
Proof. by intros w Hw. Qed.
Lemma framed_load id : framed (fun w => store_load w id).
Proof. intros w Hw. by apply load_frame. Qed.
Lemma framed_now : framed clock_Now.
Proof. intros w Hw. by apply now_frame. Qed.
Lemma framed_random : framed retry_random.
Proof. intros w Hw. by apply random_frame. Qed.
Lemma framed_acquire id : framed (acquireSession r id).
Proof.
  unfold acquireSession. case_match; [|apply framed_lift]. apply framed_bind; [apply framed_live|]. intros _ w Hw. by apply acquire_frame.
Qed.
Lemma framed_finish lease : framed (finish lease).
Proof. intros w Hw. unfold finish, release. destruct (release_frame w lease Hw). by destruct (store_release w lease). Qed.
End Quiet.

(** [framed] by the shape of the operation. *)
Ltac framed_auto :=
  repeat match goal with
  | |- framed (io_bind _ _) => apply framed_bind; [|intros ?]
  | |- framed (io_lift _) => apply framed_lift
  | |- framed (io_ret _) => apply framed_lift
  | |- framed live => apply framed_live
  | |- framed (fun w => store_load w _) => apply framed_load
  | |- framed (io_read clock_Now) => apply framed_read, framed_now
  | |- framed (io_read retry_random) => apply framed_read, framed_random
  | |- framed (match ?m with _ => _ end) => destruct m
  | |- framed (let '(_, _) := ?m in _) => destruct m
  end.

Section Decisions.
Context {W T E : Type} `{HC : Codecs} `{HS : ExecutionStore W} `{HK : !StoreContract W} `{HW : WorldHost W T E}.
Context (r : DurableRunner W T E).

(** [target], sealed as the successor of [source]. *)
Definition sealed_as (source target committed : ExecutionEnvelope) : Prop :=
  exists digest, committed = target <| env_Revision := (env_Revision source + 1)%N |> <| env_Digest := digest |>.

(** What an operation on execution [id], which found [source], leaves behind. [token_of] reads
    the token of its result; [changes] is what it may change. *)
Section One.
Context {A : Type} (token_of : A -> ResumeToken) (id : string) (changes : ExecutionEnvelope -> ExecutionEnvelope -> Prop).

Definition settled (source : ExecutionEnvelope) (w' : W) (out : option A) : Prop :=
  (store_head w' id = Some source /\ forall a, out = Some a -> token_of a = mkToken id (env_Revision source)) \/
  (exists target committed, changes source target /\ sealed_as source target committed /\ store_head w' id = Some committed /\
     forall a, out = Some a -> token_of a = mkToken id (env_Revision committed)).
Definition result_of (out : res A) : option A := match out with Ok a => Some a | Err _ => None end.
Definition decides (source : ExecutionEnvelope) (m : io W A) : Prop := forall w w' out,
  store_inv w -> store_head w id = Some source -> m w = (w', out) -> store_inv w' /\ settled source w' (result_of out).

Lemma decides_bind {B} source (m : io W B) (k : B -> io W A) : framed m -> (forall w w1 b, m w = (w1, Ok b) -> decides source (k b)) ->
  decides source (io_bind m k).
Proof.
  intros Hm Hk w w' out Hw Hh He. destruct (Hm w Hw) as [H1 H2]. apply io_bind_inv in He as [(w1 & b & Eb & He)|(e & Eb & ->)].
  - rewrite Eb in H1, H2. apply (Hk _ _ _ Eb) in He; [done|done|]. simpl in H2. by rewrite H2.
  - rewrite Eb in H1, H2. split; [done|]. left. simpl in H2. by rewrite H2.
Qed.
Lemma decides_lift source (o : res A) : (forall a, o = Ok a -> token_of a = mkToken id (env_Revision source)) -> decides source (io_lift o).
Proof. intros Ho w w' out Hw Hh [= <- <-]. split; [done|]. left. split; [done|]. intros a Ha. destruct o; [|done]. injection Ha as ->. by apply Ho. Qed.

(** The commit of an operation. *)
Lemma decides_commit source lease target (k : ExecutionEnvelope -> A) : env_ExecutionID target = id -> changes source target ->
  (forall committed, token_of (k committed) = mkToken id (env_Revision committed)) ->
  decides source (let% committed := commitExecution (env_Revision source) lease target in io_ret (k committed)).
Proof.
  intros Hid Hc Hk w w' out Hw Hh He. unfold commitExecution in He. pose proof (commit_inv w (env_Revision source) lease target Hw) as Hi.
  apply io_bind_inv in He as [(w1 & committed & Ec & He)|(e & Ec & ->)]; rewrite Ec in Hi.
  - injection He as <- <-. split; [done|]. right. apply commit_accepted in Ec as (_ & _ & Hs & Hh'); [|done]. exists target, committed.
    rewrite Hid in Hh'. split_and!; [done| |done|by intros a [= <-]].
    unfold SealExecutionEnvelope in Hs. guard_in Hs; [done|]. apply bind_Ok in Hs as (d & _ & Hs). injection Hs as <-. by exists d.
  - split; [done|]. apply commit_refused in Ec as [Hh'|(committed & Hs & Hh')]; [|rewrite Hid in Hh'|done].
    + left. rewrite Hid, Hh in Hh'. by split.
    + right. exists target, committed. split_and!; [done| |done|done].
      unfold SealExecutionEnvelope in Hs. guard_in Hs; [done|]. apply bind_Ok in Hs as (d & _ & Hs). injection Hs as <-. by exists d.
Qed.

(** What a whole operation leaves behind: where it found no head, none is created. *)
Definition left_behind (w w' : W) (out : option A) : Prop :=
  store_inv w' /\
  ((store_head w' id = store_head w id /\ out = None) \/ exists source, store_head w id = Some source /\ settled source w' out).
Definition operates (m : io W A) : Prop := forall w w' out, store_inv w -> m w = (w', out) -> left_behind w w' (result_of out).

Lemma operates_bind {B} (m : io W B) (k : B -> io W A) : framed m ->
  (forall w w1 b, store_inv w -> m w = (w1, Ok b) -> exists source, store_head w id = Some source /\ decides source (k b)) -> operates (io_bind m k).
Proof.
  intros Hm Hk w w' out Hw He. destruct (Hm w Hw) as [H1 H2]. apply io_bind_inv in He as [(w1 & b & Eb & He)|(e & Eb & ->)].
  - rewrite Eb in H1, H2. destruct (Hk _ _ _ Hw Eb) as (source & Hs & Hd). simpl in H2. apply Hd in He as [Hi Hx]; [|done|by rewrite H2].
    split; [done|]. right. by exists source.
  - rewrite Eb in H1, H2. split; [done|]. left. split; [|done]. apply H2.
Qed.

Lemma operates_session (body : ExecutionLease -> io W A) w w' result err : store_inv w -> (forall lease, operates (body lease)) ->
  withSession r id body w = (w', (result, err)) -> left_behind w w' result.
Proof.
  intros Hw Hb He. unfold withSession, underSession in He. destruct (framed_acquire r id w Hw) as [H1 H2].
  destruct (acquireSession r id w) as [w1 [lease|e]]; simpl in *; cycle 1.
  { injection He as <- <- _. split; [done|]. by left. }
  destruct (body lease w1) as [w2 out] eqn:Eb. apply Hb in Eb as [Hi Hx]; [|done]. destruct (framed_finish lease w2 Hi) as [H3 H4].
  destruct (finish lease w2) as [w3 cleanup]. injection He as <- Hr _.
  assert (result = result_of out) as -> by (rewrite <- Hr; by destruct out). split; [done|]. simpl in H4.
  destruct Hx as [[Hx ->]|(source & Hs & Hx)].
  - left. by rewrite H4, Hx, H2.
  - right. exists source. rewrite <- H2. split; [done|]. unfold settled in *. by setoid_rewrite H4.
Qed.
Lemma operates_before {B} (m : io W B) (k : B -> st W (outcome A)) w w' result err : store_inv w -> framed m ->
  before m k w = (w', (result, err)) -> (forall w1 b, store_inv w1 -> (k b w1) = (w', (result, err)) -> left_behind w1 w' result) ->
  left_behind w w' result.
Proof.
  intros Hw Hm He Hk. unfold before in He. destruct (Hm w Hw) as [H1 H2]. destruct (m w) as [w1 [b|e]]; simpl in *.
  - apply Hk in He as [Hi Hx]; [|done]. split; [done|]. by rewrite H2 in Hx.
  - injection He as <- <- _. split; [done|]. left. by rewrite H2.
Qed.
End One.

(** ** The operations *)
Lemma integrity_id source id revision : ValidateExecutionIntegrity source id revision = None -> env_ExecutionID source = id.
Proof. intros Hv. by apply integrity_digest in Hv as (<- & _). Qed.

Lemma mutationSource_framed err token : framed (mutationSource r err token).
Proof. unfold mutationSource. framed_auto. Qed.
Lemma mutationSource_Ok err token w w1 source : store_inv w -> mutationSource r err token w = (w1, Ok source) ->
  store_head w (tok_ThreadID token) = Some source /\ env_ExecutionID source = tok_ThreadID token /\
  env_Terminal source = None /\ tok_SnapshotRevision token = env_Revision source.
Proof.
  intros Hw Hm. unfold mutationSource in Hm. apply io_bind_Ok in Hm as (w2 & s & Hl & Hm). apply load_head in Hl; [|done].
  apply io_bind_Ok in Hm as (w3 & [] & [= <- Hv] & Hm). apply check_Ok, integrity_id in Hv.
  guard_in Hm; [|done]. apply negb_true_iff, orb_false_iff in Hg as [_ Hr]. apply negb_false_iff, bool_decide_eq_true in Hr.
  apply io_bind_Ok in Hm as (w4 & [] & [= <- _] & Hm). apply io_bind_Ok in Hm as (w5 & [] & [= <- _] & Hm).
  guard_in Hm; [|done]. apply is_nil_true in Hg. apply io_bind_Ok in Hm as (w6 & [] & [= <- _] & Hm). guard_in Hm; [|done].
  by injection Hm as _ <-.
Qed.

Lemma waitSource_framed id generation : framed (waitDeliverySource r id generation).
Proof.
  intros w Hw. unfold waitDeliverySource. destruct (load_frame w id Hw) as [H1 H2]. destruct (store_load w id) as [w1 [s|e]]; by split.
Qed.
Lemma waitSource_Ok id generation w w1 source waits : store_inv w -> waitDeliverySource r id generation w = (w1, Ok (source, waits)) ->
  store_head w id = Some source /\ env_ExecutionID source = id /\ validateExecutionCollectionsWithWaits source = Ok waits.
Proof.
  intros Hw Hm. unfold waitDeliverySource in Hm. destruct (store_load w id) as [w2 [s|e]] eqn:El; [|done]. apply load_head in El; [|done].
  injection Hm as _ Hm. apply bind_Ok in Hm as ([] & Hv & Hm). apply check_Ok, integrity_id in Hv.
  apply bind_Ok in Hm as (ws & Hws & Hm). do 2 apply bind_Ok in Hm as ([] & _ & Hm). apply bind_Ok in Hm as (found & _ & Hm).
  do 2 apply bind_Ok in Hm as ([] & _ & Hm). do 2 (guard_in Hm; [done|]). by injection Hm as <- <-.
Qed.

Lemma groupSource_Ok source groups node activation key found : openGroup source groups node activation key = Ok found ->
  found.1 = childExecutionIdentity (env_ExecutionID source) node activation key "" /\ groups !! found.1 = Some found.2.
Proof.
  unfold openGroup. intros Hm. destruct (groups !! _) as [group|] eqn:Eg; [|done]. guard_in Hm; [done|]. by injection Hm as <-.
Qed.

(** What each operation may make of the head it found. *)
Inductive operation :=
| OpResolveActivity (token : ResumeToken) (resolution : ActivityResolution)
| OpDeliverWait (executionID : string) (delivery : WaitDelivery) (contract : WaitDeliveryContract W T)
| OpCancelWait (token : ResumeToken) (request : WaitCancellation)
| OpConfirmChildCancellation (token : ResumeToken) (decision : ChildCancelConfirmation)
| OpResolveChildWait (token : ResumeToken) (resolution : ChildWaitResolution)
| OpResolveChildOutcome (token : ResumeToken) (resolution : ChildOutcomeResolution).

Definition perform (op : operation) : st W (outcome ResumeToken) :=
  match op with
  | OpResolveActivity token resolution => ResolveActivity r token resolution
  | OpDeliverWait executionID delivery contract => fun w =>
      let '(w, (result, err)) := DeliverWait r executionID delivery contract w in (w, (wdr_ResumeToken <$> result, err))
  | OpCancelWait token request => CancelWait r token request
  | OpConfirmChildCancellation token decision => ConfirmChildCancellation r token decision
  | OpResolveChildWait token resolution => ResolveChildWait r token resolution
  | OpResolveChildOutcome token resolution => ResolveChildOutcome r token resolution
  end.
Definition execution_of (op : operation) : string :=
  match op with
  | OpDeliverWait executionID _ _ => executionID
  | OpResolveActivity token _ | OpCancelWait token _ | OpConfirmChildCancellation token _ | OpResolveChildWait token _
  | OpResolveChildOutcome token _ => tok_ThreadID token
  end.

(** The head is live and the one the caller saw. *)
Definition current (token : ResumeToken) (source : ExecutionEnvelope) : Prop :=
  env_Terminal source = None /\ tok_SnapshotRevision token = env_Revision source.
Definition continued (source : ExecutionEnvelope) (pointer : ExecutionPointer) (state payload : string) : ExecutionEnvelope :=
  source <| env_Activation := succ_u64 (env_Activation source) |> <| env_WaitsPayload := payload |>
    <| env_Progress := (env_Progress source) <| prg_StatePayload := state |> <| prg_ExecutionPointer := pointer |>
         <| prg_JournalReferences := ∅ |> <| prg_ChildGroupReferences := ∅ |> |>.
(** The records an operation replaces, and what it encodes them as: one record of the journal
    by its resolution, one child group by the decision on one child, one wait. *)
Definition activity_resolved (resolution : ActivityResolution) (source : ExecutionEnvelope) (payload : string) : Prop :=
  exists journal record record' incarnation now random,
    executionActivityJournal source = Ok journal /\ journal !! rq_Identity resolution = Some record /\
    resolutionRecordError record (boundActivityIdentity source (rec_Key record)) resolution = None /\
    resolveActivityRecord record resolution (env_Revision source) incarnation now random = Ok record' /\
    marshal (<[rq_Identity resolution := record']> journal) = Some payload.
Definition group_decided (node : ExecutionPointer) (activation : N) (key : string)
    (decide : gmap string ChildGroupRecord -> N -> Time -> ChildGroupRecord -> res ChildGroupRecord) (source : ExecutionEnvelope) (payload : string) : Prop :=
  exists groups identity group group' incarnation now,
    executionChildGroups source = Ok groups /\ identity = childExecutionIdentity (env_ExecutionID source) node activation key "" /\
    groups !! identity = Some group /\ decide groups incarnation now group = Ok group' /\
    marshal (<[identity := group']> groups) = Some payload.
Definition wait_replaced (generation : string) (replaced : DurableWaitRecord -> DurableWaitRecord -> Prop) (source : ExecutionEnvelope) (payload : string) : Prop :=
  exists waits identity record record',
    executionWaits source = Ok waits /\ waits !! identity = Some record /\ wt_Generation record = generation /\
    replaced record record' /\ marshal (<[identity := record']> waits) = Some payload.

(** What the host continuation made of the state of [source]. *)
Definition applied_state (contract : WaitDeliveryContract W T) (source : ExecutionEnvelope) (delivery : WaitDelivery) (encoded : string) : Prop :=
  exists f state state' w1 w2, wdl_Apply contract = Some f /\
    Unmarshal (drn_stateCodec r) (prg_StatePayload (env_Progress source)) = Ok state /\
    f state delivery w1 = (w2, Ok state') /\ Marshal (drn_stateCodec r) state' = Ok encoded.
(** The decision on a delivery, and the new decision it is recorded as. *)
Definition decided (delivery : WaitDelivery) (revision : N) (decision : WaitDecision) (record record' : DurableWaitRecord) : Prop :=
  record' = recordWaitDecision record decision /\ wt_Decisions record !! dlv_ID delivery = None /\
  exists incarnation now matched, decision = newWaitDecision record delivery revision incarnation now matched.

Definition changes (op : operation) (source target : ExecutionEnvelope) : Prop :=
  match op with
  | OpResolveActivity token resolution => current token source /\ exists payload,
      target = source <| env_JournalPayload := payload |> /\ activity_resolved resolution source payload
  | OpConfirmChildCancellation token q => current token source /\ exists payload,
      target = source <| env_ChildrenPayload := payload |> /\
      group_decided (creq_Node q) (creq_Activation q) (creq_GroupKey q)
        (fun _ incarnation now group => applyChildCancelConfirmation q (env_Revision source) incarnation now group) source payload
  | OpResolveChildWait token q => current token source /\ exists payload,
      target = source <| env_ChildrenPayload := payload |> /\
      group_decided (wreq_Node q) (wreq_Activation q) (wreq_GroupKey q)
        (fun _ incarnation now group => applyChildWaitResolution q (env_Revision source) incarnation now group) source payload
  | OpResolveChildOutcome token q => current token source /\ exists payload,
      target = source <| env_ChildrenPayload := payload |> /\
      group_decided (oreq_Node q) (oreq_Activation q) (oreq_GroupKey q)
        (fun groups incarnation now group =>
           match applyChildOutcomeResolution q groups (env_Revision source) incarnation now group with
           | Ok (group', false) => Ok group' | Ok (_, true) => Err ErrChildRevision | Err err => Err err end) source payload
  | OpCancelWait token request => current token source /\ exists payload ended,
      target = source <| env_WaitsPayload := payload |>
        <| env_Terminal := Some (mkTerminal RunStatusFailed durableWaitCanceledReason
                                   (Some (mkFailure (durableWaitCanceledReason +:+ ": " +:+ wcr_Reason request)))) |>
        <| env_RunMeta := markSegmentFailed (env_RunMeta source) ended |> /\
      wait_replaced (wcr_Generation request) (fun record record' => wt_State record <> WaitCanceled /\
        exists incarnation now, record' = cancelWaitRecord record request (env_Revision source) incarnation now) source payload
  | OpDeliverWait _ delivery contract => exists payload decision,
      wait_replaced (dlv_Generation delivery) (fun record record' => decided delivery (env_Revision source) decision record record' /\
        if wdc_Status decision == WaitAccepted
        then exists state, applied_state contract source delivery state /\
               target = continued source (continuationPointer (wt_Spec record) delivery) state payload
        else target = source <| env_WaitsPayload := payload |>) source payload
  end.

Lemma commitDecision_decides ch id source lease target : env_ExecutionID target = id -> ch source target ->
  decides (fun token => token) id ch source (commitDecision id source lease target).
Proof.
  intros Hid Hc. unfold commitDecision. apply decides_bind; [apply framed_live|]. intros _ _ _ _. by apply decides_commit.
Qed.
Lemma commitGroup_decides op token source lease groups identity group : env_ExecutionID source = tok_ThreadID token ->
  (forall payload, marshal (<[identity := group]> groups) = Some payload -> changes op source (source <| env_ChildrenPayload := payload |>)) ->
  decides (fun token => token) (tok_ThreadID token) (changes op) source (commitGroup (tok_ThreadID token) source lease groups identity group).
Proof.
  intros Hid Hc. unfold commitGroup. apply decides_bind; [apply framed_lift|]. intros ? ? payload [= _ Hm].
  apply commitDecision_decides; [done|]. apply Hc. by destruct (marshal _); [injection Hm as ->|].
Qed.

Lemma applied_identity record resolution now random record' chosen :
  applyActivityResolution record resolution now random = Ok (record', chosen) -> rec_Identity record' = rec_Identity record.
Proof.
  unfold applyActivityResolution. intros Ha. destruct (rq_Action resolution); try done; repeat (guard_in Ha; [done|]); by injection Ha as <- _.
Qed.
Lemma resolution_target source lease found resolution w w' target : resolutionActivityRecord source resolution = Ok found ->
  prepareActivityResolutionTarget source lease found.1 found.2 resolution w = (w', Ok target) ->
  exists payload, target = source <| env_JournalPayload := payload |> /\ activity_resolved resolution source payload.
Proof.
  intros Hf Hp. unfold resolutionActivityRecord in Hf. apply bind_Ok in Hf as (journal & Hj & Hf). apply bind_Ok in Hf as (record & Hl & Hf).
  apply bind_Ok in Hf as ([] & Hc & Hf). injection Hf as <-. apply check_Ok in Hc. destruct (journal !! _) as [x|] eqn:El; [injection Hl as ->|done].
  unfold prepareActivityResolutionTarget in Hp. apply io_bind_Ok in Hp as (? & now & _ & Hp). apply io_bind_Ok in Hp as (? & random & _ & Hp).
  apply io_bind_Ok in Hp as (? & record' & [= _ Hr] & Hp). apply io_bind_Ok in Hp as (? & payload & [= _ Hm] & Hp). injection Hp as _ <-.
  exists payload. split; [done|]. destruct (journal_entry _ _ _ _ Hj El) as (Hid & _).
  assert (Hi : rec_Identity record' = rq_Identity resolution).
  { unfold resolveActivityRecord in Hr. apply bind_Ok in Hr as ([r0 chosen] & Hx & Hr). injection Hr as <-. cbn.
    rewrite (applied_identity _ _ _ _ _ _ Hx). by destruct (_ == _). }
  cbn [fst snd] in Hm. rewrite Hi in Hm. destruct (marshal _) as [p|] eqn:Em; [injection Hm as ->|done].
  by exists journal, record, record', (lse_Incarnation lease), (toUTC now), random.
Qed.

Lemma resolveActivity_behind token resolution w w' result err : store_inv w -> ResolveActivity r token resolution w = (w', (result, err)) ->
  left_behind (fun token => token) (tok_ThreadID token) (changes (OpResolveActivity token resolution)) w w' result.
Proof.
  intros Hw He. eapply operates_before; [exact Hw| |exact He|]; [apply framed_lift|]. intros w1 [] Hw1 He1.
  eapply operates_session; [done| |exact He1]. intros lease. apply operates_bind; [apply mutationSource_framed|].
  intros w2 w3 source Hw2 Hs. apply mutationSource_Ok in Hs as (Hh & Hid & Ht & Hr); [|done]. exists source. split; [done|].
  apply decides_bind; [apply framed_lift|]. intros ? ? found [= _ Hf]. apply decides_bind; [unfold prepareActivityResolutionTarget; framed_auto|].
  intros ? ? target Hp. apply resolution_target in Hp as (payload & -> & Hp); [|done]. apply commitDecision_decides; [done|].
  split; [by split|]. by exists payload.
Qed.

(** The prefix of a child operation. *)
Lemma childOperation_behind op token guard_ok (k : unit -> ExecutionLease -> ExecutionEnvelope -> io W ResumeToken) bad w w' result err : store_inv w ->
  (forall lease source, env_ExecutionID source = tok_ThreadID token -> current token source ->
     decides (fun token => token) (tok_ThreadID token) (changes op) source (k tt lease source)) ->
  before (io_lift (if guard_ok : bool then Ok tt else Err bad)) (fun u => withSession r (tok_ThreadID token) (fun lease =>
    let% source := childMutationSource r token in k u lease source)) w = (w', (result, err)) ->
  left_behind (fun token => token) (tok_ThreadID token) (changes op) w w' result.
Proof.
  intros Hw Hk He. eapply operates_before; [exact Hw| |exact He|]; [apply framed_lift|]. intros w1 [] Hw1 He1.
  eapply operates_session; [done| |exact He1]. intros lease. apply operates_bind; [apply mutationSource_framed|].
  intros w2 w3 source Hw2 Hs. apply mutationSource_Ok in Hs as (Hh & Hid & Ht & Hr); [|done]. exists source. split; [done|]. by apply Hk.
Qed.

(** Guards and readings before a decision. *)
Ltac decides_auto :=
  repeat match goal with
  | |- decides _ _ _ _ (io_lift (Err _)) => apply decides_lift; done
  | |- decides _ _ _ _ (io_bind (io_lift _) _) => apply decides_bind; [apply framed_lift|intros ? ? ? [= _ ?]]
  | |- decides _ _ _ _ (io_bind live _) => apply decides_bind; [apply framed_live|intros ? ? ? ?]
  | |- decides _ _ _ _ (io_bind (io_read clock_Now) _) => apply decides_bind; [apply framed_read, framed_now|intros ? ? ? ?]
  | |- decides _ _ _ _ (if ?b then _ else _) => destruct b eqn:?
  end.

Lemma opened source groups node activation key found decide payload incarnation now group : executionChildGroups source = Ok groups ->
  openGroup source groups node activation key = Ok found -> decide groups incarnation now found.2 = Ok group ->
  marshal (<[found.1 := group]> groups) = Some payload -> group_decided node activation key decide source payload.
Proof.
  intros Hg Hf Ha Hm. apply groupSource_Ok in Hf as [Hi Hl]. exists groups, found.1, found.2, group, incarnation, now. by split_and!.
Qed.
Lemma confirm_behind token decision w w' result err : store_inv w -> ConfirmChildCancellation r token decision w = (w', (result, err)) ->
  left_behind (fun token => token) (tok_ThreadID token) (changes (OpConfirmChildCancellation token decision)) w w' result.
Proof.
  intros Hw. apply (childOperation_behind (OpConfirmChildCancellation token decision) token _ (fun _ lease source => _)); [done|].
  intros lease source Hid Hc. decides_auto. apply commitGroup_decides; [done|]. intros payload Hm. split; [done|].
  exists payload. split; [done|]. by eapply opened.
Qed.
Lemma childWait_behind token resolution w w' result err : store_inv w -> ResolveChildWait r token resolution w = (w', (result, err)) ->
  left_behind (fun token => token) (tok_ThreadID token) (changes (OpResolveChildWait token resolution)) w w' result.
Proof.
  intros Hw. apply (childOperation_behind (OpResolveChildWait token resolution) token _ (fun _ lease source => _)); [done|].
  intros lease source Hid Hc. decides_auto. apply commitGroup_decides; [done|]. intros payload Hm. split; [done|].
  exists payload. split; [done|]. by eapply opened.
Qed.
Lemma childOutcome_behind token resolution w w' result err : store_inv w -> ResolveChildOutcome r token resolution w = (w', (result, err)) ->
  left_behind (fun token => token) (tok_ThreadID token) (changes (OpResolveChildOutcome token resolution)) w w' result.
Proof.
  intros Hw. apply (childOperation_behind (OpResolveChildOutcome token resolution) token _ (fun _ lease source => _)); [done|].
  intros lease source Hid Hc. decides_auto.
  - apply decides_lift. intros a [= <-]. destruct Hc as [_ Hc], token. by rewrite <- Hc.
  - apply commitGroup_decides; [done|]. intros payload Hm. split; [done|]. exists payload. split; [done|].
    eapply opened; [done|done| |done]. cbn beta. match goal with Ha : applyChildOutcomeResolution _ _ _ _ _ _ = Ok _ |- _ => rewrite Ha end.
    match goal with Hb : ?x.2 = false |- _ => destruct x; cbn in Hb |- *; by subst end.
Qed.

(** ** Waits *)
Context `{HF : !HostFrame (W := W) (T := T) (E := E)}.

(** [Match] and [Apply] perform no external effect. *)
Record pure_contract (contract : WaitDeliveryContract W T) : Prop := {
  pc_match : forall f payload, wdl_Match contract = Some f -> framed (f payload);
  pc_apply : forall f state delivery, wdl_Apply contract = Some f -> framed (f state delivery);
}.

Lemma found_generation waits generation identity record : findWaitGeneration waits generation = Ok (identity, record) ->
  waits !! identity = Some record /\ wt_Generation record = generation.
Proof.
  unfold findWaitGeneration. intros Hf. guard_in Hf; [done|]. destruct (List.find _ _) as [kv|] eqn:E1; [|done]. injection Hf as ->.
  apply find_some in E1 as [Hin Hg1]. apply bool_decide_eq_true in Hg1. split; [|done]. apply elem_of_map_to_list. by apply list_elem_of_In.
Qed.
Lemma collections_waits source waits : validateExecutionCollectionsWithWaits source = Ok waits -> executionWaits source = Ok waits.
Proof.
  unfold validateExecutionCollectionsWithWaits. intros Hv. do 2 (guard_in Hv; [done|]). do 2 apply bind_Ok in Hv as (? & _ & Hv).
  done.
Qed.

Lemma cancellation_current source record token request :
  validateWaitCancellationRequest (env_Revision source) (negb (is_nil (env_Terminal source))) record (tok_SnapshotRevision token) request = None ->
  wt_State record <> WaitCanceled -> current token source.
Proof.
  unfold validateWaitCancellationRequest. intros Hv Hs. guard_in Hv; [done|]. rewrite (bool_decide_eq_false_2 _ Hs) in Hv.
  do 3 (guard_in Hv; [done|]). apply orb_false_iff in Hg1 as [_ Ht]. apply negb_false_iff, is_nil_true in Ht.
  by apply negb_false_iff, bool_decide_eq_true in Hg2.
Qed.
Lemma cancelWait_behind token request w w' result err : store_inv w -> CancelWait r token request w = (w', (result, err)) ->
  left_behind (fun token => token) (tok_ThreadID token) (changes (OpCancelWait token request)) w w' result.
Proof.
  intros Hw He. eapply operates_before; [exact Hw| |exact He|]. { framed_auto. apply waitSource_framed. }
  intros w1 b Hw1 He1. eapply operates_session; [done| |exact He1]. intros lease. unfold cancelUnder.
  apply operates_bind; [apply waitSource_framed|]. intros w2 w3 [source waits] Hw2 Hs. apply waitSource_Ok in Hs as (Hh & Hid & Hws); [|done].
  exists source. split; [done|]. apply decides_bind; [apply framed_lift|]. intros ? ? [identity record] [= _ Hfound]. cbn [fst snd].
  apply collections_waits in Hws. apply found_generation in Hfound as [Hl Hgen].
  apply decides_bind; [apply framed_lift|]. intros ? ? [] Hv. injection Hv as _ Hv. apply check_Ok in Hv. guard_goal; [apply decides_lift; by intros a [= <-]|].
  apply bool_decide_eq_false in Hg. pose proof (cancellation_current _ _ _ _ Hv Hg) as Hc.
  decides_auto. apply decides_bind; [apply framed_read, hf_now|]. intros ? ? ended _. apply commitDecision_decides; [done|]. split; [done|].
  match goal with Hm : of_option (marshal ?m) _ = Ok _ |- _ => destruct (marshal m) as [p|] eqn:Em; [injection Hm as <-|done] end.
  exists p, ended. split; [done|]. exists waits, identity, record. eexists.
  split_and!; [done..|do 2 eexists; reflexivity|exact Em].
Qed.

Section Deliver.
Context (contract : WaitDeliveryContract W T) (Hpure : pure_contract contract).

Lemma prepareDelivery_framed lease source record delivery : framed (prepareWaitDelivery lease source record delivery contract).
Proof.
  unfold prepareWaitDelivery. destruct (wdl_Match contract) as [f|] eqn:Ef; framed_auto. by apply (pc_match _ Hpure).
Qed.
Lemma continuation_framed target spec delivery : framed (applyWaitContinuation r target spec delivery contract).
Proof.
  unfold applyWaitContinuation. destruct (wdl_Apply contract) as [f|] eqn:Ef; framed_auto. by apply (pc_apply _ Hpure).
Qed.

Lemma continuation_Ok source spec delivery w w' target : applyWaitContinuation r source spec delivery contract w = (w', Ok target) ->
  exists encoded, applied_state contract source delivery encoded /\
    forall payload, target <| env_WaitsPayload := payload |> = continued source (continuationPointer spec delivery) encoded payload.
Proof.
  unfold applyWaitContinuation. destruct (wdl_Apply contract) as [f|] eqn:Ef; [|done]. intros Hm. guard_in Hm; [|done].
  apply io_bind_Ok in Hm as (w1 & [] & _ & Hm). apply io_bind_Ok in Hm as (w2 & state & [= <- Hu] & Hm).
  apply io_bind_Ok in Hm as (w3 & [] & _ & Hm). apply io_bind_Ok in Hm as (w4 & state' & Ha & Hm).
  apply io_bind_Ok in Hm as (w5 & [] & _ & Hm). apply io_bind_Ok in Hm as (w6 & encoded & [= <- He] & Hm). injection Hm as _ <-.
  exists encoded. split; [by exists f, state, state', w3, w4|done].
Qed.

Lemma prepared_decision lease source record delivery w w' target decision replay :
  prepareWaitDelivery lease source record delivery contract w = (w', Ok (target, decision, replay)) ->
  wt_Decisions target !! dlv_ID delivery = Some decision /\ wt_Generation target = wt_Generation record /\ wt_Spec target = wt_Spec record /\
  if replay then target = record else decided delivery (env_Revision source) decision record target.
Proof.
  intros Hp. assert (exists now m, prepareWaitDecision record delivery (env_Revision source) (lse_Incarnation lease) now m = Ok (target, decision, replay))
    as (now & m & Hd).
  { unfold prepareWaitDelivery in Hp. apply io_bind_Ok in Hp as (w1 & now & _ & Hp). apply io_bind_Ok in Hp as (w2 & prepared & [= <- Hf] & Hp).
    guard_in Hp; [injection Hp as _ ->; by eauto|]. destruct (wdl_Match contract); [|done]. apply io_bind_Ok in Hp as (? & [] & _ & Hp).
    apply io_bind_Ok in Hp as (? & m & _ & Hp). apply io_bind_Ok in Hp as (? & [] & _ & Hp). injection Hp as _ Hp. by eauto. }
  destruct replay.
  - unfold prepareWaitDecision in Hd. guard_in Hd; [done|]. destruct (validateWaitDelivery _ _ _); [done|].
    destruct (wt_Decisions record !! _) as [prior|] eqn:El; [|repeat (guard_in Hd; [done|]); done]. guard_in Hd; [done|]. by injection Hd as <- <-.
  - apply prepare_new in Hd as (_ & _ & _ & _ & Hnew & _ & _ & _ & _ & -> & ->).
    split_and!; [..|split_and!; [done|done|by eexists _, _, _]]; unfold recordWaitDecision; destruct (_ == _); simpl; try done; by rewrite lookup_insert_eq.
Qed.

Lemma deliverUnder_operates executionID delivery lease :
  operates wdr_ResumeToken executionID (changes (OpDeliverWait executionID delivery contract)) (deliverUnder r executionID delivery contract lease).
Proof.
  unfold deliverUnder. apply operates_bind; [apply waitSource_framed|]. intros w2 w3 [source waits] Hw2 Hs. apply waitSource_Ok in Hs as (Hh & Hid & Hws); [|done].
  exists source. split; [done|]. apply decides_bind; [apply framed_lift|]. intros ? ? [identity record] [= _ Hfound].
  apply collections_waits in Hws. apply found_generation in Hfound as [Hl Hgen].
  apply decides_bind; [apply framed_lift|]. intros _ _ [] _. apply decides_bind; [apply prepareDelivery_framed|].
  intros w4 w5 [[target decision] replay] Hp. apply prepared_decision in Hp as (_ & _ & _ & Hp). destruct replay; [apply decides_lift; by intros a [= <-]|].
  assert (Hend : forall e, env_ExecutionID e = executionID ->
    (forall payload, if wdc_Status decision == WaitAccepted
      then exists state, applied_state contract source delivery state /\
             e <| env_WaitsPayload := payload |> = continued source (continuationPointer (wt_Spec record) delivery) state payload
      else e <| env_WaitsPayload := payload |> = source <| env_WaitsPayload := payload |>) ->
    decides wdr_ResumeToken executionID (changes (OpDeliverWait executionID delivery contract)) source
      (let% payload := io_lift (of_option (marshal (<[identity:=target]> waits)) json_error) in do% live in
       let% committed := commitExecution (env_Revision source) lease (e <| env_WaitsPayload := payload |>) in
       io_ret (mkDeliveryResult decision (mkToken executionID (env_Revision committed)) false))).
  { intros e Hide Hch. decides_auto. apply decides_commit; [done| |done].
    match goal with Hm : of_option (marshal ?m) _ = Ok _ |- _ => destruct (marshal m) as [p|] eqn:Em; [injection Hm as <-|done] end.
    exists p, decision, waits, identity, record, target. do 3 (split; [done|]). split; [|exact Em]. split; [exact Hp|apply Hch]. }
  apply decides_bind; [destruct (_ == _); [apply continuation_framed|apply framed_lift]|]. intros w6 w7 e Ht.
  destruct (wdc_Status decision == WaitAccepted) eqn:Hst.
  - apply continuation_Ok in Ht as (encoded & Ha & Hx). apply Hend.
    + by rewrite <- Hid; apply (f_equal env_ExecutionID (Hx "")).
    + intros payload. exists encoded. split; [done|]. apply Hx.
  - injection Ht as _ <-. by apply Hend.
Qed.
Lemma deliverWait_behind executionID delivery w w' result err : store_inv w -> DeliverWait r executionID delivery contract w = (w', (result, err)) ->
  left_behind wdr_ResumeToken executionID (changes (OpDeliverWait executionID delivery contract)) w w' result.
Proof.
  intros Hw He. eapply operates_before; [exact Hw| |exact He|]. { framed_auto. apply waitSource_framed. }
  intros w1 b Hw1 He1. eapply operates_session; [done| |exact He1]. intros lease. apply deliverUnder_operates.
Qed.
End Deliver.

Definition pure_operation (op : operation) : Prop := match op with OpDeliverWait _ _ contract => pure_contract contract | _ => True end.

(** C3: an operator decision is one commit of one decision. Each of the six operations leaves
    the head of its execution as it was, or makes it one successor of the head it found, at the
    next revision, that differs from it by the decision alone. A resolution of an activity
    replaces the record of that activity in the journal by its resolution; a decision on a
    child replaces the group of the child by the one the decision makes of it; a cancellation
    of a wait replaces that wait by the cancelled one and ends the execution as failed, with
    the segment of its counters closed; a delivery records its decision in the wait it
    addresses and, where it is accepted, and only there, continues the execution: the state
    becomes what the host continuation made of it, the pointer that of the event or of the
    timeout, and the activation the next. Where it changes a head named by a token, that head
    was live and at the revision of the token. The token returned is that of the head left
    behind, and no execution is created. Match and continuation functions of a delivery are
    pure host work, as their contract asks: they move no head. *)
Theorem operator_decision_atomic op w w' result err : store_inv w -> pure_operation op -> perform op w = (w', (result, err)) ->
  left_behind (fun token => token) (execution_of op) (changes op) w w' result.
Proof.
  intros Hw Hp He. destruct op as [token q|id d contract|token q|token d|token q|token q]; simpl in He.
  - by apply resolveActivity_behind in He.
  - destruct (DeliverWait r id d contract w) as [w1 [res err1]] eqn:Ed. injection He as <- <- _.
    apply deliverWait_behind in Ed as [Hi Hx]; [|done..]. split; [done|]. destruct Hx as [[Hx ->]|(source & Hs & Hx)]; [by left|right].
    exists source. split; [done|]. destruct Hx as [[Hx Ht]|(target & committed & H1 & H2 & H3 & Ht)]; [left|right; exists target, committed].
    + split; [done|]. intros a Ha. destruct res as [res|]; [|done]. injection Ha as <-. by apply Ht.
    + split_and!; [done..|]. intros a Ha. destruct res as [res|]; [|done]. injection Ha as <-. by apply Ht.
  - by apply cancelWait_behind in He.
  - by apply confirm_behind in He.
  - by apply childWait_behind in He.
  - by apply childOutcome_behind in He.
Qed.

(** ** Deliveries *)
Section Delivered.
Context `{HL : !LawfulCodecs}.
Context (contract : WaitDeliveryContract W T) (Hpure : pure_contract contract).

(** What is stored of [waits]: a text read as them, or one they were written as, which reads
    back as them where JSON carries them without loss. *)
Definition waits_stored (payload : string) (waits : gmap string DurableWaitRecord) : Prop :=
  (unmarshal payload = Some (Some waits) \/ marshal waits = Some payload) /\
  (representable waits -> unmarshal payload = Some (Some waits)).
(** The waits of [head] hold the decision on [delivery], in the wait [record] it addresses. *)
Definition holds_decision (head : ExecutionEnvelope) (delivery : WaitDelivery) (record : DurableWaitRecord) (decision : WaitDecision) : Prop :=
  exists waits identity, waits_stored (env_WaitsPayload head) waits /\ waits !! identity = Some record /\
    wt_Generation record = dlv_Generation delivery /\ wt_Decisions record !! dlv_ID delivery = Some decision.

(** The head [head] that a delivery to [source] leaves: the same where it was decided before;
    else the next revision, where the continuation runs exactly when the delivery won. *)
Definition delivered (executionID : string) (delivery : WaitDelivery) (source head : ExecutionEnvelope) (result : WaitDeliveryResult) : Prop :=
  wdr_ResumeToken result = mkToken executionID (env_Revision head) /\
  exists record, holds_decision head delivery record (wdr_Decision result) /\
    if wdr_Replay result then head = source
    else env_Revision head = (env_Revision source + 1)%N /\
      if wdc_Status (wdr_Decision result) == WaitAccepted then
        prg_ExecutionPointer (env_Progress head) = continuationPointer (wt_Spec record) delivery /\
        env_Activation head = succ_u64 (env_Activation source) /\
        applied_state contract source delivery (prg_StatePayload (env_Progress head))
      else env_Progress head = env_Progress source /\ env_Activation head = env_Activation source.

Lemma waits_decode source waits identity record : validateExecutionCollectionsWithWaits source = Ok waits -> waits !! identity = Some record ->
  unmarshal (env_WaitsPayload source) = Some (Some waits).
Proof.
  unfold validateExecutionCollectionsWithWaits. intros Hv Hl. do 2 (guard_in Hv; [done|]). do 2 apply bind_Ok in Hv as (? & _ & Hv).
  unfold executionWaits in Hv. guard_in Hv; [injection Hv as <-; by rewrite lookup_empty in Hl|].
  destruct (unmarshal _) as [[ws|]|]; try done. guard_in Hv; [done|]. by injection Hv as <-.
Qed.

Lemma deliverUnder_Ok executionID delivery lease w w' result : store_inv w ->
  deliverUnder r executionID delivery contract lease w = (w', Ok result) ->
  exists source head, store_head w executionID = Some source /\ store_head w' executionID = Some head /\ delivered executionID delivery source head result.
Proof.
  intros Hw Hm. unfold deliverUnder in Hm. apply io_bind_Ok in Hm as (w1 & [source waits] & Hs & Hm).
  destruct (waitSource_framed executionID (dlv_Generation delivery) w Hw) as [Hw1 Hf1]. rewrite Hs in Hw1, Hf1. simpl in Hw1, Hf1.
  apply waitSource_Ok in Hs as (Hh & Hid & Hv); [|done]. apply io_bind_Ok in Hm as (w2 & [identity record] & [= <- Hfound] & Hm).
  apply found_generation in Hfound as [Hl Hgen]. apply io_bind_Ok in Hm as (w3 & [] & [= <- _] & Hm).
  apply io_bind_Ok in Hm as (w4 & [[target decision] replay] & Hp & Hm).
  destruct (prepareDelivery_framed contract Hpure lease source record delivery w1 Hw1) as [Hw4 Hf4]. rewrite Hp in Hw4, Hf4. simpl in Hw4, Hf4.
  apply prepared_decision in Hp as (Hd & Hg & Hspec & Hrp). exists source. destruct replay.
  { injection Hm as <- <-. exists source. split; [done|]. split; [by rewrite Hf4, Hf1|]. split; [done|]. exists record. split; [|done].
    exists waits, identity. pose proof (waits_decode _ _ _ _ Hv Hl) as Hx. split; [by split; [left|]|]. by subst. }
  apply io_bind_Ok in Hm as (w5 & e & He & Hm). apply io_bind_Ok in Hm as (w6 & payload & [= <- Hpay] & Hm).
  apply io_bind_Ok in Hm as (w7 & [] & [= <- _] & Hm). apply io_bind_Ok in Hm as (w8 & committed & Hc & Hm). injection Hm as <- <-.
  destruct (marshal (<[identity:=target]> waits)) as [p|] eqn:Em; [|done]. injection Hpay as ->.
  assert (Hdec : waits_stored payload (<[identity:=target]> waits)) by (split; [by right|intros Hr; by apply unmarshal_marshal]).
  assert (store_inv w5 /\ env_ExecutionID e = executionID /\
    (if wdc_Status decision == WaitAccepted then (exists encoded, applied_state contract source delivery encoded /\
      forall payload, e <| env_WaitsPayload := payload |> = continued source (continuationPointer (wt_Spec record) delivery) encoded payload)
     else (e = source))) as (Hw5 & Hide & Hcase).
  { guard_in He; cbn [negb].
    - destruct (continuation_framed contract Hpure (cloneExecutionEnvelope source) (wt_Spec record) delivery w4 Hw4) as [H5 _]. rewrite He in H5.
      apply continuation_Ok in He as (encoded & Ha & Hx). split_and!; [done| |by exists encoded].
      rewrite <- Hid. by apply (f_equal env_ExecutionID (Hx "")).
    - by injection He as <- <-. }
  apply commit_accepted in Hc as (_ & _ & Hseal & Hh'); [|done]. cbn in Hh'. rewrite Hide in Hh'. exists committed. do 3 (split; [done|]).
  assert (exists digest, committed = (e <| env_WaitsPayload := payload |>) <| env_Revision := (env_Revision source + 1)%N |> <| env_Digest := digest |>)
    as (digest & ->).
  { unfold SealExecutionEnvelope in Hseal. guard_in Hseal; [done|]. apply bind_Ok in Hseal as (d & _ & Hseal). injection Hseal as <-. by exists d. }
  exists target. split.
  { exists (<[identity:=target]> waits), identity. rewrite lookup_insert_eq. split; [exact Hdec|]. split_and!; [done|congruence|done]. }
  cbn [wdr_Replay wdr_Decision]. split; [done|]. guard_in Hcase.
  - destruct Hcase as (encoded & Ha & Hx). rewrite Hx. cbn. split_and!; [by rewrite Hspec|done|done].
  - by subst e.
Qed.

(** C4: a reported delivery is durable, and continues the execution exactly once. When
    [DeliverWait] returns a decision, the waits committed in the head of the execution hold
    that decision under the delivery's identity in the wait it addressed, at the revision of
    the token. (The stored text is the encoding of those waits, and decodes to them where
    JSON carries them without loss.) A decision made before is reported without a commit. A
    new one is committed at the next revision together with its effect: the state the host
    continuation made, the pointer of the event or of the timeout and the next activation
    where the delivery won, and nothing else where it lost or did not match. Match and
    continuation functions are pure host work, as their contract asks: they move no head. *)
Theorem delivered_decision_durable executionID delivery w w' result err : store_inv w ->
  DeliverWait r executionID delivery contract w = (w', (Some result, err)) ->
  exists source head, store_head w executionID = Some source /\ store_head w' executionID = Some head /\ delivered executionID delivery source head result.
Proof.
  intros Hw He. unfold DeliverWait, before in He.
  destruct (framed_bind (io_lift (if validDeliveryText executionID delivery then Ok tt else Err ErrWaitInvalid)) (fun _ => waitDeliverySource r executionID (dlv_Generation delivery))
    (framed_lift _) (fun _ => waitSource_framed _ _) w Hw) as [H1 H2].
  destruct (io_bind _ _ w) as [w1 [b|e]]; [|done]. simpl in H1, H2. unfold withSession, underSession in He.
  destruct (framed_acquire r executionID w1 H1) as [H3 H4]. destruct (acquireSession r executionID w1) as [w2 [lease|e]]; [|done]. simpl in H3, H4.
  destruct (deliverUnder r executionID delivery contract lease w2) as [w3 [res|e]] eqn:Eb; cycle 1. { by destruct (finish lease w3). }
  pose proof Eb as Hb. apply deliverUnder_Ok in Eb as (source & head & Hs & Hh & Hd); [|done].
  apply (deliverUnder_operates contract Hpure) in Hb as [H5 _]; [|done].
  destruct (framed_finish lease w3 H5) as [_ H6]. destruct (finish lease w3) as [w4 cleanup]. injection He as <- <- _. simpl in H6.
  exists source, head. by rewrite <- H2, <- H4, H6.
Qed.
End Delivered.
End Decisions.
