(* ===== verification/DurableRunInv.v ===== *)
(** * What a durable run leaves in storage

    On any store that keeps its contract: a durable run starts from a committed head and, when
    it reports a completed execution without an error, that result is the committed head. The
    proof composes the session theorems of DurableSession.v with the entry points of
    DurableRunner.v; the world of a running session holds the terminal event as well. *)

From S2P Require Import Prelude Go Sha256 Json Identity Schedule Activity Waits Contract Children Wire Migration Integrity Aggregate Runtime Session ActivityCall ActivityCallInv Checkpointer Graph Handoff Runner RunnerInv Resume DurableSession DurableRunner Operators OperatorsInv.

#[local] Arguments validRuntimeText : simpl never.
#[local] Arguments sha256_hex : simpl never.

(** ** The buffered world keeps the contract of the world beneath *)
Section Buffered.
Context {W T E : Type} `{HC : Codecs} `{HS : ExecutionStore W} `{HK : !StoreContract W} `{HW : WorldHost W T E}.

#[export] Instance buffered_contract : StoreContract (buffered W T E).
Proof.
  refine {| store_inv b := store_inv (buf_world b) |}; cbn; unfold beneath.
  - intros b b' revision lease envelope committed Hb He. destruct (store_commit _ _ _ _) as [w out] eqn:Ec. injection He as <- ->.
    by apply commit_accepted in Ec.
  - intros b b' revision lease envelope err Hb He. destruct (store_commit _ _ _ _) as [w out] eqn:Ec. injection He as <- ->.
    by apply commit_refused in Ec.
  - intros b revision lease envelope Hb. pose proof (commit_inv _ revision lease envelope Hb) as Hi. by destruct (store_commit _ _ _ _).
  - intros b b' id e Hb He. destruct (store_load _ _) as [w out] eqn:El. injection He as _ ->. by apply load_head in El.
  - intros b id Hb. pose proof (load_frame _ id Hb). by destruct (store_load _ _).
  - intros b id owner ttl Hb. pose proof (acquire_frame _ id owner ttl Hb). by destruct (store_acquire _ _ _ _).
  - intros b b' id owner ttl lease Hb He. destruct (store_acquire _ _ _ _) as [w out] eqn:Ea. injection He as _ ->. by apply acquire_lease in Ea.
  - intros b lease Hb. pose proof (release_frame _ lease Hb). by destruct (store_release _ _).
  - intros b Hb. pose proof (now_frame _ Hb). by destruct (clock_Now _).
  - intros b Hb. pose proof (random_frame _ Hb). by destruct (retry_random _).
Defined.

Lemma framed_beneath {A} (f : W -> W * A) : framed f -> framed (beneath (T := T) (E := E) f).
Proof. intros Hf b Hb. specialize (Hf (buf_world b) Hb). unfold beneath. by destruct (f (buf_world b)). Qed.
#[export] Instance buffered_frame `{HF : !HostFrame (W := W) (T := T) (E := E)} : HostFrame (W := buffered W T E) (T := T) (E := E).
Proof.
  split; try (apply framed_beneath; apply HF). intros event b Hb. cbn. destruct (isTerminalEventType _); [done|].
  by apply (framed_beneath _ (hf_emit event)).
Qed.
End Buffered.

Section Run.
Context {W T E : Type} `{HC : Codecs} `{HS : ExecutionStore W} `{HK : !StoreContract W} `{HW : WorldHost W T E}
  `{HF : !HostFrame (W := W) (T := T) (E := E)}.
Context (error_text : error -> string) (r : DurableRunner W T E).
Notation X := (executionCheckpointer (buffered W T E)).

(** The policies of the host: the gate of a fork, which is asked before the session is built,
    moves no head; the target policy of a run works in the session, as handlers do. *)
Record quiet_policies (inv : runInvocationOptions X T) : Prop := {
  qp_authorize : forall policy authorize lineage, dop_ForkPolicy (drn_options r) = Some policy -> fpo_Authorize policy = Some authorize ->
    framed (authorize lineage);
  qp_target : forall policy state pointer id, inv_resumeTargetPolicy inv = Some policy -> keeps id (policy state pointer);
}.

(** ** Where a run starts *)
(** After [prepare] the envelope it returns is the head of the execution; [known] is the head
    read before. *)
Definition prepares (id : string) (lease : ExecutionLease) (known : option ExecutionEnvelope) (m : io W ExecutionEnvelope) : Prop :=
  forall w w' out, store_inv w -> lse_ExecutionID lease = id -> (forall e, known = Some e -> store_head w id = Some e) -> m w = (w', out) ->
  store_inv w' /\ forall e, out = Ok e -> store_head w' id = Some e /\ env_ExecutionID e = id.

Lemma prepares_bind {A} id lease known (m : io W A) (k : A -> io W ExecutionEnvelope) : framed m ->
  (forall w w1 a, m w = (w1, Ok a) -> prepares id lease known (k a)) -> prepares id lease known (io_bind m k).
Proof.
  intros Hm Hk w w' out Hw Hl Hn He. destruct (Hm w Hw) as [H1 H2].
  apply io_bind_inv in He as [(w1 & a & Ea & He)|(e & Ea & ->)]; rewrite Ea in H1, H2; [|by split].
  apply (Hk _ _ _ Ea) in He; [done|done|done|]. intros e He'. simpl in H2. rewrite H2. by apply Hn.
Qed.
Lemma prepares_Err id lease known err : prepares id lease known (io_lift (Err err)).
Proof. intros w w' out Hw _ _ [= <- <-]. by split. Qed.
Lemma prepares_known id lease e : env_ExecutionID e = id -> prepares id lease (Some e) (io_ret e).
Proof. intros Hid w w' out Hw _ Hn [= <- <-]. split; [done|]. intros e' [= <-]. split; [by apply Hn|done]. Qed.
Lemma prepares_commit id lease known revision target : prepares id lease known (commitExecution revision lease target).
Proof.
  intros w w' out Hw Hl _ He. unfold commitExecution in He. pose proof (commit_inv w revision lease target Hw) as Hi. rewrite He in Hi.
  split; [done|]. intros e ->. apply commit_accepted in He as (Hid & _ & Hs & Hh); [|done]. rewrite Hl in Hid. rewrite <- Hid. split; [done|].
  unfold SealExecutionEnvelope in Hs. guard_in Hs; [done|]. apply bind_Ok in Hs as (d & _ & Hs). by injection Hs as <-.
Qed.

Lemma framed_newMeta : framed (newMeta (W := W) (T := T) (E := E)).
Proof. unfold newMeta. framed_auto; apply framed_read, hf_now. Qed.

Lemma prepareStart_prepares id lease initial : prepares id lease None (prepareStart r lease initial).
Proof.
  intros w w' out Hw Hl Hn He. unfold prepareStart in He. destruct (load_frame w (lse_ExecutionID lease) Hw) as [H1 H2].
  destruct (store_load w _) as [w1 [e|err]]; [injection He as <- <-; by split|]. simpl in H1. guard_in He; [injection He as <- <-; by split|].
  revert He. apply (prepares_bind id lease None); [apply framed_lift|intros _ _ state _|done|done|done].
  apply prepares_bind; [apply framed_lift|intros _ _ effects _]. apply prepares_bind; [apply framed_live|intros _ _ _ _].
  apply prepares_bind; [apply framed_newMeta|intros _ _ meta _]. apply prepares_bind; [apply framed_read, hf_telemetry|intros _ _ context _].
  apply prepares_commit.
Qed.

Lemma framed_forkPolicy inv lineage : quiet_policies inv -> framed (checkForkPolicy r lineage).
Proof.
  intros Hq. unfold checkForkPolicy. destruct lineage as [lineage|]; [|apply framed_lift]. apply framed_bind; [apply framed_lift|intros _].
  destruct (dop_ForkPolicy _) as [policy|] eqn:Ep; [|apply framed_lift]. destruct (_ || _); [apply framed_lift|].
  destruct (_ == _); [destruct (is_nil _); apply framed_lift|]. destruct (fpo_Authorize policy) as [authorize|] eqn:Ea; [|apply framed_lift].
  apply framed_bind; [|intros _; apply framed_live]. pose proof (qp_authorize _ Hq _ _ lineage Ep Ea) as Hf.
  intros w Hw. specialize (Hf w Hw). unfold io_wrap. by destruct (authorize lineage w) as [w1 [a|e]].
Qed.

Lemma migrated_prepares id lease known source : prepares id lease known (prepareMigratedTarget r lease source).
Proof.
  unfold prepareMigratedTarget. destruct (PrepareExecutionMigration _ _ _ _) as [[target|err]|]; [|apply prepares_Err..].
  destruct (validateExecutionCollections target); [apply prepares_Err|]. destruct (validateTargetCodecs r target); [apply prepares_Err|].
  apply prepares_bind; [apply framed_live|intros _ _ _ _; apply prepares_commit].
Qed.
Lemma prepareResume_prepares inv lease token : quiet_policies inv -> prepares (tok_ThreadID token) lease None (prepareResume r lease token).
Proof.
  intros Hq w w' out Hw Hl _ He. unfold prepareResume in He. destruct (load_frame w (tok_ThreadID token) Hw) as [H1 H2].
  apply io_bind_inv in He as [(w1 & source & El & He)|(e & El & ->)]; rewrite El in H1, H2; [|by split]. apply load_head in El; [|done].
  simpl in H1, H2. rewrite <- H2 in El. revert He. apply (prepares_bind _ lease (Some source)); [apply framed_live| |done|done|by intros e [= <-]].
  intros _ _ [] _. apply prepares_bind; [apply framed_lift|]. intros ? ? [] [= _ Hv]. apply check_Ok, integrity_id in Hv.
  guard_goal; [|apply prepares_Err]. do 3 (apply prepares_bind; [apply framed_lift|intros _ _ _ _]).
  apply prepares_bind; [by apply (framed_forkPolicy inv)|intros _ _ _ _]. destruct (checkDescriptor _ _).
  - destruct (negb (is_nil (validateDescriptor _))); [apply prepares_Err|apply migrated_prepares].
  - apply prepares_bind; [apply framed_lift|intros _ _ _ _]. by apply prepares_known.
Qed.

(** ** The run *)
Notation base := (base error_text r).
Section Execution.
Context (id : string) (HG : graph_in_session (drn_graph r) id).

Lemma load_keeps threadID : keeps id (cp_Load (base_checkpointer r) threadID).
Proof. intros c Hc. cbn. unfold Load. by destruct (_ != _). Qed.
Lemma normalized_keeps threadID : keeps id (loadNormalizedSnapshot (base_checkpointer r) threadID).
Proof. unfold loadNormalizedSnapshot. apply keeps_bind; [apply load_keeps|intros loaded; apply keeps_ret]. Qed.
Lemma now_keeps : keeps id (time_Now (X := X) (T := T) (E := E)).
Proof. apply keeps_world, hf_now. Qed.
Lemma evaluate_keeps inv token : quiet_policies inv -> keeps id (evaluateResume base (base_checkpointer r) token inv).
Proof.
  intros Hq. unfold evaluateResume. destruct (_ == _); [apply keeps_ret|]. apply keeps_bind; [apply normalized_keeps|].
  intros [[[snapshot|] revision] [err|]]; try apply keeps_ret. destruct (_ == _); [apply keeps_ret|]. destruct (_ != _); [apply keeps_ret|].
  apply keeps_bind; [apply now_keeps|]. intros now. destruct (handoffGate _ _ _) as [[[status reason] err]|]; [apply keeps_ret|].
  unfold resumeAdmitted. apply keeps_bind; [apply keeps_ret|]. intros [state|err]; [|apply keeps_ret].
  destruct (match inv_overlay inv with Some _ => _ | None => _ end); [|apply keeps_ret].
  do 2 (apply keeps_bind; [apply now_keeps|intros ?]). apply keeps_bind; [|by intros [[? ?] ?]; apply keeps_ret].
  unfold applyResumeTargetPolicy. destruct (inv_resumeTargetPolicy inv) as [policy|] eqn:Ep; [|apply keeps_ret].
  apply keeps_bind; [by apply (qp_target _ Hq)|intros ?; apply keeps_ret].
Qed.

(** What is stored of a completed execution. *)
Record completed_head (head : ExecutionEnvelope) (result : RunResult T E) : Prop := {
  ch_id : env_ExecutionID head = id;
  ch_terminal : exists terminal, env_Terminal head = Some terminal /\ trm_Status terminal = RunStatusCompleted;
  ch_token : rr_ResumeToken result = mkToken id (env_Revision head);
  ch_pointer : prg_ExecutionPointer (env_Progress head) = rr_ExecutionPointer result;
  ch_meta : env_RunMeta head = rr_RunMeta result;
  ch_data : (Marshal (drn_stateCodec r) (rr_State result) = Ok (prg_StatePayload (env_Progress head)) /\
             Marshal (drn_effectsCodec r) (rr_Effects result) = Ok (env_EffectsPayload head)) \/
            (Unmarshal (drn_stateCodec r) (prg_StatePayload (env_Progress head)) = Ok (rr_State result) /\
             Unmarshal (drn_effectsCodec r) (env_EffectsPayload head) = Ok (rr_Effects result));
}.
(** A run that ended in [w'] with [out] is finished, and true where it reports completion. *)
Definition reports (w' : W) (out : option (outcome (RunResult T E))) : Prop :=
  exists o, out = Some o /\ forall result, o = (Some result, None) -> rr_Status result = RunStatusCompleted ->
    store_inv w' /\ exists head, store_head w' id = Some head /\ completed_head head result.
Lemma reports_error w' o err : o.2 = Some err -> reports w' (Some o).
Proof. intros Ho. exists o. split; [done|]. intros result ->. done. Qed.

Lemma settle_reports ran c w' out : (forall result, ran = (Some result, None) -> rr_Status result = RunStatusCompleted ->
    durably_completed (drn_stateCodec r) (drn_effectsCodec r) id id result c) ->
  settleRun error_text r ran c = (w', out) -> reports w' (Some out).
Proof.
  intros Hd He. exists out. split; [done|]. intros result -> Hc. unfold settleRun in He. destruct ran as [ran err].
  destruct (finalizeRunOutcome _ _ _ _ _ _) as [c1 [[result1 runErr] deliver]] eqn:Ef. cbn [fst snd] in Ef.
  assert (result1 = Some result /\ runErr = None /\ (w' = leave c1 \/ exists event, w' = (world_emit event (leave c1)).1)) as (-> & -> & Hw').
  { destruct (buf_terminal _) as [event|]; [|injection He as <- -> ->; by auto]. destruct deliver; [|injection He as <- -> ->; by auto].
    destruct (world_emit event (leave c1)) as [w1 b] eqn:Ew. injection He as <- -> ->. split_and!; [done|done|]. right. exists event. by rewrite Ew. }
  unfold finalizeRunOutcome in Ef. assert (err = None /\ c1 = c /\ exists ran1, ran = Some ran1 /\
    result = ran1 <| rr_ResumeToken := mkToken (env_ExecutionID (ckp_envelope c)) (env_Revision (ckp_envelope c)) |>) as (-> & -> & ran1 & -> & ->).
  { destruct ran as [ran1|], err as [err|]; simpl in Ef; try done.
    - destruct (_ == _); [|done]. by destruct (commitRunFailureLocked _ _ _ _ _ _) as [c2 [r2|e2]].
    - injection Ef as <- <- _. split_and!; [done|done|]. by exists ran1. }
  destruct (Hd ran1 eq_refl Hc) as ([[Hi Hh] Hid [Hr _] Hp Hm1 Hm2 Hmeta] & Ht & Htok). cbn in Hh, Hp, Hm1, Hm2, Hmeta.
  assert (store_inv w' /\ store_head w' id = store_head (leave c) id) as [Hi' Hh'].
  { destruct Hw' as [->|(event & ->)]; [done|]. destruct (hf_emit event (leave c) Hi) as [H1 H2]. by split. }
  split; [done|]. exists (ckp_envelope c). rewrite Hh'. rewrite Hid in Hh. split; [done|]. split; cbn; try done.
  - by exists (mkTerminal RunStatusCompleted "" None).
  - by rewrite Hid.
  - by left.
Qed.

Lemma session_reports token inv c w' out : quiet_policies inv -> hosted id c -> tok_ThreadID token = id ->
  runSession error_text r token inv c = (w', out) -> reports w' out.
Proof.
  intros Hq Hc Htok He. unfold runSession in He. pose proof (evaluate_keeps inv token Hq c Hc) as Hk.
  destruct (evaluateResume _ _ _ _ c) as [c1 decision] eqn:Ed. simpl in Hk.
  destruct (dec_Err decision) as [err|] eqn:Ee. { injection He as <- <-. by eapply reports_error. }
  destruct (dec_State decision) as [state|] eqn:Es, (dec_RunMeta decision) as [meta|] eqn:Em; cycle 1.
  1-3: injection He as <- <-; eexists; split; [done|]; by intros result [= ].
  destruct (execute base error_text (tok_ThreadID token) (dec_ExecutionPointer decision) state meta (dec_Effects decision) (dec_SnapshotRevision decision) inv c1)
    as [c2 ran] eqn:Ex.
  destruct (executeLoop_enough base error_text (executionFuel base meta) (tok_ThreadID token) inv
    (mkLoop (dec_ExecutionPointer decision) state meta (dec_Effects decision) (dec_SnapshotRevision decision)) c1) as (x' & ran' & Hr).
  { unfold executionFuel. simpl. lia. }
  pose proof Ex as Ex'. unfold execute in Ex'. rewrite (Hr _ (le_n _)) in Ex'. injection Ex' as -> <-.
  destruct (settleRun error_text r ran' c2) as [w1 o] eqn:Ew. injection He as <- <-. eapply settle_reports; [|exact Ew].
  intros result -> Hcomp. rewrite Htok in Ex. by apply (execute_completes _ _ _ _ _ _ _ _ HG) in Ex.
Qed.

Lemma newSession_hosted lease envelope w : store_inv w -> env_ExecutionID envelope = id -> hosted id (newSession (T := T) (E := E) lease envelope w).
Proof. done. Qed.

Lemma cached_reports envelope terminal snapshot revision lease w w' out : store_inv w -> store_head w id = Some envelope -> env_ExecutionID envelope = id ->
  env_Terminal envelope = Some terminal ->
  decode (drn_stateCodec r) (drn_effectsCodec r) (newSession (T := T) (E := E) lease envelope w) envelope = Ok (snapshot, revision) ->
  cachedDurableResult envelope terminal snapshot w = (w', out) -> reports w' (Some out).
Proof.
  intros Hw Hh Hid Ht Hd He. unfold cachedDurableResult in He. destruct (world_emit _ w) as [w1 b] eqn:Ew.
  injection He as <- <-. eexists. split; [reflexivity|]. intros result [= <- Hf] Hc. cbn in Hc.
  match type of Ew with world_emit ?event _ = _ => destruct (hf_emit event w Hw) as [H1 H2] end. rewrite Ew in H1, H2. split; [done|].
  exists envelope. simpl in H2. rewrite H2. split; [done|]. unfold decode in Hd. do 3 apply bind_Ok in Hd as ([] & _ & Hd).
  apply bind_Ok in Hd as (state & Hs & Hd). apply bind_Ok in Hd as (effects & Hes & Hd). injection Hd as <- _. split; cbn; try done.
  - by exists terminal.
  - by rewrite Hid.
  - by right.
Qed.

Lemma run_reports lease envelope inv w w' out : quiet_policies inv -> store_inv w -> store_head w id = Some envelope -> env_ExecutionID envelope = id ->
  runWithSink error_text r lease envelope inv w = (w', out) -> reports w' out.
Proof.
  intros Hq Hw Hh Hid He. unfold runWithSink in He.
  destruct (applyRunOptions inv) as [inv'|err] eqn:Ei; [|injection He as <- <-; by eapply reports_error].
  assert (inv' = inv) as -> by (unfold applyRunOptions in Ei; destruct (inv_checkpointPolicy inv); congruence).
  guard_in He; [injection He as <- <-; by eapply reports_error|].
  destruct (ctx_Err w) as [err|]; [injection He as <- <-; by eapply reports_error|].
  destruct (checkArmedWaitCompatibility r envelope) as [err|]; [injection He as <- <-; by eapply reports_error|].
  destruct (Load _ _ _ _) as [c [[snapshot revision]|err]] eqn:El; [|injection He as <- <-; by eapply reports_error].
  unfold Load in El. guard_in El; [done|]. injection El as <- Hd.
  destruct (ctx_Err (leave _)) as [err|]; [injection He as <- <-; by eapply reports_error|].
  destruct (env_Terminal envelope) as [terminal|] eqn:Et.
  { destruct (cachedDurableResult _ _ _ _) as [w1 o] eqn:Ec. injection He as <- <-. by eapply cached_reports. }
  unfold recoverArmedWait in He.
  destruct (executionWaits envelope) as [waits|err]; [|injection He as <- <-; by eapply reports_error].
  destruct (armedWaits waits) as [|record rest].
  - refine (session_reports _ _ _ _ _ Hq _ _ He); [|exact Hid]. by apply (newSession_hosted lease envelope w).
  - destruct (registerDurableWait _ _ _) as [w1 [err|]]; [injection He as <- <-; by eapply reports_error|].
    destruct (world_emit _ w1) as [w2 b]. injection He as <- <-. eexists. split; [done|]. by intros result [= <-].
Qed.
End Execution.

(** ** Entry points *)
Inductive entry := EntryStart (id : string) (initial : T) | EntryResume (token : ResumeToken).
Definition entry_id (e : entry) : string := match e with EntryStart id _ => id | EntryResume token => tok_ThreadID token end.
Definition enter (e : entry) (inv : runInvocationOptions X T) : st W (option (outcome (RunResult T E))) :=
  match e with
  | EntryStart id initial => StartDurable error_text r id initial inv
  | EntryResume token => ResumeDurable error_text r token inv
  end.

Lemma ran_reports id prepare inv w w' out : store_inv w -> quiet_policies inv -> graph_in_session (drn_graph r) id ->
  (forall lease, prepares id lease None (prepare lease)) -> ranUnderSession error_text r id prepare inv w = (w', out) -> reports id w' out.
Proof.
  intros Hw Hq HG Hp He. unfold ranUnderSession, underSession in He. destruct (framed_acquire r id w Hw) as [H1 _].
  destruct (acquireSession r id w) as [w1 [lease|err]] eqn:Ea; [|injection He as <- <-; by eapply reports_error]. simpl in H1.
  assert (Hl : lse_ExecutionID lease = id).
  { unfold acquireSession in Ea. guard_in Ea; [|done]. apply io_bind_Ok in Ea as (w2 & [] & [= <- _] & Ea). by apply acquire_lease in Ea as []. }
  destruct (prepare lease w1) as [w2 prepared] eqn:Ep. apply Hp in Ep as [H2 H3]; [|done|done|done].
  destruct prepared as [envelope|err].
  - destruct (H3 _ eq_refl) as [Hh Hid]. destruct (runWithSink error_text r lease envelope inv w2) as [w3 o] eqn:Er.
    pose proof Er as (o1 & -> & Ho)%(run_reports id HG); [|done..]. destruct (finish lease w3) as [w4 cleanup] eqn:Ef. injection He as <- <-.
    eexists. split; [done|]. intros result Hres Hc. unfold joined in Hres. destruct o1 as [res1 [e1|]]; [by destruct cleanup|].
    injection Hres as -> ->. destruct (Ho _ eq_refl Hc) as (Hi & head & Hh' & Hch). destruct (framed_finish lease w3 Hi) as [H5 H6].
    rewrite Ef in H5, H6. split; [done|]. exists head. simpl in H6. by rewrite H6.
  - destruct (finish lease w2) as [w4 cleanup]. injection He as <- <-. eexists. split; [done|]. intros result Hres. by destruct cleanup.
Qed.

(** C1: a durable run finishes, and what it reports completed is stored. [Start] and [Resume]
    of a durable runner return; and when they report a completed execution without an error,
    then after the lease is released the head of that execution is its completed terminal, at
    the revision of the token returned, with the pointer, the counters, the state and the
    effects of the result: those the run committed, or those of an execution that was
    completed before, read back from storage. This holds over every store that keeps its
    contract, acknowledgements it loses included, for every graph whose handlers and routers
    work in the session of the execution ([graph_in_session]: they may commit activities and
    children and fail to), where the fork gate, the context, the clock, the telemetry and the
    event sink move no head. *)
Theorem completed_execution_durable e inv w : store_inv w -> quiet_policies inv -> graph_in_session (drn_graph r) (entry_id e) ->
  exists w' out, enter e inv w = (w', Some out) /\
    forall result, out = (Some result, None) -> rr_Status result = RunStatusCompleted ->
      exists head, store_head w' (entry_id e) = Some head /\ completed_head (entry_id e) head result.
Proof.
  intros Hw Hq HG. destruct (enter e inv w) as [w' out] eqn:He. assert (reports (entry_id e) w' out) as (o & -> & Ho).
  { destruct e as [id initial|token]; simpl in He, HG |- *.
    - unfold StartDurable in He. destruct (validateRunOptions inv); [injection He as <- <-; by eapply reports_error|].
      destruct (checkRuntimeProfile r _); [injection He as <- <-; by eapply reports_error|].
      eapply ran_reports; [done|done|done| |exact He]. intros lease. apply prepareStart_prepares.
    - unfold ResumeDurable in He. destruct (validateRunOptions inv); [injection He as <- <-; by eapply reports_error|].
      eapply ran_reports; [done|done|done| |exact He]. intros lease. by eapply prepareResume_prepares. }
  exists w', o. split; [done|]. intros result Hr Hc. by destruct (Ho result Hr Hc).
Qed.
End Run.
