(* ===== verification/OperatorsExample.v ===== *)
(** * A closed delivery

    Execution "x" is stored at revision one with an armed wait whose deadline has passed; the
    lease of its owner has expired. [DeliverWait] takes the execution over, commits the timeout
    and its continuation at revision two, and the theorems of OperatorsInv.v say so. *)

From stdpp Require Import relations.
From S2P Require Import Prelude Go Sha256 Json Identity Schedule Activity Waits Contract Children Wire Migration Integrity Aggregate Runtime WireRecords Store StoreInv StoreExample Session ActivityCall StoreWorld ActivityExample Checkpointer CheckpointerExample Graph Handoff Runner Resume DurableSession DurableExample DurableRunner Operators OperatorsInv.

#[local] Opaque sha256_hex.
#[local] Arguments validRuntimeText : simpl never.

(** ** The stored execution *)
Definition spec_x : DurableWaitSpec := mkWaitSpec "approval" "order-7" (at_second 5) "by-order" "json-v1" "resume" "n" "m" WaitFirstCommitted.
Definition identity_x : string := waitIdentity "x" "n" 1 "approval".
Definition wait_x : DurableWaitRecord := mkWaitRecord "x" "n" 1 (waitGeneration identity_x 1) 1 spec_x profile_example WaitArmed "" ∅ None.
Definition waits_x : gmap string DurableWaitRecord := {[identity_x := wait_x]}.
Definition armed_x : ExecutionEnvelope := envelope_example <| env_WaitsPayload := String "w" (put waits_x) |>.
Definition sealed_x : ExecutionEnvelope :=
  armed_x <| env_Digest := sha256_hex (String "w" (put (armed_x <| env_Digest := "" |>))) |>.
Definition store_x : MemoryExecutionStore := put_checkpoint store_acquired "x" 1 (String "w" (put sealed_x)).

Lemma sealed_x_ok : SealExecutionEnvelope armed_x = Ok sealed_x.
Proof. reflexivity. Qed.
Lemma store_x_ok : CommitExecution None (at_second 1) store_acquired 0 owner_lease armed_x = Ok (store_x, sealed_x).
Proof.
  destruct (commit_complete (at_second 1) store_acquired owner_lease armed_x sealed_x None) as (s' & Hs');
    [done|reflexivity|reflexivity|reflexivity|reflexivity|reflexivity|reflexivity|apply sealed_x_ok|exact I|].
  change (head_of store_acquired (env_ExecutionID armed_x)) with 0%N in Hs'. rewrite Hs'.
  apply commit_Ok in Hs'; [|intros e _; exact I]. destruct Hs' as [_ _ _ _ _ _ (b & Hb & _ & _ & ->)]. injection Hb as <-. reflexivity.
Qed.
Lemma store_x_loads : LoadExecution None store_x "x" = Ok sealed_x.
Proof.
  apply (commit_loads (at_second 1) store_acquired 0 owner_lease armed_x).
  - apply reachable_ok, store_acquired_reachable.
  - apply commit_Ok; [intros e _; exact I|apply store_x_ok].
Qed.
Lemma store_x_reachable : store_reachable store_x.
Proof. eapply rtc_r; [apply store_acquired_reachable|]. eapply sstep_commit, store_x_ok. intros e _. exact I. Qed.

Lemma wait_x_valid : valid_wait wait_x 1.
Proof. by apply (plan_valid "x" "n" 1 1 spec_x profile_example wait_x). Qed.
Lemma waits_x_read : executionWaits sealed_x = Ok waits_x.
Proof.
  unfold executionWaits. change (no_bytes (env_WaitsPayload sealed_x)) with false. cbv iota.
  change (env_WaitsPayload sealed_x) with (String "w" (put waits_x)).
  assert (unmarshal (String "w" (put waits_x)) = Some (Some waits_x)) as -> by (apply unmarshal_marshal; [exact I|reflexivity]).
  assert (map_all (fun identity record => validWaitEnvelopeAddress sealed_x identity record && validCanceledWaitTerminal sealed_x record) waits_x = true) as ->.
  { apply map_all_true. apply map_Forall_singleton. unfold validWaitEnvelopeAddress.
    change (env_Revision sealed_x) with 1%N. pose proof wait_x_valid as Hv. apply validateDurableWait_iff in Hv. rewrite Hv.
    rewrite (bool_decide_eq_true_2 (identity_x = _)) by reflexivity. reflexivity. }
  unfold armedWaits, range, waits_x. rewrite map_to_list_singleton. reflexivity.
Qed.

(** ** The runner *)
Definition two_nodes : Graph (executionCheckpointer (buffered memory_world string string)) string string :=
  mkGraph (<["n" := fun state counts c => (c, (counts, Ok (state, End)))]> {["m" := fun state counts c => (c, (counts, Ok (state, End)))]})
    {["n" := "m"]} ∅ ∅ ∅ "n" (fun _ update => update) (mkRunConfig 5 false 0 ∅).
Definition backend_x : DurableWaitBackend memory_world := mkWaitBackend _ profile_example (fun _ w => (w, None)).
Definition runner_x : DurableRunner memory_world string string :=
  mkDurableRunner two_nodes (mkCapabilities (Some backend_x) None None) (descriptor_example "1") text_codec texts_codec
    (mkDurableOptions "p" 10000000000 [] (Some profile_example) None) (Some backend_x).

Definition timer_x : WaitDelivery := mkDelivery (waitGeneration identity_x 1) "d1" WaitTimer "order-7" 1 "".
Definition contract_x : WaitDeliveryContract memory_world string :=
  mkDeliveryContract "by-order" "json-v1" "resume" None (Some (fun state _ w => (w, Ok (state ++ "!")%string))).
Lemma contract_x_pure : pure_contract contract_x.
Proof. split; [done|]. intros f state delivery [= <-] w Hw. by split. Qed.

Definition world_x : memory_world :=
  mkMemoryWorld store_x 0 (fun _ => at_second 20) (fun _ => None) (fun _ => Some 0%N) (fun _ => false).

(** ** The delivery, call by call *)
Lemma found_x : findWaitGeneration waits_x (waitGeneration identity_x 1) = Ok (identity_x, wait_x).
Proof.
  unfold findWaitGeneration. rewrite bool_decide_eq_false_2 by apply map_non_empty_singleton.
  unfold range, waits_x. rewrite map_to_list_singleton. cbn [List.find]. by rewrite bool_decide_eq_true_2.
Qed.
Lemma source_x generation w : generation = waitGeneration identity_x 1 -> mw_context w (mw_tick w) = None ->
  LoadExecution None (mw_store w) "x" = Ok sealed_x ->
  waitDeliverySource runner_x "x" generation w = (tick w, Ok (sealed_x, waits_x)).
Proof.
  intros -> Hc Hl. unfold waitDeliverySource. cbn [store_load memory_execution_store]. rewrite Hc, Hl.
  assert (ValidateExecutionIntegrity sealed_x "x" (env_Revision sealed_x) = None) as -> by apply (seal_integrity armed_x _ sealed_x_ok).
  assert (validateExecutionCollectionsWithWaits sealed_x = Ok waits_x) as ->.
  { unfold validateExecutionCollectionsWithWaits. rewrite waits_x_read. reflexivity. }
  cbn [check mbind res_bind]. rewrite found_x. reflexivity.
Qed.

Definition store_xt : MemoryExecutionStore := store_x <| sto_fences := {["x" := 2%N]} |> <| sto_leases := {["x" := taker_lease]} |>.
Lemma acquired_x : acquireSession runner_x "x" (tick world_x) = (with_store (tick world_x) store_xt, Ok taker_lease).
Proof. reflexivity. Qed.
Lemma store_xt_loads : LoadExecution None store_xt "x" = Ok sealed_x.
Proof. exact store_x_loads. Qed.

Definition decision_x : WaitDecision := newWaitDecision wait_x timer_x 1 2 (at_second 20) false.
Definition expired_x : gmap string DurableWaitRecord := <[identity_x := recordWaitDecision wait_x decision_x]> waits_x.
Lemma decided_x w : mw_clock w (mw_tick w) = at_second 20 ->
  prepareWaitDelivery taker_lease sealed_x wait_x timer_x contract_x w = (tick w, Ok (recordWaitDecision wait_x decision_x, decision_x, false)).
Proof.
  intros Hc. unfold prepareWaitDelivery, io_bind, io_read. cbn [clock_Now memory_execution_store]. rewrite Hc.
  change (toUTC (at_second 20)) with (at_second 20). change (env_Revision sealed_x) with 1%N. change (lse_Incarnation taker_lease) with 2%N.
  assert (prepareWaitDecision wait_x timer_x 1 2 (at_second 20) false = Ok (recordWaitDecision wait_x decision_x, decision_x, false)) as ->; [|reflexivity].
  apply prepare_decides; [apply wait_x_valid|done|done| |done..]. unfold validateWaitDelivery.
  rewrite (bool_decide_eq_true_2 (dlv_Generation timer_x = _)) by reflexivity. reflexivity.
Qed.

Definition target_x : ExecutionEnvelope := continued sealed_x "m" "p!" (String "w" (put expired_x)).
Definition store_x2 : MemoryExecutionStore := put_checkpoint store_xt "x" 2 (String "w" (put (second_revision target_x))).
Lemma committed_x : CommitExecution None (at_second 20) store_xt 1 taker_lease target_x = Ok (store_x2, second_revision target_x).
Proof.
  destruct (commit_complete (at_second 20) store_xt taker_lease target_x (second_revision target_x) (Some sealed_x)) as (s' & Hs');
    [done|reflexivity|reflexivity|reflexivity| |reflexivity|reflexivity|reflexivity|exact I|].
  - change (head_of store_xt (env_ExecutionID target_x)) with 1%N. change (env_ExecutionID target_x) with "x".
    pose proof store_xt_loads as Hl. unfold LoadExecution in Hl. cbn [check mbind res_bind] in Hl. change (head_of store_xt "x") with 1%N in Hl.
    cbv zeta in Hl. rewrite bool_decide_eq_false_2 in Hl by done. change (0 <? 1)%N with true. cbv iota. rewrite Hl. reflexivity.
  - change (head_of store_xt (env_ExecutionID target_x)) with 1%N in Hs'. rewrite Hs'.
    apply commit_Ok in Hs'; [|intros e _; exact I]. destruct Hs' as [_ _ _ _ _ _ (b & Hb & _ & _ & ->)]. injection Hb as <-. reflexivity.
Qed.

Lemma timer_x_text : validDeliveryText "x" timer_x = true.
Proof.
  unfold validDeliveryText. assert (Hv : ValidString (dlv_Generation timer_x) = true) by apply sha256_hex_text.
  assert (Hn : dlv_Generation timer_x <> "") by apply sha256_hex_nonempty. unfold validRuntimeText. cbn [forallb].
  rewrite Hv, (bool_decide_eq_false_2 _ Hn). reflexivity.
Qed.

Lemma deliverUnder_x w : mw_store w = store_xt -> (forall n, mw_clock w n = at_second 20) -> (forall n, mw_context w n = None) -> (forall n, mw_lost w n = false) ->
  exists w1, deliverUnder runner_x "x" timer_x contract_x taker_lease w = (w1, Ok (mkDeliveryResult decision_x (mkToken "x" 2) false)) /\
    mw_store w1 = store_x2 /\ (forall n, mw_context w1 n = None).
Proof.
  intros Hs Hc He Hl. unfold deliverUnder, io_bind at 1. rewrite source_x; [|reflexivity|apply He|rewrite Hs; apply store_xt_loads].
  change (dlv_Generation timer_x) with (waitGeneration identity_x 1). rewrite found_x. unfold io_bind at 1, io_lift at 1. unfold io_bind at 1.
  change (check (checkDeliveryContract contract_x (wt_Spec wait_x))) with (Ok tt : res unit). unfold io_lift at 1. unfold io_bind at 1.
  rewrite decided_x by apply Hc. cbv iota.
  rewrite (bool_decide_eq_true_2 (wdc_Status decision_x = WaitAccepted)) by reflexivity. cbv iota.
  set (w2 := tick (tick w)). assert (He2 : mw_context w2 (mw_tick w2) = None) by apply He.
  assert (applyWaitContinuation runner_x (cloneExecutionEnvelope sealed_x) (wt_Spec wait_x) timer_x contract_x w2 =
    (w2, Ok (target_x <| env_WaitsPayload := String "w" (put waits_x) |>))) as Ha.
  { unfold applyWaitContinuation, live, io_bind. cbn [wdl_Apply contract_x ctx_Err memory_execution_store].
    rewrite (bool_decide_eq_false_2 (env_Activation _ = max_uint64)) by discriminate. cbn [negb io_lift]. cbv beta. rewrite He2. cbn [check].
    cbv iota beta. cbn [Unmarshal Marshal drn_stateCodec runner_x text_codec]. cbv iota beta. reflexivity. }
  unfold io_bind at 1. rewrite Ha. unfold io_bind at 1, io_lift at 1.
  change (of_option _ _) with (Ok (String "w" (put expired_x))). cbv iota. unfold io_bind at 1, live at 1.
  cbn [ctx_Err memory_execution_store]. rewrite He2. cbn [check]. cbv iota.
  unfold io_bind at 1, commitExecution. cbn [store_commit memory_execution_store].
  change (mw_context w2 (mw_tick w2)) with (mw_context w (mw_tick w2)). change (mw_clock w2 (mw_tick w2)) with (mw_clock w (mw_tick w2)).
  change (mw_store w2) with (mw_store w). change (mw_lost w2 (mw_tick w2)) with (mw_lost w (mw_tick w2)). rewrite He, Hc, Hs, Hl.
  change (env_Revision sealed_x) with 1%N.
  match goal with |- context [CommitExecution _ _ _ _ _ ?e] => change e with target_x end. rewrite committed_x.
  eexists. split; [reflexivity|]. split; [reflexivity|]. intros n. apply He.
Qed.

Lemma delivered_x : exists w', DeliverWait runner_x "x" timer_x contract_x world_x =
  (w', (Some (mkDeliveryResult decision_x (mkToken "x" 2) false), None)).
Proof.
  destruct (deliverUnder_x (with_store (tick world_x) store_xt)) as (w1 & Hd & Hs & Hc); [done..|]. eexists.
  unfold DeliverWait, before, io_bind at 1, io_lift at 1. rewrite timer_x_text. rewrite source_x; [|reflexivity|reflexivity|exact store_x_loads].
  unfold withSession, underSession. rewrite acquired_x, Hd. unfold finish, release. cbn [store_release memory_execution_store].
  rewrite Hc, Hs. reflexivity.
Qed.

Lemma world_x_inv : store_inv world_x.
Proof. exact store_x_reachable. Qed.

Lemma delivered_decision_durable_witness : exists w' source head, store_head (W := memory_world) world_x "x" = Some source /\
  store_head (W := memory_world) w' "x" = Some head /\
  delivered runner_x contract_x "x" timer_x source head (mkDeliveryResult decision_x (mkToken "x" 2) false).
Proof.
  destruct delivered_x as (w' & Hd). exists w'.
  apply (delivered_decision_durable (HL := wire_lawful) runner_x contract_x contract_x_pure "x" timer_x world_x w' _ None world_x_inv Hd).
Defined.

Lemma operator_decision_atomic_witness : exists w',
  left_behind (W := memory_world) (fun token => token) "x" (changes runner_x (OpDeliverWait "x" timer_x contract_x)) world_x w' (Some (mkToken "x" 2)).
Proof.
  destruct delivered_x as (w' & Hd). exists w'.
  apply (operator_decision_atomic runner_x (OpDeliverWait "x" timer_x contract_x) world_x w' _ None world_x_inv contract_x_pure).
  cbn [perform]. rewrite Hd. reflexivity.
Defined.
