(* ===== verification/DiscoveryExample.v ===== *)
(** * A closed polling cycle

    The theorem of DiscoveryDue.v on the tables of PostgresExample.v with an armed wait:
    execution "x" is committed with a wait whose deadline is at second five, and polled at
    second twenty, in an order of text that is total. *)

From stdpp Require Import relations.
From S2P Require Import Prelude Go Sha256 Json Identity Schedule Activity Waits Contract Children Wire Migration Integrity Aggregate Runtime WireRecords Store StoreInv StoreExample Session StoreWorld Postgres Discovery PostgresInv DiscoveryInv PostgresWorld PostgresExample DiscoveryPoll DiscoveryDue OperatorsExample.

#[export] Instance encoded_collation : Collation := fun s t => Pos.ltb (encode s) (encode t).
#[export] Instance encoded_collation_lawful : LawfulCollation.
Proof.
  split; unfold text_lt, encoded_collation.
  - intros s. apply Pos.ltb_irrefl.
  - intros s t u. rewrite !Pos.ltb_lt. apply Pos.lt_trans.
  - intros s t. rewrite !Pos.ltb_lt. destruct (Pos.lt_total (encode s) (encode t)) as [?|[E|?]]; [by right; left|left|by right; right].
    by apply (inj encode).
Qed.

Definition due_envelope : ExecutionEnvelope := armed_x <| env_RuntimeProfile := Some profile_example |>.
Definition due_world : postgres_world := (pgCommitExecution 0 owner_lease due_envelope acquired_world).1.

Lemma representable_due : seals_representable 0 due_envelope.
Proof. intros e _. exact I. Qed.
Lemma due_world_reachable : postgres_reachable due_world.
Proof.
  exact (ex_intro _ server_world (conj eq_refl
    (rtc_l _ _ _ _ (pstep_acquire server_world "x" "o" 10000000000)
      (rtc_once _ _ (pstep_commit acquired_world 0 owner_lease due_envelope representable_due))))).
Qed.
Lemma due_world_faultless n : pw_fault due_world n = None.
Proof. vm_compute. reflexivity. Qed.

Definition polled_world (limit : Z) : postgres_world * res (option (list DueWait * list DiscoveryDiagnostic)) :=
  poll (fun cursor => DiscoverDueWaits (fun _ => "") (Some profile_example) (at_second 20) cursor limit)
    (S (length (due_rows (pw_db due_world)))) empty_cursor due_world.
Lemma due_cycle : (polled_world 1).2 = Ok (Some ([mkDueWait wait_x 1], [])).
Proof. vm_compute. reflexivity. Qed.
Lemma due_rows_nonzero : forallb (fun c => negb (IsZero (due_Deadline c))) (due_rows (pw_db due_world)) = true.
Proof. vm_compute. reflexivity. Qed.
#[local] Opaque due_world.
Lemma due_rows_usable c : c ∈ due_rows (pw_db due_world) -> IsZero (due_Deadline c) = false.
Proof.
  intros Hc. pose proof due_rows_nonzero as H. rewrite forallb_forall in H. apply negb_true_iff, H. exact (proj1 (list_elem_of_In _ _) Hc).
Qed.

Lemma page_of_one : (0 < 1 <= maxWaitScanHeads)%Z.
Proof. unfold maxWaitScanHeads. lia. Qed.

(** One page size of many: the wait is found, and it is what the head holds. *)
Lemma due_work_found_witness :
  (polled_world 1).2 = Ok (Some ([mkDueWait wait_x 1], [])) /\
  ((exists w' waits, polled_world 1 = (w', Ok (Some (waits, []))) /\ pw_db w' = pw_db due_world /\ NoDup waits /\
      forall wait, wait ∈ waits <-> due_wait (pw_db due_world) profile_example (at_second 20) wait) \/
   exists q, collision (print (profile_json profile_example)) (print (profile_json q))).
Proof.
  split; [exact due_cycle|].
  destruct (due_work_found (HC := wire_codecs) (HL := wire_lawful) (HLC := text_columns_lawful) (fun _ => "") due_world profile_example (at_second 20) 1
    due_world_reachable due_world_faultless eq_refl eq_refl page_of_one due_rows_usable) as [[_ Hw]|Hc]; [left; exact Hw|right; exact Hc].
Defined.
