(* ===== verification/DurableRunExample.v ===== *)
(** * A closed replay of a completed execution

    Execution "x" is stored at revision one with its completed terminal. Resuming it takes the
    lease over, reads the stored result back without running a node and releases the lease. *)

From stdpp Require Import relations.
From S2P Require Import Prelude Go Sha256 Json Identity Schedule Activity Waits Contract Children Wire Migration Integrity Aggregate Runtime WireRecords Store StoreInv StoreExample Session ActivityCall StoreWorld ActivityExample Checkpointer CheckpointerExample Graph Handoff Runner Resume DurableSession DurableExample DurableRunner Operators OperatorsInv OperatorsExample DurableRunInv.

#[local] Opaque sha256_hex.
#[local] Arguments validRuntimeText : simpl never.

Definition done_x : ExecutionEnvelope := envelope_example <| env_Terminal := Some (mkTerminal RunStatusCompleted "" None) |>.
Definition sealed_done : ExecutionEnvelope :=
  done_x <| env_Digest := sha256_hex (String "w" (put (done_x <| env_Digest := "" |>))) |>.
Definition store_done : MemoryExecutionStore := put_checkpoint store_acquired "x" 1 (String "w" (put sealed_done)).

Lemma sealed_done_ok : SealExecutionEnvelope done_x = Ok sealed_done.
Proof. reflexivity. Qed.
Lemma store_done_ok : CommitExecution None (at_second 1) store_acquired 0 owner_lease done_x = Ok (store_done, sealed_done).
Proof.
  destruct (commit_complete (at_second 1) store_acquired owner_lease done_x sealed_done None) as (s' & Hs');
    [done|reflexivity|reflexivity|reflexivity|reflexivity|reflexivity|reflexivity|apply sealed_done_ok|exact I|].
  change (head_of store_acquired (env_ExecutionID done_x)) with 0%N in Hs'. rewrite Hs'.
  apply commit_Ok in Hs'; [|intros e _; exact I]. destruct Hs' as [_ _ _ _ _ _ (b & Hb & _ & _ & ->)]. injection Hb as <-. reflexivity.
Qed.
Lemma store_done_reachable : store_reachable store_done.
Proof. eapply rtc_r; [apply store_acquired_reachable|]. eapply sstep_commit, store_done_ok. intros e _. exact I. Qed.
Lemma store_done_loads : LoadExecution None store_done "x" = Ok sealed_done.
Proof.
  apply (commit_loads (at_second 1) store_acquired 0 owner_lease done_x).
  - apply reachable_ok, store_acquired_reachable.
  - apply commit_Ok; [intros e _; exact I|apply store_done_ok].
Qed.

Definition world_done : memory_world :=
  mkMemoryWorld store_done 0 (fun _ => at_second 20) (fun _ => None) (fun _ => Some 0%N) (fun _ => false).
Definition options_x : runInvocationOptions (executionCheckpointer (buffered memory_world string string)) string :=
  mkInvocationOptions None None None None (mkMetaInput ∅ ∅) "" 0 (mkLease "" "" 0 time_zero) None false CheckpointPolicyUnset.
Definition result_done : RunResult string string :=
  mkResult "p" RunStatusCompleted [""] (env_RunMeta sealed_done) "n" "" (mkToken "x" 1).

Lemma options_x_quiet : quiet_policies runner_x options_x.
Proof. by split. Qed.
Lemma two_nodes_in_session id : graph_in_session (drn_graph runner_x) id.
Proof.
  split; [|intros name router state Hr; simpl in Hr; by rewrite lookup_empty in Hr]. intros name node state counts Hn. simpl in Hn.
  apply lookup_insert_Some in Hn as [[_ <-]|[_ Hn]]; [by intros c Hc|]. apply lookup_singleton_Some in Hn as [_ <-]. by intros c Hc.
Qed.
Lemma world_done_inv : store_inv world_done.
Proof. exact store_done_reachable. Qed.

Definition store_done_taken : MemoryExecutionStore := store_done <| sto_fences := {["x" := 2%N]} |> <| sto_leases := {["x" := taker_lease]} |>.
Lemma done_integrity : ValidateExecutionIntegrity sealed_done "x" 1 = None.
Proof. apply (seal_integrity done_x _ sealed_done_ok). Qed.
Lemma prepared_done w : mw_store w = store_done_taken -> (forall n, mw_context w n = None) ->
  prepareResume runner_x taker_lease (mkToken "x" 1) w = (tick w, Ok sealed_done).
Proof.
  intros Hs Hc. unfold prepareResume, io_bind at 1. cbn [store_load memory_execution_store tok_ThreadID]. rewrite Hc, Hs.
  change (LoadExecution None store_done_taken "x") with (LoadExecution None store_done "x"). rewrite store_done_loads.
  unfold io_bind at 1, live at 1. cbn [ctx_Err memory_execution_store]. change (mw_context (tick w)) with (mw_context w). rewrite Hc. cbn [check].
  cbv iota. unfold io_bind at 1, io_lift at 1. change (env_Revision sealed_done) with 1%N. rewrite done_integrity. reflexivity.
Qed.
Definition session_done (w : memory_world) : executionCheckpointer (buffered memory_world string string) := newSession taker_lease sealed_done w.
Lemma ran_done w : (forall n, mw_context w n = None) ->
  runWithSink text_of runner_x taker_lease sealed_done options_x w = (w, Some (Some result_done, None)).
Proof.
  intros Hc. unfold runWithSink. cbn [applyRunOptions inv_checkpointPolicy options_x]. cbv iota.
  change ((CheckpointPolicyUnset == CheckpointPolicySkipOnSaveError) || (inv_leaseOwner options_x != "")) with false. cbv iota.
  cbn [ctx_Err memory_execution_store]. rewrite Hc. change (checkArmedWaitCompatibility runner_x sealed_done) with (@None error). cbv iota.
  assert (Hl : Load (drn_stateCodec runner_x) (drn_effectsCodec runner_x) (env_ExecutionID sealed_done) (session_done w) =
    (session_done w, Ok (mkSnapshot "x" "n" 1 "p" (env_RunMeta sealed_done) [""], 1%N))).
  { unfold Load. change (env_ExecutionID sealed_done != lse_ExecutionID (ckp_lease (session_done w))) with false. cbv iota.
    unfold decode. change (lse_ExecutionID (ckp_lease (session_done w))) with "x".
    change (ckp_envelope (session_done w)) with sealed_done. change (env_Revision sealed_done) with 1%N.
    rewrite done_integrity. reflexivity. }
  change (newSession taker_lease sealed_done w) with (session_done w). rewrite Hl. cbv iota. change (leave (session_done w)) with w. cbn [ctx_Err memory_execution_store]. rewrite Hc. reflexivity.
Qed.

Lemma resumed_done : exists w', enter text_of runner_x (EntryResume (mkToken "x" 1)) options_x world_done = (w', Some (Some result_done, None)).
Proof.
  eexists. cbn [enter]. unfold ResumeDurable. change (validateRunOptions options_x) with (@None error). cbv iota. unfold ranUnderSession, underSession.
  change (acquireSession runner_x (tok_ThreadID (mkToken "x" 1)) world_done) with (with_store world_done store_done_taken, Ok taker_lease : res ExecutionLease).
  cbv iota beta. rewrite prepared_done; [|reflexivity|reflexivity]. rewrite ran_done by reflexivity. reflexivity.
Qed.

Lemma completed_execution_durable_witness : exists (w' : memory_world) head, store_head w' "x" = Some head /\
  completed_head runner_x "x" head result_done.
Proof.
  destruct (completed_execution_durable text_of runner_x (EntryResume (mkToken "x" 1)) options_x world_done world_done_inv options_x_quiet
    (two_nodes_in_session _)) as (w' & out & He & Hout).
  destruct resumed_done as (w1 & Hr). rewrite Hr in He. injection He as <- <-. exists w1. apply Hout; reflexivity.
Defined.
